(* ===== verification/_CoqProject ===== *)
-Q . S2P
Prelude.v
Mem.v
Lanes.v
Blocks.v
Compare.v
Scan.v
Strcmp.v
Strings.v
StringsOk.v
Choice.v
Kal.v
FdTable.v
FdTableOk.v
FdTheorems.v
Names.v
NamesOk.v
NamesTheorems.v
Region.v
RegionOk.v
RegionTheorems.v
MapFile.v
MapFileTheorems.v
Context.v
ContextOk.v
ContextTheorems.v
Mutex.v
Net.v
NetOk.v
NetTheorems.v
NetAddr.v
Poll.v
PollTheorems.v
Dents.v
DentsTheorems.v
Transfer.v
TransferOk.v
TransferTheorems.v
StreamTheorems.v
Nodes.v
NodesTheorems.v
Children.v
ChildrenTheorems.v
MallocCache.v
MallocCacheOk.v
MallocCacheTheorems.v
Threads.v
ThreadsTheorems.v
Spawn.v
SpawnTheorems.v
Select.v
Terminal.v
Calls.v
CallsTheorems.v
Programs.v
ProgramsTheorems.v
Mmap.v
MmapTheorems.v
Paths.v
PathsTheorems.v
Clocks.v
Requests.v
Vectors.v
VectorsTheorems.v
Start.v
StartOk.v
StartTheorems.v
Image.v
Placed.v
PlacedTheorems.v
ImageTheorems.v
Emutls.v
MiPrim.v
Replacements.v
ReplacementsTheorems.v
Report.v
ReportTheorems.v
Dispatch.v
MiEnv.v
Grants.v
Formats.v
