(* ===== verification/Prelude.v ===== *)
(** * openkal-musl, verified

    openkal-musl is musl 1.2.5 with its system calls answered by openkal instead of a
    kernel. What is the project's own is the port layer, [port/src]: it keeps the state a
    kernel would have kept (descriptors, sockets, memory, threads, programs started), makes
    each call out of openkal's operations, and replaces a few of musl's sources outright.
    This library models that layer and proves what makes it correct. The calls themselves,
    [kal_*], are openkal's and not in this repository.

    ** How the code is modelled

    - A w-bit integer is a [Z] whose wrap-around is written out ([wrap32], [wrap64],
      [sext32], [sext64]); a byte is a [Z] below 256; a C string is a list of bytes.
    - An operation with state is in the monad [M S A] of Kal.v: a state to an answer and a
      state, or to [None] where the C would leave the bounds of an array or read a record
      that is not there. A theorem that an operation returns [Some] is therefore also the
      theorem that it does not. Memory itself (Mem.v) faults outside what is mapped.
    - openkal's answers are arguments of the operation that asks, or of the step at which
      it asks; what is asked is in a log, where a theorem speaks of it. Where several
      answers must agree with each other (a file read at a position and then written) the
      environment is a type with the class [KalIo] and the class [KalFiles] of what
      openkal documents of files (Transfer.v, TransferOk.v), met by a disk; a file opened to
      append is outside it, files of one node hold the same, and a seek may be refused.
      What is documented and relied on elsewhere stands as named hypotheses of the
      theorem or as guards of a step ([env_ok] of ThreadsTheorems.v).
    - A lock held is one step; what happens between two locked parts, or between two
      atomic accesses, is a step of its own, and the theorems on contexts are over every
      interleaving of the steps.
    - A loop that is not structural has fuel. The operations pass enough (the number of
      answers that are left, the length of what is searched, a bound of the source such as
      sixty-four doublings) and the theorems prove that they return: running out is
      [None], which the theorems exclude. poll's loop has the caller's bound, and
      [poll_returns] is the theorem that the rounds of that bound are enough.

    ** The files

    Shared: this file (integers, masks, tactics, lists); Kal.v (openkal's errors and
    [okm_errno], open flags, the monad, arrays, permutations by counting).

    - okm_string.c. Mem.v memory; Lanes.v vectors and masks of three instruction sets;
      Blocks.v, Compare.v, Scan.v, Strcmp.v the blocks and loops; Strings.v the functions
      in their four bodies; StringsOk.v the theorems against the plain definition of each
      function; Choice.v the body chosen once at run time through words that threads
      race to write.
    - okm_fd.c. FdTable.v descriptors, descriptions, names of directories; FdTableOk.v the
      invariant; FdTheorems.v the contracts and what is closed across contexts. Names.v,
      NamesOk.v, NamesTheorems.v the resolver of names and the working directory; Grants.v a
      held directory exchanged for one with less, and the theorem on what a program's names
      reach from its start on. Mutex.v the lock.
    - okm_region.c: Region.v, RegionOk.v, RegionTheorems.v. okm_map.c: MapFile.v,
      MapFileTheorems.v.
    - okm_context.c: Context.v, ContextOk.v, ContextTheorems.v.
    - okm_net.c: Net.v, NetOk.v, NetTheorems.v, NetAddr.v. okm_poll.c: Poll.v,
      PollTheorems.v.
    - okm_syscall.c. Dents.v, DentsTheorems.v directory listing; Transfer.v, TransferOk.v,
      TransferTheorems.v, StreamTheorems.v read, write, the positional forms and
      copy_file_range; Vectors.v, VectorsTheorems.v the forms over several buffers; Nodes.v,
      NodesTheorems.v open, stat, links and chmod; Paths.v, PathsTheorems.v the calls that
      name a file and change it; Calls.v, CallsTheorems.v descriptors and locks as a caller
      has them; Select.v select; Terminal.v the terminal; Clocks.v clocks
      and sleeping, with okm_clock.c; Requests.v what a program asks about itself; Mmap.v,
      MmapTheorems.v mappings over the three ways memory is had; Children.v,
      ChildrenTheorems.v the programs started, with okm_fork.c; Programs.v,
      ProgramsTheorems.v exec, fork and kill.
    - okm_spawn.c: Spawn.v, SpawnTheorems.v. okm_thread.c: Threads.v, ThreadsTheorems.v.
    - okm_start.c: Start.v, StartOk.v, StartTheorems.v.
    - image/okm_image.c. Image.v, ImageTheorems.v an image's own symbols, with okm_phdr.c;
      Placed.v, PlacedTheorems.v dlopen and dlclose; Emutls.v a thread's variables.
    - mallocng/okm_malloc_tc.c: MallocCache.v, MallocCacheOk.v, MallocCacheTheorems.v, over
      the masks of mallocng's groups. mimalloc/okm_mimalloc_prim.c: MiPrim.v
      its memory; MiEnv.v its options, figures, randomness and thread's key.
    - okm_format.c, and what okm_spawn.c does where the target is Windows: Formats.v.
    - okm_mman.c, okm_getcwd.c, okm_fcntl.c, okm_realpath.c: Replacements.v,
      ReplacementsTheorems.v.
    - okm_syscall.c, the report of calls that are missing, the version and uname: Report.v,
      ReportTheorems.v; its two switches over the numbers of three architectures: Dispatch.v.

    A file without a suffix holds the data and the operations, named as in the source, and
    where it is small its theorems too; ...Ok.v the invariant and that every operation keeps
    it; ...Theorems.v what is claimed.

    ** What the theorems show

    - Strings: each function, in each body, gives what its plain definition gives on every
      input that is mapped, reading nothing outside the pages the strings touch
      ([memmove_correct] and [strcmp_correct]; the others in the same file). The choice of a
      body is made once and seen by all ([choice_safe]).
    - Descriptors: the table's invariant holds across contexts; a resource is closed once,
      by the context that let the last reference go and outside the lock
      ([closed_exactly_once]); pipe2 on every branch holds or closes what it opens
      ([pipe2_exact]). The lock is one
      holder's and no wake is lost ([mutex_safe]).
    - Names: normalisation is lexical resolution ([normalise_lexical]), what is handed on
      never ascends, from the start of a program whose first supplied name is rooted or whose
      supplied names are no volumes ([resolve_beneath]); once a held directory is attenuated no name reaches
      the one it was derived from ([attenuated_everywhere]); realpath asks the environment only of names that
      lose nothing by it ([realpath_plain]).
    - Memory: the record of ranges is what is reserved ([region_reserved_recorded]); the
      three tables of mappings together are an address space ([mmap_refines]), in an
      environment that keeps apart what it gives, which of a file is the part before its end; mimalloc's
      primitives give back exactly what they took and nothing of a snapshot's
      ([mi_prim_accounted]), its options are answered as a search of the named values answers
      ([getenv_exact]) and a snapshot's initialisers ask for nothing ([sealed_asks_nothing]);
      no slot of the allocator is two owners' ([slots_never_shared]).
    - Contexts: the lock-free table implements a map ([contexts_implement_map]) under
      every interleaving of its atomic accesses ([contexts_at_once]); contexts are waited for
      once and no record is read after it was freed ([threads_waited]); what a futex operation
      asks for does not wrap ([futex_asks]); exiting is returning from the entry
      ([exit_as_return]).
    - Sockets and readiness: everything the environment opened for a socket is held by one
      slot until it is closed once ([sockets_accounted]); poll returns within its bound and
      never makes an attempt that would wait for ever ([poll_returns]); what it reports as
      readable the next read, receive or accept answers ([poll_delivers]); select is poll of
      its sets ([select_exact]); a datagram is exactly its part's bytes, to the address
      given, and a stream's parts go one after another, each whole before the next
      ([messages_whole]).
    - Files: a listing loses and repeats nothing whatever the buffers
      ([getdents_lossless]); open leaks nothing ([openat_exact]); chmod answers zero only
      where stat then agrees ([chmod_honest]); the calls that name a file make the change asked
      for or none, a removal whatever the node's kind ([paths_all_or_nothing]); a stream's
      bytes come in order through read and readv, and are written once
      ([stream_in_order], [readv_in_order]); positional transfers equal the reference on
      the concatenated buffers ([positional_transfer]); copy_file_range between two
      nodes copies what it says ([copy_file_range_copies]).
      A terminal's mode is restored by the termios that was read ([termios_restores]).
    - Programs: children are neither lost nor reaped twice ([children_accounted]); a program
      started has the streams its file actions give it and what was opened for the start is
      closed ([spawn_exact]); exec stands in for the program it starts ([exec_stands_in]);
      kill reaches only what it names, itself by the signal's default action ([kill_exact]).
      The identifiers of programs are an int, and these hold while any is left. On Windows the name enquired of is the name
      started ([startable_name_exact]), and constructors run in the order of the list
      ([hooks_in_order]).
    - Start: a program reads the arguments and named values it was started with
      ([environment_read]), whatever is refused nothing is overrun and one name at most is
      lost ([start_accounted]), and a snapshot's program is brought up as one started
      directly ([snapshot_as_direct]).
    - Images: a symbol is found where the linker put it ([symbol_found]); modules are
      unloaded once, at the last close ([images_accounted]); an image that is needed is looked
      for beside the one that needs it ([needed_beside]); a thread's variable stays until
      the last round of destructors ([emutls_storage]), where its size does not wrap.
    - The dispatcher: on each architecture a number chooses the arm of its label, through
      both switches, what the arm calls receives values of its parameters' types, and a
      number that has no arm is reported ([dispatch_typed]), once, however contexts
      interleave ([absent_once]). isatty says which descriptors are terminals
      ([isatty_exact]).

    Some theorems state, in whole or in their last part, what the code does where that is
    not what it means to: [unknown_directory_drops_ascent], [contexts_race_refused],
    [copy_loses_place], [spawn_dup_reads_caller], [futex_asks], [select_names_unasked],
    [locks_exact], [copy_ends_original], [munmap_frees_unknown], [utimens_roundtrip],
    [statx_flag_in_mask], [sleep_exact], [sigaction_agrees], [affinity_exact],
    [readv_reads_on], [name_lost], [hash_carries], [program_handle_null],
    [record_unchecked], [fcntl_duplicates], [domain_unset], [fstatfs_absent],
    [image_name_overruns], [getenv_stale], [record_left_open], [pids_used_up],
    [kill_ends_child], [volume_cwd_ascends], [munmap_obscured], [removal_of_either_kind],
    [copy_within_one] and [pipe2_exact].

    ** What is not modelled

    Of okm_syscall.c nothing is left out; an arm of several statements is a name in
    Dispatch.v and a definition in its component's file. Of okm_start.c: the program's
    initialisers and main, which are the caller's. Of mimalloc/: the primitives that answer
    a constant, and malloc's names, which call mimalloc's. Not at all: okm_setjmp.S
    (assembly), checks made at build time, musl itself (vendored), mimalloc and the loader's
    library (not in this repository), the generated headers, the examples, the benchmarks
    and the tools. Errors of memory ordering weaker than the sequential consistency of the
    atomic accesses are not represented. *)
From stdpp Require Import gmap list fin_maps.
From Stdlib Require Export ZifyBool.
From Stdlib Require Import ZArith Lia.

#[local] Open Scope Z_scope.

(** ** Machine integers: a w-bit unsigned value is a [Z] reduced modulo 2^w. *)

Definition wrap64 (z : Z) : Z := z mod 2 ^ 64.
Definition wrap32 (z : Z) : Z := z mod 2 ^ 32.
Definition UINTPTR_MAX : Z := 2 ^ 64 - 1.

(** [sext32] reads a 32-bit pattern as the [int] it denotes, [sext64] a 64-bit one. *)
Definition sext32 (z : Z) : Z := (z + 2 ^ 31) mod 2 ^ 32 - 2 ^ 31.
Definition sext64 (z : Z) : Z := (z + 2 ^ 63) mod 2 ^ 64 - 2 ^ 63.

(** [__builtin_ctz] and [__builtin_ctzll]: the index of the lowest set bit
    (undefined at zero, where every caller in the sources has tested first). *)
Fixpoint ctz_pos (p : positive) : Z :=
  match p with
  | xO q => 1 + ctz_pos q
  | _ => 0
  end.

Definition ctz (z : Z) : Z :=
  match z with
  | Zpos p => ctz_pos p
  | Zneg p => ctz_pos p
  | Z0 => 0
  end.

(** ** Automation *)

(** Turns the boolean tests of the sources into the propositions they decide. *)
Ltac boolean :=
  repeat match goal with
  | H : (_ && _)%bool = true |- _ => apply andb_true_iff in H; destruct H
  | H : (_ || _)%bool = false |- _ => apply orb_false_iff in H; destruct H
  | H : (_ || _)%bool = true |- _ => apply orb_true_iff in H
  | H : (_ && _)%bool = false |- _ => apply andb_false_iff in H
  | H : negb _ = true |- _ => apply negb_true_iff in H
  | H : negb _ = false |- _ => apply negb_false_iff in H
  | H : (_ <? _) = true |- _ => apply Z.ltb_lt in H
  | H : (_ <? _) = false |- _ => apply Z.ltb_ge in H
  | H : (_ <=? _) = true |- _ => apply Z.leb_le in H
  | H : (_ <=? _) = false |- _ => apply Z.leb_gt in H
  | H : (_ =? _) = true |- _ => apply Z.eqb_eq in H
  | H : (_ =? _) = false |- _ => apply Z.eqb_neq in H
  end.

(** Case analysis on every [if] of the goal over a boolean test. *)
Ltac split_if :=
  match goal with
  | |- context [if ?b then _ else _] =>
      match type of b with
      | bool => destruct b eqn:?
      | _ => destruct b
      end
  end; boolean.

Ltac split_ifs := repeat split_if.

(** ** Lemmas on the lowest set bit *)

Lemma ctz_pos_nonneg p : 0 <= ctz_pos p.
Proof. induction p; simpl; lia. Qed.

Lemma ctz_nonneg z : 0 <= ctz z.
Proof. destruct z; simpl; auto using ctz_pos_nonneg; lia. Qed.

Lemma ctz_double z : z <> 0 -> ctz (2 * z) = 1 + ctz z.
Proof. by destruct z. Qed.

Lemma ctz_odd z : ctz (2 * z + 1) = 0.
Proof. destruct z as [|p|p]; [done|done|]. destruct p; done. Qed.

Lemma ctz_shift z k : z <> 0 -> 0 <= k -> ctz (2 ^ k * z) = k + ctz z.
Proof.
  intros Hz Hk. revert z Hz. pattern k. apply natlike_ind; [| |done].
  - intros z _. rewrite Z.pow_0_r, Z.mul_1_l. lia.
  - intros x Hx IH z Hz. rewrite Z.pow_succ_r by done.
    rewrite <-Z.mul_assoc, ctz_double by (apply Z.neq_mul_0; split; [lia|done]).
    rewrite IH by done. lia.
Qed.

Lemma ctz_low r k z : 0 <= k -> 0 < r < 2 ^ k -> ctz (r + 2 ^ k * z) = ctz r.
Proof.
  intros Hk. revert r z. pattern k. apply natlike_ind; [| |done].
  - intros r z. rewrite Z.pow_0_r. lia.
  - intros x Hx IH r z Hr. rewrite Z.pow_succ_r in * by done.
    destruct (Z.eq_dec (r mod 2) 0) as [H0|H0].
    + assert (r = 2 * (r / 2)) as E by (pose proof (Z.div_mod r 2); lia).
      rewrite E. rewrite (ctz_double (r / 2)) by lia.
      replace (2 * (r / 2) + 2 * 2 ^ x * z) with (2 * (r / 2 + 2 ^ x * z)) by lia.
      assert (0 < r / 2 < 2 ^ x) by lia.
      assert (0 <> r / 2 + 2 ^ x * z).
      { intros E0. assert (r / 2 mod 2 ^ x = 0) as M.
        { replace (r / 2) with ((- z) * 2 ^ x) by lia. apply Z.mod_mul. lia. }
        rewrite Z.mod_small in M; lia. }
      rewrite ctz_double by lia. rewrite IH; lia.
    + assert (r mod 2 = 1) by (pose proof (Z.mod_pos_bound r 2); lia).
      assert (r = 2 * (r / 2) + 1) as E by (pose proof (Z.div_mod r 2); lia).
      rewrite E. rewrite (ctz_odd (r / 2)).
      replace (2 * (r / 2) + 1 + 2 * 2 ^ x * z) with (2 * (r / 2 + 2 ^ x * z) + 1) by lia.
      apply ctz_odd.
Qed.

Lemma ctz_le z : 0 < z -> 2 ^ ctz z <= z.
Proof.
  destruct z as [|p|p]; [done| |done]. intros _. simpl ctz. induction p as [p IH|p IH|]; simpl ctz_pos.
  - simpl. lia.
  - rewrite Z.pow_add_r by (try lia; apply ctz_pos_nonneg). change (2 ^ 1) with 2. lia.
  - done.
Qed.

(** ** Bits of a number given by its low digit and the rest *)

Lemma testbit_cons k u U n : 0 <= k -> 0 <= n -> 0 <= u < 2 ^ k ->
  Z.testbit (u + 2 ^ k * U) n = if n <? k then Z.testbit u n else Z.testbit U (n - k).
Proof.
  intros Hk Hn Hu. split_if.
  - rewrite <-(Z.mod_pow2_bits_low (u + 2 ^ k * U) k) by lia. rewrite Z.mul_comm, Z.mod_add, Z.mod_small by lia. done.
  - replace n with (n - k + k) at 1 by lia. rewrite <-Z.div_pow2_bits by lia.
    rewrite Z.mul_comm, Z.div_add, Z.div_small by lia. by rewrite Z.add_0_l.
Qed.

(** A number all of whose bits are below [k]. *)
Lemma bits_bound k z : 0 <= k -> 0 <= z -> (forall n, k <= n -> Z.testbit z n = false) -> z < 2 ^ k.
Proof.
  intros Hk Hz H. destruct (decide (z < 2 ^ k)) as [|Hge]; [done|]. exfalso.
  assert (0 < z) by (pose proof (Z.pow_pos_nonneg 2 k); lia).
  specialize (H (Z.log2 z)). rewrite Z.bit_log2 in H by done. discriminate H.
  apply Z.log2_le_pow2; lia.
Qed.

Lemma testbit_above k z n : 0 <= z < 2 ^ k -> 0 <= k <= n -> Z.testbit z n = false.
Proof.
  intros Hz Hn. apply Z.testbit_false; [lia|]. rewrite Z.div_small; [done|].
  pose proof (Z.pow_le_mono_r 2 k n). lia.
Qed.

Section digits.
Context (k x y A B : Z) (Hk : 0 <= k) (Hx : 0 <= x < 2 ^ k) (Hy : 0 <= y < 2 ^ k).

Lemma land_digit : 0 <= Z.land x y < 2 ^ k.
Proof using Hk Hx Hy.
assert (0 <= Z.land x y) by (apply Z.land_nonneg; lia). split; [done|].
apply bits_bound; [done..|]. intros n Hn. by rewrite Z.land_spec, (testbit_above k x).
Qed.

Lemma lor_digit : 0 <= Z.lor x y < 2 ^ k.
Proof using Hk Hx Hy.
assert (0 <= Z.lor x y) by (apply Z.lor_nonneg; lia). split; [done|].
apply bits_bound; [done..|]. intros n Hn. by rewrite Z.lor_spec, (testbit_above k x), (testbit_above k y).
Qed.

Lemma lxor_digit : 0 <= Z.lxor x y < 2 ^ k.
Proof using Hk Hx Hy.
assert (0 <= Z.lxor x y) by (apply Z.lxor_nonneg; lia). split; [done|].
apply bits_bound; [done..|]. intros n Hn. by rewrite Z.lxor_spec, (testbit_above k x), (testbit_above k y).
Qed.

Lemma land_cons : Z.land (x + 2 ^ k * A) (y + 2 ^ k * B) = Z.land x y + 2 ^ k * Z.land A B.
Proof.
pose proof land_digit. apply Z.bits_inj'. intros n Hn.
rewrite Z.land_spec, !testbit_cons by done. split_if; by rewrite Z.land_spec.
Qed.

Lemma lor_cons : Z.lor (x + 2 ^ k * A) (y + 2 ^ k * B) = Z.lor x y + 2 ^ k * Z.lor A B.
Proof.
pose proof lor_digit. apply Z.bits_inj'. intros n Hn.
rewrite Z.lor_spec, !testbit_cons by done. split_if; by rewrite Z.lor_spec.
Qed.

Lemma lxor_cons : Z.lxor (x + 2 ^ k * A) (y + 2 ^ k * B) = Z.lxor x y + 2 ^ k * Z.lxor A B.
Proof.
pose proof lxor_digit. apply Z.bits_inj'. intros n Hn.
rewrite Z.lxor_spec, !testbit_cons by done. split_if; by rewrite Z.lxor_spec.
Qed.
End digits.

(** The exclusive or of two bytes is a byte. *)
Lemma lxor_byte x y : 0 <= x < 256 -> 0 <= y < 256 -> 0 <= Z.lxor x y < 256.
Proof. apply (lxor_digit 8). lia. Qed.

(** ** Masks that are powers of two *)

Lemma land_low x k : 0 <= k -> Z.land x (2 ^ k - 1) = x mod 2 ^ k.
Proof.
  intros Hk. replace (2 ^ k - 1) with (Z.ones k) by (rewrite Z.ones_equiv; lia).
  by apply Z.land_ones.
Qed.

Lemma land_high x k : 0 <= k -> Z.land x (Z.lnot (2 ^ k - 1)) = x - x mod 2 ^ k.
Proof.
  intros Hk. rewrite <-Z.ldiff_land. replace (2 ^ k - 1) with (Z.ones k) by (rewrite Z.ones_equiv; lia).
  rewrite Z.ldiff_ones_r by done. rewrite Z.shiftl_mul_pow2, Z.shiftr_div_pow2 by done.
  pose proof (Z.div_mod x (2 ^ k)). lia.
Qed.

(** A number that shares no bit with its predecessor is a power of two. *)
Lemma land_pred_pow2 x : 0 < x -> Z.land x (x - 1) = 0 -> x = 2 ^ Z.log2 x.
Proof.
  intros Hx H. destruct (decide (x = 2 ^ Z.log2 x)) as [|Hne]; [done|]. exfalso.
  destruct (Z.log2_spec x Hx) as [Hl Hu]. pose proof (Z.log2_nonneg x) as Hn.
  assert (Z.log2 (x - 1) = Z.log2 x) as E by (apply Z.log2_unique; [done|]; unfold Z.succ in *; lia).
  assert (Z.testbit (Z.land x (x - 1)) (Z.log2 x) = true) as Hb.
  { rewrite Z.land_spec, Z.bit_log2 by done. rewrite <-E, Z.bit_log2; [done|].
    pose proof (Z.pow_pos_nonneg 2 (Z.log2 x)). lia. }
  by rewrite H, Z.testbit_0_l in Hb.
Qed.

Lemma wrap64_small z : 0 <= z < 2 ^ 64 -> wrap64 z = z.
Proof. apply Z.mod_small. Qed.

Lemma multiple_add a w k : a mod w = 0 -> (a + k * w) mod w = 0.
Proof.
  intros H. destruct (Z.eq_dec w 0) as [->|]; [by rewrite Z.mul_0_r, Z.add_0_r|].
  by rewrite Z.mod_add.
Qed.

Lemma multiple_add_1 a w : a mod w = 0 -> (a + w) mod w = 0.
Proof. intros. rewrite <-(Z.mul_1_l w) at 1. by apply multiple_add. Qed.

(** The distance to the next multiple, as [16 - (d & 15)] computes it. *)
Lemma align_up_mod d w : 0 < w -> (d + (w - d mod w)) mod w = 0.
Proof.
  intros Hw. pose proof (Z.div_mod d w ltac:(lia)).
  replace (d + (w - d mod w)) with ((d / w + 1) * w) by lia. by apply Z.mod_mul; lia.
Qed.
