(* ===== verification/Mem.v ===== *)
(** Byte-addressed memory with faults.

    A memory maps the addresses a program may touch to bytes; a load or a store
    that touches any other address is a fault ([None]). A theorem that a function
    returns [Some] is therefore also the theorem that it reads and writes only
    where it may. *)
From S2P Require Import Prelude.
From stdpp Require Import gmap list fin_maps.
From Stdlib Require Import ZArith Lia.

#[local] Open Scope Z_scope.

Create HintDb mem.

Abbreviation mem := (gmap Z Z).

(** ** Loads and stores *)

(** [ld w m p]: the [w] bytes at [p]. *)
Fixpoint ld (w : nat) (m : mem) (p : Z) : option (list Z) :=
  match w with
  | O => Some []
  | S k =>
      match m !! p, ld k m (p + 1) with
      | Some b, Some v => Some (b :: v)
      | _, _ => None
      end
  end.

(** [st m p v]: the bytes [v] written from [p] on. *)
Fixpoint st (m : mem) (p : Z) (v : list Z) : option mem :=
  match v with
  | [] => Some m
  | b :: v' =>
      match m !! p with
      | Some _ => st (<[p := b]> m) (p + 1) v'
      | None => None
      end
  end.

(** Little-endian words. *)
Fixpoint le_combine (v : list Z) : Z :=
  match v with
  | [] => 0
  | b :: v' => b + 256 * le_combine v'
  end.

Fixpoint le_split (n : nat) (z : Z) : list Z :=
  match n with
  | O => []
  | S k => z mod 256 :: le_split k (z / 256)
  end.

(** [*(const okm_u64u* )p] and its narrower kin: a word of [w] bytes. *)
Definition ld_word (w : nat) (m : mem) (p : Z) : option Z := le_combine <$> ld w m p.
Definition st_word (w : nat) (m : mem) (p : Z) (z : Z) : option mem := st m p (le_split w z).

(** A vector of [w] equal bytes ([splat16]). *)
Definition splat (w : nat) (c : Z) : list Z := replicate w c.

(** ** Specifications the clients share *)

(** The bytes [p, p+n) may be touched. *)
Definition mapped (m : mem) (p n : Z) : Prop := forall a, p <= a < p + n -> is_Some (m !! a).

(** Memory holds bytes. *)
Definition bytes_ok (m : mem) : Prop := forall a b, m !! a = Some b -> 0 <= b < 256.

(** [m'] is [m] with the [n] bytes that [m0] has at [s] placed at [d]. *)
Definition copied (m0 : mem) (s : Z) (m : mem) (d n : Z) (m' : mem) : Prop :=
  forall a, m' !! a = if (d <=? a) && (a <? d + n) then m0 !! (s + (a - d)) else m !! a.

(** [m'] is [m] with the bytes [d, d+n) set to [c]. *)
Definition filled (m : mem) (c d n : Z) (m' : mem) : Prop :=
  forall a, m' !! a = if (d <=? a) && (a <? d + n) then Some c else m !! a.

(** ** Lemmas on loads *)

Lemma ld_length w m p v : ld w m p = Some v -> length v = w.
Proof.
  revert p v. induction w as [|w IH]; intros p v H; simpl in H; [by simplify_eq|].
  destruct (m !! p); [|done]. destruct (ld w m (p + 1)) eqn:E; [|done].
  simplify_eq. simpl. by rewrite (IH _ _ E).
Qed.

Lemma ld_lookup w m p v i : ld w m p = Some v -> (i < w)%nat -> v !! i = m !! (p + Z.of_nat i).
Proof.
  revert p v i. induction w as [|w IH]; intros p v i H Hi; [lia|]. simpl in H.
  destruct (m !! p) eqn:Ep; [|done]. destruct (ld w m (p + 1)) eqn:E; [|done].
  simplify_eq. destruct i as [|i]; simpl.
  - rewrite Z.add_0_r. by rewrite Ep.
  - rewrite (IH _ _ i E) by lia. f_equal. lia.
Qed.

Lemma ld_some w m p : mapped m p (Z.of_nat w) -> exists v, ld w m p = Some v.
Proof.
  revert p. induction w as [|w IH]; intros p H; [by eexists|]. simpl.
  destruct (H p) as [b Hb]; [lia|]. rewrite Hb.
  destruct (IH (p + 1)) as [v ->]; [intros a Ha; apply H; lia|]. by eexists.
Qed.

Lemma mapped_sub m p n q k : mapped m p n -> p <= q -> q + k <= p + n -> mapped m q k.
Proof. intros H ?? a ?. apply H. lia. Qed.

(** ** Lemmas on stores *)

Lemma st_spec m p v m' :
  st m p v = Some m' ->
  forall a, m' !! a = if (p <=? a) && (a <? p + Z.of_nat (length v)) then v !! Z.to_nat (a - p) else m !! a.
Proof.
  revert m p. induction v as [|b v IH]; intros m p H a; simpl in H.
  - simplify_eq. simpl. split_if; [lia|done].
  - destruct (m !! p) eqn:E; [|done]. rewrite (IH _ _ H a). cbn [length]. split_ifs; try lia.
    + replace (Z.to_nat (a - p)) with (S (Z.to_nat (a - (p + 1)))) by lia. done.
    + replace a with p by lia. rewrite lookup_insert_eq, Z.sub_diag. done.
    + rewrite lookup_insert_ne by lia. done.
Qed.

Lemma st_some m p v : mapped m p (Z.of_nat (length v)) -> exists m', st m p v = Some m'.
Proof.
  revert m p. induction v as [|b v IH]; intros m p H; simpl; [by eexists|].
  destruct (H p) as [x Hx]; [simpl; lia|]. rewrite Hx. apply IH.
  intros a Ha. destruct (decide (a = p)) as [->|]; [rewrite lookup_insert_eq; eauto|].
  rewrite lookup_insert_ne by done. apply H. simpl. lia.
Qed.

(** A block loaded and stored elsewhere. *)
Lemma st_ld w m1 p m2 q v m3 :
  ld w m1 p = Some v -> st m2 q v = Some m3 -> copied m1 p m2 q (Z.of_nat w) m3.
Proof.
  intros Hl Hs a. rewrite (st_spec _ _ _ _ Hs a), (ld_length _ _ _ _ Hl).
  split_if; [|done]. rewrite (ld_lookup _ _ _ _ _ Hl) by lia. f_equal. lia.
Qed.

Lemma st_splat w m p c m' : st m p (splat w c) = Some m' -> filled m c p (Z.of_nat w) m'.
Proof.
  intros H a. rewrite (st_spec _ _ _ _ H a). unfold splat. rewrite length_replicate.
  split_if; [|done]. apply lookup_replicate_2. lia.
Qed.

Lemma copied_mapped m0 s m d n m' p k :
  copied m0 s m d n m' -> mapped m0 s n -> mapped m p k -> mapped m' p k.
Proof. intros H H0 Hm a Ha. rewrite (H a). split_if; [apply H0; lia|by apply Hm]. Qed.

Lemma filled_mapped m c d n m' p k : filled m c d n m' -> mapped m p k -> mapped m' p k.
Proof. intros H Hm a Ha. rewrite (H a). split_if; [eauto|by apply Hm]. Qed.

Lemma st_mapped m p v m' q k : st m p v = Some m' -> mapped m q k -> mapped m' q k.
Proof.
  intros H Hm a Ha. rewrite (st_spec _ _ _ _ H a). split_if; [|by apply Hm].
  apply lookup_lt_is_Some. lia.
Qed.

(** ** Words *)

Lemma le_split_combine v : Forall (fun b => 0 <= b < 256) v -> le_split (length v) (le_combine v) = v.
Proof.
  induction 1 as [|b v Hb _ IH]; simpl; [done|]. f_equal.
  - rewrite Z.mul_comm, Z.mod_add by lia. by apply Z.mod_small.
  - rewrite Z.mul_comm, Z.div_add, Z.div_small by lia. by rewrite Z.add_0_l.
Qed.

Lemma ld_bytes w m p v : bytes_ok m -> ld w m p = Some v -> Forall (fun b => 0 <= b < 256) v.
Proof.
  intros Hm H. apply Forall_lookup. intros i x Hx.
  pose proof (lookup_lt_Some _ _ _ Hx) as Hi. rewrite (ld_length _ _ _ _ H) in Hi.
  rewrite (ld_lookup _ _ _ _ _ H Hi) in Hx. eauto.
Qed.

(** A word loaded and stored elsewhere moves its bytes. *)
Lemma st_ld_word w m1 p m2 q z m3 :
  bytes_ok m1 -> ld_word w m1 p = Some z -> st_word w m2 q z = Some m3 ->
  copied m1 p m2 q (Z.of_nat w) m3.
Proof.
  unfold ld_word, st_word. intros Hb Hl Hs. destruct (ld w m1 p) as [v|] eqn:E; [|done].
  simpl in Hl. simplify_eq. rewrite <-(ld_length _ _ _ _ E) in Hs at 1.
  rewrite le_split_combine in Hs by eauto using ld_bytes. eauto using st_ld.
Qed.

Lemma length_le_split n z : length (le_split n z) = n.
Proof. revert z. induction n; intros; simpl; auto. Qed.

Lemma ld_word_some w m p : mapped m p (Z.of_nat w) -> exists z, ld_word w m p = Some z.
Proof. intros H. destruct (ld_some _ _ _ H) as [v Hv]. unfold ld_word. rewrite Hv. by eexists. Qed.

Lemma st_word_some w m p z : mapped m p (Z.of_nat w) -> exists m', st_word w m p z = Some m'.
Proof. intros H. apply st_some. by rewrite length_le_split. Qed.

Lemma st_word_mapped w m p z m' q k : st_word w m p z = Some m' -> mapped m q k -> mapped m' q k.
Proof. apply st_mapped. Qed.

#[export] Hint Resolve ld_length ld_bytes st_mapped st_word_mapped copied_mapped filled_mapped : mem.

(** ** Aligned accesses: [lda16], [lda32] and stores through [v16a*], [v32a*].
    An address that is not a multiple of the vector is a fault. *)
Definition ld_al (w : nat) (m : mem) (p : Z) : option (list Z) :=
  if p mod Z.of_nat w =? 0 then ld w m p else None.
Definition st_al (w : nat) (m : mem) (p : Z) (v : list Z) : option mem :=
  if p mod Z.of_nat w =? 0 then st m p v else None.

Lemma ld_al_eq w m p : p mod Z.of_nat w = 0 -> ld_al w m p = ld w m p.
Proof. unfold ld_al. intros ->. done. Qed.

Lemma st_al_eq w m p v : p mod Z.of_nat w = 0 -> st_al w m p v = st m p v.
Proof. unfold st_al. intros ->. done. Qed.

(** ** Stepping through straight-line code
    [mem_ld] performs the next load of the goal and [mem_st] the next store: the
    access is shown to be within what is mapped, and a store leaves the fact that
    its bytes are the ones loaded ([copied]) or set ([filled]). *)
Ltac mem_mapped :=
  match goal with
  | H : mapped ?m _ _ |- mapped ?m _ _ => solve [apply (mapped_sub _ _ _ _ _ H); lia]
  end.

(* Rewriting clears the matched equation from the way of the next step. *)
Ltac mem_ld :=
  lazymatch goal with
  | |- context [ld ?w ?m ?p] =>
      let v := fresh "v" in let H := fresh "Hld" in
      destruct (ld_some w m p) as [v H]; [solve [mem_mapped]|];
      rewrite H; cbn [mbind option_bind fmap option_fmap option_map]
  | |- context [ld_word ?w ?m ?p] =>
      let v := fresh "z" in let H := fresh "Hld" in
      destruct (ld_word_some w m p) as [v H]; [solve [mem_mapped]|];
      rewrite H; cbn [mbind option_bind fmap option_fmap option_map]
  end.

Ltac mem_transport H :=
  lazymatch type of H with
  | st ?m _ _ = Some ?m1 =>
      repeat match goal with
      | Hm : mapped m ?p ?k |- _ =>
          lazymatch goal with
          | _ : mapped m1 p k |- _ => fail
          | _ => pose proof (st_mapped _ _ _ _ p k H Hm)
          end
      end
  end.

Ltac mem_st :=
  lazymatch goal with
  | |- context [st_word ?w ?m ?p ?z] =>
      let m1 := fresh "m" in let H := fresh "Hst" in
      destruct (st_word_some w m p z) as [m1 H]; [solve [mem_mapped]|];
      rewrite H; cbn [mbind option_bind];
      pose proof H as Htmp; unfold st_word in Htmp; mem_transport Htmp; clear Htmp;
      match goal with
      | Hb : bytes_ok ?m0, Hl : ld_word w ?m0 _ = Some z |- _ =>
          apply (st_ld_word _ _ _ _ _ _ _ Hb Hl) in H
      end
  | |- context [st ?m ?p ?v] =>
      let m1 := fresh "m" in let H := fresh "Hst" in
      destruct (st_some m p v) as [m1 H];
      [ match goal with
        | Hl : ld _ _ _ = Some v |- _ => rewrite (ld_length _ _ _ _ Hl)
        | _ => unfold splat; rewrite length_replicate
        end; solve [mem_mapped]
      |];
      rewrite H; cbn [mbind option_bind]; mem_transport H;
      first [ match goal with
              | Hl : ld _ _ _ = Some v |- _ => apply (st_ld _ _ _ _ _ _ _ Hl) in H
              end
            | apply st_splat in H ]
  end.

(** Closes [copied] and [filled] goals: the last store that covers an address
    decides its byte. *)
Ltac mem_close :=
  let a := fresh "a" in
  intros a;
  repeat match goal with
  | H : copied _ _ _ _ _ ?m' |- context [?m' !! a] => rewrite (H a)
  | H : filled _ _ _ _ ?m' |- context [?m' !! a] => rewrite (H a)
  end;
  split_ifs; try lia; try done; try (f_equal; lia).
