(* ===== verification/Lanes.v ===== *)
(** Vectors of bytes and the masks of three instruction sets, as
    port/src/okm_string.c uses them: lane-wise operations, SSE2's and AVX2's
    one-bit-per-lane mask, NEON's four-bit one, and the interface ([MaskLaws])
    against which the functions over sixteen and thirty-two bytes are verified. *)
From S2P Require Import Prelude Mem.
From stdpp Require Import gmap list fin_maps.
From Stdlib Require Import ZArith Lia.

#[local] Open Scope Z_scope.

(** ** Lanes *)

Definition eqv (a b : list Z) : list Z := zip_with (fun x y => if x =? y then 255 else 0) a b.
Definition andv (a b : list Z) : list Z := zip_with Z.land a b.
Definition orv (a b : list Z) : list Z := zip_with Z.lor a b.
Definition xorv (a b : list Z) : list Z := zip_with Z.lxor a b.
Definition minv (a b : list Z) : list Z := zip_with Z.min a b.

(** The mask [k] bits per lane that the three instruction sets' masks come to:
    all ones where a lane is not zero. *)
Fixpoint lanes_mask (k : Z) (v : list Z) : Z :=
  match v with
  | [] => 0
  | x :: v' => (if x =? 0 then 0 else 2 ^ k - 1) + 2 ^ k * lanes_mask k v'
  end.

(** What a comparison yields: lanes that are 0 or 0xff. *)
Definition lanes (w : nat) (v : list Z) : Prop :=
  length v = w /\ Forall (fun x => x = 0 \/ x = 255) v.

(** The first lane that is not zero. *)
Fixpoint first_lane (v : list Z) : option Z :=
  match v with
  | [] => None
  | x :: v' => if x =? 0 then Z.succ <$> first_lane v' else Some 0
  end.

(** The mask operations of an instruction set, and what okm_string.c needs of
    them: a mask of lanes is [lanes_mask], its first lane is found by counting
    trailing zeros, and [mo_full] is the mask of all. *)
Record maskops := MaskOps {
  mo_bits : Z;
  mo_mask : list Z -> Z;
  mo_at : Z -> Z;
  mo_full : Z;
}.

Class MaskLaws (w : nat) (mo : maskops) : Prop := {
  ml_bits : 0 < mo_bits mo;
  ml_mask : forall v, lanes w v -> mo_mask mo v = lanes_mask (mo_bits mo) v;
  ml_at : forall m, mo_at mo m = ctz m / mo_bits mo;
  ml_full : mo_full mo = 2 ^ (mo_bits mo * Z.of_nat w) - 1;
}.

(** [__builtin_ia32_pmovmskb128] and [..256]: the top bit of each lane. *)
Fixpoint pmovmskb (v : list Z) : Z :=
  match v with
  | [] => 0
  | x :: v' => (if Z.testbit x 7 then 1 else 0) + 2 * pmovmskb v'
  end.

(** NEON: each pair of lanes read as a halfword, shifted right by four and
    narrowed to a byte ([__builtin_convertvector((v8h)v >> 4, v8b)]). *)
Fixpoint shrn (v : list Z) : list Z :=
  match v with
  | x :: y :: v' => Z.shiftr (x + 256 * y) 4 mod 256 :: shrn v'
  | _ => []
  end.

(** [mask16], [AT16], [BITS16] and [FULL16] of each architecture; [mask32]. *)
Definition mask16_x86_64 : maskops := MaskOps 1 pmovmskb (fun m => ctz m) 0xffff.
Definition mask16_aarch64 : maskops :=
  MaskOps 4 (fun v => le_combine (shrn v)) (fun m => Z.shiftr (ctz m) 2) (2 ^ 64 - 1).
Definition mask32_avx2 : maskops := MaskOps 1 pmovmskb (fun m => ctz m) 0xffffffff.

(** ** Lane vectors *)

Lemma lanes_nil_inv v : lanes 0 v -> v = [].
Proof. intros [H _]. by destruct v. Qed.

Lemma lanes_cons_inv w v : lanes (S w) v -> exists x v', v = x :: v' /\ (x = 0 \/ x = 255) /\ lanes w v'.
Proof.
  intros [H1 H2]. destruct v as [|x v]; [done|]. inversion H2; subst.
  exists x, v. repeat split; [done| |done]. simpl in H1. lia.
Qed.

Lemma pmovmskb_lanes w v : lanes w v -> pmovmskb v = lanes_mask 1 v.
Proof.
  revert v. induction w as [|w IH]; intros v H; [by rewrite (lanes_nil_inv _ H)|].
  destruct (lanes_cons_inv _ _ H) as (x & v' & -> & Hx & Hv). cbn [pmovmskb lanes_mask].
  rewrite (IH _ Hv). destruct Hx as [-> | ->]; reflexivity.
Qed.

Lemma shrn_lanes w v : lanes (2 * w) v -> le_combine (shrn v) = lanes_mask 4 v.
Proof.
  revert v. induction w as [|w IH]; intros v H; [by rewrite (lanes_nil_inv _ H)|].
  replace (2 * S w)%nat with (S (S (2 * w))) in H by lia.
  destruct (lanes_cons_inv _ _ H) as (x & v1 & -> & Hx & H1).
  destruct (lanes_cons_inv _ _ H1) as (y & v2 & -> & Hy & H2).
  cbn [shrn le_combine lanes_mask]. rewrite (IH _ H2).
  destruct Hx as [-> | ->], Hy as [-> | ->]; simpl (if _ =? _ then _ else _);
    change (2 ^ 4) with 16; [change (Z.shiftr _ 4 mod 256) with 0|change (Z.shiftr _ 4 mod 256) with 240
    |change (Z.shiftr _ 4 mod 256) with 15|change (Z.shiftr _ 4 mod 256) with 255]; lia.
Qed.

#[export] Instance mask16_x86_64_laws : MaskLaws 16 mask16_x86_64.
Proof.
  split; [done|apply pmovmskb_lanes| |done]. intros m. simpl. by rewrite Z.div_1_r.
Qed.

#[export] Instance mask16_aarch64_laws : MaskLaws 16 mask16_aarch64.
Proof.
  split; [done|apply (shrn_lanes 8)| |done]. intros m. simpl mo_at.
  rewrite Z.shiftr_div_pow2 by lia. done.
Qed.

#[export] Instance mask32_avx2_laws : MaskLaws 32 mask32_avx2.
Proof.
  split; [done|apply pmovmskb_lanes| |done]. intros m. simpl. by rewrite Z.div_1_r.
Qed.

(** ** The mask of lanes *)

Section lanes_mask.
Context (k : Z) (Hk : 0 < k).

#[local] Lemma pow_pos : 1 < 2 ^ k.
Proof. apply Z.pow_gt_1; lia. Qed.

Lemma lanes_mask_nonneg v : 0 <= lanes_mask k v.
Proof. pose proof pow_pos. induction v as [|x v IH]; cbn [lanes_mask]; [done|]. split_if; nia. Qed.

Lemma lanes_mask_bound v : lanes_mask k v < 2 ^ (k * Z.of_nat (length v)).
Proof.
pose proof pow_pos. induction v as [|x v IH]; [by rewrite Z.mul_0_r|].
cbn [lanes_mask length]. replace (k * Z.of_nat (S (length v))) with (k + k * Z.of_nat (length v)) by lia.
rewrite Z.pow_add_r by lia. split_if; nia.
Qed.

Lemma lanes_mask_zero v : lanes_mask k v = 0 <-> first_lane v = None.
Proof.
pose proof pow_pos. induction v as [|x v IH]; cbn [lanes_mask first_lane]; [done|].
pose proof (lanes_mask_nonneg v). split_if.
- rewrite Z.add_0_l. split.
+ intros E. rewrite (proj1 IH) by nia. done.
+ destruct (first_lane v); [done|]. intros _. rewrite (proj2 IH) by done. lia.
- split; [nia|done].
Qed.

Lemma lanes_mask_first v i : first_lane v = Some i -> ctz (lanes_mask k v) / k = i.
Proof.
pose proof pow_pos. revert i. induction v as [|x v IH]; intros i H0; [done|].
cbn [lanes_mask first_lane] in *. split_if.
- destruct (first_lane v) as [j|] eqn:E; [|done]. simpl in H0. simplify_eq.
assert (lanes_mask k v <> 0) by (rewrite lanes_mask_zero; congruence).
rewrite Z.add_0_l, ctz_shift by lia. rewrite Z.add_comm.
replace (ctz (lanes_mask k v) + k) with (ctz (lanes_mask k v) + 1 * k) by lia.
rewrite Z.div_add by lia. rewrite (IH j) by done. lia.
- simplify_eq. rewrite ctz_low by lia.
assert (2 ^ k - 1 = 2 * (2 ^ (k - 1) - 1) + 1) as ->.
{ replace (2 ^ k) with (2 * 2 ^ (k - 1)); [lia|]. rewrite <-Z.pow_succ_r by lia. f_equal. lia. }
by rewrite ctz_odd, Z.div_0_l by lia.
Qed.

Lemma lanes_mask_shift n v : Z.shiftr (lanes_mask k v) (Z.of_nat n * k) = lanes_mask k (drop n v).
Proof.
pose proof pow_pos. revert v. induction n as [|n IH]; intros v; [by rewrite Z.shiftr_0_r|].
destruct v as [|x v]; [by rewrite Z.shiftr_0_l|]. cbn [drop lanes_mask].
rewrite <-IH. replace (Z.of_nat (S n) * k) with (k + Z.of_nat n * k) by lia.
rewrite <-Z.shiftr_shiftr by lia. f_equal. rewrite Z.shiftr_div_pow2 by lia.
rewrite Z.mul_comm, Z.div_add by lia. rewrite Z.div_small; [lia|]. split_if; lia.
Qed.

Definition notv (v : list Z) : list Z := (fun x => if x =? 0 then 255 else 0) <$> v.

Lemma lanes_mask_compl v : Z.land (2 ^ (k * Z.of_nat (length v)) - 1) (Z.lnot (lanes_mask k v)) = lanes_mask k (notv v).
Proof.
assert (lanes_mask k v + lanes_mask k (notv v) = 2 ^ (k * Z.of_nat (length v)) - 1) as E.
{ induction v as [|x v IH]; [by rewrite Z.mul_0_r|]. cbn [notv fmap list_fmap lanes_mask length].
change ((fun x => if x =? 0 then 255 else 0) <$> v) with (notv v).
replace (k * Z.of_nat (S (length v))) with (k + k * Z.of_nat (length v)) by lia.
rewrite Z.pow_add_r by lia. destruct (x =? 0); simpl (if _ =? _ then _ else _); nia. }
replace (2 ^ (k * Z.of_nat (length v)) - 1) with (Z.ones (k * Z.of_nat (length v)))
by (rewrite Z.ones_equiv; lia).
rewrite Z.land_comm, Z.land_ones by lia.
pose proof (lanes_mask_nonneg (notv v)). pose proof (lanes_mask_nonneg v).
replace (Z.lnot (lanes_mask k v)) with (lanes_mask k (notv v) + (-1) * 2 ^ (k * Z.of_nat (length v)))
by (unfold Z.lnot; lia).
rewrite Z.mod_add by lia. apply Z.mod_small. lia.
Qed.
End lanes_mask.

(** ** The first lane, by position *)

Lemma first_lane_none v : first_lane v = None <-> forall i x, v !! i = Some x -> x = 0.
Proof.
  induction v as [|y v IH]; cbn [first_lane]; [done|]. split_if.
  - subst. split.
    + intros H [|i] x; simpl; [congruence|]. apply IH. by destruct (first_lane v).
    + intros H. rewrite (proj2 IH); [done|]. intros i x. apply (H (S i)).
  - split; [done|]. intros H. exfalso. by apply Heqb, (H 0%nat).
Qed.

Lemma first_lane_some v i :
  first_lane v = Some i ->
  exists n, i = Z.of_nat n /\ (exists x, v !! n = Some x /\ x <> 0) /\
    forall k x, (k < n)%nat -> v !! k = Some x -> x = 0.
Proof.
  revert i. induction v as [|y v IH]; intros i; cbn [first_lane]; [done|]. split_if.
  - destruct (first_lane v) as [j|]; [|done]. intros [= <-].
    destruct (IH j eq_refl) as (n & -> & Hx & Hk). exists (S n). split; [lia|]. split; [done|].
    intros [|k] x Hlt; simpl; [congruence|]. apply Hk. lia.
  - intros [= <-]. exists 0%nat. split; [done|]. split; [by exists y|]. lia.
Qed.

(** ** A mask against zero *)

Section mask_laws.
Context (w : nat) (mo : maskops) `{!MaskLaws w mo}.

Lemma mask_zero v : lanes w v -> mo_mask mo v = 0 <-> first_lane v = None.
Proof. intros Hv. rewrite ml_mask by done. apply lanes_mask_zero, (@ml_bits w mo _). Qed.

Lemma mask_first v i : lanes w v -> first_lane v = Some i -> mo_at mo (mo_mask mo v) = i.
Proof.
intros Hv Hi. rewrite ml_mask by done. rewrite (@ml_at w mo _).
by apply lanes_mask_first; [apply (@ml_bits w mo _)|].
Qed.

Lemma mask_shift v n : lanes w v ->
Z.shiftr (mo_mask mo v) (Z.of_nat n * mo_bits mo) = lanes_mask (mo_bits mo) (drop n v).
Proof. intros Hv. rewrite ml_mask by done. apply lanes_mask_shift, (@ml_bits w mo _). Qed.

Lemma mask_at_lanes v i : first_lane v = Some i -> mo_at mo (lanes_mask (mo_bits mo) v) = i.
Proof. intros Hi. rewrite (@ml_at w mo _). by apply lanes_mask_first; [apply (@ml_bits w mo _)|]. Qed.
End mask_laws.

Lemma length_eqv a b : length (eqv a b) = Nat.min (length a) (length b).
Proof. apply length_zip_with. Qed.

Lemma eqv_lanes w a b : length a = w -> length b = w -> lanes w (eqv a b).
Proof.
  intros <- E. split; [rewrite length_eqv; lia|]. apply Forall_lookup. intros i x Hx.
  apply lookup_zip_with_Some in Hx as (y & z & -> & _). split_if; auto.
Qed.
