(* ===== verification/Blocks.v ===== *)
(** Straight-line block moves: what the fixed-size paths of
    port/src/okm_string.c do, by loads that may overlap and with every load
    before any store, for words and for vectors of either width. *)
From S2P Require Import Prelude Mem.
From stdpp Require Import gmap list fin_maps.
From Stdlib Require Import ZArith Lia.

#[local] Open Scope Z_scope.

(** ** Up to sixteen bytes *)

Definition copy_small (m : mem) (d s n : Z) : option mem :=
  if 8 <=? n then
    a ← ld_word 8 m s; b ← ld_word 8 m (s + n - 8);
    m ← st_word 8 m d a; st_word 8 m (d + n - 8) b
  else if 4 <=? n then
    a ← ld_word 4 m s; b ← ld_word 4 m (s + n - 4);
    m ← st_word 4 m d a; st_word 4 m (d + n - 4) b
  else if 2 <=? n then
    a ← ld_word 2 m s; b ← ld_word 2 m (s + n - 2);
    m ← st_word 2 m d a; st_word 2 m (d + n - 2) b
  else if negb (n =? 0) then
    b ← ld 1 m s; st m d b
  else Some m.

(** ** Vectors of [w] bytes *)

(** Two vectors, one from each end. *)
Definition copy_pair (w : nat) (m : mem) (d s n : Z) : option mem :=
  let W := Z.of_nat w in
  a ← ld w m s; b ← ld w m (s + n - W);
  m ← st m d a; st m (d + n - W) b.

(** Four vectors, two from each end. *)
Definition copy_quad (w : nat) (m : mem) (d s n : Z) : option mem :=
  let W := Z.of_nat w in
  a ← ld w m s; b ← ld w m (s + W); c ← ld w m (s + n - 2 * W); e ← ld w m (s + n - W);
  m ← st m d a; m ← st m (d + W) b; m ← st m (d + n - 2 * W) c; st m (d + n - W) e.

(** Forward, more than four vectors: the first vector and the last four are
    loaded before anything is stored; between them the stores are aligned. *)
Fixpoint copy_loop (w fuel : nat) (m : mem) (q p end_ : Z) : option mem :=
  let W := Z.of_nat w in
  if q <? end_ then
    match fuel with
    | O => None
    | S f =>
        a ← ld w m p; b ← ld w m (p + W); c ← ld w m (p + 2 * W); e ← ld w m (p + 3 * W);
        m ← st_al w m q a; m ← st_al w m (q + W) b; m ← st_al w m (q + 2 * W) c;
        m ← st_al w m (q + 3 * W) e;
        copy_loop w f m (q + 4 * W) (p + 4 * W) end_
    end
  else Some m.

Definition copy_big (w : nat) (m : mem) (d s n : Z) : option mem :=
  let W := Z.of_nat w in
  h ← ld w m s;
  t0 ← ld w m (s + n - 4 * W); t1 ← ld w m (s + n - 3 * W);
  t2 ← ld w m (s + n - 2 * W); t3 ← ld w m (s + n - W);
  let end_ := d + n - 4 * W in
  let skip := W - Z.land d (W - 1) in
  m ← copy_loop w (Z.to_nat n) m (d + skip) (s + skip) end_;
  m ← st m d h;
  m ← st m end_ t0; m ← st m (end_ + W) t1; m ← st m (end_ + 2 * W) t2; st m (end_ + 3 * W) t3.

(** Backward, the destination above the source: the first four vectors are
    loaded first and stored last. *)
Fixpoint copyback_loop (w fuel : nat) (m : mem) (d s n : Z) : option mem :=
  let W := Z.of_nat w in
  if 4 * W <? n then
    match fuel with
    | O => None
    | S f =>
        let n := n - 4 * W in
        a ← ld w m (s + n); b ← ld w m (s + n + W); c ← ld w m (s + n + 2 * W); e ← ld w m (s + n + 3 * W);
        m ← st m (d + n) a; m ← st m (d + n + W) b; m ← st m (d + n + 2 * W) c;
        m ← st m (d + n + 3 * W) e;
        copyback_loop w f m d s n
    end
  else Some m.

Definition copyback_big (w : nat) (m : mem) (d s n : Z) : option mem :=
  let W := Z.of_nat w in
  h0 ← ld w m s; h1 ← ld w m (s + W); h2 ← ld w m (s + 2 * W); h3 ← ld w m (s + 3 * W);
  m ← copyback_loop w (Z.to_nat n) m d s n;
  m ← st m d h0; m ← st m (d + W) h1; m ← st m (d + 2 * W) h2; st m (d + 3 * W) h3.

(** Setting every byte to [c]. *)
Definition set_pair (w : nat) (m : mem) (d c n : Z) : option mem :=
  m ← st m d (splat w c); st m (d + n - Z.of_nat w) (splat w c).

Definition set_quad (w : nat) (m : mem) (d c n : Z) : option mem :=
  let W := Z.of_nat w in let v := splat w c in
  m ← st m d v; m ← st m (d + W) v; m ← st m (d + n - 2 * W) v; st m (d + n - W) v.

Fixpoint set_loop (w fuel : nat) (m : mem) (c q end_ : Z) : option mem :=
  let W := Z.of_nat w in let v := splat w c in
  if q <? end_ then
    match fuel with
    | O => None
    | S f =>
        m ← st_al w m q v; m ← st_al w m (q + W) v; m ← st_al w m (q + 2 * W) v;
        m ← st_al w m (q + 3 * W) v;
        set_loop w f m c (q + 4 * W) end_
    end
  else Some m.

Definition set_big (w : nat) (m : mem) (d c n : Z) : option mem :=
  let W := Z.of_nat w in let v := splat w c in
  let end_ := d + n - 4 * W in
  m ← st m d v;
  m ← set_loop w (Z.to_nat n) m c (Z.land (wrap64 (d + W)) (Z.lnot (W - 1))) end_;
  m ← st m end_ v; m ← st m (end_ + W) v; m ← st m (end_ + 2 * W) v; st m (end_ + 3 * W) v.

(** ** Lemmas *)

Lemma copy_small_ok m d s n :
  bytes_ok m -> mapped m s n -> mapped m d n -> 0 <= n <= 16 ->
  exists m', copy_small m d s n = Some m' /\ copied m s m d n m'.
Proof.
  intros Hb Hs Hd Hn. unfold copy_small. split_ifs.
  1-3: mem_ld; mem_ld; mem_st; mem_st; eexists; split; [done|mem_close].
  - mem_ld. mem_st. eexists; split; [done|mem_close].
  - eexists; split; [done|mem_close].
Qed.

Section vector.
Context (w : nat) (m : mem) (d s n : Z).
Context (Hs : mapped m s n) (Hd : mapped m d n).

Lemma copy_pair_ok :
Z.of_nat w <= n <= 2 * Z.of_nat w ->
exists m', copy_pair w m d s n = Some m' /\ copied m s m d n m'.
Proof.
intros Hn. unfold copy_pair. mem_ld. mem_ld. mem_st. mem_st.
eexists; split; [done|mem_close].
Qed.

Lemma copy_quad_ok :
2 * Z.of_nat w <= n <= 4 * Z.of_nat w ->
exists m', copy_quad w m d s n = Some m' /\ copied m s m d n m'.
Proof.
intros Hn. unfold copy_quad. do 4 mem_ld. do 4 mem_st.
eexists; split; [done|mem_close].
Qed.
End vector.

Lemma set_pair_ok w m d c n :
  mapped m d n -> Z.of_nat w <= n <= 2 * Z.of_nat w ->
  exists m', set_pair w m d c n = Some m' /\ filled m c d n m'.
Proof. intros Hd Hn. unfold set_pair. do 2 mem_st. eexists; split; [done|mem_close]. Qed.

Lemma set_quad_ok w m d c n :
  mapped m d n -> 2 * Z.of_nat w <= n <= 4 * Z.of_nat w ->
  exists m', set_quad w m d c n = Some m' /\ filled m c d n m'.
Proof. intros Hd Hn. unfold set_quad. do 4 mem_st. eexists; split; [done|mem_close]. Qed.

(** ** The loops *)

(* An aligned store whose address is a multiple of the vector by hypothesis. *)
Ltac mem_st_al := rewrite st_al_eq by (first [assumption | apply multiple_add; assumption | apply multiple_add_1; assumption]); mem_st.

(** Forward copying reads what it has not yet written. *)
Definition forward_ok (d s n : Z) : Prop := d <= s \/ s + n <= d.

Section loops.
Context (w : nat) (m0 : mem) (d s n : Z).
Context (Hs : mapped m0 s n) (Hd : mapped m0 d n).
Abbreviation W := (Z.of_nat w).
Context (HW : 0 < W) (Hn : 4 * W < n).

Lemma copy_loop_ok fuel m q q0 :
forward_ok d s n ->
q mod W = 0 -> d <= q0 <= q -> q <= d + n ->
copied m0 (s + (q0 - d)) m0 q0 (q - q0) m ->
d + n - q <= Z.of_nat fuel ->
exists m' q', copy_loop w fuel m q (s + (q - d)) (d + n - 4 * W) = Some m' /\
copied m0 (s + (q0 - d)) m0 q0 (q' - q0) m' /\ d + n - 4 * W <= q' <= d + n /\ q0 <= q'.
Proof.
intros Hf. revert m q. induction fuel as [|f IH]; intros m q Hal H0 H1 Hc Hfu; cbn [copy_loop].
- split_if; [lia|]. exists m, q. repeat split; try lia. done.
- split_if; [|exists m, q; repeat split; try lia; done].
assert (mapped m s n) by (eapply copied_mapped; [done|mem_mapped|done]).
assert (mapped m d n) by (eapply copied_mapped; [done|mem_mapped|done]).
do 4 mem_ld.
mem_st_al. mem_st_al. mem_st_al. mem_st_al.
replace (s + (q - d) + 4 * W) with (s + (q + 4 * W - d)) by lia.
apply IH; try lia; [by apply multiple_add|]. intros a. unfold forward_ok in Hf.
repeat match goal with
| H : copied _ _ _ _ _ ?m' |- context [?m' !! _] => rewrite H
end. split_ifs; try lia; try done; try (f_equal; lia).
Qed.

Lemma copy_big_ok k :
W = 2 ^ k -> 0 <= k -> forward_ok d s n ->
exists m', copy_big w m0 d s n = Some m' /\ copied m0 s m0 d n m'.
Proof.
intros Hk Hk0 Hf. unfold copy_big. do 5 mem_ld.
rewrite Hk, land_low, <-Hk by done. pose proof (Z.mod_pos_bound d W HW).
set (q0 := d + (W - d mod W)).
destruct (copy_loop_ok (Z.to_nat n) m0 q0 q0 Hf) as (m' & q' & E & Hc & Hq & Hq0); subst q0;
[by apply align_up_mod|lia|lia|intros a; split_if; [lia|done]|lia|].
replace (s + (W - d mod W)) with (s + (d + (W - d mod W) - d)) by lia. rewrite E. cbn [mbind option_bind].
assert (mapped m' d n) by (eapply copied_mapped; [done|mem_mapped|done]).
do 5 mem_st. eexists; split; [done|mem_close].
Qed.

Lemma copyback_loop_ok fuel m k :
s <= d -> 0 < k <= n -> copied m0 (s + k) m0 (d + k) (n - k) m -> k <= Z.of_nat fuel ->
exists m' k', copyback_loop w fuel m d s k = Some m' /\
copied m0 (s + k') m0 (d + k') (n - k') m' /\ 0 < k' <= 4 * W.
Proof.
intros Hsd. revert m k. induction fuel as [|f IH]; intros m k Hk Hc Hfu; [lia|].
cbn [copyback_loop]. split_if; [|exists m, k; split; [done|]; split; [done|lia]].
assert (mapped m s n) by (eapply copied_mapped; [done|mem_mapped|done]).
assert (mapped m d n) by (eapply copied_mapped; [done|mem_mapped|done]).
do 4 mem_ld. do 4 mem_st. apply IH; try lia. intros a.
repeat match goal with
| H : copied _ _ _ _ _ ?m' |- context [?m' !! _] => rewrite H
end. split_ifs; try lia; try done; try (f_equal; lia).
Qed.

Lemma copyback_big_ok :
s <= d -> exists m', copyback_big w m0 d s n = Some m' /\ copied m0 s m0 d n m'.
Proof.
intros Hsd. unfold copyback_big. do 4 mem_ld.
destruct (copyback_loop_ok (Z.to_nat n) m0 n Hsd) as (m' & k' & E & Hc & Hk);
[lia|intros a; split_if; [lia|done]|lia|].
rewrite E. cbn [mbind option_bind].
assert (mapped m' d n) by (eapply copied_mapped; [done|mem_mapped|done]).
do 4 mem_st. eexists; split; [done|mem_close].
Qed.

Lemma set_loop_ok c mb fuel m q q0 :
mapped mb d n ->
q mod W = 0 -> d <= q0 <= q -> q <= d + n -> filled mb c q0 (q - q0) m -> d + n - q <= Z.of_nat fuel ->
exists m' q', set_loop w fuel m c q (d + n - 4 * W) = Some m' /\
filled mb c q0 (q' - q0) m' /\ d + n - 4 * W <= q' <= d + n /\ q0 <= q'.
Proof.
intros Hmb. revert m q. induction fuel as [|f IH]; intros m q Hal H0 H1 Hc Hfu; cbn [set_loop].
- split_if; [lia|]. exists m, q. repeat split; try lia. done.
- split_if; [|exists m, q; repeat split; try lia; done].
assert (mapped m d n) by (eapply filled_mapped; done).
mem_st_al. mem_st_al. mem_st_al. mem_st_al.
apply IH; try lia; [by apply multiple_add|]. mem_close.
Qed.

Lemma set_big_ok c k :
W = 2 ^ k -> 0 <= k -> 0 <= d -> d + n <= 2 ^ 64 ->
exists m', set_big w m0 d c n = Some m' /\ filled m0 c d n m'.
Proof.
intros Hk Hk0 Hd0 Hd64. unfold set_big. mem_st. rename m into m1.
rewrite wrap64_small by lia. rewrite Hk, land_high, <-Hk by done.
pose proof (Z.mod_pos_bound (d + W) W HW).
set (q0 := d + W - (d + W) mod W).
assert (q0 mod W = 0).
{ unfold q0. rewrite (Z.div_mod (d + W) W) at 1 by lia.
replace (W * ((d + W) / W) + (d + W) mod W - (d + W) mod W) with ((d + W) / W * W) by lia.
apply Z.mod_mul. lia. }
destruct (set_loop_ok c m1 (Z.to_nat n) m1 q0 q0) as (m' & q' & E & Hc & Hq & Hq0);
[done|done|lia|lia|intros a; split_if; [lia|done]|lia|].
rewrite E. cbn [mbind option_bind].
assert (mapped m' d n) by (eapply filled_mapped; done).
do 4 mem_st. eexists; split; [done|mem_close].
Qed.
End loops.
