(* ===== verification/Compare.v ===== *)
(** memcmp of port/src/okm_string.c: the short form by overlapping words
    ([cmp_small]), the vector step [DIFF16]/[DIFF32], and the loops of
    [cmp16] and [cmp32]. Each yields the difference of the first two bytes that
    differ, or zero. *)
From S2P Require Import Prelude Mem Lanes.
From stdpp Require Import gmap list fin_maps.
From Stdlib Require Import ZArith Lia.

#[local] Open Scope Z_scope.

(** ** Code *)

(** A step of a comparison: a fault, an early return, or nothing. *)
Definition or_else (e : option (option Z)) (k : option Z) : option Z :=
  match e with
  | None => None
  | Some (Some x) => Some x
  | Some None => k
  end.

Notation "e ~> k" := (or_else e k) (at level 100, right associativity).

(** [return l[i] - r[i]]. *)
Definition byte_diff (m : mem) (l r i : Z) : option (option Z) :=
  x ← m !! (l + i); y ← m !! (r + i); Some (Some (x - y)).

(** One word of [w] bytes at [at_] of each side: the first byte that differs is
    the lowest set bit of the exclusive or. *)
Definition word_diff (w : nat) (m : mem) (l r at_ : Z) : option (option Z) :=
  a ← ld_word w m (l + at_); b ← ld_word w m (r + at_);
  if a =? b then Some None
  else byte_diff m l r (at_ + Z.shiftr (ctz (Z.lxor a b)) 3).

Fixpoint cmp_bytes (n : nat) (m : mem) (l r i : Z) : option Z :=
  match n with
  | O => Some 0
  | S k =>
      x ← m !! (l + i); y ← m !! (r + i);
      if x =? y then cmp_bytes k m l r (i + 1) else Some (x - y)
  end.

Definition cmp_small (m : mem) (l r n : Z) : option Z :=
  if 8 <=? n then word_diff 8 m l r 0 ~> word_diff 8 m l r (n - 8) ~> Some 0
  else if 4 <=? n then word_diff 4 m l r 0 ~> word_diff 4 m l r (n - 4) ~> Some 0
  else cmp_bytes (Z.to_nat n) m l r 0.

Section vector.
Context (w : nat) (mo : maskops).
Abbreviation W := (Z.of_nat w).

(** [DIFF16] and [DIFF32]. *)
Definition DIFF (m : mem) (l r at_ : Z) : option (option Z) :=
a ← ld w m (l + at_); b ← ld w m (r + at_);
let m_ := Z.land (mo_full mo) (Z.lnot (mo_mask mo (eqv a b))) in
if m_ =? 0 then Some None else byte_diff m l r (at_ + mo_at mo m_).

(** The lanes in which the vectors at [i] of each side are equal. *)
Definition eq_at (m : mem) (l r i : Z) : option (list Z) :=
a ← ld w m (l + i); b ← ld w m (r + i); Some (eqv a b).

(** Four vectors from [i] on compared together. *)
Definition eq_quad (m : mem) (l r i : Z) : option (list Z) :=
e0 ← eq_at m l r i; e1 ← eq_at m l r (i + W);
e2 ← eq_at m l r (i + 2 * W); e3 ← eq_at m l r (i + 3 * W);
Some (andv (andv (andv e0 e1) e2) e3).

Fixpoint cmp_tail (fuel : nat) (m : mem) (l r i n : Z) : option Z :=
if i + W <=? n then
match fuel with
| O => None
| S f => DIFF m l r i ~> cmp_tail f m l r (i + W) n
end
else if i <? n then DIFF m l r (n - W) ~> Some 0
else Some 0.

Fixpoint cmp_loop (fuel : nat) (m : mem) (l r i n : Z) : option Z :=
if i + 4 * W <=? n then
match fuel with
| O => None
| S f =>
    e ← eq_quad m l r i;
    if mo_mask mo e =? mo_full mo then cmp_loop f m l r (i + 4 * W) n
    else DIFF m l r i ~> DIFF m l r (i + W) ~> DIFF m l r (i + 2 * W) ~> DIFF m l r (i + 3 * W) ~>
         cmp_loop f m l r (i + 4 * W) n
end
else cmp_tail fuel m l r i n.
End vector.

(** n >= 16. *)
Definition cmp16 (mo : maskops) (m : mem) (l r n : Z) : option Z :=
  if n <=? 32 then DIFF 16 mo m l r 0 ~> DIFF 16 mo m l r (n - 16) ~> Some 0
  else cmp_loop 16 mo (Z.to_nat n) m l r 0 n.

(** n > 32. *)
Definition cmp32 (m : mem) (l r n : Z) : option Z :=
  let mo := mask32_avx2 in
  let D := DIFF 32 mo m l r in
  if n <=? 64 then
    e0 ← eq_at 32 m l r 0; e1 ← eq_at 32 m l r (n - 32);
    if mo_mask mo (andv e0 e1) =? mo_full mo then Some 0
    else D 0 ~> D (n - 32) ~> Some 0
  else if n <=? 128 then
    e0 ← eq_at 32 m l r 0; e1 ← eq_at 32 m l r 32;
    e2 ← eq_at 32 m l r (n - 64); e3 ← eq_at 32 m l r (n - 32);
    if mo_mask mo (andv (andv (andv e0 e1) e2) e3) =? mo_full mo then Some 0
    else D 0 ~> D 32 ~> D (n - 64) ~> D (n - 32) ~> Some 0
  else if n <=? 256 then
    e0 ← eq_at 32 m l r 0; e1 ← eq_at 32 m l r 32; e2 ← eq_at 32 m l r 64; e3 ← eq_at 32 m l r 96;
    e4 ← eq_at 32 m l r (n - 128); e5 ← eq_at 32 m l r (n - 96);
    e6 ← eq_at 32 m l r (n - 64); e7 ← eq_at 32 m l r (n - 32);
    if mo_mask mo (andv (andv (andv (andv (andv (andv (andv e0 e1) e2) e3) e4) e5) e6) e7) =? mo_full mo
    then Some 0
    else D 0 ~> D 32 ~> D 64 ~> D 96 ~> D (n - 128) ~> D (n - 96) ~> D (n - 64) ~> D (n - 32) ~> Some 0
  else cmp_loop 32 mo (Z.to_nat n) m l r 0 n.

(** ** Specification *)

Definition agree (m : mem) (l r i j : Z) : Prop := forall k, i <= k < j -> m !! (l + k) = m !! (r + k).

Definition differs (m : mem) (l r j x : Z) : Prop :=
  exists a b, m !! (l + j) = Some a /\ m !! (r + j) = Some b /\ a <> b /\ x = a - b.

(** What memcmp of [n] bytes answers: zero when they agree, and otherwise the
    difference of the first two that do not. *)
Definition memcmp_spec (m : mem) (l r n x : Z) : Prop :=
  (agree m l r 0 n /\ x = 0) \/
  (exists j, 0 <= j < n /\ agree m l r 0 j /\ differs m l r j x).

Definition returns (e : option Z) (P : Z -> Prop) : Prop := exists x, e = Some x /\ P x.

(** A step looks at [at_, at_+W): it returns the first difference there, or
    finds none. *)
Definition step_ok (m : mem) (l r at_ W : Z) (e : option (option Z)) : Prop :=
  (e = Some None /\ agree m l r at_ (at_ + W)) \/
  (exists j x, e = Some (Some x) /\ at_ <= j < at_ + W /\ agree m l r at_ j /\ differs m l r j x).

(** ** Steps *)

Lemma agree_le m l r i j k : agree m l r i j -> k <= j -> agree m l r i k.
Proof. intros H ? x ?. apply H. lia. Qed.

Lemma agree_app m l r i j k : agree m l r i j -> agree m l r j k -> agree m l r i k.
Proof. intros H1 H2 x ?. destruct (decide (x < j)); [apply H1|apply H2]; lia. Qed.

(** A prefix already compared, extended by a step that may overlap it. *)
Lemma step_extend m l r n c at_ W e k :
  step_ok m l r at_ W e -> agree m l r 0 c -> 0 <= at_ <= c -> at_ + W <= n ->
  (agree m l r 0 (Z.max c (at_ + W)) -> returns k (memcmp_spec m l r n)) ->
  returns (e ~> k) (memcmp_spec m l r n).
Proof.
  intros [[-> Ha] | (j & x & -> & Hj & Ha & Hx)] Hc Hat Hn Hk; simpl.
  - apply Hk. intros y Hy. destruct (decide (y < c)); [apply Hc|apply Ha]; lia.
  - exists x. split; [done|]. right. exists j. split; [lia|]. split; [|done].
    destruct (decide (j < c)) as [Hjc|]; [|intros y ?; destruct (decide (y < c)); [apply Hc|apply Ha]; lia].
    exfalso. destruct Hx as (a & b & E1 & E2 & Hne & _). rewrite (Hc j) in E1 by lia. congruence.
Qed.

Lemma byte_diff_some m l r j a b :
  m !! (l + j) = Some a -> m !! (r + j) = Some b -> byte_diff m l r j = Some (Some (a - b)).
Proof. unfold byte_diff. intros -> ->. done. Qed.

(** *** Lists of bytes and their first difference *)

Lemma first_diff_none a b :
  length a = length b -> first_lane (notv (eqv a b)) = None -> a = b.
Proof.
  revert b. induction a as [|x a IH]; intros [|y b] Hl H; try done.
  cbn [eqv zip_with notv fmap list_fmap first_lane] in H.
  destruct (x =? y) eqn:E; [|done]. boolean. subst. f_equal. apply IH; [by inversion Hl|].
  change (zip_with _ a b) with (eqv a b) in H. change (_ <$> eqv a b) with (notv (eqv a b)) in H.
  simpl in H. by destruct (first_lane (notv (eqv a b))).
Qed.

Lemma first_diff_some a b i :
  length a = length b -> first_lane (notv (eqv a b)) = Some i ->
  0 <= i < Z.of_nat (length a) /\ (forall k, (k < Z.to_nat i)%nat -> a !! k = b !! k) /\
  exists x y, a !! Z.to_nat i = Some x /\ b !! Z.to_nat i = Some y /\ x <> y.
Proof.
  revert b i. induction a as [|x a IH]; intros [|y b] i Hl H; try done.
  cbn [eqv zip_with notv fmap list_fmap first_lane] in H.
  change (zip_with _ a b) with (eqv a b) in H. change (_ <$> eqv a b) with (notv (eqv a b)) in H.
  destruct (x =? y) eqn:E; boolean; simpl in H.
  - destruct (first_lane (notv (eqv a b))) as [j|] eqn:Ej; [|done]. simpl in H. simplify_eq.
    destruct (IH b j) as (Hj & Hk & p & q & Hp & Hq & Hne); [by inversion Hl|done|].
    replace (Z.to_nat (Z.succ j)) with (S (Z.to_nat j)) by lia. cbn [length]. split; [lia|]. split.
    + intros [|k] ?; [done|]. apply Hk. lia.
    + eauto.
  - simplify_eq. cbn [length]. split; [lia|]. split; [lia|]. simpl. eauto.
Qed.

(** The first difference of two loaded blocks is the memory's. *)
Lemma diff_block w m l r at_ a b i :
  ld w m (l + at_) = Some a -> ld w m (r + at_) = Some b -> first_lane (notv (eqv a b)) = Some i ->
  0 <= i < Z.of_nat w /\ agree m l r at_ (at_ + i) /\
  exists x, byte_diff m l r (at_ + i) = Some (Some x) /\ differs m l r (at_ + i) x.
Proof.
  intros Ha Hb Hi. pose proof (ld_length _ _ _ _ Ha). pose proof (ld_length _ _ _ _ Hb).
  destruct (first_diff_some a b i) as (Hr & Hk & x & y & Hx & Hy & Hne); [congruence|done|].
  split; [lia|]. split.
  - intros k ?. specialize (Hk (Z.to_nat (k - at_))).
    rewrite (ld_lookup _ _ _ _ _ Ha), (ld_lookup _ _ _ _ _ Hb) in Hk by lia.
    replace (l + k) with (l + at_ + Z.of_nat (Z.to_nat (k - at_))) by lia.
    replace (r + k) with (r + at_ + Z.of_nat (Z.to_nat (k - at_))) by lia. apply Hk. lia.
  - rewrite (ld_lookup _ _ _ _ _ Ha) in Hx by lia. rewrite (ld_lookup _ _ _ _ _ Hb) in Hy by lia.
    replace (l + at_ + Z.of_nat (Z.to_nat i)) with (l + (at_ + i)) in Hx by lia.
    replace (r + at_ + Z.of_nat (Z.to_nat i)) with (r + (at_ + i)) in Hy by lia.
    exists (x - y). split; [by apply byte_diff_some|]. exists x, y. auto.
Qed.

Lemma same_block w m l r at_ a :
  ld w m (l + at_) = Some a -> ld w m (r + at_) = Some a -> agree m l r at_ (at_ + Z.of_nat w).
Proof.
  intros Ha Hb k Hk. pose proof (ld_lookup _ _ _ _ (Z.to_nat (k - at_)) Ha) as E1.
  pose proof (ld_lookup _ _ _ _ (Z.to_nat (k - at_)) Hb) as E2.
  replace (l + at_ + Z.of_nat (Z.to_nat (k - at_))) with (l + k) in E1 by lia.
  replace (r + at_ + Z.of_nat (Z.to_nat (k - at_))) with (r + k) in E2 by lia.
  rewrite <-E1, <-E2 by lia. done.
Qed.

(** A step whose test is [first_lane] of the difference. *)
Lemma block_step w m l r at_ a b e :
  ld w m (l + at_) = Some a -> ld w m (r + at_) = Some b ->
  (first_lane (notv (eqv a b)) = None -> e = Some None) ->
  (forall i, first_lane (notv (eqv a b)) = Some i -> e = byte_diff m l r (at_ + i)) ->
  step_ok m l r at_ (Z.of_nat w) e.
Proof.
  intros Ha Hb H0 H1. destruct (first_lane (notv (eqv a b))) as [i|] eqn:Hi.
  - destruct (diff_block _ _ _ _ _ _ _ _ Ha Hb Hi) as (Hr & Hag & x & Hbd & Hx).
    right. exists (at_ + i), x. rewrite (H1 i) by done. repeat split; try lia; done.
  - left. split; [by apply H0|]. apply first_diff_none in Hi; [|by rewrite (ld_length _ _ _ _ Ha), (ld_length _ _ _ _ Hb)].
    subst. by apply (same_block _ _ _ _ _ b).
Qed.

(** *** The word step *)

Lemma le_diff a b :
  length a = length b -> Forall (fun x => 0 <= x < 256) a -> Forall (fun x => 0 <= x < 256) b ->
  match first_lane (notv (eqv a b)) with
  | None => le_combine a = le_combine b
  | Some i => le_combine a <> le_combine b /\ Z.shiftr (ctz (Z.lxor (le_combine a) (le_combine b))) 3 = i
  end.
Proof.
  revert b. induction a as [|x a IH]; intros [|y b] Hl Ha Hb; try done.
  inversion Ha as [|? ? Hx Ha']; inversion Hb as [|? ? Hy Hb']; subst.
  specialize (IH b ltac:(by inversion Hl) Ha' Hb').
  cbn [eqv zip_with notv fmap list_fmap first_lane le_combine].
  change (zip_with _ a b) with (eqv a b). change (_ <$> eqv a b) with (notv (eqv a b)).
  change 256 with (2 ^ 8). rewrite lxor_cons by (done || lia). change (2 ^ 8) with 256. destruct (x =? y) eqn:E; boolean; simpl (if _ =? _ then _ else _).
  - subst. rewrite Z.lxor_nilpotent, Z.add_0_l. destruct (first_lane (notv (eqv a b))) as [j|]; cbn [fmap option_fmap option_map]; [|lia].
    destruct IH as [Hne IH]. split; [lia|]. change 256 with (2 ^ 8).
    assert (Z.lxor (le_combine a) (le_combine b) <> 0) by (by rewrite Z.lxor_eq_0_iff).
    rewrite ctz_shift by (done || lia). rewrite Z.shiftr_div_pow2 in * by lia. change (2 ^ 3) with 8 in *. 
    rewrite Z.add_comm, <-(Z.mul_1_l 8) at 1. rewrite Z.div_add by lia. lia.
  - split; [lia|]. assert (Z.lxor x y <> 0) by (by rewrite Z.lxor_eq_0_iff).
    pose proof (lxor_byte x y Hx Hy).
    change 256 with (2 ^ 8). rewrite ctz_low by lia.
    assert (ctz (Z.lxor x y) < 8).
    { destruct (decide (ctz (Z.lxor x y) < 8)) as [|Hge]; [done|].
      assert (2 ^ ctz (Z.lxor x y) <= Z.lxor x y) by (apply ctz_le; lia).
      assert (2 ^ 8 <= 2 ^ ctz (Z.lxor x y)) by (apply Z.pow_le_mono_r; lia). lia. }
    pose proof (ctz_nonneg (Z.lxor x y)). rewrite Z.shiftr_div_pow2 by lia. apply Z.div_small. lia.
Qed.

(* The two vectors or words a step loads. *)
Ltac ld_both a Ha b Hb :=
  lazymatch goal with
  | |- context [ld ?w ?m (?l + ?i)] =>
      match goal with
      | H1 : mapped m ?l' _, H2 : mapped m ?r' _ |- context [byte_diff m ?l' ?r' _] =>
          destruct (ld_some w m (l' + i)) as [a Ha]; [mem_mapped|];
          destruct (ld_some w m (r' + i)) as [b Hb]; [mem_mapped|];
          rewrite Ha, Hb; cbn [mbind option_bind fmap option_fmap option_map]
      end
  end.

Lemma agree_nil m l r : agree m l r 0 0.
Proof. intros ? ?. lia. Qed.

Lemma returns_zero m l r n : agree m l r 0 n -> returns (Some 0) (memcmp_spec m l r n).
Proof. intros H. exists 0. split; [done|]. by left. Qed.

(* One step after the prefix known to agree; the prefix grows. *)
Ltac cmp_step lem :=
  match goal with
  | H : agree ?m ?l ?r 0 ?c |- returns (_ ~> _) _ =>
      eapply (step_extend m l r _ c);
      [apply lem; [done|lia|lia]|exact H|lia|lia|];
      clear H; intros H
  end.

Ltac cmp_done :=
  match goal with
  | H : agree ?m ?l ?r 0 ?c |- returns (Some 0) _ =>
      apply returns_zero; apply (agree_le _ _ _ _ _ _ H); lia
  end.

Section steps.
Context (m : mem) (l r n : Z).
Context (Hl : mapped m l n) (Hr : mapped m r n).

Lemma word_diff_ok w at_ :
bytes_ok m -> 0 <= at_ -> at_ + Z.of_nat w <= n -> step_ok m l r at_ (Z.of_nat w) (word_diff w m l r at_).
Proof.
intros Hb H0 H1. unfold word_diff, ld_word. ld_both a Ha b Hb'.
pose proof (le_diff a b) as Hle. rewrite (ld_length _ _ _ _ Ha), (ld_length _ _ _ _ Hb') in Hle.
specialize (Hle eq_refl ltac:(eauto with mem) ltac:(eauto with mem)).
eapply block_step; [done|done| |].
- intros E. rewrite E in Hle. by rewrite Hle, Z.eqb_refl.
- intros i E. rewrite E in Hle. destruct Hle as [Hne <-].
apply Z.eqb_neq in Hne. by rewrite Hne.
Qed.

Lemma cmp_bytes_ok k i :
0 <= i -> i + Z.of_nat k = n -> agree m l r 0 i -> returns (cmp_bytes k m l r i) (memcmp_spec m l r n).
Proof.
revert i. induction k as [|k IH]; intros i H0 Hk Ha; cbn [cmp_bytes].
- exists 0. split; [done|]. left. replace n with i by lia. done.
- destruct (Hl (l + i)) as [x Hx]; [lia|]. destruct (Hr (r + i)) as [y Hy]; [lia|].
rewrite Hx, Hy. cbn [mbind option_bind]. split_if.
+ apply IH; [lia|lia|]. intros z ?. destruct (decide (z = i)) as [->|]; [congruence|apply Ha; lia].
+ exists (x - y). split; [done|]. right. exists i. repeat split; [lia|lia|done|]. exists x, y. auto.
Qed.

Lemma cmp_small_ok : bytes_ok m -> 0 <= n <= 16 -> returns (cmp_small m l r n) (memcmp_spec m l r n).
Proof.
intros Hb Hn. unfold cmp_small. split_ifs.
1-2: pose proof (agree_nil m l r); do 2 cmp_step word_diff_ok; cmp_done.
apply cmp_bytes_ok; [lia|lia|intros ? ?; lia].
Qed.
End steps.

Lemma returns_weaken e (P Q : Z -> Prop) : returns e P -> (forall x, P x -> Q x) -> returns e Q.
Proof. intros (x & -> & H) HPQ. exists x. auto. Qed.

(** ** The vector step *)

Lemma lanes_eqv w m p q a b : ld w m p = Some a -> ld w m q = Some b -> lanes w (eqv a b).
Proof.
  intros Ha Hb. apply ld_length in Ha, Hb. split; [unfold eqv; rewrite length_zip_with; lia|].
  unfold eqv. apply Forall_lookup. intros i x Hx. apply lookup_zip_with_Some in Hx as (y & z & -> & _).
  split_if; auto.
Qed.

Lemma lanes_andv w a b : lanes w a -> lanes w b -> lanes w (andv a b).
Proof.
  intros [La Fa] [Lb Fb]. split; [unfold andv; rewrite length_zip_with; lia|].
  apply Forall_lookup. intros i x Hx. apply lookup_zip_with_Some in Hx as (y & z & -> & Hy & Hz).
  eapply Forall_lookup in Hy; [|exact Fa]. eapply Forall_lookup in Hz; [|exact Fb].
  destruct Hy as [-> | ->], Hz as [-> | ->]; auto.
Qed.

Section masks.
Context (w : nat) (mo : maskops) `{!MaskLaws w mo}.

(** The complement of a comparison's mask finds the first difference. *)
Lemma mask_compl v : lanes w v ->
Z.land (mo_full mo) (Z.lnot (mo_mask mo v)) = lanes_mask (mo_bits mo) (notv v).
Proof.
intros Hv. rewrite ml_mask, ml_full by done. rewrite <-lanes_mask_compl by apply ml_bits.
by rewrite (proj1 Hv).
Qed.

Lemma mask_full v : lanes w v -> mo_mask mo v = mo_full mo -> first_lane (notv v) = None.
Proof.
intros Hv E. pose proof (@ml_bits w mo _). apply (lanes_mask_zero (mo_bits mo)); [done|].
rewrite <-mask_compl, E by done. by rewrite Z.land_lnot_diag.
Qed.

Lemma DIFF_ok m l r n at_ :
mapped m l n -> mapped m r n -> 0 <= at_ -> at_ + Z.of_nat w <= n ->
step_ok m l r at_ (Z.of_nat w) (DIFF w mo m l r at_).
Proof.
intros Hl Hr H0 H1. unfold DIFF. ld_both a Ha b Hb. rewrite mask_compl by eauto using lanes_eqv.
pose proof (@ml_bits w mo _). eapply block_step; [done|done| |].
- intros E. by rewrite (proj2 (lanes_mask_zero _ H _) E).
- intros i E. assert (lanes_mask (mo_bits mo) (notv (eqv a b)) <> 0) as Hne.
{ rewrite lanes_mask_zero by done. congruence. }
apply Z.eqb_neq in Hne. rewrite Hne, (@ml_at w mo _), (lanes_mask_first _ H _ _ E). done.
Qed.
End masks.

(** ** Vectors compared together *)

Definition all_lanes (v : list Z) : Prop := first_lane (notv v) = None.

Lemma all_lanes_andv w a b : lanes w a -> lanes w b -> all_lanes (andv a b) -> all_lanes a /\ all_lanes b.
Proof.
  unfold all_lanes. revert a b. induction w as [|w IH]; intros a b Ha Hb H.
  - by rewrite (lanes_nil_inv _ Ha), (lanes_nil_inv _ Hb).
  - destruct (lanes_cons_inv _ _ Ha) as (x & a' & -> & Hx & Ha').
    destruct (lanes_cons_inv _ _ Hb) as (y & b' & -> & Hy & Hb').
    cbn [andv zip_with notv fmap list_fmap first_lane] in *.
    change (zip_with _ a' b') with (andv a' b') in H.
    change (_ <$> andv a' b') with (notv (andv a' b')) in H.
    change (_ <$> a') with (notv a'). change (_ <$> b') with (notv b').
    destruct Hx as [-> | ->], Hy as [-> | ->]; simpl in *; try done.
    destruct (first_lane (notv (andv a' b'))) eqn:E; [done|].
    destruct (IH _ _ Ha' Hb' E) as [-> ->]. done.
Qed.

Lemma eq_at_ok w m l r n i :
  mapped m l n -> mapped m r n -> 0 <= i -> i + Z.of_nat w <= n ->
  exists e, eq_at w m l r i = Some e /\ lanes w e /\ (all_lanes e -> agree m l r i (i + Z.of_nat w)).
Proof.
  intros Hl Hr H0 H1. unfold eq_at.
  destruct (ld_some w m (l + i)) as [a Ha]; [mem_mapped|].
  destruct (ld_some w m (r + i)) as [b Hb]; [mem_mapped|]. rewrite Ha, Hb. cbn [mbind option_bind].
  eexists. split; [done|]. split; [by eapply lanes_eqv|]. intros E.
  apply first_diff_none in E; [|by rewrite (ld_length _ _ _ _ Ha), (ld_length _ _ _ _ Hb)].
  subst. by eapply same_block.
Qed.

(* Loads the next comparison of a group. *)
Ltac eq_step :=
  match goal with
  | Hl : mapped ?m ?l ?n, Hr : mapped ?m ?r ?n |- context [eq_at ?w ?m ?l ?r ?i] =>
      let e := fresh "e" in let E := fresh "E" in let L := fresh "L" in let A := fresh "A" in
      destruct (eq_at_ok w m l r n i Hl Hr ltac:(lia) ltac:(lia)) as (e & E & L & A);
      rewrite E; cbn [mbind option_bind]; clear E
  end.

(* What a full mask of a group says: each of its vectors agrees. *)
Ltac eq_split H :=
  repeat match type of H with
  | all_lanes (andv ?a ?b) =>
      let H' := fresh in
      eapply (all_lanes_andv _ a b) in H; [destruct H as [H H']|eauto 10 using lanes_andv|eauto 10 using lanes_andv];
      match goal with A : all_lanes b -> _ |- _ => specialize (A H'); clear H' end
  end;
  match type of H with
  | all_lanes ?a => match goal with A : all_lanes a -> _ |- _ => specialize (A H); clear H end
  end.

(* Agreement on a range from agreement on pieces that cover it. *)
Ltac agree_cover :=
  let k := fresh "k" in let Hk := fresh in
  intros k Hk;
  match goal with
  | |- ?m !! (?l + k) = _ =>
      repeat match goal with
      | A : agree m l ?r ?i ?j |- _ => destruct (decide (i <= k < j)); [solve [by apply A]|clear A]
      end
  end; lia.

Section loops.
Context (w : nat) (mo : maskops) `{!MaskLaws w mo}.
Context (m : mem) (l r n : Z) (Hl : mapped m l n) (Hr : mapped m r n).
Abbreviation W := (Z.of_nat w).
Context (HW : 0 < W <= n).

#[local] Lemma DIFF_at at_ : True -> 0 <= at_ -> at_ + W <= n -> step_ok m l r at_ W (DIFF w mo m l r at_).
Proof. intros _. by apply DIFF_ok. Qed.

Lemma cmp_tail_ok fuel i :
0 <= i <= n -> agree m l r 0 i -> n - i <= Z.of_nat fuel ->
returns (cmp_tail w mo fuel m l r i n) (memcmp_spec m l r n).
Proof.
revert i. induction fuel as [|f IH]; intros i H0 Ha Hf; cbn [cmp_tail]; split_ifs; try lia.
- cmp_done.
- cmp_step DIFF_at. apply IH; [lia| |lia]. by replace (i + W) with (Z.max i (i + W)) by lia.
- cmp_step DIFF_at. cmp_done.
- cmp_done.
Qed.

Lemma cmp_loop_ok fuel i :
0 <= i <= n -> agree m l r 0 i -> n - i <= Z.of_nat fuel ->
returns (cmp_loop w mo fuel m l r i n) (memcmp_spec m l r n).
Proof.
revert i. induction fuel as [|f IH]; intros i H0 Ha Hf; cbn [cmp_loop].
- split_if; [lia|]. by apply cmp_tail_ok.
- split_if; [|by apply cmp_tail_ok]. unfold eq_quad. do 4 eq_step. split_if.
+ match goal with
  | E : mo_mask _ ?v = _ |- _ => assert (all_lanes v) as H by (apply (mask_full w mo); [auto 10 using lanes_andv|done])
  end.
  eq_split H. apply IH; [lia| |lia]. agree_cover.
+ repeat match goal with A : all_lanes _ -> _ |- _ => clear A end. do 4 cmp_step DIFF_at. apply IH; [lia| |lia]. eapply agree_le; [eassumption|lia].
Qed.
End loops.

(** ** The results *)

Lemma cmp16_ok mo `{!MaskLaws 16 mo} m l r n :
  mapped m l n -> mapped m r n -> 16 <= n -> returns (cmp16 mo m l r n) (memcmp_spec m l r n).
Proof.
  intros Hl Hr Hn. unfold cmp16. pose proof (agree_nil m l r). split_if.
  - do 2 cmp_step (DIFF_at 16 mo m l r n Hl Hr). cmp_done.
  - apply cmp_loop_ok; auto; lia.
Qed.

Lemma cmp32_ok m l r n :
  mapped m l n -> mapped m r n -> 32 < n -> returns (cmp32 m l r n) (memcmp_spec m l r n).
Proof.
  intros Hl Hr Hn. unfold cmp32. pose proof (agree_nil m l r) as H0. split_ifs.
  all: try (apply cmp_loop_ok; try lia; eauto with typeclass_instances).
  all: repeat eq_step; split_if;
    [ match goal with
      | E : mo_mask _ ?v = _ |- _ =>
          assert (all_lanes v) as H by (eapply (mask_full 32 mask32_avx2); eauto 10 using lanes_andv)
      end; eq_split H; apply returns_zero; agree_cover
    | repeat match goal with A : all_lanes _ -> _ |- _ => clear A end;
      repeat cmp_step (DIFF_at 32 mask32_avx2 m l r n Hl Hr); cmp_done ].
Qed.
