(* ===== verification/Scan.v ===== *)
(** The scans of port/src/okm_string.c: [scan16] and [scan32], which look for a
    byte (or a byte or the terminator) by aligned vectors, and the functions built
    on them, [memchr], [strchr] and [strlen].

    The two widths share their text, so the code is given once for a vector of
    [w] bytes and an instruction set's mask operations. *)
From S2P Require Import Prelude Mem Lanes Compare.
From stdpp Require Import gmap list fin_maps.
From Stdlib Require Import ZArith Lia.

#[local] Open Scope Z_scope.

(** ** Code *)

Definition OKM_PAGE_MIN : Z := 4096.

(** The bytes from [p] to the end of its page. *)
Definition TO_PAGE_END (p : Z) : Z := OKM_PAGE_MIN - Z.land p (OKM_PAGE_MIN - 1).

Section code.
Context (w : nat) (mo : maskops).
Abbreviation W := (Z.of_nat w).

(** [t16], [t32]: zero where the scan stops. *)
Definition t (x : list Z) (c : Z) (nul : bool) : list Z :=
let t := xorv x (splat w c) in if nul then minv t x else t.

(** [STOP16], [STOP32]. *)
Definition STOP (t : list Z) : Z := mo_mask mo (eqv t (splat w 0)).

(** [FOUND16], [FOUND32]: a pointer, or null when it is not below [end_]. *)
Definition FOUND (p m_ end_ : Z) : option (option Z) :=
let q_ := wrap64 (p + mo_at mo m_) in
Some (if q_ <? end_ then Some q_ else None).

(** Blocks of four vectors. *)
Fixpoint scan_quads (fuel : nat) (m : mem) (p c : Z) (nul : bool) (end_ : Z) : option (option Z) :=
if p <? end_ then
match fuel with
| O => None
| S f =>
    x0 ← ld_al w m p; x1 ← ld_al w m (p + W); x2 ← ld_al w m (p + 2 * W); x3 ← ld_al w m (p + 3 * W);
    let t0 := t x0 c nul in let t1 := t x1 c nul in let t2 := t x2 c nul in let t3 := t x3 c nul in
    if STOP (minv (minv t0 t1) (minv t2 t3)) =? 0 then scan_quads f m (wrap64 (p + 4 * W)) c nul end_
    else if negb (STOP t0 =? 0) then FOUND p (STOP t0) end_
    else if negb (STOP t1 =? 0) then FOUND (p + W) (STOP t1) end_
    else if negb (STOP t2 =? 0) then FOUND (p + 2 * W) (STOP t2) end_
    else FOUND (p + 3 * W) (STOP t3) end_
end
else Some None.

(** One vector at a time up to a block boundary. *)
Fixpoint scan_singles (fuel : nat) (m : mem) (p c : Z) (nul : bool) (end_ : Z) : option (option Z) :=
if Z.land p (4 * W - 1) =? 0 then scan_quads fuel m p c nul end_
else if end_ <=? p then Some None
else
match fuel with
| O => None
| S f =>
    x ← ld_al w m p;
    let m_ := STOP (t x c nul) in
    if negb (m_ =? 0) then FOUND p m_ end_
    else scan_singles f m (wrap64 (p + W)) c nul end_
end.

Definition scan (fuel : nat) (m : mem) (s c : Z) (nul : bool) (end_ : Z) : option (option Z) :=
let off := Z.land s (W - 1) in
let p := s - off in
x ← ld_al w m p;
let m_ := Z.shiftr (STOP (t x c nul)) (off * mo_bits mo) in
if negb (m_ =? 0) then FOUND s m_ end_
else scan_singles fuel m (wrap64 (p + W)) c nul end_.

(** The first vectors of [memchr], read where they are: [k] of four. *)
Fixpoint memchr_first (j : nat) (fuel : nat) (m : mem) (s c n end_ k : Z) : option (option Z) :=
match j with
| O => scan fuel m (s + 4 * W) c false end_
| S j' =>
  x ← ld w m (s + k);
  let m_ := mo_mask mo (eqv x (splat w c)) in
  if negb (m_ =? 0) then FOUND (s + k) m_ end_
  else if n <=? k + W then Some None
  else memchr_first j' fuel m s c n end_ (k + W)
end.

Definition memchr_v (fuel : nat) (m : mem) (s c n : Z) : option (option Z) :=
if n =? 0 then Some None
else
let end_ := if UINTPTR_MAX - s <? n then UINTPTR_MAX else s + n in
if 4 * W <=? TO_PAGE_END s then memchr_first 4 fuel m s c n end_ 0
else scan fuel m s c false end_.

Fixpoint strchr_first (j : nat) (fuel : nat) (m : mem) (s c k : Z) : option (option Z) :=
match j with
| O => scan fuel m (s + 4 * W) c true UINTPTR_MAX
| S j' =>
  x ← ld w m (s + k);
  let m_ := mo_mask mo (orv (eqv x (splat w c)) (eqv x (splat w 0))) in
  if negb (m_ =? 0) then Some (Some (s + k + mo_at mo m_))
  else strchr_first j' fuel m s c (k + W)
end.

Definition strchr_v (fuel : nat) (m : mem) (s c : Z) : option (option Z) :=
q ← (if 4 * W <=? TO_PAGE_END s then strchr_first 4 fuel m s c 0
   else scan fuel m s c true UINTPTR_MAX);
match q with
| None => Some None
| Some q => b ← m !! q; Some (if b =? c then Some q else None)
end.

(** The length where the scan stopped. A scan that answered null has no
length to report; it cannot, for a string that ends. *)
Definition length_from (s : Z) (q : option Z) : option Z := (fun q => wrap64 (q - s)) <$> q.

Fixpoint strlen_first (j : nat) (fuel : nat) (m : mem) (s k : Z) : option Z :=
match j with
| O => q ← scan fuel m (s + 4 * W) 0 false UINTPTR_MAX; length_from s q
| S j' =>
  x ← ld w m (s + k);
  let m_ := mo_mask mo (eqv x (splat w 0)) in
  if negb (m_ =? 0) then Some (k + mo_at mo m_)
  else strlen_first j' fuel m s (k + W)
end.

(** [strlen16]. *)
Definition strlen_v (fuel : nat) (m : mem) (s : Z) : option Z :=
if 4 * W <=? TO_PAGE_END s then strlen_first 4 fuel m s 0
else q ← scan fuel m s 0 false UINTPTR_MAX; length_from s q.
End code.

(** [strlen32]: the first vector alone, the next three together, then blocks of
    four from the block boundary. *)
Definition zeros32 (x : list Z) : Z := mo_mask mask32_avx2 (eqv x (splat 32 0)).

Fixpoint strlen32_blocks (fuel : nat) (m : mem) (s p : Z) : option Z :=
  match fuel with
  | O => None
  | S f =>
      x0 ← ld_al 32 m p; x1 ← ld_al 32 m (p + 32); x2 ← ld_al 32 m (p + 64); x3 ← ld_al 32 m (p + 96);
      if zeros32 (minv (minv x0 x1) (minv x2 x3)) =? 0 then strlen32_blocks f m s (wrap64 (p + 128))
      else if negb (zeros32 x0 =? 0) then Some (p - s + ctz (zeros32 x0))
      else if negb (zeros32 x1 =? 0) then Some (p - s + 32 + ctz (zeros32 x1))
      else if negb (zeros32 x2 =? 0) then Some (p - s + 64 + ctz (zeros32 x2))
      else Some (p - s + 96 + ctz (zeros32 x3))
  end.

Definition strlen32 (fuel : nat) (m : mem) (s : Z) : option Z :=
  if 128 <=? TO_PAGE_END s then
    a ← ld 32 m s;
    if negb (zeros32 a =? 0) then Some (ctz (zeros32 a))
    else
      b ← ld 32 m (s + 32); c ← ld 32 m (s + 64); d ← ld 32 m (s + 96);
      if negb (zeros32 (minv b (minv c d)) =? 0) then
        if negb (zeros32 b =? 0) then Some (32 + ctz (zeros32 b))
        else if negb (zeros32 c =? 0) then Some (64 + ctz (zeros32 c))
        else Some (96 + ctz (zeros32 d))
      else strlen32_blocks fuel m s (Z.land (wrap64 (s + 128)) (Z.lnot 127))
  else q ← scan 32 mask32_avx2 fuel m s 0 false UINTPTR_MAX; length_from s q.

(** ** Specification *)

(** An address space: touched by whole pages, and never in its last page. *)
Definition space_ok (m : mem) : Prop :=
  (forall a b, a / OKM_PAGE_MIN = b / OKM_PAGE_MIN -> is_Some (m !! a) -> is_Some (m !! b)) /\
  (forall a, is_Some (m !! a) -> 0 <= a < 2 ^ 64 - OKM_PAGE_MIN).

(** Where a scan for [c] stops. *)
Definition stops (c : Z) (nul : bool) (b : Z) : Prop := b = c \/ (nul = true /\ b = 0).

#[export] Instance stops_dec c nul b : Decision (stops c nul b).
Proof. unfold stops. apply _. Defined.

(** No byte of [a, b) stops the scan. *)
Definition nostop (m : mem) (c : Z) (nul : bool) (a b : Z) : Prop :=
  forall x, a <= x < b -> exists v, m !! x = Some v /\ ~ stops c nul v.

(** [q] is the first byte at or after [s] that stops it. *)
Definition stop_at (m : mem) (c : Z) (nul : bool) (s q : Z) : Prop :=
  s <= q /\ nostop m c nul s q /\ exists v, m !! q = Some v /\ stops c nul v.

(** What a scan answers. *)
Definition scan_spec (m : mem) (c : Z) (nul : bool) (s end_ : Z) (r : option Z) : Prop :=
  match r with
  | Some q => stop_at m c nul s q /\ q < end_
  | None => nostop m c nul s end_
  end.

(** What a scan may assume: it stops below [end_], or the bytes up to [end_] are
    there; within [N] bytes either way. *)
Definition reach (m : mem) (c : Z) (nul : bool) (s end_ N : Z) : Prop :=
  (exists q, stop_at m c nul s q /\ q < end_ /\ q - s <= N) \/
  (s < end_ /\ nostop m c nul s end_ /\ end_ - s <= N).

(** ** Pages *)

Lemma page_block p K i :
  0 < K -> OKM_PAGE_MIN mod K = 0 -> p mod K = 0 -> 0 <= i < K -> (p + i) / OKM_PAGE_MIN = p / OKM_PAGE_MIN.
Proof.
  intros HK HP Hp Hi. pose proof (Z.div_mod OKM_PAGE_MIN K ltac:(lia)) as E.
  assert (OKM_PAGE_MIN = K * (OKM_PAGE_MIN / K)) as -> by lia.
  set (b := OKM_PAGE_MIN / K). assert (0 < b) by (subst b; unfold OKM_PAGE_MIN in *; nia).
  rewrite <-!Z.div_div by lia. f_equal. pose proof (Z.div_mod p K ltac:(lia)).
  replace (p + i) with (i + p / K * K) by lia. rewrite Z.div_add, Z.div_small by lia. lia.
Qed.

(** Within the bytes to the end of its page. *)
Lemma page_end_block p i : 0 <= i < TO_PAGE_END p -> (p + i) / OKM_PAGE_MIN = p / OKM_PAGE_MIN.
Proof.
  unfold TO_PAGE_END, OKM_PAGE_MIN. change (4096 - 1) with (2 ^ 12 - 1). rewrite land_low by lia.
  change (2 ^ 12) with 4096. intros H. pose proof (Z.div_mod p 4096). pose proof (Z.div_mod (p + i) 4096).
  pose proof (Z.mod_pos_bound p 4096). pose proof (Z.mod_pos_bound (p + i) 4096). lia.
Qed.

Section space.
Context (m : mem) (Hsp : space_ok m).

Lemma space_page a b : a / OKM_PAGE_MIN = b / OKM_PAGE_MIN -> is_Some (m !! a) -> is_Some (m !! b).
Proof. apply Hsp. Qed.

Lemma space_bound a : is_Some (m !! a) -> 0 <= a < 2 ^ 64 - OKM_PAGE_MIN.
Proof. apply Hsp. Qed.

Lemma aligned_mapped p K :
0 < K -> OKM_PAGE_MIN mod K = 0 -> p mod K = 0 -> is_Some (m !! p) -> mapped m p K.
Proof.
intros. intros a Ha. apply (space_page p); [|done].
replace a with (p + (a - p)) by lia. by rewrite (page_block p K) by lia.
Qed.

Lemma page_end_mapped p K : K <= TO_PAGE_END p -> is_Some (m !! p) -> mapped m p K.
Proof.
intros HK Hp a Ha. apply (space_page p); [|done].
replace a with (p + (a - p)) by lia. by rewrite page_end_block by lia.
Qed.
End space.

(** ** One vector *)

Section block.
Context (w : nat) (mo : maskops) `{!MaskLaws w mo}.
Context (m : mem) (Hb : bytes_ok m) (c : Z) (Hc : 0 <= c < 256) (nul : bool).
Abbreviation W := (Z.of_nat w).

Lemma t_length x : length x = w -> length (t w x c nul) = w.
Proof.
intros Hx. unfold t, xorv, minv, splat. destruct nul; rewrite ?length_zip_with, length_replicate; lia.
Qed.

Lemma t_lookup p x i : ld w m p = Some x -> (i < w)%nat ->
exists v u, m !! (p + Z.of_nat i) = Some v /\ t w x c nul !! i = Some u /\ 0 <= u /\ (u = 0 <-> stops c nul v).
Proof.
intros Hx Hi. destruct (lookup_lt_is_Some_2 x i) as [v Hv]; [by rewrite (ld_length _ _ _ _ Hx)|].
pose proof Hv as Hm. rewrite (ld_lookup _ _ _ _ _ Hx Hi) in Hm. pose proof (Hb _ _ Hm).
assert (xorv x (splat w c) !! i = Some (Z.lxor v c)) as Ht.
{ unfold xorv. rewrite lookup_zip_with, Hv. unfold splat. by rewrite lookup_replicate_2. }
pose proof (lxor_byte v c ltac:(lia) Hc) as Hxor. pose proof (Z.lxor_eq_0_iff v c).
exists v. unfold t, stops. destruct nul; cbv zeta.
- exists (Z.min (Z.lxor v c) v). split; [done|]. split; [|split; [lia|]].
+ unfold minv. by rewrite lookup_zip_with, Ht; simpl; rewrite Hv.
+ split; intros; lia.
- exists (Z.lxor v c). split; [done|]. split; [done|]. split; [lia|].
rewrite H0. split; [auto|]. by intros [|[]].
Qed.

Lemma stop_lanes x : length x = w -> lanes w (eqv (t w x c nul) (splat w 0)).
Proof. intros. apply eqv_lanes; [by apply t_length|]. apply length_replicate. Qed.

Lemma stop_lookup p x i : ld w m p = Some x -> (i < w)%nat ->
exists v y, m !! (p + Z.of_nat i) = Some v /\ eqv (t w x c nul) (splat w 0) !! i = Some y /\ (y <> 0 <-> stops c nul v).
Proof.
intros Hx Hi. destruct (t_lookup p x i Hx Hi) as (v & u & Hv & Hu & _ & Hz).
exists v. eexists. split; [done|]. split.
- unfold eqv, splat. by rewrite lookup_zip_with, Hu; simpl; rewrite lookup_replicate_2.
- rewrite <-Hz. split_if; split; intros; lia.
Qed.

(** A vector whose lanes from the [o]-th on are looked at. *)
Lemma stop_first p x o i : ld w m p = Some x -> (o <= w)%nat ->
first_lane (drop o (eqv (t w x c nul) (splat w 0))) = Some i ->
0 <= i < W - Z.of_nat o /\ stop_at m c nul (p + Z.of_nat o) (p + Z.of_nat o + i).
Proof.
intros Hx Ho H. apply first_lane_some in H as (n & -> & (y & Hy & Hne) & Hk).
rewrite lookup_drop in Hy. pose proof (lookup_lt_Some _ _ _ Hy) as Hlt.
rewrite (proj1 (stop_lanes x (ld_length _ _ _ _ Hx))) in Hlt.
destruct (stop_lookup p x (o + n) Hx Hlt) as (v & y' & Hv & Hy' & Hs).
split; [lia|]. split; [lia|]. split.
- intros a Ha. set (j := Z.to_nat (a - p - Z.of_nat o)).
destruct (stop_lookup p x (o + j) Hx) as (v' & z & Hv' & Hz & Hs'); [unfold j; lia|].
exists v'. replace (p + Z.of_nat (o + j)) with a in Hv' by (unfold j; lia). split; [done|].
rewrite <-Hs'. intros Hne'. apply Hne'. apply (Hk j); [unfold j; lia|]. by rewrite lookup_drop.
- exists v. replace (p + Z.of_nat o + Z.of_nat n) with (p + Z.of_nat (o + n)) by lia. split; [done|].
apply Hs. congruence.
Qed.

Lemma stop_none p x o : ld w m p = Some x -> (o <= w)%nat ->
first_lane (drop o (eqv (t w x c nul) (splat w 0))) = None ->
nostop m c nul (p + Z.of_nat o) (p + W).
Proof.
intros Hx Ho H a Ha. set (j := Z.to_nat (a - p - Z.of_nat o)).
destruct (stop_lookup p x (o + j) Hx) as (v' & z & Hv' & Hz & Hs'); [unfold j; lia|].
exists v'. replace (p + Z.of_nat (o + j)) with a in Hv' by (unfold j; lia). split; [done|].
rewrite <-Hs'. intros Hne. apply Hne. eapply first_lane_none; [exact H|]. by rewrite lookup_drop.
Qed.
End block.

(** ** The scan *)

Lemma nostop_app m c nul i j k : nostop m c nul i j -> nostop m c nul j k -> nostop m c nul i k.
Proof. intros H1 H2 x ?. destruct (decide (x < j)); [apply H1|apply H2]; lia. Qed.

Lemma stop_at_app m c nul s p q : nostop m c nul s p -> s <= p -> stop_at m c nul p q -> stop_at m c nul s q.
Proof. intros H1 Hsp (H2 & H3 & H4). split; [lia|]. split; [by eapply nostop_app|done]. Qed.

(** A byte that stops the scan is not among those that do not. *)
Lemma stop_beyond m c nul s p q : nostop m c nul s p -> stop_at m c nul s q -> p <= q.
Proof.
  intros H1 (H2 & _ & v & Hv & Hs). destruct (decide (q < p)); [|lia]. exfalso.
  destruct (H1 q) as (v' & Hv' & Hn); [lia|]. rewrite Hv in Hv'. simplify_eq. done.
Qed.

Section scan.
Context (w : nat) (mo : maskops) `{!MaskLaws w mo}.
Context (m : mem) (Hsp : space_ok m) (Hb : bytes_ok m).
Context (c : Z) (Hc : 0 <= c < 256) (nul : bool) (s end_ N : Z) (Hr : reach m c nul s end_ N).
Abbreviation W := (Z.of_nat w).
Context (e : Z) (He : 0 <= e) (HWe : W = 2 ^ e) (H4W : OKM_PAGE_MIN mod (4 * W) = 0).

#[local] Lemma W_pos : 0 < W.
Proof. rewrite HWe. by apply Z.pow_pos_nonneg. Qed.

#[local] Lemma W_page : OKM_PAGE_MIN mod W = 0.
Proof.
pose proof W_pos. apply Z.mod_divide in H4W; [|lia]. apply Z.mod_divide; [lia|].
destruct H4W as [k Hk]. exists (k * 4). lia.
Qed.

Lemma reach_mapped p : s <= p < end_ -> nostop m c nul s p -> is_Some (m !! p) /\ p - s <= N.
Proof using Hr.
clear HWe H4W He. intros Hp Hn. destruct Hr as [(q & Hq & Hqe & HN) | (_ & Ha & HN)].
- pose proof (stop_beyond _ _ _ _ _ _ Hn Hq). destruct Hq as (_ & Hns & v & Hv & _). split; [|lia].
destruct (decide (p = q)) as [->|]; [eauto|]. destruct (Hns p) as (v' & -> & _); [lia|eauto].
- split; [|lia]. destruct (Ha p) as (v & -> & _); [lia|eauto].
Qed.

(** A stop found in the block at [p]. *)
Lemma FOUND_ok p m_ q :
s <= p -> nostop m c nul s p -> stop_at m c nul p q -> mo_at mo m_ = q - p ->
exists r, FOUND mo p m_ end_ = Some r /\ scan_spec m c nul s end_ r.
Proof using Hsp.
clear HWe H4W He. intros Hsp' Hn Hq Hat. unfold FOUND. rewrite Hat. replace (p + (q - p)) with q by lia.
pose proof (stop_at_app _ _ _ _ _ _ Hn Hsp' Hq) as Hs.
destruct Hq as (_ & _ & v & Hv & _). rewrite wrap64_small by (pose proof (space_bound m Hsp q ltac:(eauto)); unfold OKM_PAGE_MIN in *; lia).
eexists. split; [done|]. destruct Hs as (Hs1 & Hs2 & Hs3). split_if; simpl.
- split; [|lia]. split; [done|]. split; [done|]. done.
- intros x Hx. apply Hs2. lia.
Qed.

(** One aligned vector: either it stops the scan or none of it does. *)
Lemma vector_cases p x :
ld w m p = Some x ->
(STOP w mo (t w x c nul) = 0 /\ nostop m c nul p (p + W)) \/
(STOP w mo (t w x c nul) <> 0 /\ exists q, stop_at m c nul p q /\ q < p + W /\ mo_at mo (STOP w mo (t w x c nul)) = q - p).
Proof using Hb Hc MaskLaws0.
clear HWe H4W He. intros Hx. pose proof (stop_lanes w c nul x (ld_length _ _ _ _ Hx)) as HL. unfold STOP.
rewrite (mask_zero w mo) by done.
destruct (first_lane (eqv (t w x c nul) (splat w 0))) as [i|] eqn:E.
- right. split; [done|]. pose proof (mask_first w mo _ _ HL E) as Hat.
destruct (stop_first w m Hb c Hc nul p x 0 i Hx ltac:(lia) E) as [Hi Hs].
rewrite Z.add_0_r in Hs. exists (p + i). split; [done|]. lia.
- left. split; [done|]. pose proof (stop_none w m Hb c Hc nul p x 0 Hx ltac:(lia) E) as Hn.
by rewrite Z.add_0_r in Hn.
Qed.

Lemma minv_stop a b : length a = w -> length b = w -> Forall (Z.le 0) a -> Forall (Z.le 0) b ->
first_lane (eqv (minv a b) (splat w 0)) = None <->
first_lane (eqv a (splat w 0)) = None /\ first_lane (eqv b (splat w 0)) = None.
Proof.
clear. unfold splat. revert a b. induction w as [|n IH]; intros a b Ha Hb Fa Fb.
- destruct a, b; try done.
- destruct a as [|x a], b as [|y b]; try done. inversion Fa; inversion Fb; subst.
cbn [minv zip_with replicate eqv first_lane]. specialize (IH a b ltac:(by inversion Ha) ltac:(by inversion Hb) ltac:(done) ltac:(done)).
change (zip_with Z.min a b) with (minv a b).
change (zip_with _ (minv a b) (replicate n 0)) with (eqv (minv a b) (replicate n 0)).
change (zip_with _ a (replicate n 0)) with (eqv a (replicate n 0)).
change (zip_with _ b (replicate n 0)) with (eqv b (replicate n 0)).
destruct (x =? 0) eqn:Ex, (y =? 0) eqn:Ey, (Z.min x y =? 0) eqn:Em; boolean; try lia; simpl;
  try (split; [done|by intros []]).
destruct (first_lane (eqv (minv a b) (replicate n 0))), (first_lane (eqv a (replicate n 0))),
  (first_lane (eqv b (replicate n 0))); simpl in *; intuition congruence.
Qed.

Lemma t_nonneg p x : ld w m p = Some x -> Forall (Z.le 0) (t w x c nul).
Proof.
intros Hx. apply Forall_lookup. intros i u Hu. pose proof (lookup_lt_Some _ _ _ Hu) as Hi.
rewrite t_length in Hi by eauto with mem.
destruct (t_lookup w m Hb c Hc nul p x i Hx Hi) as (v & u' & _ & Hu' & Hge & _). congruence.
Qed.

(** The minimum of the four stops where any of them does. *)
Lemma quad_none p0 p1 p2 p3 x0 x1 x2 x3 :
ld w m p0 = Some x0 -> ld w m p1 = Some x1 -> ld w m p2 = Some x2 -> ld w m p3 = Some x3 ->
STOP w mo (minv (minv (t w x0 c nul) (t w x1 c nul)) (minv (t w x2 c nul) (t w x3 c nul))) = 0 <->
STOP w mo (t w x0 c nul) = 0 /\ STOP w mo (t w x1 c nul) = 0 /\
STOP w mo (t w x2 c nul) = 0 /\ STOP w mo (t w x3 c nul) = 0.
Proof.
intros H0 H1 H2 H3. unfold STOP.
pose proof (t_length w c nul x0 (ld_length _ _ _ _ H0)). pose proof (t_length w c nul x1 (ld_length _ _ _ _ H1)).
pose proof (t_length w c nul x2 (ld_length _ _ _ _ H2)). pose proof (t_length w c nul x3 (ld_length _ _ _ _ H3)).
assert (forall a b, length a = w -> length b = w -> length (minv a b) = w) as Hlm
by (intros; unfold minv; rewrite length_zip_with; lia).
assert (forall a b, Forall (Z.le 0) a -> Forall (Z.le 0) b -> Forall (Z.le 0) (minv a b)) as Hfm.
{ intros a b Fa Fb. apply Forall_lookup. intros i u Hu. apply lookup_zip_with_Some in Hu as (y & z & -> & Hy & Hz).
eapply Forall_lookup in Hy; [|exact Fa]. eapply Forall_lookup in Hz; [|exact Fb]. lia. }
assert (length (splat w 0) = w) by apply length_replicate.
rewrite !(mask_zero w mo) by eauto using eqv_lanes.
rewrite !minv_stop by eauto using t_nonneg. tauto.
Qed.

(** Extending what is known not to stop by the vector at [p]. *)
#[local] Lemma extend_or_found p x (k : option (option Z)) :
ld w m p = Some x -> s <= p -> nostop m c nul s p ->
(STOP w mo (t w x c nul) = 0 -> nostop m c nul s (p + W) -> exists r, k = Some r /\ scan_spec m c nul s end_ r) ->
exists r, (if negb (STOP w mo (t w x c nul) =? 0) then FOUND mo p (STOP w mo (t w x c nul)) end_ else k) = Some r
/\ scan_spec m c nul s end_ r.
Proof.
intros Hx Hp Hn Hk. destruct (vector_cases p x Hx) as [[E N0] | (E & q & Hq & Hq' & Hat)].
- rewrite E. simpl. apply Hk; [done|]. by eapply nostop_app.
- rewrite (proj2 (Z.eqb_neq _ _) E). simpl. by eapply FOUND_ok.
Qed.

#[local] Lemma quad_chain p x0 x1 x2 x3 (k : option (option Z)) :
ld w m p = Some x0 -> ld w m (p + W) = Some x1 -> ld w m (p + 2 * W) = Some x2 -> ld w m (p + 3 * W) = Some x3 ->
s <= p -> nostop m c nul s p ->
(nostop m c nul s (p + 4 * W) -> exists r, k = Some r /\ scan_spec m c nul s end_ r) ->
let t0 := t w x0 c nul in let t1 := t w x1 c nul in let t2 := t w x2 c nul in let t3 := t w x3 c nul in
exists r,
(if STOP w mo (minv (minv t0 t1) (minv t2 t3)) =? 0 then k
 else if negb (STOP w mo t0 =? 0) then FOUND mo p (STOP w mo t0) end_
 else if negb (STOP w mo t1 =? 0) then FOUND mo (p + W) (STOP w mo t1) end_
 else if negb (STOP w mo t2 =? 0) then FOUND mo (p + 2 * W) (STOP w mo t2) end_
 else FOUND mo (p + 3 * W) (STOP w mo t3) end_) = Some r
/\ scan_spec m c nul s end_ r.
Proof.
intros L0 L1 L2 L3 Hp Hn Hk t0 t1 t2 t3. pose proof W_pos.
pose proof (quad_none _ _ _ _ _ _ _ _ L0 L1 L2 L3) as HQ. fold t0 t1 t2 t3 in HQ.
destruct (STOP w mo (minv (minv t0 t1) (minv t2 t3)) =? 0) eqn:E; boolean.
- apply HQ in E as (E0 & E1 & E2 & E3). apply Hk.
destruct (vector_cases p x0 L0) as [[_ N0]|[]]; [|done].
destruct (vector_cases _ x1 L1) as [[_ N1]|[]]; [|done].
destruct (vector_cases _ x2 L2) as [[_ N2]|[]]; [|done].
destruct (vector_cases _ x3 L3) as [[_ N3]|[]]; [|done].
intros a Ha. destruct (decide (a < p)); [apply Hn; lia|].
destruct (decide (a < p + W)); [apply N0; lia|]. destruct (decide (a < p + 2 * W)); [apply N1; lia|].
destruct (decide (a < p + 3 * W)); [apply N2; lia|apply N3; lia].
- apply extend_or_found; [done..|]. intros E0 Hn0.
apply extend_or_found; [done|lia|done|]. intros E1 Hn1. replace (p + W + W) with (p + 2 * W) in Hn1 by lia.
apply extend_or_found; [done|lia|done|]. intros E2 Hn2. replace (p + 2 * W + W) with (p + 3 * W) in Hn2 by lia.
destruct (vector_cases _ x3 L3) as [[E3 _] | (E3 & q & Hq & Hq' & Hat)]; [tauto|].
eapply FOUND_ok; try done. lia.
Qed.

#[local] Lemma multiple_W p : p mod (4 * W) = 0 -> p mod W = 0.
Proof.
pose proof W_pos. intros Hal. apply Z.mod_divide in Hal as [k Hk]; [|lia].
apply Z.mod_divide; [lia|]. exists (k * 4). lia.
Qed.

#[local] Lemma quad_page : 4 * W <= OKM_PAGE_MIN.
Proof. pose proof W_pos. apply Z.divide_pos_le; [done|]. apply Z.mod_divide; [lia|done]. Qed.

Lemma scan_quads_ok fuel p :
s <= p -> p mod (4 * W) = 0 -> nostop m c nul s p -> N - (p - s) < Z.of_nat fuel ->
exists r, scan_quads w mo fuel m p c nul end_ = Some r /\ scan_spec m c nul s end_ r.
Proof.
pose proof W_pos. pose proof quad_page. revert p.
induction fuel as [|f IH]; intros p Hp Hal Hn Hf; cbn [scan_quads];
(split_if; [|exists None; split; [done|intros x ?; apply Hn; lia]]);
(destruct (reach_mapped p) as [Hm HN]; [lia|done|]); [lia|].
pose proof (aligned_mapped m Hsp p (4 * W) ltac:(lia) H4W Hal Hm) as Hmap.
pose proof (multiple_W p Hal). pose proof (space_bound m Hsp p Hm).
rewrite !ld_al_eq by (first [done|by apply multiple_add|by apply multiple_add_1]).
destruct (ld_some w m p) as [x0 L0]; [mem_mapped|]. destruct (ld_some w m (p + W)) as [x1 L1]; [mem_mapped|].
destruct (ld_some w m (p + 2 * W)) as [x2 L2]; [mem_mapped|]. destruct (ld_some w m (p + 3 * W)) as [x3 L3]; [mem_mapped|].
rewrite L0, L1, L2, L3. cbn [mbind option_bind].
apply (quad_chain p x0 x1 x2 x3); [done..|]. intros Hn'. rewrite wrap64_small by lia.
apply IH; [lia|by apply multiple_add_1|done|lia].
Qed.

Lemma scan_singles_ok fuel p :
s <= p -> p mod W = 0 -> nostop m c nul s p -> N - (p - s) < Z.of_nat fuel ->
exists r, scan_singles w mo fuel m p c nul end_ = Some r /\ scan_spec m c nul s end_ r.
Proof.
pose proof W_pos. pose proof quad_page. assert (4 * W = 2 ^ (e + 2)) as E4 by (rewrite Z.pow_add_r by lia; lia).
revert p. induction fuel as [|f IH]; intros p Hp Hal Hn Hf; cbn [scan_singles];
rewrite E4, land_low, <-E4 by lia;
(split_if; [by apply scan_quads_ok|]);
(split_if; [exists None; split; [done|intros x ?; apply Hn; lia]|]);
(destruct (reach_mapped p) as [Hm HN]; [lia|done|]); [lia|].
pose proof (aligned_mapped m Hsp p W ltac:(lia) W_page Hal Hm) as Hmap.
pose proof (space_bound m Hsp p Hm). rewrite ld_al_eq by done.
destruct (ld_some w m p) as [x L]; [mem_mapped|]. rewrite L. cbn [mbind option_bind].
apply extend_or_found; [done..|]. intros _ Hn'. rewrite wrap64_small by lia.
apply IH; [lia|by apply multiple_add_1|done|lia].
Qed.

Lemma scan_ok fuel :
N < Z.of_nat fuel -> s < end_ ->
exists r, scan w mo fuel m s c nul end_ = Some r /\ scan_spec m c nul s end_ r.
Proof.
intros Hf Hse. pose proof W_pos. pose proof quad_page. unfold scan.
assert (Z.land s (W - 1) = s mod W) as -> by (rewrite HWe; by apply land_low). pose proof (Z.mod_pos_bound s W ltac:(lia)) as Ho.
destruct (reach_mapped s) as [Hm _]; [lia|intros ? ?; lia|]. pose proof (space_bound m Hsp s Hm).
set (p := s - s mod W). assert (p mod W = 0) as Hal.
{ unfold p. pose proof (Z.div_mod s W ltac:(lia)). replace (s - s mod W) with (s / W * W) by lia. apply Z.mod_mul. lia. }
assert (is_Some (m !! p)) as Hpm.
{ apply (space_page m Hsp s); [|done]. replace s with (p + s mod W) at 1 by (unfold p; lia).
apply (page_block p W); [lia|apply W_page|done|lia]. }
pose proof (aligned_mapped m Hsp p W ltac:(lia) W_page Hal Hpm) as Hmap. rewrite ld_al_eq by done.
destruct (ld_some w m p) as [x L]; [mem_mapped|]. rewrite L. cbn [mbind option_bind].
pose proof (stop_lanes w c nul x (ld_length _ _ _ _ L)) as HL. unfold STOP.
replace (s mod W * mo_bits mo) with (Z.of_nat (Z.to_nat (s mod W)) * mo_bits mo) by (by rewrite Z2Nat.id by lia).
rewrite (mask_shift w mo) by done. pose proof (@ml_bits w mo _) as Hbits.
assert (p + Z.of_nat (Z.to_nat (s mod W)) = s) as Hps by (unfold p; lia).
destruct (first_lane (drop (Z.to_nat (s mod W)) (eqv (t w x c nul) (splat w 0)))) as [i|] eqn:E.
- assert (lanes_mask (mo_bits mo) (drop (Z.to_nat (s mod W)) (eqv (t w x c nul) (splat w 0))) <> 0) as Hne
  by (rewrite lanes_mask_zero by done; congruence).
rewrite (proj2 (Z.eqb_neq _ _) Hne). cbn [negb].
destruct (stop_first w m Hb c Hc nul p x (Z.to_nat (s mod W)) i L ltac:(lia) E) as [Hi Hs]. rewrite Hps in Hs.
apply (FOUND_ok s _ (s + i)); [lia|intros ? ?; lia|done|]. rewrite (mask_at_lanes w mo _ _ E). lia.
- rewrite (proj2 (lanes_mask_zero _ Hbits _) E). cbn [negb Z.eqb].
pose proof (stop_none w m Hb c Hc nul p x (Z.to_nat (s mod W)) L ltac:(lia) E) as Hns. rewrite Hps in Hns.
rewrite wrap64_small by (unfold p; lia).
apply scan_singles_ok; [unfold p; lia|by apply multiple_add_1|done|unfold p; lia].
Qed.
End scan.

(** ** memchr, strchr and strlen *)

Lemma stop_at_unique m c nul s q q' : stop_at m c nul s q -> stop_at m c nul s q' -> q = q'.
Proof.
  intros H H'. pose proof (stop_beyond m c nul s q q' ltac:(apply H) H').
  pose proof (stop_beyond m c nul s q' q ltac:(apply H') H). lia.
Qed.

Lemma t_false w x c : length x = w -> eqv (t w x c false) (splat w 0) = eqv x (splat w c).
Proof.
  intros <-. unfold t, eqv, xorv, splat. induction x as [|v x IH]; [done|]. simpl. f_equal; [|done].
  destruct (v =? c) eqn:E; boolean.
  - subst. by rewrite Z.lxor_nilpotent.
  - assert (Z.lxor v c <> 0) as Hne by (by rewrite Z.lxor_eq_0_iff). by rewrite (proj2 (Z.eqb_neq _ _) Hne).
Qed.

Lemma t_zero w x : length x = w -> t w x 0 false = x.
Proof.
  intros <-. unfold t, xorv, splat. induction x as [|v x IH]; [done|]. simpl. by rewrite Z.lxor_0_r, IH.
Qed.

Lemma t_true w x c :
  length x = w -> 0 <= c < 256 -> Forall (fun v => 0 <= v < 256) x ->
  eqv (t w x c true) (splat w 0) = orv (eqv x (splat w c)) (eqv x (splat w 0)).
Proof.
  intros <- Hc. unfold t, eqv, xorv, minv, orv, splat. induction 1 as [|v x Hv _ IH]; [done|]. simpl. f_equal; [|done].
  pose proof (lxor_byte v c Hv Hc). pose proof (Z.lxor_eq_0_iff v c).
  destruct (v =? c) eqn:E, (v =? 0) eqn:E'; boolean; split_if; try done; lia.
Qed.

Section functions.
Context (w : nat) (mo : maskops) `{!MaskLaws w mo}.
Context (m : mem) (Hsp : space_ok m) (Hb : bytes_ok m).
Abbreviation W := (Z.of_nat w).
Context (e : Z) (He : 0 <= e) (HWe : W = 2 ^ e) (H4W : OKM_PAGE_MIN mod (4 * W) = 0).

#[local] Lemma Wpos : 0 < W.
Proof. rewrite HWe. by apply Z.pow_pos_nonneg. Qed.

(** The cap on the end of a range never hides a byte that is there. *)
Lemma reach_cap c s n :
reach m c false s (s + n) n ->
reach m c false s (if UINTPTR_MAX - s <? n then UINTPTR_MAX else s + n) n.
Proof.
intros [(q & Hq & Hqe & HN) | (Hlt & Hn & HN)].
- left. exists q. destruct Hq as (Hq1 & Hq2 & v & Hv & Hs).
pose proof (space_bound m Hsp q ltac:(eauto)). unfold UINTPTR_MAX, OKM_PAGE_MIN in *.
split; [|split_if; lia]. split; [done|]. split; [done|]. eauto.
- right. destruct (Hn (s + n - 1)) as (v & Hv & _); [lia|].
pose proof (space_bound m Hsp (s + n - 1) ltac:(eauto)). unfold UINTPTR_MAX, OKM_PAGE_MIN in *.
split_if; [lia|]. auto.
Qed.

(** A suffix of what is in reach is in reach. *)
Lemma reach_suffix c nul s end_ N p :
reach m c nul s end_ N -> nostop m c nul s p -> s <= p < end_ -> reach m c nul p end_ N.
Proof.
intros [(q & Hq & Hqe & HN) | (Hlt & Hn & HN)] Hp Hr.
- left. exists q. pose proof (stop_beyond _ _ _ _ _ _ Hp Hq). destruct Hq as (Hq1 & Hq2 & Hq3).
split; [split; [lia|split; [intros x ?; apply Hq2; lia|done]]|lia].
- right. split; [lia|]. split; [intros x ?; apply Hn; lia|lia].
Qed.

Lemma scan_spec_extend c nul s p end_ r :
nostop m c nul s p -> s <= p -> scan_spec m c nul p end_ r -> scan_spec m c nul s end_ r.
Proof.
intros Hn Hp. destruct r as [q|]; simpl.
- intros [Hq ?]. split; [|done]. by eapply stop_at_app.
- intros H. by eapply nostop_app.
Qed.

(** A vector read where it is, for [memchr]. *)
#[local] Lemma first_vector c nul s end_ N k :
0 <= c < 256 -> reach m c nul s end_ N -> 4 * W <= TO_PAGE_END s -> s < end_ -> 0 <= k -> k + W <= 4 * W ->
exists x, ld w m (s + k) = Some x /\ 0 <= s + k < 2 ^ 64 - OKM_PAGE_MIN.
Proof.
intros Hc Hr Hpage Hse H0 Hk. pose proof Wpos as HW.
destruct (reach_mapped m c nul s end_ N Hr s) as [Hm _]; [lia|intros ? ?; lia|].
pose proof (page_end_mapped m Hsp s (4 * W) Hpage Hm) as Hmap.
destruct (ld_some w m (s + k)) as [x L]; [apply (mapped_sub _ _ _ _ _ Hmap); lia|].
exists x. split; [done|]. apply (space_bound m Hsp). apply Hmap. lia.
Qed.

Section memchr.
Context (fuel : nat) (s c n end_ N : Z) (Hc : 0 <= c < 256) (Hr : reach m c false s end_ N).
Context (HN : N < Z.of_nat fuel) (Hpage : 4 * W <= TO_PAGE_END s).
Context (Hend : end_ = if UINTPTR_MAX - s <? n then UINTPTR_MAX else s + n) (Hse : s < end_).

Lemma memchr_first_ok j k :
0 <= k < n -> k + Z.of_nat j * W = 4 * W -> nostop m c false s (s + k) -> s + k < end_ ->
exists r, memchr_first w mo j fuel m s c n end_ k = Some r /\ scan_spec m c false s end_ r.
Proof.
pose proof Wpos as HW. revert k. induction j as [|j IH]; intros k Hk0 Hk Hn Hke; cbn [memchr_first].
- replace (s + k) with (s + 4 * W) in * by lia.
destruct (scan_ok w mo m Hsp Hb c Hc false (s + 4 * W) end_ N) with (e := e) (fuel := fuel) as (r & -> & Hs); try done.
{ eapply reach_suffix; [done|done|lia]. }
exists r. split; [done|]. eapply scan_spec_extend; [done|lia|done].
- destruct (first_vector c false s end_ N k) as (x & L & Hsk); try done; [lia|nia|]. rewrite L. cbn [mbind option_bind].
rewrite <-t_false by eauto with mem.
change (mo_mask mo (eqv (t w x c false) (splat w 0))) with (STOP w mo (t w x c false)).
destruct (vector_cases w mo m Hb c Hc false (s + k) x L) as [[E N0] | (E & q & Hq & Hq' & Hat)].
2: { rewrite (proj2 (Z.eqb_neq _ _) E). cbn [negb]. eapply FOUND_ok; try done. lia. }
rewrite E. cbn [negb Z.eqb]. pose proof (nostop_app _ _ _ _ _ _ Hn N0) as Hn'.
replace (s + k + W) with (s + (k + W)) in Hn' by lia. unfold UINTPTR_MAX, OKM_PAGE_MIN in *.
split_if.
+ exists None. split; [done|]. intros a Ha. apply Hn'. revert Hend. split_if; lia.
+ apply IH; try done; try lia. revert Hend. split_if; [|lia]. intros ->.
destruct (reach_mapped m c false s _ N Hr s) as [Hm _]; [lia|intros ? ?; lia|].
pose proof (page_end_mapped m Hsp s (4 * W) Hpage Hm) as Hmap.
pose proof (space_bound m Hsp (s + (k + W) - 1) (Hmap (s + (k + W) - 1) ltac:(nia))). unfold OKM_PAGE_MIN in *. lia.
Qed.
End memchr.

Lemma memchr_v_ok fuel s c n :
0 <= c < 256 -> n = 0 \/ reach m c false s (s + n) n -> n < Z.of_nat fuel ->
exists r, memchr_v w mo fuel m s c n = Some r /\ scan_spec m c false s (s + n) r.
Proof.
intros Hc Hpre HN. unfold memchr_v. split_if.
{ exists None. split; [done|]. intros ? ?. lia. }
destruct Hpre as [|Hr]; [lia|]. pose proof (reach_cap c s n Hr) as Hcap.
set (end_ := if UINTPTR_MAX - s <? n then UINTPTR_MAX else s + n) in *.
assert (s < s + n) as Hsn by (destruct Hr as [(q & (? & _) & ? & _)|(? & _)]; lia).
assert (s < end_) as Hse by (destruct Hcap as [(q & (? & _) & ? & _)|(? & _)]; lia).
assert (forall r, scan_spec m c false s end_ r -> scan_spec m c false s (s + n) r) as Hw.
{ intros [q|]; simpl.
- intros [Hq Hlt]. split; [done|]. revert Hlt. unfold end_. split_if; [|lia]. intros _.
  destruct Hr as [(q' & Hq' & ? & _)|(_ & Hn & _)]; [by rewrite (stop_at_unique _ _ _ _ _ _ Hq Hq')|].
  pose proof (stop_beyond _ _ _ _ _ _ Hn Hq) as Hb'. destruct Hq as (_ & _ & v & Hv & _).
  pose proof (space_bound m Hsp q ltac:(eauto)). unfold UINTPTR_MAX, OKM_PAGE_MIN in *. lia.
- unfold end_. split_if; [|done]. intros Hn. destruct Hr as [(q' & Hq' & ? & _)|(_ & Hn' & _)]; [|done].
  pose proof (stop_beyond m c false s UINTPTR_MAX q' Hn Hq') as Hbe.
  destruct Hq' as (_ & _ & v & Hv & _). pose proof (space_bound m Hsp q' ltac:(eauto)).
  unfold UINTPTR_MAX, OKM_PAGE_MIN in *. lia. }
assert (exists r, (if 4 * W <=? TO_PAGE_END s then memchr_first w mo 4 fuel m s c n end_ 0
else scan w mo fuel m s c false end_) = Some r /\ scan_spec m c false s end_ r) as (r & -> & Hs); [|eauto].
split_if.
- eapply memchr_first_ok; try done; try lia. intros ? ?; lia.
- eapply scan_ok; done.
Qed.

(** A scan with no end stops where the string does. *)
Lemma scan_to_stop fuel s c nul q p :
0 <= c < 256 -> stop_at m c nul s q -> q - s < Z.of_nat fuel -> nostop m c nul s p -> s <= p ->
scan w mo fuel m p c nul UINTPTR_MAX = Some (Some q).
Proof.
intros Hc Hq Hf Hn Hp. pose proof (stop_beyond _ _ _ _ _ _ Hn Hq) as Hpq.
assert (q < UINTPTR_MAX) as Hlt.
{ destruct Hq as (_ & _ & v & Hv & _). pose proof (space_bound m Hsp q ltac:(eauto)).
unfold UINTPTR_MAX, OKM_PAGE_MIN in *. lia. }
assert (stop_at m c nul p q) as Hpq'.
{ destruct Hq as (? & Hns & ?). split; [done|]. split; [intros x ?; apply Hns; lia|done]. }
destruct (scan_ok w mo m Hsp Hb c Hc nul p UINTPTR_MAX (q - s)) with (e := e) (fuel := fuel) as (r & -> & Hs);
try done; try lia.
{ left. exists q. split; [done|]. lia. }
destruct r as [q'|]; simpl in Hs.
- destruct Hs as [Hs _]. by rewrite (stop_at_unique _ _ _ _ _ _ Hs Hpq').
- pose proof (stop_beyond _ _ _ _ _ _ Hs Hpq'). lia.
Qed.

Section string.
Context (s c : Z) (nul : bool) (q : Z).
Context (Hc : 0 <= c < 256) (Hq : stop_at m c nul s q).

#[local] Lemma reach_string : reach m c nul s UINTPTR_MAX (q - s).
Proof.
left. exists q. split; [done|]. destruct Hq as (_ & _ & v & Hv & _).
pose proof (space_bound m Hsp q ltac:(eauto)). unfold UINTPTR_MAX, OKM_PAGE_MIN in *. lia.
Qed.

(** One of the first vectors, read where it is. *)
Lemma first_vector_cases k :
4 * W <= TO_PAGE_END s -> 0 <= k -> k + W <= 4 * W -> nostop m c nul s (s + k) ->
exists x, ld w m (s + k) = Some x /\
((STOP w mo (t w x c nul) = 0 /\ nostop m c nul s (s + (k + W))) \/
(STOP w mo (t w x c nul) <> 0 /\ mo_at mo (STOP w mo (t w x c nul)) = q - s - k)).
Proof.
intros Hpage Hk0 Hk Hn. pose proof reach_string as Hr.
assert (s < UINTPTR_MAX).
{ destruct Hr as [(q' & (? & _) & ? & _)|(? & _)]; lia. }
destruct (first_vector c nul s UINTPTR_MAX (q - s) k Hc Hr Hpage ltac:(done) Hk0 Hk) as (x & L & _).
exists x. split; [done|]. destruct (vector_cases w mo m Hb c Hc nul (s + k) x L) as [[E N0] | (E & q' & Hq' & _ & Hat)].
- left. split; [done|]. replace (s + (k + W)) with (s + k + W) by lia. by eapply nostop_app.
- right. split; [done|]. rewrite Hat. pose proof (stop_at_app _ _ _ _ _ _ Hn ltac:(lia) Hq') as Hs.
rewrite (stop_at_unique _ _ _ _ _ _ Hs Hq). lia.
Qed.
End string.

Lemma strchr_v_ok fuel s c q :
0 <= c < 256 -> stop_at m c true s q -> q - s < Z.of_nat fuel ->
strchr_v w mo fuel m s c = Some (if decide (m !! q = Some c) then Some q else None).
Proof.
intros Hc Hq Hf. pose proof Wpos as HW. unfold strchr_v.
assert ((if 4 * W <=? TO_PAGE_END s then strchr_first w mo 4 fuel m s c 0
       else scan w mo fuel m s c true UINTPTR_MAX) = Some (Some q)) as ->.
- split_if; [|eapply scan_to_stop; try done; intros ? ?; lia].
assert (forall j k, 0 <= k -> k + Z.of_nat j * W = 4 * W -> nostop m c true s (s + k) ->
  strchr_first w mo j fuel m s c k = Some (Some q)) as H; [|apply H; [lia|lia|intros ? ?; lia]].
induction j as [|j IH]; intros k Hk0 Hk Hn; cbn [strchr_first].
+ eapply scan_to_stop; try done; [|lia]. by replace (s + 4 * W) with (s + k) by lia.
+ destruct (first_vector_cases s c true q Hc Hq k ltac:(done) Hk0 ltac:(nia) Hn) as (x & L & Hx).
  rewrite L. cbn [mbind option_bind]. rewrite <-t_true by eauto with mem.
  change (mo_mask mo (eqv (t w x c true) (splat w 0))) with (STOP w mo (t w x c true)).
  destruct Hx as [[-> Hn'] | [E Hat]].
  * apply IH; [lia|lia|done].
  * rewrite (proj2 (Z.eqb_neq _ _) E), Hat. cbn [negb]. do 2 f_equal. lia.
- destruct Hq as (_ & _ & v & Hv & Hs). cbn [mbind option_bind]. rewrite Hv. cbn [mbind option_bind].
split_if; case_decide; congruence.
Qed.

Lemma strlen_v_ok fuel s n :
stop_at m 0 false s (s + n) -> n < Z.of_nat fuel -> strlen_v w mo fuel m s = Some n.
Proof.
intros Hq Hf. pose proof Wpos as HW.
assert (length_from s (Some (s + n)) = Some n) as Hlen.
{ unfold length_from. cbn [fmap option_fmap option_map]. replace (s + n - s) with n by lia.
destruct Hq as (? & Hns & v & Hv & _). pose proof (space_bound m Hsp (s + n) ltac:(eauto)).
assert (0 <= s). { destruct (decide (n = 0)) as [->|]; [lia|].
  destruct (Hns s ltac:(lia)) as (u & Hu & _). pose proof (space_bound m Hsp s ltac:(eauto)). lia. }
rewrite wrap64_small by (unfold OKM_PAGE_MIN in *; lia). done. }
unfold strlen_v. split_if.
- assert (forall j k, 0 <= k -> k + Z.of_nat j * W = 4 * W -> nostop m 0 false s (s + k) ->
  strlen_first w mo j fuel m s k = Some n) as H; [|apply H; [lia|lia|intros ? ?; lia]].
induction j as [|j IH]; intros k Hk0 Hk Hn; cbn [strlen_first].
+ erewrite scan_to_stop by (try done; try lia; by replace (s + 4 * W) with (s + k) by lia). done.
+ destruct (first_vector_cases s 0 false (s + n) ltac:(lia) Hq k ltac:(done) Hk0 ltac:(nia) Hn) as (x & L & Hx).
  rewrite L. cbn [mbind option_bind]. rewrite <-t_false by eauto with mem.
  change (mo_mask mo (eqv (t w x 0 false) (splat w 0))) with (STOP w mo (t w x 0 false)).
  destruct Hx as [[-> Hn'] | [E Hat]].
  * apply IH; [lia|lia|done].
  * rewrite (proj2 (Z.eqb_neq _ _) E), Hat. cbn [negb]. f_equal. lia.
- erewrite scan_to_stop by (try done; try lia; intros ? ?; lia). done.
Qed.
End functions.

(** ** [strlen32] *)

Section strlen32.
Context (m : mem) (Hsp : space_ok m) (Hb : bytes_ok m) (s n : Z) (Hq : stop_at m 0 false s (s + n)).

Lemma zeros32_cases p x :
ld 32 m p = Some x -> s <= p -> nostop m 0 false s p ->
(zeros32 x = 0 /\ nostop m 0 false s (p + 32)) \/ (zeros32 x <> 0 /\ p - s + ctz (zeros32 x) = n).
Proof.
intros L Hp Hn. unfold zeros32. rewrite <-t_false by eauto with mem.
destruct (vector_cases 32 mask32_avx2 m Hb 0 ltac:(lia) false p x L) as [[E N0] | (E & q & Hq' & _ & Hat)].
- left. split; [done|]. by eapply nostop_app.
- right. split; [done|]. pose proof (stop_at_app _ _ _ _ _ _ Hn Hp Hq') as Hs.
pose proof (stop_at_unique _ _ _ _ _ _ Hs Hq). 
assert (ctz (STOP 32 mask32_avx2 (t 32 x 0 false)) = q - p) as Hat' by exact Hat. unfold STOP in Hat'. lia.
Qed.

Lemma zeros32_min a b : length a = 32%nat -> length b = 32%nat -> Forall (Z.le 0) a -> Forall (Z.le 0) b ->
zeros32 (minv a b) = 0 <-> zeros32 a = 0 /\ zeros32 b = 0.
Proof.
intros La Lb Fa Fb. unfold zeros32. assert (length (splat 32 0) = 32%nat) by done.
assert (length (minv a b) = 32%nat) by (unfold minv; rewrite length_zip_with; lia).
rewrite !(mask_zero 32 mask32_avx2) by eauto using eqv_lanes. by apply minv_stop.
Qed.

Lemma minv_bytes a b : length a = 32%nat -> length b = 32%nat -> Forall (Z.le 0) a -> Forall (Z.le 0) b ->
length (minv a b) = 32%nat /\ Forall (Z.le 0) (minv a b).
Proof.
intros La Lb Fa Fb. split; [unfold minv; rewrite length_zip_with; lia|].
apply Forall_lookup. intros i u Hu. apply lookup_zip_with_Some in Hu as (y & z & -> & Hy & Hz).
eapply Forall_lookup in Hy; [|exact Fa]. eapply Forall_lookup in Hz; [|exact Fb]. lia.
Qed.

Lemma ld_nonneg p x : ld 32 m p = Some x -> length x = 32%nat /\ Forall (Z.le 0) x.
Proof.
intros L. split; [by eapply ld_length|]. eapply Forall_impl; [by eapply ld_bytes|]. simpl. lia.
Qed.

(* The vector that answers, found among those loaded in order. *)
Ltac found L :=
let E := fresh "E" in let Hn := fresh "Hn" in let Ha := fresh "Ha" in
match type of L with
| ld 32 _ ?p = Some ?x =>
  destruct (zeros32_cases p x L) as [[E Hn] | [E Ha]];
  [lia|done|rewrite ?E in *; cbn [negb Z.eqb]
  |rewrite ?(proj2 (Z.eqb_neq _ _) E); cbn [negb]; try (f_equal; lia)]
end.

Lemma strlen32_blocks_ok fuel p :
s <= p -> p mod 128 = 0 -> nostop m 0 false s p -> n - (p - s) < Z.of_nat fuel ->
strlen32_blocks fuel m s p = Some n.
Proof.
revert p. induction fuel as [|f IH]; intros p Hp Hal Hn Hf; cbn [strlen32_blocks];
pose proof (stop_beyond _ _ _ _ _ _ Hn Hq) as Hpn; [lia|].
assert (is_Some (m !! p)) as Hm.
{ destruct Hq as (_ & Hns & v & Hv & _). destruct (decide (p = s + n)) as [->|]; [eauto|].
destruct (Hns p) as (u & -> & _); [lia|eauto]. }
pose proof (aligned_mapped m Hsp p 128 ltac:(lia) ltac:(done) Hal Hm) as Hmap.
pose proof (space_bound m Hsp p Hm). unfold OKM_PAGE_MIN in *.
assert (p mod 32 = 0) as Hal32.
{ apply Z.mod_divide in Hal as [k Hk]; [|lia]. apply Z.mod_divide; [lia|]. exists (k * 4). lia. }
rewrite !ld_al_eq by (first [done | apply (multiple_add p 32 1 Hal32) | apply (multiple_add p 32 2 Hal32) | apply (multiple_add p 32 3 Hal32)]).
destruct (ld_some 32 m p) as [x0 L0]; [mem_mapped|]. destruct (ld_some 32 m (p + 32)) as [x1 L1]; [mem_mapped|].
destruct (ld_some 32 m (p + 64)) as [x2 L2]; [mem_mapped|]. destruct (ld_some 32 m (p + 96)) as [x3 L3]; [mem_mapped|].
rewrite L0, L1, L2, L3. cbn [mbind option_bind].
destruct (ld_nonneg _ _ L0), (ld_nonneg _ _ L1), (ld_nonneg _ _ L2), (ld_nonneg _ _ L3).
destruct (minv_bytes x0 x1), (minv_bytes x2 x3); try done.
assert (zeros32 (minv (minv x0 x1) (minv x2 x3)) = 0 <->
(zeros32 x0 = 0 /\ zeros32 x1 = 0) /\ (zeros32 x2 = 0 /\ zeros32 x3 = 0)) as HQ
by (by rewrite !zeros32_min by done).
destruct (zeros32 (minv (minv x0 x1) (minv x2 x3)) =? 0) eqn:E4; boolean.
- apply HQ in E4 as [[E0 E1] [E2 E3]].
destruct (zeros32_cases _ _ L0) as [[_ N0]|[]]; [lia|done| |done].
destruct (zeros32_cases _ _ L1) as [[_ N1]|[]]; [lia|done| |done]. replace (p + 32 + 32) with (p + 64) in N1 by lia.
destruct (zeros32_cases _ _ L2) as [[_ N2]|[]]; [lia|done| |done]. replace (p + 64 + 32) with (p + 96) in N2 by lia.
destruct (zeros32_cases _ _ L3) as [[_ N3]|[]]; [lia|done| |done]. replace (p + 96 + 32) with (p + 128) in N3 by lia.
rewrite wrap64_small by lia. apply IH; [lia|by apply multiple_add_1|done|lia].
- found L0. found L1. replace (p + 32 + 32) with (p + 64) in * by lia.
found L2. replace (p + 64 + 32) with (p + 96) in * by lia.
found L3. tauto.
Qed.

Lemma strlen32_ok fuel : n < Z.of_nat fuel -> strlen32 fuel m s = Some n.
Proof.
intros Hf. unfold strlen32. assert (0 <= n) as Hn0 by (destruct Hq; lia).
assert (is_Some (m !! s)) as Hm.
{ destruct Hq as (_ & Hns & v & Hv & _). destruct (decide (n = 0)) as [->|]; [rewrite Z.add_0_r in Hv; eauto|].
destruct (Hns s) as (u & -> & _); [lia|eauto]. }
pose proof (space_bound m Hsp s Hm) as Hs. unfold OKM_PAGE_MIN in Hs. split_if.
2: { erewrite (scan_to_stop 32 mask32_avx2 m Hsp Hb 5) by (try done; try lia; intros ? ?; lia).
   unfold length_from. cbn [mbind option_bind fmap option_fmap option_map]. replace (s + n - s) with n by lia.
   destruct Hq as (_ & _ & v & Hv & _). pose proof (space_bound m Hsp (s + n) ltac:(eauto)).
   rewrite wrap64_small by (unfold OKM_PAGE_MIN in *; lia). done. }
pose proof (page_end_mapped m Hsp s 128 ltac:(done) Hm) as Hmap.
destruct (ld_some 32 m s) as [x0 L0]; [mem_mapped|]. destruct (ld_some 32 m (s + 32)) as [x1 L1]; [mem_mapped|].
destruct (ld_some 32 m (s + 64)) as [x2 L2]; [mem_mapped|]. destruct (ld_some 32 m (s + 96)) as [x3 L3]; [mem_mapped|].
rewrite L0, L1, L2, L3. cbn [mbind option_bind].
destruct (ld_nonneg _ _ L1), (ld_nonneg _ _ L2), (ld_nonneg _ _ L3). destruct (minv_bytes x2 x3); try done.
assert (zeros32 (minv x1 (minv x2 x3)) = 0 <-> zeros32 x1 = 0 /\ zeros32 x2 = 0 /\ zeros32 x3 = 0) as HQ
by (by rewrite !zeros32_min by done).
assert (nostop m 0 false s s) by (intros ? ?; lia).
found L0. destruct (zeros32 (minv x1 (minv x2 x3)) =? 0) eqn:E4; boolean; cbn [negb].
- apply HQ in E4 as (E1 & E2 & E3).
destruct (zeros32_cases _ _ L1) as [[_ N1]|[]]; [lia|done| |done]. replace (s + 32 + 32) with (s + 64) in N1 by lia.
destruct (zeros32_cases _ _ L2) as [[_ N2]|[]]; [lia|done| |done]. replace (s + 64 + 32) with (s + 96) in N2 by lia.
destruct (zeros32_cases _ _ L3) as [[_ N3]|[]]; [lia|done| |done]. replace (s + 96 + 32) with (s + 128) in N3 by lia.
rewrite wrap64_small by lia. change 127 with (2 ^ 7 - 1). rewrite land_high by lia. change (2 ^ 7) with 128.
pose proof (Z.mod_pos_bound (s + 128) 128 ltac:(lia)). pose proof (Z.div_mod (s + 128) 128 ltac:(lia)).
apply strlen32_blocks_ok; [lia| |intros x ?; apply N3; lia|lia].
replace (s + 128 - (s + 128) mod 128) with ((s + 128) / 128 * 128) by lia. by apply Z.mod_mul.
- found L1. replace (s + 32 + 32) with (s + 64) in * by lia.
found L2. replace (s + 64 + 32) with (s + 96) in * by lia. found L3. tauto.
Qed.
End strlen32.
