(* ===== verification/Strcmp.v ===== *)
(** strcmp of port/src/okm_string.c, over sixteen and over thirty-two bytes:
    vectors while neither string reaches the end of its page, words (the wider
    form) and bytes across it. *)
From S2P Require Import Prelude Mem Lanes Compare Scan.
From stdpp Require Import gmap list fin_maps.
From Stdlib Require Import ZArith Lia.

#[local] Open Scope Z_scope.

(** ** Code *)

Definition ONES : Z := (2 ^ 64 - 1) / 255.
Definition HIGHS : Z := wrap64 (ONES * 128).
Definition HASZERO (x : Z) : Z := Z.land (Z.land (wrap64 (x - ONES)) (Z.lnot x)) HIGHS.

(** [STEP16]: the first lane where the sides differ or [l] ends. *)
Definition STEP16 (mo : maskops) (m : mem) (l r i : Z) : option (option Z) :=
  a ← ld 16 m (l + i); b ← ld 16 m (r + i);
  let m_ := Z.land (mo_full mo) (Z.lor (Z.lnot (mo_mask mo (eqv a b))) (mo_mask mo (eqv a (splat 16 0)))) in
  if m_ =? 0 then Some None else byte_diff m l r (i + mo_at mo m_).

(** [STEP32]: a lane of min(a, a == b) is zero there. *)
Definition STEP32 (m : mem) (l r i : Z) : option (option Z) :=
  a ← ld 32 m (l + i); b ← ld 32 m (r + i);
  let m_ := mo_mask mask32_avx2 (eqv (minv a (eqv a b)) (splat 32 0)) in
  if m_ =? 0 then Some None else byte_diff m l r (i + mo_at mask32_avx2 m_).

(** A loop of the function either returns from it or leaves the two pointers and
    the room that remains before the nearer page's end. *)
Inductive outcome :=
| Ret (x : Z)
| Go (l r room : Z).

Definition ret_or (e : option (option Z)) (k : option outcome) : option outcome :=
  match e with
  | None => None
  | Some (Some x) => Some (Ret x)
  | Some None => k
  end.

Notation "e ~~> k" := (ret_or e k) (at level 100, right associativity).

Section code.
Context (w : nat) (mo : maskops) (STEP : mem -> Z -> Z -> Z -> option (option Z)).
Abbreviation W := (Z.of_nat w).

(** min(a, a == b) of the vectors at [i]. *)
Definition ends_at (m : mem) (l r i : Z) : option (list Z) :=
a ← ld w m (l + i); b ← ld w m (r + i); Some (minv a (eqv a b)).

Fixpoint sc_quads (fuel : nat) (m : mem) (l r room : Z) : option outcome :=
if 4 * W <=? room then
match fuel with
| O => None
| S f =>
    t0 ← ends_at m l r 0; t1 ← ends_at m l r W; t2 ← ends_at m l r (2 * W); t3 ← ends_at m l r (3 * W);
    let next := sc_quads f m (l + 4 * W) (r + 4 * W) (room - 4 * W) in
    if mo_mask mo (eqv (minv (minv t0 t1) (minv t2 t3)) (splat w 0)) =? 0 then next
    else STEP m l r 0 ~~> STEP m l r W ~~> STEP m l r (2 * W) ~~> STEP m l r (3 * W) ~~> next
end
else Some (Go l r room).

Fixpoint sc_singles (fuel : nat) (m : mem) (l r room : Z) : option outcome :=
if W <=? room then
match fuel with
| O => None
| S f => STEP m l r 0 ~~> sc_singles f m (l + W) (r + W) (room - W)
end
else Some (Go l r room).
End code.

Fixpoint sc_words (fuel : nat) (m : mem) (l r room : Z) : option outcome :=
  if 8 <=? room then
    match fuel with
    | O => None
    | S f =>
        a ← ld_word 8 m l; b ← ld_word 8 m r;
        if negb (a =? b) || negb (HASZERO a =? 0) then Some (Go l r room)
        else sc_words f m (l + 8) (r + 8) (room - 8)
    end
  else Some (Go l r room).

Fixpoint sc_bytes (fuel : nat) (m : mem) (l r room : Z) : option outcome :=
  if room =? 0 then Some (Go l r room)
  else
    match fuel with
    | O => None
    | S f =>
        x ← m !! l; y ← m !! r;
        if negb (x =? y) || (x =? 0) then Some (Ret (x - y))
        else sc_bytes f m (l + 1) (r + 1) (room - 1)
    end.

(** Goes on with the next loop unless the last one returned. *)
Definition go (e : option outcome) (k : Z -> Z -> Z -> option outcome) : option outcome :=
  match e with
  | Some (Go l r room) => k l r room
  | _ => e
  end.

Definition room_of (l r : Z) : Z := if TO_PAGE_END l <? TO_PAGE_END r then TO_PAGE_END l else TO_PAGE_END r.

(** The body of the outer loop: one page's worth. *)
Definition page16 (mo : maskops) (m : mem) (l r : Z) : option outcome :=
  let room := room_of l r in
  let fuel := Z.to_nat room in
  go (sc_quads 16 mo (STEP16 mo) fuel m l r room) (fun l r room =>
  go (sc_singles 16 (STEP16 mo) fuel m l r room) (fun l r room =>
  sc_bytes fuel m l r room)).

Definition page32 (m : mem) (l r : Z) : option outcome :=
  let room := room_of l r in
  let fuel := Z.to_nat room in
  go (sc_quads 32 mask32_avx2 STEP32 fuel m l r room) (fun l r room =>
  go (sc_singles 32 STEP32 fuel m l r room) (fun l r room =>
  go (sc_words fuel m l r room) (fun l r room =>
  sc_bytes fuel m l r room))).

Fixpoint pages (page : mem -> Z -> Z -> option outcome) (fuel : nat) (m : mem) (l r : Z) : option Z :=
  match fuel with
  | O => None
  | S f =>
      match page m l r with
      | None => None
      | Some (Ret x) => Some x
      | Some (Go l r _) => pages page f m l r
      end
  end.

Definition strcmp16 (mo : maskops) (fuel : nat) (m : mem) (l r : Z) : option Z :=
  pages (page16 mo) fuel m l r.

Definition strcmp32 (fuel : nat) (m : mem) (l r : Z) : option Z :=
  if negb (Z.land l 31 =? 0) && (32 <=? TO_PAGE_END l) && (32 <=? TO_PAGE_END r) then
    STEP32 m l r 0 ~>
    let k := 32 - Z.land l 31 in pages page32 fuel m (l + k) (r + k)
  else pages page32 fuel m l r.

Definition strcmp16_first (mo : maskops) (fuel : nat) (m : mem) (l r : Z) : option Z :=
  if (64 <=? TO_PAGE_END l) && (64 <=? TO_PAGE_END r) then
    STEP16 mo m l r 0 ~> STEP16 mo m l r 16 ~> STEP16 mo m l r 32 ~> STEP16 mo m l r 48 ~>
    strcmp16 mo fuel m (l + 64) (r + 64)
  else strcmp16 mo fuel m l r.

Definition strcmp32_first (fuel : nat) (m : mem) (l r : Z) : option Z :=
  if (128 <=? TO_PAGE_END l) && (128 <=? TO_PAGE_END r) then
    STEP32 m l r 0 ~> STEP32 m l r 32 ~> STEP32 m l r 64 ~> STEP32 m l r 96 ~>
    strcmp32 fuel m (l + 128) (r + 128)
  else strcmp32 fuel m l r.

(** ** Specification *)

(** Bytes [i, j) of the two strings are equal and neither ends. *)
Definition same (m : mem) (l r i j : Z) : Prop :=
  forall k, i <= k < j -> exists v, m !! (l + k) = Some v /\ m !! (r + k) = Some v /\ v <> 0.

(** At [j] they differ or [l] ends, and [x] is the difference there. *)
Definition ends (m : mem) (l r j x : Z) : Prop :=
  exists a b, m !! (l + j) = Some a /\ m !! (r + j) = Some b /\ (a <> b \/ a = 0) /\ x = a - b.

(** The two strings are decided at [j], with the answer [x]. *)
Definition strcmp_spec (m : mem) (l r j x : Z) : Prop := 0 <= j /\ same m l r 0 j /\ ends m l r j x.

(** ** Moving along the strings *)

Lemma same_app m l r i j k : same m l r i j -> same m l r j k -> same m l r i k.
Proof. intros H1 H2 x ?. destruct (decide (x < j)); [apply H1|apply H2]; lia. Qed.

Lemma same_shift m l r k i j : same m (l + k) (r + k) i j <-> same m l r (k + i) (k + j).
Proof.
  split; intros H x Hx.
  - destruct (H (x - k)) as (v & H1 & H2 & H3); [lia|]. exists v.
    replace (l + x) with (l + k + (x - k)) by lia. replace (r + x) with (r + k + (x - k)) by lia. done.
  - destruct (H (k + x)) as (v & H1 & H2 & H3); [lia|]. exists v.
    rewrite <-!Z.add_assoc. done.
Qed.

Lemma same_nil m l r : same m l r 0 0.
Proof. intros ? ?. lia. Qed.

(** What is the same is before the place that decides. *)
Lemma spec_beyond m l r j x k : strcmp_spec m l r j x -> same m l r 0 k -> k <= j.
Proof.
  intros (H0 & _ & a & b & Ha & Hb & Hab & _) Hk. destruct (decide (j < k)) as [Hj|]; [|lia]. exfalso.
  destruct (Hk j) as (v & H1 & H2 & H3); [lia|]. simplify_eq. destruct Hab; congruence.
Qed.

Lemma spec_shift m l r j x k :
  strcmp_spec m l r j x -> 0 <= k -> same m l r 0 k -> strcmp_spec m (l + k) (r + k) (j - k) x.
Proof.
  intros Hs Hk0 Hk. pose proof (spec_beyond _ _ _ _ _ _ Hs Hk). destruct Hs as (H0 & Hsame & a & b & Ha & Hb & Hab & Hx).
  split; [lia|]. split.
  - apply same_shift. intros y Hy. apply Hsame. lia.
  - exists a, b. replace (l + k + (j - k)) with (l + j) by lia. replace (r + k + (j - k)) with (r + j) by lia. done.
Qed.

Lemma spec_mapped m l r j x : strcmp_spec m l r j x -> is_Some (m !! l) /\ is_Some (m !! r).
Proof.
  intros (H0 & Hsame & a & b & Ha & Hb & _). destruct (decide (j = 0)) as [->|].
  - rewrite Z.add_0_r in *. eauto.
  - destruct (Hsame 0) as (v & H1 & H2 & _); [lia|]. rewrite Z.add_0_r in *. eauto.
Qed.

(** ** One step *)

(** The lanes where the strings are decided. *)
Definition decided (a b : list Z) : list Z :=
  zip_with (fun x y => if (x =? y) && negb (x =? 0) then 0 else 255) a b.

Lemma decided_lanes w a b : length a = w -> length b = w -> lanes w (decided a b).
Proof.
  intros <- E. split; [unfold decided; rewrite length_zip_with; lia|]. apply Forall_lookup. intros i x Hx.
  apply lookup_zip_with_Some in Hx as (y & z & -> & _). split_if; auto.
Qed.

Lemma decided_none w m l r i a b :
  ld w m (l + i) = Some a -> ld w m (r + i) = Some b -> first_lane (decided a b) = None ->
  same m l r i (i + Z.of_nat w).
Proof.
  intros La Lb E k Hk. set (n := Z.to_nat (k - i)).
  destruct (lookup_lt_is_Some_2 a n) as [x Hx]; [rewrite (ld_length _ _ _ _ La); unfold n; lia|].
  destruct (lookup_lt_is_Some_2 b n) as [y Hy]; [rewrite (ld_length _ _ _ _ Lb); unfold n; lia|].
  assert (decided a b !! n = Some (if (x =? y) && negb (x =? 0) then 0 else 255)) as Hd
    by (unfold decided; by rewrite lookup_zip_with, Hx; simpl; rewrite Hy).
  pose proof (proj1 (first_lane_none _) E _ _ Hd) as Hz. revert Hz. split_if; [|done]. intros _. subst y.
  rewrite (ld_lookup _ _ _ _ _ La) in Hx by (unfold n; lia). rewrite (ld_lookup _ _ _ _ _ Lb) in Hy by (unfold n; lia).
  exists x. replace (l + k) with (l + i + Z.of_nat n) by (unfold n; lia).
  replace (r + k) with (r + i + Z.of_nat n) by (unfold n; lia). done.
Qed.

Lemma decided_some w m l r i j x a b d :
  ld w m (l + i) = Some a -> ld w m (r + i) = Some b -> first_lane (decided a b) = Some d ->
  strcmp_spec m l r j x -> same m l r 0 i -> 0 <= i -> byte_diff m l r (i + d) = Some (Some x).
Proof.
  intros La Lb E Hs Hi Hi0. apply first_lane_some in E as (n & -> & (z & Hz & Hne) & Hk).
  apply lookup_zip_with_Some in Hz as (p & q & -> & Hp & Hq).
  pose proof (lookup_lt_Some _ _ _ Hp) as Hn. rewrite (ld_length _ _ _ _ La) in Hn.
  pose proof Hp as Hpm. pose proof Hq as Hqm.
  rewrite (ld_lookup _ _ _ _ _ La), <-Z.add_assoc in Hpm by lia. rewrite (ld_lookup _ _ _ _ _ Lb), <-Z.add_assoc in Hqm by lia.
  assert (same m l r 0 (i + Z.of_nat n)) as Hsame.
  { apply (same_app _ _ _ _ i); [done|]. intros k Hkr. set (n' := Z.to_nat (k - i)).
    destruct (lookup_lt_is_Some_2 a n') as [u Hu]; [rewrite (ld_length _ _ _ _ La); unfold n'; lia|].
    destruct (lookup_lt_is_Some_2 b n') as [v Hv]; [rewrite (ld_length _ _ _ _ Lb); unfold n'; lia|].
    assert (decided a b !! n' = Some (if (u =? v) && negb (u =? 0) then 0 else 255)) as Hd
      by (unfold decided; by rewrite lookup_zip_with, Hu; simpl; rewrite Hv).
    specialize (Hk n' _ ltac:(unfold n'; lia) Hd). revert Hk. split_if; [|done]. intros _. subst v.
    rewrite (ld_lookup _ _ _ _ _ La) in Hu by (unfold n'; lia). rewrite (ld_lookup _ _ _ _ _ Lb) in Hv by (unfold n'; lia).
    exists u. replace (l + k) with (l + i + Z.of_nat n') by (unfold n'; lia).
    replace (r + k) with (r + i + Z.of_nat n') by (unfold n'; lia). done. }
  pose proof (spec_beyond _ _ _ _ _ _ Hs Hsame). destruct Hs as (H0 & Hsj & a' & b' & Ha' & Hb' & Hab & ->).
  assert (j = i + Z.of_nat n) as Hj.
  { destruct (decide (j = i + Z.of_nat n)) as [|]; [done|]. exfalso.
    destruct (Hsj (i + Z.of_nat n)) as (v & H1 & H2 & H3); [lia|]. simplify_eq.
    revert Hne. rewrite Z.eqb_refl, (proj2 (Z.eqb_neq _ _) H3). done. }
  subst j. simplify_eq. by apply byte_diff_some.
Qed.

(** A step from [i]: it answers, or the strings are the same [w] bytes on. *)
Definition steps (w : nat) (STEP : mem -> Z -> Z -> Z -> option (option Z)) : Prop :=
  forall m l r j x i, bytes_ok m -> strcmp_spec m l r j x -> 0 <= i -> same m l r 0 i ->
    mapped m (l + i) (Z.of_nat w) -> mapped m (r + i) (Z.of_nat w) ->
    STEP m l r i = Some (Some x) \/ (STEP m l r i = Some None /\ same m l r 0 (i + Z.of_nat w)).

(** A step whose mask is the decided lanes' does. *)
Lemma steps_of_mask w mo `{!MaskLaws w mo} (F : list Z -> list Z -> Z) STEP :
  (forall m l r i a b, ld w m (l + i) = Some a -> ld w m (r + i) = Some b ->
     STEP m l r i = if F a b =? 0 then Some None else byte_diff m l r (i + mo_at mo (F a b))) ->
  (forall a b, length a = w -> length b = w -> Forall (fun v => 0 <= v < 256) a ->
     F a b = lanes_mask (mo_bits mo) (decided a b)) ->
  steps w STEP.
Proof.
  intros HS HF m l r j x i Hb Hs Hi0 Hi Ml Mr.
  destruct (ld_some _ _ _ Ml) as [a La]. destruct (ld_some _ _ _ Mr) as [b Lb].
  rewrite (HS _ _ _ _ _ _ La Lb), HF by eauto with mem. pose proof (@ml_bits w mo _) as Hbits.
  destruct (first_lane (decided a b)) as [d|] eqn:E.
  - left. assert (lanes_mask (mo_bits mo) (decided a b) <> 0) as Hne by (rewrite lanes_mask_zero by done; congruence).
    rewrite (proj2 (Z.eqb_neq _ _) Hne), (mask_at_lanes w mo _ _ E). by eapply decided_some.
  - right. rewrite (proj2 (lanes_mask_zero _ Hbits _) E). split; [done|].
    eapply same_app; [done|]. by eapply decided_none.
Qed.

Lemma min_decided w a b : length a = w -> length b = w -> Forall (fun v => 0 <= v < 256) a ->
  eqv (minv a (eqv a b)) (splat w 0) = decided a b.
Proof.
  intros <- Hl. revert b Hl. induction a as [|u a IH]; intros [|v b] Hl Ha; try done.
  inversion Ha; subst. unfold decided, eqv, minv, splat in *. simpl. f_equal; [|apply IH; [by inversion Hl|done]].
  destruct (u =? v) eqn:E, (u =? 0) eqn:E0; boolean; cbn [andb negb]; split_if; try done; lia.
Qed.

Lemma STEP32_steps : steps 32 STEP32.
Proof.
  apply (steps_of_mask 32 mask32_avx2 (fun a b => mo_mask mask32_avx2 (eqv (minv a (eqv a b)) (splat 32 0)))).
  - intros m l r i a b La Lb. unfold STEP32. by rewrite La, Lb.
  - intros a b Ha Hb Fa. rewrite min_decided by done. apply ml_mask. by apply decided_lanes.
Qed.

(** *** [STEP16]'s mask *)

Lemma lanes_mask_orv w k a b : 0 < k -> lanes w a -> lanes w b ->
  Z.lor (lanes_mask k a) (lanes_mask k b) = lanes_mask k (orv a b).
Proof.
  intros Hk. revert a b. induction w as [|w IH]; intros a b Ha Hb.
  - by rewrite (lanes_nil_inv _ Ha), (lanes_nil_inv _ Hb).
  - destruct (lanes_cons_inv _ _ Ha) as (x & a' & -> & Hx & Ha').
    destruct (lanes_cons_inv _ _ Hb) as (y & b' & -> & Hy & Hb').
    assert (1 < 2 ^ k) by (apply Z.pow_gt_1; lia).
    cbn [orv zip_with lanes_mask]. rewrite lor_cons by (try lia; split_if; lia). rewrite (IH _ _ Ha' Hb'). f_equal.
    destruct Hx as [-> | ->], Hy as [-> | ->]; simpl; rewrite ?Z.lor_0_r, ?Z.lor_diag; done.
Qed.

Lemma or_decided w a b : length a = w -> length b = w ->
  orv (notv (eqv a b)) (eqv a (splat w 0)) = decided a b.
Proof.
  intros <- Hl. revert b Hl. induction a as [|u a IH]; intros [|v b] Hl; try done.
  unfold decided, eqv, orv, notv, splat in *. simpl. f_equal; [|apply IH; by inversion Hl].
  destruct (u =? v), (u =? 0); done.
Qed.

Lemma notv_lanes w v : lanes w v -> lanes w (notv v).
Proof.
  intros [H1 H2]. split; [unfold notv; by rewrite length_fmap|]. apply Forall_fmap.
  apply Forall_true. intros x. simpl. split_if; auto.
Qed.

Lemma STEP16_steps mo `{!MaskLaws 16 mo} : steps 16 (STEP16 mo).
Proof.
  apply (steps_of_mask 16 mo (fun a b => Z.land (mo_full mo)
    (Z.lor (Z.lnot (mo_mask mo (eqv a b))) (mo_mask mo (eqv a (splat 16 0)))))).
  - intros m l r i a b La Lb. unfold STEP16. by rewrite La, Lb.
  - intros a b Ha Hb Fa. pose proof (@ml_bits 16 mo _) as Hbits. rewrite Z.land_lor_distr_r.
    pose proof (eqv_lanes 16 a b Ha Hb) as L1. pose proof (eqv_lanes 16 a (splat 16 0) Ha eq_refl) as L2.
    rewrite (mask_compl 16 mo) by done.
    assert (Z.land (mo_full mo) (mo_mask mo (eqv a (splat 16 0))) = mo_mask mo (eqv a (splat 16 0))) as ->.
    { rewrite (@ml_full 16 mo _), ml_mask by done. rewrite Z.land_comm, land_low by lia. apply Z.mod_small.
      pose proof (lanes_mask_nonneg _ Hbits (eqv a (splat 16 0))).
      pose proof (lanes_mask_bound _ Hbits (eqv a (splat 16 0))) as Hlt. rewrite (proj1 L2) in Hlt. lia. }
    rewrite (ml_mask _ L2), (lanes_mask_orv 16) by (done || by apply notv_lanes). by rewrite or_decided.
Qed.

(** ** HASZERO *)

Fixpoint repeat_byte (n : nat) (c : Z) : Z :=
  match n with
  | O => 0
  | S k => c + 256 * repeat_byte k c
  end.

(** The test on [n] bytes, without the width of a word. *)
Definition haszero (n : nat) (x : Z) : Z := Z.land (Z.land (x - repeat_byte n 1) (Z.lnot x)) (repeat_byte n 128).

Lemma HASZERO_haszero x : HASZERO x = haszero 8 x.
Proof.
  unfold HASZERO, haszero, wrap64. change HIGHS with (repeat_byte 8 128). change ONES with (repeat_byte 8 1).
  rewrite <-Z.land_ones by lia. rewrite <-!Z.land_assoc. f_equal.
  rewrite !Z.land_assoc, (Z.land_comm (Z.ones 64)), <-Z.land_assoc. f_equal.
Qed.

Lemma land_byte_cons x y A B : 0 <= x < 256 -> 0 <= y < 256 ->
  Z.land (x + 256 * A) (y + 256 * B) = Z.land x y + 256 * Z.land A B.
Proof. apply (land_cons 8). lia. Qed.

Lemma lnot_cons b X : 0 <= b < 256 -> Z.lnot (b + 256 * X) = (255 - b) + 256 * Z.lnot X.
Proof. unfold Z.lnot. lia. Qed.

(** No borrow reaches a byte before the first that is zero. *)
Lemma haszero_cons n b X : 0 < b < 256 -> haszero (S n) (b + 256 * X) = 256 * haszero n X.
Proof.
  intros Hb. unfold haszero. cbn [repeat_byte].
  replace (b + 256 * X - (1 + 256 * repeat_byte n 1)) with ((b - 1) + 256 * (X - repeat_byte n 1)) by lia.
  rewrite lnot_cons by lia. rewrite land_byte_cons by lia.
  pose proof (land_digit 8 (b - 1) (255 - b) ltac:(lia) ltac:(lia) ltac:(lia)) as Hr. change (2 ^ 8) with 256 in Hr.
  rewrite land_byte_cons by lia.
  assert (Z.land (Z.land (b - 1) (255 - b)) 128 = 0) as ->; [|lia].
  rewrite <-Z.land_assoc. change 128 with (2 ^ 7). apply Z.bits_inj'. intros i Hi. rewrite Z.bits_0, !Z.land_spec.
  rewrite Z.pow2_bits_eqb by lia. destruct (decide (7 = i)) as [<-|Hne]; [|by rewrite (proj2 (Z.eqb_neq _ _) Hne), !andb_false_r].
  rewrite Z.eqb_refl, andb_true_r. destruct (decide (b <= 128)) as [Hle|Hgt].
  - apply andb_false_iff. left. apply Z.testbit_false; [lia|]. rewrite Z.div_small by lia. done.
  - apply andb_false_iff. right. apply Z.testbit_false; [lia|]. rewrite Z.div_small by lia. done.
Qed.

Lemma haszero_zero n X : haszero (S n) (256 * X) <> 0 /\ ctz (haszero (S n) (256 * X)) = 7.
Proof.
  unfold haszero. cbn [repeat_byte].
  replace (256 * X - (1 + 256 * repeat_byte n 1)) with (255 + 256 * (X - repeat_byte n 1 - 1)) by lia.
  replace (Z.lnot (256 * X)) with (255 + 256 * Z.lnot X) by (unfold Z.lnot; lia).
  rewrite land_byte_cons by lia. change (Z.land 255 255) with 255. rewrite land_byte_cons by lia. change (Z.land 255 128) with 128.
  set (A := Z.land _ _). split; [lia|]. change 256 with (2 ^ 8). by rewrite ctz_low by lia.
Qed.

(** The lowest bit of the test is at the first byte that is zero. *)
Lemma haszero_first v :
  Forall (fun b => 0 <= b < 256) v ->
  match first_lane (eqv v (splat (length v) 0)) with
  | None => haszero (length v) (le_combine v) = 0
  | Some i => haszero (length v) (le_combine v) <> 0 /\ Z.shiftr (ctz (haszero (length v) (le_combine v))) 3 = i
  end.
Proof.
  induction 1 as [|b v Hb _ IH]; [done|]. cbn [length splat replicate eqv zip_with first_lane le_combine].
  change (replicate (length v) 0) with (splat (length v) 0).
  change (zip_with _ v (splat (length v) 0)) with (eqv v (splat (length v) 0)).
  destruct (b =? 0) eqn:E; boolean; cbn [Z.eqb].
  - subst b. rewrite Z.add_0_l. pose proof (haszero_zero (length v) (le_combine v)) as [H1 H2].
    split; [done|]. by rewrite H2.
  - rewrite haszero_cons by lia. destruct (first_lane _) as [i|]; cbn [fmap option_fmap option_map]; [|lia].
    destruct IH as [Hne IH]. split; [lia|]. change 256 with (2 ^ 8). rewrite ctz_shift by (done || lia).
    rewrite Z.shiftr_div_pow2 in * by lia. change (2 ^ 3) with 8 in *.
    rewrite Z.add_comm, <-(Z.mul_1_l 8) at 1. rewrite Z.div_add by lia. lia.
Qed.

(** ** The loops *)

(** A loop returns the answer, or stops [k] bytes on with the strings still the
    same, [rest k] saying how far it got. *)
Definition advances (m : mem) (x l r room : Z) (rest : Z -> Prop) (e : option outcome) : Prop :=
  e = Some (Ret x) \/
  exists k, 0 <= k <= room /\ e = Some (Go (l + k) (r + k) (room - k)) /\ same m l r 0 k /\ rest (room - k).

Section loops.
Context (m : mem) (Hb : bytes_ok m) (x : Z).

Lemma advances_stop l r room (rest : Z -> Prop) :
0 <= room -> rest room -> advances m x l r room rest (Some (Go l r room)).
Proof.
intros Hr Hrest. right. exists 0. rewrite !Z.add_0_r, Z.sub_0_r. split; [lia|]. auto using same_nil.
Qed.

(** From [d] bytes on. *)
Lemma advances_later l r room rest e d :
0 <= d <= room -> same m l r 0 d -> advances m x (l + d) (r + d) (room - d) rest e -> advances m x l r room rest e.
Proof.
intros Hd Hs [H | (k & Hk & -> & Hs' & Hrest)]; [by left|]. right. exists (d + k). split; [lia|].
replace (room - d - k) with (room - (d + k)) in * by lia. split; [do 2 f_equal; lia|]. split; [|done].
apply (same_app _ _ _ _ d); [done|]. apply same_shift in Hs'. by rewrite Z.add_0_r in Hs'.
Qed.

Lemma advances_go l r room rest rest' e (k : Z -> Z -> Z -> option outcome) :
advances m x l r room rest e ->
(forall d, 0 <= d <= room -> same m l r 0 d -> rest (room - d) ->
 advances m x (l + d) (r + d) (room - d) rest' (k (l + d) (r + d) (room - d))) ->
advances m x l r room rest' (go e k).
Proof.
intros [-> | (d & Hd & -> & Hs & Hrest)] Hk; [by left|]. simpl. eapply advances_later; [done|done|]. by apply Hk.
Qed.

Section vector.
Context (w : nat) (mo : maskops) `{!MaskLaws w mo} (STEP : mem -> Z -> Z -> Z -> option (option Z)).
Context (HS : steps w STEP).
Abbreviation W := (Z.of_nat w).
Context (HW : 0 < W).

(** One step of a chain. *)
Lemma step_chain l r j room rest i (k : option outcome) :
strcmp_spec m l r j x -> same m l r 0 i -> 0 <= i -> i + W <= room -> mapped m l room -> mapped m r room ->
(same m l r 0 (i + W) -> advances m x l r room rest k) ->
advances m x l r room rest (STEP m l r i ~~> k).
Proof.
intros Hs Hi Hi0 Hr Ml Mr Hk.
destruct (HS m l r j x i Hb Hs Hi0 Hi) as [-> | [-> Hn]]; [mem_mapped|mem_mapped|by left|]. by apply Hk.
Qed.

Lemma sc_singles_ok fuel l r j room :
strcmp_spec m l r j x -> mapped m l room -> mapped m r room -> 0 <= room <= Z.of_nat fuel ->
advances m x l r room (fun d => d < W) (sc_singles w STEP fuel m l r room).
Proof.
revert l r j room. induction fuel as [|f IH]; intros l r j room Hs Ml Mr Hf; cbn [sc_singles];
(split_if; [|apply advances_stop; lia]); [lia|].
apply (step_chain l r j room _ 0); [done|apply same_nil|lia|lia|done|done|]. rewrite Z.add_0_l. intros Hn.
eapply (advances_later _ _ _ _ _ W); [lia|done|].
apply (IH _ _ (j - W)); [apply spec_shift; [done|lia|done]|mem_mapped|mem_mapped|lia].
Qed.

Lemma ends_at_ok l r i room : mapped m l room -> mapped m r room -> 0 <= i -> i + W <= room ->
exists a b, ld w m (l + i) = Some a /\ ld w m (r + i) = Some b /\ ends_at w m l r i = Some (minv a (eqv a b)).
Proof.
intros Ml Mr H0 H1. destruct (ld_some w m (l + i)) as [a La]; [mem_mapped|].
destruct (ld_some w m (r + i)) as [b Lb]; [mem_mapped|]. exists a, b. unfold ends_at. by rewrite La, Lb.
Qed.

(** The group's test is zero only when each of its vectors is undecided. *)
Lemma group_none a0 b0 a1 b1 a2 b2 a3 b3 :
let e a b := minv a (eqv a b) in let ok a := length a = w /\ Forall (fun v => 0 <= v < 256) a in
ok a0 -> ok a1 -> ok a2 -> ok a3 -> length b0 = w -> length b1 = w -> length b2 = w -> length b3 = w ->
mo_mask mo (eqv (minv (minv (e a0 b0) (e a1 b1)) (minv (e a2 b2) (e a3 b3))) (splat w 0)) = 0 ->
first_lane (decided a0 b0) = None /\ first_lane (decided a1 b1) = None /\
first_lane (decided a2 b2) = None /\ first_lane (decided a3 b3) = None.
Proof.
intros e ok [A0 B0] [A1 B1] [A2 B2] [A3 B3] C0 C1 C2 C3.
assert (forall u v, length u = w -> length v = w -> length (minv u v) = w) as Hl
by (intros; unfold minv; rewrite length_zip_with; lia).
assert (forall u v, Forall (Z.le 0) u -> Forall (Z.le 0) v -> Forall (Z.le 0) (minv u v)) as Hf.
{ intros u v Fu Fv. apply Forall_lookup. intros i y Hy. apply lookup_zip_with_Some in Hy as (p & q & -> & Hp & Hq).
eapply Forall_lookup in Hp; [|exact Fu]. eapply Forall_lookup in Hq; [|exact Fv]. lia. }
assert (forall a b, length a = w -> length b = w -> Forall (fun v => 0 <= v < 256) a ->
length (e a b) = w /\ Forall (Z.le 0) (e a b)) as He.
{ intros a b Ha Hb' Fa. split; [apply Hl; [done|]; rewrite length_eqv; lia|]. apply Hf.
- eapply Forall_impl; [done|]. simpl. lia.
- destruct (eqv_lanes w a b Ha Hb') as [_ F]. eapply Forall_impl; [done|]. simpl. lia. }
destruct (He a0 b0), (He a1 b1), (He a2 b2), (He a3 b3); try done.
rewrite (mask_zero w mo) by (apply eqv_lanes; [auto|apply length_replicate]).
rewrite !minv_stop by auto. unfold e. rewrite !min_decided by done. tauto.
Qed.

Lemma sc_quads_ok fuel l r j room :
strcmp_spec m l r j x -> mapped m l room -> mapped m r room -> 0 <= room <= Z.of_nat fuel ->
advances m x l r room (fun d => d < 4 * W) (sc_quads w mo STEP fuel m l r room).
Proof.
revert l r j room. induction fuel as [|f IH]; intros l r j room Hs Ml Mr Hf; cbn [sc_quads];
(split_if; [|apply advances_stop; lia]); [lia|].
destruct (ends_at_ok l r 0 room) as (a0 & b0 & A0 & B0 & ->); [done|done|lia|lia|].
destruct (ends_at_ok l r W room) as (a1 & b1 & A1 & B1 & ->); [done|done|lia|lia|].
destruct (ends_at_ok l r (2 * W) room) as (a2 & b2 & A2 & B2 & ->); [done|done|lia|lia|].
destruct (ends_at_ok l r (3 * W) room) as (a3 & b3 & A3 & B3 & ->); [done|done|lia|lia|]. cbn [mbind option_bind].
assert (same m l r 0 (4 * W) -> advances m x l r room (fun d => d < 4 * W)
(sc_quads w mo STEP f m (l + 4 * W) (r + 4 * W) (room - 4 * W))) as Hnext.
{ intros Hn. eapply (advances_later _ _ _ _ _ (4 * W)); [lia|done|].
apply (IH _ _ (j - 4 * W)); [apply spec_shift; [done|lia|done]|mem_mapped|mem_mapped|lia]. }
destruct (_ =? 0) eqn:E; boolean.
- apply group_none in E as (E0 & E1 & E2 & E3); [|by eauto 6 with mem..].
apply Hnext. intros k Hk.
destruct (decide (k < W)); [eapply (decided_none _ _ _ _ 0); eauto; lia|].
destruct (decide (k < 2 * W)); [eapply (decided_none _ _ _ _ W); eauto; lia|].
destruct (decide (k < 3 * W)); [eapply (decided_none _ _ _ _ (2 * W)); eauto; lia|].
eapply (decided_none _ _ _ _ (3 * W)); eauto; lia.
- apply (step_chain l r j); [done|apply same_nil|lia|lia|done|done|]. rewrite Z.add_0_l. intros S1.
apply (step_chain l r j); [done|done|lia|lia|done|done|]. replace (W + W) with (2 * W) by lia. intros S2.
apply (step_chain l r j); [done|done|lia|lia|done|done|]. replace (2 * W + W) with (3 * W) by lia. intros S3.
apply (step_chain l r j); [done|done|lia|lia|done|done|]. replace (3 * W + W) with (4 * W) by lia. done.
Qed.
End vector.

Lemma word_same l r a : ld 8 m l = Some a -> ld 8 m r = Some a -> HASZERO (le_combine a) = 0 -> same m l r 0 8.
Proof.
intros La Lr HZ k Hk. rewrite HASZERO_haszero in HZ. pose proof (haszero_first a ltac:(eauto with mem)) as HF.
rewrite (ld_length _ _ _ _ La) in HF. destruct (first_lane (eqv a (splat 8 0))) eqn:E; [tauto|].
destruct (lookup_lt_is_Some_2 a (Z.to_nat k)) as [v Hv]; [rewrite (ld_length _ _ _ _ La); lia|].
exists v. pose proof Hv as Hv'. rewrite (ld_lookup _ _ _ _ _ La) in Hv by lia. rewrite (ld_lookup _ _ _ _ _ Lr) in Hv' by lia.
rewrite Z2Nat.id in Hv, Hv' by lia. split; [done|]. split; [done|]. intros ->.
rewrite first_lane_none in E. assert (a !! Z.to_nat k = Some 0) as H0.
{ rewrite (ld_lookup _ _ _ _ _ La) by lia. by rewrite Z2Nat.id by lia. }
specialize (E (Z.to_nat k) 255). unfold eqv in E. rewrite lookup_zip_with, H0 in E. simpl in E.
unfold splat in E. rewrite lookup_replicate_2 in E by lia. simpl in E. specialize (E eq_refl). lia.
Qed.

Lemma sc_words_ok fuel l r j room :
strcmp_spec m l r j x -> mapped m l room -> mapped m r room -> 0 <= room <= Z.of_nat fuel ->
advances m x l r room (fun _ => True) (sc_words fuel m l r room).
Proof.
revert l r j room. induction fuel as [|f IH]; intros l r j room Hs Ml Mr Hf; cbn [sc_words];
(split_if; [|apply advances_stop; lia || done]); [lia|]. unfold ld_word.
destruct (ld_some 8 m l) as [a La]; [mem_mapped|]. destruct (ld_some 8 m r) as [b Lb]; [mem_mapped|].
rewrite La, Lb. cbn [mbind option_bind fmap option_fmap option_map]. split_if; [apply advances_stop; lia || done|].
assert (a = b) as <-.
{ rewrite <-(le_split_combine a), <-(le_split_combine b) by eauto with mem.
rewrite (ld_length _ _ _ _ La), (ld_length _ _ _ _ Lb). congruence. }
pose proof (word_same l r a La Lb ltac:(done)) as H8.
eapply (advances_later _ _ _ _ _ 8); [lia|done|].
apply (IH _ _ (j - 8)); [apply spec_shift; [done|lia|done]|mem_mapped|mem_mapped|lia].
Qed.

Lemma sc_bytes_ok fuel l r j room :
strcmp_spec m l r j x -> mapped m l room -> mapped m r room -> 0 <= room <= Z.of_nat fuel ->
advances m x l r room (fun d => d = 0) (sc_bytes fuel m l r room).
Proof.
revert l r j room. induction fuel as [|f IH]; intros l r j room Hs Ml Mr Hf; cbn [sc_bytes];
(split_if; [apply advances_stop; lia|]); [lia|].
destruct (Ml l) as [u Hu]; [lia|]. destruct (Mr r) as [v Hv]; [lia|]. rewrite Hu, Hv. cbn [mbind option_bind].
destruct (decide (j = 0)) as [->|].
- left. destruct Hs as (_ & _ & a & b & Ha & Hb' & Hab & ->). rewrite Z.add_0_r in *. simplify_eq.
split_if; [done|]. lia.
- pose proof Hs as (H0 & Hsame & _). destruct (Hsame 0) as (z & H1 & H2 & H3); [lia|]. rewrite Z.add_0_r in *. simplify_eq.
rewrite Z.eqb_refl, (proj2 (Z.eqb_neq _ _) H3). cbn [negb orb].
assert (same m l r 0 1) as H01 by (intros k Hk; apply Hsame; lia).
eapply (advances_later _ _ _ _ _ 1); [lia|done|].
apply (IH _ _ (j - 1)); [apply spec_shift; [done|lia|done]|mem_mapped|mem_mapped|lia].
Qed.
End loops.

(** ** strcmp *)

Lemma TO_PAGE_END_bounds p : 1 <= TO_PAGE_END p <= OKM_PAGE_MIN.
Proof.
  unfold TO_PAGE_END, OKM_PAGE_MIN. change (4096 - 1) with (2 ^ 12 - 1). rewrite land_low by lia.
  change (2 ^ 12) with 4096. pose proof (Z.mod_pos_bound p 4096). lia.
Qed.

Section strcmp.
Context (m : mem) (Hsp : space_ok m) (Hb : bytes_ok m) (x : Z).

Lemma room_mapped l r j : strcmp_spec m l r j x ->
1 <= room_of l r /\ mapped m l (room_of l r) /\ mapped m r (room_of l r).
Proof.
intros Hs. destruct (spec_mapped _ _ _ _ _ Hs) as [Ml Mr]. unfold room_of.
pose proof (TO_PAGE_END_bounds l). pose proof (TO_PAGE_END_bounds r).
split_if; (split; [lia|]); (split; (apply (page_end_mapped m Hsp); [lia|done])).
Qed.

(** A page's worth either answers or moves on by all of it. *)
Definition page_ok (page : mem -> Z -> Z -> option outcome) : Prop :=
forall l r j, strcmp_spec m l r j x -> advances m x l r (room_of l r) (fun d => d = 0) (page m l r).

Lemma page16_ok mo `{!MaskLaws 16 mo} : page_ok (page16 mo).
Proof.
intros l r j Hs. destruct (room_mapped l r j Hs) as (H1 & Ml & Mr). unfold page16.
eapply advances_go; [eapply (sc_quads_ok m Hb x 16 mo (STEP16 mo) (STEP16_steps mo)); eauto; lia|]. intros d Hd Hsd _.
pose proof (spec_shift _ _ _ _ _ d Hs ltac:(lia) Hsd) as Hs1.
assert (mapped m (l + d) (room_of l r - d)) by mem_mapped. assert (mapped m (r + d) (room_of l r - d)) by mem_mapped.
eapply advances_go; [eapply (sc_singles_ok m Hb x 16 (STEP16 mo) (STEP16_steps mo)); eauto; lia|]. intros e He Hse _.
pose proof (spec_shift _ _ _ _ _ e Hs1 ltac:(lia) Hse) as Hs2.
eapply sc_bytes_ok; try eassumption; try mem_mapped; lia.
Qed.

Lemma page32_ok : page_ok page32.
Proof.
intros l r j Hs. destruct (room_mapped l r j Hs) as (H1 & Ml & Mr). unfold page32.
eapply advances_go; [eapply (sc_quads_ok m Hb x 32 mask32_avx2 STEP32 STEP32_steps); eauto; lia|]. intros d Hd Hsd _.
pose proof (spec_shift _ _ _ _ _ d Hs ltac:(lia) Hsd) as Hs1.
assert (mapped m (l + d) (room_of l r - d)) by mem_mapped. assert (mapped m (r + d) (room_of l r - d)) by mem_mapped.
eapply advances_go; [eapply (sc_singles_ok m Hb x 32 STEP32 STEP32_steps); eauto; lia|]. intros e He Hse _.
pose proof (spec_shift _ _ _ _ _ e Hs1 ltac:(lia) Hse) as Hs2.
assert (mapped m (l + d + e) (room_of l r - d - e)) by mem_mapped. assert (mapped m (r + d + e) (room_of l r - d - e)) by mem_mapped.
eapply advances_go; [eapply sc_words_ok; eauto; lia|]. intros f Hf Hsf _.
pose proof (spec_shift _ _ _ _ _ f Hs2 ltac:(lia) Hsf) as Hs3.
eapply sc_bytes_ok; try eassumption; try mem_mapped; lia.
Qed.

Lemma pages_ok page fuel l r j :
page_ok page -> strcmp_spec m l r j x -> j < Z.of_nat fuel -> pages page fuel m l r = Some x.
Proof.
intros Hp. revert l r j. induction fuel as [|f IH]; intros l r j Hs Hf; [destruct Hs; lia|]. cbn [pages].
destruct (Hp l r j Hs) as [-> | (k & Hk & -> & Hsame & H0)]; [done|].
destruct (room_mapped l r j Hs) as (H1 & _). apply (IH _ _ (j - k)); [apply spec_shift; [done|lia|done]|lia].
Qed.

(** The first vectors, where both pages hold them. *)
Lemma step_chain_first w STEP l r j K i (k : option Z) :
steps w STEP -> strcmp_spec m l r j x -> K <= TO_PAGE_END l -> K <= TO_PAGE_END r -> 0 <= i -> i + Z.of_nat w <= K ->
same m l r 0 i -> (same m l r 0 (i + Z.of_nat w) -> k = Some x) -> (STEP m l r i ~> k) = Some x.
Proof.
intros HS Hs Kl Kr Hi HiK Hsi Hk. destruct (spec_mapped _ _ _ _ _ Hs) as [Ml Mr].
pose proof (page_end_mapped m Hsp l K Kl Ml) as Hml. pose proof (page_end_mapped m Hsp r K Kr Mr) as Hmr.
destruct (HS m l r j x i Hb Hs Hi Hsi) as [-> | [-> Hn]]; [mem_mapped|mem_mapped|done|]. simpl. by apply Hk.
Qed.

Lemma strcmp32_ok fuel l r j :
strcmp_spec m l r j x -> j < Z.of_nat fuel -> strcmp32 fuel m l r = Some x.
Proof.
intros Hs Hf. unfold strcmp32. split_if; [|by eapply pages_ok; [apply page32_ok|..]].
change 31 with (2 ^ 5 - 1) in *. rewrite land_low in * by lia.
pose proof (Z.mod_pos_bound l (2 ^ 5) ltac:(lia)). change (2 ^ 5) with 32 in *.
eapply (step_chain_first 32 STEP32 l r j 32 0); [apply STEP32_steps|done|lia|lia|lia|lia|apply same_nil|].
rewrite Z.add_0_l. intros Hn. assert (same m l r 0 (32 - l mod 32)) by (intros k Hk; apply Hn; lia).
eapply (pages_ok _ _ _ _ (j - (32 - l mod 32))); [apply page32_ok|apply spec_shift; [done|lia|done]|lia].
Qed.

Lemma strcmp16_first_ok mo `{!MaskLaws 16 mo} fuel l r j :
strcmp_spec m l r j x -> j < Z.of_nat fuel -> strcmp16_first mo fuel m l r = Some x.
Proof.
intros Hs Hf. unfold strcmp16_first, strcmp16. split_if; [|by eapply pages_ok; [by apply page16_ok|..]].
pose proof (STEP16_steps mo) as HS.
apply (step_chain_first 16 (STEP16 mo) l r j 64 0); try done; try lia; [apply same_nil|]. intros S1.
apply (step_chain_first 16 (STEP16 mo) l r j 64 16); try done; try lia. intros S2.
apply (step_chain_first 16 (STEP16 mo) l r j 64 32); try done; try lia. intros S3.
apply (step_chain_first 16 (STEP16 mo) l r j 64 48); try done; try lia. intros S4.
eapply (pages_ok _ _ _ _ (j - 64)); [by apply page16_ok|apply spec_shift; [done|lia|done]|lia].
Qed.

Lemma strcmp32_first_ok fuel l r j :
strcmp_spec m l r j x -> j < Z.of_nat fuel -> strcmp32_first fuel m l r = Some x.
Proof.
intros Hs Hf. unfold strcmp32_first. split_if; [|by eapply strcmp32_ok]. pose proof STEP32_steps as HS.
apply (step_chain_first 32 STEP32 l r j 128 0); try done; try lia; [apply same_nil|]. intros S1.
apply (step_chain_first 32 STEP32 l r j 128 32); try done; try lia. intros S2.
apply (step_chain_first 32 STEP32 l r j 128 64); try done; try lia. intros S3.
apply (step_chain_first 32 STEP32 l r j 128 96); try done; try lia. intros S4.
apply (strcmp32_ok _ _ _ (j - 128)); [apply spec_shift; [done|lia|done]|lia].
Qed.
End strcmp.
