(* ===== verification/Strings.v ===== *)
(** The eight functions of port/src/okm_string.c, over sixteen bytes, over
    thirty-two and a word at a time. *)
From S2P Require Import Prelude Mem Lanes Blocks Compare Scan Strcmp.
From stdpp Require Import gmap list fin_maps.
From Stdlib Require Import ZArith Lia.

#[local] Open Scope Z_scope.

(** ** Over sixteen bytes *)

(** n < 16. *)
Definition set_small (m : mem) (d b n : Z) : option mem :=
  let w := wrap64 (b * 0x0101010101010101) in
  if 8 <=? n then m ← st_word 8 m d w; st_word 8 m (d + n - 8) w
  else if 4 <=? n then m ← st_word 4 m d (wrap32 w); st_word 4 m (d + n - 4) (wrap32 w)
  else if negb (n =? 0) then m ← st m d [b]; m ← st m (d + n / 2) [b]; st m (d + n - 1) [b]
  else Some m.

(** Every load before any store, 16 < n <= 64. *)
Fixpoint ld_row (j : nat) (m : mem) (s : Z) : option (list (list Z)) :=
  match j with
  | O => Some []
  | S j' => v ← ld 16 m s; vs ← ld_row j' m (s + 16); Some (v :: vs)
  end.

Fixpoint st_row (m : mem) (d : Z) (vs : list (list Z)) : option mem :=
  match vs with
  | [] => Some m
  | v :: vs' => m ← st m d v; st_row m (d + 16) vs'
  end.

Definition move_short (m : mem) (d s n : Z) : option mem :=
  let k := (n + 15) / 16 in
  vs ← ld_row (Z.to_nat (k - 1)) m s;
  last ← ld 16 m (s + n - 16);
  m ← st_row m d vs;
  st m (d + n - 16) last.

Definition copy16 (m : mem) (d s n : Z) : option mem :=
  if n <=? 64 then copy_quad 16 m d s n else copy_big 16 m d s n.

Definition copyback16 (m : mem) (d s n : Z) : option mem := copyback_big 16 m d s n.

Definition set16 (m : mem) (d c n : Z) : option mem :=
  if n <=? 64 then set_quad 16 m d c n else set_big 16 m d c n.

Definition memcpy16 (m : mem) (d s n : Z) : option mem :=
  if n <=? 16 then copy_small m d s n
  else if n <=? 32 then copy_pair 16 m d s n
  else copy16 m d s n.

Definition memmove16 (m : mem) (d s n : Z) : option mem :=
  if n <=? wrap64 (d - s) then memcpy16 m d s n
  else if n <=? 16 then copy_small m d s n
  else if n <=? 64 then move_short m d s n
  else copyback16 m d s n.

Definition memset16 (m : mem) (d b n : Z) : option mem :=
  if n <? 16 then set_small m d b n
  else if n <=? 32 then set_pair 16 m d b n
  else set16 m d b n.

Definition memcmp16 (mo : maskops) (m : mem) (l r n : Z) : option Z :=
  if n <? 16 then cmp_small m l r n else cmp16 mo m l r n.

Definition memchr16 (mo : maskops) := memchr_v 16 mo.
Definition strchr16 (mo : maskops) := strchr_v 16 mo.
Definition strlen16 (mo : maskops) := strlen_v 16 mo.

(** ** Over thirty-two bytes *)

Definition copy32 (m : mem) (d s n : Z) : option mem :=
  if n <=? 64 then copy_pair 32 m d s n
  else if n <=? 128 then copy_quad 32 m d s n
  else copy_big 32 m d s n.

Definition copyback32 (m : mem) (d s n : Z) : option mem :=
  if n <=? 128 then copy_quad 32 m d s n else copyback_big 32 m d s n.

Definition set32 (m : mem) (d c n : Z) : option mem :=
  if n <=? 64 then set_pair 32 m d c n
  else if n <=? 128 then set_quad 32 m d c n
  else set_big 32 m d c n.

Definition memcpy32 (m : mem) (d s n : Z) : option mem :=
  if n <=? 16 then copy_small m d s n
  else if n <=? 32 then copy_pair 16 m d s n
  else copy32 m d s n.

Definition memmove32 (m : mem) (d s n : Z) : option mem :=
  if n <=? wrap64 (d - s) then memcpy32 m d s n
  else if n <=? 16 then copy_small m d s n
  else if n <=? 64 then move_short m d s n
  else copyback32 m d s n.

Definition memset32 (m : mem) (d b n : Z) : option mem :=
  if n <? 16 then set_small m d b n
  else if n <=? 32 then set_pair 16 m d b n
  else set32 m d b n.

Definition memcmp32 (m : mem) (l r n : Z) : option Z :=
  if n <? 16 then cmp_small m l r n
  else if n <=? 32 then
    DIFF 16 mask16_x86_64 m l r 0 ~> DIFF 16 mask16_x86_64 m l r (n - 16) ~> Some 0
  else cmp32 m l r n.

Definition memchr32 := memchr_v 32 mask32_avx2.
Definition strchr32 := strchr_v 32 mask32_avx2.

(** ** A word at a time *)

Fixpoint forward_words (fuel : nat) (m : mem) (d s n : Z) : option mem :=
  match fuel with
  | O => None
  | S f =>
      if 8 <=? n then a ← ld_word 8 m s; m ← st_word 8 m d a; forward_words f m (d + 8) (s + 8) (n - 8)
      else if n =? 0 then Some m
      else b ← ld 1 m s; m ← st m d b; forward_words f m (d + 1) (s + 1) (n - 1)
  end.

Definition copy_forward (m : mem) (d s n : Z) : option mem :=
  if n <=? 16 then copy_small m d s n else forward_words (S (Z.to_nat n)) m d s n.

Fixpoint backward_words (fuel : nat) (m : mem) (d s n : Z) : option mem :=
  match fuel with
  | O => None
  | S f =>
      if 8 <=? n then
        let n := n - 8 in a ← ld_word 8 m (s + n); m ← st_word 8 m (d + n) a; backward_words f m d s n
      else if n =? 0 then Some m
      else let n := n - 1 in b ← ld 1 m (s + n); m ← st m (d + n) b; backward_words f m d s n
  end.

Definition memmove_w (m : mem) (d s n : Z) : option mem :=
  if n <=? wrap64 (d - s) then copy_forward m d s n
  else if n <=? 16 then copy_small m d s n
  else backward_words (S (Z.to_nat n)) m d s n.

Fixpoint set_words (fuel : nat) (m : mem) (d c n : Z) : option mem :=
  match fuel with
  | O => None
  | S f =>
      if 8 <=? n then m ← st_word 8 m d (wrap64 (c * 0x0101010101010101)); set_words f m (d + 8) c (n - 8)
      else if n =? 0 then Some m
      else m ← st m d [c]; set_words f m (d + 1) c (n - 1)
  end.

Definition memset_w (m : mem) (d c n : Z) : option mem := set_words (S (Z.to_nat n)) m d c n.

Fixpoint memcmp_words (fuel : nat) (m : mem) (l r i n : Z) : option Z :=
  if 16 <=? n - i then
    match fuel with
    | O => None
    | S f => word_diff 8 m l r i ~> memcmp_words f m l r (i + 8) n
    end
  else cmp_small m (l + i) (r + i) (n - i).

Definition memcmp_w (m : mem) (l r n : Z) : option Z := memcmp_words (Z.to_nat n) m l r 0 n.

Fixpoint memchr_bytes (fuel : nat) (m : mem) (s c n : Z) : option (option Z) :=
  if n =? 0 then Some None
  else
    match fuel with
    | O => None
    | S f => b ← m !! s; if b =? c then Some (Some s) else memchr_bytes f m (s + 1) c (n - 1)
    end.

Definition memchr_w (m : mem) (s c n : Z) : option (option Z) := memchr_bytes (Z.to_nat n) m s c n.

Fixpoint strchr_w (fuel : nat) (m : mem) (s c : Z) : option (option Z) :=
  match fuel with
  | O => None
  | S f =>
      b ← m !! s;
      if b =? c then Some (Some s) else if b =? 0 then Some None else strchr_w f m (s + 1) c
  end.

(** The words of a string from an aligned address on; [x] is the word at [w]. *)
Fixpoint strlen_words (fuel : nat) (m : mem) (s w x : Z) : option Z :=
  if HASZERO x =? 0 then
    match fuel with
    | O => None
    | S f => x ← ld_word 8 m (w + 8); strlen_words f m s (w + 8) x
    end
  else Some (w - s + Z.shiftr (ctz (HASZERO x)) 3).

Definition strlen_w (fuel : nat) (m : mem) (s : Z) : option Z :=
  let off := s mod 8 in
  let w := s - off in
  x ← ld_word 8 m w;
  strlen_words fuel m s w (Z.lor x (if off =? 0 then 0 else Z.shiftl 1 (8 * off) - 1)).

Fixpoint strcmp_w (fuel : nat) (m : mem) (l r : Z) : option Z :=
  match fuel with
  | O => None
  | S f =>
      x ← m !! l; y ← m !! r;
      if (x =? y) && negb (x =? 0) then strcmp_w f m (l + 1) (r + 1) else Some (x - y)
  end.

(** ** The public functions, by the body a call runs *)

Inductive body := B_sse2 | B_avx2 | B_neon | B_words.

(** The vector of sixteen as the processor's family compares it. *)
Definition masks (v : body) : maskops := match v with B_neon => mask16_aarch64 | _ => mask16_x86_64 end.

Definition memcpy (v : body) : mem -> Z -> Z -> Z -> option mem :=
  match v with B_words => copy_forward | B_avx2 => memcpy32 | _ => memcpy16 end.

Definition memmove (v : body) : mem -> Z -> Z -> Z -> option mem :=
  match v with B_words => memmove_w | B_avx2 => memmove32 | _ => memmove16 end.

(** [(uc)c]. *)
Definition memset (v : body) (m : mem) (d c n : Z) : option mem :=
  let b := c mod 256 in
  match v with B_words => memset_w m d b n | B_avx2 => memset32 m d b n | _ => memset16 m d b n end.

Definition memcmp (v : body) : mem -> Z -> Z -> Z -> option Z :=
  match v with B_words => memcmp_w | B_avx2 => memcmp32 | _ => memcmp16 (masks v) end.

Definition memchr (v : body) (fuel : nat) (m : mem) (s c n : Z) : option (option Z) :=
  let b := c mod 256 in
  match v with
  | B_words => memchr_w m s b n
  | B_avx2 => memchr32 fuel m s b n
  | _ => memchr16 (masks v) fuel m s b n
  end.

Definition strchr (v : body) (fuel : nat) (m : mem) (s c : Z) : option (option Z) :=
  let b := c mod 256 in
  match v with
  | B_words => strchr_w fuel m s b
  | B_avx2 => strchr32 fuel m s b
  | _ => strchr16 (masks v) fuel m s b
  end.

Definition strlen (v : body) (fuel : nat) (m : mem) (s : Z) : option Z :=
  match v with
  | B_words => strlen_w fuel m s
  | B_avx2 => strlen32 fuel m s
  | _ => strlen16 (masks v) fuel m s
  end.

Definition strcmp (v : body) (fuel : nat) (m : mem) (l r : Z) : option Z :=
  match v with
  | B_words => strcmp_w fuel m l r
  | B_avx2 => strcmp32_first fuel m l r
  | _ => strcmp16_first (masks v) fuel m l r
  end.

(** ** Filling with words *)

Lemma repeat_word k b : 0 <= b < 256 -> b * le_combine (replicate k 1) = le_combine (replicate k b).
Proof. intros Hb. induction k as [|k IH]; cbn [replicate le_combine]; [lia|]. rewrite <-IH. ring. Qed.

Lemma split_repeat k b z : 0 <= b < 256 -> z = le_combine (replicate k b) -> le_split k z = splat k b.
Proof.
  intros Hb ->. unfold splat. rewrite <-(length_replicate k b) at 1. apply le_split_combine.
  by apply Forall_replicate.
Qed.

Lemma word8 b : 0 <= b < 256 -> le_split 8 (wrap64 (b * 0x0101010101010101)) = splat 8 b.
Proof.
  intros Hb. apply split_repeat; [done|]. rewrite <-repeat_word by done.
  change (le_combine (replicate 8 1)) with 0x0101010101010101. apply wrap64_small. lia.
Qed.

Lemma word4 b : 0 <= b < 256 -> le_split 4 (wrap32 (wrap64 (b * 0x0101010101010101))) = splat 4 b.
Proof.
  intros Hb. apply split_repeat; [done|]. rewrite wrap64_small by lia. rewrite <-repeat_word by done.
  change (le_combine (replicate 4 1)) with 0x01010101. unfold wrap32. change 0x0101010101010101 with (0x01010101 + 0x01010101 * 2 ^ 32).
  replace (b * (16843009 + 16843009 * 2 ^ 32)) with (b * 16843009 + (b * 16843009) * 2 ^ 32) by lia.
  rewrite Z.mod_add by lia. apply Z.mod_small. lia.
Qed.

(** Copying bytes leaves bytes. *)
Lemma copied_bytes m s d n m' : bytes_ok m -> copied m s m d n m' -> bytes_ok m'.
Proof. intros Hb Hc a x. rewrite (Hc a). split_if; apply Hb. Qed.

(* Extends a [copied] fact by the block just moved. *)
Ltac mem_prefix :=
  intros ?;
  repeat match goal with
  | H : copied _ _ _ _ _ ?m' |- context [?m' !! _] => rewrite H
  end; split_ifs; try lia; try done; try (f_equal; lia).

Section results.
Context (m : mem) (Hb : bytes_ok m).

Lemma set_small_ok d b n :
mapped m d n -> 0 <= b < 256 -> 0 <= n < 16 ->
exists m', set_small m d b n = Some m' /\ filled m b d n m'.
Proof.
intros Hd Hb' Hn. unfold set_small, st_word. rewrite word8, word4 by done. split_ifs.
1-2: do 2 mem_st; eexists; split; [done|mem_close].
- assert (0 <= n / 2 < n /\ n <= n / 2 + 2 /\ n / 2 <= 1) as (? & ? & ?) by (Z.to_euclidean_division_equations; lia).
change [b] with (splat 1 b). do 3 mem_st. eexists; split; [done|]. mem_close.
- eexists; split; [done|mem_close].
Qed.

Lemma move_short_ok d s n :
mapped m s n -> mapped m d n -> 16 < n <= 64 ->
exists m', move_short m d s n = Some m' /\ copied m s m d n m'.
Proof.
intros Hs Hd Hn. unfold move_short.
assert ((n + 15) / 16 = 2 /\ n <= 32 \/ (n + 15) / 16 = 3 /\ 32 < n <= 48 \/ (n + 15) / 16 = 4 /\ 48 < n) as Hk
by (Z.to_euclidean_division_equations; lia).
destruct Hk as [[-> ?] | [[-> ?] | [-> ?]]].
- change (Z.to_nat (2 - 1)) with 1%nat. cbn [ld_row]. mem_ld. mem_ld. cbn [st_row].
mem_st. mem_st. eexists; split; [done|mem_close].
- change (Z.to_nat (3 - 1)) with 2%nat. cbn [ld_row]. do 3 mem_ld. cbn [st_row].
do 3 mem_st. eexists; split; [done|mem_close].
- change (Z.to_nat (4 - 1)) with 3%nat. cbn [ld_row]. do 4 mem_ld. cbn [st_row].
do 4 mem_st. eexists; split; [done|mem_close].
Qed.

(** Forward copying from where a prefix has been copied. *)
Lemma forward_words_ok d s n fuel m1 k :
mapped m s n -> mapped m d n -> forward_ok d s n -> 0 <= k <= n -> copied m s m d k m1 ->
n - k < Z.of_nat fuel ->
exists m', forward_words fuel m1 (d + k) (s + k) (n - k) = Some m' /\ copied m s m d n m'.
Proof.
intros Hs Hd Hf. revert m1 k. induction fuel as [|f IH]; intros m1 k Hk Hc Hfu; [lia|].
cbn [forward_words].
assert (mapped m1 s n) by (eapply copied_mapped; [done|mem_mapped|done]).
assert (mapped m1 d n) by (eapply copied_mapped; [done|mem_mapped|done]).
unfold forward_ok in Hf. split_ifs.
- unfold ld_word, st_word. mem_ld.
assert (le_split 8 (le_combine v) = v) as ->.
{ replace 8%nat with (length v) by eauto with mem. apply le_split_combine.
  eapply ld_bytes; [|done]. eapply copied_bytes; done. }
mem_st. replace (n - k - 8) with (n - (k + 8)) by lia.
rewrite <-!Z.add_assoc. apply IH; [lia| |lia]. mem_prefix.
- exists m1. split; [done|]. replace n with k by lia. done.
- mem_ld. mem_st. replace (n - k - 1) with (n - (k + 1)) by lia.
rewrite <-!Z.add_assoc. apply IH; [lia| |lia]. mem_prefix.
Qed.

Lemma backward_words_ok d s N fuel m1 n :
mapped m s N -> mapped m d N -> s <= d -> 0 <= n <= N -> copied m (s + n) m (d + n) (N - n) m1 ->
n < Z.of_nat fuel ->
exists m', backward_words fuel m1 d s n = Some m' /\ copied m s m d N m'.
Proof.
intros Hs Hd Hsd. revert m1 n. induction fuel as [|f IH]; intros m1 n Hn Hc Hfu; [lia|].
cbn [backward_words].
assert (mapped m1 s N) by (eapply copied_mapped; [done|mem_mapped|done]).
assert (mapped m1 d N) by (eapply copied_mapped; [done|mem_mapped|done]).
split_ifs.
- unfold ld_word, st_word. mem_ld.
assert (le_split 8 (le_combine v) = v) as ->.
{ replace 8%nat with (length v) by eauto with mem. apply le_split_combine.
  eapply ld_bytes; [|done]. eapply copied_bytes; done. }
mem_st. apply IH; [lia| |lia]. mem_prefix.
- exists m1. split; [done|]. replace n with 0 in Hc by lia. by rewrite !Z.add_0_r, Z.sub_0_r in Hc.
- mem_ld. mem_st. apply IH; [lia| |lia]. mem_prefix.
Qed.

Lemma set_words_ok d c n fuel m1 k :
mapped m d n -> 0 <= c < 256 -> 0 <= k <= n -> filled m c d k m1 -> n - k < Z.of_nat fuel ->
exists m', set_words fuel m1 (d + k) c (n - k) = Some m' /\ filled m c d n m'.
Proof.
intros Hd Hc8. revert m1 k. induction fuel as [|f IH]; intros m1 k Hk Hc Hfu; [lia|].
cbn [set_words]. assert (mapped m1 d n) by (eapply filled_mapped; done). split_ifs.
- unfold st_word. rewrite word8 by done. mem_st. replace (n - k - 8) with (n - (k + 8)) by lia.
rewrite <-!Z.add_assoc. apply IH; [lia| |lia]. mem_close.
- exists m1. split; [done|]. replace n with k by lia. done.
- change [c] with (splat 1 c). mem_st. replace (n - k - 1) with (n - (k + 1)) by lia.
rewrite <-!Z.add_assoc. apply IH; [lia| |lia]. mem_close.
Qed.
End results.

(** ** Comparing and searching by words and bytes *)

Lemma memcmp_spec_shift m l r i n x :
  0 <= i -> agree m l r 0 i -> memcmp_spec m (l + i) (r + i) (n - i) x -> memcmp_spec m l r n x.
Proof.
  intros Hi Ha. assert (forall j, agree m (l + i) (r + i) 0 j -> agree m l r 0 (i + j)) as Hsh.
  { intros j H k Hk. destruct (decide (k < i)); [apply Ha; lia|].
    replace (l + k) with (l + i + (k - i)) by lia. replace (r + k) with (r + i + (k - i)) by lia. apply H. lia. }
  intros [[H ->] | (j & Hj & H & a & b & E1 & E2 & ? & ->)]; [left|right].
  - split; [|done]. replace n with (i + (n - i)) by lia. auto.
  - exists (i + j). split; [lia|]. split; [auto|]. exists a, b. by rewrite !Z.add_assoc.
Qed.

Lemma memcmp_words_ok m l r n fuel i :
  bytes_ok m -> mapped m l n -> mapped m r n -> 0 <= i <= n -> agree m l r 0 i -> n - i <= Z.of_nat fuel ->
  returns (memcmp_words fuel m l r i n) (memcmp_spec m l r n).
Proof.
  intros Hb Hl Hr. revert i. induction fuel as [|f IH]; intros i Hi Ha Hf; cbn [memcmp_words]; split_if; try lia.
  2: { cmp_step (word_diff_ok m l r n Hl Hr 8). apply IH; [lia| |lia]. eapply agree_le; [done|lia]. }
  all: eapply returns_weaken; [apply cmp_small_ok; [mem_mapped|mem_mapped|done|lia]|].
  all: intros x Hx; apply (memcmp_spec_shift m l r i); [lia|done|done].
Qed.

Lemma memchr_bytes_ok m c fuel s n :
  n <= Z.of_nat fuel -> 0 <= n -> n = 0 \/ reach m c false s (s + n) n ->
  exists r, memchr_bytes fuel m s c n = Some r /\ scan_spec m c false s (s + n) r.
Proof.
  revert s n. induction fuel as [|f IH]; intros s n Hf Hn Hr; cbn [memchr_bytes]; split_if; try lia.
  1-2: exists None; split; [done|]; intros ? ?; lia.
  destruct Hr as [|Hr]; [lia|].
  assert (exists b, m !! s = Some b) as [b Eb].
  { destruct Hr as [(q & (Hq & Hns & v & Hv & _) & _) | (? & Hns & _)].
    - destruct (decide (s = q)) as [->|]; [eauto|]. destruct (Hns s) as (u & ? & _); [lia|eauto].
    - destruct (Hns s) as (u & ? & _); [lia|eauto]. }
  rewrite Eb. cbn [mbind option_bind]. split_if.
  - subst. exists (Some s). split; [done|]. split; [|lia]. split; [lia|]. split; [intros ? ?; lia|]. exists c. unfold stops. auto.
  - assert (~ stops c false b) as Hb by (unfold stops; intros [|[]]; congruence).
    assert (forall x, nostop m c false (s + 1) x -> nostop m c false s x) as Hone.
    { intros x H y Hy. destruct (decide (y = s)) as [->|]; [eauto|]. apply H. lia. }
    destruct (IH (s + 1) (n - 1)) as (r & -> & Hsp); [lia|lia| |].
    + destruct (decide (n = 1)); [left; lia|right].
      destruct Hr as [(q & (Hq & Hns & Hv) & ? & ?) | (? & Hns & ?)].
      * left. exists q. assert (s <> q) by (intros ->; destruct Hv as (v & Hv & ?); congruence).
        split; [|lia]. split; [lia|]. split; [|done]. intros y ?. apply Hns. lia.
      * right. split; [lia|]. split; [intros y ?; apply Hns; lia|lia].
    + exists r. split; [done|]. replace (s + 1 + (n - 1)) with (s + n) in Hsp by lia.
      destruct r as [q|]; [|by apply Hone]. destruct Hsp as ((? & ? & ?) & ?). split; [|done].
      split; [lia|]. split; [by apply Hone|done].
Qed.

Lemma strchr_w_ok m c q fuel s :
  stop_at m c true s q -> q - s < Z.of_nat fuel ->
  strchr_w fuel m s c = Some (if decide (m !! q = Some c) then Some q else None).
Proof.
  revert s. induction fuel as [|f IH]; intros s (Hq & Hns & v & Hv & Hst) Hf; [lia|]. cbn [strchr_w].
  destruct (decide (s = q)) as [->|Hne].
  - rewrite Hv. cbn [mbind option_bind]. split_if; [subst; by rewrite decide_True by done|].
    rewrite decide_False by congruence. split_if; [done|]. destruct Hst as [|[]]; congruence.
  - destruct (Hns s) as (u & -> & Hu); [lia|]. cbn [mbind option_bind]. unfold stops in Hu.
    split_if; [tauto|]. split_if; [tauto|]. apply IH; [|lia]. split; [lia|]. split; [intros y ?; apply Hns; lia|eauto].
Qed.

Lemma strcmp_w_ok m x fuel l r j : strcmp_spec m l r j x -> j < Z.of_nat fuel -> strcmp_w fuel m l r = Some x.
Proof.
  revert l r j. induction fuel as [|f IH]; intros l r j (Hj & Hs & a & b & Ha & Hb & Hab & ->) Hf; [lia|]. cbn [strcmp_w].
  destruct (decide (j = 0)) as [->|Hne].
  - rewrite !Z.add_0_r in *. rewrite Ha, Hb. cbn [mbind option_bind]. split_if; [|done]. lia.
  - destruct (Hs 0) as (v & E1 & E2 & Hv); [lia|]. rewrite !Z.add_0_r in *. rewrite E1, E2. cbn [mbind option_bind].
    apply Z.eqb_neq in Hv. rewrite Z.eqb_refl, Hv. cbn [andb negb]. apply (IH _ _ (j - 1)); [|lia].
    split; [lia|]. split.
    + intros k Hk. replace (l + 1 + k) with (l + (1 + k)) by lia. replace (r + 1 + k) with (r + (1 + k)) by lia. apply Hs. lia.
    + exists a, b. replace (l + 1 + (j - 1)) with (l + j) by lia. replace (r + 1 + (j - 1)) with (r + j) by lia. auto.
Qed.

(** The bytes of the first word before the string, made non-zero. *)
Lemma lor_mask v k :
  Forall (fun b => 0 <= b < 256) v -> (k <= length v)%nat ->
  Z.lor (le_combine v) (2 ^ (8 * Z.of_nat k) - 1) = le_combine (replicate k 255 ++ drop k v).
Proof.
  intros Hv. revert v Hv. induction k as [|k IH]; intros v Hv Hk.
  - rewrite Z.mul_0_r. apply Z.lor_0_r.
  - destruct Hv as [|b v Hb Hv]; cbn [length] in Hk; [lia|]. cbn [replicate app drop le_combine].
    rewrite <-IH by (done || lia).
    replace (2 ^ (8 * Z.of_nat (S k)) - 1) with (255 + 2 ^ 8 * (2 ^ (8 * Z.of_nat k) - 1)).
    + change 256 with (2 ^ 8). rewrite lor_cons by lia. f_equal. apply Z.bits_inj'. intros i Hi.
      rewrite Z.lor_spec. change 255 with (Z.ones 8). destruct (decide (i < 8)).
      * rewrite Z.ones_spec_low by lia. apply orb_true_r.
      * rewrite Z.ones_spec_high, orb_false_r by lia. apply (testbit_above 8); lia.
    + replace (8 * Z.of_nat (S k)) with (8 + 8 * Z.of_nat k) by lia. rewrite Z.pow_add_r by lia. lia.
Qed.

(** HASZERO finds the first zero byte of a word. *)
Lemma haszero_word v :
  length v = 8%nat -> Forall (fun b => 0 <= b < 256) v ->
  (HASZERO (le_combine v) = 0 /\ forall k : nat, (k < 8)%nat -> exists b, v !! k = Some b /\ b <> 0) \/
  (HASZERO (le_combine v) <> 0 /\ exists k : nat, Z.shiftr (ctz (HASZERO (le_combine v))) 3 = Z.of_nat k /\
    v !! k = Some 0 /\ forall j : nat, (j < k)%nat -> exists b, v !! j = Some b /\ b <> 0).
Proof.
  intros Hl Hv. rewrite HASZERO_haszero. pose proof (haszero_first v Hv) as HF. rewrite Hl in HF.
  assert (forall k b, v !! k = Some b -> eqv v (splat 8 0) !! k = Some (if b =? 0 then 255 else 0)) as Heq.
  { intros k b Hk. pose proof (lookup_lt_Some _ _ _ Hk). apply lookup_zip_with_Some. exists b, 0.
    split; [done|]. split; [done|]. apply lookup_replicate_2. lia. }
  destruct (first_lane (eqv v (splat 8 0))) as [i|] eqn:E; [right|left].
  - destruct HF as [Hne <-]. split; [done|]. apply first_lane_some in E as (k & -> & (x & Hx & Hx0) & Hlt).
    apply lookup_zip_with_Some in Hx as (b & z & -> & Hb & Hz). apply lookup_replicate in Hz as [-> ?].
    exists k. split; [done|]. destruct (b =? 0) eqn:E0; [|done]. boolean. subst. split; [done|].
    intros j Hj. destruct (lookup_lt_is_Some_2 v j) as [y Hy]; [lia|]. exists y. split; [done|]. intros ->.
    by specialize (Hlt j 255 Hj (Heq _ _ Hy)).
  - split; [done|]. intros k Hk. destruct (lookup_lt_is_Some_2 v k) as [y Hy]; [lia|]. exists y. split; [done|].
    intros ->. rewrite first_lane_none in E. by specialize (E _ _ (Heq _ _ Hy)).
Qed.

Section strlen_w.
Context (m : mem) (Hsp : space_ok m) (Hb : bytes_ok m) (s n : Z) (Hq : stop_at m 0 false s (s + n)).

(** The bytes of the word at [w] as the loop sees them. *)
Definition seen (w : Z) (v : list Z) : Prop :=
length v = 8%nat /\ Forall (fun b => 0 <= b < 256) v /\
forall k : nat, (k < 8)%nat -> v !! k = if w + Z.of_nat k <? s then Some 255 else m !! (w + Z.of_nat k).

Lemma string_byte a : s <= a <= s + n -> exists b, m !! a = Some b /\ (a < s + n -> b <> 0) /\ (a = s + n -> b = 0).
Proof.
intros Ha. destruct Hq as (_ & Hns & v & Hv & Hst). destruct (decide (a = s + n)) as [->|].
- exists v. split; [done|]. split; [lia|]. destruct Hst as [|[]]; [auto|done].
- destruct (Hns a) as (u & -> & Hu); [lia|]. exists u. split; [done|]. split; [|lia].
intros _ ->. apply Hu. by left.
Qed.

Lemma strlen_words_ok fuel w v :
w mod 8 = 0 -> s < w + 8 -> w <= s + n -> seen w v -> s + n - w < Z.of_nat fuel ->
strlen_words fuel m s w (le_combine v) = Some n.
Proof.
revert w v. induction fuel as [|f IH]; intros w v Hal Hsw Hw (Hlen & Hv & Hs) Hf; [lia|]. cbn [strlen_words].
destruct (haszero_word v Hlen Hv) as [[-> Hnz] | (Hne & k & -> & Hk & Hlt)].
- rewrite Z.eqb_refl. assert (w + 8 <= s + n).
{ destruct (decide (w + 8 <= s + n)) as [|Hgt]; [done|]. exfalso.
  destruct (Hnz (Z.to_nat (s + n - w))) as (b & E & Hb0); [lia|]. rewrite Hs in E by lia.
  destruct Hq as (? & _). replace (w + Z.of_nat (Z.to_nat (s + n - w))) with (s + n) in E by lia.
  destruct (string_byte (s + n)) as (b' & E' & _ & H0); [lia|]. rewrite E' in E.
  destruct (s + n <? s) eqn:?; boolean; [lia|]. simplify_eq. auto. }
assert (mapped m (w + 8) 8) as Hmap.
{ apply aligned_mapped; [done|lia|done| |].
  - rewrite Z.add_mod, Hal by lia. done.
  - destruct (string_byte (w + 8)) as (b & -> & _); [lia|eauto]. }
unfold ld_word. destruct (ld_some 8 m (w + 8) Hmap) as [x Hx]. rewrite Hx. cbn [fmap option_fmap option_map mbind option_bind].
apply IH; [rewrite Z.add_mod, Hal by lia; done|lia|lia| |lia].
split; [eauto with mem|]. split; [eauto with mem|]. intros k Hk. rewrite (ld_lookup _ _ _ _ _ Hx) by done.
split_if; [lia|done].
- apply Z.eqb_neq in Hne. rewrite Hne. f_equal. pose proof (lookup_lt_Some _ _ _ Hk) as Hk8. rewrite Hlen in Hk8.
pose proof Hk as Hk'. rewrite Hs in Hk' by lia. destruct (w + Z.of_nat k <? s) eqn:E1; boolean; [done|].
destruct (decide (w + Z.of_nat k < s + n)).
{ destruct (string_byte (w + Z.of_nat k)) as (b & E & Hnz & _); [lia|]. rewrite E in Hk'. simplify_eq. lia. }
destruct (decide (w + Z.of_nat k = s + n)); [lia|]. exfalso. destruct Hq as (? & _).
destruct (Hlt (Z.to_nat (s + n - w))) as (b & E & Hb0); [lia|]. rewrite Hs in E by lia.
replace (w + Z.of_nat (Z.to_nat (s + n - w))) with (s + n) in E by lia.
destruct (string_byte (s + n)) as (b' & E' & _ & H0); [lia|]. rewrite E' in E.
destruct (s + n <? s) eqn:?; boolean; [lia|]. simplify_eq. auto.
Qed.

Lemma strlen_w_ok fuel : n + 8 < Z.of_nat fuel -> strlen_w fuel m s = Some n.
Proof.
intros Hf. pose proof Hq as (Hn & _). destruct (string_byte s) as (b0 & Hs & _); [lia|].
unfold strlen_w. pose proof (Z.mod_pos_bound s 8 ltac:(lia)) as Hoff. pose proof (Z.div_mod s 8 ltac:(lia)) as Hdm.
set (off := s mod 8) in *. assert ((s - off) mod 8 = 0) as Hal.
{ replace (s - off) with (s / 8 * 8) by lia. apply Z.mod_mul. lia. }
assert (mapped m (s - off) 8) as Hmap.
{ intros a Ha. apply (space_page m Hsp s); [|eauto]. replace s with (s - off + off) by lia.
replace a with (s - off + (a - (s - off))) by lia. by rewrite !(page_block (s - off) 8) by (done || lia). }
unfold ld_word. destruct (ld_some 8 m (s - off) Hmap) as [v Hv]. rewrite Hv. cbn [fmap option_fmap option_map mbind option_bind].
assert ((if off =? 0 then 0 else Z.shiftl 1 (8 * off) - 1) = 2 ^ (8 * Z.of_nat (Z.to_nat off)) - 1) as ->.
{ rewrite Z2Nat.id by lia. split_if; [subst off; by rewrite Heqb|]. by rewrite Z.shiftl_1_l. }
pose proof (ld_length _ _ _ _ Hv) as Hlen. rewrite lor_mask by (eauto with mem; lia).
apply strlen_words_ok; try done; try lia. split; [rewrite length_app, length_replicate, length_drop; lia|]. split.
- apply Forall_app. split; [by apply Forall_replicate|]. apply Forall_drop. eauto with mem.
- intros k Hk. split_if; [rewrite lookup_app_l by (rewrite length_replicate; lia); apply lookup_replicate_2; lia|].
rewrite lookup_app_r, length_replicate, lookup_drop by (rewrite length_replicate; lia).
rewrite (ld_lookup _ _ _ _ _ Hv) by lia. f_equal. lia.
Qed.
End strlen_w.
