(* ===== verification/StringsOk.v ===== *)
(** What the eight functions of port/src/okm_string.c promise, whichever body a
    call runs, and what the choice between the bodies keeps.

    A result [Some _] of a function is at once the theorem that it touches only
    memory that is mapped: a block function only the bytes it is given, a scan
    only pages the string is in. *)
From S2P Require Import Prelude Mem Lanes Blocks Compare Scan Strcmp Strings.
From stdpp Require Import gmap list fin_maps.
From Stdlib Require Import ZArith Lia.

#[local] Open Scope Z_scope.

(** ** Concrete memories, for the examples *)

Fixpoint memory (p : Z) (l : list Z) : mem :=
  match l with
  | [] => ∅
  | b :: l' => <[p := b]> (memory (p + 1) l')
  end.

Lemma memory_lookup p l a : memory p l !! a = if p <=? a then l !! Z.to_nat (a - p) else None.
Proof.
  revert p. induction l as [|b l IH]; intros p; cbn [memory].
  - rewrite lookup_empty. by split_if.
  - destruct (decide (a = p)) as [->|Hne].
    + rewrite lookup_insert_eq. split_if; [|lia]. by rewrite Z.sub_diag.
    + rewrite lookup_insert_ne, IH by done. split_ifs; try lia; [|done].
      by replace (Z.to_nat (a - p)) with (S (Z.to_nat (a - (p + 1)))) by lia.
Qed.

Lemma memory_mapped p l q n : p <= q -> q + n <= p + Z.of_nat (length l) -> mapped (memory p l) q n.
Proof.
  intros ?? a ?. rewrite memory_lookup. split_if; [|lia]. apply lookup_lt_is_Some. lia.
Qed.

Lemma memory_bytes p l : forallb (fun b => (0 <=? b) && (b <? 256)) l = true -> bytes_ok (memory p l).
Proof.
  intros H a b. rewrite memory_lookup. split_if; [|done]. intros E. rewrite forallb_forall in H.
  apply list_elem_of_lookup_2 in E. rewrite list_elem_of_In in E. apply H in E. lia.
Qed.

(** A page at [4096 * P]. *)
Lemma memory_space P l : length l = 4096%nat -> 0 <= P < 2 ^ 50 -> space_ok (memory (4096 * P) l).
Proof.
  intros Hl HP. assert (forall a, is_Some (memory (4096 * P) l !! a) <-> 4096 * P <= a < 4096 * P + 4096) as E.
  { intros a. rewrite memory_lookup. split_if.
    - rewrite lookup_lt_is_Some. lia.
    - split; [intros [? ?]; done|lia]. }
  split; unfold OKM_PAGE_MIN.
  - intros a b Hab. rewrite !E. pose proof (Z.div_mod a 4096). pose proof (Z.div_mod b 4096).
    pose proof (Z.mod_pos_bound a 4096). pose proof (Z.mod_pos_bound b 4096). lia.
  - intros a. rewrite E. lia.
Qed.

(** "hello" and "help", each with its end, in a page of zeroes. *)
Definition hello : list Z := [104; 101; 108; 108; 111; 0; 104; 101; 108; 112; 0] ++ replicate 4085 0.
Definition page : mem := memory 4096 hello.

Lemma page_bytes : bytes_ok page.
Proof. by apply memory_bytes. Qed.
Lemma page_space : space_ok page.
Proof. by apply (memory_space 1). Qed.
Lemma page_mapped q n : 4096 <= q -> q + n <= 8192 -> mapped page q n.
Proof. intros. by apply memory_mapped. Qed.
Lemma page_lookup k : 0 <= k -> page !! (4096 + k) = hello !! Z.to_nat k.
Proof. intros. unfold page. rewrite memory_lookup. split_if; [f_equal; lia|lia]. Qed.

(** ** Copying *)

(* The lemma of the block the branch comes to. *)
Ltac block :=
  lazymatch goal with
  | |- exists m', copy_small _ _ _ _ = _ /\ _ => apply copy_small_ok; first [assumption|lia]
  | |- exists m', copy_pair _ _ _ _ _ = _ /\ _ => apply copy_pair_ok; first [assumption|lia]
  | |- exists m', copy_quad _ _ _ _ _ = _ /\ _ => apply copy_quad_ok; first [assumption|lia]
  | |- exists m', move_short _ _ _ _ = _ /\ _ => apply move_short_ok; first [assumption|lia]
  | |- exists m', copyback_big _ _ _ _ _ = _ /\ _ => apply copyback_big_ok; first [assumption|lia]
  | |- exists m', copy_big ?w ?m ?d ?s ?n = _ /\ _ =>
      apply (copy_big_ok w m d s n ltac:(assumption) ltac:(assumption) ltac:(lia) ltac:(lia) (Z.log2 (Z.of_nat w)));
      first [assumption|reflexivity|apply Z.log2_nonneg]
  | |- exists m', set_small _ _ _ _ = _ /\ _ => apply set_small_ok; first [assumption|lia]
  | |- exists m', set_pair _ _ _ _ _ = _ /\ _ => apply set_pair_ok; first [assumption|lia]
  | |- exists m', set_quad _ _ _ _ _ = _ /\ _ => apply set_quad_ok; first [assumption|lia]
  | |- exists m', set_big ?w ?m ?d ?c ?n = _ /\ _ =>
      apply (set_big_ok w m d d n ltac:(assumption) ltac:(assumption) ltac:(lia) ltac:(lia) c (Z.log2 (Z.of_nat w)));
      first [assumption|reflexivity|apply Z.log2_nonneg]
  | _ => idtac
  end.

Section copy.
Context (m : mem) (Hb : bytes_ok m) (d s n : Z).
Context (Hs : mapped m s n) (Hd : mapped m d n) (Hn : 0 <= n).

#[local] Lemma forward_correct v : forward_ok d s n ->
exists m', memcpy v m d s n = Some m' /\ copied m s m d n m'.
Proof.
intros Hf. destruct v; cbn [memcpy]; unfold memcpy16, memcpy32, copy16, copy32, copy_forward; split_ifs; block.
destruct (forward_words_ok m Hb d s n (S (Z.to_nat n)) m 0) as (m' & E & Hc); try done; try lia.
- intros a. split_if; [lia|done].
- rewrite !Z.add_0_r, Z.sub_0_r in E. eauto.
Qed.
End copy.

(** C3. memmove: whichever body runs, and however the two ranges overlap, every
    byte of the destination becomes the byte the source held before the call,
    nothing else changes, and no byte outside the two ranges is touched. *)
Theorem memmove_correct v m d s n :
  bytes_ok m -> mapped m s n -> mapped m d n ->
  0 <= n -> 0 <= s < 2 ^ 64 -> 0 <= d < 2 ^ 64 -> s + n <= 2 ^ 64 -> d + n <= 2 ^ 64 ->
  exists m', memmove v m d s n = Some m' /\ copied m s m d n m'.
Proof.
  intros Hb Hs Hd Hn Hs0 Hd0 Hs64 Hd64.
  assert ((n <= wrap64 (d - s) -> forward_ok d s n) /\ (wrap64 (d - s) < n -> s <= d)) as [Hw Hback].
  { unfold wrap64, forward_ok. destruct (decide (s <= d)); [rewrite Z.mod_small by lia; lia|].
    rewrite <-(Z.mod_add _ 1) by lia. rewrite Z.mod_small by lia. lia. }
  assert (n <= wrap64 (d - s) -> exists m', memcpy v m d s n = Some m' /\ copied m s m d n m') as Hfwd.
  { intros H. apply forward_correct; auto. }
  clear Hw. destruct v; cbn [memmove memcpy] in *; unfold memmove16, memmove32, memmove_w, copyback16, copyback32;
    (split_if; [by apply Hfwd|]); specialize (Hback ltac:(assumption)); clear Hfwd; split_ifs; block.
  apply backward_words_ok; try done; try lia. intros a. split_if; [lia|done].
Qed.

Lemma memmove_witness :
  exists m', memmove B_avx2 page 4098 4096 4 = Some m' /\ copied page 4096 page 4098 4 m'.
Proof.
  apply (memmove_correct B_avx2 page 4098 4096 4);
    [apply page_bytes|apply page_mapped; lia|apply page_mapped; lia|lia|lia|lia|lia|lia].
Defined.

(** memcpy of ranges that do not overlap places the source's bytes at the
    destination, and touches nothing else. *)
Theorem memcpy_correct v m d s n :
  bytes_ok m -> mapped m s n -> mapped m d n -> 0 <= n -> d + n <= s \/ s + n <= d ->
  exists m', memcpy v m d s n = Some m' /\ copied m s m d n m'.
Proof. intros. apply forward_correct; try done. unfold forward_ok. lia. Qed.

Lemma memcpy_witness : exists m', memcpy B_sse2 page 5000 4096 300 = Some m' /\ copied page 4096 page 5000 300 m'.
Proof.
  apply (memcpy_correct B_sse2 page 5000 4096 300);
    [apply page_bytes|apply page_mapped; lia|apply page_mapped; lia|lia|lia].
Defined.

(** memset sets every byte of its range to the low byte of its argument, and
    touches nothing else. *)
Theorem memset_correct v m d c n :
  bytes_ok m -> mapped m d n -> 0 <= n -> 0 <= d -> d + n <= 2 ^ 64 ->
  exists m', memset v m d c n = Some m' /\ filled m (c mod 256) d n m'.
Proof.
  intros Hb Hd Hn Hd0 Hd64. pose proof (Z.mod_pos_bound c 256 ltac:(lia)) as Hc.
  destruct v; cbn [memset]; unfold memset16, memset32, memset_w, set16, set32; split_ifs; block.
  destruct (set_words_ok m d (c mod 256) n (S (Z.to_nat n)) m 0) as (m' & E & Hf); try done; try lia.
  - intros a. split_if; [lia|done].
  - rewrite Z.add_0_r, Z.sub_0_r in E. eauto.
Qed.

Lemma memset_witness : exists m', memset B_neon page 4100 511 777 = Some m' /\ filled page (511 mod 256) 4100 777 m'.
Proof.
  apply (memset_correct B_neon page 4100 511 777); [apply page_bytes|apply page_mapped; lia|lia|lia|lia].
Defined.

(** memcmp answers zero when the two ranges agree and otherwise the
    difference of the first two bytes that do not, so every body answers the
    same. *)
Theorem memcmp_correct v m l r n :
  bytes_ok m -> mapped m l n -> mapped m r n -> 0 <= n ->
  exists x, memcmp v m l r n = Some x /\ memcmp_spec m l r n x.
Proof.
  intros Hb Hl Hr Hn. change (returns (memcmp v m l r n) (memcmp_spec m l r n)).
  destruct v; cbn [memcmp masks]; unfold memcmp16, memcmp32, memcmp_w; split_ifs;
    lazymatch goal with
    | |- returns (cmp_small _ _ _ _) _ => apply cmp_small_ok; first [assumption|lia]
    | |- returns (cmp16 _ _ _ _ _) _ => apply cmp16_ok; first [assumption|lia|apply _]
    | |- returns (cmp32 _ _ _ _) _ => apply cmp32_ok; first [assumption|lia]
    | _ => idtac
    end.
  - pose proof (agree_nil m l r) as H0. pose proof (Compare.DIFF_at 16 mask16_x86_64 m l r n Hl Hr) as HD.
    do 2 cmp_step HD. cmp_done.
  - apply memcmp_words_ok; try done; try lia. apply agree_nil.
Qed.

Lemma memcmp_witness : exists x, memcmp B_words page 4096 4102 40 = Some x /\ memcmp_spec page 4096 4102 40 x.
Proof.
  apply (memcmp_correct B_words page 4096 4102 40); [apply page_bytes|apply page_mapped; lia|apply page_mapped; lia|lia].
Defined.

(** ** Searching *)

(** memchr: whichever body runs, the answer is the first byte equal to the low
    byte of [c] within [n] bytes, or null when there is none, provided the scan
    may run (the byte is there, or all [n] bytes are), and it reads nothing
    outside the pages those bytes are in. *)
Theorem memchr_correct v fuel m s c n :
  space_ok m -> bytes_ok m -> 0 <= n < Z.of_nat fuel ->
  n = 0 \/ reach m (c mod 256) false s (s + n) n ->
  exists r, memchr v fuel m s c n = Some r /\ scan_spec m (c mod 256) false s (s + n) r.
Proof.
  intros Hsp Hb Hf Hr. pose proof (Z.mod_pos_bound c 256 ltac:(lia)) as Hc.
  destruct v; cbn [memchr masks]; unfold memchr16, memchr32, memchr_w.
  1,3: by apply (memchr_v_ok 16 _ m Hsp Hb 4); try lia.
  - by apply (memchr_v_ok 32 _ m Hsp Hb 5); try lia.
  - apply memchr_bytes_ok; [lia|lia|done].
Qed.

(* A byte of [page] at a literal offset. *)
Ltac page_at k := match goal with |- page !! ?a = _ => change a with (4096 + k) end; rewrite (page_lookup k) by lia; vm_compute; reflexivity.

Lemma page_stop c nul k n :
  0 <= k -> 0 <= n ->
  forallb (fun i => match hello !! Z.to_nat (k + i) with
                    | Some v => negb (bool_decide (stops c nul v)) | None => false end) (seqZ 0 n) = true ->
  match hello !! Z.to_nat (k + n) with Some v => stops c nul v | None => False end ->
  stop_at page c nul (4096 + k) (4096 + k + n).
Proof.
  intros Hk Hn Hall Hv. split; [lia|]. split.
  - intros x Hx. rewrite forallb_forall in Hall.
    specialize (Hall (x - (4096 + k)) ltac:(apply list_elem_of_In, elem_of_seqZ; lia)).
    replace x with (4096 + (k + (x - (4096 + k)))) by lia. rewrite page_lookup by lia.
    destruct (hello !! _) as [v|]; [|done]. exists v. split; [done|]. by case_bool_decide.
  - replace (4096 + k + n) with (4096 + (k + n)) by lia. rewrite page_lookup by lia.
    destruct (hello !! _) as [v|]; [eauto|done].
Qed.

Lemma memchr_witness : exists r, memchr B_avx2 100 page 4096 (256 + 108) 50 = Some r /\ scan_spec page 108 false 4096 4146 r.
Proof.
  apply (memchr_correct B_avx2 100 page 4096 (256 + 108) 50); [apply page_space|apply page_bytes|lia|].
  right. left. exists (4096 + 0 + 2). split; [|lia]. apply (page_stop 108 false 0 2); [lia|lia|reflexivity|by left].
Defined.

(** strchr: the first occurrence of the low byte of [c] in the string, its
    end included, or null; [q] is where the string or the search ends. *)
Theorem strchr_correct v fuel m s c q :
  space_ok m -> bytes_ok m -> stop_at m (c mod 256) true s q -> q - s < Z.of_nat fuel ->
  strchr v fuel m s c = Some (if decide (m !! q = Some (c mod 256)) then Some q else None).
Proof.
  intros Hsp Hb Hq Hf. pose proof (Z.mod_pos_bound c 256 ltac:(lia)) as Hc.
  destruct v; cbn [strchr masks]; unfold strchr16, strchr32.
  1,3: by apply (strchr_v_ok 16 _ m Hsp Hb 4); try lia.
  - by apply (strchr_v_ok 32 _ m Hsp Hb 5); try lia.
  - by apply strchr_w_ok.
Qed.

Lemma strchr_witness :
  strchr B_sse2 100 page 4096 111 = Some (if decide (page !! 4100 = Some 111) then Some 4100 else None) /\
  strchr B_words 100 page 4096 112 = Some (if decide (page !! 4101 = Some 112) then Some 4101 else None).
Proof.
  split.
  - apply (strchr_correct B_sse2 100 page 4096 111 4100); [apply page_space|apply page_bytes| |lia].
    apply (page_stop 111 true 0 4); [lia|lia|reflexivity|by left].
  - apply (strchr_correct B_words 100 page 4096 112 4101); [apply page_space|apply page_bytes| |lia].
    apply (page_stop 112 true 0 5); [lia|lia|reflexivity|by right].
Defined.

(** strlen: the distance to the first zero byte, for every string that ends,
    without reading outside the pages the string is in. *)
Theorem strlen_correct v fuel m s n :
  space_ok m -> bytes_ok m -> stop_at m 0 false s (s + n) -> n + 8 < Z.of_nat fuel ->
  strlen v fuel m s = Some n.
Proof.
  intros Hsp Hb Hq Hf. destruct v; cbn [strlen masks]; unfold strlen16.
  1,3: apply (strlen_v_ok 16 _ m Hsp Hb 4); done || lia.
  - apply (strlen32_ok m Hsp Hb s n Hq). lia.
  - by apply strlen_w_ok.
Qed.

Lemma strlen_witness : strlen B_avx2 100 page 4096 = Some 5 /\ strlen B_words 100 page 4102 = Some 4.
Proof.
  split.
  - apply (strlen_correct B_avx2 100 page 4096 5); [apply page_space|apply page_bytes| |lia].
    apply (page_stop 0 false 0 5); [lia|lia|reflexivity|by left].
  - apply (strlen_correct B_words 100 page 4102 4); [apply page_space|apply page_bytes| |lia].
    apply (page_stop 0 false 6 4); [lia|lia|reflexivity|by left].
Defined.

(** C32. strcmp: the difference of the bytes at the first place [j] where the
    strings differ or the left one ends, for every pair decided somewhere,
    without reading outside the pages the strings are in. *)
Theorem strcmp_correct v fuel m l r j x :
  space_ok m -> bytes_ok m -> strcmp_spec m l r j x -> j < Z.of_nat fuel ->
  strcmp v fuel m l r = Some x.
Proof.
  intros Hsp Hb Hs Hf. destruct v; cbn [strcmp masks].
  1,3: by apply (strcmp16_first_ok m Hsp Hb x _ _ _ _ j).
  - by apply (strcmp32_first_ok m Hsp Hb x _ _ _ j).
  - by apply (strcmp_w_ok m x fuel l r j).
Qed.

Lemma strcmp_witness : strcmp B_neon 100 page 4096 4102 = Some (108 - 112).
Proof.
  apply (strcmp_correct B_neon 100 page 4096 4102 3 (108 - 112)); [apply page_space|apply page_bytes| |lia].
  split; [lia|]. split.
  - intros k Hk. assert (k = 0 \/ k = 1 \/ k = 2) as [-> | [-> | ->]] by lia; [exists 104|exists 101|exists 108].
    1: split; [page_at 0|]; split; [page_at 6|done].
    1: split; [page_at 1|]; split; [page_at 7|done].
    1: split; [page_at 2|]; split; [page_at 8|done].
  - exists 108, 112. split; [page_at 3|]. split; [page_at 9|]. split; [by left|done].
Defined.
