(* ===== verification/Choice.v ===== *)
(** The choice between the sixteen-byte and the thirty-two-byte functions of
    port/src/okm_string.c, made once for the program on x86_64: each public
    function is reached through a word of its own, which at first names a
    function that makes the choice for all eight. Threads may make it at once,
    with relaxed stores a word at a time. *)
From S2P Require Import Prelude.
From stdpp Require Import base list decidable sets.
From Stdlib Require Import ZArith Lia.

#[local] Open Scope Z_scope.

(** What the processor says: the registers CPUID leaves for a leaf, and XGETBV's
    low word. *)
Record cpu := Cpu {
  cpuid : Z -> Z * Z * Z * Z;
  xgetbv : Z;
}.

Definition has_avx2 (p : cpu) : bool :=
  let '(a, _, _, _) := cpuid p 0 in
  if a <? 7 then false
  else
    let '(_, _, c, _) := cpuid p 1 in
    let osxsave := Z.land (Z.shiftr c 27) 1 in
    let avx := Z.land (Z.shiftr c 28) 1 in
    if (osxsave =? 0) || (avx =? 0) then false
    else if negb (Z.land (xgetbv p) 6 =? 6) then false
    else
      let '(_, b, _, _) := cpuid p 7 in
      negb (Z.land (Z.shiftr b 5) 1 =? 0).

(** OKM_STRING_FUNCTIONS, in its order. *)
Inductive string_function := F_memcpy | F_memmove | F_memset | F_memcmp | F_memchr | F_strchr | F_strlen | F_strcmp.

Definition OKM_STRING_FUNCTIONS : list string_function :=
  [F_memcpy; F_memmove; F_memset; F_memcmp; F_memchr; F_strchr; F_strlen; F_strcmp].

#[export] Instance string_function_eq_dec : EqDecision string_function.
Proof. solve_decision. Defined.

(** What a word may name. *)
Inductive target := T_first | T_sse2 | T_avx2.

#[export] Instance target_eq_dec : EqDecision target.
Proof. solve_decision. Defined.

(** The eight words. *)
Definition table := string_function -> target.
Definition table_initial : table := fun _ => T_first.
Definition table_store (g : table) (f : string_function) (t : target) : table :=
  fun x => if decide (x = f) then t else g x.

(** [initial] is OKM_STRING_AVX2_INITIAL. *)
Definition chosen (initial : Z) (p : cpu) : target :=
  let wide := if initial <? 0 then has_avx2 p else negb (initial =? 0) in
  if wide then T_avx2 else T_sse2.

(** Where a thread is: outside the eight functions, in [choose] on behalf of [f]
    with the words it has still to store, or in the body of [f] it jumped to. *)
Inductive thread :=
| Outside
| Choosing (f : string_function) (rest : list string_function)
| Running (f : string_function) (t : target).

(** A jump through the word of [f]: a body, or [f##_first], which chooses. *)
Definition jump (g : table) (f : string_function) : thread :=
  match g f with
  | T_first => Choosing f OKM_STRING_FUNCTIONS
  | t => Running f t
  end.

Section interleaving.
Context (initial : Z) (p : cpu).

(** One step of one thread: a call, one store of [choose], the jump after it,
or a return. *)
Inductive thread_step : table * thread -> table * thread -> Prop :=
| step_call g f : thread_step (g, Outside) (g, jump g f)
| step_store g f x rest :
thread_step (g, Choosing f (x :: rest)) (table_store g x (chosen initial p), Choosing f rest)
| step_jump g f : thread_step (g, Choosing f []) (g, jump g f)
| step_return g f t : thread_step (g, Running f t) (g, Outside).

(** The threads of the program, interleaved in any order. *)
Inductive reachable : table -> list thread -> Prop :=
| reach_start n : reachable table_initial (replicate n Outside)
| reach_step g ts i t g' t' :
reachable g ts -> ts !! i = Some t -> thread_step (g, t) (g', t') -> reachable g' (<[i := t']> ts).

(** A thread that is choosing has stored every word it has not left to store. *)
Definition thread_ok (g : table) (t : thread) : Prop :=
match t with
| Outside => True
| Choosing _ rest => forall x, x ∉ rest -> g x = chosen initial p
| Running _ t => t = chosen initial p
end.

Definition table_ok (g : table) : Prop := forall f, g f = T_first \/ g f = chosen initial p.

Lemma chosen_body : chosen initial p <> T_first.
Proof. unfold chosen. by destruct (if _ : bool then _ else _ : bool). Qed.

Lemma all_functions x : x ∈ OKM_STRING_FUNCTIONS.
Proof. destruct x; unfold OKM_STRING_FUNCTIONS; set_solver. Qed.

Lemma jump_ok g f : table_ok g -> thread_ok g (jump g f).
Proof.
intros Hg. unfold jump. destruct (g f) eqn:E; cbn [thread_ok].
- intros x Hx. destruct Hx. apply all_functions.
- destruct (Hg f); congruence.
- destruct (Hg f); congruence.
Qed.

Lemma store_ok g x t : table_ok g -> thread_ok g t -> thread_ok (table_store g x (chosen initial p)) t.
Proof.
intros Hg. destruct t; cbn [thread_ok]; auto. intros H y Hy. unfold table_store.
destruct (decide (y = x)); auto.
Qed.

Lemma thread_step_ok g t g' t' :
thread_step (g, t) (g', t') -> table_ok g -> thread_ok g t ->
table_ok g' /\ thread_ok g' t' /\ forall u, thread_ok g u -> thread_ok g' u.
Proof.
intros H Hg Ht. inversion H; subst; cbn [thread_ok] in *.
- eauto using jump_ok.
- split; [|split].
+ intros f'. unfold table_store. destruct (decide (f' = x)); auto.
+ intros y Hy. unfold table_store. destruct (decide (y = x)); [done|]. apply Ht. by rewrite not_elem_of_cons.
+ intros u. by apply store_ok.
- eauto using jump_ok.
- eauto.
Qed.

Lemma reachable_ok g ts : reachable g ts -> table_ok g /\ Forall (thread_ok g) ts.
Proof.
induction 1 as [n | g ts i t g' t' _ [Hg Hts] Hi Hs].
- split; [by left|]. by apply Forall_replicate.
- assert (thread_ok g t) as Ht by (eapply Forall_lookup; done).
destruct (thread_step_ok _ _ _ _ Hs Hg Ht) as (Hg' & Ht' & Hrest). split; [done|].
apply Forall_insert; [|done]. eapply Forall_impl; [done|]. exact Hrest.
Qed.
End interleaving.

Lemma land1_testbit c k : 0 <= k -> (Z.land (Z.shiftr c k) 1 =? 0) = negb (Z.testbit c k).
Proof.
  intros Hk. change 1 with (Z.ones 1). rewrite Z.land_ones by lia. change (2 ^ 1) with 2.
  rewrite <-Z.bit0_mod, Z.shiftr_spec, Z.add_0_l by lia. by destruct (Z.testbit c k).
Qed.

Lemma land6_testbit x : Z.land x 6 = 6 -> Z.testbit x 1 = true /\ Z.testbit x 2 = true.
Proof.
  intros H. split; [apply (f_equal (fun z => Z.testbit z 1)) in H|apply (f_equal (fun z => Z.testbit z 2)) in H];
    rewrite Z.land_spec in H; by destruct (Z.testbit x _).
Qed.

(** However the threads of a program interleave their calls and their stores
    of the choice, a body that runs is the chosen one: a wide body never runs on
    a processor that has not said it has AVX2 and whose system does not save the
    wide registers (leaf 0 at least 7, OSXSAVE and AVX in leaf 1, both bits of
    XGETBV, AVX2 in leaf 7), unless the build says so itself. *)
Theorem choice_safe initial p g ts f t :
  reachable initial p g ts -> Running f t ∈ ts ->
  t = chosen initial p /\
  (t = T_avx2 -> initial < 0 ->
   let '(a, _, _, _) := cpuid p 0 in let '(_, _, c, _) := cpuid p 1 in let '(_, b, _, _) := cpuid p 7 in
   7 <= a /\ Z.testbit c 27 = true /\ Z.testbit c 28 = true /\
   Z.testbit (xgetbv p) 1 = true /\ Z.testbit (xgetbv p) 2 = true /\ Z.testbit b 5 = true).
Proof.
  intros Hr Ht. destruct (reachable_ok _ _ _ _ Hr) as [_ Hts].
  rewrite Forall_forall in Hts. specialize (Hts _ Ht). cbn [thread_ok] in Hts. split; [done|].
  intros -> Hi. unfold chosen in Hts. apply Z.ltb_lt in Hi. rewrite Hi in Hts. unfold has_avx2 in Hts.
  destruct (cpuid p 0) as [[[a ?] ?] ?], (cpuid p 1) as [[[? ?] c] ?], (cpuid p 7) as [[[? b] ?] ?].
  destruct (a <? 7) eqn:Ea; [done|]. boolean. rewrite !land1_testbit in Hts by lia.
  destruct (Z.testbit c 27), (Z.testbit c 28); try done. cbn [negb orb] in Hts.
  destruct (Z.land (xgetbv p) 6 =? 6) eqn:Ex; [|done]. boolean. apply land6_testbit in Ex as [-> ->].
  cbn [negb] in Hts. by destruct (Z.testbit b 5).
Qed.

(** A processor and system with AVX2, and the first call of one of two threads. *)
Definition wide_cpu : cpu :=
  Cpu (fun leaf => if leaf =? 0 then (7, 0, 0, 0) else if leaf =? 1 then (0, 0, 2 ^ 27 + 2 ^ 28, 0) else (0, 32, 0, 0)) 7.

Definition stored : table := fold_left (fun g x => table_store g x (chosen (-1) wide_cpu)) OKM_STRING_FUNCTIONS table_initial.

Lemma first_call_chooses : reachable (-1) wide_cpu stored [Choosing F_strlen []; Outside].
Proof.
  assert (forall xs g, reachable (-1) wide_cpu g [Choosing F_strlen xs; Outside] ->
    reachable (-1) wide_cpu (fold_left (fun g x => table_store g x (chosen (-1) wide_cpu)) xs g) [Choosing F_strlen []; Outside]) as H.
  { induction xs as [|x xs IH]; intros g Hg; cbn [fold_left]; [done|]. apply IH.
    eapply (reach_step _ _ _ _ 0 _ _ _ Hg); [done|constructor]. }
  apply H. apply (reach_step _ _ _ [Outside; Outside] 0 Outside _ (jump table_initial F_strlen) (reach_start _ _ 2)); [done|constructor].
Qed.

Lemma choice_safe_witness : reachable (-1) wide_cpu stored [Running F_strlen T_avx2; Outside] /\ T_avx2 = chosen (-1) wide_cpu.
Proof.
  assert (reachable (-1) wide_cpu stored [Running F_strlen T_avx2; Outside]) as H.
  { apply (reach_step _ _ _ _ 0 (Choosing F_strlen []) stored (Running F_strlen T_avx2) first_call_chooses); [done|].
    change (Running F_strlen T_avx2) with (jump stored F_strlen). constructor. }
  split; [exact H|]. apply (choice_safe (-1) wide_cpu stored _ F_strlen T_avx2 H). left.
Defined.

(** A thread that has chosen never chooses again: once its stores are done the
    jump through its function's word enters the chosen body, whatever other
    threads have stored meanwhile. *)
Theorem choice_settles initial p g ts f :
  reachable initial p g ts -> Choosing f [] ∈ ts -> jump g f = Running f (chosen initial p).
Proof.
  intros Hr Ht. destruct (reachable_ok _ _ _ _ Hr) as [_ Hts]. rewrite Forall_forall in Hts.
  specialize (Hts _ Ht f ltac:(set_solver)). unfold jump. rewrite Hts.
  pose proof (chosen_body initial p). by destruct (chosen initial p).
Qed.

Lemma choice_settles_witness : jump stored F_strlen = Running F_strlen (chosen (-1) wide_cpu).
Proof. apply (choice_settles (-1) wide_cpu stored [Choosing F_strlen []; Outside] F_strlen first_call_chooses). left. Defined.
