(* ===== verification/Kal.v ===== *)
(** What the port layer shares with openkal and with musl: the error values of
    each and the translation between them (port/src/okm_fd.c, okm_errno), the
    open flags (okm_open_flags), and the state monad in which the stateful
    components are written. *)
From S2P Require Import Prelude.
From stdpp Require Import base list option.
From Stdlib Require Import ZArith Lia.

#[local] Open Scope Z_scope.

(** ** musl's error values (musl/arch/generic/bits/errno.h) *)

Definition EPERM : Z := 1.
Definition ENOENT : Z := 2.
Definition EIO : Z := 5.
Definition ENOEXEC : Z := 8.
Definition EBADF : Z := 9.
Definition EAGAIN : Z := 11.
Definition ENOMEM : Z := 12.
Definition EACCES : Z := 13.
Definition EFAULT : Z := 14.
Definition EEXIST : Z := 17.
Definition ENODEV : Z := 19.
Definition ENOTDIR : Z := 20.
Definition EISDIR : Z := 21.
Definition EINVAL : Z := 22.
Definition ENFILE : Z := 23.
Definition EMFILE : Z := 24.
Definition ENOSPC : Z := 28.
Definition EPIPE : Z := 32.
Definition ENAMETOOLONG : Z := 36.
Definition ENOSYS : Z := 38.
Definition ENOTEMPTY : Z := 39.

(** ** openkal's errors
    openkal's set is closed and its numbering is openkal's own, so a value is
    named and one this library does not know is [kal_err_unknown]. *)
Inductive kal_error :=
| kal_ok
| kal_err_invalid
| kal_err_again
| kal_err_io
| kal_err_no_memory
| kal_err_no_space
| kal_err_permission
| kal_err_not_supported
| kal_err_closed
| kal_err_not_found
| kal_err_exists
| kal_err_not_empty
| kal_err_is_directory
| kal_err_not_directory
| kal_err_not_program
| kal_err_unknown (e : Z).

#[export] Instance kal_error_eq_dec : EqDecision kal_error.
Proof. solve_decision. Defined.

Definition okm_errno (e : kal_error) : Z :=
  match e with
  | kal_ok => 0
  | kal_err_invalid => EINVAL
  | kal_err_again => EAGAIN
  | kal_err_io => EIO
  | kal_err_no_memory => ENOMEM
  | kal_err_no_space => ENOSPC
  | kal_err_permission => EACCES
  | kal_err_not_supported => ENOSYS
  | kal_err_closed => EPIPE
  | kal_err_not_found => ENOENT
  | kal_err_exists => EEXIST
  | kal_err_not_empty => ENOTEMPTY
  | kal_err_is_directory => EISDIR
  | kal_err_not_directory => ENOTDIR
  | kal_err_not_program => ENOEXEC
  | kal_err_unknown _ => EIO
  end.

Lemma okm_errno_ok e : okm_errno e = 0 <-> e = kal_ok.
Proof. by destruct e. Qed.

Lemma okm_errno_range e : 0 <= okm_errno e < 4096.
Proof. destruct e; by compute. Qed.

Lemma errno_pos e : e <> kal_ok -> 0 < okm_errno e.
Proof. intros H. rewrite <-okm_errno_ok in H. pose proof (okm_errno_range e). lia. Qed.

(** ** open(2) flags (musl/arch/generic/bits/fcntl.h) and openkal's
    openkal's flags are six bits of its own; the model keeps which are set. *)

Definition O_ACCMODE : Z := 0x200003.
Definition O_RDONLY : Z := 0.
Definition O_WRONLY : Z := 1.
Definition O_RDWR : Z := 2.
Definition O_CREAT : Z := 0x40.
Definition O_EXCL : Z := 0x80.
Definition O_TRUNC : Z := 0x200.
Definition O_APPEND : Z := 0x400.
Definition O_NONBLOCK : Z := 0x800.
Definition O_DIRECTORY : Z := 0x10000.
Definition O_CLOEXEC : Z := 0x80000.

Record kal_open := KalOpen {
  KAL_OPEN_READ : bool;
  KAL_OPEN_WRITE : bool;
  KAL_OPEN_CREATE : bool;
  KAL_OPEN_EXCLUSIVE : bool;
  KAL_OPEN_TRUNCATE : bool;
  KAL_OPEN_APPEND : bool;
}.

Definition has (flags bit : Z) : bool := negb (Z.land flags bit =? 0).

Definition okm_open_flags (flags : Z) : kal_open :=
  let acc := Z.land flags O_ACCMODE in
  KalOpen (if acc =? O_RDONLY then true else if acc =? O_WRONLY then false else true)
          (if acc =? O_RDONLY then false else if acc =? O_WRONLY then true else true)
          (has flags O_CREAT) (has flags O_EXCL) (has flags O_TRUNC) (has flags O_APPEND).

(** ** The state monad
    A stateful operation maps a state to an answer and a state, or to [None]
    where the C would leave the bounds of an array: a theorem that it returns
    [Some] is also the theorem that it does not. *)

Definition M (S A : Type) : Type := S -> option (A * S).

#[export] Instance M_ret S : MRet (M S) := fun A x s => Some (x, s).
#[export] Instance M_bind S : MBind (M S) := fun A B k e s =>
  match e s with
  | Some (x, s') => k x s'
  | None => None
  end.

Definition gets {S A} (f : S -> A) : M S A := fun s => Some (f s, s).
Definition modify {S} (f : S -> S) : M S () := fun s => Some ((), f s).
Definition when {S} (b : bool) (e : M S ()) : M S () := if b then e else mret ().
(** What the C does not define: a null pointer written through, a count that overflows. *)
Definition stuck {S A} : M S A := fun _ => None.
(** An array access: outside the array the machine is stuck. *)
Definition try {S A} (f : S -> option A) : M S A := fun s => (fun x => (x, s)) <$> f s.
Definition put_try {S} (f : S -> option S) : M S () := fun s => (fun s' => ((), s')) <$> f s.

Lemma bind_run {S A B} (e : M S A) (k : A -> M S B) s x s1 : e s = Some (x, s1) -> (e ≫= k) s = k x s1.
Proof. unfold mbind, M_bind. by intros ->. Qed.

(** An operation returns, and its answer and the state it leaves satisfy [Q]. *)
Definition runs {S A} (e : M S A) (s : S) (Q : A -> S -> Prop) : Prop := exists x s', e s = Some (x, s') /\ Q x s'.

Section runs.
Context {S A : Type}.
Implicit Types (s : S) (Q : A -> S -> Prop).

Lemma runs_ret (x : A) s Q : Q x s -> runs (mret x) s Q.
Proof. by exists x, s. Qed.

Lemma runs_bind {B} (e : M S B) (k : B -> M S A) s Q : runs e s (fun x s' => runs (k x) s' Q) -> runs (e ≫= k) s Q.
Proof. intros (x & s' & He & y & s2 & Hk & HQ). exists y, s2. by rewrite (bind_run e k s x s') by done. Qed.

Lemma runs_mono (e : M S A) s Q Q' : runs e s Q -> (forall x s', Q x s' -> Q' x s') -> runs e s Q'.
Proof. intros (x & s' & He & HQ) H. exists x, s'. auto. Qed.

Lemma runs_gets (f : S -> A) s Q : Q (f s) s -> runs (gets f) s Q.
Proof. by exists (f s), s. Qed.

Lemma runs_modify (f : S -> S) s (Q : () -> S -> Prop) : Q () (f s) -> runs (modify f) s Q.
Proof. by exists (), (f s). Qed.

Lemma runs_try (f : S -> option A) s x Q : f s = Some x -> Q x s -> runs (try f) s Q.
Proof. intros H. exists x, s. unfold try. by rewrite H. Qed.

Lemma runs_put_try (f : S -> option S) s s' (Q : () -> S -> Prop) : f s = Some s' -> Q () s' -> runs (put_try f) s Q.
Proof. intros H. exists (), s'. unfold put_try. by rewrite H. Qed.
End runs.

(** ** Arrays indexed by C integers *)

Definition at_ {A} (l : list A) (i : Z) : option A := if 0 <=? i then l !! Z.to_nat i else None.
Definition set_at {A} (l : list A) (i : Z) (x : A) : option (list A) :=
  if (0 <=? i) && (i <? Z.of_nat (length l)) then Some (<[Z.to_nat i := x]> l) else None.

(** The first index from [i] on, below [n], that satisfies [f]. *)
Fixpoint scan_from {A} (f : A -> bool) (l : list A) (i : Z) : option Z :=
  match l with
  | [] => None
  | x :: l' => if f x then Some i else scan_from f l' (i + 1)
  end.

Lemma at_some {A} (l : list A) i : 0 <= i < Z.of_nat (length l) -> exists x, at_ l i = Some x.
Proof.
  intros Hi. unfold at_. destruct (0 <=? i) eqn:E; boolean; [|lia].
  apply lookup_lt_is_Some. lia.
Qed.

Lemma at_range {A} (l : list A) i x : at_ l i = Some x -> 0 <= i < Z.of_nat (length l).
Proof. unfold at_. split_if; [|done]. intros H%lookup_lt_Some. lia. Qed.

Lemma at_lookup {A} (l : list A) i x : at_ l i = Some x -> l !! Z.to_nat i = Some x.
Proof. unfold at_. by split_if. Qed.

Lemma set_at_some {A} (l : list A) i x : 0 <= i < Z.of_nat (length l) -> set_at l i x = Some (<[Z.to_nat i := x]> l).
Proof. intros. unfold set_at. by split_if; [|lia]. Qed.

Lemma set_at_inv {A} (l l' : list A) i x :
  set_at l i x = Some l' -> 0 <= i < Z.of_nat (length l) /\ l' = <[Z.to_nat i := x]> l.
Proof. unfold set_at. split_if; [|done]. intros [= <-]. split; [lia|done]. Qed.

Lemma at_insert {A} (l : list A) i x j :
  0 <= i < Z.of_nat (length l) ->
  at_ (<[Z.to_nat i := x]> l) j = if j =? i then Some x else at_ l j.
Proof.
  intros Hi. unfold at_. destruct (j =? i) eqn:E; boolean.
  - subst. split_if; [|lia]. apply list_lookup_insert_eq. lia.
  - split_if; [|done]. apply list_lookup_insert_ne. lia.
Qed.

Lemma scan_from_some {A} (f : A -> bool) l i j :
  scan_from f l i = Some j ->
  i <= j < i + Z.of_nat (length l) /\ (exists x, at_ l (j - i) = Some x /\ f x = true) /\
  forall k x, i <= k < j -> at_ l (k - i) = Some x -> f x = false.
Proof.
  revert i. induction l as [|y l IH]; intros i; cbn [scan_from]; [done|]. destruct (f y) eqn:Ey.
  - intros [= <-]. cbn [length]. split; [lia|]. rewrite Z.sub_diag. split; [|lia]. exists y. auto.
  - intros (Hj & (x & Hx & Hfx) & Hlt)%IH. cbn [length]. split; [lia|].
    assert (forall k, i < k -> at_ (y :: l) (k - i) = at_ l (k - (i + 1))) as Hsh.
    { intros k Hk. unfold at_. split_ifs; try lia. by replace (Z.to_nat (k - i)) with (S (Z.to_nat (k - (i + 1)))) by lia. }
    split; [exists x; rewrite Hsh by lia; auto|].
    intros k z Hk. destruct (decide (k = i)) as [->|]; [rewrite Z.sub_diag; unfold at_; simpl; congruence|].
    rewrite Hsh by lia. apply Hlt. lia.
Qed.

Lemma scan_from_none {A} (f : A -> bool) l i : scan_from f l i = None -> Forall (fun x => f x = false) l.
Proof.
  revert i. induction l as [|y l IH]; intros i; cbn [scan_from]; [done|].
  destruct (f y) eqn:Ey; [done|]. intros H. constructor; eauto.
Qed.

Lemma scan_from_app_none {A} (f : A -> bool) l l' i :
  Forall (fun x => f x = false) l -> scan_from f (l ++ l') i = scan_from f l' (i + Z.of_nat (length l)).
Proof.
  intros H. revert i. induction H as [|x l Hx _ IH]; intros i; cbn [app scan_from length]; [by rewrite Z.add_0_r|].
  rewrite Hx, IH. f_equal. lia.
Qed.

(** ** Counting *)

Definition tally {A} (f : A -> bool) (l : list A) : Z := Z.of_nat (length (List.filter f l)).

Lemma tally_nonneg {A} (f : A -> bool) l : 0 <= tally f l.
Proof. unfold tally. lia. Qed.

Lemma tally_cons {A} (f : A -> bool) x l : tally f (x :: l) = (if f x then 1 else 0) + tally f l.
Proof. unfold tally. cbn [List.filter]. destruct (f x); cbn [length]; lia. Qed.

Lemma tally_insert {A} (f : A -> bool) l i x y :
  l !! i = Some y -> tally f (<[i := x]> l) = tally f l - (if f y then 1 else 0) + (if f x then 1 else 0).
Proof.
  revert i. induction l as [|z l IH]; intros [|i] Hi; try done; cbn [insert list_insert]; rewrite !tally_cons.
  - injection Hi as ->. lia.
  - change (list_insert i x l) with (<[i:=x]> l). rewrite IH by done. lia.
Qed.

Lemma tally_pos {A} (f : A -> bool) l : 0 < tally f l <-> exists x, x ∈ l /\ f x = true.
Proof.
  induction l as [|y l IH].
  - split; [unfold tally; simpl; lia|]. intros (x & Hx & _). by apply not_elem_of_nil in Hx.
  - rewrite tally_cons. pose proof (tally_nonneg f l). setoid_rewrite elem_of_cons. split.
    + intros H1. destruct (f y) eqn:E; [eauto|]. destruct (proj1 IH) as (x & ? & ?); [lia|eauto].
    + intros (x & [-> | Hx] & Hf); [rewrite Hf; lia|]. assert (0 < tally f l) by (apply IH; eauto). split_if; lia.
Qed.

(** A list without the first [x] of it. *)
Fixpoint remove_one {A} `{EqDecision A} (x : A) (l : list A) : option (list A) :=
  match l with
  | [] => None
  | y :: l' => if decide (x = y) then Some l' else (fun k => y :: k) <$> remove_one x l'
  end.

Lemma remove_one_perm {A} `{EqDecision A} (x : A) l k : l ≡ₚ x :: k -> exists k', remove_one x l = Some k' /\ k' ≡ₚ k.
Proof.
  revert k. induction l as [|y l IH]; intros k Hl; [by apply Permutation_nil_l in Hl|]. cbn [remove_one].
  destruct (decide (x = y)) as [<- |Hne]; [exists l; split; [done|]; by apply Permutation_cons_inv in Hl|].
  assert (x ∈ l) as (j1 & j2 & E)%list_elem_of_split.
  { assert (x ∈ y :: l) as [->|?]%elem_of_cons; [by rewrite Hl; left|done|done]. }
  destruct (IH (j1 ++ j2)) as (k' & -> & Hk); [by rewrite E, Permutation_middle|]. cbn. eexists. split; [done|].
  rewrite Hk. apply (Permutation_cons_inv (a:=x)). by rewrite <-Hl, E, perm_swap, Permutation_middle.
Qed.

(** ** Permutations by counting *)

Definition occurs {A} `{EqDecision A} (x : A) (l : list A) : Z := Z.of_nat (count_occ (fun a b => decide (a = b)) l x).

Lemma occurs_perm {A} `{EqDecision A} (l k : list A) : l ≡ₚ k <-> forall x, occurs x l = occurs x k.
Proof.
  unfold occurs. rewrite (Permutation_count_occ (fun a b => decide (a = b))). split; intros H x; [by rewrite H|by apply Nat2Z.inj].
Qed.

Lemma occurs_app {A} `{EqDecision A} (x : A) l k : occurs x (l ++ k) = occurs x l + occurs x k.
Proof. unfold occurs. rewrite count_occ_app. lia. Qed.

Lemma occurs_cons {A} `{EqDecision A} (x y : A) l : occurs x (y :: l) = (if decide (y = x) then 1 else 0) + occurs x l.
Proof. unfold occurs. cbn [count_occ]. case_decide; lia. Qed.

Lemma occurs_nil {A} `{EqDecision A} (x : A) : occurs x [] = 0.
Proof. done. Qed.

(** Permutations that follow from permutations, by the number of times an element is
    in each. *)
Ltac perm :=
  repeat match goal with H : _ ≡ₚ _ |- _ => rewrite occurs_perm in H end;
  rewrite occurs_perm;
  let z := fresh "z" in
  intros z;
  repeat match goal with H : forall x, occurs x _ = occurs x _ |- _ => specialize (H z) end;
  repeat progress rewrite ?occurs_app, ?occurs_cons, ?occurs_nil in *;
  lia.
