(* ===== verification/FdTable.v ===== *)
(** The descriptor table of port/src/okm_fd.c: descriptors, the descriptions they
    share and count, the pool of directory names, and what a description owned,
    closed after the lock is released by the context that let it go. *)
From S2P Require Import Prelude Kal.
From stdpp Require Import base list option.
From Stdlib Require Import ZArith Lia.

#[local] Open Scope Z_scope.

(** ** Data (port/src/okm.h) *)

Definition OKM_MAX_FD : Z := 1024.
Definition OKM_MAX_DESC : Z := OKM_MAX_FD.
Definition OKM_MAX_DIRS : Z := 64.
Definition OKM_DIR_PATH : Z := 512.
Definition OKM_SETTLING_MAX : Z := 32.
Definition OKM_FD_FREE : Z := -1.

Inductive okm_kind := OKM_FREE | OKM_STREAM | OKM_CHANNEL | OKM_FILE | OKM_DIR | OKM_SOCKET | OKM_NULL.

#[export] Instance okm_kind_eq_dec : EqDecision okm_kind.
Proof. solve_decision. Defined.

(** An open file description. A C string is the list of its bytes. *)
Record okm_desc := Desc {
  d_refs : Z;
  d_kind : okm_kind;
  d_flags : Z;
  d_stream : Z;
  d_file : Z;
  d_dir : Z;
  d_iter : Z;
  d_iter_open : Z;
  d_path_slot : Z;
  d_pending : Z;
  d_pending_kind : Z;
  d_pending_name : list Z;
  d_sock : Z;
  d_ahead : Z;
  d_ahead_eof : Z;
  d_ahead_byte : Z;
}.

(** What the zero-initialised table holds. *)
Definition desc_zero : okm_desc := Desc 0 OKM_FREE 0 0 0 0 0 0 0 0 0 [] 0 0 0 0.

Definition with_refs (p : okm_desc) (r : Z) : okm_desc :=
  Desc r (d_kind p) (d_flags p) (d_stream p) (d_file p) (d_dir p) (d_iter p) (d_iter_open p) (d_path_slot p)
       (d_pending p) (d_pending_kind p) (d_pending_name p) (d_sock p) (d_ahead p) (d_ahead_eof p) (d_ahead_byte p).

Definition with_path_slot (p : okm_desc) (s : Z) : okm_desc :=
  Desc (d_refs p) (d_kind p) (d_flags p) (d_stream p) (d_file p) (d_dir p) (d_iter p) (d_iter_open p) s
       (d_pending p) (d_pending_kind p) (d_pending_name p) (d_sock p) (d_ahead p) (d_ahead_eof p) (d_ahead_byte p).

Definition with_stream (p : okm_desc) (h : Z) : okm_desc :=
  Desc (d_refs p) (d_kind p) (d_flags p) h (d_file p) (d_dir p) (d_iter p) (d_iter_open p) (d_path_slot p)
       (d_pending p) (d_pending_kind p) (d_pending_name p) (d_sock p) (d_ahead p) (d_ahead_eof p) (d_ahead_byte p).

Definition with_ahead (p : okm_desc) (ahead eof byte : Z) : okm_desc :=
  Desc (d_refs p) (d_kind p) (d_flags p) (d_stream p) (d_file p) (d_dir p) (d_iter p) (d_iter_open p) (d_path_slot p)
       (d_pending p) (d_pending_kind p) (d_pending_name p) (d_sock p) ahead eof byte.

Definition with_sock (p : okm_desc) (s : Z) : okm_desc :=
  Desc (d_refs p) (d_kind p) (d_flags p) (d_stream p) (d_file p) (d_dir p) (d_iter p) (d_iter_open p) (d_path_slot p)
       (d_pending p) (d_pending_kind p) (d_pending_name p) s (d_ahead p) (d_ahead_eof p) (d_ahead_byte p).

(** What a description owns and gives back to the environment, or to the table of
    sockets, when it goes. *)
Inductive resource := R_file (h : Z) | R_dir (h : Z) | R_channel (h : Z) | R_sock (slot : Z).

#[export] Instance resource_eq_dec : EqDecision resource.
Proof. solve_decision. Defined.

(** The state the lock guards. [g_settling] holds the entries below g_settling_n;
    [g_dirlong] the names kept in memory of their own, [g_named] the bytes of
    that memory; [closed] what has been given back, the latest first. *)
Record fd_table := FdTable {
  g_desc : list okm_desc;
  g_fd : list (Z * Z);
  g_dirpath : list (list Z);
  g_dirlong : list (option (list Z));
  g_dirpath_used : list bool;
  g_named : Z;
  g_settling : list (Z * okm_desc);
  closed : list resource;
  g_std_stream : list Z;
}.

Definition with_desc (t : fd_table) l := FdTable l (g_fd t) (g_dirpath t) (g_dirlong t) (g_dirpath_used t) (g_named t) (g_settling t) (closed t) (g_std_stream t).
Definition with_fd (t : fd_table) l := FdTable (g_desc t) l (g_dirpath t) (g_dirlong t) (g_dirpath_used t) (g_named t) (g_settling t) (closed t) (g_std_stream t).
Definition with_names (t : fd_table) dp dl us nm := FdTable (g_desc t) (g_fd t) dp dl us nm (g_settling t) (closed t) (g_std_stream t).
Definition with_settling (t : fd_table) l := FdTable (g_desc t) (g_fd t) (g_dirpath t) (g_dirlong t) (g_dirpath_used t) (g_named t) l (closed t) (g_std_stream t).
Definition with_closed (t : fd_table) l := FdTable (g_desc t) (g_fd t) (g_dirpath t) (g_dirlong t) (g_dirpath_used t) (g_named t) (g_settling t) l (g_std_stream t).
Definition with_std (t : fd_table) l := FdTable (g_desc t) (g_fd t) (g_dirpath t) (g_dirlong t) (g_dirpath_used t) (g_named t) (g_settling t) (closed t) l.

(** The table before okm_table_init_memory: zero, as a C object is. *)
Definition table_zero : fd_table :=
  FdTable (replicate (Z.to_nat OKM_MAX_DESC) desc_zero) (replicate (Z.to_nat OKM_MAX_FD) (0, 0))
          (replicate (Z.to_nat OKM_MAX_DIRS) []) (replicate (Z.to_nat OKM_MAX_DIRS) None)
          (replicate (Z.to_nat OKM_MAX_DIRS) false) 0 [] [] [0; 0; 0].

(** ** Accesses *)

Definition get_desc (d : Z) : M fd_table okm_desc := try (fun t => at_ (g_desc t) d).
Definition put_desc (d : Z) (p : okm_desc) : M fd_table () :=
  put_try (fun t => with_desc t <$> set_at (g_desc t) d p).
Definition get_fd (fd : Z) : M fd_table (Z * Z) := try (fun t => at_ (g_fd t) fd).
Definition put_fd (fd : Z) (e : Z * Z) : M fd_table () :=
  put_try (fun t => with_fd t <$> set_at (g_fd t) fd e).

(** ** Operations *)

Section operations.
(** Whether kal_process_channel_close, a weak reference, is there. *)
Context (channel_close : bool).
(** OKM_CONTEXT_ID of the context that holds the lock. *)
Context (me : Z).

Definition desc_alloc : M fd_table Z :=
t ← gets id;
match scan_from (fun p => d_refs p =? 0) (g_desc t) 0 with
| Some i => p ← get_desc i; put_desc i (with_refs p 1);; mret i
| None => mret (-1)
end.

Definition path_slot_alloc : M fd_table Z :=
t ← gets id;
match scan_from negb (g_dirpath_used t) 0 with
| Some i =>
  put_try (fun t => us ← set_at (g_dirpath_used t) i true; dp ← set_at (g_dirpath t) i [];
                    Some (with_names t dp (g_dirlong t) us (g_named t)));;
  mret i
| None => mret (-1)
end.

Definition path_slot_clear (slot : Z) : M fd_table () :=
put_try (fun t =>
long ← at_ (g_dirlong t) slot;
let named := match long with Some s => g_named t - (Z.of_nat (length s) + 1) | None => g_named t end in
dl ← set_at (g_dirlong t) slot None; dp ← set_at (g_dirpath t) slot [];
Some (with_names t dp dl (g_dirpath_used t) named)).

(** The directory's whole absolute name, when it is known. *)
Definition dir_name (t : fd_table) (p : okm_desc) : option (list Z) :=
if d_path_slot p <? 0 then None
else
long ← at_ (g_dirlong t) (d_path_slot p);
match long with
| Some s => Some s
| None => s ← at_ (g_dirpath t) (d_path_slot p); match s with [] => None | _ => Some s end
end.

Definition closes (p : okm_desc) : list resource :=
match d_kind p with
| OKM_FILE => [R_file (d_file p)]
| OKM_DIR => [R_dir (d_dir p)]
| OKM_CHANNEL => if channel_close then [R_channel (d_stream p)] else []
| OKM_SOCKET => [R_sock (d_sock p)]
| _ => []
end.

Definition close_owned (p : okm_desc) : M fd_table () :=
modify (fun t => with_closed t (closes p ++ closed t)).

(** An entry that is not this context's is passed over; one that is is replaced by
the last, which is looked at next. *)
Fixpoint take_loop (fuel : nat) (i : Z) (s : list (Z * okm_desc)) : option (list okm_desc * list (Z * okm_desc)) :=
if i <? Z.of_nat (length s) then
match fuel with
| O => None
| S f =>
    e ← at_ s i;
    if negb (e.1 =? me) then take_loop f (i + 1) s
    else
      z ← at_ s (Z.of_nat (length s) - 1);
      s' ← set_at s i z;
      r ← take_loop f i (removelast s');
      Some (e.2 :: r.1, r.2)
end
else Some ([], s).

Definition take_settling : M fd_table (list okm_desc) := fun t =>
r ← take_loop (length (g_settling t)) 0 (g_settling t);
Some (r.1, with_settling t r.2).

(** okm_unlock and unlock_settling, up to the lock's release: what this context is
to close after it, which is nothing when nothing waits. *)
Definition okm_unlock : M fd_table (list okm_desc) :=
t ← gets id;
match g_settling t with
| [] => mret []
| _ => take_settling
end.

(** What a description owned: a socket's is given back at once, under the lock its
table is guarded by; the rest is kept for okm_unlock while there is room. *)
Definition settle (p : okm_desc) : M fd_table () :=
match d_kind p with
| OKM_SOCKET => close_owned p
| OKM_STREAM | OKM_FREE | OKM_NULL => mret ()
| _ =>
  t ← gets id;
  if Z.of_nat (length (g_settling t)) <? OKM_SETTLING_MAX
  then modify (fun t => with_settling t (g_settling t ++ [(me, p)]))
  else close_owned p
end.

Definition path_slot_free (slot : Z) : M fd_table () :=
path_slot_clear slot;;
put_try (fun t => us ← set_at (g_dirpath_used t) slot false;
                Some (with_names t (g_dirpath t) (g_dirlong t) us (g_named t))).

Definition desc_release (d : Z) : M fd_table () :=
if (d <? 0) || (OKM_MAX_DESC <=? d) then mret ()
else
p ← get_desc d;
let p := with_refs p (d_refs p - 1) in
put_desc d p;;
if 0 <? d_refs p then mret ()
else
  settle p;;
  when (0 <=? d_path_slot p) (path_slot_free (d_path_slot p));;
  put_desc d (Desc (d_refs p) OKM_FREE (d_flags p) (d_stream p) (d_file p) (d_dir p) 0 0 (-1)
                   0 (d_pending_kind p) (d_pending_name p) (-1) 0 0 (d_ahead_byte p)).

Definition okm_fd_alloc (t : fd_table) (from : Z) : Z :=
let from := if from <? 0 then 0 else from in
match scan_from (fun e => e.1 =? OKM_FD_FREE) (drop (Z.to_nat from) (g_fd t)) from with
| Some i => i
| None => - EMFILE
end.

Definition okm_fd_release (fd : Z) : M fd_table () :=
if (fd <? 0) || (OKM_MAX_FD <=? fd) then mret ()
else
e ← get_fd fd;
if e.1 <? 0 then mret ()
else put_fd fd (OKM_FD_FREE, 0);; desc_release e.1.

(** The description [fd] names, by its index. *)
Definition okm_desc_of (t : fd_table) (fd : Z) : option Z :=
if (fd <? 0) || (OKM_MAX_FD <=? fd) then None
else e ← at_ (g_fd t) fd; if e.1 <? 0 then None else Some e.1.

(** The description itself, where only its fields are read. *)
Definition desc_at (t : fd_table) (fd : Z) : option okm_desc := d ← okm_desc_of t fd; at_ (g_desc t) d.

Definition okm_fd_bind (fd : Z) (kind : okm_kind) (stream file dir flags : Z) : M fd_table Z :=
if (fd <? 0) || (OKM_MAX_FD <=? fd) then mret (- EBADF)
else
d ← desc_alloc;
if d <? 0 then mret (- ENFILE)
else
  p ← get_desc d;
  put_desc d (Desc (d_refs p) kind flags stream file dir 0 0 (-1) 0 (d_pending_kind p) (d_pending_name p)
                   (-1) 0 0 (d_ahead_byte p));;
  e ← get_fd fd;
  when (0 <=? e.1) (desc_release e.1);;
  put_fd fd (d, if has flags O_CLOEXEC then 1 else 0);;
  mret fd.

(** A socket's description: bound, and given its slot of okm_net.c's table. *)
Definition bind_socket (fd stream flags slot : Z) : M fd_table Z :=
r ← okm_fd_bind fd OKM_SOCKET stream 0 0 flags;
t ← gets id;
match okm_desc_of t fd with
| None => mret r
| Some d => if r <? 0 then mret r else p ← get_desc d; put_desc d (with_sock p slot);; mret r
end.

(** A copy of [fd]'s entry at [newfd], which is none or within the table. *)
Definition dup_at (fd newfd cloexec : Z) : M fd_table Z :=
if OKM_MAX_FD <=? newfd then mret (- EBADF)
else if newfd =? fd then mret newfd
else
n ← get_fd newfd;
when (0 <=? n.1) (desc_release n.1);;
e ← get_fd fd;
p ← get_desc e.1;
put_desc e.1 (with_refs p (d_refs p + 1));;
put_fd newfd (e.1, cloexec);;
mret newfd.

Definition okm_fd_dup (fd newfd cloexec : Z) : M fd_table Z :=
if (fd <? 0) || (OKM_MAX_FD <=? fd) then mret (- EBADF)
else
e ← get_fd fd;
if e.1 <? 0 then mret (- EBADF)
else if newfd <? 0 then
  t ← gets id;
  let n := okm_fd_alloc t 0 in
  if n <? 0 then mret n else dup_at fd n cloexec
else dup_at fd newfd cloexec.

Definition okm_fd_cloexec (fd : Z) (on : bool) : M fd_table Z :=
if (fd <? 0) || (OKM_MAX_FD <=? fd) then mret (- EBADF)
else
e ← get_fd fd;
if e.1 <? 0 then mret (- EBADF) else put_fd fd (e.1, if on then 1 else 0);; mret 0.

Definition okm_fd_get_cloexec (fd : Z) : M fd_table Z :=
if (fd <? 0) || (OKM_MAX_FD <=? fd) then mret (- EBADF)
else e ← get_fd fd; if e.1 <? 0 then mret (- EBADF) else mret e.2.

(** The description's slot, one found for it when it has none. *)
Definition slot_for (d : Z) (p : okm_desc) : M fd_table Z :=
if d_path_slot p <? 0 then s ← path_slot_alloc; put_desc d (with_path_slot p s);; mret s else mret (d_path_slot p).

(** [alloc] is kal_alloc's answer: whether the memory for a long name was given. *)
Definition okm_dir_remember (fd : Z) (abs : list Z) (alloc : bool) : M fd_table () :=
t ← gets id;
match okm_desc_of t fd with
| None => mret ()
| Some d =>
  p ← get_desc d;
  if negb (bool_decide (d_kind p = OKM_DIR)) then mret ()
  else
    slot ← slot_for d p;
    if slot <? 0 then mret ()
    else
      path_slot_clear slot;;
      let n := Z.of_nat (length abs) in
      if n <? OKM_DIR_PATH then
        put_try (fun t => dp ← set_at (g_dirpath t) slot abs;
                          Some (with_names t dp (g_dirlong t) (g_dirpath_used t) (g_named t)))
      else if negb alloc then mret ()
      else
        put_try (fun t => dl ← set_at (g_dirlong t) slot (Some abs);
                          Some (with_names t (g_dirpath t) dl (g_dirpath_used t) (g_named t + (n + 1))))
end.

(** [from], [n]: the descriptors that remain. *)
Fixpoint close_from (fd : Z) (n : nat) : M fd_table () :=
match n with
| O => mret ()
| S k => e ← get_fd fd; when (0 <=? e.1) (okm_fd_release fd);; close_from (fd + 1) k
end.

(** __okm_close_all_for_exec, between the lock and its release. *)
Definition okm_close_all : M fd_table () := close_from 0 (Z.to_nat OKM_MAX_FD).

Definition okm_table_init_memory : M fd_table () :=
modify (fun t => with_fd t (replicate (Z.to_nat OKM_MAX_FD) (-1, 0))).

(** [i], [o], [e] are kal_stdin's, kal_stdout's and kal_stderr's handles. *)
Definition table_init_streams (i o e : Z) : M fd_table () :=
modify (fun t => with_std t [i; o; e]);;
okm_fd_bind 0 OKM_STREAM i 0 0 O_RDONLY;;
okm_fd_bind 1 OKM_STREAM o 0 0 O_WRONLY;;
okm_fd_bind 2 OKM_STREAM e 0 0 O_WRONLY;;
mret ().

Definition okm_std_stream (t : fd_table) (fd : Z) : option Z :=
if (fd <? 0) || (2 <? fd) then Some 0 else at_ (g_std_stream t) fd.
End operations.
