(* ===== verification/FdTableOk.v ===== *)
(** The descriptor table keeps its invariant: a description's count is the number
    of descriptors that name it, what a description owns is given back exactly
    when the last of them goes, and a name slot belongs to one description. *)
From S2P Require Import Prelude Kal FdTable.
From stdpp Require Import base list option.
From Stdlib Require Import ZArith Lia.

#[local] Open Scope Z_scope.

(** ** The invariant *)

Definition owned (p : okm_desc) : list resource := closes true p.

(** What the table answers for: held by a description, waiting to be closed, or
    given back. *)
Definition held (t : fd_table) : list resource :=
  flat_map owned (g_desc t) ++ flat_map (fun e => owned e.2) (g_settling t) ++ closed t.

Definition names_of (d : Z) (e : Z * Z) : bool := e.1 =? d.

(** Descriptors and descriptions. [x] is what a description's count has over the
    descriptors that name it, in the midst of an operation; between operations
    it is zero. *)
Record counted (x : Z -> Z) (ds : list okm_desc) (fds : list (Z * Z)) : Prop := {
  ct_descs : Z.of_nat (length ds) = OKM_MAX_DESC;
  ct_fds : Z.of_nat (length fds) = OKM_MAX_FD;
  ct_refs : forall d p, at_ ds d = Some p -> d_refs p = tally (names_of d) fds + x d;
  ct_nonneg : forall d p, at_ ds d = Some p -> 0 <= d_refs p;
  ct_free : forall d p, at_ ds d = Some p -> d_refs p = 0 -> d_kind p = OKM_FREE;
  ct_range : forall fd e, at_ fds fd = Some e -> -1 <= e.1 < OKM_MAX_DESC;
}.

(** The bytes of the names kept in memory of their own. *)
Fixpoint named_bytes (l : list (option (list Z))) : Z :=
  match l with
  | [] => 0
  | Some s :: l' => Z.of_nat (length s) + 1 + named_bytes l'
  | None :: l' => named_bytes l'
  end.

(** The pool of names: a slot in use is one live description's, and a slot that is
    not is empty. *)
Record pooled (ds : list okm_desc) (dp : list (list Z)) (dl : list (option (list Z))) (us : list bool) (named : Z) : Prop := {
  pl_dp : Z.of_nat (length dp) = OKM_MAX_DIRS;
  pl_dl : Z.of_nat (length dl) = OKM_MAX_DIRS;
  pl_us : Z.of_nat (length us) = OKM_MAX_DIRS;
  pl_slot : forall d p, at_ ds d = Some p -> 0 < d_refs p -> -1 <= d_path_slot p < OKM_MAX_DIRS;
  pl_used : forall d p, at_ ds d = Some p -> 0 < d_refs p -> 0 <= d_path_slot p -> at_ us (d_path_slot p) = Some true;
  pl_owner : forall s, at_ us s = Some true -> exists d p, at_ ds d = Some p /\ 0 < d_refs p /\ d_path_slot p = s;
  pl_inj : forall d1 p1 d2 p2, at_ ds d1 = Some p1 -> at_ ds d2 = Some p2 -> 0 < d_refs p1 -> 0 < d_refs p2 ->
    0 <= d_path_slot p1 -> d_path_slot p1 = d_path_slot p2 -> d1 = d2;
  pl_empty : forall s, at_ us s = Some false -> at_ dl s = Some None /\ at_ dp s = Some [];
  pl_named : named = named_bytes dl;
}.

Record table_inv (x : Z -> Z) (t : fd_table) : Prop := {
  ti_counted : counted x (g_desc t) (g_fd t);
  ti_pooled : pooled (g_desc t) (g_dirpath t) (g_dirlong t) (g_dirpath_used t) (g_named t);
  ti_settling : Z.of_nat (length (g_settling t)) <= OKM_SETTLING_MAX;
}.

Definition even_ : Z -> Z := fun _ => 0.

(** [x] with [k] more at [d]. *)
Definition over (x : Z -> Z) (d k : Z) : Z -> Z := fun j => if j =? d then x j + k else x j.

(** ** Lists *)

Lemma flat_map_insert {A B} (f : A -> list B) l i x y :
  l !! i = Some y -> flat_map f (<[i := x]> l) ++ f y ≡ₚ flat_map f l ++ f x.
Proof.
  revert i. induction l as [|z l IH]; intros [|i] Hi; try done; cbn [insert list_insert flat_map].
  - injection Hi as ->. rewrite (Permutation_app_comm (f x)), (Permutation_app_comm (f y)).
    rewrite <-!app_assoc, (Permutation_app_comm (f x)). done.
  - change (list_insert i x l) with (<[i:=x]> l). rewrite <-!app_assoc. by rewrite IH.
Qed.

Lemma named_bytes_insert l i x y :
  l !! i = Some y ->
  named_bytes (<[i := x]> l) =
  named_bytes l - (if y is Some s then Z.of_nat (length s) + 1 else 0) + (if x is Some s then Z.of_nat (length s) + 1 else 0).
Proof.
  revert i. induction l as [|z l IH]; intros [|i] Hi; try done; cbn [insert list_insert named_bytes].
  - injection Hi as ->. destruct x, y; lia.
  - change (list_insert i x l) with (<[i:=x]> l). destruct z; rewrite IH by done; lia.
Qed.

Lemma length_insert_Z {A} (l : list A) i x : Z.of_nat (length (<[i := x]> l)) = Z.of_nat (length l).
Proof. by rewrite length_insert. Qed.

Lemma tally_elem fds d fd e : at_ fds fd = Some e -> names_of d e = true -> 0 < tally (names_of d) fds.
Proof.
  intros H Hn. apply tally_pos. exists e. split; [|done]. apply at_lookup in H. by eapply list_elem_of_lookup_2.
Qed.

(** ** Accesses at work *)

Lemma get_desc_eq t d p : at_ (g_desc t) d = Some p -> get_desc d t = Some (p, t).
Proof. unfold get_desc, try. by intros ->. Qed.

Lemma put_desc_eq t d p q : at_ (g_desc t) d = Some q -> put_desc d p t = Some ((), with_desc t (<[Z.to_nat d := p]> (g_desc t))).
Proof. intros H%at_range. unfold put_desc, put_try. by rewrite set_at_some. Qed.

Lemma get_fd_eq t fd e : at_ (g_fd t) fd = Some e -> get_fd fd t = Some (e, t).
Proof. unfold get_fd, try. by intros ->. Qed.

Lemma put_fd_eq t fd e e' : at_ (g_fd t) fd = Some e' -> put_fd fd e t = Some ((), with_fd t (<[Z.to_nat fd := e]> (g_fd t))).
Proof. intros H%at_range. unfold put_fd, put_try. by rewrite set_at_some. Qed.

Lemma clear_eq t slot long :
  at_ (g_dirlong t) slot = Some long -> length (g_dirpath t) = length (g_dirlong t) ->
  path_slot_clear slot t = Some ((), with_names t (<[Z.to_nat slot := []]> (g_dirpath t)) (<[Z.to_nat slot := None]> (g_dirlong t))
    (g_dirpath_used t) (match long with Some s => g_named t - (Z.of_nat (length s) + 1) | None => g_named t end)).
Proof.
  intros H Hl. pose proof (at_range _ _ _ H). unfold path_slot_clear, put_try. rewrite H.
  cbn [mbind option_bind]. rewrite (set_at_some (g_dirlong t)) by done. cbn [mbind option_bind].
  by rewrite (set_at_some (g_dirpath t)) by lia.
Qed.

(** ** Changes the invariant allows *)

(** A description's count moves by [k]. *)
Lemma counted_refs x ds fds d p k :
  counted x ds fds -> at_ ds d = Some p -> 0 < d_refs p + k -> d_refs p <> 0 \/ d_kind p = OKM_FREE ->
  counted (over x d k) (<[Z.to_nat d := with_refs p (d_refs p + k)]> ds) fds.
Proof.
  intros [Hd Hf Hr Hn Hfree Hrange] Hp Hk Hcase. pose proof (at_range _ _ _ Hp) as Hrng.
  constructor; try done.
  - by rewrite length_insert.
  - intros j q. rewrite at_insert by done. unfold over. split_if.
    + subst. intros [= <-]. cbn [d_refs with_refs]. rewrite (Hr _ _ Hp). lia.
    + intros H. rewrite (Hr _ _ H). lia.
  - intros j q. rewrite at_insert by done. split_if; [|by apply Hn]. intros [= <-]. cbn [d_refs with_refs]. lia.
  - intros j q. rewrite at_insert by done. split_if; [|by apply Hfree]. intros [= <-]. cbn [d_refs d_kind with_refs]. lia.
Qed.

(** A description gives up its last count. *)
Lemma counted_free x ds fds d p q :
  counted x ds fds -> at_ ds d = Some p -> d_refs p = 1 -> d_refs q = 0 -> d_kind q = OKM_FREE ->
  counted (over x d (-1)) (<[Z.to_nat d := q]> ds) fds.
Proof.
  intros [Hd Hf Hr Hn Hfree Hrange] Hp H1 H0 Hk. pose proof (at_range _ _ _ Hp) as Hrng.
  constructor; try done.
  - by rewrite length_insert.
  - intros j r. rewrite at_insert by done. unfold over. split_if.
    + subst. intros [= <-]. rewrite H0. pose proof (Hr _ _ Hp). lia.
    + intros H. rewrite (Hr _ _ H). lia.
  - intros j r. rewrite at_insert by done. split_if; [|by apply Hn]. intros [= <-]. lia.
  - intros j r. rewrite at_insert by done. split_if; [|by apply Hfree]. by intros [= <-].
Qed.

(** A free description is taken. *)
Lemma counted_new x ds fds d p q :
  counted x ds fds -> at_ ds d = Some p -> d_refs p = 0 -> d_refs q = 1 ->
  counted (over x d 1) (<[Z.to_nat d := q]> ds) fds.
Proof.
  intros [Hd Hf Hr Hn Hfree Hrange] Hp H0 H1. pose proof (at_range _ _ _ Hp) as Hrng.
  constructor; try done.
  - by rewrite length_insert.
  - intros j r. rewrite at_insert by done. unfold over. split_if.
    + subst. intros [= <-]. pose proof (Hr _ _ Hp). lia.
    + intros H. rewrite (Hr _ _ H). lia.
  - intros j r. rewrite at_insert by done. split_if; [|by apply Hn]. intros [= <-]. lia.
  - intros j r. rewrite at_insert by done. split_if; [|by apply Hfree]. intros [= <-]. lia.
Qed.

(** A live description's other fields change. *)
Lemma counted_fields x ds fds d p q :
  counted x ds fds -> at_ ds d = Some p -> d_refs q = d_refs p -> 0 < d_refs p ->
  counted x (<[Z.to_nat d := q]> ds) fds.
Proof.
  intros [Hd Hf Hr Hn Hfree Hrange] Hp Hq Hlive. pose proof (at_range _ _ _ Hp) as Hrng.
  constructor; try done.
  - by rewrite length_insert.
  - intros j r. rewrite at_insert by done. split_if; [|by apply Hr]. intros [= <-]. subst. rewrite Hq. auto.
  - intros j r. rewrite at_insert by done. split_if; [|by apply Hn]. intros [= <-]. lia.
  - intros j r. rewrite at_insert by done. split_if; [|by apply Hfree]. intros [= <-]. lia.
Qed.

(** A descriptor's entry changes. *)
Lemma counted_entry x ds fds fd e e' :
  counted x ds fds -> at_ fds fd = Some e -> -1 <= e'.1 < OKM_MAX_DESC ->
  counted (over (over x e.1 1) e'.1 (-1)) ds (<[Z.to_nat fd := e']> fds).
Proof.
  intros [Hd Hf Hr Hn Hfree Hrange] He Hr'. pose proof (at_range _ _ _ He) as Hrng.
  constructor; try done.
  - by rewrite length_insert.
  - intros j p Hp. rewrite (Hr _ _ Hp). apply at_lookup in He. rewrite (tally_insert _ _ _ _ _ He).
    unfold names_of, over. rewrite (Z.eqb_sym j e.1), (Z.eqb_sym j e'.1). split_ifs; lia.
  - intros f0 e0. rewrite at_insert by done. split_if; [|apply Hrange]. by intros [= <-].
Qed.

Lemma counted_ext x y ds fds : (forall d, 0 <= d < OKM_MAX_DESC -> x d = y d) -> counted x ds fds -> counted y ds fds.
Proof.
  intros Hxy [Hd Hf Hr Hn Hfree Hrange]. constructor; try done. intros d p Hp.
  rewrite <-Hxy; [by apply Hr|]. apply at_range in Hp. lia.
Qed.

(** ** The pool of names *)

(** A description changes and the slots that live descriptions hold do not. *)
Lemma pooled_same ds dp dl us nm d p q :
  pooled ds dp dl us nm -> at_ ds d = Some p ->
  (0 < d_refs q -> 0 < d_refs p /\ d_path_slot q = d_path_slot p \/ d_path_slot q = -1) ->
  (0 < d_refs p -> 0 <= d_path_slot p -> 0 < d_refs q /\ d_path_slot q = d_path_slot p) ->
  pooled (<[Z.to_nat d := q]> ds) dp dl us nm.
Proof.
  intros [? ? ? Hslot Hused Howner Hinj Hempty Hnm] Hp Hq Hkeep. pose proof (at_range _ _ _ Hp) as Hrng.
  assert (forall j r, at_ (<[Z.to_nat d := q]> ds) j = Some r -> 0 < d_refs r -> 0 <= d_path_slot r ->
    exists r', at_ ds j = Some r' /\ 0 < d_refs r' /\ d_path_slot r = d_path_slot r') as Hold.
  { intros j r. rewrite at_insert by done. split_if; [|eauto]. intros [= <-] H1 H2. subst.
    destruct (Hq H1) as [[? ?]|]; [eauto|lia]. }
  constructor; try done.
  - intros j r Hr Hl. destruct (decide (0 <= d_path_slot r)) as [Hs|].
    + destruct (Hold j r Hr Hl Hs) as (r' & ? & ? & ->). eauto.
    + revert Hr. rewrite at_insert by done. split_if; [|intros; eauto]. intros [= <-]. destruct (Hq Hl) as [[? ->]|]; [eauto|unfold OKM_MAX_DIRS; lia].
  - intros j r Hr Hl Hs. destruct (Hold j r Hr Hl Hs) as (r' & ? & ? & E). rewrite E in *. eauto.
  - intros s Hs. pose proof (at_range _ _ _ Hs). destruct (Howner s Hs) as (j & r & Hr & Hl & <-).
    destruct (decide (j = d)) as [->|Hne].
    + assert (r = p) as -> by congruence. destruct (Hkeep Hl ltac:(lia)) as [? E]. exists d, q.
      rewrite at_insert by done. rewrite Z.eqb_refl. auto.
    + exists j, r. rewrite at_insert by done. apply Z.eqb_neq in Hne. rewrite Hne. auto.
  - intros d1 p1 d2 p2 H1 H2 L1 L2 S1 E. destruct (Hold _ _ H1 L1 S1) as (r1 & ? & ? & E1).
    destruct (Hold _ _ H2 L2 ltac:(lia)) as (r2 & ? & ? & E2). eapply (Hinj d1 r1 d2 r2); auto; lia.
Qed.

(** A live description goes, with its slot. *)
Lemma pooled_release ds dp dl us nm d p q long :
  pooled ds dp dl us nm -> at_ ds d = Some p -> 0 < d_refs p -> d_refs q = 0 -> 0 <= d_path_slot p ->
  at_ dl (d_path_slot p) = Some long ->
  pooled (<[Z.to_nat d := q]> ds) (<[Z.to_nat (d_path_slot p) := []]> dp) (<[Z.to_nat (d_path_slot p) := None]> dl)
    (<[Z.to_nat (d_path_slot p) := false]> us)
    (match long with Some s => nm - (Z.of_nat (length s) + 1) | None => nm end).
Proof.
  intros [? ? ? Hslot Hused Howner Hinj Hempty Hnm] Hp Hlive Hq Hs Hlong. pose proof (at_range _ _ _ Hp) as Hrng.
  pose proof (Hslot _ _ Hp Hlive) as Hsr. set (s := d_path_slot p) in *.
  assert (forall j r, at_ (<[Z.to_nat d := q]> ds) j = Some r -> 0 < d_refs r -> at_ ds j = Some r /\ j <> d) as Hold.
  { intros j r. rewrite at_insert by done. split_if; [intros [= <-]; lia|auto]. }
  assert (forall j r, at_ (<[Z.to_nat d := q]> ds) j = Some r -> 0 < d_refs r -> 0 <= d_path_slot r -> d_path_slot r <> s) as Hne.
  { intros j r Hr Hl H0 E. destruct (Hold _ _ Hr Hl) as [? Hj]. apply Hj. eapply (Hinj j r d p); auto. }
  constructor; rewrite ?length_insert_Z; try done.
  - intros j r Hr Hl. destruct (Hold _ _ Hr Hl). eauto.
  - intros j r Hr Hl H0. rewrite at_insert by lia. pose proof (Hne _ _ Hr Hl H0) as E. apply Z.eqb_neq in E. rewrite E.
    destruct (Hold _ _ Hr Hl). eauto.
  - intros s'. rewrite at_insert by lia. split_if; [done|]. intros Hu. destruct (Howner _ Hu) as (j & r & Hr & Hl & E).
    exists j, r. rewrite at_insert by done. split_if; [|auto]. subst j. assert (r = p) as -> by congruence. done.
  - intros d1 p1 d2 p2 H1 H2 L1 L2. destruct (Hold _ _ H1 L1), (Hold _ _ H2 L2). by apply Hinj.
  - intros s'. rewrite !at_insert by lia. split_if; [done|]. apply Hempty.
  - subst nm. apply at_lookup in Hlong. rewrite (named_bytes_insert _ _ _ _ Hlong). destruct long; lia.
Qed.

(** A slot in use has its name changed. *)
Lemma pooled_name ds dp dl us nm s short long old :
  pooled ds dp dl us nm -> at_ us s = Some true -> at_ dl s = Some old ->
  pooled ds (<[Z.to_nat s := short]> dp) (<[Z.to_nat s := long]> dl) us
    (nm - (if old is Some n then Z.of_nat (length n) + 1 else 0) + (if long is Some n then Z.of_nat (length n) + 1 else 0)).
Proof.
  intros [? ? ? Hslot Hused Howner Hinj Hempty Hnm] Hs Hold. pose proof (at_range _ _ _ Hs).
  constructor; rewrite ?length_insert_Z; try done.
  - intros s' Hs'. rewrite !at_insert by lia. split_if; [subst; congruence|]. by apply Hempty.
  - subst nm. apply at_lookup in Hold. by rewrite (named_bytes_insert _ _ _ _ Hold).
Qed.

(** A live description without a slot is given a free one. *)
Lemma pooled_slot ds dp dl us nm d p s :
  pooled ds dp dl us nm -> at_ ds d = Some p -> 0 < d_refs p -> d_path_slot p < 0 -> at_ us s = Some false ->
  pooled (<[Z.to_nat d := with_path_slot p s]> ds) dp dl (<[Z.to_nat s := true]> us) nm.
Proof.
  intros [? ? ? Hslot Hused Howner Hinj Hempty Hnm] Hp Hlive Hno Hs. pose proof (at_range _ _ _ Hp) as Hrng.
  pose proof (at_range _ _ _ Hs) as Hsr.
  assert (forall j r, at_ ds j = Some r -> 0 < d_refs r -> 0 <= d_path_slot r -> d_path_slot r <> s) as Hne.
  { intros j r Hr Hl H0 E. specialize (Hused _ _ Hr Hl H0). congruence. }
  constructor; rewrite ?length_insert_Z; try done.
  - intros j r. rewrite at_insert by done. split_if; [|eauto]. intros [= <-] _. cbn [d_path_slot with_path_slot]. lia.
  - intros j r. rewrite at_insert by done. split_if.
    + intros [= <-] _ _. cbn [d_path_slot with_path_slot]. rewrite at_insert, Z.eqb_refl by lia. done.
    + intros Hr Hl H0. rewrite at_insert by lia. pose proof (Hne _ _ Hr Hl H0) as E. apply Z.eqb_neq in E. rewrite E. eauto.
  - intros s'. rewrite at_insert by lia. split_if.
    + subst. intros _. exists d, (with_path_slot p s). rewrite at_insert, Z.eqb_refl by done. auto.
    + intros Hu. destruct (Howner _ Hu) as (j & r & Hr & Hl & E). exists j, r. rewrite at_insert by done.
      split_if; [|auto]. subst j. assert (r = p) as -> by congruence. apply at_range in Hu. lia.
  - intros d1 p1 d2 p2. rewrite !at_insert by done. split_ifs; subst; auto.
    + intros [= <-] H2 _ L2. cbn [d_path_slot with_path_slot]. intros H0 E. subst s. exfalso. by apply (Hne _ _ H2 L2 H0).
    + intros H1 [= <-] L1 _. cbn [d_path_slot with_path_slot]. intros H0 E. exfalso. by apply (Hne _ _ H1 L1 H0).
    + eauto.
  - intros s'. rewrite at_insert by lia. split_if; [done|]. by apply Hempty.
Qed.

(** ** What waits to be closed *)

Lemma swap_last {A} (s : list A) i e z s' :
  at_ s i = Some e -> at_ s (Z.of_nat (length s) - 1) = Some z -> set_at s i z = Some s' ->
  s ≡ₚ e :: removelast s' /\ Z.of_nat (length (removelast s')) = Z.of_nat (length s) - 1 /\
  take (Z.to_nat i) (removelast s') = take (Z.to_nat i) s.
Proof.
  intros He Hz Hs. pose proof (at_range _ _ _ He) as Hi. apply set_at_inv in Hs as [_ ->].
  destruct s as [|x s0 _] using rev_ind; [cbn in Hi; lia|]. rename s0 into l.
  rewrite length_app in *. cbn [length] in *.
  apply at_lookup in Hz. replace (Z.to_nat (Z.of_nat (length l + 1) - 1)) with (length l) in Hz by lia.
  rewrite lookup_app_r, Nat.sub_diag in Hz by lia. injection Hz as ->.
  apply at_lookup in He. destruct (decide (Z.to_nat i = length l)) as [E|E].
  - rewrite E in *. rewrite lookup_app_r, Nat.sub_diag in He by lia. injection He as ->.
    rewrite insert_app_r_alt, Nat.sub_diag by lia. cbn [insert list_insert]. rewrite removelast_last.
    split; [by rewrite Permutation_app_comm|]. split; [lia|]. by rewrite take_app_length, take_ge by lia.
  - rewrite lookup_app_l in He by lia. rewrite insert_app_l by lia. rewrite removelast_last.
    split; [|split].
    + rewrite <-(take_drop_middle _ _ _ He) at 1. rewrite (insert_take_drop l) by lia.
      rewrite <-app_assoc. cbn [app]. rewrite <-Permutation_middle. constructor. apply Permutation_app_head.
      by rewrite Permutation_app_comm.
    + rewrite length_insert. lia.
    + rewrite take_insert_ge, take_app_le by lia. done.
Qed.

Lemma take_loop_ok me fuel i s :
  0 <= i <= Z.of_nat (length s) -> Z.of_nat (length s) - i <= Z.of_nat fuel ->
  Forall (fun e => e.1 <> me) (take (Z.to_nat i) s) ->
  exists mine rest, take_loop me fuel i s = Some (mine, rest) /\
    s ≡ₚ ((fun p => (me, p)) <$> mine) ++ rest /\ Forall (fun e => e.1 <> me) rest.
Proof.
  revert i s. induction fuel as [|f IH]; intros i s Hi Hf Hpre; cbn [take_loop].
  - split_if; [lia|]. exists [], s. split; [done|]. split; [done|]. by rewrite take_ge in Hpre by lia.
  - split_if; [|exists [], s; split; [done|]; split; [done|]; by rewrite take_ge in Hpre by lia].
    destruct (at_some s i ltac:(lia)) as [e He]. rewrite He. cbn [mbind option_bind]. split_if.
    + apply IH; [lia|lia|]. replace (Z.to_nat (i + 1)) with (S (Z.to_nat i)) by lia.
      rewrite (take_S_r _ _ e) by by apply at_lookup. apply Forall_app. split; [done|]. by constructor.
    + destruct (at_some s (Z.of_nat (length s) - 1) ltac:(lia)) as [z Hz]. rewrite Hz. cbn [mbind option_bind].
      pose proof (set_at_some s i z ltac:(lia)) as Es. rewrite Es. cbn [mbind option_bind].
      destruct (swap_last s i e z _ He Hz Es) as (Hp & Hl & Ht).
      destruct (IH i (removelast (<[Z.to_nat i := z]> s))) as (mine & rest & -> & Hp' & Hr); [lia|lia|by rewrite Ht|].
      cbn [mbind option_bind fst snd]. exists (e.2 :: mine), rest. split; [done|]. split; [|done].
      rewrite Hp. cbn [fmap list_fmap app]. destruct e as [o p]. cbn [fst snd] in *. subst o. by constructor.
Qed.

(** ** Releasing a description *)

Ltac monad := unfold mbind, M_bind, mret, M_ret, when, gets, modify; cbv beta iota.

(** What a description is to a program, apart from its count. *)
Definition content (p : okm_desc) : okm_desc := with_refs p 0.

Lemma owned_content p r : owned (with_refs p r) = owned p.
Proof. done. Qed.

Lemma owned_free p : d_kind p = OKM_FREE -> owned p = [].
Proof. unfold owned, closes. by intros ->. Qed.

(** The state after the count of [d], which was one, goes. *)
Section release.
Context (me : Z).

Lemma desc_release_more x t d p :
table_inv x t -> at_ (g_desc t) d = Some p -> 1 < d_refs p ->
let t' := with_desc t (<[Z.to_nat d := with_refs p (d_refs p - 1)]> (g_desc t)) in
desc_release true me d t = Some ((), t') /\ table_inv (over x d (-1)) t' /\ held t' ≡ₚ held t.
Proof.
intros [Hc Hpl Hs] Hp H1 t'. pose proof (at_range _ _ _ Hp) as Hrng. pose proof (ct_descs _ _ _ Hc) as Hlen.
split; [|split].
- unfold desc_release. split_if; [lia|].
unfold mbind, M_bind. rewrite (get_desc_eq _ _ _ Hp). rewrite (put_desc_eq _ _ _ _ Hp).
cbn [d_refs with_refs]. split_if; [done|lia].
- constructor; cbn; [by apply counted_refs; [done|done|lia|lia]| |done].
apply (pooled_same _ _ _ _ _ _ p); cbn; auto; lia.
- unfold held. cbn [g_desc g_settling closed with_desc t']. apply Permutation_app_tail.
pose proof (flat_map_insert owned _ _ (with_refs p (d_refs p - 1)) _ (at_lookup _ _ _ Hp)) as E.
rewrite owned_content in E. by apply Permutation_app_inv_r in E.
Qed.

Lemma settle_ok t p :
Z.of_nat (length (g_settling t)) <= OKM_SETTLING_MAX ->
exists s c, settle true me p t = Some ((), with_closed (with_settling t s) c) /\
Z.of_nat (length s) <= OKM_SETTLING_MAX /\ (s = g_settling t \/ s = g_settling t ++ [(me, p)]) /\
flat_map (fun e => owned e.2) s ++ c ≡ₚ owned p ++ flat_map (fun e => owned e.2) (g_settling t) ++ closed t.
Proof.
intros Hl. assert (exists s c, settle true me p t = Some ((), with_closed (with_settling t s) c) /\
((s = g_settling t /\ c = owned p ++ closed t) \/
 (s = g_settling t ++ [(me, p)] /\ c = closed t /\ Z.of_nat (length (g_settling t)) < OKM_SETTLING_MAX))) as (s & c & E & H).
{ unfold settle, close_owned, owned. monad. unfold closes.
change (id t) with t. destruct t as [ds fds dp dl us nm st cl ss]; cbn in *.
destruct (d_kind p) eqn:Ek; cbn [app]; try split_if; try (by do 2 eexists; split; [reflexivity|left]).
all: exists (st ++ [(me, p)]), cl; split; [reflexivity|by right]. }
exists s, c. split; [done|]. destruct H as [[-> ->] | (-> & -> & Hlt)].
- split; [done|]. split; [by left|]. rewrite !app_assoc. apply Permutation_app_tail. by rewrite Permutation_app_comm.
- rewrite length_app. cbn [length]. split; [lia|]. split; [by right|]. rewrite flat_map_app. cbn [flat_map snd].
rewrite app_nil_r, !app_assoc. apply Permutation_app_tail. by rewrite Permutation_app_comm.
Qed.

Lemma path_slot_free_eq t slot long :
at_ (g_dirlong t) slot = Some long -> length (g_dirpath t) = length (g_dirlong t) ->
length (g_dirpath_used t) = length (g_dirlong t) ->
path_slot_free slot t = Some ((), with_names t (<[Z.to_nat slot := []]> (g_dirpath t)) (<[Z.to_nat slot := None]> (g_dirlong t))
(<[Z.to_nat slot := false]> (g_dirpath_used t))
(match long with Some s => g_named t - (Z.of_nat (length s) + 1) | None => g_named t end)).
Proof.
intros H H1 H2. pose proof (at_range _ _ _ H). unfold path_slot_free. monad. rewrite (clear_eq _ _ _ H H1).
unfold put_try. cbn [g_dirpath_used with_names]. rewrite set_at_some by lia. done.
Qed.

Lemma desc_release_last x t d p :
table_inv x t -> at_ (g_desc t) d = Some p -> d_refs p = 1 ->
exists t' q, desc_release true me d t = Some ((), t') /\ table_inv (over x d (-1)) t' /\ held t' ≡ₚ held t /\
g_desc t' = <[Z.to_nat d := q]> (g_desc t) /\ d_refs q = 0 /\ g_fd t' = g_fd t /\ g_std_stream t' = g_std_stream t /\
(g_settling t' = g_settling t \/ exists q', g_settling t' = g_settling t ++ [(me, q')]).
Proof.
intros [Hc Hpl Hs] Hp H1. pose proof (at_range _ _ _ Hp) as Hrng. pose proof (ct_descs _ _ _ Hc) as Hlen.
set (p0 := with_refs p 0). set (t1 := with_desc t (<[Z.to_nat d := p0]> (g_desc t))).
destruct (settle_ok t1 p0 Hs) as (s & c & Es & Hsl & Hsc & Hperm).
set (t2 := with_closed (with_settling t1 s) c) in *.
set (q := Desc 0 OKM_FREE (d_flags p) (d_stream p) (d_file p) (d_dir p) 0 0 (-1) 0 (d_pending_kind p) (d_pending_name p)
             (-1) 0 0 (d_ahead_byte p)).
pose proof (pl_slot _ _ _ _ _ Hpl _ _ Hp ltac:(lia)) as Hslot. destruct Hpl as [Ldp Ldl Lus ? ? ? ? ? ?] eqn:Epl.
assert (exists dp dl us nm, when (0 <=? d_path_slot p) (path_slot_free (d_path_slot p)) t2 = Some ((), with_names t2 dp dl us nm) /\
pooled (<[Z.to_nat d := q]> (g_desc t)) dp dl us nm) as (dp & dl & us & nm & Ew & Hpl').
{ unfold when. split_if.
- destruct (at_some (g_dirlong t) (d_path_slot p) ltac:(lia)) as [long Hlong]. do 4 eexists.
  split; [apply path_slot_free_eq; cbn; [exact Hlong|lia|lia]|]. cbn. apply pooled_release; auto; lia.
- exists (g_dirpath t), (g_dirlong t), (g_dirpath_used t), (g_named t). split; [by destruct t|].
  apply (pooled_same _ _ _ _ _ _ p); auto; cbn; lia. }
exists (with_desc (with_names t2 dp dl us nm) (<[Z.to_nat d := q]> (g_desc t))), q. split_and!; try done.
- unfold desc_release. split_if; [lia|]. monad. rewrite (get_desc_eq _ _ _ Hp), (put_desc_eq _ _ _ _ Hp), H1.
change (1 - 1) with 0. fold p0. fold t1. cbn [d_refs with_refs p0]. rewrite Z.ltb_irrefl, Es.
change (d_path_slot p0) with (d_path_slot p). fold t2. unfold when in Ew. rewrite Ew.
rewrite (put_desc_eq _ _ _ p0) by (cbn; rewrite at_insert, Z.eqb_refl by done; done).
cbn. by rewrite list_insert_insert_eq.
- constructor; cbn; [by eapply counted_free|done|done].
- unfold held. cbn [g_desc g_settling closed with_desc with_names t2 with_closed with_settling t1].
rewrite Hperm. cbn [g_desc g_settling closed with_desc t1]. rewrite !app_assoc. do 2 apply Permutation_app_tail.
pose proof (flat_map_insert owned _ _ q _ (at_lookup _ _ _ Hp)) as E. rewrite (owned_free q), app_nil_r in E by done.
exact E.
- destruct Hsc as [-> | ->]; eauto.
Qed.

(** Both at once. *)
Lemma desc_release_ok x t d p :
table_inv x t -> at_ (g_desc t) d = Some p -> 0 < d_refs p ->
exists t' q, desc_release true me d t = Some ((), t') /\ table_inv (over x d (-1)) t' /\ held t' ≡ₚ held t /\
g_desc t' = <[Z.to_nat d := q]> (g_desc t) /\ d_refs q = d_refs p - 1 /\ (1 < d_refs p -> content q = content p) /\
g_fd t' = g_fd t /\ g_std_stream t' = g_std_stream t /\
(g_settling t' = g_settling t \/ exists q', g_settling t' = g_settling t ++ [(me, q')]).
Proof.
intros Ht Hp Hlive. destruct (decide (1 < d_refs p)) as [H1|H1].
- destruct (desc_release_more x t d p Ht Hp H1) as (E & Ht' & Hh). do 2 eexists. split_and!; [exact E|done|done|done|..]; eauto.
- destruct (desc_release_last x t d p Ht Hp ltac:(lia)) as (t' & q & E & Ht' & Hh & Hd & Hq & Hf & Hstd & Hs).
exists t', q. split_and!; auto; lia.
Qed.
End release.

(** ** What a program sees *)

(** The description a descriptor names, apart from its count. *)
Definition view (t : fd_table) (fd : Z) : option okm_desc :=
  d ← okm_desc_of t fd; content <$> at_ (g_desc t) d.

(** An operation on [fd] leaves every other descriptor as it was: the same
    description, with the same content. *)
Definition others_kept (fd : Z) (t t' : fd_table) : Prop :=
  forall j, j <> fd -> okm_desc_of t' j = okm_desc_of t j /\ view t' j = view t j.

Section views.
Context (t : fd_table) (Ht : table_inv even_ t).

Lemma fd_entry fd : 0 <= fd < OKM_MAX_FD -> exists e, at_ (g_fd t) fd = Some e /\ -1 <= e.1 < OKM_MAX_DESC.
Proof using Ht.
destruct Ht as [Hc _ _]. intros H. destruct (at_some (g_fd t) fd) as [e He]; [by rewrite (ct_fds _ _ _ Hc)|].
exists e. split; [done|]. by eapply ct_range.
Qed.

Lemma desc_entry d : 0 <= d < OKM_MAX_DESC -> exists p, at_ (g_desc t) d = Some p.
Proof using Ht. destruct Ht as [Hc _ _]. intros H. apply at_some. by rewrite (ct_descs _ _ _ Hc). Qed.

Lemma okm_desc_of_some fd d :
okm_desc_of t fd = Some d <-> 0 <= fd < OKM_MAX_FD /\ 0 <= d /\ exists c, at_ (g_fd t) fd = Some (d, c).
Proof using.
unfold okm_desc_of. split_if.
- split; [done|]. lia.
- destruct (at_ (g_fd t) fd) as [[d' c]|] eqn:E; cbn [mbind option_bind fst]; [|split; [done|intros (_ & _ & ? & ?); done]].
split_if.
+ split; [done|]. intros (_ & ? & ? & [= -> ->]). lia.
+ split; [intros [= ->]; split; [lia|]; split; [lia|eauto]|]. by intros (_ & _ & ? & [= -> ->]).
Qed.

Lemma named_live fd d : okm_desc_of t fd = Some d -> exists p, at_ (g_desc t) d = Some p /\ 0 < d_refs p.
Proof using Ht.
rewrite okm_desc_of_some. intros (Hfd & Hd & c & He). destruct Ht as [Hc _ _].
pose proof (ct_range _ _ _ Hc _ _ He) as Hr. cbn [fst] in Hr. destruct (desc_entry d) as [p Hp]; [lia|].
exists p. split; [done|]. rewrite (ct_refs _ _ _ Hc _ _ Hp).
pose proof (tally_elem _ d _ _ He ltac:(unfold names_of; cbn; lia)). unfold even_. lia.
Qed.

Lemma named_twice fd j d p : fd <> j -> okm_desc_of t fd = Some d -> okm_desc_of t j = Some d ->
at_ (g_desc t) d = Some p -> 1 < d_refs p.
Proof using Ht.
rewrite !okm_desc_of_some. intros Hne (Hfd & Hd & c & He) (Hj & _ & c' & He') Hp. destruct Ht as [Hc _ _].
rewrite (ct_refs _ _ _ Hc _ _ Hp). unfold even_.
pose proof (tally_insert (names_of d) _ _ (-1, 0) _ (at_lookup _ _ _ He)) as E.
assert (0 < tally (names_of d) (<[Z.to_nat fd := (-1, 0)]> (g_fd t))) as H0.
{ eapply (tally_elem _ d j (d, c')); [|unfold names_of; cbn; lia]. rewrite at_insert by (by apply at_range in He).
split_if; [lia|done]. }
rewrite E in H0. unfold names_of in E, H0 |- *. cbn [fst] in *. rewrite Z.eqb_refl in *.
replace (-1 =? d) with false in * by lia. lia.
Qed.
End views.

(** ** The operations *)

(** Between operations. *)
Definition table_ok (t : fd_table) : Prop := table_inv even_ t.

Section operations.
Context (me : Z).

Lemma fd_release_ok t fd : table_ok t ->
exists t', okm_fd_release true me fd t = Some ((), t') /\ table_ok t' /\ held t' ≡ₚ held t /\
okm_desc_of t' fd = None /\ others_kept fd t t' /\ g_std_stream t' = g_std_stream t /\
(g_settling t' = g_settling t \/ exists q', g_settling t' = g_settling t ++ [(me, q')]).
Proof.
intros Ht. unfold okm_fd_release. split_if.
{ exists t. unfold okm_desc_of. split_and!; auto; [by split_if; [|lia]|done]. }
destruct (fd_entry t Ht fd ltac:(lia)) as ([d c] & He & Hd). cbn [fst] in Hd. monad. rewrite (get_fd_eq _ _ _ He). cbn [fst].
split_if.
{ exists t. unfold okm_desc_of. rewrite He. cbn [mbind option_bind fst]. split_and!; auto; [|done]. by split_ifs; try lia. }
rewrite (put_fd_eq _ _ _ _ He). set (t1 := with_fd t _).
assert (okm_desc_of t fd = Some d) as Hfd by (apply okm_desc_of_some; split_and!; [lia|lia|lia|eauto]).
destruct (named_live t Ht fd d Hfd) as (p & Hp & Hlive). pose proof (at_range _ _ _ He) as Her.
assert (table_inv (over even_ d 1) t1) as Ht1.
{ destruct Ht as [Hc Hpl Hs]. constructor; cbn; [|done|done].
eapply counted_ext; [|eapply (counted_entry _ _ _ fd (d, c) (OKM_FD_FREE, 0)); [done|done|unfold OKM_FD_FREE; cbn; unfold OKM_MAX_DESC, OKM_MAX_FD; lia]].
intros j Hj. unfold over, even_, OKM_FD_FREE. cbn [fst]. split_ifs; lia. }
destruct (desc_release_ok me _ t1 d p Ht1 Hp Hlive) as (t' & q & E & Ht' & Hh & Hds & Hq & Hqc & Hf & Hstd & Hs).
exists t'. split_and!; auto.
- destruct Ht' as [Hc Hpl Hs']. constructor; [|done|done]. eapply counted_ext; [|done]. intros j Hj. unfold over, even_. split_ifs; lia.
- unfold okm_desc_of. rewrite Hf. cbn [g_fd with_fd t1]. rewrite at_insert, Z.eqb_refl by done. by split_if.
- intros j Hj. assert (okm_desc_of t' j = okm_desc_of t j) as Eo.
{ unfold okm_desc_of. rewrite Hf. cbn [g_fd with_fd t1]. rewrite at_insert by done. apply Z.eqb_neq in Hj. by rewrite Hj. }
split; [done|]. unfold view. rewrite Eo. destruct (okm_desc_of t j) as [d'|] eqn:Ej; cbn [mbind option_bind]; [|done].
rewrite Hds. cbn [g_desc with_fd t1]. rewrite at_insert by (by apply at_range in Hp). split_if; [|done]. subst d'.
rewrite Hp. cbn. f_equal. apply Hqc. by apply (named_twice t Ht fd j d p).
Qed.

(** The description a bind makes. [pk], [pn] and [ab] are what the slot last held,
behind the marks that say it holds nothing. *)
Definition bound (kind : okm_kind) (stream file dir flags pk : Z) (pn : list Z) (ab : Z) : okm_desc :=
Desc 1 kind flags stream file dir 0 0 (-1) 0 pk pn (-1) 0 0 ab.

(** A bind has room: some description is free. *)
Definition room (t : fd_table) : Prop := exists d p, at_ (g_desc t) d = Some p /\ d_refs p = 0.

Lemma fd_bind_full t fd kind stream file dir flags :
table_ok t -> 0 <= fd < OKM_MAX_FD -> ~ room t ->
okm_fd_bind true me fd kind stream file dir flags t = Some (- ENFILE, t).
Proof.
intros Ht Hfd Hno. unfold okm_fd_bind. split_if; [lia|]. unfold desc_alloc. monad. change (id t) with t.
destruct (scan_from _ _ 0) as [d|] eqn:E; [|done]. exfalso. apply Hno.
apply scan_from_some in E as (_ & (p & Hp & Hz) & _). rewrite Z.sub_0_r in Hp. exists d, p. split; [done|lia].
Qed.

(** What the descriptor [fd] of [t] names, if anything, is released in a table [t1] that
    has every description [t] names. *)
Lemma displace x t t1 fd d1 c1 : table_ok t -> table_inv x t1 -> at_ (g_fd t) fd = Some (d1, c1) -> 0 <= fd < OKM_MAX_FD ->
(forall j d', okm_desc_of t j = Some d' -> at_ (g_desc t1) d' = at_ (g_desc t) d') ->
exists t2, when (0 <=? d1) (desc_release true me d1) t1 = Some ((), t2) /\ table_inv (over x d1 (if 0 <=? d1 then -1 else 0)) t2 /\ held t2 ≡ₚ held t1 /\
g_fd t2 = g_fd t1 /\ g_std_stream t2 = g_std_stream t1 /\ (forall d', okm_desc_of t fd <> Some d' -> at_ (g_desc t2) d' = at_ (g_desc t1) d') /\
(forall j d', j <> fd -> okm_desc_of t j = Some d' -> exists p p2, at_ (g_desc t) d' = Some p /\ at_ (g_desc t2) d' = Some p2 /\ content p2 = content p /\ 0 < d_refs p2) /\
(g_settling t2 = g_settling t1 \/ exists q', g_settling t2 = g_settling t1 ++ [(me, q')]).
Proof.
intros Ht Ht1 He Hfd Hsame. unfold when. split_if.
- assert (okm_desc_of t fd = Some d1) as Hof by (apply okm_desc_of_some; split_and!; [lia|lia|lia|eauto]).
  destruct (named_live t Ht fd d1 Hof) as (p1 & Hp1 & Hl1). assert (at_ (g_desc t1) d1 = Some p1) as Hp1' by (by rewrite (Hsame fd)).
  destruct (desc_release_ok me _ t1 d1 p1 Ht1 Hp1' Hl1) as (t2 & q1 & E & Ht2 & Hh2 & Hds & Hq & Hqc & Hf & Hstd & Hs'). pose proof (at_range _ _ _ Hp1') as Hr.
  exists t2. split_and!; auto.
  + intros d' Hne. rewrite Hds, at_insert by done. split_if; [congruence|done].
  + intros j d' Hj Hj'. destruct (named_live t Ht j d' Hj') as (p' & Hp' & Hl'). exists p'. rewrite Hds, at_insert by done. split_if; [|exists p'; rewrite (Hsame j) by done; by split_and!].
    subst d'. rewrite Hp1 in Hp'. injection Hp' as <-. pose proof (named_twice t Ht fd j d1 p1 (not_eq_sym Hj) Hof Hj' Hp1). exists q1. split_and!; auto. lia.
- exists t1. split_and!; auto.
  + destruct Ht1 as [Hc1 ? ?]. constructor; auto. eapply counted_ext; [|done]. intros j Hj. unfold over. split_ifs; lia.
  + intros j d' Hj Hj'. destruct (named_live t Ht j d' Hj') as (p' & Hp' & Hl'). exists p', p'. rewrite (Hsame j) by done. by split_and!.
Qed.

Lemma fd_bind_ok t fd kind stream file dir flags :
table_ok t -> 0 <= fd < OKM_MAX_FD -> room t ->
exists t' d pk pn ab, let p := bound kind stream file dir flags pk pn ab in
okm_fd_bind true me fd kind stream file dir flags t = Some (fd, t') /\ table_ok t' /\
held t' ≡ₚ owned p ++ held t /\ g_std_stream t' = g_std_stream t /\
okm_desc_of t' fd = Some d /\ at_ (g_desc t') d = Some p /\ at_ (g_fd t') fd = Some (d, if has flags O_CLOEXEC then 1 else 0) /\
(forall j, okm_desc_of t j <> Some d) /\ others_kept fd t t' /\
(g_settling t' = g_settling t \/ exists q', g_settling t' = g_settling t ++ [(me, q')]).
Proof.
intros Ht Hfd (d0 & p0 & Hp0 & H00). pose proof Ht as [Hc Hpl Hs].
destruct (scan_from (fun p => d_refs p =? 0) (g_desc t) 0) as [d|] eqn:Escan.
2: { apply scan_from_none in Escan. rewrite Forall_lookup in Escan. apply at_lookup in Hp0. specialize (Escan _ _ Hp0). lia. }
apply scan_from_some in Escan as Hsc. destruct Hsc as (Hd & (p & Hp & H0) & _). rewrite Z.sub_0_r in Hp. apply Z.eqb_eq in H0.
pose proof (at_range _ _ _ Hp) as Hrng.
set (q := bound kind stream file dir flags (d_pending_kind p) (d_pending_name p) (d_ahead_byte p)).
set (t1 := with_desc t (<[Z.to_nat d := q]> (g_desc t))).
assert (table_inv (over even_ d 1) t1) as Ht1.
{ constructor; cbn; [by eapply counted_new| |done]. apply (pooled_same _ _ _ _ _ _ p); auto; cbn; lia. }
assert (held t1 ≡ₚ owned q ++ held t) as Hh1.
{ unfold held. cbn [g_desc g_settling closed with_desc t1]. rewrite (app_assoc (owned q)). apply Permutation_app_tail.
pose proof (flat_map_insert owned _ _ q _ (at_lookup _ _ _ Hp)) as E.
rewrite (owned_free p), app_nil_r in E by (by eapply ct_free). by rewrite E, Permutation_app_comm. }
assert (forall j, okm_desc_of t j <> Some d) as Hfresh.
{ intros j Hj. destruct (named_live t Ht j d Hj) as (p' & Hp' & Hl). rewrite Hp in Hp'. injection Hp' as <-. lia. }
destruct (fd_entry t Ht fd Hfd) as ([d1 c1] & He & Hd1). cbn [fst] in Hd1. pose proof (at_range _ _ _ He) as Her.
assert (forall d', d' <> d -> at_ (g_desc t1) d' = at_ (g_desc t) d') as Hd'.
{ intros d' Hne. cbn [g_desc with_desc t1]. rewrite at_insert by done. apply Z.eqb_neq in Hne. by rewrite Hne. }
destruct (displace _ t t1 fd d1 c1 Ht Ht1 He Hfd) as (t2 & E2 & Ht2 & Hh2 & Hf2 & Hstd2 & Hq2 & Hkeep & Hs2); [intros j d' Hj; apply Hd'; intros ->; by apply (Hfresh j)|].
specialize (Hq2 d (Hfresh fd)). cbn [g_desc with_desc t1] in Hq2. rewrite at_insert, Z.eqb_refl in Hq2 by done.
set (t' := with_fd t2 (<[Z.to_nat fd := (d, if has flags O_CLOEXEC then 1 else 0)]> (g_fd t2))).
exists t', d, (d_pending_kind p), (d_pending_name p), (d_ahead_byte p). cbv zeta. fold q.
assert (forall j, j <> fd -> okm_desc_of t' j = okm_desc_of t j) as Hoj.
{ intros j Hj. unfold okm_desc_of. cbn [g_fd with_fd t']. rewrite Hf2, at_insert by done. apply Z.eqb_neq in Hj. by rewrite Hj. }
split_and!; auto.
- unfold okm_fd_bind. split_if; [lia|]. unfold desc_alloc. monad. change (id t) with t. rewrite Escan.
rewrite (get_desc_eq _ _ _ Hp), (put_desc_eq _ _ _ _ Hp). split_if; [lia|].
rewrite (get_desc_eq _ _ (with_refs p 1)) by (cbn; by rewrite at_insert, Z.eqb_refl by done).
erewrite put_desc_eq by (cbn; by rewrite at_insert, Z.eqb_refl by done).
cbn [g_desc with_desc]. rewrite list_insert_insert_eq.
change (with_desc _ _) with t1. rewrite (get_fd_eq t1 _ _ He). cbn [fst]. unfold when in E2. rewrite E2.
rewrite (put_fd_eq t2 fd _ (d1, c1)) by (by rewrite Hf2). done.
- destruct Ht2 as [Hc2 Hpl2 Hsl2]. constructor; [|done|done]. cbn [g_desc g_fd with_fd t'].
eapply counted_ext; [|eapply (counted_entry _ _ _ fd (d1, c1)); [exact Hc2|by rewrite Hf2|cbn [fst]; rewrite <-(ct_descs _ _ _ Hc); lia]].
intros j Hj. unfold over, even_. cbn [fst]. split_ifs; lia.
- unfold t'. transitivity (held t2); [done|]. by rewrite Hh2.
- apply okm_desc_of_some. split_and!; [lia|lia|lia|]. cbn [g_fd with_fd t']. rewrite Hf2, at_insert, Z.eqb_refl by done. eauto.
- cbn [g_fd with_fd t']. by rewrite Hf2, at_insert, Z.eqb_refl by done.
- intros j Hj. split; [by apply Hoj|]. unfold view. rewrite Hoj by done. destruct (okm_desc_of t j) as [d'|] eqn:Ej; [|done].
cbn [mbind option_bind]. destruct (Hkeep j d' Hj Ej) as (? & ? & Ep & Ep2 & Hcp & _). cbn [g_desc with_fd t']. rewrite Ep, Ep2. cbn. by rewrite Hcp.
Qed.
End operations.
