(* ===== verification/FdTheorems.v ===== *)
(** What the descriptor table promises: the operations of port/src/okm_fd.c on
    descriptors, as a program sees them, and the closing of what they own across
    contexts that take the lock in turn. *)
From S2P Require Import Prelude Kal FdTable FdTableOk.
From stdpp Require Import base list option.
From Stdlib Require Import ZArith Lia.

#[local] Open Scope Z_scope.

Section operations.
Context (me : Z).

(** What an operation under the lock leaves for okm_unlock. *)
Definition settles (t t' : fd_table) : Prop := exists l, g_settling t' = g_settling t ++ ((fun p => (me, p)) <$> l).

Lemma settles_of t t' : g_settling t' = g_settling t \/ (exists q, g_settling t' = g_settling t ++ [(me, q)]) -> settles t t'.
Proof. unfold settles. intros [-> | [q ->]]; [exists []; by rewrite app_nil_r|by exists [q]]. Qed.

Lemma settles_refl t : settles t t.
Proof. exists []. by rewrite app_nil_r. Qed.

Lemma settles_same t t' : g_settling t' = g_settling t -> settles t t'.
Proof. intros E. apply settles_of. by left. Qed.

Lemma settles_trans t1 t2 t3 : settles t1 t2 -> settles t2 t3 -> settles t1 t3.
Proof. intros [l E1] [l' E2]. exists (l ++ l'). by rewrite E2, E1, fmap_app, app_assoc. Qed.

(** A change to [t] that keeps the invariant and what the table answers for. *)
Definition kept (t t' : fd_table) : Prop := table_ok t' /\ held t' ≡ₚ held t /\ g_std_stream t' = g_std_stream t /\ settles t t'.

Lemma kept_refl t : table_ok t -> kept t t.
Proof. intros. split_and!; auto using settles_refl. Qed.

Lemma kept_trans t1 t2 t3 : kept t1 t2 -> kept t2 t3 -> kept t1 t3.
Proof. intros (?&H1&S1&?) (?&H2&S2&?). split_and!; [done|by rewrite H2|by rewrite S2|by eapply settles_trans]. Qed.

Lemma release_kept t fd : table_ok t ->
exists t', okm_fd_release true me fd t = Some ((), t') /\ kept t t' /\ okm_desc_of t' fd = None /\ others_kept fd t t'.
Proof.
intros Ht. destruct (fd_release_ok me t fd Ht) as (t' & E & ? & ? & ? & ? & ? & ?).
exists t'. split_and!; auto. split_and!; auto using settles_of.
Qed.

Lemma dup_at_ok t fd newfd cloexec d :
table_ok t -> okm_desc_of t fd = Some d -> newfd <> fd -> 0 <= newfd < OKM_MAX_FD ->
exists t', dup_at true me fd newfd cloexec t = Some (newfd, t') /\ kept t t' /\
okm_desc_of t' newfd = Some d /\ view t' newfd = view t fd /\ at_ (g_fd t') newfd = Some (d, cloexec) /\ others_kept newfd t t'.
Proof.
intros Ht Hof Hne Hn. pose proof Ht as [Hc Hpl Hs]. destruct (named_live t Ht fd d Hof) as (p & Hp & Hlive).
pose proof Hof as (Hfd & Hd & c & He)%okm_desc_of_some.
destruct (fd_entry t Ht newfd Hn) as ([d1 c1] & He1 & Hd1). cbn [fst] in Hd1. pose proof (at_range _ _ _ He1) as Her.
destruct (displace me even_ t t newfd d1 c1 Ht Ht He1 Hn) as (t2 & E2 & Ht2 & Hh2 & Hf2 & Hstd2 & _ & Hkeep & Hs2%settles_of); [done|].
destruct (Hkeep fd d (not_eq_sym Hne) Hof) as (p' & p2 & Hp' & Hp2 & Hcp & Hl2). rewrite Hp in Hp'. injection Hp' as <-.
set (q := with_refs p2 (d_refs p2 + 1)).
set (t3 := with_desc t2 (<[Z.to_nat d := q]> (g_desc t2))).
set (t' := with_fd t3 (<[Z.to_nat newfd := (d, cloexec)]> (g_fd t3))).
pose proof (at_range _ _ _ Hp2) as Hrng2. exists t'.
assert (forall j, j <> newfd -> okm_desc_of t' j = okm_desc_of t j) as Hoj.
{ intros j Hj. unfold okm_desc_of. cbn [g_fd with_fd t' t3 with_desc]. rewrite Hf2, at_insert by done. apply Z.eqb_neq in Hj. by rewrite Hj. }
assert (okm_desc_of t' newfd = Some d) as Hnew.
{ apply okm_desc_of_some. split_and!; [lia|lia|lia|]. cbn [g_fd with_fd t' t3 with_desc]. rewrite Hf2, at_insert, Z.eqb_refl by done. eauto. }
split_and!; auto.
- unfold dup_at. split_if; [lia|]. split_if; [lia|]. monad. rewrite (get_fd_eq _ _ _ He1). cbn [fst]. unfold when in E2. rewrite E2.
rewrite (get_fd_eq t2 fd (d, c)) by (by rewrite Hf2). cbn [fst]. rewrite (get_desc_eq t2 d p2) by done.
rewrite (put_desc_eq t2 d _ p2) by done. fold q t3. rewrite (put_fd_eq t3 newfd _ (d1, c1)) by (cbn; by rewrite Hf2). done.
- destruct Ht2 as [Hc2 Hpl2 Hsl2]. split_and!; auto.
+ constructor; cbn [g_desc g_fd g_dirpath g_dirlong g_dirpath_used g_named g_settling with_fd t' t3 with_desc]; [| |done].
  * eapply counted_ext; [|eapply (counted_entry _ _ _ newfd (d1, c1)); [eapply (counted_refs _ _ _ d p2 1); [exact Hc2|done|lia|lia]|by rewrite Hf2|
      cbn [fst]; rewrite <-(ct_descs _ _ _ Hc2); lia]].
    intros j Hj. unfold over, even_. cbn [fst]. split_ifs; lia.
  * apply (pooled_same _ _ _ _ _ _ p2); auto; cbn; lia.
+ rewrite <-Hh2. unfold held. cbn [g_desc g_settling closed with_fd t' t3 with_desc]. apply Permutation_app_tail.
  pose proof (flat_map_insert owned _ _ q _ (at_lookup _ _ _ Hp2)) as E. unfold q in E at 2. rewrite owned_content in E.
  by apply Permutation_app_inv_r in E.
- unfold view. rewrite Hnew, Hof. cbn [mbind option_bind g_desc with_fd t' t3 with_desc]. rewrite at_insert, Z.eqb_refl by done.
rewrite Hp. cbn. by rewrite <-Hcp.
- cbn [g_fd with_fd t' t3 with_desc]. by rewrite Hf2, at_insert, Z.eqb_refl by done.
- intros j Hj. split; [by apply Hoj|]. unfold view. rewrite Hoj by done. destruct (okm_desc_of t j) as [d'|] eqn:Ej; [|done].
cbn [mbind option_bind]. destruct (Hkeep j d' Hj Ej) as (p0 & p3 & Ep & Ep3 & Hcp0 & _). cbn [g_desc with_fd t' t3 with_desc]. rewrite at_insert by done.
split_if; [|rewrite Ep, Ep3; cbn; by rewrite Hcp0]. subst d'. rewrite Hp. cbn. by rewrite <-Hcp.
Qed.

(** ** Directory names *)

Lemma dir_name_frame t t' p :
d_path_slot p < 0 \/ (at_ (g_dirlong t') (d_path_slot p) = at_ (g_dirlong t) (d_path_slot p) /\
                    at_ (g_dirpath t') (d_path_slot p) = at_ (g_dirpath t) (d_path_slot p)) ->
dir_name t' p = dir_name t p.
Proof. unfold dir_name. intros [H|[-> ->]]; [by split_if; [|lia]|done]. Qed.

(** The description as it was but for its slot; its name is [n]. *)
Definition renamed (t t' : fd_table) (d : Z) (p : okm_desc) (n : option (list Z)) : Prop :=
exists s, g_desc t' = <[Z.to_nat d := with_path_slot p s]> (g_desc t) /\ dir_name t' (with_path_slot p s) = n.

(** Every other live description keeps its name. *)
Definition names_kept (d : Z) (t t' : fd_table) : Prop :=
forall d' p', d' <> d -> at_ (g_desc t) d' = Some p' -> 0 < d_refs p' -> dir_name t' p' = dir_name t p'.

Lemma held_slot t d p s :
at_ (g_desc t) d = Some p -> flat_map owned (<[Z.to_nat d := with_path_slot p s]> (g_desc t)) ≡ₚ flat_map owned (g_desc t).
Proof.
intros Hp. pose proof (flat_map_insert owned _ _ (with_path_slot p s) _ (at_lookup _ _ _ Hp)) as E.
change (owned (with_path_slot p s)) with (owned p) in E. by apply Permutation_app_inv_r in E.
Qed.

Lemma slot_for_ok t d p :
table_ok t -> at_ (g_desc t) d = Some p -> 0 < d_refs p ->
exists s t', slot_for d p t = Some (s, t') /\ kept t t' /\ g_fd t' = g_fd t /\ names_kept d t t' /\
g_desc t' = <[Z.to_nat d := with_path_slot p s]> (g_desc t) /\
(s = -1 /\ dir_name t' (with_path_slot p s) = None \/ 0 <= s < OKM_MAX_DIRS /\ at_ (g_dirpath_used t') s = Some true) /\
((exists s', at_ (g_dirpath_used t) s' = Some false) \/ 0 <= d_path_slot p -> 0 <= s).
Proof.
intros Ht Hp Hl. pose proof Ht as [Hc Hpl Hs]. pose proof Hpl as [Ldp Ldl Lus Hslot Hused _ _ Hempty _].
pose proof (Hslot _ _ Hp Hl) as Hsr. pose proof (at_range _ _ _ Hp) as Hrng.
unfold slot_for. split_if.
2: { exists (d_path_slot p), t. assert (<[Z.to_nat d := with_path_slot p (d_path_slot p)]> (g_desc t) = g_desc t) as E.
   { apply list_insert_id. replace (with_path_slot p (d_path_slot p)) with p by (by destruct p). by apply at_lookup. }
   split_and!; auto using kept_refl; [by intros ? ? _ _ _|]. right. split; [lia|]. eauto. }
unfold path_slot_alloc. monad. change (id t) with t. destruct (scan_from negb (g_dirpath_used t) 0) as [s|] eqn:Escan.
- apply scan_from_some in Escan as (Hsr' & (b & Hb & Hb') & _). rewrite Z.sub_0_r in Hb. destruct b; [done|]. clear Hb'.
exists s. destruct (Hempty s Hb) as [Hdl Hdp]. unfold put_try. rewrite !set_at_some by lia.
cbn [mbind option_bind fmap option_fmap option_map].
erewrite put_desc_eq by exact Hp. eexists. split; [done|].
assert (<[Z.to_nat s := []]> (g_dirpath t) = g_dirpath t) as E by (apply list_insert_id; by apply at_lookup).
rewrite E. split_and!; auto.
+ split_and!; auto using settles_refl.
  * constructor; [|by apply pooled_slot|done]. apply (counted_fields _ _ _ d p); auto.
  * unfold held. cbn. by rewrite held_slot.
  * by apply settles_same.
+ by intros d' p' _ _ _.
+ right. split; [lia|]. cbn. by rewrite at_insert, Z.eqb_refl by lia.
+ lia.
- exists (-1). erewrite put_desc_eq by exact Hp. eexists. split; [done|]. split_and!; auto.
+ split_and!; auto using settles_refl.
  * constructor; [|apply (pooled_same _ _ _ _ _ _ p); cbn; auto; lia|done]. apply (counted_fields _ _ _ d p); auto.
  * unfold held. cbn. by rewrite held_slot.
  * by apply settles_same.
+ by intros d' p' _ _ _.
+ apply scan_from_none in Escan. rewrite Forall_lookup in Escan. intros [[s' Hs']|]; [|lia].
  apply at_lookup in Hs'. by specialize (Escan _ _ Hs').
Qed.

(** A slot's name set to [short], or to [long] in memory of its own. *)
Lemma name_set_ok t d p short long old :
table_ok t -> at_ (g_desc t) d = Some p -> 0 < d_refs p -> 0 <= d_path_slot p -> at_ (g_dirlong t) (d_path_slot p) = Some old ->
let s := d_path_slot p in
let t' := with_names t (<[Z.to_nat s := short]> (g_dirpath t)) (<[Z.to_nat s := long]> (g_dirlong t)) (g_dirpath_used t)
(g_named t - (if old is Some n then Z.of_nat (length n) + 1 else 0) + (if long is Some n then Z.of_nat (length n) + 1 else 0)) in
kept t t' /\ names_kept d t t' /\
dir_name t' p = match long with Some n => Some n | None => match short with [] => None | _ => Some short end end.
Proof.
intros Ht Hp Hl H0 Hold s t'. pose proof Ht as [Hc Hpl Hs]. pose proof Hpl as [Ldp Ldl Lus Hslot Hused _ Hinj _ _].
pose proof (Hused _ _ Hp Hl H0) as Hu. pose proof (at_range _ _ _ Hu) as Hsr.
split; [|split].
- split_and!; auto using settles_same. constructor; [done| |done]. cbn. by apply pooled_name.
- intros d' p' Hne Hp' Hl'. apply dir_name_frame. destruct (decide (d_path_slot p' < 0)); [by left|right].
assert (d_path_slot p' <> s) as E by (intros E; apply Hne; by apply (Hinj d' p' d p); auto; lia).
apply Z.eqb_neq in E. cbn. by rewrite !at_insert, E by lia.
- unfold dir_name. split_if; [lia|]. cbn [g_dirlong g_dirpath with_names t']. fold s. rewrite !at_insert, !Z.eqb_refl by lia.
cbn [mbind option_bind]. by destruct long.
Qed.

(* Both sides are the same table once the sums of bytes are. *)
Ltac same_table old :=
lazymatch goal with
| K : kept _ ?t' |- Some ((), ?a) = _ =>
  transitivity (Some ((), t')); [unfold with_names; cbn; do 3 f_equal; destruct old; cbn; lia|reflexivity]
end.

Lemma remember_ok t fd abs alloc d p :
table_ok t -> okm_desc_of t fd = Some d -> at_ (g_desc t) d = Some p -> d_kind p = OKM_DIR ->
exists s t', okm_dir_remember fd abs alloc t = Some ((), t') /\ kept t t' /\ g_fd t' = g_fd t /\ names_kept d t t' /\
g_desc t' = <[Z.to_nat d := with_path_slot p s]> (g_desc t) /\
(dir_name t' (with_path_slot p s) = Some abs \/ dir_name t' (with_path_slot p s) = None) /\
((exists s', at_ (g_dirpath_used t) s' = Some false) \/ 0 <= d_path_slot p -> abs <> [] ->
 Z.of_nat (length abs) < OKM_DIR_PATH \/ alloc = true -> dir_name t' (with_path_slot p s) = Some abs).
Proof.
intros Ht Hof Hp Hk. destruct (named_live t Ht fd d Hof) as (p_ & Hp_ & Hl). rewrite Hp in Hp_. injection Hp_ as <-.
destruct (slot_for_ok t d p Ht Hp Hl) as (s & t1 & E1 & Hk1 & Hf1 & Hn1 & Hd1 & Hs1 & Hroom).
exists s. unfold okm_dir_remember. monad. change (id t) with t. rewrite Hof, (get_desc_eq _ _ _ Hp), Hk.
rewrite bool_decide_eq_true_2 by done. cbn [negb]. rewrite E1. pose proof (at_range _ _ _ Hp) as Hrng.
assert (at_ (g_desc t1) d = Some (with_path_slot p s)) as Hp1 by (rewrite Hd1; by rewrite at_insert, Z.eqb_refl by done).
split_if.
{ exists t1. split_and!; auto; [destruct Hs1 as [[-> ?]|]; [by right|lia]|]. intros Hr. specialize (Hroom Hr). lia. }
destruct Hs1 as [[-> _]|[Hsr Hu]]; [lia|]. pose proof Hk1 as (Ht1 & Hh1 & Hst1 & Hse1). pose proof Ht1 as [_ Hpl1 _].
destruct (at_some (g_dirlong t1) s) as [old Hold]; [rewrite (pl_dl _ _ _ _ _ Hpl1); lia|].
rewrite (clear_eq t1 s old) by (done || (pose proof (pl_dl _ _ _ _ _ Hpl1); pose proof (pl_dp _ _ _ _ _ Hpl1); lia)).
assert (forall short long, let t' := with_names t1 (<[Z.to_nat s := short]> (g_dirpath t1)) (<[Z.to_nat s := long]> (g_dirlong t1)) (g_dirpath_used t1)
(g_named t1 - (if old is Some n then Z.of_nat (length n) + 1 else 0) + (if long is Some n then Z.of_nat (length n) + 1 else 0)) in
kept t t' /\ names_kept d t t' /\
dir_name t' (with_path_slot p s) = match long with Some n => Some n | None => match short with [] => None | _ => Some short end end) as Hset.
{ intros short long. cbv zeta. destruct (name_set_ok t1 d (with_path_slot p s) short long old Ht1 Hp1) as (K & N & D); cbn; [done|lia|done|].
cbn [d_path_slot with_path_slot] in K, N, D. split_and!; [by eapply kept_trans| |done].
intros d' p' Hne Hp' Hl'. rewrite <-(Hn1 d' p' Hne Hp' Hl'). apply (N d'); auto. rewrite Hd1, at_insert by done.
apply Z.eqb_neq in Hne. by rewrite Hne. }
pose proof (pl_dl _ _ _ _ _ Hpl1). pose proof (pl_dp _ _ _ _ _ Hpl1). unfold put_try.
split_if; [|destruct alloc; cbn [negb]].
- destruct (Hset abs None) as (K & N & D). cbn [g_dirpath with_names]. rewrite set_at_some by (rewrite length_insert; lia).
cbn [mbind option_bind fmap option_fmap option_map]. rewrite list_insert_insert_eq. eexists. split; [same_table old|].
split_and!; auto. { rewrite D. destruct abs; auto. } intros _ Hne _. rewrite D. by destruct abs.
- destruct (Hset [] (Some abs)) as (K & N & D). cbn [g_dirlong with_names]. rewrite set_at_some by (rewrite length_insert; lia).
cbn [mbind option_bind fmap option_fmap option_map]. rewrite list_insert_insert_eq. eexists. split; [same_table old|].
split_and!; auto.
- destruct (Hset [] None) as (K & N & D). eexists. split; [same_table old|].
split_and!; auto. intros _ _ [|]; [lia|done].
Qed.

(** ** Room *)

(** A description for each descriptor: while a descriptor is free, so is a
description. *)
Lemma free_fd_room t fd : table_ok t -> 0 <= fd < OKM_MAX_FD -> okm_desc_of t fd = None -> room t.
Proof.
intros Ht Hfd Hno. pose proof Ht as [Hc _ _]. destruct (scan_from (fun p => d_refs p =? 0) (g_desc t) 0) as [d|] eqn:Escan.
{ apply scan_from_some in Escan as (_ & (p & Hp & H0) & _). rewrite Z.sub_0_r in Hp. exists d, p. split; [done|lia]. }
exfalso. apply scan_from_none in Escan. rewrite Forall_lookup in Escan.
assert (forall d, 0 <= d < OKM_MAX_DESC -> d ∈ (fst <$> g_fd t)) as Hall.
{ intros d Hd. destruct (desc_entry t Ht d Hd) as [p Hp]. pose proof (ct_refs _ _ _ Hc _ _ Hp) as E. unfold even_ in E.
assert (0 < tally (names_of d) (g_fd t)) as (e & He & Hn')%tally_pos.
{ pose proof (tally_nonneg (names_of d) (g_fd t)). destruct (decide (tally (names_of d) (g_fd t) = 0)) as [E0|]; [|lia]. exfalso.
  apply at_lookup in Hp. specialize (Escan _ _ Hp). cbn beta in Escan. lia. }
apply list_elem_of_fmap. exists e. unfold names_of in Hn'. split; [lia|done]. }
assert (-1 ∈ (fst <$> g_fd t)) as Hfree.
{ destruct (fd_entry t Ht fd Hfd) as (e & He & Hr). unfold okm_desc_of in Hno. rewrite He in Hno.
destruct ((fd <? 0) || (OKM_MAX_FD <=? fd)) eqn:E; boolean; [lia|]. cbn [mbind option_bind] in Hno.
apply list_elem_of_fmap. exists e. split; [destruct (e.1 <? 0) eqn:E'; boolean; [lia|done]|].
eapply list_elem_of_lookup_2. by apply at_lookup. }
assert (seqZ (-1) (OKM_MAX_DESC + 1) ⊆+ (fst <$> g_fd t)) as Hsub.
{ apply NoDup_submseteq; [apply NoDup_seqZ|]. intros d Hd%elem_of_seqZ. destruct (decide (d = -1)) as [->|]; [done|]. apply Hall. lia. }
apply submseteq_length in Hsub. rewrite length_seqZ, length_fmap in Hsub. pose proof (ct_fds _ _ _ Hc) as E.
unfold OKM_MAX_DESC, OKM_MAX_FD in *. lia.
Qed.
End operations.

(** ** Critical sections *)

(** The calls a context makes while it holds the lock. *)
Inductive fd_call :=
| Call_bind (fd : Z) (kind : okm_kind) (stream file dir flags : Z)
| Call_socket (fd stream flags slot : Z)
| Call_release (fd : Z)
| Call_dup (fd newfd cloexec : Z)
| Call_cloexec (fd : Z) (on : bool)
| Call_remember (fd : Z) (abs : list Z) (alloc : bool)
| Call_close_all.

Definition run_call (me : Z) (c : fd_call) : M fd_table Z :=
  match c with
  | Call_bind fd kind stream file dir flags => okm_fd_bind true me fd kind stream file dir flags
  | Call_socket fd stream flags slot => bind_socket true me fd stream flags slot
  | Call_release fd => okm_fd_release true me fd;; mret 0
  | Call_dup fd newfd cloexec => okm_fd_dup true me fd newfd cloexec
  | Call_cloexec fd on => okm_fd_cloexec fd on
  | Call_remember fd abs alloc => okm_dir_remember fd abs alloc;; mret 0
  | Call_close_all => okm_close_all true me;; mret 0
  end.

(** What a call that answered [r] gave the table to answer for. *)
Definition gives (c : fd_call) (r : Z) : list resource :=
  if r <? 0 then []
  else
    match c with
    | Call_bind _ kind stream file dir flags => owned (bound kind stream file dir flags 0 [] 0)
    | Call_socket _ _ _ slot => [R_sock slot]
    | _ => []
    end.

(** Sockets are bound with their slot, and a bind is of any other kind. *)
Definition proper (c : fd_call) : Prop :=
  match c with Call_bind _ kind _ _ _ _ => kind <> OKM_SOCKET /\ kind <> OKM_FREE | _ => True end.

Lemma others_kept_desc fd t t' j d : others_kept fd t t' -> j <> fd -> okm_desc_of t j = Some d -> okm_desc_of t' j = Some d.
Proof. intros H Hj E. by rewrite (proj1 (H j Hj)). Qed.

Lemma close_from_ok me n fd t :
  table_ok t -> 0 <= fd -> fd + Z.of_nat n <= OKM_MAX_FD ->
  exists t', close_from true me fd n t = Some ((), t') /\ kept me t t' /\
    (forall j, fd <= j < fd + Z.of_nat n -> okm_desc_of t' j = None) /\
    (forall j, okm_desc_of t j = None -> okm_desc_of t' j = None).
Proof.
  revert fd t. induction n as [|n IH]; intros fd t Ht H0 Hn; cbn [close_from].
  - exists t. split; [done|]. split; [by apply kept_refl|]. split; [lia|done].
  - destruct (fd_entry t Ht fd ltac:(lia)) as (e & He & Hr). monad. rewrite (get_fd_eq _ _ _ He).
    assert (exists t1, when (0 <=? e.1) (okm_fd_release true me fd) t = Some ((), t1) /\ kept me t t1 /\ okm_desc_of t1 fd = None /\ others_kept fd t t1)
      as (t1 & E1 & K1 & N1 & O1).
    { unfold when. split_if; [by apply release_kept|]. exists t. split; [done|]. split; [by apply kept_refl|]. split; [|by split].
      unfold okm_desc_of. rewrite He. cbn [mbind option_bind]. by split_ifs; try lia. }
    unfold when in E1. rewrite E1. destruct (IH (fd + 1) t1) as (t' & E' & K' & N' & F'); [apply K1|lia|lia|].
    assert (forall j, okm_desc_of t j = None -> okm_desc_of t1 j = None) as F1.
    { intros j Hj. destruct (decide (j = fd)) as [->|]; [done|]. by rewrite (proj1 (O1 j ltac:(done))). }
    exists t'. split; [done|]. split; [by eapply kept_trans|]. split; [|auto].
    intros j Hj. destruct (decide (j = fd)) as [->|]; [auto|]. apply N'. lia.
Qed.

Lemma all_free_owns_nothing t : table_ok t -> (forall fd, okm_desc_of t fd = None) -> flat_map owned (g_desc t) = [].
Proof.
  intros Ht Hno. pose proof Ht as [Hc _ _].
  assert (forall i p, g_desc t !! i = Some p -> owned p = []) as H.
  { intros i p Hi. assert (at_ (g_desc t) (Z.of_nat i) = Some p) as Hp by (unfold at_; split_if; [by rewrite Nat2Z.id|lia]).
    apply owned_free. eapply ct_free; [done|done|]. rewrite (ct_refs _ _ _ Hc _ _ Hp). unfold even_.
    pose proof (tally_nonneg (names_of (Z.of_nat i)) (g_fd t)).
    destruct (decide (0 < tally (names_of (Z.of_nat i)) (g_fd t))) as [([d c] & (k & Hk)%list_elem_of_lookup & Hn)%tally_pos|]; [|lia].
    unfold names_of in Hn. cbn [fst] in Hn. exfalso. assert (okm_desc_of t (Z.of_nat k) = Some d) as E; [|by rewrite Hno in E].
    apply lookup_lt_Some in Hk as Hlt. apply okm_desc_of_some. pose proof (ct_fds _ _ _ Hc). split_and!; [lia|lia|lia|].
    exists c. unfold at_. split_if; [by rewrite Nat2Z.id|lia]. }
  clear Hc. revert H. induction (g_desc t) as [|p l IH]; intros H; [done|]. cbn [flat_map]. rewrite (H 0%nat p eq_refl). apply IH.
  intros i q Hi. by apply (H (S i)).
Qed.

Lemma cloexec_ok me t fd on : table_ok t ->
  exists r t', okm_fd_cloexec fd on t = Some (r, t') /\ kept me t t' /\
    (okm_desc_of t fd = None -> r = - EBADF /\ t' = t) /\
    (forall d, okm_desc_of t fd = Some d -> r = 0 /\ g_desc t' = g_desc t /\ at_ (g_fd t') fd = Some (d, if on then 1 else 0)) /\
    (forall j, okm_desc_of t' j = okm_desc_of t j) /\ (forall j, j <> fd -> at_ (g_fd t') j = at_ (g_fd t) j).
Proof.
  intros Ht. unfold okm_fd_cloexec. split_if.
  { exists (- EBADF), t. split_and!; auto using kept_refl. intros d. unfold okm_desc_of. split_if; [done|lia]. }
  destruct (fd_entry t Ht fd ltac:(lia)) as ([d c] & He & Hr). cbn [fst] in Hr. monad. rewrite (get_fd_eq _ _ _ He). cbn [fst].
  pose proof (at_range _ _ _ He) as Her. split_if.
  { exists (- EBADF), t. split_and!; auto using kept_refl. intros d'. unfold okm_desc_of. rewrite He. cbn [mbind option_bind fst]. by split_ifs; try lia. }
  rewrite (put_fd_eq _ _ _ _ He). exists 0. eexists. split; [done|].
  assert (okm_desc_of t fd = Some d) as Hof by (apply okm_desc_of_some; split_and!; [lia|lia|lia|eauto]).
  split_and!; auto.
  - destruct Ht as [Hc Hpl Hs]. split_and!; auto using settles_same. constructor; [|done|done]. cbn.
    eapply counted_ext; [|eapply (counted_entry _ _ _ fd (d, c)); [done|done|cbn [fst]; lia]].
    intros j Hj. unfold over, even_. cbn [fst]. split_ifs; lia.
  - by rewrite Hof.
  - intros d'. rewrite Hof. intros [= <-]. split_and!; auto. cbn. by rewrite at_insert, Z.eqb_refl by done.
  - intros j. unfold okm_desc_of. cbn. rewrite at_insert by done. destruct (j =? fd) eqn:E; [|done]. boolean. subst. by rewrite He.
  - intros j Hj. cbn. rewrite at_insert by done. by replace (j =? fd) with false by lia.
Qed.

Lemma dup_ok me t fd newfd cloexec : table_ok t ->
  exists r t', okm_fd_dup true me fd newfd cloexec t = Some (r, t') /\ kept me t t'.
Proof.
  intros Ht. unfold okm_fd_dup. split_if; [by exists (- EBADF), t; auto using kept_refl|].
  destruct (fd_entry t Ht fd ltac:(lia)) as ([d c] & He & Hr). cbn [fst] in Hr. monad. rewrite (get_fd_eq _ _ _ He). cbn [fst].
  split_if; [by exists (- EBADF), t; auto using kept_refl|].
  assert (okm_desc_of t fd = Some d) as Hof by (apply okm_desc_of_some; split_and!; [lia|lia|lia|eauto]).
  assert (forall n, 0 <= n -> exists r t', dup_at true me fd n cloexec t = Some (r, t') /\ kept me t t') as Hat.
  { intros n Hn. destruct (decide (OKM_MAX_FD <= n)).
    - unfold dup_at. split_if; [|lia]. by exists (- EBADF), t; auto using kept_refl.
    - destruct (decide (n = fd)) as [->|Hne].
      + unfold dup_at. split_if; [lia|]. rewrite Z.eqb_refl. by exists fd, t; auto using kept_refl.
      + destruct (dup_at_ok me t fd n cloexec d Ht Hof Hne ltac:(lia)) as (t' & E & K & _). eauto. }
  change (id t) with t. split_if; [split_if|]; [by eexists _, t; auto using kept_refl|by apply Hat|by apply Hat].
Qed.

Lemma socket_ok me t fd stream flags slot : table_ok t ->
  exists r t', bind_socket true me fd stream flags slot t = Some (r, t') /\ table_ok t' /\ settles me t t' /\
    g_std_stream t' = g_std_stream t /\ held t' ≡ₚ gives (Call_socket fd stream flags slot) r ++ held t.
Proof.
  intros Ht. unfold bind_socket. monad. destruct (decide (0 <= fd < OKM_MAX_FD)) as [Hfd|Hout].
  2: { assert (okm_fd_bind true me fd OKM_SOCKET stream 0 0 flags t = Some (- EBADF, t)) as -> by (unfold okm_fd_bind; split_if; [done|lia]).
       change (id t) with t. destruct (okm_desc_of t fd); exists (- EBADF), t; split_and!; auto using settles_refl. }
  destruct (scan_from (fun p => d_refs p =? 0) (g_desc t) 0) as [i|] eqn:Escan.
  2: { rewrite fd_bind_full; auto.
       - change (id t) with t. destruct (okm_desc_of t fd); exists (- ENFILE), t; split_and!; auto using settles_refl.
       - intros (d & p & Hp & H0). apply scan_from_none in Escan. rewrite Forall_lookup in Escan. apply at_lookup in Hp.
         specialize (Escan _ _ Hp). cbn beta in Escan. lia. }
  assert (room t) as Hroom.
  { apply scan_from_some in Escan as (_ & (p & Hp & H0) & _). rewrite Z.sub_0_r in Hp. exists i, p. split; [done|lia]. }
  destruct (fd_bind_ok me t fd OKM_SOCKET stream 0 0 flags Ht Hfd Hroom) as (t1 & d & pk & pn & ab & E & Ht1 & Hh & Hstd & Hof & Hp & _ & _ & _ & Hs).
  rewrite E. change (id t1) with t1. rewrite Hof. split_if; [lia|]. rewrite (get_desc_eq _ _ _ Hp), (put_desc_eq _ _ _ _ Hp).
  set (p := bound _ _ _ _ _ _ _ _) in *. exists fd. eexists. split; [done|]. pose proof Ht1 as [Hc1 Hpl1 Hsl1].
  split_and!; auto.
  - constructor; cbn [g_desc g_fd g_dirpath g_dirlong g_dirpath_used g_named g_settling with_desc]; [|by apply (pooled_same _ _ _ _ _ _ p); auto|done].
    by apply (counted_fields _ _ _ d p).
  - apply settles_of. cbn. done.
  - unfold gives. split_if; [lia|]. unfold held in Hh |- *. cbn [g_desc g_settling closed with_desc].
    pose proof (flat_map_insert owned _ _ (with_sock p slot) _ (at_lookup _ _ _ Hp)) as E'.
    change (owned p) with [R_sock (-1)] in E', Hh. change (owned (with_sock p slot)) with [R_sock slot] in E'.
    apply (Permutation_app_inv_r [R_sock (-1)]). rewrite <-app_assoc.
    rewrite (Permutation_app_comm _ [R_sock (-1)]), app_assoc, E', <-app_assoc.
    rewrite (Permutation_app_comm [R_sock slot]), app_assoc, Hh. rewrite <-!app_assoc. cbn [app].
    rewrite <-!Permutation_middle. rewrite app_nil_r. by constructor.
Qed.

Lemma bind_call_ok me t fd kind stream file dir flags : table_ok t -> kind <> OKM_SOCKET ->
  exists r t', okm_fd_bind true me fd kind stream file dir flags t = Some (r, t') /\ table_ok t' /\ settles me t t' /\
    g_std_stream t' = g_std_stream t /\ held t' ≡ₚ gives (Call_bind fd kind stream file dir flags) r ++ held t.
Proof.
  intros Ht Hk. destruct (decide (0 <= fd < OKM_MAX_FD)) as [Hfd|Hout].
  2: { exists (- EBADF), t. split_and!; auto using settles_refl. unfold okm_fd_bind. by split_if; [|lia]. }
  destruct (scan_from (fun p => d_refs p =? 0) (g_desc t) 0) as [i|] eqn:Escan.
  2: { exists (- ENFILE), t. split_and!; auto using settles_refl. apply fd_bind_full; auto.
       intros (d & p & Hp & H0). apply scan_from_none in Escan. rewrite Forall_lookup in Escan. apply at_lookup in Hp.
       specialize (Escan _ _ Hp). cbn beta in Escan. lia. }
  assert (room t) as Hroom.
  { apply scan_from_some in Escan as (_ & (p & Hp & H0) & _). rewrite Z.sub_0_r in Hp. exists i, p. split; [done|lia]. }
  destruct (fd_bind_ok me t fd kind stream file dir flags Ht Hfd Hroom) as (t1 & d & pk & pn & ab & E & Ht1 & Hh & Hstd & Hof & Hp & _ & _ & _ & Hs).
  exists fd, t1. split_and!; auto using settles_of. unfold gives. split_if; [lia|]. exact Hh.
Qed.

Lemma remember_call_ok me t fd abs alloc : table_ok t ->
  exists t', okm_dir_remember fd abs alloc t = Some ((), t') /\ kept me t t'.
Proof.
  intros Ht. destruct (okm_desc_of t fd) as [d|] eqn:Hof.
  - destruct (named_live t Ht fd d Hof) as (p & Hp & _). destruct (decide (d_kind p = OKM_DIR)) as [Hk|Hk].
    + destruct (remember_ok me t fd abs alloc d p Ht Hof Hp Hk) as (s & t' & E & K & _). eauto.
    + exists t. split; [|by apply kept_refl]. unfold okm_dir_remember. monad. change (id t) with t. rewrite Hof, (get_desc_eq _ _ _ Hp).
      by rewrite bool_decide_eq_false_2 by done.
  - exists t. split; [|by apply kept_refl]. unfold okm_dir_remember. monad. change (id t) with t. by rewrite Hof.
Qed.

Lemma run_call_ok me t c : table_ok t -> proper c ->
  exists r t', run_call me c t = Some (r, t') /\ table_ok t' /\ settles me t t' /\ g_std_stream t' = g_std_stream t /\
    held t' ≡ₚ gives c r ++ held t.
Proof.
  intros Ht Hc. assert (forall r t', kept me t t' -> gives c r = [] -> table_ok t' /\ settles me t t' /\ g_std_stream t' = g_std_stream t /\ held t' ≡ₚ gives c r ++ held t) as Hk.
  { intros r t' (? & ? & ? & ?) ->. auto. }
  destruct c; cbn [run_call].
  - apply bind_call_ok; [done|apply Hc].
  - by apply socket_ok.
  - monad. destruct (release_kept me t fd Ht) as (t' & -> & K & _). exists 0, t'. split; [done|]. by apply Hk.
  - destruct (dup_ok me t fd newfd cloexec Ht) as (r & t' & E & K). exists r, t'. split; [done|]. apply Hk; [done|]. unfold gives. by split_if.
  - destruct (cloexec_ok me t fd on Ht) as (r & t' & E & K & _). exists r, t'. split; [done|]. apply Hk; [done|]. unfold gives. by split_if.
  - monad. destruct (remember_call_ok me t fd abs alloc Ht) as (t' & -> & K). exists 0, t'. split; [done|]. by apply Hk.
  - monad. destruct (close_from_ok me (Z.to_nat OKM_MAX_FD) 0 t Ht) as (t' & E & K & _); [lia|unfold OKM_MAX_FD; lia|].
    unfold okm_close_all. rewrite E. exists 0, t'. split; [done|]. by apply Hk.
Qed.

(** The calls of one critical section, in order. *)
Fixpoint run_calls (me : Z) (cs : list fd_call) : M fd_table (list Z) :=
  match cs with
  | [] => mret []
  | c :: cs' => r ← run_call me c; rs ← run_calls me cs'; mret (r :: rs)
  end.

Definition gives_all (cs : list fd_call) (rs : list Z) : list resource := concat (zip_with gives cs rs).

Lemma run_calls_ok me cs t : table_ok t -> Forall proper cs ->
  exists rs t', run_calls me cs t = Some (rs, t') /\ table_ok t' /\ settles me t t' /\ g_std_stream t' = g_std_stream t /\
    held t' ≡ₚ gives_all cs rs ++ held t.
Proof.
  intros Ht Hcs. revert t Ht. induction Hcs as [|c cs Hc _ IH]; intros t Ht; cbn [run_calls]; monad.
  - exists [], t. split_and!; auto using settles_refl.
  - destruct (run_call_ok me t c Ht Hc) as (r & t1 & -> & Ht1 & S1 & D1 & H1).
    destruct (IH t1 Ht1) as (rs & t2 & -> & Ht2 & S2 & D2 & H2). exists (r :: rs), t2.
    split_and!; [done|done|by eapply settles_trans|congruence|]. rewrite H2, H1. unfold gives_all. cbn [zip_with concat].
    rewrite !app_assoc. apply Permutation_app_tail. by rewrite Permutation_app_comm.
Qed.

(** The table, what the contexts that have released the lock are about to close,
    and, for the statement only, what the table was ever given. *)
Record world := World {
  w_table : fd_table;
  w_closing : list (Z * okm_desc);
  w_given : list resource;
}.

Inductive world_step : world -> world -> Prop :=
| step_section w me cs rs t1 mine t2 :
    Forall proper cs ->
    run_calls me cs (w_table w) = Some (rs, t1) -> okm_unlock me t1 = Some (mine, t2) ->
    world_step w (World t2 (w_closing w ++ ((fun p => (me, p)) <$> mine)) (gives_all cs rs ++ w_given w))
| step_close w l1 l2 me p t' :
    w_closing w = l1 ++ (me, p) :: l2 -> close_owned true p (w_table w) = Some ((), t') ->
    world_step w (World t' (l1 ++ l2) (w_given w)).

Inductive world_reachable : world -> Prop :=
| world_start t : okm_table_init_memory table_zero = Some ((), t) -> world_reachable (World t [] [])
| world_next w w' : world_reachable w -> world_step w w' -> world_reachable w'.

Lemma okm_unlock_take me t : okm_unlock me t = take_settling me t.
Proof.
  unfold okm_unlock. monad. change (id t) with t. destruct (g_settling t) eqn:E; [|done].
  unfold take_settling. rewrite E. cbn. f_equal. f_equal. destruct t. cbn in E. by subst.
Qed.

Lemma init_ok t : okm_table_init_memory table_zero = Some ((), t) -> table_ok t /\ g_settling t = [] /\ held t = [].
Proof.
  intros H. assert (t = with_fd table_zero (replicate (Z.to_nat OKM_MAX_FD) (-1, 0))) as ->.
  { unfold okm_table_init_memory, modify in H. congruence. }
  clear H. split; [|split; [done|by vm_compute]].
  assert (forall {A} (x : A) n i y, at_ (replicate n x) i = Some y -> y = x) as Hrep.
  { intros A x n i y. unfold at_. split_if; [|done]. by intros [-> _]%lookup_replicate. }
  constructor; [constructor|constructor|by vm_compute]; cbn [g_desc g_fd g_dirpath g_dirlong g_dirpath_used g_named with_fd table_zero];
    lazymatch goal with
    | |- Z.of_nat _ = _ => by vm_compute
    | |- 0 = _ => by vm_compute
    | |- forall d p, at_ _ d = Some p -> d_refs p = _ => idtac
    | |- forall d p, at_ (replicate _ desc_zero) d = Some p -> _ => intros d p Hp; apply Hrep in Hp as ->; cbn; lia || done
    | _ => idtac
    end.
  - intros d p Hp. apply at_range in Hp as Hr. apply Hrep in Hp as ->. unfold even_. cbn [d_refs desc_zero]. symmetry.
    assert (forall n, tally (names_of d) (replicate n (-1, 0)) = 0) as E; [|rewrite E; lia].
    induction n as [|n IH]; [done|]. cbn [replicate]. rewrite tally_cons, IH. unfold names_of. cbn [fst]. split_if; lia.
  - intros fd e He. apply Hrep in He as ->. by vm_compute.
  - intros s Hs. by apply Hrep in Hs.
  - intros d1 p1 d2 p2 H1 H2. apply Hrep in H1 as ->, H2 as ->. cbn. lia.
  - intros s Hs. apply at_range in Hs. split; unfold at_; (split_if; [|lia]); apply lookup_replicate_2;
      rewrite length_replicate in Hs; lia.
Qed.

Lemma fd_world_ok w : world_reachable w ->
  table_ok (w_table w) /\ g_settling (w_table w) = [] /\
  w_given w ≡ₚ flat_map owned (g_desc (w_table w)) ++ flat_map (fun e => owned e.2) (w_closing w) ++ closed (w_table w).
Proof.
  induction 1 as [t Hi | w w' _ (Ht & Hs & Hg) Hstep].
  - destruct (init_ok t Hi) as (? & ? & Hh). split; [done|]. split; [done|]. cbn [w_table w_closing w_given flat_map app].
    unfold held in Hh. apply app_eq_nil in Hh as [-> [_ ->]%app_eq_nil]. done.
  - destruct Hstep as [w me cs rs t1 mine t2 Hp Hr Htk | w l1 l2 me p t' Hcl Hco]; cbn [w_table w_closing w_given].
    + destruct (run_calls_ok me cs _ Ht Hp) as (rs' & t1' & E & Ht1 & [l S1] & D1 & H1). rewrite Hr in E. injection E as <- <-.
      rewrite Hs in S1. cbn [app] in S1. rewrite okm_unlock_take in Htk. unfold take_settling in Htk.
      destruct (take_loop_ok me (length (g_settling t1)) 0 (g_settling t1)) as (m & rest & E & Hperm & Hrest); [lia|lia|by constructor|].
      rewrite E in Htk. cbn in Htk. injection Htk as <- <-.
      assert (rest = []) as ->.
      { destruct rest as [|e rest]; [done|]. exfalso. inversion Hrest as [|? ? He _]; subst. apply He.
        assert (e ∈ g_settling t1) as Hin by (rewrite Hperm; apply elem_of_app; right; left).
        rewrite S1 in Hin. by apply list_elem_of_fmap in Hin as (p & -> & _). }
      rewrite app_nil_r in Hperm. split_and!; [|done|].
      * destruct Ht1 as [? ? ?]. constructor; [done|done|]. cbn. unfold OKM_SETTLING_MAX. lia.
      * cbn [g_desc closed with_settling]. unfold held in H1. rewrite Hs in H1. cbn [flat_map app] in H1.
        rewrite Hg. rewrite flat_map_app, <-!app_assoc.
        assert (flat_map (fun e => owned e.2) (g_settling t1) ≡ₚ flat_map (fun e => owned e.2) ((fun p => (me, p)) <$> m)) as Hm
          by (apply Permutation_flat_map; exact Hperm).
        rewrite Hm in H1. set (K := flat_map _ (w_closing w)).
        transitivity (K ++ gives_all cs rs ++ flat_map owned (g_desc (w_table w)) ++ closed (w_table w)).
        { rewrite (Permutation_app_swap_app (flat_map owned _) K). by rewrite Permutation_app_swap_app. }
        rewrite <-H1. by rewrite Permutation_app_swap_app.
    + injection Hco as <-. rewrite Hcl in Hg. split_and!; [|done|].
      * destruct Ht as [? ? ?]. by constructor.
      * cbn [g_desc closed with_closed]. rewrite Hg. rewrite !flat_map_app. cbn [flat_map snd]. rewrite <-!app_assoc.
        do 2 apply Permutation_app_head. rewrite !app_assoc. apply Permutation_app_tail. by rewrite Permutation_app_comm.
Qed.

(** ** The contract *)

(** A table that has been brought up, for the examples. *)
Definition started : fd_table := with_fd table_zero (replicate (Z.to_nat OKM_MAX_FD) (-1, 0)).

Lemma started_ok : table_ok started.
Proof. by destruct (init_ok started eq_refl). Qed.

(** okm_fd_alloc answers the lowest descriptor not below [from] that names
    nothing, and -EMFILE exactly when there is none. *)
Theorem fd_alloc_lowest t from :
  table_ok t ->
  let r := okm_fd_alloc t from in
  (0 <= r -> Z.max 0 from <= r < OKM_MAX_FD /\ okm_desc_of t r = None /\
             forall j, Z.max 0 from <= j < r -> okm_desc_of t j <> None) /\
  (r < 0 -> r = - EMFILE /\ forall j, Z.max 0 from <= j < OKM_MAX_FD -> okm_desc_of t j <> None).
Proof.
  intros Ht r. subst r. unfold okm_fd_alloc. pose proof Ht as [Hc _ _]. pose proof (ct_fds _ _ _ Hc) as Hl.
  replace (if from <? 0 then 0 else from) with (Z.max 0 from) by (split_if; lia). set (f := Z.max 0 from).
  assert (forall k e, at_ (drop (Z.to_nat f) (g_fd t)) k = Some e <-> at_ (g_fd t) (f + k) = Some e /\ 0 <= k) as Hdrop.
  { intros k e. unfold at_. rewrite lookup_drop. destruct (0 <=? k) eqn:Ek; boolean; [|by split; [|intros [_ ?]; lia]].
    replace (0 <=? f + k) with true by lia. replace (Z.to_nat (f + k)) with (Z.to_nat f + Z.to_nat k)%nat by lia.
    by split; [|intros []]. }
  assert (forall j e, at_ (g_fd t) j = Some e -> okm_desc_of t j = None <-> e.1 = OKM_FD_FREE) as Hfree.
  { intros j e He. pose proof (at_range _ _ _ He). pose proof (ct_range _ _ _ Hc _ _ He). unfold okm_desc_of. rewrite He. cbn [mbind option_bind].
    unfold OKM_FD_FREE. split_ifs; try lia; split; try done; lia. }
  destruct (scan_from _ _ f) as [i|] eqn:E.
  - apply scan_from_some in E as (Hi & (e & He & Hf) & Hlt). rewrite length_drop in Hi. apply Hdrop in He as [He _].
    replace (f + (i - f)) with i in He by lia. split; [|lia]. intros _. pose proof (at_range _ _ _ He). split_and!; [lia|lia| |].
    + apply (Hfree i e He). lia.
    + intros j Hj Hn. destruct (fd_entry t Ht j ltac:(lia)) as (e' & He' & _). apply (Hfree j e' He') in Hn.
      assert (at_ (drop (Z.to_nat f) (g_fd t)) (j - f) = Some e') as Hd by (apply Hdrop; split; [by replace (f + (j - f)) with j by lia|lia]).
      specialize (Hlt j e' ltac:(lia) Hd). cbn beta in Hlt. lia.
  - split; [unfold EMFILE; lia|]. intros _. split; [done|]. intros j Hj Hn. apply scan_from_none in E. rewrite Forall_lookup in E.
    destruct (fd_entry t Ht j ltac:(lia)) as (e & He & _). apply (Hfree j e He) in Hn.
    assert (at_ (drop (Z.to_nat f) (g_fd t)) (j - f) = Some e) as Hd by (apply Hdrop; split; [by replace (f + (j - f)) with j by lia|lia]).
    apply at_lookup in Hd. specialize (E _ _ Hd). cbn beta in E. lia.
Qed.

Lemma fd_alloc_lowest_witness : okm_desc_of started (okm_fd_alloc started 3) = None.
Proof. apply (fd_alloc_lowest started 3 started_ok). vm_compute. discriminate. Defined.

(** okm_fd_bind: out of range it answers EBADF; while the descriptor names
    nothing there is always a description for it (a description for each
    descriptor), so it never answers ENFILE; it then names a description of its
    own, shared with no other descriptor, holding what was bound and marked to
    close on exec as the flags say, and every other descriptor is as it was.
    ENFILE is answered only where every description is in use, and changes
    nothing. *)
Theorem fd_bind_contract me t fd kind stream file dir flags :
  table_ok t ->
  exists r t', okm_fd_bind true me fd kind stream file dir flags t = Some (r, t') /\ table_ok t' /\
    (~ 0 <= fd < OKM_MAX_FD -> r = - EBADF /\ t' = t) /\
    (0 <= fd < OKM_MAX_FD -> okm_desc_of t fd = None -> room t) /\
    (0 <= fd < OKM_MAX_FD -> room t ->
      r = fd /\ exists d pk pn ab, okm_desc_of t' fd = Some d /\
        at_ (g_desc t') d = Some (bound kind stream file dir flags pk pn ab) /\
        at_ (g_fd t') fd = Some (d, if has flags O_CLOEXEC then 1 else 0) /\
        (forall j, j <> fd -> okm_desc_of t' j <> Some d) /\ others_kept fd t t') /\
    (0 <= fd < OKM_MAX_FD -> ~ room t -> r = - ENFILE /\ t' = t).
Proof.
  intros Ht. destruct (decide (0 <= fd < OKM_MAX_FD)) as [Hfd|Hout].
  2: { exists (- EBADF), t. split_and!; auto; try (intros; lia). unfold okm_fd_bind. by split_if; [|lia]. }
  destruct (scan_from (fun p => d_refs p =? 0) (g_desc t) 0) as [i|] eqn:Escan.
  - assert (room t) as Hroom.
    { apply scan_from_some in Escan as (_ & (p & Hp & H0) & _). rewrite Z.sub_0_r in Hp. exists i, p. split; [done|lia]. }
    destruct (fd_bind_ok me t fd kind stream file dir flags Ht Hfd Hroom)
      as (t1 & d & pk & pn & ab & E & Ht1 & Hh & Hstd & Hof & Hp & He & Hfresh & Hok & Hs).
    exists fd, t1. split_and!; auto; try done. intros _ _. split; [done|]. exists d, pk, pn, ab. split_and!; auto.
    intros j Hj. rewrite (proj1 (Hok j Hj)). apply Hfresh.
  - assert (~ room t) as Hno.
    { intros (d & p & Hp & H0). apply scan_from_none in Escan. rewrite Forall_lookup in Escan. apply at_lookup in Hp.
      specialize (Escan _ _ Hp). cbn beta in Escan. lia. }
    exists (- ENFILE), t. split_and!; auto; try done; [by apply fd_bind_full|]. intros _ Hn. by apply free_fd_room in Hn.
Qed.

Lemma fd_bind_contract_witness :
  exists r t', okm_fd_bind true 7 3 OKM_FILE 5 6 0 O_CLOEXEC started = Some (r, t') /\ r = 3.
Proof.
  destruct (fd_bind_contract 7 started 3 OKM_FILE 5 6 0 O_CLOEXEC started_ok) as (r & t' & E & _ & _ & Hroom & Hok & _).
  exists r, t'. split; [exact E|]. apply Hok; [by compute|]. apply Hroom; by compute.
Defined.

(** close(2) of a descriptor (okm_fd_release): it names nothing afterwards,
    every other descriptor names what it named, with the same content, even one
    that shared the description, and what the table answers for is the same. *)
Theorem fd_release_contract me t fd :
  table_ok t ->
  exists t', okm_fd_release true me fd t = Some ((), t') /\ table_ok t' /\ okm_desc_of t' fd = None /\
    others_kept fd t t' /\ held t' ≡ₚ held t.
Proof. intros Ht. destruct (release_kept me t fd Ht) as (t' & E & (? & ? & _) & ? & ?). exists t'. auto. Qed.

Lemma fd_release_contract_witness :
  exists t', okm_fd_release true 7 3 started = Some ((), t') /\ table_ok t'.
Proof.
  destruct (fd_release_contract 7 started 3 started_ok) as (t' & E & H & _). exists t'. split; [exact E|exact H].
Defined.

(** dup, dup2 and dup3 (okm_fd_dup): a descriptor that names nothing is
    EBADF; a new number beyond the table is EBADF; the number itself is answered
    unchanged; otherwise the new descriptor, the lowest free one or the one
    asked for, shares the old one's description, with the mark given, whatever
    it named before is released, and every other descriptor is as it was. *)
Theorem fd_dup_contract me t fd newfd cloexec :
  table_ok t ->
  exists r t', okm_fd_dup true me fd newfd cloexec t = Some (r, t') /\ table_ok t' /\ held t' ≡ₚ held t /\
    (okm_desc_of t fd = None -> r = - EBADF /\ t' = t) /\
    (forall d, okm_desc_of t fd = Some d ->
       let n := if newfd <? 0 then okm_fd_alloc t 0 else newfd in
       (n < 0 -> r = n /\ t' = t) /\ (OKM_MAX_FD <= n -> r = - EBADF /\ t' = t) /\ (n = fd -> r = fd /\ t' = t) /\
       (0 <= n < OKM_MAX_FD -> n <> fd ->
        r = n /\ okm_desc_of t' n = Some d /\ view t' n = view t fd /\ at_ (g_fd t') n = Some (d, cloexec) /\ others_kept n t t')).
Proof.
  intros Ht. destruct (okm_desc_of t fd) as [d|] eqn:Hof.
  2: { exists (- EBADF), t. split_and!; auto; try done. unfold okm_fd_dup. split_if; [done|].
       destruct (fd_entry t Ht fd ltac:(lia)) as (e & He & Hr). monad. rewrite (get_fd_eq _ _ _ He). unfold okm_desc_of in Hof.
       rewrite He in Hof. destruct ((fd <? 0) || (OKM_MAX_FD <=? fd)) eqn:E'; boolean; [lia|]. cbn [mbind option_bind] in Hof.
       by destruct (e.1 <? 0). }
  pose proof Hof as (Hfd & Hd & c & He)%okm_desc_of_some. set (n := if newfd <? 0 then okm_fd_alloc t 0 else newfd).
  assert (okm_fd_dup true me fd newfd cloexec t = if n <? 0 then Some (n, t) else dup_at true me fd n cloexec t) as Edup.
  { unfold okm_fd_dup. split_if; [lia|]. monad. rewrite (get_fd_eq _ _ _ He). cbn [fst]. split_if; [lia|]. subst n. change (id t) with t.
    destruct (newfd <? 0) eqn:E'; cbv beta; [change (id t) with t; by destruct (okm_fd_alloc t 0 <? 0)|]. by rewrite E'. }
  rewrite Edup. assert (Some d = None -> False) as Hsn by done. split_if.
  { exists n, t. split_and!; auto; try done. intros d' [= <-]. split_and!; auto; lia. }
  destruct (decide (OKM_MAX_FD <= n)) as [Hbig|]; [|destruct (decide (n = fd)) as [Heq|Hne]].
  - exists (- EBADF), t. split; [unfold dup_at; by split_if; [|lia]|]. split_and!; auto; try done;
    intros d' [= <-]; split_and!; auto; lia.
  - exists fd, t. split; [unfold dup_at; split_if; [lia|]; rewrite Heq, Z.eqb_refl; done|]. split_and!; auto; try done;
    intros d' [= <-]; split_and!; auto; lia.
  - destruct (dup_at_ok me t fd n cloexec d Ht Hof Hne ltac:(lia)) as (t' & E & (? & ? & _) & ? & ? & ? & ?).
    exists n, t'. split_and!; auto; try done. intros d' [= <-]. split_and!; auto; lia.
Qed.

Lemma fd_dup_contract_witness :
  exists r t', okm_fd_dup true 7 3 9 0 started = Some (r, t') /\ r = - EBADF.
Proof.
  destruct (fd_dup_contract 7 started 3 9 0 started_ok) as (r & t' & E & _ & _ & H & _). exists r, t'. split; [exact E|].
  apply H. by compute.
Defined.

(** A directory's name is kept whole or not at all: after okm_dir_remember the
    directory's name is the one given or unknown, never a part of it; it is the
    one given whenever a slot is free or held and the name is short or its
    memory was given; and no other live description's name changes. *)
Theorem remember_whole t fd abs alloc d p :
  table_ok t -> okm_desc_of t fd = Some d -> at_ (g_desc t) d = Some p -> d_kind p = OKM_DIR ->
  exists t' p', okm_dir_remember fd abs alloc t = Some ((), t') /\ table_ok t' /\ at_ (g_desc t') d = Some p' /\
    okm_desc_of t' fd = Some d /\ d_dir p' = d_dir p /\
    (dir_name t' p' = Some abs \/ dir_name t' p' = None) /\
    ((exists s, at_ (g_dirpath_used t) s = Some false) \/ 0 <= d_path_slot p -> abs <> [] ->
     Z.of_nat (length abs) < OKM_DIR_PATH \/ alloc = true -> dir_name t' p' = Some abs) /\
    (forall d' q, d' <> d -> at_ (g_desc t) d' = Some q -> 0 < d_refs q ->
       at_ (g_desc t') d' = Some q /\ dir_name t' q = dir_name t q).
Proof.
  intros Ht Hof Hp Hk. destruct (remember_ok 0 t fd abs alloc d p Ht Hof Hp Hk) as (s & t' & E & (Ht' & _) & Hf & Hn & Hd & Hor & Hwhole).
  pose proof (at_range _ _ _ Hp) as Hr. exists t', (with_path_slot p s). split_and!; auto.
  - by rewrite Hd, at_insert, Z.eqb_refl by done.
  - unfold okm_desc_of in *. by rewrite Hf.
  - intros d' q Hne Hq Hl. split; [|by apply (Hn d')]. rewrite Hd, at_insert by done. apply Z.eqb_neq in Hne. by rewrite Hne.
Qed.

(** A directory at descriptor 3. *)
Definition with_dir : fd_table :=
  match okm_fd_bind true 7 3 OKM_DIR 0 0 55 0 started with Some (_, t) => t | None => started end.

Lemma with_dir_ok : table_ok with_dir.
Proof. destruct (bind_call_ok 7 started 3 OKM_DIR 0 0 55 0 started_ok ltac:(done)) as (r & t' & E & H & _). unfold with_dir. by rewrite E. Qed.

Lemma remember_whole_witness :
  exists t' p', okm_dir_remember 3 [47; 97] false with_dir = Some ((), t') /\ dir_name t' p' = Some [47; 97].
Proof.
  destruct (remember_whole with_dir 3 [47; 97] false 0 (bound OKM_DIR 0 0 55 0 0 [] 0) with_dir_ok)
    as (t' & p' & E & _ & _ & _ & _ & _ & H & _); [by vm_compute|by vm_compute|by compute|].
  exists t', p'. split; [exact E|]. apply H; [left; exists 0; by vm_compute|discriminate|left; by compute].
Defined.

(** The close-all of an image that is about to wait for its replacement leaves
    no descriptor and no description that owns anything: all that the table
    answered for is waiting to be closed or given back. *)
Theorem close_all_contract me t :
  table_ok t ->
  exists t', okm_close_all true me t = Some ((), t') /\ table_ok t' /\ (forall fd, okm_desc_of t' fd = None) /\
    flat_map (fun e => owned e.2) (g_settling t') ++ closed t' ≡ₚ held t.
Proof.
  intros Ht. destruct (close_from_ok me (Z.to_nat OKM_MAX_FD) 0 t Ht) as (t' & E & (Ht' & Hh & _) & Hno & _); [lia|unfold OKM_MAX_FD; lia|].
  exists t'. assert (forall fd, okm_desc_of t' fd = None) as Hall.
  { intros fd. destruct (decide (0 <= fd < OKM_MAX_FD)); [apply Hno; unfold OKM_MAX_FD in *; lia|]. unfold okm_desc_of. by split_if; [|lia]. }
  split_and!; auto. rewrite <-Hh. unfold held. by rewrite all_free_owns_nothing.
Qed.

Lemma close_all_contract_witness :
  exists t', okm_close_all true 7 with_dir = Some ((), t') /\ forall fd, okm_desc_of t' fd = None.
Proof.
  destruct (close_all_contract 7 with_dir with_dir_ok) as (t' & E & _ & H & _). exists t'. split; [exact E|exact H].
Defined.

(** C1. However contexts interleave their critical sections and the closes that
    follow them, nothing waits to be closed while the lock is free, and all the
    table was ever given is, exactly once each, held by a live description,
    about to be closed by the context that let it go, or closed. So where the
    environment never gives the same resource twice, none is closed twice and
    none that a descriptor still names is closed or about to be. *)
Theorem closed_exactly_once w :
  world_reachable w ->
  g_settling (w_table w) = [] /\
  w_given w ≡ₚ flat_map owned (g_desc (w_table w)) ++ flat_map (fun e => owned e.2) (w_closing w) ++ closed (w_table w) /\
  (NoDup (w_given w) ->
   NoDup (closed (w_table w)) /\
   forall fd d p r, okm_desc_of (w_table w) fd = Some d -> at_ (g_desc (w_table w)) d = Some p -> r ∈ owned p ->
     (r ∉ closed (w_table w)) /\ (r ∉ flat_map (fun e => owned e.2) (w_closing w))).
Proof.
  intros Hw. destruct (fd_world_ok w Hw) as (Ht & Hs & Hg). split; [done|]. split; [done|]. intros Hnd. rewrite Hg in Hnd.
  apply list.NoDup_app in Hnd as (_ & Hdisj & (_ & _ & Hc)%list.NoDup_app). split; [done|].
  intros fd d p r _ Hp Hr. assert (r ∈ flat_map owned (g_desc (w_table w))) as Hin.
  { apply list_elem_of_In, in_flat_map. exists p. split; apply list_elem_of_In; [|done]. eapply list_elem_of_lookup_2. by apply at_lookup. }
  specialize (Hdisj r Hin). rewrite elem_of_app in Hdisj. tauto.
Qed.

(** A context opens a file at descriptor 3 and closes it; the close is still to come. *)
Definition closing_world : world :=
  match okm_unlock 7 (match run_calls 7 [Call_bind 3 OKM_FILE 5 6 0 0; Call_release 3] started with Some (_, t) => t | None => started end) with
  | Some (mine, t) => World t ([] ++ ((fun p => (7, p)) <$> mine)) (gives_all [Call_bind 3 OKM_FILE 5 6 0 0; Call_release 3] [3; 0] ++ [])
  | None => World started [] []
  end.

Lemma closing_world_reachable : world_reachable closing_world.
Proof.
  apply (world_next (World started [] [])); [by apply world_start|].
  destruct (run_calls 7 [Call_bind 3 OKM_FILE 5 6 0 0; Call_release 3] started) as [[rs t1]|] eqn:E; [|by vm_compute in E].
  destruct (okm_unlock 7 t1) as [[mine t2]|] eqn:E2.
  - unfold closing_world. rewrite E, E2. assert (rs = [3; 0]) as <-.
    { vm_compute in E. congruence. }
    by eapply (step_section (World started [] []) 7 [Call_bind 3 OKM_FILE 5 6 0 0; Call_release 3] rs t1 mine t2); [repeat constructor|..].
  - exfalso. rewrite okm_unlock_take in E2. unfold take_settling in E2.
    destruct (take_loop_ok 7 (length (g_settling t1)) 0 (g_settling t1)) as (m & rest & E3 & _); [lia|lia|by constructor|].
    by rewrite E3 in E2.
Qed.

Lemma closed_exactly_once_witness : g_settling (w_table closing_world) = [].
Proof. apply (closed_exactly_once closing_world closing_world_reachable). Defined.

(** No call made under the lock leaves the bounds of an array, whatever its
    arguments: every sequence of calls of a critical section runs to its end,
    keeps the invariant, and leaves what it let go of to the context that made
    it. *)
Theorem calls_safe me cs t :
  table_ok t -> Forall proper cs ->
  exists rs t', run_calls me cs t = Some (rs, t') /\ length rs = length cs /\ table_ok t' /\ settles me t t'.
Proof.
  intros Ht Hcs. destruct (run_calls_ok me cs t Ht Hcs) as (rs & t' & E & ? & ? & _). exists rs, t'. split_and!; auto.
  clear - E. revert t rs E. induction cs as [|c cs IH]; intros t rs; cbn [run_calls]; monad; [by intros [= <- _]|].
  destruct (run_call me c t) as [[r t1]|]; [|done]. destruct (run_calls me cs t1) as [[rs' t2]|] eqn:E; [|done].
  intros [= <- <-]. cbn [length]. f_equal. eauto.
Qed.

Lemma calls_safe_witness :
  exists rs t', run_calls 7 [Call_bind 3 OKM_FILE 5 6 0 0; Call_dup 3 2000 1; Call_dup 3 (-1) 1; Call_close_all] started = Some (rs, t') /\
    length rs = 4%nat.
Proof.
  destruct (calls_safe 7 [Call_bind 3 OKM_FILE 5 6 0 0; Call_dup 3 2000 1; Call_dup 3 (-1) 1; Call_close_all] started started_ok)
    as (rs & t' & E & H & _); [repeat constructor; discriminate|]. exists rs, t'. split; [exact E|exact H].
Defined.
