(* ===== verification/Names.v ===== *)
(** The resolver of names of port/src/okm_fd.c: lexical normalisation, the choice
    of the supplied directory whose name is the longest prefix, the working
    directory, and the null device's name.

    A C string is the list of its bytes, none of them zero; reading at its length
    reads its terminator ([char_at]). *)
From S2P Require Import Prelude Kal FdTable.
From stdpp Require Import base list option.
From Stdlib Require Import ZArith Lia.

#[local] Open Scope Z_scope.

Abbreviation str := (list Z).

Definition OKM_MAX_PATH : Z := 4096.
Definition AT_FDCWD : Z := -100.

(** '/', '.', ':' and the backslash. *)
Definition slash : Z := 47.
Definition dot : Z := 46.
Definition colon : Z := 58.
Definition backslash : Z := 92.

Definition len (s : str) : Z := Z.of_nat (length s).
Definition char_at (s : str) (i : Z) : Z := default 0 (at_ s i).

(** ** Lexical normalisation *)

(** [while ( *p == '/') p++]. *)
Fixpoint skip_slashes (p : str) : str :=
  match p with
  | c :: p' => if c =? slash then skip_slashes p' else p
  | [] => []
  end.

(** [while ( *p && *p != '/') p++]: what is passed over, and the rest. *)
Fixpoint component (p : str) : str * str :=
  match p with
  | c :: p' => if c =? slash then ([], p) else let '(s, r) := component p' in (c :: s, r)
  | [] => ([], [])
  end.

(** What has been written, the last byte first: [while (o > 0 && out[o-1] != '/') o--]. *)
Fixpoint drop_component (out : str) : str :=
  match out with
  | c :: o => if c =? slash then out else drop_component o
  | [] => []
  end.

Definition is_dot (s : str) : bool := bool_decide (s = [dot]).
Definition is_dotdot (s : str) : bool := bool_decide (s = [dot; dot]).

(** An answer is a negated error value or what was written. *)
Abbreviation answer := (Z + str)%type.

Fixpoint normalise_loop (fuel : nat) (p out : str) (cap : Z) : answer :=
  match fuel with
  | O => inl (- EIO)
  | S f =>
      match skip_slashes p with
      | [] => inr (rev out)
      | p =>
          let '(s, p) := component p in
          if is_dot s then normalise_loop f p out cap
          else if is_dotdot s then normalise_loop f p (tail (drop_component out)) cap
          else if cap <? len out + len s + 2 then inl (- ENAMETOOLONG)
          else normalise_loop f p (rev s ++ (if len out =? 0 then [] else [slash]) ++ out) cap
      end
  end.

Definition normalise (p : str) (cap : Z) : answer := normalise_loop (S (length p)) p [] cap.

(** ** Roots and prefixes *)

Definition is_letter (c : Z) : bool := ((65 <=? c) && (c <=? 90)) || ((97 <=? c) && (c <=? 122)).

Definition root_length (name : str) : Z :=
  if char_at name 0 =? 0 then 0
  else if char_at name 0 =? slash then 1
  else if (char_at name 1 =? colon) && ((char_at name 2 =? slash) || (char_at name 2 =? backslash)) && is_letter (char_at name 0)
  then 3
  else 0.

Definition lower (c : Z) : Z := if (65 <=? c) && (c <=? 90) then c - 65 + 97 else c.

Definition same_char (a b : Z) (volume : bool) : bool :=
  if a =? b then true
  else if negb volume then false
  else if ((a =? slash) || (a =? backslash)) && ((b =? slash) || (b =? backslash)) then true
  else lower a =? lower b.

(** The loop over the [len] bytes of [name]. *)
Fixpoint same_chars (n : nat) (i : Z) (name abs : str) (volume : bool) : bool :=
  match n with
  | O => true
  | S k => same_char (char_at abs i) (char_at name i) volume && same_chars k (i + 1) name abs volume
  end.

Definition is_prefix_at_boundary (name abs : str) : bool :=
  let n := len name in
  if n =? 0 then false
  else
    let volume := (2 <=? n) && (char_at name 1 =? colon) in
    if negb (same_chars (length name) 0 name abs volume) then false
    else if (char_at name (n - 1) =? slash) || (volume && (char_at name (n - 1) =? backslash)) then true
    else (char_at abs n =? 0) || (char_at abs n =? slash) || (volume && (char_at abs n =? backslash)).

(** ** Joining *)

(** [for (p = s; *p && o + 1 < sizeof tmp; p++) tmp[o++] = *p]. *)
Fixpoint append_bounded (tmp s : str) : str :=
  match s with
  | c :: s' => if len tmp + 1 <? OKM_MAX_PATH then append_bounded (tmp ++ [c]) s' else tmp
  | [] => tmp
  end.

Definition to_slash (c : Z) : Z := if c =? backslash then slash else c.

Definition join (prefix rel : str) (cap : Z) : answer :=
  let rroot := root_length rel in
  let proot := if rroot =? 0 then root_length prefix else 0 in
  let base := if rroot =? 0 then drop (Z.to_nat proot) prefix else [] in
  let tmp := append_bounded [] base in
  let tmp := if negb (len tmp =? 0) && negb (char_at tmp (len tmp - 1) =? slash) && (len tmp + 1 <? OKM_MAX_PATH)
             then tmp ++ [slash] else tmp in
  let tmp := append_bounded tmp (drop (Z.to_nat rroot) rel) in
  if OKM_MAX_PATH <=? len tmp + 1 then inl (- ENAMETOOLONG)
  else
    let keep := if rroot =? 0 then proot else rroot in
    let from := if rroot =? 0 then prefix else rel in
    let tmp := if (keep =? 3) && (char_at from 1 =? colon) then to_slash <$> tmp else tmp in
    if cap <=? keep + 1 then inl (- ENAMETOOLONG)
    else
      match normalise tmp (cap - keep) with
      | inl e => inl e
      | inr out => inr ((to_slash <$> take (Z.to_nat keep) from) ++ out)
      end.

(** The length of a name already in the form [normalise] produces, else zero. *)
Fixpoint normal_components (fuel : nat) (p : str) : bool :=
  match p with
  | [] => true
  | _ =>
      match fuel with
      | O => false
      | S f =>
          let '(s, r) := component p in
          if len s =? 0 then false
          else if is_dot s || is_dotdot s then false
          else
            match r with
            | [] => true
            | _ :: r' => match r' with [] => false | _ => normal_components f r' end
            end
      end
  end.

Definition already_normal (path : str) : Z :=
  match path with
  | c :: p =>
      if negb (c =? slash) then 0
      else if normal_components (length p) p then (if len path <? OKM_MAX_PATH then len path else 0)
      else 0
  | [] => 0
  end.

(** ** The supplied directories and the working directory *)

Record preopen := Preopen { pre_dir : Z; pre_name : str }.

Record names := Names {
  g_pre : list preopen;
  okm_cwd_dir : Z;
  g_cwd : str;
}.

(** [copy_str(dst, src, n, cap)]: what [dst] then holds. *)
Definition copy_str (src : str) (n cap : Z) : str :=
  take (Z.to_nat (if cap <=? n then (if cap =? 0 then 0 else cap - 1) else n)) src.

(** A name resolved: a directory and the remainder. *)
Record okm_at := At { at_base : Z; at_rel : str }.

(** The supplied directory whose name is the longest prefix, the first of equals:
    the index and directory found so far and those that remain. *)
Fixpoint longest (best : option preopen) (l : list preopen) (abs : str) : option preopen :=
  match l with
  | [] => best
  | q :: l' =>
      let best' :=
        if negb (is_prefix_at_boundary (pre_name q) abs) then best
        else match best with
             | None => Some q
             | Some b => if len (pre_name b) <? len (pre_name q) then Some q else best
             end in
      longest best' l' abs
  end.

Fixpoint skip_separators (volume : bool) (p : str) : str :=
  match p with
  | c :: p' => if (c =? slash) || ((c =? backslash) && volume) then skip_separators volume p' else p
  | [] => []
  end.

(** Whether a component of a normalised name ascends: the loop before -EACCES. *)
Fixpoint ascends (fuel : nat) (p : str) : bool :=
  match p with
  | [] => false
  | _ =>
      match fuel with
      | O => false
      | S f =>
          if (char_at p 0 =? dot) && (char_at p 1 =? dot) && ((char_at p 2 =? slash) || (char_at p 2 =? 0)) then true
          else ascends f (skip_slashes (component p).2)
      end
  end.

(** From the absolute name on. *)
Definition resolve_abs (g : names) (abs : str) : Z + okm_at :=
  match longest None (g_pre g) abs with
  | None => inl (- ENOENT)
  | Some b =>
      let n := len (pre_name b) in
      let volume := (2 <=? n) && (char_at (pre_name b) 1 =? colon) in
      let rest := skip_separators volume (drop (Z.to_nat n) abs) in
      inr (At (pre_dir b)
              (match rest with
               | [] => copy_str [dot] 1 OKM_MAX_PATH
               | _ => copy_str rest (len rest) OKM_MAX_PATH
               end))
  end.

Definition okm_resolve (t : fd_table) (g : names) (dirfd : Z) (path : str) (empty_ok : bool) : Z + okm_at :=
  if (len path =? 0) && negb empty_ok then inl (- ENOENT)
  else if negb (already_normal path =? 0) then resolve_abs g path
  else if negb (root_length path =? 0) then
    match join [] path OKM_MAX_PATH with inl e => inl e | inr abs => resolve_abs g abs end
  else if dirfd =? AT_FDCWD then
    match join (g_cwd g) path OKM_MAX_PATH with inl e => inl e | inr abs => resolve_abs g abs end
  else
    match (d ← okm_desc_of t dirfd; at_ (g_desc t) d) with
    | None => inl (- ENOTDIR)
    | Some d =>
        if negb (bool_decide (d_kind d = OKM_DIR)) then inl (- ENOTDIR)
        else
          match dir_name t d with
          | Some name =>
              match join name path OKM_MAX_PATH with inl e => inl e | inr abs => resolve_abs g abs end
          | None =>
              match normalise path OKM_MAX_PATH with
              | inl e => inl e
              | inr norm =>
                  if ascends (length norm) norm then inl (- EACCES)
                  else
                    let rel := copy_str norm (len norm) OKM_MAX_PATH in
                    inr (At (d_dir d) (match rel with [] => copy_str [dot] 1 OKM_MAX_PATH | _ => rel end))
              end
          end
    end.

Definition okm_absolute (t : fd_table) (g : names) (dirfd : Z) (path : str) (cap : Z) : answer :=
  if negb (root_length path =? 0) then join [] path cap
  else if dirfd =? AT_FDCWD then join (g_cwd g) path cap
  else
    match (d ← okm_desc_of t dirfd; at_ (g_desc t) d) with
    | None => inl (- ENOTDIR)
    | Some d =>
        if negb (bool_decide (d_kind d = OKM_DIR)) then inl (- ENOTDIR)
        else match dir_name t d with None => inl (- ENOENT) | Some name => join name path cap end
    end.

(** [open_dir base rel] is okm_fs_open_dir's answer: a directory or an error. *)
Definition okm_chdir (open_dir : Z -> str -> kal_error + Z) (t : fd_table) (g : names) (dirfd : Z) (path : option str) : Z * names :=
  let done_ (target : Z) (abs : str) : Z * names :=
    let cwd := copy_str abs (len abs) OKM_MAX_PATH in
    (0, Names (g_pre g) target (match cwd with [] => [slash] | _ => cwd end)) in
  match path with
  | Some path =>
      match okm_resolve t g dirfd path false with
      | inl e => (e, g)
      | inr a =>
          match open_dir (at_base a) (at_rel a) with
          | inl e => (- okm_errno e, g)
          | inr target =>
              match join (if negb (root_length path =? 0) then [] else g_cwd g) path OKM_MAX_PATH with
              | inl _ => (- ENAMETOOLONG, g)
              | inr abs => done_ target abs
              end
          end
      end
  | None =>
      match (d ← okm_desc_of t dirfd; at_ (g_desc t) d) with
      | None => (- ENOTDIR, g)
      | Some d =>
          if negb (bool_decide (d_kind d = OKM_DIR)) then (- ENOTDIR, g)
          else
            match dir_name t d with
            | None => (- ENOMEM, g)
            | Some name =>
                let abs := copy_str name (len name) OKM_MAX_PATH in
                done_ (match open_dir (d_dir d) [dot] with inr own => own | inl _ => d_dir d end) abs
            end
      end
  end.

(** "/dev/null" *)
Definition null_device : str := [47; 100; 101; 118; 47; 110; 117; 108; 108].

Definition null_name_resolved (t : fd_table) (g : names) (dirfd : Z) (path : str) : bool :=
  if len path =? 0 then false
  else match okm_absolute t g dirfd path OKM_MAX_PATH with inl _ => false | inr abs => bool_decide (abs = null_device) end.

Definition separator (c : Z) : bool := (c =? slash) || (c =? backslash).

(** The last component by either separator, ignoring separators at the end: its
    bytes, the last first. *)
Fixpoint strip_end (p : str) : str :=
  match p with
  | c :: p' => if separator c then strip_end p' else p
  | [] => []
  end.

Fixpoint until_separator (p : str) : str :=
  match p with
  | c :: p' => if separator c then [] else c :: until_separator p'
  | [] => []
  end.

Definition last_component (path : str) : str := rev (until_separator (strip_end (rev path))).

(** "null" *)
Definition null_ : str := [110; 117; 108; 108].

Definition okm_null_name (t : fd_table) (g : names) (dirfd : Z) (path : str) : bool :=
  if len path =? 0 then false
  else if OKM_MAX_PATH <=? len path then false
  else
    let last := last_component path in
    if negb (len last =? 0) && negb (bool_decide (last = null_)) && negb (is_dot last) && negb (is_dotdot last) then false
    else null_name_resolved t g dirfd path.

(** [pres] is what okm_fs_preopen answers at each index: an error, or a directory
    and its name. A name that does not fit is passed over. *)
Fixpoint take_preopens (pres : list (kal_error + (Z * str))) (g : list preopen) : list preopen :=
  match pres with
  | [] => g
  | q :: l =>
      if Z.of_nat (length g) <? 16 then
        match q with
        | inl _ => take_preopens l g
        | inr (d, name) => if 256 <=? len name then take_preopens l g else take_preopens l (g ++ [Preopen d name])
        end
      else g
  end.

Definition init_preopens (pres : list (kal_error + (Z * str))) : names :=
  let g := take_preopens pres [] in
  match g with
  | [] => Names [] 0 [slash]
  | q :: _ => Names g (pre_dir q) (copy_str (pre_name q) (len (pre_name q)) OKM_MAX_PATH)
  end.
