(* ===== verification/NamesOk.v ===== *)
(** What the resolver of names promises: normalisation is lexical resolution, an
    absolute name that is already normal is resolved as any other would be, and a
    remainder handed to the environment is relative and does not ascend. *)
From S2P Require Import Prelude Kal FdTable Names.
From stdpp Require Import base list option.
From Stdlib Require Import ZArith Lia.

#[local] Open Scope Z_scope.

(** ** Lexical resolution, as a specification *)

(** The parts of a name between separators. *)
Fixpoint parts (p : str) : list str :=
  match p with
  | [] => [[]]
  | c :: p' =>
      if c =? slash then [] :: parts p'
      else match parts p' with s :: r => (c :: s) :: r | [] => [[c]] end
  end.

(** Those that are not empty. *)
Definition components (p : str) : list str := List.filter (fun s => negb (len s =? 0)) (parts p).

(** A component's effect on the components before it, the last first. *)
Definition enter (st : list str) (s : str) : list str :=
  if is_dot s then st else if is_dotdot s then tail st else s :: st.

Definition lexical (p : str) : list str := rev (fold_left enter (components p) []).

(** The name with these components. *)
Fixpoint path_of (cs : list str) : str :=
  match cs with
  | [] => []
  | [s] => s
  | s :: cs' => s ++ slash :: path_of cs'
  end.

(** A component that names something beneath: not empty, no separator, and neither
    [.] nor [..]. *)
Definition plain (s : str) : Prop := s <> [] /\ (slash ∉ s) /\ s <> [dot] /\ s <> [dot; dot].

(** A name is relative and does not ascend. *)
Definition beneath (rel : str) : Prop :=
  rel = [dot] \/ (rel <> [] /\ exists cs, Forall plain cs /\ rel = path_of cs).

(** ** Parts and the loop *)

Lemma len_nonneg s : 0 <= len s.
Proof. unfold len. lia. Qed.

Lemma len_app s r : len (s ++ r) = len s + len r.
Proof. unfold len. rewrite length_app. lia. Qed.

Lemma len_cons c s : len (c :: s) = 1 + len s.
Proof. unfold len. cbn [length]. lia. Qed.

Lemma len_rev s : len (rev s) = len s.
Proof. unfold len. by rewrite length_rev. Qed.

Lemma len_zero s : len s = 0 <-> s = [].
Proof. unfold len. destruct s; cbn [length]; split; try done; lia. Qed.

Lemma component_split p s r : component p = (s, r) -> p = s ++ r /\ (slash ∉ s) /\ (r = [] \/ exists r', r = slash :: r').
Proof.
  revert s r. induction p as [|c p IH]; intros s r; cbn [component].
  - intros [= <- <-]. split; [done|]. split; [apply not_elem_of_nil|auto].
  - split_if.
    + intros [= <- <-]. split; [done|]. split; [apply not_elem_of_nil|]. right. subst. eauto.
    + destruct (component p) as [s' r'] eqn:E. intros [= <- <-]. destruct (IH s' r' eq_refl) as (-> & Hs & Hr).
      split; [done|]. split; [|done]. rewrite not_elem_of_cons. split; [lia|done].
Qed.

Lemma parts_app s r : slash ∉ s -> parts (s ++ slash :: r) = s :: parts r.
Proof.
  induction s as [|c s IH]; intros Hs; cbn [app parts].
  - by rewrite Z.eqb_refl.
  - rewrite not_elem_of_cons in Hs. destruct Hs as [Hc Hs]. split_if; [by subst|]. by rewrite IH.
Qed.

Lemma parts_whole s : slash ∉ s -> parts s = [s].
Proof.
  induction s as [|c s IH]; intros Hs; cbn [parts]; [done|].
  rewrite not_elem_of_cons in Hs. destruct Hs as [Hc Hs]. split_if; [by subst|]. by rewrite IH.
Qed.

Lemma components_slash p : components (slash :: p) = components p.
Proof. unfold components. cbn [parts]. by rewrite Z.eqb_refl. Qed.

Lemma components_step s r : slash ∉ s -> s <> [] -> r = [] \/ (exists r', r = slash :: r') ->
  components (s ++ r) = s :: components r.
Proof.
  intros Hs Hne Hr. assert (negb (len s =? 0) = true) as E by (rewrite <-len_zero in Hne; lia).
  destruct Hr as [-> | [r' ->]].
  - rewrite app_nil_r. unfold components. rewrite parts_whole by done. cbn [List.filter]. by rewrite E.
  - rewrite components_slash. unfold components. rewrite parts_app by done. cbn [List.filter]. by rewrite E.
Qed.

Lemma components_skip p : components (skip_slashes p) = components p.
Proof. induction p as [|c p IH]; cbn [skip_slashes]; [done|]. split_if; [|done]. subst. by rewrite components_slash. Qed.

Lemma skip_head p : match skip_slashes p with [] => True | c :: _ => c <> slash end.
Proof. induction p as [|c p IH]; cbn [skip_slashes]; [done|]. split_if; [done|]. done. Qed.

Lemma length_skip p : (length (skip_slashes p) <= length p)%nat.
Proof. induction p as [|c p IH]; cbn [skip_slashes length]; [lia|]. split_if; cbn [length]; lia. Qed.

Lemma component_nonempty c p s r : c <> slash -> component (c :: p) = (s, r) -> s <> [].
Proof. intros Hc. cbn [component]. split_if; [done|]. destruct (component p). by intros [= <- <-]. Qed.

(** ** The buffer as a stack of components *)

Fixpoint buffer (st : list str) : str :=
  match st with
  | [] => []
  | s :: st' => rev s ++ (match st' with [] => [] | _ => [slash] end) ++ buffer st'
  end.

Definition solid (s : str) : Prop := s <> [] /\ (slash ∉ s).

Lemma buffer_nil st : Forall solid st -> buffer st = [] -> st = [].
Proof.
  destruct 1 as [|s st [Hs _] _]; [done|]. cbn [buffer]. intros [E _]%app_eq_nil. destruct Hs.
  by rewrite <-(rev_involutive s), E.
Qed.

Lemma drop_component_app s r : slash ∉ s -> drop_component (s ++ r) = drop_component r.
Proof.
  induction s as [|c s IH]; intros Hs; cbn [app drop_component]; [done|].
  rewrite not_elem_of_cons in Hs. destruct Hs as [Hc Hs]. split_if; [by subst|]. auto.
Qed.

Lemma buffer_pop st : Forall solid st -> tail (drop_component (buffer st)) = buffer (tail st).
Proof.
  destruct 1 as [|s st [Hs Hslash] Hst]; [done|]. cbn [buffer tail]. rewrite drop_component_app.
  - destruct st as [|s' st']; cbn [app]; [done|]. cbn [drop_component]. by rewrite Z.eqb_refl.
  - by rewrite list_elem_of_In, <-in_rev, <-list_elem_of_In.
Qed.

Lemma buffer_push st s : Forall solid st -> rev s ++ (if len (buffer st) =? 0 then [] else [slash]) ++ buffer st = buffer (s :: st).
Proof.
  intros Hst. cbn [buffer]. f_equal. f_equal. destruct st as [|s' st']; [done|].
  split_if; [|done]. by apply len_zero, buffer_nil in Heqb.
Qed.

(** The loop over the components. *)
Fixpoint walk (cs st : list str) (cap : Z) : Z + list str :=
  match cs with
  | [] => inr st
  | s :: cs' =>
      if is_dot s then walk cs' st cap
      else if is_dotdot s then walk cs' (tail st) cap
      else if cap <? len (buffer st) + len s + 2 then inl (- ENAMETOOLONG)
      else walk cs' (s :: st) cap
  end.

Lemma normalise_walk fuel p st cap :
  Forall solid st -> (length p < fuel)%nat ->
  normalise_loop fuel p (buffer st) cap = match walk (components p) st cap with inl e => inl e | inr st => inr (rev (buffer st)) end.
Proof.
  revert p st. induction fuel as [|f IH]; intros p st Hst Hf; [lia|]. cbn [normalise_loop].
  rewrite <-(components_skip p). pose proof (skip_head p) as Hh. pose proof (length_skip p) as Hl.
  destruct (skip_slashes p) as [|c q] eqn:Eq; [done|]. destruct (component (c :: q)) as [s r] eqn:Ec.
  pose proof (component_nonempty _ _ _ _ Hh Ec) as Hne. apply component_split in Ec as (E & Hs & Hr).
  assert (length r < f)%nat as Hfr.
  { rewrite E in Hl. rewrite length_app in Hl. destruct s; [done|]. cbn [length] in Hl. lia. }
  rewrite E, components_step by done. cbn [walk]. split_if; [by apply IH|]. split_if.
  - rewrite buffer_pop by done. apply IH; [|done]. destruct Hst; [done|]. done.
  - split_if; [done|]. rewrite buffer_push by done. apply IH; [|done]. constructor; [by split|done].
Qed.

Lemma walk_enter cs st cap st' : walk cs st cap = inr st' -> st' = fold_left enter cs st.
Proof.
  revert st. induction cs as [|s cs IH]; intros st; cbn [walk fold_left]; [by intros [= ->]|].
  unfold enter at 2. split_if; [apply IH|]. split_if; [apply IH|]. split_if; [done|]. apply IH.
Qed.

Lemma buffer_path st : rev (buffer st) = path_of (rev st).
Proof.
  assert (forall cs s, path_of (cs ++ [s]) = match cs with [] => s | _ => path_of cs ++ slash :: s end) as Hsnoc.
  { induction cs as [|x cs IH]; intros s; [done|]. cbn [app]. destruct cs as [|y cs]; [done|].
    cbn [app] in IH |- *. change (path_of (x :: y :: cs ++ [s])) with (x ++ slash :: path_of (y :: cs ++ [s])).
    rewrite IH. change (path_of (x :: y :: cs)) with (x ++ slash :: path_of (y :: cs)). by rewrite <-app_assoc. }
  induction st as [|s st IH]; [done|]. cbn [buffer rev]. rewrite Hsnoc, !rev_app_distr, IH, rev_involutive.
  destruct st as [|s' st']; [done|]. cbn [rev app]. rewrite <-app_assoc. by destruct (rev st').
Qed.

(** ** Normalisation *)

Lemma parts_solid p : Forall (fun s => slash ∉ s) (parts p).
Proof.
  induction p as [|c p IH]; cbn [parts]; [repeat constructor; apply not_elem_of_nil|].
  split_if; [constructor; [apply not_elem_of_nil|done]|].
  destruct IH as [|s r Hs Hr]; constructor; [by apply not_elem_of_cons; split; [lia|apply not_elem_of_nil]|done| |done].
  apply not_elem_of_cons. split; [lia|done].
Qed.

Lemma components_solid p : Forall solid (components p).
Proof.
  pose proof (parts_solid p) as H. unfold components. induction H as [|s r Hs _ IH]; cbn [List.filter]; [done|].
  destruct (negb (len s =? 0)) eqn:E; [|done]. constructor; [|done]. split; [|done]. rewrite <-len_zero. lia.
Qed.

Lemma enter_plain cs st : Forall solid cs -> Forall plain st -> Forall plain (fold_left enter cs st).
Proof.
  intros Hcs. revert st. induction Hcs as [|s cs [Hne Hs] _ IH]; intros st Hst; [done|]. cbn [fold_left]. apply IH.
  unfold enter, is_dot, is_dotdot. repeat case_bool_decide; [done|by destruct Hst|]. constructor; [|done]. by split_and!.
Qed.

Lemma lexical_plain p : Forall plain (lexical p).
Proof. unfold lexical. apply Forall_rev. apply enter_plain; [apply components_solid|done]. Qed.

Lemma plain_solid st : Forall plain st -> Forall solid st.
Proof. apply Forall_impl. by intros s (? & ? & _). Qed.

Lemma buffer_tail st : len (buffer (tail st)) <= len (buffer st).
Proof.
  destruct st as [|s st]; [done|]. cbn [tail buffer]. rewrite !len_app. pose proof (len_nonneg (rev s)).
  pose proof (len_nonneg (match st with [] => [] | _ => [slash] end)). lia.
Qed.

Lemma buffer_push_len s st : len (buffer (s :: st)) = len s + (match st with [] => 0 | _ => 1 end) + len (buffer st).
Proof. cbn [buffer]. rewrite !len_app, len_rev. destruct st; unfold len at 2; cbn [length]; lia. Qed.

Lemma walk_bound cs st cap st' :
  walk cs st cap = inr st' -> len (buffer st) + 1 <= cap -> Forall solid st -> Forall solid cs -> len (buffer st') + 1 <= cap.
Proof.
  intros H Hb Hst Hcs. revert st Hb Hst H. induction Hcs as [|s cs Hs _ IH]; intros st Hb Hst; cbn [walk]; [by intros [= <-]|].
  split_if; [by apply IH|]. split_if.
  - apply IH; [|by destruct Hst]. pose proof (buffer_tail st). lia.
  - split_if; [done|]. apply IH; [|by constructor]. rewrite buffer_push_len. destruct st; [change (len (buffer [])) with 0 in *|]; lia.
Qed.

(** The bytes of the components, with a separator each. *)
Fixpoint span (cs : list str) : Z :=
  match cs with [] => 0 | s :: cs' => len s + 1 + span cs' end.

Lemma span_components p : span (components p) <= len p + 1.
Proof.
  assert (span (parts p) = len p + 1) as E.
  { induction p as [|c p IH]; cbn [parts]; [done|]. rewrite len_cons. split_if; [cbn [span]; rewrite IH; unfold len; cbn; lia|].
    destruct (parts p) as [|s r]; cbn [span] in *; [pose proof (len_nonneg p); lia|]. rewrite len_cons. lia. }
  rewrite <-E. unfold components. clear E. induction (parts p) as [|s r IH]; cbn [List.filter span]; [lia|].
  pose proof (len_nonneg s). destruct (negb (len s =? 0)); cbn [span]; lia.
Qed.

(** No name is too long for a buffer two bytes longer than it. *)
Lemma walk_fits cs st cap : len (buffer st) + span cs + 1 <= cap -> exists st', walk cs st cap = inr st'.
Proof.
  revert st. induction cs as [|s cs IH]; intros st H; cbn [walk span] in *; [eauto|]. pose proof (len_nonneg s).
  split_if; [apply IH; lia|]. split_if; [apply IH; pose proof (buffer_tail st); lia|]. 
  assert (0 <= span cs) by (clear; induction cs as [|x cs IH]; cbn [span]; [lia|]; pose proof (len_nonneg x); lia).
  split_if; [lia|]. apply IH. rewrite buffer_push_len. destruct st; [change (len (buffer [])) with 0 in *|]; lia.
Qed.

Lemma normalise_eq p cap :
  normalise p cap = match walk (components p) [] cap with inl e => inl e | inr st => inr (path_of (rev st)) end.
Proof.
  unfold normalise. change (@nil Z) with (buffer []). rewrite normalise_walk by (done || lia).
  destruct (walk _ _ _); [done|]. by rewrite buffer_path.
Qed.

Lemma walk_error cs st cap e : walk cs st cap = inl e -> e = - ENAMETOOLONG.
Proof.
  revert st. induction cs as [|s cs IH]; intros st; cbn [walk]; [done|]. split_if; [apply IH|]. split_if; [apply IH|].
  split_if; [by intros [= <-]|apply IH].
Qed.

Lemma normalise_ok p cap out : 0 < cap -> normalise p cap = inr out -> out = path_of (lexical p) /\ len out < cap.
Proof.
  intros Hc. rewrite normalise_eq. destruct (walk (components p) [] cap) as [|st] eqn:E; [done|]. intros [= <-].
  split; [by rewrite (walk_enter _ _ _ _ E)|]. rewrite <-buffer_path, len_rev.
  pose proof (walk_bound _ _ _ _ E ltac:(change (len (buffer [])) with 0; lia) ltac:(done) (components_solid p)). lia.
Qed.

Lemma normalise_fits p cap : len p + 2 <= cap -> normalise p cap = inr (path_of (lexical p)).
Proof.
  intros H. rewrite normalise_eq. pose proof (span_components p).
  destruct (walk_fits (components p) [] cap) as [st E]; [change (len (buffer [])) with 0; lia|]. rewrite E. by rewrite (walk_enter _ _ _ _ E).
Qed.

Lemma normalise_error p cap e : normalise p cap = inl e -> e = - ENAMETOOLONG.
Proof. rewrite normalise_eq. destruct (walk _ _ _) eqn:E; [|done]. intros [= <-]. by eapply walk_error. Qed.

(** ** Names in normal form *)

Lemma path_cons s cs : path_of (s :: cs) = s ++ (match cs with [] => [] | _ => slash :: path_of cs end).
Proof. destruct cs; cbn [path_of]; [by rewrite app_nil_r|done]. Qed.

Lemma solid_head s : solid s -> exists c s', s = c :: s' /\ c <> slash.
Proof. intros [Hne Hs]. destruct s as [|c s']; [done|]. rewrite not_elem_of_cons in Hs. exists c, s'. split; [done|]. destruct Hs. auto. Qed.

Lemma skip_path cs : Forall solid cs -> skip_slashes (path_of cs) = path_of cs.
Proof.
  destruct 1 as [|s cs Hs _]; [done|]. rewrite path_cons. destruct (solid_head s Hs) as (c & s' & -> & Hc).
  cbn [app skip_slashes]. split_if; [done|done].
Qed.

Lemma components_path cs : Forall solid cs -> components (path_of cs) = cs.
Proof.
  induction 1 as [|s cs [Hne Hs] _ IH]; [done|]. rewrite path_cons. destruct cs as [|s' cs'].
  - rewrite components_step by (done || auto). done.
  - rewrite components_step by (done || eauto). by rewrite components_slash, IH.
Qed.

Lemma enter_id cs st : Forall plain cs -> fold_left enter cs st = rev cs ++ st.
Proof.
  intros H. revert st. induction H as [|s cs (_ & _ & Hd & Hdd) _ IH]; intros st; cbn [fold_left rev]; [done|].
  unfold enter at 2, is_dot, is_dotdot. rewrite !bool_decide_eq_false_2 by done. by rewrite IH, <-app_assoc.
Qed.

Lemma lexical_path cs : Forall plain cs -> lexical (path_of cs) = cs.
Proof.
  intros H. unfold lexical. rewrite components_path by by apply plain_solid. rewrite enter_id by done.
  by rewrite app_nil_r, rev_involutive.
Qed.

(** A normal name cut at a boundary. *)
Definition boundary (u v : str) : Prop := u = [] \/ v = [] \/ (exists v', v = slash :: v') \/ (exists u', u = u' ++ [slash]).

Lemma path_boundary cs u v :
  Forall solid cs -> u ++ v = path_of cs -> boundary u v ->
  exists cs1 cs2, cs = cs1 ++ cs2 /\ skip_slashes v = path_of cs2.
Proof.
  intros Hcs. revert u. induction Hcs as [|s cs Hs Hcs IH]; intros u E Hb.
  { exists [], []. apply app_eq_nil in E as [_ ->]. done. }
  destruct (decide (u = [])) as [->|Hu].
  { exists [], (s :: cs). split; [done|]. cbn [app] in E. rewrite E. apply skip_path. by constructor. }
  rewrite path_cons in E. destruct Hs as [Hne Hslash].
  assert (forall w, v = w -> w = match cs with [] => [] | _ => slash :: path_of cs end -> u = s ->
    exists cs1 cs2, s :: cs = cs1 ++ cs2 /\ skip_slashes v = path_of cs2) as Hat.
  { intros w -> -> ->. exists [s], cs. split; [done|]. destruct cs as [|s' cs']; [done|].
    cbn [skip_slashes]. rewrite Z.eqb_refl. by apply skip_path. }
  apply app_eq_app in E as (k & [[Eu Ek] | [Es Ev]]); revgoals.
  - destruct k as [|c k]; [rewrite app_nil_r in *; cbn [app] in *; subst; by eapply Hat|].
    (* [u] ends within [s] *)
    exfalso. subst s v. rewrite elem_of_app, elem_of_cons in Hslash. apply Hslash.
    destruct Hb as [|[|[[v' [= -> ]]|[u' ->]]]]; [done|done|auto|]. left. apply elem_of_app. right. by left.
  - destruct k as [|c k]; [rewrite app_nil_r in *; cbn [app] in *; subst; by eapply Hat|].
    (* [u] goes beyond [s] *)
    destruct cs as [|s' cs']; [done|]. cbn [app] in Ek. injection Ek as <- Ek.
    destruct (IH k (eq_sym Ek)) as (cs1 & cs2 & E2 & Hv).
    { subst u. destruct Hb as [|[|[|[u' Hl]]]]; [done|right; auto|right; auto|].
      destruct k as [|c' k] using rev_ind; [by left|]. right. right. right. exists k.
      change (slash :: k ++ [c']) with ((slash :: k) ++ [c']) in Hl. rewrite app_assoc in Hl. apply app_inj_tail in Hl as [_ ->]. done. }
    exists (s :: cs1), cs2. split; [by rewrite E2|done].
Qed.

(** ** Joining *)

Lemma append_fits tmp s : len tmp + len s + 1 <= OKM_MAX_PATH -> append_bounded tmp s = tmp ++ s.
Proof.
  revert tmp. induction s as [|c s IH]; intros tmp H; cbn [append_bounded]; [by rewrite app_nil_r|].
  rewrite len_cons in H. pose proof (len_nonneg s). split_if; [|lia]. rewrite IH by (rewrite len_app; change (len [c]) with 1; lia).
  by rewrite <-app_assoc.
Qed.

Lemma append_whole tmp s : len (append_bounded tmp s) + 1 < OKM_MAX_PATH -> append_bounded tmp s = tmp ++ s.
Proof.
  revert tmp. induction s as [|c s IH]; intros tmp; cbn [append_bounded]; [by rewrite app_nil_r|].
  split_if; [|lia]. intros H. rewrite IH by done. by rewrite <-app_assoc.
Qed.

Lemma append_le tmp s : len tmp <= len (append_bounded tmp s).
Proof.
  revert tmp. induction s as [|c s IH]; intros tmp; cbn [append_bounded]; [lia|]. split_if; [|lia].
  specialize (IH (tmp ++ [c])). rewrite len_app in IH. change (len [c]) with 1 in IH. lia.
Qed.

Definition root_of (prefix rel : str) : Z := if root_length rel =? 0 then root_length prefix else root_length rel.
Definition rooted_in (prefix rel : str) : str := if root_length rel =? 0 then prefix else rel.

(** What is normalised: the base, a separator where it has none, and the name. *)
Definition joined (prefix rel : str) : str :=
  let base := if root_length rel =? 0 then drop (Z.to_nat (root_length prefix)) prefix else [] in
  let base := if negb (len base =? 0) && negb (char_at base (len base - 1) =? slash) then base ++ [slash] else base in
  let tmp := base ++ drop (Z.to_nat (root_length rel)) rel in
  if (root_of prefix rel =? 3) && (char_at (rooted_in prefix rel) 1 =? colon) then to_slash <$> tmp else tmp.

Lemma len_fmap (f : Z -> Z) s : len (f <$> s) = len s.
Proof. unfold len. by rewrite length_fmap. Qed.

Lemma join_tmp (prefix : str) r :
  let tmp := append_bounded [] prefix in
  let tmp := if negb (len tmp =? 0) && negb (char_at tmp (len tmp - 1) =? slash) && (len tmp + 1 <? OKM_MAX_PATH) then tmp ++ [slash] else tmp in
  let tmp := append_bounded tmp r in
  len tmp + 1 < OKM_MAX_PATH ->
  tmp = (if negb (len prefix =? 0) && negb (char_at prefix (len prefix - 1) =? slash) then prefix ++ [slash] else prefix) ++ r.
Proof.
  cbv zeta. set (a := append_bounded [] prefix). set (b := if _ : bool then a ++ [slash] else a). intros H.
  rewrite append_whole by done. f_equal. pose proof (append_le b r). assert (len a <= len b) as Hab.
  { unfold b. split_if; [rewrite len_app; change (len [slash]) with 1; lia|lia]. }
  assert (a = prefix) as -> by (unfold a in *; rewrite append_whole by lia; done).
  unfold b. destruct (negb (len prefix =? 0) && negb (char_at prefix (len prefix - 1) =? slash)); [|done]. cbn [andb].
  split_if; [done|lia].
Qed.

Lemma join_ok prefix rel cap out :
  Names.join prefix rel cap = inr out ->
  out = (to_slash <$> take (Z.to_nat (root_of prefix rel)) (rooted_in prefix rel)) ++ path_of (lexical (joined prefix rel)) /\
  len out < cap.
Proof.
  unfold Names.join. cbv zeta. set (tmp := append_bounded _ (drop _ rel)). destruct (OKM_MAX_PATH <=? len tmp + 1) eqn:E; [done|]. boolean.
  assert (0 <= root_length prefix <= 3 /\ 0 <= root_length rel <= 3) as [Hp Hr] by (unfold root_length; split; split_ifs; lia).
  assert ((if root_length rel =? 0 then if root_length rel =? 0 then root_length prefix else 0 else root_length rel) = root_of prefix rel) as ->
    by (unfold root_of; by split_if).
  change (if root_length rel =? 0 then prefix else rel) with (rooted_in prefix rel).
  set (text := if (root_of prefix rel =? 3) && (char_at (rooted_in prefix rel) 1 =? colon) then to_slash <$> tmp else tmp).
  assert (text = joined prefix rel) as Et.
  { unfold text, joined. assert (tmp = (let base := if root_length rel =? 0 then drop (Z.to_nat (root_length prefix)) prefix else [] in
      let base := if negb (len base =? 0) && negb (char_at base (len base - 1) =? slash) then base ++ [slash] else base in
      base ++ drop (Z.to_nat (root_length rel)) rel)) as Etmp; [|by rewrite Etmp].
    unfold tmp in *. rewrite join_tmp by done. cbv zeta. by destruct (root_length rel =? 0). }
  split_if; [done|]. destruct (normalise text (cap - root_of prefix rel)) as [e|o] eqn:En; [done|]. intros [= <-].
  apply normalise_ok in En as [-> Hb]; [|lia]. rewrite Et in *. split; [done|].
  rewrite len_app, len_fmap. assert (len (take (Z.to_nat (root_of prefix rel)) (rooted_in prefix rel)) <= root_of prefix rel); [|lia].
  unfold len. rewrite length_take. unfold root_of. split_if; lia.
Qed.

(** ** Absolute names *)

Inductive absolute : str -> Prop :=
| absolute_slash cs : Forall plain cs -> absolute (slash :: path_of cs)
| absolute_volume c cs : is_letter c = true -> Forall plain cs -> backslash ∉ path_of cs -> absolute (c :: colon :: slash :: path_of cs).

Lemma char_at_0 c s : char_at (c :: s) 0 = c.
Proof. done. Qed.

Lemma root_text s :
  root_length s <> 0 ->
  (root_length s = 1 /\ (to_slash <$> take (Z.to_nat (root_length s)) s) = [slash]) \/
  (root_length s = 3 /\ char_at s 1 = colon /\ exists c, is_letter c = true /\ (to_slash <$> take (Z.to_nat (root_length s)) s) = [c; colon; slash]).
Proof.
  unfold root_length. destruct s as [|a s]; [done|]. rewrite char_at_0. split_ifs; try done.
  - left. subst. done.
  - right. split; [done|]. split; [done|]. exists a. split; [done|].
    destruct s as [|b s]; [done|]. destruct s as [|c s]; [destruct H1 as [H1|H1]; discriminate H1|].
    change (char_at (a :: b :: c :: s) 1) with b in *. change (char_at (a :: b :: c :: s) 2) with c in *. subst b.
    change (to_slash <$> take (Z.to_nat 3) (a :: colon :: c :: s)) with [to_slash a; colon; to_slash c].
    assert (to_slash a = a) as -> by (unfold to_slash, is_letter, backslash in *; split_if; [lia|done]).
    f_equal. f_equal. unfold to_slash. destruct H1 as [H1|H1]; apply Z.eqb_eq in H1; subst; done.
Qed.

Lemma path_chars c cs : c ∈ path_of cs -> c = slash \/ exists s, s ∈ cs /\ c ∈ s.
Proof.
  induction cs as [|s cs IH]; [by intros H%not_elem_of_nil|]. rewrite path_cons, elem_of_app. setoid_rewrite elem_of_cons.
  intros [H|H]; [right; eauto|]. destruct cs as [|s' cs']; [by apply not_elem_of_nil in H|]. apply elem_of_cons in H as [->|H]; [by left|].
  destruct (IH H) as [->|(x & Hx & Hc)]; [by left|right; eauto].
Qed.

Lemma parts_chars c s p : s ∈ parts p -> c ∈ s -> c ∈ p.
Proof.
  revert s. induction p as [|b p IH]; intros s; cbn [parts].
  - by intros ->%list_elem_of_singleton H%not_elem_of_nil.
  - split_if.
    + rewrite elem_of_cons. intros [->|Hs] Hc; [by apply not_elem_of_nil in Hc|]. right. eauto.
    + destruct (parts p) as [|x r]; [intros ->%list_elem_of_singleton ->%list_elem_of_singleton; by left|].
      rewrite elem_of_cons. intros [->|Hs] Hc.
      * apply elem_of_cons in Hc as [->|Hc]; [by left|]. right. apply (IH x); [by left|done].
      * right. apply (IH s); [by right|done].
Qed.

Lemma enter_elem s cs st : s ∈ fold_left enter cs st -> s ∈ cs \/ s ∈ st.
Proof.
  revert st. induction cs as [|x cs IH]; intros st; cbn [fold_left]; [by right|]. intros [H|H]%IH; [left; by right|].
  unfold enter in H. destruct (is_dot x); [by right|]. destruct (is_dotdot x).
  - right. destruct st; [done|]. by right.
  - apply elem_of_cons in H as [->|H]; [left; by left|by right].
Qed.

Lemma lexical_chars c p : c ∈ path_of (lexical p) -> c = slash \/ c ∈ p.
Proof.
  intros [->|(s & Hs & Hc)]%path_chars; [by left|right]. unfold lexical in Hs.
  rewrite list_elem_of_In, <-in_rev, <-list_elem_of_In in Hs. apply enter_elem in Hs as [Hs|Hs]; [|by apply not_elem_of_nil in Hs].
  apply (parts_chars c s); [|done]. unfold components in Hs. rewrite list_elem_of_In, filter_In, <-list_elem_of_In in Hs. by destruct Hs.
Qed.

Lemma to_slash_clean (s : str) : backslash ∉ (to_slash <$> s).
Proof. rewrite list_elem_of_fmap. intros (c & E & _). unfold to_slash in E. destruct (c =? backslash) eqn:Ec; boolean; [done|]. congruence. Qed.

Lemma join_absolute prefix rel cap out :
  Names.join prefix rel cap = inr out -> root_length rel <> 0 \/ root_length prefix <> 0 -> absolute out /\ len out < cap.
Proof.
  intros (-> & Hb)%join_ok Hroot. split; [|done]. clear Hb.
  assert (root_of prefix rel = root_length (rooted_in prefix rel)) as E by (unfold root_of, rooted_in; by split_if).
  assert (root_length (rooted_in prefix rel) <> 0) as Hne by (rewrite <-E; unfold root_of; split_if; [destruct Hroot; [lia|done]|done]).
  rewrite E. destruct (root_text _ Hne) as [[_ ->] | (E3 & Ecol & c & Hc & ->)]; cbn [app].
  - constructor. apply lexical_plain.
  - constructor; [done|apply lexical_plain|]. intros [H|H]%lexical_chars; [done|]. unfold joined in H. rewrite E, E3, Ecol in H.
    cbn [Z.eqb Pos.eqb andb] in H. by apply to_slash_clean in H.
Qed.

(** ** The supplied directories *)

(** A supplied name is a C string, and one that spells a volume begins with its
    letter. *)
Definition name_ok (name : str) : Prop :=
  Forall (fun c => 0 < c) name /\ (char_at name 1 = colon -> is_letter (char_at name 0) = true).

Definition supplied_ok (g : names) : Prop := Forall (fun q => name_ok (pre_name q)) (g_pre g).

Lemma same_chars_ok n i name abs volume :
  same_chars n i name abs volume = true -> forall k, i <= k < i + Z.of_nat n -> same_char (char_at abs k) (char_at name k) volume = true.
Proof.
  revert i. induction n as [|n IH]; intros i; cbn [same_chars]; [lia|]. intros [H1 H2]%andb_true_iff k Hk.
  destruct (decide (k = i)) as [->|]; [done|]. apply (IH (i + 1)); [done|lia].
Qed.

Lemma char_at_lookup s i c : char_at s i = c -> c <> 0 -> at_ s i = Some c.
Proof. unfold char_at. destruct (at_ s i); cbn; intros; congruence. Qed.

Lemma char_at_pos s i : Forall (fun c => 0 < c) s -> 0 <= i < len s -> 0 < char_at s i.
Proof.
  intros H Hi. unfold char_at. destruct (at_some s i ltac:(unfold len in Hi; lia)) as [c E]. rewrite E. cbn.
  apply at_lookup in E. by eapply Forall_lookup in E.
Qed.

Lemma same_char_nonzero b volume : 0 < b -> same_char 0 b volume = false.
Proof. intros Hb. unfold same_char, lower, slash, backslash. destruct volume; cbn [negb]; split_ifs; try lia; done. Qed.

Lemma same_slash a volume : (a = backslash -> volume = false) -> same_char a slash volume = true -> a = slash.
Proof. unfold same_char, lower, slash, backslash. intros Hb. destruct volume; cbn [negb]; split_ifs; try lia; done. Qed.

Lemma same_backslash a : a <> backslash -> same_char a backslash true = true -> a = slash.
Proof. unfold same_char, lower, slash, backslash. intros Hb. cbn [negb]. split_ifs; try lia; try done. Qed.

Lemma same_letter a b : is_letter b = true -> same_char a b true = true -> is_letter a = true.
Proof. unfold same_char, lower, slash, backslash, is_letter. cbn [negb]. split_ifs; try lia. all: intros; subst; auto; lia. Qed.

Definition is_volume (name : str) : bool := (2 <=? len name) && (char_at name 1 =? colon).

(** An absolute name beneath a volume has no backslash. *)
Lemma absolute_clean abs : absolute abs -> is_letter (char_at abs 0) = true -> backslash ∉ abs.
Proof.
  destruct 1 as [cs H|c cs Hc H Hb]; [done|]. rewrite char_at_0. intros _. rewrite !not_elem_of_cons.
  split_and!; [|done|done|done]. unfold is_letter in Hc. unfold backslash. lia.
Qed.

Lemma char_at_elem s i : char_at s i <> 0 -> char_at s i ∈ s.
Proof. intros H. pose proof (char_at_lookup s i _ eq_refl H) as E. apply at_lookup in E. by eapply list_elem_of_lookup_2. Qed.

Lemma char_at_app_l u v i : 0 <= i < len u -> char_at (u ++ v) i = char_at u i.
Proof. unfold len. intros H. unfold char_at, at_. split_if; [|done]. by rewrite lookup_app_l by lia. Qed.

Lemma char_at_app_len u v : char_at (u ++ v) (len u) = char_at v 0.
Proof. unfold char_at, at_, len. split_if; [|lia]. rewrite Nat2Z.id, lookup_app_r, Nat.sub_diag by lia. done. Qed.

Lemma char_at_last u : 0 < len u -> exists u' c, u = u' ++ [c] /\ char_at u (len u - 1) = c.
Proof.
  intros H. destruct u as [|c u' _] using rev_ind; [unfold len in H; cbn in H; lia|]. exists u', c. split; [done|].
  rewrite len_app. change (len [c]) with 1. replace (len u' + 1 - 1) with (len u') by lia. by rewrite char_at_app_len.
Qed.

Lemma skip_separators_clean volume v : (volume = true -> backslash ∉ v) -> skip_separators volume v = skip_slashes v.
Proof.
  induction v as [|c v IH]; intros H; cbn [skip_separators skip_slashes]; [done|]. destruct (c =? slash) eqn:E; cbn [orb].
  - apply IH. intros Hv. specialize (H Hv). rewrite not_elem_of_cons in H. tauto.
  - destruct (c =? backslash) eqn:Eb; cbn [andb]; [|done]. destruct volume; [|done]. specialize (H eq_refl). rewrite not_elem_of_cons in H. lia.
Qed.

(** A volume that is a prefix of an absolute name: the name has no backslash. *)
Lemma volume_clean name abs : is_prefix_at_boundary name abs = true -> name_ok name -> absolute abs -> is_volume name = true -> backslash ∉ abs.
Proof.
  intros H [Hpos Hvol] Habs Hv. unfold is_prefix_at_boundary in H. destruct (len name =? 0) eqn:E0; [done|]. boolean.
  change ((2 <=? len name) && (char_at name 1 =? colon)) with (is_volume name) in H. pose proof (len_nonneg name).
  destruct (same_chars (length name) 0 name abs (is_volume name)) eqn:Es; [|done].
  pose proof (same_chars_ok _ _ _ _ _ Es) as Hs. change (0 + Z.of_nat (length name)) with (len name) in Hs. rewrite Hv in Hs.
  apply absolute_clean; [done|]. unfold is_volume in Hv. apply andb_true_iff in Hv as [_ Hc%Z.eqb_eq].
  apply (same_letter _ (char_at name 0)); [auto|]. apply (Hs 0). lia.
Qed.

(** A supplied name that is a prefix at a boundary cuts a name there. *)
Lemma prefix_cut name abs :
  is_prefix_at_boundary name abs = true -> Forall (fun c => 0 < c) name -> (is_volume name = true -> backslash ∉ abs) -> Forall (fun c => 0 < c) abs ->
  exists u v, abs = u ++ v /\ len u = len name /\ u <> [] /\ boundary u v.
Proof.
  intros H Hpos Hclean Hapos. unfold is_prefix_at_boundary in H. destruct (len name =? 0) eqn:E0; [done|]. boolean.
  change ((2 <=? len name) && (char_at name 1 =? colon)) with (is_volume name) in H. pose proof (len_nonneg name).
  destruct (same_chars (length name) 0 name abs (is_volume name)) eqn:Es; [|done]. cbn [negb] in H.
  pose proof (same_chars_ok _ _ _ _ _ Es) as Hs. change (0 + Z.of_nat (length name)) with (len name) in Hs.
  assert (len name <= len abs) as Hle.
  { destruct (decide (len name <= len abs)) as [|Hgt]; [done|]. specialize (Hs (len abs) ltac:(pose proof (len_nonneg abs); lia)).
    assert (char_at abs (len abs) = 0) as Ez.
    { unfold char_at, at_, len. split_if; [|lia]. rewrite Nat2Z.id, lookup_ge_None_2 by lia. done. }
    rewrite Ez, same_char_nonzero in Hs; [done|]. apply char_at_pos; [done|]. pose proof (len_nonneg abs). lia. }
  exists (take (length name) abs), (drop (length name) abs). rewrite take_drop. unfold len in Hle.
  assert (len (take (length name) abs) = len name) as Hlu by (unfold len; rewrite length_take; lia).
  assert (take (length name) abs <> []) as Hne by (rewrite <-len_zero, Hlu; lia). split_and!; auto.
  set (u := take (length name) abs) in *. set (v := drop (length name) abs) in *.
  assert (abs = u ++ v) as Eabs by (unfold u, v; by rewrite take_drop).
  destruct (char_at_last u ltac:(lia)) as (u' & c & Eu & Ec).
  assert (char_at abs (len name - 1) = c) as Ecabs by (rewrite Eabs, char_at_app_l by lia; by rewrite <-Hlu).
  assert (char_at abs (len name) = char_at v 0) as Ev by (rewrite Eabs, <-Hlu; apply char_at_app_len).
  assert (c <> 0) as Hcz.
  { intros ->. specialize (Hs (len name - 1) ltac:(lia)). rewrite Ecabs, same_char_nonzero in Hs; [done|]. apply char_at_pos; [done|lia]. }
  assert (is_volume name = true -> c <> backslash) as Hcb.
  { intros Hv ->. apply (Hclean Hv). rewrite <-Ecabs. apply char_at_elem. by rewrite Ecabs. }
  specialize (Hs (len name - 1) ltac:(lia)). rewrite Ecabs in Hs. unfold boundary.
  destruct ((char_at name (len name - 1) =? slash) || (is_volume name && (char_at name (len name - 1) =? backslash))) eqn:Eend.
  - right. right. right. exists u'. rewrite Eu. f_equal. f_equal. apply orb_true_iff in Eend as [E%Z.eqb_eq|[Hv E%Z.eqb_eq]%andb_true_iff].
    + rewrite E in Hs. apply (same_slash c (is_volume name)); [|done]. intros ->. destruct (is_volume name); [|done]. by destruct (Hcb eq_refl).
    + rewrite E, Hv in Hs. apply same_backslash; auto.
  - rewrite Ev in H. apply orb_true_iff in H as [[H|H]%orb_true_iff|[Hv H]%andb_true_iff]; apply Z.eqb_eq in H.
    + right. left. destruct v as [|x v'] eqn:Evv; [done|]. exfalso. rewrite char_at_0 in H. subst x.
      rewrite Forall_forall in Hapos. specialize (Hapos 0). cbn beta in Hapos.
      assert (0 ∈ abs) as Hin by (rewrite Eabs; apply elem_of_app; right; by left). apply list_elem_of_In in Hin. specialize (Hapos Hin). lia.
    + right. right. left. destruct v as [|x v']; [done|]. rewrite char_at_0 in H. exists v'. by rewrite H.
    + exfalso. apply (Hclean Hv). rewrite Eabs. apply elem_of_app. right. rewrite <-H. apply char_at_elem. by rewrite H.
Qed.

Lemma last_slash x u u' : x :: u = u' ++ [slash] -> u = [] \/ exists u'', u = u'' ++ [slash].
Proof. destruct u' as [|y u']; [by intros [= -> ->]; left|]. intros [= -> ->]. right. eauto. Qed.

(** What remains of an absolute name after a supplied one. *)
Lemma absolute_rest abs u v :
  absolute abs -> abs = u ++ v -> u <> [] -> boundary u v -> exists cs, Forall plain cs /\ skip_slashes v = path_of cs.
Proof.
  intros Habs E Hne Hb.
  assert (forall cs u', Forall plain cs -> u' ++ v = path_of cs -> boundary u' v -> exists cs', Forall plain cs' /\ skip_slashes v = path_of cs') as Hin.
  { intros cs u' Hcs E' Hb'. destruct (path_boundary cs u' v (plain_solid _ Hcs) E' Hb') as (cs1 & cs2 & -> & ->).
    apply Forall_app in Hcs as [_ ?]. eauto. }
  assert (forall x u', u = x :: u' -> boundary u' v) as Htail.
  { intros x u' ->. destruct Hb as [|[|[|[u'' H]]]]; [done|right; auto|right; auto|].
    apply last_slash in H as [->|H]; [by left|]. right. right. by right. }
  destruct Habs as [cs Hcs|c cs Hc Hcs Hbs]; destruct u as [|x u]; try done; cbn [app] in E; injection E as <- E.
  - by eapply (Hin cs u); [| |eapply Htail].
  - destruct u as [|x' u].
    + exfalso. cbn [app] in E. subst v. destruct Hb as [|[|[[v' [= ]]|[u' H]]]]; try done.
      apply last_slash in H as H'. destruct u' as [|y u']; [injection H as ->; done|]. by destruct u'.
    + cbn [app] in E. injection E as <- E. destruct u as [|x'' u].
      * cbn [app] in E. subst v. cbn [skip_slashes]. rewrite Z.eqb_refl. exists cs. split; [done|]. apply skip_path. by apply plain_solid.
      * cbn [app] in E. injection E as <- E. apply (Hin cs u); [done|done|].
        destruct Hb as [|[|[|[u' H]]]]; [done|right; auto|right; auto|].
        destruct u' as [|? [|? [|? u']]]; try done; cbn [app] in H; [injection H as _ _ ->; by left|].
        injection H as _ _ _ ->. right. right. right. eauto.
Qed.

Lemma copy_whole s cap : len s < cap -> copy_str s (len s) cap = s.
Proof. intros H. unfold copy_str. split_if; [lia|]. unfold len. rewrite Nat2Z.id. by rewrite firstn_all. Qed.

Lemma skip_len v : len (skip_slashes v) <= len v.
Proof. unfold len. pose proof (length_skip v). lia. Qed.

(** ** The longest prefix *)

Definition candidate (abs : str) (q : preopen) : Prop := is_prefix_at_boundary (pre_name q) abs = true.

Lemma longest_ok best l abs :
  (match best with Some b => candidate abs b | None => True end) ->
  match longest best l abs with
  | None => best = None /\ Forall (fun q => ~ candidate abs q) l
  | Some r => candidate abs r /\ (best = Some r \/ r ∈ l) /\ Forall (fun q => candidate abs q -> len (pre_name q) <= len (pre_name r)) l /\
      (match best with Some b => len (pre_name b) <= len (pre_name r) | None => True end)
  end.
Proof.
  revert best. induction l as [|q l IH]; intros best Hbest; cbn [longest].
  - destruct best as [b|]; [|done]. split_and!; auto; lia.
  - unfold candidate in *. destruct (is_prefix_at_boundary (pre_name q) abs) eqn:Eq; cbn [negb].
    + set (b' := match best with None => Some q | Some b => if len (pre_name b) <? len (pre_name q) then Some q else best end).
      assert (exists b, b' = Some b /\ is_prefix_at_boundary (pre_name b) abs = true /\ len (pre_name q) <= len (pre_name b) /\
        (best = Some b \/ b = q) /\ (match best with Some b0 => len (pre_name b0) <= len (pre_name b) | None => True end)) as (b & Eb & Hb & Hq & Hor & Hge).
      { unfold b'. destruct best as [b0|]; [|exists q; split_and!; auto; lia]. split_if; [exists q; split_and!; auto; lia|exists b0; split_and!; auto; lia]. }
      rewrite Eb. specialize (IH (Some b) Hb). destruct (longest (Some b) l abs) as [r|]; [|by destruct IH].
      destruct IH as (Hr & Hin & Hall & Hbr). split_and!; auto.
      * destruct Hin as [[= ->]|Hin]; [|right; by right]. destruct Hor as [| ->]; [by left|right; by left].
      * constructor; [lia|done].
      * destruct best; [lia|done].
    + specialize (IH best Hbest). destruct (longest best l abs) as [r|].
      * destruct IH as (Hr & Hin & Hall & Hbr). split_and!; auto; [|by constructor; [congruence|]].
        destruct Hin; [by left|right; by right].
      * destruct IH as [-> Hall]. split; [done|]. constructor; [congruence|done].
Qed.

(** What remains of a name that is not absolute. *)
Lemma relative_rest cs u v : Forall plain cs -> path_of cs = u ++ v -> boundary u v -> exists cs', Forall plain cs' /\ skip_slashes v = path_of cs'.
Proof. intros Hcs E Hb. destruct (path_boundary cs u v (plain_solid _ Hcs) (eq_sym E) Hb) as (cs1 & cs2 & -> & ->). apply Forall_app in Hcs as [_ ?]. eauto. Qed.

(** No supplied name spells a volume. *)
Definition no_volume (g : names) : Prop := Forall (fun q => is_volume (pre_name q) = false) (g_pre g).

(** A name the resolver makes: absolute, or where no volume is supplied, normal. *)
Definition resolvable (g : names) (abs : str) : Prop := absolute abs \/ no_volume g /\ exists cs, Forall plain cs /\ abs = path_of cs.

Lemma resolve_abs_ok g abs a :
  resolvable g abs -> Forall (fun c => 0 < c) abs -> len abs < OKM_MAX_PATH -> supplied_ok g -> resolve_abs g abs = inr a ->
  beneath (at_rel a) /\ exists q, q ∈ g_pre g /\ candidate abs q /\ at_base a = pre_dir q /\
    Forall (fun q' => candidate abs q' -> len (pre_name q') <= len (pre_name q)) (g_pre g).
Proof.
  intros Habs Hpos Hlen Hsup. unfold resolve_abs. pose proof (longest_ok None (g_pre g) abs I) as HL.
  destruct (longest None (g_pre g) abs) as [q|]; [|done]. destruct HL as (Hq & [?|Hin] & Hall & _); [done|].
  intros [= <-]. cbn [at_rel at_base]. split; [|exists q; split_and!; auto].
  pose proof (proj1 (list.Forall_forall _ _) Hsup q Hin) as Hname.
  assert (is_volume (pre_name q) = true -> backslash ∉ abs) as Hcl.
  { destruct Habs as [Habs|[Hno _]]; [by apply volume_clean|]. pose proof (proj1 (list.Forall_forall _ _) Hno q Hin) as H. cbn in H. congruence. }
  destruct (prefix_cut _ _ Hq (proj1 Hname) Hcl Hpos) as (u & v & E & Hu & Hne & Hb).
  assert (drop (Z.to_nat (len (pre_name q))) abs = v) as ->.
  { rewrite E, <-Hu. unfold len. rewrite Nat2Z.id. by rewrite drop_app_length. }
  rewrite skip_separators_clean.
  2: { intros Hv. specialize (Hcl Hv). rewrite E, elem_of_app in Hcl. tauto. }
  assert (exists cs, Forall plain cs /\ skip_slashes v = path_of cs) as (cs & Hcs & Ev).
  { destruct Habs as [Habs|[_ (cs & Hcs & Ecs)]]; [by apply (absolute_rest abs u v)|]. apply (relative_rest cs u v Hcs); [by rewrite <-Ecs|done]. }
  destruct (skip_slashes v) as [|c r] eqn:Es; [by left|]. right. rewrite copy_whole.
  - split; [done|]. eauto.
  - rewrite <-Es. pose proof (skip_len v). rewrite E, len_app in Hlen. pose proof (len_nonneg u). lia.
Qed.

(** What join makes of a name and a prefix of which one is rooted, or where no volume is supplied. *)
Lemma join_resolvable g prefix rel cap out :
  Names.join prefix rel cap = inr out -> root_length rel <> 0 \/ root_length prefix <> 0 \/ no_volume g -> resolvable g out /\ len out < cap.
Proof.
  intros Hj Hroot. destruct (decide (root_length rel <> 0 \/ root_length prefix <> 0)) as [H|H].
  { destruct (join_absolute _ _ _ _ Hj H). split; [by left|done]. }
  apply join_ok in Hj as [E Hl]. split; [|done]. right. split; [tauto|]. exists (lexical (joined prefix rel)). split; [apply lexical_plain|].
  assert (root_of prefix rel = 0) as Er by (unfold root_of; split_if; lia). rewrite E, Er. done.
Qed.

Lemma absolute_rooted abs : absolute abs -> root_length abs <> 0.
Proof.
  intros [cs _|c cs Hc _ _]; [done|]. unfold root_length. rewrite char_at_0. change (char_at (c :: colon :: slash :: path_of cs) 1) with colon.
  change (char_at (c :: colon :: slash :: path_of cs) 2) with slash. rewrite Hc. unfold is_letter, slash in *. split_ifs; try lia; done.
Qed.
