(* ===== verification/NamesTheorems.v ===== *)
(** The properties of the resolver of names (port/src/okm_fd.c). *)
From S2P Require Import Prelude Kal FdTable Names NamesOk.
From stdpp Require Import base list option.
From Stdlib Require Import ZArith Lia.

#[local] Open Scope Z_scope.

Definition text (s : str) : Prop := Forall (fun c => 0 < c) s.

Lemma text_elem s : text s <-> forall c, c ∈ s -> 0 < c.
Proof. unfold text. rewrite Forall_forall. by setoid_rewrite list_elem_of_In. Qed.

Lemma to_slash_text s : text s -> text (to_slash <$> s).
Proof.
  rewrite !text_elem. intros H c (x & -> & Hx)%list_elem_of_fmap. unfold to_slash. split_if; [done|auto].
Qed.

Lemma text_app s r : text s -> text r -> text (s ++ r).
Proof. intros. by apply Forall_app. Qed.

Lemma text_drop n s : text s -> text (drop n s).
Proof. apply Forall_drop. Qed.

Lemma join_text prefix rel cap out : Names.join prefix rel cap = inr out -> text prefix -> text rel -> text out.
Proof.
  intros [-> _]%join_ok Hp Hr. apply text_app.
  - apply to_slash_text, Forall_take. unfold rooted_in. by split_if.
  - apply text_elem. intros c [->|Hc]%lexical_chars; [done|]. revert c Hc. rewrite <-text_elem. unfold joined.
    assert (text [slash]) as Hs by by repeat constructor.
    cbv zeta. assert (forall x : str, text x -> text (if (root_of prefix rel =? 3) && (char_at (rooted_in prefix rel) 1 =? colon) then to_slash <$> x else x)) as Hx.
    { intros x Hx. split_if; [by apply to_slash_text|done]. }
    apply Hx, text_app; [|by apply text_drop]. assert (text (if root_length rel =? 0 then drop (Z.to_nat (root_length prefix)) prefix else [])) as Hb
      by (split_if; [by apply text_drop|constructor]).
    match goal with |- text (if ?b then _ else _) => destruct b end; [by apply text_app|done].
Qed.

(** C16. Normalisation is lexical resolution: what it writes is the name whose
    components are those of the argument with empty ones and [.] removed and
    each [..] removed with the component before it, so none of them is empty,
    [.] or [..]; it fits the buffer with its terminator; and ENAMETOOLONG, the
    only error, is answered only for a name that with two bytes more is longer
    than the buffer. *)
Theorem normalise_lexical p cap :
  0 < cap ->
  match normalise p cap with
  | inr out => out = path_of (lexical p) /\ Forall plain (lexical p) /\ len out < cap
  | inl e => e = - ENAMETOOLONG /\ cap < len p + 2
  end.
Proof.
  intros Hc. destruct (normalise p cap) as [e|out] eqn:E.
  - split; [by eapply normalise_error|]. destruct (decide (len p + 2 <= cap)) as [H|]; [|lia]. by rewrite normalise_fits in E by done.
  - destruct (normalise_ok p cap out Hc E). split_and!; [done|apply lexical_plain|done].
Qed.

(** "a//./b/../c" is "a/c". *)
Lemma normalise_lexical_witness :
  normalise [97; 47; 47; 46; 47; 98; 47; 46; 46; 47; 99] 100 = inr [97; 47; 99] /\
  Forall plain (lexical [97; 47; 47; 46; 47; 98; 47; 46; 46; 47; 99]).
Proof.
  split; [by vm_compute|].
  exact (proj1 (proj2 (normalise_lexical [97; 47; 47; 46; 47; 98; 47; 46; 46; 47; 99] 100 ltac:(lia)))).
Defined.

(** The supplied directory an absolute name is resolved beneath is one whose
    name is a prefix of it at a boundary, and of those one whose name is longest;
    ENOENT is answered exactly when there is none. *)
Theorem resolve_longest g abs :
  match resolve_abs g abs with
  | inl e => e = - ENOENT /\ Forall (fun q => ~ candidate abs q) (g_pre g)
  | inr a => exists q, q ∈ g_pre g /\ candidate abs q /\ at_base a = pre_dir q /\
      Forall (fun q' => candidate abs q' -> len (pre_name q') <= len (pre_name q)) (g_pre g)
  end.
Proof.
  unfold resolve_abs. pose proof (longest_ok None (g_pre g) abs I) as HL. destruct (longest None (g_pre g) abs) as [q|].
  - destruct HL as (Hq & [?|Hin] & Hall & _); [done|]. exists q. auto.
  - by destruct HL.
Qed.

(** ** Confinement *)

(** A name kept for a directory of the table. *)
Definition stored (t : fd_table) (s : str) : Prop := s <> [] /\ s ∈ g_dirpath t \/ Some s ∈ g_dirlong t.

(** A name the resolver may start from: it is rooted, or no supplied name spells a
    volume, beneath which a backslash separates. *)
Definition rooted_start (g : names) (s : str) : Prop := text s /\ len s < OKM_MAX_PATH /\ (root_length s <> 0 \/ no_volume g).

(** What the resolver relies on, which its start establishes and every call keeps: of the
    supplied names, the working directory's and those kept for directories. *)
Record names_ok (t : fd_table) (g : names) : Prop := {
  no_supplied : supplied_ok g;
  no_cwd : rooted_start g (g_cwd g);
  no_stored : forall s, stored t s -> rooted_start g s;
}.

Lemma dir_name_stored t p n : dir_name t p = Some n -> stored t n.
Proof.
  unfold dir_name. split_if; [done|]. destruct (at_ (g_dirlong t) (d_path_slot p)) as [[s|]|] eqn:El; cbn [mbind option_bind]; [|..|done].
  - intros [= <-]. right. apply at_lookup in El. by eapply list_elem_of_lookup_2.
  - destruct (at_ (g_dirpath t) (d_path_slot p)) as [[|c s]|] eqn:Ep; cbn [mbind option_bind]; [done| |done]. intros [= <-]. left. split; [done|]. apply at_lookup in Ep. by eapply list_elem_of_lookup_2.
Qed.

Lemma beneath_path cs : Forall plain cs -> beneath (match path_of cs with [] => [dot] | r => r end).
Proof. intros H. destruct (path_of cs) as [|c r] eqn:E; [by left|]. right. split; [done|]. exists cs. by rewrite E. Qed.

Lemma normal_components_path f p : normal_components f p = true -> exists cs, Forall plain cs /\ p = path_of cs.
Proof.
  revert p. induction f as [|f IH]; intros p; cbn [normal_components]; destruct p as [|c q]; try done; try (by exists []).
  destruct (component (c :: q)) as [s r] eqn:Ec. apply component_split in Ec as (E & Hs & Hr).
  destruct (len s =? 0) eqn:E0; [done|]. boolean. rewrite len_zero in E0.
  destruct (is_dot s || is_dotdot s) eqn:Ed; [done|]. apply orb_false_iff in Ed as [Hd%bool_decide_eq_false Hdd%bool_decide_eq_false].
  assert (plain s) as Hpl by (by split_and!). destruct r as [|x r'].
  - intros _. exists [s]. rewrite E, app_nil_r. split; [by repeat constructor|done].
  - destruct Hr as [|[r'' [= -> ->]]]; [done|]. destruct r'' as [|y r'']; [done|]. intros (cs & Hcs & Ey)%IH.
    exists (s :: cs). split; [by constructor|]. rewrite E, path_cons, Ey. destruct cs; [done|done].
Qed.

Lemma already_normal_path path : already_normal path <> 0 ->
  len path < OKM_MAX_PATH /\ exists cs, Forall plain cs /\ path = slash :: path_of cs.
Proof.
  unfold already_normal. destruct path as [|c p]; [done|]. split_ifs; try done. intros _.
  apply normal_components_path in Heqb0 as (cs & Hcs & ->). boolean. subst. split; [done|eauto].
Qed.

(** A name handed to the environment is relative and does not ascend. *)
Lemma resolve_confined t g dirfd path empty_ok a :
  names_ok t g -> text path ->
  okm_resolve t g dirfd path empty_ok = inr a ->
  beneath (at_rel a) /\
  ((exists q, q ∈ g_pre g /\ at_base a = pre_dir q) \/
   (exists d p, okm_desc_of t dirfd = Some d /\ at_ (g_desc t) d = Some p /\ d_kind p = OKM_DIR /\ at_base a = d_dir p)).
Proof.
  intros [Hsup (Htcwd & _ & Hcwd) Hdirs] Htext.
  assert (forall abs, resolvable g abs -> text abs -> len abs < OKM_MAX_PATH -> resolve_abs g abs = inr a ->
    beneath (at_rel a) /\ ((exists q, q ∈ g_pre g /\ at_base a = pre_dir q) \/
      (exists d p, okm_desc_of t dirfd = Some d /\ at_ (g_desc t) d = Some p /\ d_kind p = OKM_DIR /\ at_base a = d_dir p))) as Habs.
  { intros abs H1 H2 H3 H4. destruct (resolve_abs_ok g abs a H1 H2 H3 Hsup H4) as (Hb & q & ? & _ & ? & _). split; [done|]. left. eauto. }
  assert (forall prefix, text prefix -> root_length path <> 0 \/ root_length prefix <> 0 \/ no_volume g ->
    match Names.join prefix path OKM_MAX_PATH with inl e => inl e | inr abs => resolve_abs g abs end = inr a ->
    beneath (at_rel a) /\ ((exists q, q ∈ g_pre g /\ at_base a = pre_dir q) \/
      (exists d p, okm_desc_of t dirfd = Some d /\ at_ (g_desc t) d = Some p /\ d_kind p = OKM_DIR /\ at_base a = d_dir p))) as Hjoin.
  { intros prefix Hp Hr. destruct (Names.join prefix path OKM_MAX_PATH) as [|abs] eqn:Ej; [done|].
    destruct (join_resolvable g _ _ _ _ Ej Hr). apply Habs; auto. by eapply join_text. }
  unfold okm_resolve. destruct ((len path =? 0) && negb empty_ok); [done|].
  destruct (already_normal path =? 0) eqn:En; cbn [negb].
  2: { boolean. apply already_normal_path in En as (Hl & cs & Hcs & E). apply Habs; auto. left. rewrite E. by constructor. }
  destruct (root_length path =? 0) eqn:Er; cbn [negb]; boolean.
  2: { apply Hjoin; [constructor|by left]. }
  destruct (dirfd =? AT_FDCWD); [apply Hjoin; auto|].
  destruct (okm_desc_of t dirfd) as [d|] eqn:Ed; [|done]. cbn [mbind option_bind]. destruct (at_ (g_desc t) d) as [p|] eqn:Ep; [|done].
  case_bool_decide as Hk; [|done]. cbn [negb]. destruct (dir_name t p) as [n|] eqn:Edn.
  { destruct (Hdirs n (dir_name_stored _ _ _ Edn)) as (? & _ & ?). apply Hjoin; auto. }
  destruct (normalise path OKM_MAX_PATH) as [|norm] eqn:Enorm; [done|]. apply normalise_ok in Enorm as [-> Hl]; [|done].
  destruct (ascends _ _); [done|]. intros [= <-]. cbn [at_rel at_base]. rewrite copy_whole by done. split; [|right; exists d, p; auto].
  pose proof (beneath_path _ (lexical_plain path)) as H. by destruct (path_of (lexical path)).
Qed.

(** What is joined may be started from. *)
Lemma join_startable g prefix path abs : Names.join prefix path OKM_MAX_PATH = inr abs -> text prefix -> text path ->
  root_length path <> 0 \/ root_length prefix <> 0 \/ no_volume g -> rooted_start g abs.
Proof.
  intros Hj Hp Ht Hr. destruct (join_resolvable g _ _ _ _ Hj Hr) as [Ha Hl]. split; [by eapply join_text|]. split; [done|].
  destruct Ha as [Ha|[? _]]; [left; by apply absolute_rooted|by right].
Qed.

Lemma absolute_startable t g dirfd path abs : names_ok t g -> text path -> okm_absolute t g dirfd path OKM_MAX_PATH = inr abs -> rooted_start g abs.
Proof.
  intros [_ (Hc1 & _ & Hc2) Hs] Ht. unfold okm_absolute. destruct (root_length path =? 0) eqn:Er; cbn [negb]; boolean.
  2: { intros Hj. eapply join_startable; [exact Hj|constructor|done|by left]. }
  destruct (dirfd =? AT_FDCWD); [intros Hj; eapply join_startable; eauto|].
  destruct (_ ≫= _) as [d|]; [|done]. split_if; [done|]. destruct (dir_name t d) as [n|] eqn:En; [|done].
  destruct (Hs n (dir_name_stored _ _ _ En)) as (? & _ & ?). intros Hj. eapply join_startable; eauto.
Qed.

Lemma chdir_keeps open_dir t g dirfd path r g' : names_ok t g -> (forall p, path = Some p -> text p) -> okm_chdir open_dir t g dirfd path = (r, g') -> names_ok t g'.
Proof.
  intros Hok Htext. pose proof Hok as [Hsup Hcwd Hs]. unfold okm_chdir. cbv zeta.
  assert (forall target abs, rooted_start g abs -> names_ok t (Names (g_pre g) target (match copy_str abs (len abs) OKM_MAX_PATH with [] => [slash] | _ => copy_str abs (len abs) OKM_MAX_PATH end))) as Hdone.
  { intros target abs (H1 & H2 & H3). rewrite copy_whole by done. constructor; [done| |done]. cbn [g_cwd]. destruct abs as [|c abs]; [|by split_and!].
    split; [by repeat constructor|]. split; [done|by left]. }
  destruct path as [path|].
  - specialize (Htext path eq_refl). destruct (okm_resolve t g dirfd path false) as [e|a]; [by intros [= _ <-]|].
    destruct (open_dir _ _) as [e|target]; [by intros [= _ <-]|]. destruct (Names.join _ path OKM_MAX_PATH) as [e|abs] eqn:Ej; [by intros [= _ <-]|].
    intros [= _ <-]. apply Hdone. eapply join_startable; [exact Ej| |done|]; destruct (root_length path =? 0) eqn:Er; cbn [negb]; boolean; try (by left); try constructor; apply Hcwd.
  - destruct (_ ≫= _) as [d|]; [|by intros [= _ <-]]. split_if; [by intros [= _ <-]|]. destruct (dir_name t d) as [n|] eqn:En; [|by intros [= _ <-]].
    destruct (Hs n (dir_name_stored _ _ _ En)) as (H1 & H2 & H3). intros [= _ <-]. rewrite (copy_whole n) by done. by apply Hdone.
Qed.

(** ** The start *)

(** What is relied on of the names openkal supplies: they are C strings, one with a colon
    second begins with a letter; and the first of those that fit, which becomes the working
    directory, is rooted, or none is a volume's. *)
Definition supplied_names (pres : list (kal_error + (Z * str))) : Prop :=
  (forall d n, inr (d, n) ∈ pres -> name_ok n) /\
  (match g_pre (init_preopens pres) with q :: _ => root_length (pre_name q) <> 0 | [] => True end \/ no_volume (init_preopens pres)).

Lemma take_preopens_ok pres l q : q ∈ take_preopens pres l -> q ∈ l \/ exists d n, inr (d, n) ∈ pres /\ q = Preopen d n /\ len n < 256.
Proof.
  revert l. induction pres as [|[e|[d n]] pres IH]; intros l; cbn [take_preopens]; [auto|..]; (split_if; [|auto]).
  - intros [?|(d & n & Hin & ?)]%IH; [auto|]. right. exists d, n. split; [by right|done].
  - split_if; intros [H|(d' & n' & Hin & ?)]%IH; try (right; exists d', n'; split; [by right|done]); [auto|].
    apply elem_of_app in H as [?|H%list_elem_of_singleton]; [auto|]. boolean. right. exists d, n. split; [by left|]. split; [done|lia].
Qed.

Lemma init_names_ok t pres : (forall s, ~ stored t s) -> supplied_names pres -> names_ok t (init_preopens pres).
Proof.
  intros Hno [Hall Hroot]. assert (g_pre (init_preopens pres) = take_preopens pres []) as Eg by (unfold init_preopens; by destruct (take_preopens pres [])).
  assert (forall q, q ∈ g_pre (init_preopens pres) -> name_ok (pre_name q) /\ len (pre_name q) < 256) as Hq.
  { rewrite Eg. intros q [H|(d & n & Hin & -> & Hl)]%take_preopens_ok; [by apply not_elem_of_nil in H|]. split; [by eapply Hall|done]. }
  constructor; [|..|intros s H; by destruct (Hno s)].
  - apply list.Forall_forall. intros q Hin. by apply Hq.
  - rewrite Eg in Hroot, Hq. unfold init_preopens in *. destruct (take_preopens pres []) as [|q l]; [split; [by repeat constructor|]; split; [done|by left]|].
    destruct (Hq q ltac:(by left)) as [[Hp _] Hl]. cbn [g_cwd]. assert (len (pre_name q) < OKM_MAX_PATH) by (unfold OKM_MAX_PATH; lia). rewrite copy_whole by done. split; [done|]. split; [done|]. by destruct Hroot; [left|right].
Qed.

(** ** The table stores no other names *)

Definition stores_none {A} (e : M fd_table A) : Prop := forall t r t', e t = Some (r, t') -> forall s, stored t' s -> stored t s.

Lemma stores_ret {A} (x : A) : stores_none (mret x).
Proof. by intros t r t' [= _ <-]. Qed.

Lemma stores_bind {A B} (e : M fd_table A) (k : A -> M fd_table B) : stores_none e -> (forall x, stores_none (k x)) -> stores_none (e ≫= k).
Proof. intros He Hk t r t'. unfold mbind, M_bind. destruct (e t) as [[x t1]|] eqn:E; [|done]. intros E' s Hs. eapply He; [exact E|]. eapply Hk; [exact E'|done]. Qed.

Lemma stores_when (b : bool) e : stores_none e -> stores_none (when b e).
Proof. intros H. destruct b; [done|apply stores_ret]. Qed.

Lemma stores_modify (f : fd_table -> fd_table) : (forall t s, stored (f t) s -> stored t s) -> stores_none (modify f).
Proof. intros H t r t' [= _ <-]. apply H. Qed.

Lemma stores_put_try (f : fd_table -> option fd_table) : (forall t t' s, f t = Some t' -> stored t' s -> stored t s) -> stores_none (put_try f).
Proof. intros H t r t'. unfold put_try. destruct (f t) as [t1|] eqn:E; [|done]. intros [= _ <-] s. by apply H. Qed.

Lemma stores_gets {A} (f : fd_table -> A) : stores_none (gets f).
Proof. by intros t r t' [= _ <-]. Qed.

Lemma stores_try {A} (f : fd_table -> option A) : stores_none (try f).
Proof. intros t r t'. unfold try. destruct (f t); [|done]. by intros [= _ <-]. Qed.

Lemma set_at_elem {A} (l l' : list A) i x y : set_at l i x = Some l' -> y ∈ l' -> y = x \/ y ∈ l.
Proof.
  unfold set_at. split_if; [|done]. intros [= <-] (k & Hk)%list_elem_of_lookup_1. destruct (decide (k = Z.to_nat i)) as [->|Hne].
  - left. apply list_lookup_insert_Some in Hk as [(_ & -> & _)|[? _]]; done.
  - right. rewrite list_lookup_insert_ne in Hk by done. by eapply list_elem_of_lookup_2.
Qed.

(** A step that writes descriptions and descriptors alone. *)
Lemma stores_put_desc d p : stores_none (put_desc d p).
Proof. apply stores_put_try. intros t t' s. by destruct (set_at _ _ _); intros [= <-]. Qed.

Lemma stores_put_fd fd e : stores_none (put_fd fd e).
Proof. apply stores_put_try. intros t t' s. by destruct (set_at _ _ _); intros [= <-]. Qed.

Lemma stores_clear slot : stores_none (path_slot_clear slot).
Proof.
  apply stores_put_try. intros t t' s. destruct (at_ _ _) as [long|]; [|done]. cbn [mbind option_bind]. destruct (set_at (g_dirlong t) slot None) as [dl|] eqn:El; [|done]. cbn [mbind option_bind].
  destruct (set_at (g_dirpath t) slot []) as [dp|] eqn:Ep; [|done]. intros [= <-] [[Hne Hs]|Hs]; [left|right]; eapply set_at_elem in Hs; [|eassumption| |eassumption]; destruct Hs; done.
Qed.

Lemma stores_slot_alloc : stores_none path_slot_alloc.
Proof.
  apply stores_bind; [apply stores_gets|]. intros t0. destruct (scan_from _ _ _) as [i|]; [|apply stores_ret]. apply stores_bind; [|intros; apply stores_ret]. apply stores_put_try.
  intros t t' s. destruct (set_at (g_dirpath_used t) i true); [|done]. cbn [mbind option_bind]. destruct (set_at (g_dirpath t) i []) as [dp|] eqn:Ep; [|done]. intros [= <-] [[Hne Hs]|Hs]; [left|by right].
  split; [done|]. eapply set_at_elem in Hs; [|eassumption]. destruct Hs; done.
Qed.

Create HintDb stores.
#[export] Hint Resolve stores_ret stores_gets stores_try stores_put_desc stores_put_fd stores_clear stores_slot_alloc : stores.

Ltac stores := repeat first [solve [auto with stores] | apply stores_bind; [|intros] | apply stores_when | apply stores_modify; done | case_match].

Lemma stores_slot_free slot : stores_none (path_slot_free slot).
Proof. unfold path_slot_free. stores. apply stores_put_try. intros t t' s. by destruct (set_at _ _ _); intros [= <-]. Qed.

Lemma stores_desc_alloc : stores_none desc_alloc.
Proof. unfold desc_alloc, get_desc. stores. Qed.

#[export] Hint Resolve stores_slot_free stores_desc_alloc : stores.

Section table.
Context (me : Z).

Lemma stores_settle p : stores_none (settle true me p).
Proof. unfold settle, close_owned. stores. Qed.
#[local] Hint Resolve stores_settle : stores.

Lemma stores_desc_release d : stores_none (desc_release true me d).
Proof. unfold desc_release, get_desc. stores. Qed.
#[local] Hint Resolve stores_desc_release : stores.

Lemma stores_bind_fd fd kind stream file dir flags : stores_none (okm_fd_bind true me fd kind stream file dir flags).
Proof. unfold okm_fd_bind, get_desc, get_fd. stores. Qed.

Lemma stores_bind_socket fd stream flags slot : stores_none (bind_socket true me fd stream flags slot).
Proof. unfold bind_socket, get_desc. apply stores_bind; [apply stores_bind_fd|intros]. stores. Qed.

Lemma stores_release fd : stores_none (okm_fd_release true me fd).
Proof. unfold okm_fd_release, get_fd. stores. Qed.

Lemma stores_dup fd newfd cloexec : stores_none (okm_fd_dup true me fd newfd cloexec).
Proof. unfold okm_fd_dup, dup_at, get_desc, get_fd. stores. Qed.

Lemma stores_cloexec fd on : stores_none (okm_fd_cloexec fd on).
Proof. unfold okm_fd_cloexec, get_fd. stores. Qed.

Lemma stores_close_all : stores_none (okm_close_all true me).
Proof. unfold okm_close_all. generalize 0. induction (Z.to_nat OKM_MAX_FD) as [|n IH]; intros fd; cbn [close_from]; [apply stores_ret|]. unfold get_fd. stores; auto using stores_release. Qed.
End table.

(** okm_dir_remember stores the name it is given. *)
Lemma remember_stores fd abs alloc t r t' s : okm_dir_remember fd abs alloc t = Some (r, t') -> stored t' s -> stored t s \/ s = abs.
Proof.
  unfold okm_dir_remember, mbind at 1, M_bind at 1, gets. change (id t) with t. destruct (okm_desc_of t fd) as [d|]; [|intros [= _ <-]; by left].
  unfold mbind at 1, M_bind at 1. destruct (get_desc d t) as [[p t1]|] eqn:E1; [|done]. assert (forall s, stored t1 s -> stored t s) as H1 by (eapply stores_try; exact E1). split_if; [intros [= _ <-]; auto|].
  unfold mbind at 1, M_bind at 1. destruct (slot_for d p t1) as [[slot t2]|] eqn:E2; [|done].
  assert (forall s, stored t2 s -> stored t s) as H2. { intros s' Hs'. apply H1. revert Hs'. assert (stores_none (slot_for d p)) as H by (unfold slot_for; stores). by eapply H. }
  split_if; [intros [= _ <-]; auto|]. unfold mbind at 1, M_bind at 1. destruct (path_slot_clear slot t2) as [[[] t3]|] eqn:E3; [|done].
  assert (forall s, stored t3 s -> stored t s) as H3 by (intros s' Hs'; apply H2; eapply stores_clear; [exact E3|exact Hs']). unfold put_try. split_if.
  - destruct (set_at (g_dirpath t3) slot abs) as [dp|] eqn:Ep; [|done]. intros [= _ <-] [[Hne Hs]|Hs]; [|left; apply H3; by right]. destruct (set_at_elem _ _ _ _ _ Ep Hs) as [E|E]; [by right|]. left. apply H3. by left.
  - split_if; [intros [= _ <-]; auto|]. destruct (set_at (g_dirlong t3) slot (Some abs)) as [dl|] eqn:Ep; [|done]. intros [= _ <-] [[Hne Hs]|Hs]; [left; apply H3; by left|]. destruct (set_at_elem _ _ _ _ _ Ep Hs) as [E|E]; [right; congruence|]. left. apply H3. by right.
Qed.

(** A program given "/" and "/home", started in "/home". *)
Definition two_supplied : names := Names [Preopen 1 [47]; Preopen 2 [47; 104; 111; 109; 101]] 2 [47; 104; 111; 109; 101].

(** The shortcut for a name that is already normal changes no answer: such a
    name is what [join] would have made of it, so resolving it as it stands is
    resolving what it would have been normalised to. *)
Theorem already_normal_join path :
  already_normal path <> 0 -> len path + 1 < OKM_MAX_PATH -> Names.join [] path OKM_MAX_PATH = inr path.
Proof.
  intros Hn Hl. apply already_normal_path in Hn as (_ & cs & Hcs & E). subst path. rewrite len_cons in Hl.
  assert (root_length (slash :: path_of cs) = 1) as Er by done.
  unfold Names.join. rewrite Er. cbn [Z.eqb]. change (drop (Z.to_nat 1) (slash :: path_of cs)) with (path_of cs).
  cbn [append_bounded]. change (len [] =? 0) with true. cbn [negb andb].
  rewrite append_fits by (change (len []) with 0; lia). cbn [app]. split_if; [lia|]. change ((1 =? 3)%positive) with false. cbn [andb].
  change (OKM_MAX_PATH <=? 1 + 1) with false. cbn iota. rewrite normalise_fits by lia. by rewrite lexical_path.
Qed.

Lemma already_normal_join_witness : Names.join [] [47; 97; 47; 98] OKM_MAX_PATH = inr [47; 97; 47; 98].
Proof. apply (already_normal_join [47; 97; 47; 98]); by vm_compute. Defined.

(** ** The null device's name *)

Lemma components_nil_slashes p : components p = [] -> Forall (fun c => c = slash) p.
Proof.
  unfold components. induction p as [|c p IH]; cbn [parts]; [done|]. split_if.
  - intros H. constructor; [done|]. by apply IH.
  - destruct (parts p) as [|s r]; cbn [List.filter]; [done|]. rewrite len_cons. pose proof (len_nonneg s).
    destruct (1 + len s =? 0) eqn:E; boolean; [lia|done].
Qed.

(** Where the last component by [/] lies. *)
Lemma last_by_slash p cs s :
  components p = cs ++ [s] ->
  exists A B, p = A ++ s ++ B /\ Forall (fun c => c = slash) B /\ (A = [] \/ exists A', A = A' ++ [slash]).
Proof.
  remember (length p) as n eqn:En. revert p En cs. induction (lt_wf n) as [n _ IH]. intros p -> cs H.
  assert (exists k, p = replicate k slash ++ skip_slashes p) as [k Ek].
  { clear. induction p as [|c p [k IH]]; cbn [skip_slashes]; [by exists 0%nat|]. split_if; [exists (S k); subst; cbn; by rewrite <-IH|by exists 0%nat]. }
  assert (replicate k slash = [] \/ exists A', replicate k slash = A' ++ [slash]) as Hk.
  { destruct k as [|k]; [by left|right]. exists (replicate k slash). by rewrite <-replicate_cons_app. }
  rewrite <-components_skip in H. pose proof (skip_head p) as Hh. destruct (skip_slashes p) as [|c q] eqn:Eq; [by destruct cs|].
  destruct (component (c :: q)) as [s1 r1] eqn:Ec. pose proof (component_nonempty _ _ _ _ Hh Ec) as Hne.
  apply component_split in Ec as (E & Hs & Hr). rewrite E, components_step in H by done.
  destruct cs as [|s1' cs]; cbn [app] in H; injection H as -> H.
  - exists (replicate k slash), r1. rewrite Ek at 1. rewrite E. split; [done|]. split; [by apply components_nil_slashes|done].
  - assert (length r1 < length p)%nat as Hlt.
    { rewrite Ek, E, !length_app. destruct s1'; [done|]. cbn [length]. lia. }
    destruct (IH _ Hlt r1 eq_refl cs H) as (A & B & Er & HB & HA). exists (replicate k slash ++ s1' ++ A), B.
    split; [rewrite Ek at 1; rewrite E, Er; by rewrite <-!app_assoc|]. split; [done|]. right.
    assert (solid s) as [Hsne Hss].
    { pose proof (components_solid r1) as Hsol. rewrite H in Hsol. apply Forall_app in Hsol as [_ Hsol]. by inversion Hsol. }
    destruct HA as [->|[A' ->]].
    + exfalso. destruct Hr as [->|[r' ->]].
      * cbn [app] in Er. symmetry in Er. by apply app_eq_nil in Er as [-> _].
      * cbn [app] in Er. destruct s as [|y s]; [done|]. injection Er as <- _. apply Hss. by left.
    + exists (replicate k slash ++ s1' ++ A'). by rewrite <-!app_assoc.
Qed.

Lemma strip_slashes B p : Forall (fun c => c = slash) B -> strip_end (B ++ p) = strip_end p.
Proof. induction 1 as [|c B -> _ IH]; [done|]. exact IH. Qed.

Lemma until_app s p : Forall (fun c => separator c = false) s -> (p = [] \/ exists p', p = slash :: p') -> until_separator (s ++ p) = s.
Proof.
  intros Hs Hp. induction Hs as [|c s Hc _ IH]; cbn [app until_separator].
  - by destruct Hp as [->|[p' ->]].
  - by rewrite Hc, IH.
Qed.

Lemma last_component_ok A s B :
  s <> [] -> Forall (fun c => separator c = false) s -> Forall (fun c => c = slash) B -> (A = [] \/ exists A', A = A' ++ [slash]) ->
  last_component (A ++ s ++ B) = s.
Proof.
  intros Hne Hs HB HA. unfold last_component. rewrite !rev_app_distr, <-app_assoc, strip_slashes by by apply Forall_rev.
  assert (Forall (fun c => separator c = false) (rev s)) as Hrs by by apply Forall_rev.
  assert (strip_end (rev s ++ rev A) = rev s ++ rev A) as ->.
  { destruct (rev s) as [|c r] eqn:E; [by rewrite <-(rev_involutive s), E in Hne|]. inversion Hrs as [|? ? Hc _]; subst. cbn [app strip_end]. by rewrite Hc. }
  rewrite until_app; [apply rev_involutive|done|]. destruct HA as [->|[A' ->]]; [by left|]. right. rewrite rev_app_distr. by eexists.
Qed.

Lemma parts_app_slash b r : parts (b ++ slash :: r) = parts b ++ parts r.
Proof.
  induction b as [|c b IH]; cbn [app parts]; [by rewrite Z.eqb_refl|]. split_if; [by rewrite IH|]. rewrite IH.
  destruct (parts b) as [|s l] eqn:E; [|done]. exfalso. destruct b as [|x b]; cbn [parts] in E; [done|].
  destruct (x =? slash); [done|]. by destruct (parts b).
Qed.

Lemma components_app_slash b r : components (b ++ slash :: r) = components b ++ components r.
Proof. unfold components. rewrite parts_app_slash. apply List.filter_app. Qed.

Lemma path_head cs x : Forall plain cs -> path_of cs <> slash :: x.
Proof.
  intros H%plain_solid E. pose proof (skip_path cs H) as Hs. rewrite E in Hs. cbn [skip_slashes] in Hs. rewrite Z.eqb_refl in Hs.
  pose proof (length_skip x). apply (f_equal length) in Hs. cbn [length] in Hs. lia.
Qed.

(** A name that joins to the null device's has one of four last components. *)
Lemma join_null prefix path cap :
  Names.join prefix path cap = inr null_device -> path <> [] ->
  last_component path = [] \/ last_component path = null_ \/ last_component path = [dot] \/ last_component path = [dot; dot].
Proof.
  intros [E _]%join_ok Hne. set (tx := joined prefix path) in *.
  assert (root_of prefix path = root_length (rooted_in prefix path)) as Er by (unfold root_of, rooted_in; by split_if).
  assert (root_of prefix path = 1 /\ path_of (lexical tx) = tail null_device) as [Er1 Etx].
  { destruct (decide (root_length (rooted_in prefix path) = 0)) as [E0|E0].
    - rewrite Er, E0 in E. cbn in E. exfalso. by eapply path_head; [apply lexical_plain|symmetry; exact E].
    - rewrite Er in E |- *. destruct (root_text _ E0) as [[E1 Ew] | (_ & _ & c & Hc & Ew)]; rewrite Ew in E; cbn [app] in E.
      + injection E as E. split; [done|]. by rewrite <-E.
      + injection E as Ec E. rewrite <-Ec in Hc. done. }
  assert (lexical tx = [[100; 101; 118]; null_]) as Elex.
  { rewrite <-(components_path (lexical tx)) by apply plain_solid, lexical_plain. by rewrite Etx. }
  set (r := drop (Z.to_nat (root_length path)) path).
  assert (exists b, tx = b ++ r /\ (b = [] \/ exists b', b = b' ++ [slash])) as (b & Eb & Hb).
  { unfold tx, joined. rewrite Er1. cbn [Z.eqb andb]. cbv zeta. fold r.
    set (base := if root_length path =? 0 then drop (Z.to_nat (root_length prefix)) prefix else []).
    change ((1 =? 3)%positive) with false. cbn [andb].
    eexists. split; [reflexivity|].
    destruct (negb (len base =? 0) && negb (char_at base (len base - 1) =? slash)) eqn:Ee; [right; by eexists|].
    apply andb_false_iff in Ee as [H|H]; apply negb_false_iff, Z.eqb_eq in H; [left; by apply len_zero|right].
    destruct (char_at_last base) as (u' & c & -> & Hc); [|exists u'; congruence].
    pose proof (len_nonneg base). destruct (decide (len base = 0)) as [E0|]; [|lia]. exfalso. apply len_zero in E0. rewrite E0 in H. done. }
  assert (components tx = components b ++ components r) as Ecomp.
  { rewrite Eb. destruct Hb as [->|[b' ->]]; [done|]. rewrite <-app_assoc. cbn [app]. rewrite components_app_slash.
    by rewrite components_app_slash, app_nil_r. }
  assert (path = take (Z.to_nat (root_length path)) path ++ r) as Epath by (unfold r; by rewrite take_drop).
  assert (root_length path = 0 \/ root_length path = 1) as Hroot.
  { unfold root_of in Er1. destruct (root_length path =? 0) eqn:E0; boolean; auto. }
  destruct (components r) as [|s0 cs0 _] eqn:Ecr using rev_ind.
  - apply components_nil_slashes in Ecr. left. assert (Forall (fun c => c = slash) path) as Hall.
    { rewrite Epath. apply Forall_app. split; [|done]. destruct path as [|c p]; [done|]. destruct Hroot as [->|H1]; [constructor|].
      rewrite H1. change (take (Z.to_nat 1) (c :: p)) with [c]. constructor; [|done]. unfold root_length in H1. rewrite char_at_0 in H1.
      destruct (c =? 0); [done|]. destruct (c =? slash) eqn:Ec; [by apply Z.eqb_eq|]. by destruct (_ && _). }
    unfold last_component. rewrite <-(app_nil_r (rev path)), strip_slashes by by apply Forall_rev. done.
  - right. assert (s0 = null_ \/ s0 = [dot] \/ s0 = [dot; dot]) as Hs0.
    { unfold lexical in Elex. rewrite Ecomp, app_assoc, fold_left_app in Elex. cbn [fold_left] in Elex.
      apply (f_equal (@rev str)) in Elex. rewrite rev_involutive in Elex. unfold enter at 1, is_dot, is_dotdot in Elex.
      repeat case_bool_decide; auto. cbn in Elex. left. congruence. }
    destruct (last_by_slash r cs0 s0 Ecr) as (A & B & Err & HB & HA).
    enough (last_component path = s0) as -> by done. rewrite Epath, Err, app_assoc. apply last_component_ok; [..|done|].
    + by destruct Hs0 as [->|[->| ->]].
    + destruct Hs0 as [->|[->| ->]]; by repeat constructor.
    + destruct HA as [->|[A' ->]]; [|right; rewrite app_assoc; by eexists]. rewrite app_nil_r. destruct Hroot as [->|H1]; [by left|].
      right. exists []. rewrite H1. destruct path as [|c p]; [done|]. change (take (Z.to_nat 1) (c :: p)) with [c].
      unfold root_length in H1. rewrite char_at_0 in H1. destruct (c =? 0); [done|].
      destruct (c =? slash) eqn:Ec; [apply Z.eqb_eq in Ec; by subst|]. by destruct (_ && _).
Qed.

(** Looking at the last component first changes no answer: for every name
    shorter than the longest a path may be, okm_null_name is the full
    resolution's answer, whether the name is "/dev/null". *)
Theorem null_name_fast t g dirfd path :
  len path < OKM_MAX_PATH -> okm_null_name t g dirfd path = null_name_resolved t g dirfd path.
Proof.
  intros Hl. unfold okm_null_name. split_if; [unfold null_name_resolved; by split_if; [|lia]|]. split_if; [lia|].
  cbv zeta. destruct (negb (len (last_component path) =? 0) && _ && _ && _) eqn:E; [|done]. symmetry.
  apply andb_true_iff in E as [[[E1 E2]%andb_true_iff E3]%andb_true_iff E4].
  assert (path <> []) as Hne by (rewrite <-len_zero; done).
  assert (forall prefix, Names.join prefix path OKM_MAX_PATH <> inr null_device) as Hj.
  { intros prefix [H|[H|[H|H]]]%join_null; [..|done]; rewrite H in E1, E2, E3, E4; done. }
  unfold null_name_resolved. destruct (len path =? 0); [done|].
  assert (okm_absolute t g dirfd path OKM_MAX_PATH <> inr null_device) as Ha.
  { unfold okm_absolute. destruct (root_length path =? 0); cbn [negb]; [|apply Hj]. destruct (dirfd =? AT_FDCWD); [apply Hj|].
    destruct (okm_desc_of t dirfd ≫= _) as [p|]; [|done]. destruct (bool_decide (d_kind p = OKM_DIR)); cbn [negb]; [|done]. destruct (dir_name t p); [apply Hj|done]. }
  destruct (okm_absolute t g dirfd path OKM_MAX_PATH) as [|abs]; [done|]. apply bool_decide_eq_false_2. congruence.
Qed.

(** "../null" seen from "/dev/x". *)
Lemma null_name_fast_witness :
  okm_null_name table_zero (Names [] 0 [47; 100; 101; 118; 47; 120]) AT_FDCWD [46; 46; 47; 110; 117; 108; 108] =
  null_name_resolved table_zero (Names [] 0 [47; 100; 101; 118; 47; 120]) AT_FDCWD [46; 46; 47; 110; 117; 108; 108].
Proof. apply (null_name_fast table_zero _ AT_FDCWD [46; 46; 47; 110; 117; 108; 108]). by vm_compute. Defined.

(** ** A directory whose name is not known *)

Lemma ascends_plain f cs : Forall plain cs -> text (path_of cs) -> ascends f (path_of cs) = false.
Proof.
  revert cs. induction f as [|f IH]; intros cs H Ht; cbn [ascends]; [by destruct (path_of cs)|].
  destruct (path_of cs) as [|x y] eqn:E; [done|]. rewrite <-E in Ht |- *. destruct H as [|s cs Hs Hcs]; [done|].
  rewrite path_cons. destruct Hs as (Hne & Hslash & Hd & Hdd). rewrite path_cons in Ht. apply Forall_app in Ht as [Hts Htr].
  assert (exists r, component (s ++ r) = (s, r) /\ r = match cs with [] => [] | _ => slash :: path_of cs end) as (r & Ec & Er).
  { eexists. split; [|reflexivity]. clear - Hslash. induction s as [|c s IH]; cbn [app component].
    - destruct cs; [done|]. cbn [component]. by rewrite Z.eqb_refl.
    - rewrite not_elem_of_cons in Hslash. destruct Hslash as [Hc Hs]. split_if; [by subst|]. by rewrite IH. }
  rewrite <-Er, Ec. cbn [snd]. assert (skip_slashes r = path_of cs) as ->.
  { rewrite Er. destruct cs as [|s' cs']; [done|]. cbn [skip_slashes]. rewrite Z.eqb_refl. apply skip_path. by apply plain_solid. }
  rewrite IH; [|done|by destruct cs; [constructor|inversion Htr]]. assert ((char_at (s ++ r) 0 =? dot) && (char_at (s ++ r) 1 =? dot) && ((char_at (s ++ r) 2 =? slash) || (char_at (s ++ r) 2 =? 0)) = false) as ->; [|done].
  destruct s as [|a [|b [|c s]]]; [done|..].
  - (* one byte: the second is a separator or the end *)
    cbn [app]. change (char_at (a :: r) 1) with (char_at r 0). replace (char_at r 0 =? dot) with false; [by rewrite andb_false_r|].
    rewrite Er. by destruct cs.
  - cbn [app]. change (char_at (a :: b :: r) 0) with a. change (char_at (a :: b :: r) 1) with b.
    destruct (a =? dot) eqn:Ea; [|done]. destruct (b =? dot) eqn:Eb; [|done]. boolean. by subst.
  - cbn [app]. change (char_at (a :: b :: c :: s ++ r) 0) with a. change (char_at (a :: b :: c :: s ++ r) 1) with b.
    change (char_at (a :: b :: c :: s ++ r) 2) with c. rewrite !not_elem_of_cons in Hslash. rewrite text_elem in Hts.
    specialize (Hts c ltac:(do 2 right; by left)). replace (c =? slash) with false by lia. replace (c =? 0) with false by lia.
    by rewrite andb_false_r.
Qed.

(** Beneath a directory whose own name is not known, a name that ascends is
    not refused: the check for [..] sees only what normalisation has left, which
    has none, so a leading [..] is dropped and the rest of the name is looked up
    inside the directory. EACCES is never answered. *)
Theorem unknown_directory_drops_ascent t g dirfd path empty_ok d p :
  okm_desc_of t dirfd = Some d -> at_ (g_desc t) d = Some p -> d_kind p = OKM_DIR -> dir_name t p = None ->
  dirfd <> AT_FDCWD -> path <> [] -> root_length path = 0 -> text path -> len path + 2 <= OKM_MAX_PATH ->
  okm_resolve t g dirfd path empty_ok = inr (At (d_dir p) (match path_of (lexical path) with [] => [dot] | r => r end)).
Proof.
  intros Hd Hp Hk Hn Hfd Hne Hr Ht Hl. unfold okm_resolve. rewrite <-len_zero in Hne. apply Z.eqb_neq in Hne. rewrite Hne. cbn [andb].
  assert (already_normal path = 0) as ->.
  { destruct path as [|c q]; [done|]. unfold root_length in Hr. rewrite char_at_0 in Hr. unfold already_normal.
    destruct (c =? slash) eqn:E; [|done]. boolean. by subst. }
  rewrite Hr. cbn [Z.eqb negb]. apply Z.eqb_neq in Hfd. rewrite Hfd, Hd. cbn [mbind option_bind]. rewrite Hp, Hk, Hn.
  rewrite bool_decide_eq_true_2 by done. cbn [negb]. rewrite normalise_fits by done. rewrite ascends_plain.
  - assert (len (path_of (lexical path)) < OKM_MAX_PATH) as Hlen by (apply (normalise_ok path OKM_MAX_PATH); [done|by apply normalise_fits]).
    rewrite copy_whole by done. by destruct (path_of (lexical path)).
  - apply lexical_plain.
  - apply text_elem. intros c [->|Hc]%lexical_chars; [done|]. rewrite text_elem in Ht. auto.
Qed.

(** A directory at descriptor 3 whose name was never kept. *)
Definition nameless : fd_table :=
  match okm_fd_bind true 7 3 OKM_DIR 0 0 55 0 (with_fd table_zero (replicate (Z.to_nat OKM_MAX_FD) (-1, 0))) with
  | Some (_, t) => t
  | None => table_zero
  end.

(** "../x" opens "x" in it. *)
Lemma unknown_directory_drops_ascent_witness :
  okm_resolve nameless (Names [] 0 [47]) 3 [46; 46; 47; 120] false = inr (At 55 [120]).
Proof.
  apply (unknown_directory_drops_ascent nameless (Names [] 0 [47]) 3 [46; 46; 47; 120] false 0
    (Desc 1 OKM_DIR 0 0 0 55 0 0 (-1) 0 0 [] (-1) 0 0 0)); try (by vm_compute). by repeat constructor.
Defined.

Lemma nameless_unnamed p : dir_name nameless p = None.
Proof.
  assert (g_dirlong nameless = replicate 64 None /\ g_dirpath nameless = replicate 64 []) as [Edl Edp] by (split; by vm_compute).
  unfold dir_name. split_if; [done|]. rewrite Edl, Edp. unfold at_. split_if; [|done].
  destruct (decide (Z.to_nat (d_path_slot p) < 64)%nat).
  - by rewrite !lookup_replicate_2 by done.
  - by rewrite (lookup_ge_None_2 (replicate 64 None)) by (rewrite length_replicate; lia).
Qed.

(** chdir keeps the working directory's name absolute, and normal where it was
    given a name: given a name that resolves and opens, or a descriptor whose
    directory's name is known; in every other case it answers an error and
    changes nothing. *)
Theorem chdir_absolute open_dir t g dirfd path r g' :
  root_length (g_cwd g) <> 0 -> (forall d p n, at_ (g_desc t) d = Some p -> dir_name t p = Some n -> root_length n <> 0 /\ len n < OKM_MAX_PATH) ->
  okm_chdir open_dir t g dirfd path = (r, g') ->
  g' = g \/
  (r = 0 /\ g_pre g' = g_pre g /\ root_length (g_cwd g') <> 0 /\ (path <> None -> absolute (g_cwd g')) /\
   (path = None -> exists d p, okm_desc_of t dirfd = Some d /\ at_ (g_desc t) d = Some p /\ dir_name t p = Some (g_cwd g'))).
Proof.
  intros Hcwd Hdirs. unfold okm_chdir. cbv zeta. destruct path as [path|].
  - destruct (okm_resolve t g dirfd path false) as [e|a]; [intros [= _ <-]; by left|].
    destruct (open_dir (at_base a) (at_rel a)) as [e|target]; [intros [= _ <-]; by left|].
    destruct (Names.join _ path OKM_MAX_PATH) as [e|abs] eqn:Ej; [intros [= _ <-]; by left|]. intros [= <- <-]. right.
    apply join_absolute in Ej as [Ha Hl]. 2: { destruct (root_length path =? 0) eqn:E; boolean; [by right|by left]. }
    cbn [g_cwd g_pre]. rewrite copy_whole by done. split_and!; try done.
    + destruct Ha as [cs Hcs|c cs Hc Hcs Hb]; [done|].
      unfold root_length. rewrite char_at_0. change (char_at (c :: colon :: slash :: path_of cs) 1) with colon.
      change (char_at (c :: colon :: slash :: path_of cs) 2) with slash. rewrite Hc. unfold is_letter, slash in *. split_ifs; try lia; done.
    + intros _. by destruct Ha; constructor.
  - destruct (okm_desc_of t dirfd) as [d|] eqn:Ed; cbn [mbind option_bind]; [|intros [= _ <-]; by left].
    destruct (at_ (g_desc t) d) as [p|] eqn:Ep; [|intros [= _ <-]; by left].
    destruct (bool_decide (d_kind p = OKM_DIR)); cbn [negb]; [|intros [= _ <-]; by left].
    destruct (dir_name t p) as [n|] eqn:En; [|intros [= _ <-]; by left]. intros [= <- <-]. right.
    destruct (Hdirs d p n Ep En) as [Hr Hshort]. cbn [g_cwd g_pre].
    rewrite (copy_whole n) by done. rewrite copy_whole by done.
    assert (n <> []) as Hne by (intros ->; done). destruct n as [|c n]; [done|]. split_and!; try done. intros _. exists d, p. auto.
Qed.

Lemma chdir_absolute_witness :
  g_cwd (okm_chdir (fun _ _ => inr 9) nameless two_supplied AT_FDCWD (Some [46; 46; 47; 101; 116; 99])).2 = [47; 101; 116; 99] /\
  absolute [47; 101; 116; 99].
Proof.
  split; [by vm_compute|].
  destruct (chdir_absolute (fun _ _ => inr 9) nameless two_supplied AT_FDCWD (Some [46; 46; 47; 101; 116; 99]) 0
    (Names (g_pre two_supplied) 9 [47; 101; 116; 99])) as [H|(_ & _ & _ & H & _)].
  - by vm_compute.
  - intros d p n _ Hn. by rewrite nameless_unnamed in Hn.
  - by vm_compute.
  - discriminate H.
  - apply H. discriminate.
Defined.

(** Beneath a volume supplied as "C:", which is then the working directory and has no root,
    a relative name keeps its backslashes, and those that begin the remainder are passed
    over as separators: the name "\.." is handed to the environment as "..". *)
Lemma volume_cwd_ascends t : okm_resolve t (init_preopens [inr (1, [67; 58])]) AT_FDCWD [92; 46; 46] false = inr (At 1 [46; 46]).
Proof. by vm_compute. Qed.
