(* ===== verification/Region.v ===== *)
(** Anonymous memory over openkal's regions (port/src/okm_region.c): the record of
    the ranges reserved, ordered by address, and the calls that map, unmap and
    advise; and what of memory is a snapshot's (port/src/okm.h). *)
From S2P Require Import Prelude Kal.
From stdpp Require Import base list option.
From Stdlib Require Import ZArith Lia.

#[local] Open Scope Z_scope.

(** ** The snapshot a program may have been started from *)

Record okm_snapshot := Snapshot { sn_arena : Z; sn_size : Z; sn_phase : Z; sn_context : Z }.

Definition okm_sealing (s : okm_snapshot) : bool := sn_phase s =? 1.

Definition okm_from_snapshot (s : okm_snapshot) (a : Z) : bool :=
  (sn_phase s =? 2) && (sn_arena s <=? a) && (wrap64 (a - sn_arena s) <? sn_size s).

(** ** Data *)

Record range := Range { r_base : Z; r_size : Z }.

#[export] Instance range_eq_dec : EqDecision range.
Proof. solve_decision. Defined.

(** What is asked of the environment, in the order it is asked. *)
Inductive env_call :=
| C_alloc (p n : Z)
| C_free (p n : Z)
| C_reserve (p size align : Z)
| C_release (p size : Z)
| C_commit (p n : Z)
| C_decommit (p n : Z)
| C_discard (p n : Z)
| C_zero (p n : Z).

(** g_ranges below g_count, where the array is and how much it holds; [calls] are
    the environment's, the latest first. *)
Record regions := Regions { g_at : Z; g_ranges : list range; g_cap : Z; calls : list env_call }.

Definition g_count (t : regions) : Z := Z.of_nat (length (g_ranges t)).
Definition with_ranges (t : regions) l := Regions (g_at t) l (g_cap t) (calls t).

Definition call (c : env_call) : M regions () :=
  modify (fun t => Regions (g_at t) (g_ranges t) (g_cap t) (c :: calls t)).

Definition MADV_DONTNEED : Z := 4.
Definition MADV_FREE : Z := 8.
Definition sizeof_range : Z := 16.

(** ** Pages *)

(** [while (p && p < g) p <<= 1]: at most 52 doublings take 4096 to zero. *)
Fixpoint double_until (fuel : nat) (p g : Z) : Z :=
  if (p =? 0) || (g <=? p) then p
  else match fuel with O => p | S f => double_until f (wrap64 (p * 2)) g end.

(** [g] is kal_memory_granularity's answer. *)
Definition grain (g : Z) : Z :=
  if g <? 4096 then 4096
  else if has g (g - 1) then
    let p := double_until 64 4096 g in if p =? 0 then 4096 else p
  else g.

(** [(len + g - 1) & ~(g - 1)] *)
Definition whole_pages (len g : Z) : Z := Z.land (wrap64 (len + g - 1)) (Z.lnot (g - 1)).

(** ** The search *)

Fixpoint lower_loop (fuel : nat) (l : list range) (addr lo hi : Z) : option Z :=
  if lo <? hi then
    match fuel with
    | O => None
    | S f =>
        let mid := lo + (hi - lo) / 2 in
        r ← at_ l mid;
        if wrap64 (r_base r + r_size r) <=? addr then lower_loop f l addr (mid + 1) hi
        else lower_loop f l addr lo mid
    end
  else Some lo.

Definition lower (t : regions) (addr : Z) : option Z :=
  lower_loop (length (g_ranges t)) (g_ranges t) addr 0 (g_count t).

Definition find (t : regions) (addr : Z) : option Z :=
  i ← lower t addr;
  if i <? g_count t then r ← at_ (g_ranges t) i; Some (if r_base r <=? addr then i else -1)
  else Some (-1).

(** ** The record *)

(** memmove one up from [i], and the entry: the array has room or the write is
    outside it. *)
Definition insert_at (t : regions) (i : Z) (r : range) : option regions :=
  if (0 <=? i) && (i <=? g_count t) && (g_count t <? g_cap t)
  then Some (with_ranges t (take (Z.to_nat i) (g_ranges t) ++ r :: drop (Z.to_nat i) (g_ranges t)))
  else None.

(** memmove one down onto [i]. *)
Definition remove_at (t : regions) (i : Z) : option regions :=
  if (0 <=? i) && (i <? g_count t)
  then Some (with_ranges t (take (Z.to_nat i) (g_ranges t) ++ drop (S (Z.to_nat i)) (g_ranges t)))
  else None.

Section operations.
Context (snap : okm_snapshot).
(** Whether the region interface, whose names are weak, is there. *)
Context (have : bool).
(** kal_memory_granularity's answer. *)
Context (granularity : Z).

Definition okm_kal_free (p n : Z) : M regions () :=
  if okm_from_snapshot snap p then mret () else call (C_free p n).

(** The array is full: a larger one, [n] being kal_alloc's answer. *)
Definition grow (n : Z) : M regions Z :=
  t ← gets id;
  let cap := if g_cap t =? 0 then 256 else wrap64 (g_cap t * 2) in
  call (C_alloc n (wrap64 (cap * sizeof_range)));;
  if n =? 0 then mret (- ENOMEM)
  else
    when (negb (g_at t =? 0)) (okm_kal_free (g_at t) (wrap64 (g_cap t * sizeof_range)));;
    modify (fun t => Regions n (g_ranges t) cap (calls t));;
    mret 0.

Definition record (n : Z) (r : range) : M regions Z :=
  t ← gets id;
  e ← (if g_count t =? g_cap t then grow n else mret 0);
  if negb (e =? 0) then mret e
  else
    i ← try (fun t => lower t (r_base r));
    put_try (fun t => insert_at t i r);;
    mret 0.

(** [p] is kal_region_reserve's answer and [n] kal_alloc's, should it be asked. *)
Definition okm_region_map (len p n : Z) : M regions Z :=
  if negb have then mret (- ENOSYS)
  else
    let g := grain granularity in
    if len =? 0 then mret (- EINVAL)
    else if 2 ^ 64 - 1 - (g - 1) <? len then mret (- ENOMEM)
    else
      let size := whole_pages len g in
      call (C_reserve p size g);;
      if p =? 0 then mret (- ENOMEM)
      else
        e ← record n (Range p size);
        if negb (e =? 0) then call (C_release p size);; mret e
        else mret p.

(** The bounds of the part, and whether it is not empty. *)
Definition part_of (r : range) (addr len g : Z) : Z * Z * bool :=
  let b := wrap64 (addr + whole_pages len g) in
  let a := if addr <? r_base r then r_base r else addr in
  let b := if wrap64 (r_base r + r_size r) <? b then wrap64 (r_base r + r_size r) else b in
  (a, b, a <? b).

(** [None]: the address is not one of these; else what the caller reports. *)
Definition okm_region_unmap (a len : Z) : M regions (option Z) :=
  if negb have then mret None
  else
    let g := grain granularity in
    i ← try (fun t => find t a);
    if i <? 0 then mret None
    else
      r ← try (fun t => at_ (g_ranges t) i);
      if has a (g - 1) then mret (Some (- EINVAL))
      else
        let '(lo, hi, _) := part_of r a len g in
        if (lo =? r_base r) && (hi =? wrap64 (r_base r + r_size r)) then
          put_try (fun t => remove_at t i);;
          if okm_from_snapshot snap (r_base r) then mret (Some 0)
          else call (C_release (r_base r) (r_size r));; mret (Some 0)
        else
          when ((lo <? hi) && negb (okm_from_snapshot snap lo)) (call (C_decommit lo (wrap64 (hi - lo))));;
          mret (Some 0).

(** [e1] is the answer of kal_region_discard or kal_region_decommit, whichever is
    asked, and [e2] that of kal_region_commit. *)
Definition okm_region_advise (a len advice : Z) (e1 e2 : kal_error) : M regions (option Z) :=
  if negb have then mret None
  else if negb (advice =? MADV_DONTNEED) && negb (advice =? MADV_FREE) then mret None
  else
    let g := grain granularity in
    i ← try (fun t => find t a);
    if i <? 0 then mret None
    else
      r ← try (fun t => at_ (g_ranges t) i);
      if has a (g - 1) then mret (Some (- EINVAL))
      else
        let '(lo, hi, some) := part_of r a len g in
        if negb some then mret (Some 0)
        else if okm_from_snapshot snap lo then
          when (negb (advice =? MADV_FREE)) (call (C_zero lo (wrap64 (hi - lo))));;
          mret (Some 0)
        else
          e ← (if advice =? MADV_FREE then call (C_discard lo (wrap64 (hi - lo)));; mret e1
               else
                 call (C_decommit lo (wrap64 (hi - lo)));;
                 if bool_decide (e1 = kal_ok) then call (C_commit lo (wrap64 (hi - lo)));; mret e2 else mret e1);
          mret (Some (if bool_decide (e = kal_ok) then 0 else - okm_errno e)).
End operations.

Definition regions_zero : regions := Regions 0 [] 0 [].
