(* ===== verification/RegionOk.v ===== *)
(** The record of ranges keeps its order, the search finds the range an address is
    in, and a part is the pages the caller named that are in that range. *)
From S2P Require Import Prelude Kal Region.
From stdpp Require Import base list option sorting.
From Stdlib Require Import ZArith Lia.

#[local] Open Scope Z_scope.

(** ** Pages *)

(** The page of this library: a power of two from 4096 on. *)
Definition page (g : Z) : Prop := exists k, 12 <= k < 64 /\ g = 2 ^ k.

Lemma double_until_page fuel p g : p = 0 \/ page p -> double_until fuel p g = 0 \/ page (double_until fuel p g).
Proof.
  revert p. induction fuel as [|f IH]; intros p Hp; cbn [double_until]; split_if; auto. apply IH.
  destruct Hp as [-> | (k & Hk & ->)]; [by left|].
  replace (2 ^ k * 2) with (2 ^ (k + 1)) by (rewrite Z.pow_add_r by lia; lia).
  destruct (decide (k = 63)) as [->|]; [by left|]. right. exists (k + 1). split; [lia|]. apply wrap64_small.
  split; [apply Z.pow_nonneg; lia|apply Z.pow_lt_mono_r; lia].
Qed.

Lemma grain_page g : 0 <= g < 2 ^ 64 -> page (grain g).
Proof.
  intros Hg. assert (page 4096) as H4 by (by exists 12). unfold grain. split_if; [done|].
  unfold has. destruct (negb _) eqn:E; boolean.
  - destruct (double_until_page 64 4096 g) as [-> | Hp]; [by right|done|]. split_if; done.
  - exists (Z.log2 g). rewrite <-land_pred_pow2 by (done || lia). split; [|done]. split.
    + apply Z.log2_le_pow2; lia.
    + apply Z.log2_lt_pow2; lia.
Qed.

Section page.
Context (g : Z) (Hg : page g).

Lemma page_bounds : 4096 <= g < 2 ^ 64.
Proof using Hg.
destruct Hg as (k & Hk & ->). split; [change 4096 with (2 ^ 12); apply Z.pow_le_mono_r; lia|apply Z.pow_lt_mono_r; lia].
Qed.

Lemma page_offset a : has a (g - 1) = negb (a mod g =? 0).
Proof using Hg. destruct Hg as (k & Hk & ->). unfold has. by rewrite land_low by lia. Qed.

(** The least multiple of the page that is not below [len]. *)
Lemma whole_pages_ok len : 0 <= len -> len <= 2 ^ 64 - g ->
  whole_pages len g mod g = 0 /\ len <= whole_pages len g < len + g.
Proof using Hg.
intros H0 Hl. pose proof page_bounds as Hb. destruct Hg as (k & Hk & E). unfold whole_pages. rewrite wrap64_small by lia.
assert (Z.land (len + g - 1) (Z.lnot (g - 1)) = len + g - 1 - (len + g - 1) mod g) as -> by (rewrite E; by apply land_high; lia).
pose proof (Z.mod_pos_bound (len + g - 1) g ltac:(lia)).
split; [|lia]. replace (len + g - 1 - (len + g - 1) mod g) with ((len + g - 1) / g * g); [apply Z.mod_mul; lia|].
pose proof (Z.div_mod (len + g - 1) g). lia.
Qed.
End page.

(** ** The record *)

Definition ends (r : range) : Z := r_base r + r_size r.
Definition covers (r : range) (a : Z) : Prop := r_base r <= a < ends r.
Definition apart (r s : range) : Prop := ends r <= r_base s \/ ends s <= r_base r.
Definition before (r s : range) : Prop := ends r <= r_base s.

(** A range openkal reserves: not at zero, in whole pages, and such that the
    address one past it is an address. *)
Definition proper (r : range) : Prop := 0 < r_base r /\ 4096 <= r_size r /\ ends r < 2 ^ 64.

Record regions_ok (t : regions) : Prop := {
  ro_proper : Forall proper (g_ranges t);
  ro_sorted : StronglySorted before (g_ranges t);
  ro_cap : g_count t <= g_cap t <= 2 ^ 53;
}.

Lemma sorted_at l i j r s : StronglySorted before l -> 0 <= i < j -> at_ l i = Some r -> at_ l j = Some s -> before r s.
Proof.
  intros Hs Hij Hi Hj. apply at_lookup in Hi. apply at_lookup in Hj. revert i j Hij Hi Hj.
  induction Hs as [|x l Hs IH Hx]; intros i j Hij Hi Hj; [done|].
  replace (Z.to_nat j) with (S (Z.to_nat (j - 1))) in Hj by lia. cbn in Hj.
  destruct (decide (i = 0)) as [-> |].
  - injection Hi as ->. rewrite List.Forall_forall in Hx. apply Hx. apply list_elem_of_In. by eapply list_elem_of_lookup_2.
  - replace (Z.to_nat i) with (S (Z.to_nat (i - 1))) in Hi by lia. cbn in Hi. eapply (IH (i - 1) (j - 1)); auto; lia.
Qed.

(** Ranges of a page or more that do not meet: there are fewer than 2^52 of them. *)
Lemma sorted_count l b :
  StronglySorted before l -> Forall proper l -> Forall (fun r => b <= r_base r) l -> 0 <= b <= 2 ^ 64 ->
  b + 4096 * Z.of_nat (length l) <= 2 ^ 64.
Proof.
  intros Hs. revert b. induction Hs as [|x l Hs IH Hx]; intros b Hp Hb H0; cbn [length]; [lia|].
  inversion_clear Hp as [|? ? [? [? ?]] Hp']. inversion_clear Hb.
  assert (ends x + 4096 * Z.of_nat (length l) <= 2 ^ 64); [|unfold ends in *; lia].
  apply IH; [done|done|unfold ends in *; lia].
Qed.

(** ** The search *)

Section search.
Context (t : regions) (Ht : regions_ok t) (addr : Z).

(** [i] divides the record: what ends by [addr] is before it. *)
Definition divides (i : Z) : Prop :=
  (forall j r, 0 <= j < i -> at_ (g_ranges t) j = Some r -> ends r <= addr) /\
  (forall j r, i <= j -> at_ (g_ranges t) j = Some r -> addr < ends r).

Lemma proper_at j r : at_ (g_ranges t) j = Some r -> proper r.
Proof using Ht.
intros Hj%at_lookup. destruct Ht as [Hp _ _]. rewrite Forall_lookup in Hp. eauto.
Qed.

Lemma lower_loop_ok fuel lo hi :
  0 <= lo <= hi -> hi <= g_count t -> hi - lo <= Z.of_nat fuel ->
  (forall j r, 0 <= j < lo -> at_ (g_ranges t) j = Some r -> ends r <= addr) ->
  (forall j r, hi <= j -> at_ (g_ranges t) j = Some r -> addr < ends r) ->
  exists i, lower_loop fuel (g_ranges t) addr lo hi = Some i /\ lo <= i <= hi /\ divides i.
Proof using Ht.
revert lo hi. induction fuel as [|f IH]; intros lo hi Hl Hh Hf Hlo Hhi; cbn [lower_loop]; split_if; try lia.
1, 3: exists lo; split; [done|]; split; [lia|]; split; [done|]; intros; eapply Hhi; [|done]; lia.
set (mid := lo + (hi - lo) / 2).
assert (lo <= mid < hi) as Hm by (unfold mid; Z.to_euclidean_division_equations; lia).
destruct (at_some (g_ranges t) mid) as [r Hr]; [unfold g_count in *; lia|]. rewrite Hr. cbn [mbind option_bind].
destruct (proper_at _ _ Hr) as (? & ? & ?). unfold ends in *. rewrite wrap64_small by lia. split_if.
- destruct (IH (mid + 1) hi) as (i & -> & Hi & Hd); [lia..| |done|exists i; split_and!; auto; lia].
  intros j s Hj Hs. destruct (decide (j = mid)) as [-> |]; [rewrite Hr in Hs; injection Hs as <-; done|].
  destruct Ht as [_ Hsort _]. pose proof (sorted_at _ j mid s r Hsort ltac:(lia) Hs Hr). unfold before, ends in *. lia.
- destruct (IH lo mid) as (i & -> & Hi & Hd); [lia..|done| |exists i; split_and!; auto; lia].
  intros j s Hj Hs. destruct (decide (j = mid)) as [-> |]; [rewrite Hr in Hs; injection Hs as <-; done|].
  destruct Ht as [_ Hsort _]. pose proof (sorted_at _ mid j r s Hsort ltac:(lia) Hr Hs) as Hb.
  destruct (proper_at _ _ Hs) as (? & ? & ?). unfold before, ends in *. lia.
Qed.

Lemma lower_ok : exists i, lower t addr = Some i /\ 0 <= i <= g_count t /\ divides i.
Proof using Ht.
apply lower_loop_ok; unfold g_count; try lia. intros j r Hj Hr%at_range. lia.
Qed.

Lemma find_ok : exists i, Region.find t addr = Some i /\
  (i = -1 /\ Forall (fun r => ~ covers r addr) (g_ranges t) \/
   exists r, at_ (g_ranges t) i = Some r /\ covers r addr).
Proof using Ht.
destruct lower_ok as (i & E & Hi & Hlo & Hhi). unfold Region.find. rewrite E. cbn [mbind option_bind]. split_if.
- destruct (at_some (g_ranges t) i) as [r Hr]; [unfold g_count in *; lia|]. rewrite Hr. cbn [mbind option_bind].
  pose proof (Hhi i r ltac:(lia) Hr). split_if; [exists i; split; [done|]; right; exists r; split; [done|]; split; lia|].
  exists (-1). split; [done|]. left. split; [done|]. apply Forall_lookup. intros j s Hs [Hc1 Hc2].
  assert (at_ (g_ranges t) (Z.of_nat j) = Some s) as Hs' by (unfold at_; split_if; [by rewrite Nat2Z.id|lia]).
  destruct (decide (Z.of_nat j < i)); [pose proof (Hlo (Z.of_nat j) s ltac:(lia) Hs'); lia|].
  destruct (decide (Z.of_nat j = i)) as [Ej |]; [rewrite Ej, Hr in Hs'; injection Hs' as <-; lia|].
  destruct Ht as [_ Hsort _]. pose proof (sorted_at _ i (Z.of_nat j) r s Hsort ltac:(lia) Hr Hs') as Hb.
  destruct (proper_at _ _ Hr) as (? & ? & ?). unfold before, ends in *. lia.
- exists (-1). split; [done|]. left. split; [done|]. apply Forall_lookup. intros j s Hs [Hc1 Hc2].
  pose proof (lookup_lt_Some _ _ _ Hs). assert (at_ (g_ranges t) (Z.of_nat j) = Some s) as Hs' by (unfold at_; split_if; [by rewrite Nat2Z.id|lia]).
  pose proof (Hlo (Z.of_nat j) s ltac:(unfold g_count in *; lia) Hs'). lia.
Qed.
End search.

(** No address is in two ranges. *)
Lemma covers_unique l i j r s a : StronglySorted before l -> at_ l i = Some r -> at_ l j = Some s ->
  covers r a -> covers s a -> i = j.
Proof.
  intros Hs Hi Hj [? ?] [? ?]. pose proof (at_range _ _ _ Hi). pose proof (at_range _ _ _ Hj).
  destruct (Z.lt_trichotomy i j) as [Hlt | [-> | Hlt]]; [|done|]; exfalso.
  - pose proof (sorted_at l i j r s Hs ltac:(lia) Hi Hj) as Hb. unfold before in Hb. lia.
  - pose proof (sorted_at l j i s r Hs ltac:(lia) Hj Hi) as Hb. unfold before in Hb. lia.
Qed.

(** ** Changes to the record *)

Lemma at_split {A} (l : list A) i x : at_ l i = Some x -> l = take (Z.to_nat i) l ++ x :: drop (S (Z.to_nat i)) l.
Proof. intros H%at_lookup. by rewrite take_drop_middle. Qed.

Lemma remove_ok t i r : regions_ok t -> at_ (g_ranges t) i = Some r ->
  exists t', remove_at t i = Some t' /\ regions_ok t' /\ g_ranges t ≡ₚ r :: g_ranges t' /\ calls t' = calls t /\
    (forall l1 l2, g_ranges t = l1 ++ r :: l2 -> Z.of_nat (length l1) = i -> g_ranges t' = l1 ++ l2).
Proof.
  intros [Hp Hs Hc] Hi. pose proof (at_range _ _ _ Hi) as Hr. unfold remove_at.
  destruct (_ && _) eqn:E; [|unfold g_count in *; lia]. clear E. eexists. split; [done|].
  pose proof (at_split _ _ _ Hi) as E. set (l1 := take _ _) in *. set (l2 := drop _ _) in *. cbn [with_ranges g_ranges calls].
  rewrite E in Hp, Hs. apply Forall_app in Hp as [Hp1 Hp2]. inversion_clear Hp2.
  apply StronglySorted_app in Hs as (Hx & H1 & H2). apply StronglySorted_cons in H2 as [_ H2].
  split_and!; [|by rewrite E, Permutation_middle|done|].
  - constructor; cbn [with_ranges g_ranges g_cap].
    + by apply Forall_app.
    + apply StronglySorted_app. split_and!; auto. intros x y Hx1 Hy. apply Hx; [done|]. by right.
    + unfold g_count in *. rewrite E in Hc. cbn [with_ranges g_ranges]. rewrite !length_app in *. cbn [length] in *. lia.
  - intros k1 k2 E' Hl. assert (length k1 = length l1) as El by (subst l1; rewrite length_take; lia).
    rewrite E' in E. apply app_inj_1 in E as [-> [=  ->]]; [done|done].
Qed.

Section record.
Context (snap : okm_snapshot) (l0 : list range).

(** Whether a call changes what is reserved. *)
Definition quiet (c : env_call) : bool := match c with C_reserve _ _ _ | C_release _ _ => false | _ => true end.

(** What is reserved after the calls, of which a release must name a range that is;
    [l0] was reserved before the first. *)
Fixpoint replay (cs : list env_call) : option (list range) :=
  match cs with
  | [] => Some l0
  | c :: cs' =>
      l ← replay cs';
      match c with
      | C_reserve p size _ => Some (if p =? 0 then l else Range p size :: l)
      | C_release p size => remove_one (Range p size) l
      | _ => Some l
      end
  end.

Lemma replay_quiet cs cs' : Forall (fun c => quiet c = true) cs -> replay (cs ++ cs') = replay cs'.
Proof.
induction cs as [|c cs IH]; intros Hq; [done|]. inversion_clear Hq. cbn [app replay]. rewrite IH by done.
destruct (replay cs'); [|done]. by destruct c.
Qed.

Lemma grow_ok n t : regions_ok t -> g_count t = g_cap t ->
  exists cs, Forall (fun c => quiet c = true) cs /\
  ((n = 0 /\ grow snap n t = Some (- ENOMEM, Regions (g_at t) (g_ranges t) (g_cap t) (cs ++ calls t))) \/
   (n <> 0 /\ exists cap, grow snap n t = Some (0, Regions n (g_ranges t) cap (cs ++ calls t)) /\ g_count t < cap <= 2 ^ 53)).
Proof.
intros [Hp Hs Hc] Hcap.
assert (g_count t <= 2 ^ 52) as Hn.
{ pose proof (sorted_count _ 0 Hs Hp) as H. unfold g_count. enough (0 + 4096 * Z.of_nat (length (g_ranges t)) <= 2 ^ 64) by lia.
  apply H; [|lia]. eapply Forall_impl; [done|]. intros x (? & _). lia. }
unfold grow, okm_kal_free, call, mbind, M_bind, mret, M_ret, when, gets, modify. cbv beta iota. change (id t) with t.
set (cap := if g_cap t =? 0 then 256 else wrap64 (g_cap t * 2)).
assert (g_count t < cap <= 2 ^ 53) as Hcap'.
{ unfold cap, g_count in *. split_if; [lia|]. rewrite wrap64_small by lia. lia. }
destruct (n =? 0) eqn:En; boolean.
- exists [C_alloc n (wrap64 (cap * sizeof_range))]. split; [by repeat constructor|]. left. done.
- destruct (g_at t =? 0); cbn [negb].
  + exists [C_alloc n (wrap64 (cap * sizeof_range))]. split; [by repeat constructor|]. right. eauto.
  + destruct (okm_from_snapshot snap (g_at t)).
    * exists [C_alloc n (wrap64 (cap * sizeof_range))]. split; [by repeat constructor|]. right. eauto.
    * exists [C_free (g_at t) (wrap64 (g_cap t * sizeof_range)); C_alloc n (wrap64 (cap * sizeof_range))].
      split; [by repeat constructor|]. right. eauto.
Qed.

(** There is room, and the range goes where the search says. *)
Lemma insert_ok t r : regions_ok t -> proper r -> Forall (apart r) (g_ranges t) -> g_count t < g_cap t ->
  exists i l1 l2, lower t (r_base r) = Some i /\ g_ranges t = l1 ++ l2 /\
    insert_at t i r = Some (with_ranges t (l1 ++ r :: l2)) /\ regions_ok (with_ranges t (l1 ++ r :: l2)).
Proof.
intros Ht Hr Ha Hroom. destruct (lower_ok t Ht (r_base r)) as (i & E & Hi & Hlo & Hhi).
exists i, (take (Z.to_nat i) (g_ranges t)), (drop (Z.to_nat i) (g_ranges t)).
split_and!; [done|by rewrite take_drop| |].
{ unfold insert_at. destruct (_ && _) eqn:Eb; [done|lia]. }
destruct Ht as [Hp Hs Hc].
assert (forall x, x ∈ take (Z.to_nat i) (g_ranges t) -> before x r) as H1.
{ intros x (j & Hj)%list_elem_of_lookup. apply lookup_take_Some in Hj as [Hj Hlt].
  apply (Hlo (Z.of_nat j) x); [lia|]. unfold at_. split_if; [by rewrite Nat2Z.id|lia]. }
assert (forall x, x ∈ drop (Z.to_nat i) (g_ranges t) -> before r x) as H2.
{ intros x (j & Hj)%list_elem_of_lookup. rewrite lookup_drop in Hj.
  assert (at_ (g_ranges t) (i + Z.of_nat j) = Some x) as Hx by (unfold at_; split_if; [|lia]; by replace (Z.to_nat (i + Z.of_nat j)) with (Z.to_nat i + j)%nat by lia).
  pose proof (Hhi (i + Z.of_nat j) x ltac:(lia) Hx). rewrite Forall_lookup in Ha. destruct (Ha _ _ Hj) as [|]; unfold before; lia. }
pose proof (take_drop (Z.to_nat i) (g_ranges t)) as E'. rewrite <-E' in Hp, Hs. apply Forall_app in Hp as [Hp1 Hp2].
apply StronglySorted_app in Hs as (Hx & Hs1 & Hs2).
constructor; cbn [with_ranges g_ranges g_cap].
- apply Forall_app. auto.
- apply StronglySorted_app. split_and!; [|done|].
  + intros x y Hx1 [-> |Hy]%elem_of_cons; [by apply H1|by apply Hx].
  + apply StronglySorted_cons. split; [|done]. apply List.Forall_forall. intros x Hx1. apply H2. by apply list_elem_of_In.
- unfold g_count in *. cbn [with_ranges g_ranges]. rewrite <-E' in Hroom, Hc. rewrite !length_app in *. cbn [length]. lia.
Qed.

Lemma record_ok n r t : regions_ok t -> proper r -> Forall (apart r) (g_ranges t) ->
  exists e t', record snap n r t = Some (e, t') /\ regions_ok t' /\ replay (calls t') = replay (calls t) /\
    ((e = - ENOMEM /\ n = 0 /\ g_ranges t' = g_ranges t) \/
     (e = 0 /\ exists l1 l2, g_ranges t = l1 ++ l2 /\ g_ranges t' = l1 ++ r :: l2)).
Proof.
intros Ht Hr Ha. unfold record, mbind, M_bind, gets, mret, M_ret, try, put_try. cbv beta iota. change (id t) with t.
destruct (g_count t =? g_cap t) eqn:Ec; boolean.
- destruct (grow_ok n t Ht Ec) as (cs & Hq & [[-> ->] | (Hn & cap & -> & Hcap)]).
  + cbn [negb Z.eqb Z.opp ENOMEM]. do 2 eexists. split; [reflexivity|]. cbn [g_ranges calls].
    split_and!; [by destruct Ht; constructor|by apply replay_quiet|by left].
  + set (t1 := Regions _ _ _ _). assert (regions_ok t1) as Ht1 by (destruct Ht; constructor; cbn in *; try done; unfold g_count in *; cbn; lia).
    destruct (insert_ok t1 r Ht1 Hr Ha) as (i & l1 & l2 & El & E & Ei & Hok); [unfold g_count in *; cbn; lia|].
    cbn [negb Z.eqb]. rewrite El. cbn [fmap option_fmap option_map]. rewrite Ei. cbn [fmap option_fmap option_map].
    do 2 eexists. split; [reflexivity|]. split; [done|]. split; [by apply replay_quiet|]. right. cbn in E. eauto.
- destruct (insert_ok t r Ht Hr Ha) as (i & l1 & l2 & El & E & Ei & Hok); [destruct Ht; lia|].
  cbn [negb Z.eqb]. rewrite El. cbn [fmap option_fmap option_map]. rewrite Ei. cbn [fmap option_fmap option_map].
  do 2 eexists. split; [reflexivity|]. split; [done|]. split; [done|]. right. eauto.
Qed.
End record.
