(* ===== verification/RegionTheorems.v ===== *)
(** What mmap, munmap and madvise of anonymous memory promise: the range an address
    is in is found, what is reserved is what is recorded, what a caller maps it
    unmaps, and a part touched is the caller's pages and no others. *)
From S2P Require Import Prelude Kal Region RegionOk.
From stdpp Require Import base list option sorting relations.
From Stdlib Require Import ZArith Lia.

#[local] Open Scope Z_scope.

Ltac region_monad :=
  unfold call, mbind, M_bind, gets, mret, M_ret, try, put_try, when, modify; cbv beta iota.

Section operations.
Context (snap : okm_snapshot) (granularity : Z) (Hgran : 0 <= granularity < 2 ^ 64).
Abbreviation g := (grain granularity).

Lemma part_of_ok r a len :
  proper r -> covers r a -> 0 <= len -> a + whole_pages len g < 2 ^ 64 -> len <= 2 ^ 64 - g ->
  part_of r a len g = (a, Z.min (a + whole_pages len g) (ends r), 0 <? len).
Proof using Hgran.
intros (Hb & Hs & He) [Ha1 Ha2] Hl Hw Hl'. pose proof (grain_page _ Hgran) as Hp. pose proof (page_bounds _ Hp).
destruct (whole_pages_ok _ Hp len Hl Hl') as [Hm Hwp]. unfold part_of, ends in *. rewrite !wrap64_small by lia.
destruct (a <? r_base r) eqn:E1; boolean; [lia|].
assert ((if r_base r + r_size r <? a + whole_pages len g then r_base r + r_size r else a + whole_pages len g)
  = Z.min (a + whole_pages len g) (r_base r + r_size r)) as -> by (split_if; lia).
f_equal. destruct (0 <? len) eqn:E2; boolean; [lia|].
assert (len = 0) as -> by lia. apply Z.ltb_ge. enough (whole_pages 0 g = 0) by lia.
apply Z.mod_divide in Hm as [q Hq]; [|lia]. assert (q = 0) by nia. lia.
Qed.

(** What kal_region_reserve promises of the range it answers: it is proper and
    apart from [l]. *)
Definition granted (l : list range) (len p : Z) : Prop :=
  p = 0 \/ proper (Range p (whole_pages len g)) /\ Forall (apart (Range p (whole_pages len g))) l.

Lemma map_ok l0 have len p n t l :
  regions_ok t -> 0 <= len < 2 ^ 64 -> granted (g_ranges t) len p -> replay l0 (calls t) = Some l ->
  exists z t', okm_region_map snap have granularity len p n t = Some (z, t') /\ regions_ok t' /\
    ((z < 0 /\ g_ranges t' = g_ranges t /\ (exists l', replay l0 (calls t') = Some l' /\ l' ≡ₚ l) /\ (have = true -> z <> - ENOSYS)) \/
     (have = true /\ z = p /\ 0 < p /\ len <= whole_pages len g < len + g /\ whole_pages len g mod g = 0 /\
      replay l0 (calls t') = Some (Range p (whole_pages len g) :: l) /\
      exists l1 l2, g_ranges t = l1 ++ l2 /\ g_ranges t' = l1 ++ Range p (whole_pages len g) :: l2)).
Proof using Hgran.
intros Ht Hl Hg Hr. pose proof (grain_page _ Hgran) as Hp. pose proof (page_bounds _ Hp).
unfold okm_region_map. destruct have; cbn [negb]; [|exists (- ENOSYS), t; split_and!; auto; left; split_and!; eauto; done].
split_if; [exists (- EINVAL), t; split_and!; auto; left; split_and!; eauto; done|].
split_if; [exists (- ENOMEM), t; split_and!; auto; left; split_and!; eauto; done|].
destruct (whole_pages_ok _ Hp len ltac:(lia) ltac:(lia)) as [Hm Hwp].
set (size := whole_pages len g) in *. region_monad. set (t1 := Regions _ _ _ _).
assert (regions_ok t1) as Ht1 by (by destruct Ht; constructor). split_if.
{ exists (- ENOMEM), t1. split_and!; auto. left. split_and!; auto; [done|]. exists l. split; [|done].
  cbn [calls t1 replay]. rewrite Hr. cbn [mbind option_bind]. by subst p. }
destruct Hg as [|[Hpr Hap]]; [done|].
assert (replay l0 (calls t1) = Some (Range p size :: l)) as Hr1.
{ cbn [calls t1 replay]. rewrite Hr. cbn [mbind option_bind]. destruct (p =? 0) eqn:E; boolean; [done|done]. }
destruct (record_ok snap l0 n (Range p size) t1 Ht1 Hpr Hap) as (e & t2 & -> & Ht2 & Hr2 & [(-> & -> & E) | (-> & l1 & l2 & E1 & E2)]).
- change (negb (- ENOMEM =? 0)) with true. cbv beta iota. do 2 eexists. split; [reflexivity|].
  split; [by destruct Ht2; constructor|]. left. split; [done|]. split; [done|]. split; [|done]. cbn [calls replay]. rewrite Hr2, Hr1. cbn [mbind option_bind remove_one].
  destruct (decide _); [eauto|done].
- change (negb (0 =? 0)) with false. cbv beta iota. exists p, t2. split_and!; auto. right.
  destruct Hpr as [H0 _]. cbn in H0. split_and!; auto; [lia..|by rewrite Hr2|eauto].
Qed.

(** munmap: not one of these; not a page; the whole; a part. *)
Lemma unmap_ok have a len t :
  regions_ok t ->
  exists z t', okm_region_unmap snap have granularity a len t = Some (z, t') /\ regions_ok t' /\
    ((z = None /\ t' = t /\ (have = true -> Forall (fun r => ~ covers r a) (g_ranges t))) \/
     (exists i r, have = true /\ at_ (g_ranges t) i = Some r /\ covers r a /\
       ((a mod g <> 0 /\ z = Some (- EINVAL) /\ t' = t) \/
        (a mod g = 0 /\ z = Some 0 /\
          let '(lo, hi, _) := part_of r a len g in
          if (lo =? r_base r) && (hi =? wrap64 (ends r))
          then remove_at t i = Some (with_ranges t (g_ranges t')) /\ g_ranges t ≡ₚ r :: g_ranges t' /\
            calls t' = (if okm_from_snapshot snap (r_base r) then [] else [C_release (r_base r) (r_size r)]) ++ calls t
          else g_ranges t' = g_ranges t /\
            calls t' = (if (lo <? hi) && negb (okm_from_snapshot snap lo) then [C_decommit lo (wrap64 (hi - lo))] else []) ++ calls t)))).
Proof using Hgran.
intros Ht. pose proof (grain_page _ Hgran) as Hp. unfold okm_region_unmap.
destruct have; cbn [negb]; [|exists None, t; split_and!; auto; left; split_and!; done].
destruct (find_ok t Ht a) as (i & Ef & Hi). region_monad. rewrite Ef. cbn [fmap option_fmap option_map].
destruct Hi as [[-> Hno] | (r & Hr & Hc)]; [exists None, t; split_and!; auto; left; by split_and!|].
pose proof (at_range _ _ _ Hr). split_if; [lia|]. rewrite Hr. cbn [fmap option_fmap option_map].
rewrite (page_offset _ Hp). destruct (a mod g =? 0) eqn:Ea; cbn [negb]; boolean.
2: { exists (Some (- EINVAL)), t. split_and!; auto. right. exists i, r. split_and!; auto. }
destruct (part_of r a len g) as [[lo hi] nonempty] eqn:Epart. fold (ends r). destruct ((lo =? r_base r) && _) eqn:Ew.
- destruct (remove_ok t i r Ht Hr) as (t' & Er & Ht' & Hperm & Hcalls & _). rewrite Er. cbn [fmap option_fmap option_map].
  assert (Some t' = Some (with_ranges t (g_ranges t'))) as Et.
  { rewrite <-Er. revert Er. unfold remove_at. split_if; [|done]. by intros [= <-]. }
  rewrite Et in Er. injection Et as Et.
  destruct (okm_from_snapshot snap (r_base r)) eqn:Esn; do 2 eexists; (split; [reflexivity|]).
  + split; [done|]. right. exists i, r. split_and!; auto. right. split_and!; auto. rewrite Epart, Ew, Esn. auto.
  + split; [by destruct Ht'; constructor|]. right. exists i, r. split_and!; auto. right. split_and!; auto. rewrite Epart, Ew, Esn. cbn [g_ranges calls]. by rewrite Hcalls.
- destruct ((lo <? hi) && _) eqn:Ed; do 2 eexists; (split; [reflexivity|]).
  + split; [by destruct Ht; constructor|]. right. exists i, r. split_and!; auto. right. split_and!; auto. rewrite Epart, Ew, Ed. auto.
  + split; [done|]. right. exists i, r. split_and!; auto. right. split_and!; auto. rewrite Epart, Ew, Ed. auto.
Qed.

(** The calls madvise makes of a part. *)
Definition advice_calls (lo hi advice : Z) (e1 : kal_error) : list env_call :=
  if okm_from_snapshot snap lo then (if advice =? MADV_FREE then [] else [C_zero lo (wrap64 (hi - lo))])
  else if advice =? MADV_FREE then [C_discard lo (wrap64 (hi - lo))]
  else (if bool_decide (e1 = kal_ok) then [C_commit lo (wrap64 (hi - lo))] else []) ++ [C_decommit lo (wrap64 (hi - lo))].

Definition advice_answer (lo advice : Z) (e1 e2 : kal_error) : Z :=
  if okm_from_snapshot snap lo then 0
  else - okm_errno (if advice =? MADV_FREE then e1 else if bool_decide (e1 = kal_ok) then e2 else e1).

Lemma advise_ok have a len advice e1 e2 t :
  regions_ok t ->
  exists z t', okm_region_advise snap have granularity a len advice e1 e2 t = Some (z, t') /\ regions_ok t' /\ g_ranges t' = g_ranges t /\
    ((z = None /\ t' = t) \/
     (exists i r, have = true /\ at_ (g_ranges t) i = Some r /\ covers r a /\ (advice = MADV_DONTNEED \/ advice = MADV_FREE) /\
       ((a mod g <> 0 /\ z = Some (- EINVAL) /\ t' = t) \/
        (a mod g = 0 /\
          let '(lo, hi, some) := part_of r a len g in
          if some : bool then z = Some (advice_answer lo advice e1 e2) /\ calls t' = advice_calls lo hi advice e1 ++ calls t
          else z = Some 0 /\ t' = t)))).
Proof using Hgran.
intros Ht. pose proof (grain_page _ Hgran) as Hp. unfold okm_region_advise.
destruct have; cbn [negb]; [|exists None, t; by split_and!; auto].
destruct (negb (advice =? MADV_DONTNEED) && _) eqn:Eadv; [exists None, t; by split_and!; auto|].
assert (advice = MADV_DONTNEED \/ advice = MADV_FREE) as Hadv by lia. clear Eadv.
destruct (find_ok t Ht a) as (i & Ef & Hi). region_monad. rewrite Ef. cbn [fmap option_fmap option_map].
destruct Hi as [[-> Hno] | (r & Hr & Hc)]; [exists None, t; by split_and!; auto|].
pose proof (at_range _ _ _ Hr). split_if; [lia|]. rewrite Hr. cbn [fmap option_fmap option_map].
rewrite (page_offset _ Hp). destruct (a mod g =? 0) eqn:Ea; cbn [negb]; boolean.
2: { exists (Some (- EINVAL)), t. split_and!; auto. right. exists i, r. split_and!; auto. }
destruct (part_of r a len g) as [[lo hi] nonempty] eqn:Epart. destruct nonempty; cbn [negb].
2: { exists (Some 0), t. split_and!; auto. right. exists i, r. split_and!; auto. right. split; [done|]. by rewrite Epart. }
unfold advice_calls, advice_answer.
assert (forall e, (if bool_decide (e = kal_ok) then 0 else - okm_errno e) = - okm_errno e) as Heq by (by intros []).
destruct (okm_from_snapshot snap lo) eqn:Esn, (advice =? MADV_FREE) eqn:Efr; cbn [negb]; try destruct (bool_decide (e1 = kal_ok)) eqn:Ee;
  rewrite ?Heq; do 2 eexists; (split; [reflexivity|]); (split; [by first [done|destruct Ht; constructor]|]); (split; [done|]); right; exists i, r; split_and!; auto;
  right; (split; [done|]); rewrite Epart, Esn; cbn [calls app]; auto.
all: split; [|done]; do 2 f_equal; first [done | apply Heq | apply bool_decide_eq_true in Ee as ->; done].
Qed.
End operations.

(** ** The search *)

(** The search terminates within the array and its answer is right: the index
    of the one range the address is in, and -1 exactly when it is in none. *)
Theorem region_find_correct t addr :
  regions_ok t ->
  exists i, Region.find t addr = Some i /\
    (i = -1 <-> Forall (fun r => ~ covers r addr) (g_ranges t)) /\
    (i <> -1 -> exists r, at_ (g_ranges t) i = Some r /\ covers r addr /\
       forall j s, at_ (g_ranges t) j = Some s -> covers s addr -> j = i).
Proof.
  intros Ht. destruct (find_ok t Ht addr) as (i & E & [[-> Hno] | (r & Hr & Hc)]); eexists; (split; [exact E|]).
  - split; [done|]. lia.
  - pose proof (at_range _ _ _ Hr). split; [split; [lia|]|].
    + intros Hno. rewrite Forall_lookup in Hno. apply at_lookup in Hr. destruct (Hno _ _ Hr Hc).
    + intros _. exists r. split_and!; auto. intros j s Hs Hcs. destruct Ht as [_ Hsort _]. by eapply covers_unique.
Qed.

(** Three ranges, the second a page, and an address within it. *)
Definition three_ranges : regions :=
  Regions 1 [Range 0x10000 0x2000; Range 0x20000 0x1000; Range 0x40000 0x8000] 256 [].

Lemma three_ranges_ok : regions_ok three_ranges.
Proof.
  constructor; [|by repeat constructor|done]. unfold proper, ends. repeat constructor; by vm_compute.
Qed.

Lemma region_find_correct_witness : Region.find three_ranges 0x20800 = Some 1 /\ covers (Range 0x20000 0x1000) 0x20800.
Proof.
  destruct (region_find_correct three_ranges 0x20800 three_ranges_ok) as (i & E & _ & H).
  replace (Region.find three_ranges 0x20800) with (Some 1) in * by reflexivity. injection E as <-.
  destruct (H ltac:(done)) as (r & Hr & Hc & _). split; [done|]. vm_compute in Hr. by injection Hr as <-.
Defined.

(** ** What is reserved *)

Section steps.
Context (snap : okm_snapshot) (l0 : list range) (have : bool) (granularity : Z).

(** What the environment has reserved is what is recorded and, of a snapshot, what
    was recorded and is not the environment's to take back. *)
Record world_ok (t : regions) : Prop := {
  wo_regions : regions_ok t;
  wo_live : exists l kept, replay l0 (calls t) = Some l /\ l ≡ₚ g_ranges t ++ kept /\
    Forall (fun r => okm_from_snapshot snap (r_base r) = true) kept;
}.

(** A call, by whichever context holds the lock. A range the environment gives is
    apart from those that are reserved. *)
Inductive region_step (t : regions) : regions -> Prop :=
| step_map len p n z t' :
    0 <= len < 2 ^ 64 -> (forall l, replay l0 (calls t) = Some l -> granted granularity l len p) ->
    okm_region_map snap have granularity len p n t = Some (z, t') -> region_step t t'
| step_unmap a len z t' : okm_region_unmap snap have granularity a len t = Some (z, t') -> region_step t t'
| step_advise a len advice e1 e2 z t' :
    okm_region_advise snap have granularity a len advice e1 e2 t = Some (z, t') -> region_step t t'.

Lemma granted_ranges t l kept len p : l ≡ₚ g_ranges t ++ kept -> granted granularity l len p -> granted granularity (g_ranges t) len p.
Proof using. intros E [|[? H]]; [by left|]. right. split; [done|]. rewrite E in H. by apply Forall_app in H as [? _]. Qed.

Lemma step_world t t' : 0 <= granularity < 2 ^ 64 -> region_step t t' -> world_ok t -> world_ok t'.
Proof using.
intros Hg Hs [Ht (l & kept & Hr & Hl & Hk)]. destruct Hs as [len p n z t' Hlen Hgr E|a len z t' E|a len advice e1 e2 z t' E].
- destruct (map_ok snap granularity Hg l0 have len p n t l Ht Hlen (granted_ranges _ _ _ _ _ Hl (Hgr _ Hr)) Hr)
    as (z' & t2 & E' & Ht' & H). rewrite E in E'. injection E' as <- <-. constructor; [done|].
  destruct H as [(_ & -> & (l' & -> & Hl') & _) | (_ & _ & _ & _ & _ & -> & l1 & l2 & E1 & E2)].
  + exists l', kept. split_and!; auto. by rewrite Hl'.
  + do 2 eexists. split; [done|]. split; [|exact Hk]. rewrite E2, Hl, E1, <-!app_assoc. cbn [app]. by rewrite Permutation_middle.
- destruct (unmap_ok snap granularity Hg have a len t Ht) as (z' & t2 & E' & Ht' & H). rewrite E in E'. injection E' as <- <-.
  constructor; [done|]. destruct H as [(_ & -> & _) | (i & r & _ & _ & _ & [(_ & _ & ->) | (_ & _ & H)])]; [by eauto..|].
  destruct (part_of r a len _) as [[lo hi] ?]. destruct ((lo =? r_base r) && _).
  + destruct H as (_ & Hperm & ->). destruct (okm_from_snapshot snap (r_base r)) eqn:Esn; cbn [app replay].
    * exists l, (r :: kept). split_and!; [done|by rewrite Hl, Hperm, <-Permutation_middle|by constructor].
    * rewrite Hr. cbn [mbind option_bind]. destruct (remove_one_perm r l (g_ranges t' ++ kept)) as (k & Ek & Hk'); [by rewrite Hl, Hperm|].
      destruct r. cbn in *. rewrite Ek. eauto.
  + destruct H as (-> & ->). rewrite replay_quiet by (case_match; by repeat constructor). eauto.
- destruct (advise_ok snap granularity Hg have a len advice e1 e2 t Ht) as (z' & t2 & E' & Ht' & Hran & H).
  rewrite E in E'. injection E' as <- <-. constructor; [done|]. rewrite Hran.
  destruct H as [(_ & ->) | (i & r & _ & _ & _ & _ & [(_ & _ & ->) | (_ & H)])]; [by eauto..|].
  destruct (part_of r a len _) as [[lo hi] []]; [|destruct H as [_ ->]; eauto]. destruct H as (_ & ->).
  rewrite replay_quiet; [eauto|]. unfold advice_calls. repeat case_match; by repeat constructor.
Qed.
End steps.

(** C6. Whatever maps, unmaps and advises in whatever order, what the environment has
    reserved is exactly the recorded ranges, and of a snapshot those it keeps: no
    reservation is lost and none is released twice, the record stays ordered and
    apart, and no call leaves the array or its capacity. *)
Theorem region_reserved_recorded snap l0 have granularity t0 t :
  0 <= granularity < 2 ^ 64 -> world_ok snap l0 t0 -> rtc (region_step snap l0 have granularity) t0 t ->
  world_ok snap l0 t /\
  (forall len p n, 0 <= len < 2 ^ 64 -> (forall l, replay l0 (calls t) = Some l -> granted granularity l len p) ->
     is_Some (okm_region_map snap have granularity len p n t)) /\
  (forall a len, is_Some (okm_region_unmap snap have granularity a len t)) /\
  (forall a len advice e1 e2, is_Some (okm_region_advise snap have granularity a len advice e1 e2 t)).
Proof.
  intros Hg H0 Hsteps. assert (world_ok snap l0 t) as Hw.
  { induction Hsteps as [|t1 t2 t3 H12 _ IH]; [done|]. apply IH. by eapply step_world. }
  split; [done|]. destruct Hw as [Ht (l & kept & Hr & Hl & Hk)]. split_and!.
  - intros len p n Hlen Hgr. destruct (map_ok snap granularity Hg l0 have len p n t l Ht Hlen (granted_ranges _ _ _ _ _ _ Hl (Hgr _ Hr)) Hr)
      as (z & t' & -> & _). eauto.
  - intros a len. destruct (unmap_ok snap granularity Hg have a len t Ht) as (z & t' & -> & _). eauto.
  - intros a len advice e1 e2. destruct (advise_ok snap granularity Hg have a len advice e1 e2 t Ht) as (z & t' & -> & _). eauto.
Qed.

Definition no_snapshot : okm_snapshot := Snapshot 0 0 0 0.

Lemma regions_zero_ok : regions_ok regions_zero.
Proof. constructor; [constructor|constructor|done]. Qed.

Lemma world_zero_ok : world_ok no_snapshot [] regions_zero.
Proof. constructor; [apply regions_zero_ok|]. by exists [], []. Qed.

(** A page and a half is mapped, then its first page unmapped. *)
Definition after_map : regions :=
  Regions 0x9000 [Range 0x10000 0x2000] 256 [C_alloc 0x9000 4096; C_reserve 0x10000 0x2000 4096].
Definition after_part : regions :=
  Regions 0x9000 [Range 0x10000 0x2000] 256 [C_decommit 0x10000 0x1000; C_alloc 0x9000 4096; C_reserve 0x10000 0x2000 4096].

Lemma region_reserved_recorded_witness : world_ok no_snapshot [] after_part.
Proof.
  apply (region_reserved_recorded no_snapshot [] true 4096 regions_zero after_part); [lia|apply world_zero_ok|].
  eapply (rtc_l _ _ after_map); [|apply rtc_once].
  - eapply (step_map _ _ _ _ _ 0x1800 0x10000 0x9000); [lia| |vm_compute; reflexivity]. intros l [= <-]. right.
    split; [unfold proper, ends; vm_compute; split_and!; done|constructor].
  - eapply (step_unmap _ _ _ _ _ 0x10000 0x1000). vm_compute. reflexivity.
Defined.

(** ** Mapping and unmapping *)

(** The whole of a range, named as it was mapped. *)
Lemma unmap_whole snap granularity len t i r :
  0 <= granularity < 2 ^ 64 -> regions_ok t -> at_ (g_ranges t) i = Some r -> whole_pages len (grain granularity) = r_size r ->
  r_base r mod grain granularity = 0 -> okm_from_snapshot snap (r_base r) = false ->
  exists t', okm_region_unmap snap true granularity (r_base r) len t = Some (Some 0, t') /\ remove_at t i = Some (with_ranges t (g_ranges t')) /\ calls t' = C_release (r_base r) (r_size r) :: calls t.
Proof.
  intros Hg Ht Hi Hw Hmod Hsn. destruct (proper_at t Ht i r Hi) as (H0 & Hs & He). unfold ends in He.
  destruct (unmap_ok snap granularity Hg true (r_base r) len t Ht) as (z & t' & E & _ & H). exists t'.
  assert (covers r (r_base r)) as Hcov by (unfold covers, ends; lia).
  destruct H as [(_ & _ & Hno) | (j & r' & _ & Hj & Hc & [(Hbad & _) | (_ & -> & Hpart)])].
  { specialize (Hno eq_refl). rewrite Forall_lookup in Hno. destruct (Hno _ _ (at_lookup _ _ _ Hi) Hcov). }
  { done. }
  assert (j = i) as -> by (destruct Ht as [_ Hsort _]; by eapply covers_unique). rewrite Hi in Hj. injection Hj as <-.
  assert (part_of r (r_base r) len (grain granularity) = (r_base r, ends r, true)) as Epart.
  { unfold part_of, ends. rewrite Hw, !wrap64_small by lia. rewrite !Z.ltb_irrefl. by replace (r_base r <? _) with true by lia. }
  rewrite Epart, Hsn, Z.eqb_refl, wrap64_small, Z.eqb_refl in Hpart by (unfold ends; lia). by destruct Hpart as (? & _ & ?).
Qed.

(** mmap then munmap of the same address and length gives everything back: the
    record is as it was and the reservation, which holds the length in the fewest
    whole pages, is released; and a mapping refused, for want of memory for the
    record too, leaves nothing reserved. *)
Theorem region_map_unmap snap l0 granularity len p n t l :
  0 <= granularity < 2 ^ 64 -> regions_ok t -> 0 <= len < 2 ^ 64 -> granted granularity (g_ranges t) len p ->
  replay l0 (calls t) = Some l -> p mod grain granularity = 0 -> okm_from_snapshot snap p = false ->
  exists z t', okm_region_map snap true granularity len p n t = Some (z, t') /\
    ((z < 0 /\ g_ranges t' = g_ranges t /\ exists l', replay l0 (calls t') = Some l' /\ l' ≡ₚ l) \/
     (z = p /\ exists size t'', len <= size < len + grain granularity /\ size mod grain granularity = 0 /\
        Range p size ∈ g_ranges t' /\ replay l0 (calls t') = Some (Range p size :: l) /\
        okm_region_unmap snap true granularity p len t' = Some (Some 0, t'') /\
        g_ranges t'' = g_ranges t /\ replay l0 (calls t'') = Some l)).
Proof.
  intros Hg Ht Hlen Hgr Hr Hmod Hsn. pose proof (grain_page _ Hg) as Hpage. pose proof (page_bounds _ Hpage) as Hpb.
  destruct (map_ok snap granularity Hg l0 true len p n t l Ht Hlen Hgr Hr) as (z & t' & E & Ht' & H).
  exists z, t'. split; [done|]. destruct H as [(? & ? & ? & _)|(_ & -> & Hp & Hsz & Hszm & Hr' & l1 & l2 & E1 & E2)]; [by left|].
  right. split; [done|]. destruct Hgr as [|[Hpr Hap]]; [lia|]. set (size := whole_pages len _) in *.
  assert (at_ (g_ranges t') (Z.of_nat (length l1)) = Some (Range p size)) as Hat
    by (rewrite E2; unfold at_; split_if; [|lia]; rewrite Nat2Z.id, lookup_app_r, Nat.sub_diag by lia; done).
  destruct (unmap_whole snap granularity len t' _ _ Hg Ht' Hat) as (t'' & Eu & Erem & Ecalls); [done..|].
  exists size, t''. split_and!; auto; [lia|lia|rewrite E2; apply elem_of_app; right; by left| |].
  - destruct (remove_ok t' _ _ Ht' Hat) as (t3 & E3 & _ & _ & _ & Hl). rewrite E3 in Erem.
    rewrite E1, <-(Hl l1 l2 E2 eq_refl). by injection Erem as ->.
  - rewrite Ecalls. cbn [replay]. rewrite Hr'. cbn [mbind option_bind remove_one r_size r_base]. by destruct (decide _).
Qed.

(** Six thousand bytes between two ranges. *)
Lemma region_map_unmap_witness :
  exists z t', okm_region_map no_snapshot true 4096 6000 0x30000 0 three_ranges = Some (z, t') /\
    ((z < 0 /\ g_ranges t' = g_ranges three_ranges /\ exists l', replay (g_ranges three_ranges) (calls t') = Some l' /\ l' ≡ₚ g_ranges three_ranges) \/
     (z = 0x30000 /\ exists size t'', 6000 <= size < 6000 + grain 4096 /\ size mod grain 4096 = 0 /\
        Range 0x30000 size ∈ g_ranges t' /\ replay (g_ranges three_ranges) (calls t') = Some (Range 0x30000 size :: g_ranges three_ranges) /\
        okm_region_unmap no_snapshot true 4096 0x30000 6000 t' = Some (Some 0, t'') /\
        g_ranges t'' = g_ranges three_ranges /\ replay (g_ranges three_ranges) (calls t'') = Some (g_ranges three_ranges))).
Proof.
  apply region_map_unmap; [lia|apply three_ranges_ok|lia| |reflexivity|reflexivity|reflexivity]. right. split.
  - unfold proper, ends. vm_compute. split_and!; done.
  - constructor; [right; by vm_compute|]. constructor; [right; by vm_compute|]. constructor; [left; by vm_compute|constructor].
Defined.

(** ** Parts *)

(** munmap of a part and madvise touch the caller's pages that are in the range
    the address is in, and nothing else: the calls made are for exactly
    [[addr, min (addr + pages, end of the range))], a part unmapped stays recorded,
    [MADV_DONTNEED] backs the part again only when its backing went, and an
    error of the environment is reported. *)
Theorem region_part_touched snap granularity a len advice e1 e2 t i r :
  let g := grain granularity in
  let hi := Z.min (a + whole_pages len g) (ends r) in
  0 <= granularity < 2 ^ 64 -> regions_ok t -> at_ (g_ranges t) i = Some r -> covers r a -> a mod g = 0 ->
  0 < len <= 2 ^ 64 - g -> a + whole_pages len g < 2 ^ 64 ->
  (a <> r_base r \/ hi <> ends r ->
   exists t', okm_region_unmap snap true granularity a len t = Some (Some 0, t') /\ g_ranges t' = g_ranges t /\
     calls t' = (if okm_from_snapshot snap a then [] else [C_decommit a (hi - a)]) ++ calls t) /\
  (advice = MADV_DONTNEED \/ advice = MADV_FREE ->
   exists t', okm_region_advise snap true granularity a len advice e1 e2 t = Some (Some (advice_answer snap a advice e1 e2), t') /\
     g_ranges t' = g_ranges t /\ calls t' = advice_calls snap a hi advice e1 ++ calls t) /\
  a < hi <= ends r.
Proof.
  intros g hi Hg Ht Hi Hc Hmod Hlen Hw. pose proof (grain_page _ Hg) as Hpage. fold g in Hpage.
  pose proof (proper_at t Ht i r Hi) as Hpr. destruct (whole_pages_ok _ Hpage len) as [_ Hwp]; [lia..|].
  pose proof (part_of_ok granularity Hg r a len Hpr Hc ltac:(lia) Hw ltac:(fold g; lia)) as Epart. fold g in Epart. fold hi in Epart.
  replace (0 <? len) with true in Epart by lia.
  assert (a < hi <= ends r) as Hhi by (destruct Hc; lia).
  assert (forall j s, at_ (g_ranges t) j = Some s -> covers s a -> j = i /\ s = r) as Huniq.
  { intros j s Hj Hs. assert (j = i) as -> by (destruct Ht as [_ Hsort _]; by eapply covers_unique). split; congruence. }
  destruct Hpr as (? & ? & ?). pose proof Hc as [? ?]. split_and!; [| |lia..].
  - intros Hpart. destruct (unmap_ok snap granularity Hg true a len t Ht) as (z & t' & E & _ & H'). exists t'.
    destruct H' as [(_ & _ & Hno) | (j & s & _ & Hj & Hs & [(Hbad & _) | (_ & -> & H')])].
    { specialize (Hno eq_refl). rewrite Forall_lookup in Hno. destruct (Hno _ _ (at_lookup _ _ _ Hi) Hc). }
    { done. }
    destruct (Huniq _ _ Hj Hs) as [-> ->]. fold g in H'. rewrite Epart in H'. rewrite wrap64_small in H' by lia.
    destruct ((a =? r_base r) && (hi =? ends r)) eqn:Ew; [lia|]. destruct H' as [-> ->]. split_and!; auto.
    rewrite wrap64_small by lia. replace (a <? hi) with true by lia. by destruct (okm_from_snapshot snap a).
  - intros Hadv. destruct (advise_ok snap granularity Hg true a len advice e1 e2 t Ht) as (z & t' & E & _ & Hran & H'). exists t'.
    destruct H' as [[-> _] | (j & s & _ & Hj & Hs & _ & [(Hbad & _) | (_ & H')])]; [|done|].
    + exfalso. revert E. unfold okm_region_advise. cbn [negb].
      destruct (negb (advice =? MADV_DONTNEED) && _) eqn:Eadv; [lia|]. destruct (find_ok t Ht a) as (k & Ef & [[-> Hno] | (s & Hk & Hs)]).
      { rewrite Forall_lookup in Hno. destruct (Hno _ _ (at_lookup _ _ _ Hi) Hc). }
      destruct (Huniq _ _ Hk Hs) as [-> ->]. region_monad. rewrite Ef. cbn [fmap option_fmap option_map].
      pose proof (at_range _ _ _ Hi). replace (i <? 0) with false by lia. rewrite Hk. cbn [fmap option_fmap option_map].
      fold g. rewrite Epart. repeat case_match; done.
    + destruct (Huniq _ _ Hj Hs) as [-> ->]. fold g in H'. rewrite Epart in H'. destruct H' as [-> ->]. done.
Qed.

Lemma region_part_touched_witness :
  exists t', okm_region_advise no_snapshot true 4096 0x41000 0x1001 MADV_DONTNEED kal_ok kal_ok three_ranges = Some (Some 0, t') /\
    g_ranges t' = g_ranges three_ranges /\ calls t' = [C_commit 0x41000 0x2000; C_decommit 0x41000 0x2000].
Proof.
  apply (region_part_touched no_snapshot 4096 0x41000 0x1001 MADV_DONTNEED kal_ok kal_ok three_ranges 2 (Range 0x40000 0x8000)).
  - lia.
  - apply three_ranges_ok.
  - reflexivity.
  - unfold covers, ends. cbn. lia.
  - reflexivity.
  - change (grain 4096) with 4096. lia.
  - reflexivity.
  - by left.
Defined.

(** A length within a page of 2^64 rounds to no pages: munmap answers success and
    leaves the range as it is. *)
Example region_unmap_wraps :
  okm_region_unmap no_snapshot true 4096 0x20000 (2 ^ 64 - 1) three_ranges = Some (Some 0, three_ranges).
Proof. reflexivity. Qed.
