(* ===== verification/MapFile.v ===== *)
(** A part of a file in the address space (port/src/okm_map.c): the record of the
    regions made, and mmap, munmap and msync of a file. *)
From S2P Require Import Prelude Kal FdTable Region.
From stdpp Require Import base list option.
From Stdlib Require Import ZArith Lia.

#[local] Open Scope Z_scope.

(** ** Data *)

Definition MAP_SHARED : Z := 1.
Definition MAP_PRIVATE : Z := 2.
Definition MAP_FIXED : Z := 0x10.
Definition PROT_WRITE : Z := 2.
Definition PROT_EXEC : Z := 4.
Definition ENXIO : Z := 6.
Definition ENOTSUP : Z := 95.

Record region := MkRegion { m_user : Z; m_user_len : Z; m_base : Z; m_base_len : Z }.

(** What is asked of the environment. [how]: whether the mapping is written and
    whether it is shared. *)
Inductive map_call :=
| K_alloc (p n : Z)
| K_free (p n : Z)
| K_map (file start want : Z) (write shared : bool) (base : option Z)
| K_release (base n : Z)
| K_sync (base n : Z).

(** g_regions below g_count, where the array is and how much it holds; [asked] is
    the latest first. *)
Record maps := Maps { g_table : Z; g_regions : list region; g_room : Z; asked : list map_call }.

Definition with_regions (t : maps) l := Maps (g_table t) l (g_room t) (asked t).
Definition ask (c : map_call) : M maps () := modify (fun t => Maps (g_table t) (g_regions t) (g_room t) (c :: asked t)).
Definition sizeof_region : Z := 32.
Definition maps_zero : maps := Maps 0 [] 0 [].

(** ** Operations *)

Section operations.
Context (snap : okm_snapshot).
(** KAL_MAP_ALIGNMENT, openkal's. *)
Context (alignment : Z).
(** Whether kal_map_file, a weak reference, is there. *)
Context (have : bool).

(** The array is full: a larger one, [n] being kal_alloc's answer. *)
Definition enlarge (n : Z) : M maps Z :=
  t ← gets id;
  let cap := if g_room t =? 0 then 64 else wrap64 (g_room t * 2) in
  ask (K_alloc n (wrap64 (cap * sizeof_region)));;
  if n =? 0 then mret (- ENOMEM)
  else
    when (negb (g_table t =? 0) && negb (okm_from_snapshot snap (g_table t)))
         (ask (K_free (g_table t) (wrap64 (g_room t * sizeof_region))));;
    modify (fun t => Maps n (g_regions t) cap (asked t));;
    mret 0.

Definition record (n : Z) (r : region) : M maps Z :=
  t ← gets id;
  e ← (if Z.of_nat (length (g_regions t)) =? g_room t then enlarge n else mret 0);
  if negb (e =? 0) then mret e
  else
    put_try (fun t => if Z.of_nat (length (g_regions t)) <? g_room t then Some (with_regions t (g_regions t ++ [r])) else None);;
    mret 0.

Definition in_user (addr : Z) (r : region) : bool :=
  (m_user r <=? addr) && (addr <? wrap64 (m_user r + m_user_len r)).

Definition find (t : maps) (addr : Z) : Z :=
  match scan_from (in_user addr) (g_regions t) 0 with Some i => i | None => -1 end.

(** [fds] is the descriptor table; [ie], [size] are okm_fs_file_info's answer and [e],
    [base] kal_map_file's; [n] is kal_alloc's, should it be asked. *)
Definition okm_map_file (fds : fd_table) (len prot flags fd off : Z) (ie : kal_error) (size : Z)
    (e : kal_error) (base n : Z) : M maps Z :=
  if negb have then mret (- ENOSYS)
  else if has flags MAP_FIXED then mret (- ENOTSUP)
  else if has prot PROT_EXEC then mret (- EACCES)
  else if (len =? 0) || (off <? 0) then mret (- EINVAL)
  else
    let shared := has flags MAP_SHARED in
    if negb shared && negb (has flags MAP_PRIVATE) then mret (- EINVAL)
    else match desc_at fds fd with
    | None => mret (- EBADF)
    | Some d =>
        if negb (bool_decide (d_kind d = OKM_FILE)) then mret (- ENODEV)
        else if negb (bool_decide (ie = kal_ok)) then mret (- okm_errno ie)
        else
          let start := Z.land off (Z.lnot (alignment - 1)) in
          let lead := off - start in
          if size <=? off then mret (- ENXIO)
          else
            let want := wrap64 (lead + len) in
            let want := if size <? wrap64 (start + want) then wrap64 (size - start) else want in
            ask (K_map (d_file d) start want (has prot PROT_WRITE) shared (if bool_decide (e = kal_ok) then Some base else None));;
            if negb (bool_decide (e = kal_ok)) then
              mret (if bool_decide (e = kal_err_not_supported) then - ENODEV else - okm_errno e)
            else
              let r := MkRegion (wrap64 (base + lead)) len base want in
              re ← record n r;
              if negb (re =? 0) then ask (K_release base want);; mret re
              else mret (m_user r)
    end.

(** [g_regions[i] = g_regions[--g_count]] *)
Definition drop_region (t : maps) (i : Z) : option maps :=
  z ← at_ (g_regions t) (Z.of_nat (length (g_regions t)) - 1);
  l ← set_at (g_regions t) i z;
  Some (with_regions t (removelast l)).

(** [None]: the address is not one of these; else what the caller reports. *)
Definition okm_map_unmap (addr : Z) : M maps (option Z) :=
  t ← gets id;
  let i := find t addr in
  if i <? 0 then mret None
  else
    r ← try (fun t => at_ (g_regions t) i);
    if negb (addr =? m_user r) then mret (Some (- EINVAL))
    else
      put_try (fun t => drop_region t i);;
      ask (K_release (m_base r) (m_base_len r));;
      mret (Some 0).

(** [e] is kal_map_sync's answer. *)
Definition okm_map_sync (addr : Z) (e : kal_error) : M maps (option Z) :=
  t ← gets id;
  let i := find t addr in
  if i <? 0 then mret None
  else
    r ← try (fun t => at_ (g_regions t) i);
    ask (K_sync (m_base r) (m_base_len r));;
    mret (Some (if bool_decide (e = kal_ok) then 0 else - okm_errno e)).
End operations.
