(* ===== verification/MapFileTheorems.v ===== *)
(** What mmap, munmap and msync of a file promise: what is mapped is recorded until
    it is released, and the address answered is the file's byte at the offset. *)
From S2P Require Import Prelude Kal FdTable FdTableOk Region MapFile.
From stdpp Require Import base list option relations.
From Stdlib Require Import ZArith Lia.

#[local] Open Scope Z_scope.

Ltac map_monad := unfold ask, mbind, M_bind, gets, mret, M_ret, try, put_try, when, modify; cbv beta iota.

(** What is mapped after the calls, of which a release must name a mapping. *)
Fixpoint mapped (cs : list map_call) : option (list (Z * Z)) :=
  match cs with
  | [] => Some []
  | c :: cs' =>
      l ← mapped cs';
      match c with
      | K_map _ _ want _ _ (Some base) => Some ((base, want) :: l)
      | K_release base n => remove_one (base, n) l
      | _ => Some l
      end
  end.

Definition extent (r : region) : Z * Z := (m_base r, m_base_len r).

Record maps_ok (t : maps) : Prop := {
  mo_room : Z.of_nat (length (g_regions t)) <= g_room t <= 2 ^ 58;
  mo_mapped : exists l, mapped (asked t) = Some l /\ l ≡ₚ extent <$> g_regions t;
}.

(** Fewer mappings than an address space has room for. *)
Definition few (t : maps) : Prop := Z.of_nat (length (g_regions t)) < 2 ^ 57.

(** ** The record *)

Section record.
Context (snap : okm_snapshot).

Lemma enlarge_ok n t : Z.of_nat (length (g_regions t)) = g_room t -> few t ->
  exists cs, (forall cs', mapped (cs ++ cs') = mapped cs') /\
  ((n = 0 /\ enlarge snap n t = Some (- ENOMEM, Maps (g_table t) (g_regions t) (g_room t) (cs ++ asked t))) \/
   (n <> 0 /\ exists room, enlarge snap n t = Some (0, Maps n (g_regions t) room (cs ++ asked t)) /\ g_room t < room <= 2 ^ 58)).
Proof using.
intros Hfull Hfew. unfold few in Hfew. unfold enlarge. map_monad. change (id t) with t.
set (room := if g_room t =? 0 then 64 else wrap64 (g_room t * 2)).
assert (g_room t < room <= 2 ^ 58) by (unfold room; split_if; [lia|]; rewrite wrap64_small by lia; lia).
set (c1 := K_alloc n _). set (c2 := K_free _ _).
assert (forall cs', mapped ([c1] ++ cs') = mapped cs' /\ mapped ([c2; c1] ++ cs') = mapped cs') as Hq.
{ intros cs'. cbn [app mapped]. unfold c1, c2. by destruct (mapped cs'). }
destruct (n =? 0) eqn:En; boolean.
- exists [c1]. split; [intros; apply Hq|]. by left.
- destruct (negb (g_table t =? 0) && _); [exists [c2; c1]|exists [c1]]; (split; [intros; apply Hq|]); right; eauto.
Qed.

Lemma map_record_ok n r t : Z.of_nat (length (g_regions t)) <= g_room t <= 2 ^ 58 -> few t ->
  exists e t', MapFile.record snap n r t = Some (e, t') /\ mapped (asked t') = mapped (asked t) /\ asked t `suffix_of` asked t' /\
    Z.of_nat (length (g_regions t')) <= g_room t' <= 2 ^ 58 /\
    ((e = - ENOMEM /\ n = 0 /\ Z.of_nat (length (g_regions t)) = g_room t /\ g_regions t' = g_regions t) \/
     (e = 0 /\ g_regions t' = g_regions t ++ [r])).
Proof using.
intros Hroom Hfew. unfold MapFile.record. map_monad. change (id t) with t.
destruct (Z.of_nat (length (g_regions t)) =? g_room t) eqn:E; boolean.
- destruct (enlarge_ok n t E Hfew) as (cs & Hq & [[-> ->] | (Hn & room & -> & Hr)]).
  + change (negb (- ENOMEM =? 0)) with true. cbv beta iota. do 2 eexists. split; [reflexivity|]. cbn [asked g_regions g_room]. split_and!; auto; [by exists cs|lia..].
  + change (negb (0 =? 0)) with false. cbv beta iota. cbn [g_regions g_room]. split_if; [|lia]. do 2 eexists. split; [reflexivity|].
    cbn [asked g_regions g_room with_regions]. rewrite length_app. cbn [length]. split_and!; auto; [by exists cs|lia..].
- change (negb (0 =? 0)) with false. cbv beta iota. split_if; [|lia]. do 2 eexists. split; [reflexivity|].
  cbn [asked g_regions g_room with_regions]. rewrite length_app. cbn [length]. split_and!; auto; lia.
Qed.
End record.

Lemma map_find_ok t addr :
  match scan_from (in_user addr) (g_regions t) 0 with
  | Some i => MapFile.find t addr = i /\ 0 <= i /\ exists r, at_ (g_regions t) i = Some r /\ in_user addr r = true
  | None => MapFile.find t addr = -1 /\ Forall (fun r => in_user addr r = false) (g_regions t)
  end.
Proof.
  unfold MapFile.find. destruct (scan_from _ _ 0) as [i|] eqn:E.
  - apply scan_from_some in E as (Hi & (r & Hr & Hin) & _). rewrite Z.sub_0_r in Hr. split_and!; [done|lia|eauto].
  - split; [done|]. by eapply scan_from_none.
Qed.

Lemma drop_region_ok t i r : at_ (g_regions t) i = Some r ->
  exists t', drop_region t i = Some t' /\ g_regions t ≡ₚ r :: g_regions t' /\ asked t' = asked t /\ g_room t' = g_room t.
Proof.
  intros Hi. pose proof (at_range _ _ _ Hi). unfold drop_region.
  destruct (at_some (g_regions t) (Z.of_nat (length (g_regions t)) - 1)) as [z Hz]; [lia|]. rewrite Hz. cbn [mbind option_bind].
  pose proof (set_at_some (g_regions t) i z ltac:(lia)) as Es. rewrite Es. cbn [mbind option_bind].
  eexists. split; [done|]. by destruct (swap_last _ _ _ _ _ Hi Hz Es).
Qed.

(** ** What is mapped *)

Section steps.
Context (snap : okm_snapshot) (alignment : Z) (have : bool).

(** How much is mapped: to the end of what was asked for, or of the file. *)
Definition clipped (len off size : Z) : Z :=
  let start := Z.land off (Z.lnot (alignment - 1)) in
  let want := wrap64 (off - start + len) in
  if size <? wrap64 (start + want) then wrap64 (size - start) else want.

Lemma map_file_ok fds len prot flags fd off ie size e base n t :
  maps_ok t -> few t ->
  exists z t', okm_map_file snap alignment have fds len prot flags fd off ie size e base n t = Some (z, t') /\ maps_ok t' /\
    ((z < 0 /\ g_regions t' = g_regions t) \/
     (e = kal_ok /\ z = wrap64 (base + (off - Z.land off (Z.lnot (alignment - 1)))) /\ 0 <= off < size /\ len <> 0 /\ g_regions t' = g_regions t ++ [MkRegion z len base (clipped len off size)])).
Proof using.
intros Ht Hfew. unfold okm_map_file.
assert (Hno : forall z, z < 0 -> exists z' t', (mret z : M maps Z) t = Some (z', t') /\ maps_ok t' /\ ((z' < 0 /\ g_regions t' = g_regions t) \/
     (e = kal_ok /\ z' = wrap64 (base + (off - Z.land off (Z.lnot (alignment - 1)))) /\ 0 <= off < size /\ len <> 0 /\ g_regions t' = g_regions t ++ [MkRegion z' len base (clipped len off size)]))).
{ intros z Hz. exists z, t. split; [done|]. split; [done|]. by left. }
repeat (match goal with |- context [if ?b then mret _ else _] => destruct b eqn:?; [by apply Hno|] end).
destruct (desc_at fds fd) as [d|]; [|by apply Hno]. split_if; [by apply Hno|]. destruct (bool_decide_reflect (ie = kal_ok)) as [|Hie]; cbn [negb]; [|pose proof (errno_pos _ Hie); apply Hno; lia].
destruct (size <=? off) eqn:?; [by apply Hno|]. clear Hno. boolean. assert (0 <= off < size) as Hin by lia. assert (len <> 0) as Hnz by lia. unfold clipped.
set (start := Z.land off _). set (want0 := wrap64 (off - start + len)). set (want := if _ <? _ then _ else want0).
destruct Ht as [Hroom (l & Hl & Hp)]. map_monad. set (t1 := Maps _ _ _ _). destruct (bool_decide_reflect (e = kal_ok)) as [->|He]; cbn [negb].
- destruct (map_record_ok snap n (MkRegion (wrap64 (base + (off - start))) len base want) t1 Hroom Hfew) as
    (re & t' & -> & Hm & _ & Hroom' & [(-> & -> & _ & Er) | [-> Er]]).
  + change (negb (- ENOMEM =? 0)) with true. cbv beta iota. do 2 eexists. split; [reflexivity|]. split; [|by left]. constructor; [done|].
    cbn [asked mapped g_regions t1] in *. rewrite Hm, Hl. cbn [mbind option_bind].
    cbn [remove_one]. destruct (decide _); [|done]. exists l. split; [done|]. by rewrite Er.
  + change (negb (0 =? 0)) with false. cbv beta iota. do 2 eexists. split; [reflexivity|]. split; [|right; by eauto 8]. constructor; [done|].
    rewrite Hm. cbn [asked mapped t1]. rewrite Hl. cbn [mbind option_bind]. eexists. split; [done|].
    rewrite Er, fmap_app, Hp. cbn [fmap list_fmap g_regions t1]. by rewrite Permutation_app_comm.
- do 2 eexists. split; [reflexivity|]. split; [constructor; [done|]; cbn [asked mapped t1]; rewrite Hl; by exists l|]. left. split; [|done]. pose proof (errno_pos _ He). split_if; unfold ENODEV; lia.
Qed.

(** munmap: not one of these; not where one begins; a whole one. *)
Lemma map_unmap_ok addr t : maps_ok t -> exists z t', okm_map_unmap addr t = Some (z, t') /\ maps_ok t' /\
  ((z = None /\ t' = t /\ Forall (fun r => in_user addr r = false) (g_regions t)) \/
   exists r, r ∈ g_regions t /\ in_user addr r = true /\
     (addr <> m_user r /\ z = Some (- EINVAL) /\ t' = t \/ addr = m_user r /\ z = Some 0 /\ g_regions t ≡ₚ r :: g_regions t')).
Proof using.
intros Ht. unfold okm_map_unmap. map_monad. change (id t) with t. pose proof (map_find_ok t addr) as Hf.
destruct (scan_from _ _ 0) as [i|]; [|destruct Hf as [-> Hno]; do 2 eexists; split; [reflexivity|]; split; [done|]; by left].
destruct Hf as (-> & Hi & r & Hr & Hin). split_if; [lia|]. rewrite Hr. cbn [fmap option_fmap option_map].
assert (Hel : r ∈ g_regions t) by (apply list_elem_of_lookup; exists (Z.to_nat i); by apply at_lookup).
destruct (Z.eqb_spec addr (m_user r)) as [Ha|Ha]; cbn [negb]; [|do 2 eexists; split; [reflexivity|]; split; [done|]; right; exists r; split; [done|]; split; [done|]; by left].
destruct (drop_region_ok t i r Hr) as (t' & -> & Hp & Has & Hg). cbn [fmap option_fmap option_map]. do 2 eexists. split; [reflexivity|].
split; [|right; exists r; split; [done|]; split; [done|]; by right]. destruct Ht as [Hroom (l & Hl & Hperm)]. constructor; cbn [asked g_regions g_room mapped].
- rewrite Hg. apply Permutation_length in Hp. rewrite Hp in Hroom. cbn [length] in Hroom. lia.
- rewrite Has, Hl. cbn [mbind option_bind]. apply remove_one_perm. by rewrite Hperm, Hp.
Qed.

Lemma map_sync_ok addr e t : maps_ok t -> exists z t', okm_map_sync addr e t = Some (z, t') /\ maps_ok t' /\ g_regions t' = g_regions t.
Proof using.
intros Ht. unfold okm_map_sync. map_monad. change (id t) with t. pose proof (map_find_ok t addr) as Hf.
destruct (scan_from _ _ 0) as [i|]; [|destruct Hf as [-> _]; by do 2 eexists].
destruct Hf as (-> & Hi & r & Hr & _). split_if; [lia|]. rewrite Hr. cbn [fmap option_fmap option_map]. do 2 eexists.
split; [reflexivity|]. split; [|done]. destruct Ht as [Hroom (l & Hl & Hperm)]. constructor; [done|]. cbn [asked mapped]. rewrite Hl. by exists l.
Qed.

(** A call, by whichever context holds the lock. *)
Inductive map_step (t : maps) : maps -> Prop :=
| step_map_file fds len prot flags fd off ie size e base n z t' :
    few t -> okm_map_file snap alignment have fds len prot flags fd off ie size e base n t = Some (z, t') -> map_step t t'
| step_map_unmap addr z t' : okm_map_unmap addr t = Some (z, t') -> map_step t t'
| step_map_sync addr e z t' : okm_map_sync addr e t = Some (z, t') -> map_step t t'.

Lemma map_step_ok t t' : map_step t t' -> maps_ok t -> maps_ok t'.
Proof using.
intros Hs Ht. destruct Hs as [fds len prot flags fd off ie size e base n z t' Hfew E|addr z t' E|addr e z t' E].
- destruct (map_file_ok fds len prot flags fd off ie size e base n t Ht Hfew) as (? & ? & E' & ? & _). rewrite E in E'. by injection E' as <- <-.
- destruct (map_unmap_ok addr t Ht) as (? & ? & E' & ? & _). rewrite E in E'. by injection E' as <- <-.
- destruct (map_sync_ok addr e t Ht) as (? & ? & E' & ? & _). rewrite E in E'. by injection E' as <- <-.
Qed.
End steps.

(** Whatever maps, unmaps and syncs files in whatever order, what is mapped of
    files is exactly what is recorded, each with the base and the length it was
    mapped with: no mapping is lost, none is released twice or by another
    length, and no call leaves the array. *)
Theorem map_file_accounted snap alignment have t0 t :
  maps_ok t0 -> rtc (map_step snap alignment have) t0 t ->
  maps_ok t /\
  (forall fds len prot flags fd off ie size e base n, few t ->
     is_Some (okm_map_file snap alignment have fds len prot flags fd off ie size e base n t)) /\
  (forall addr, is_Some (okm_map_unmap addr t)) /\ (forall addr e, is_Some (okm_map_sync addr e t)).
Proof.
  intros H0 Hs. assert (maps_ok t) as Ht by (induction Hs; eauto using map_step_ok). split_and!; [done|..].
  - intros. destruct (map_file_ok snap alignment have fds len prot flags fd off ie size e base n t) as (? & ? & -> & _); eauto.
  - intros addr. destruct (map_unmap_ok addr t Ht) as (? & ? & -> & _). eauto.
  - intros addr e. destruct (map_sync_ok addr e t Ht) as (? & ? & -> & _). eauto.
Qed.

(** Descriptor 0 is a file, the environment's 77. *)
Definition one_file : fd_table :=
  FdTable [Desc 1 OKM_FILE 0 0 77 0 0 0 (-1) 0 0 [] (-1) 0 0 0] [(0, 0)] [] [] [] 0 [] [] [].

Lemma maps_zero_ok : maps_ok maps_zero.
Proof. constructor; [done|]. by exists []. Qed.

(** A hundred bytes from offset 70000 of a file of 70050: the environment maps from
    65536 to the end; then msync. *)
Definition hundred : maps :=
  Maps 0x9000 [MkRegion (0x50000 + 4464) 100 0x50000 4514] 64
       [K_alloc 0x9000 2048; K_map 77 65536 4514 false false (Some 0x50000)].

Lemma map_file_accounted_witness : maps_ok (Maps (g_table hundred) (g_regions hundred) (g_room hundred) (K_sync 0x50000 4514 :: asked hundred)).
Proof.
  apply (map_file_accounted (Snapshot 0 0 0 0) 65536 true maps_zero); [apply maps_zero_ok|].
  eapply (rtc_l _ _ hundred); [|apply rtc_once].
  - eapply (step_map_file _ _ _ _ one_file 100 1 MAP_PRIVATE 0 70000 kal_ok 70050 kal_ok 0x50000 0x9000); [by vm_compute|].
    vm_compute. reflexivity.
  - eapply (step_map_sync _ _ _ _ (0x50000 + 4464) kal_ok). vm_compute. reflexivity.
Defined.

(** ** Where a mapping is *)

(** mmap of a file answers the address of the file's byte at the offset: what is
    asked of the environment starts at a multiple of its alignment, at or before
    the offset, ends within the file, and holds every byte asked for that the
    file has; and munmap of that address, where no other mapping claims it,
    releases it whole and leaves the others. *)
Theorem map_file_placed snap k fds d len prot flags fd off size base n t :
  let alignment := 2 ^ k in
  0 <= k < 63 -> maps_ok t -> few t -> (Z.of_nat (length (g_regions t)) < g_room t \/ n <> 0) ->
  has flags MAP_FIXED = false -> has prot PROT_EXEC = false -> has flags MAP_SHARED || has flags MAP_PRIVATE = true ->
  desc_at fds fd = Some d -> d_kind d = OKM_FILE ->
  0 <= off < size -> size < 2 ^ 63 -> 0 < len -> off + len < 2 ^ 64 -> 0 < base -> base + size < 2 ^ 64 -> base + alignment + len < 2 ^ 64 ->
  exists start want t', okm_map_file snap alignment true fds len prot flags fd off kal_ok size kal_ok base n t
      = Some (base + (off - start), t') /\
    start mod alignment = 0 /\ start <= off /\ start + want <= size /\ start + want = off + Z.min len (size - off) /\
    K_map (d_file d) start want (has prot PROT_WRITE) (has flags MAP_SHARED) (Some base) ∈ asked t' /\
    (Forall (fun r => in_user (base + (off - start)) r = false) (g_regions t) ->
     exists t'', okm_map_unmap (base + (off - start)) t' = Some (Some 0, t'') /\
       asked t'' = K_release base want :: asked t' /\ g_regions t'' ≡ₚ g_regions t).
Proof.
  intros alignment Hk Ht Hfew Hn Hfix Hexec Hsh Hd Hkind Hoff Hsize Hlen Hol Hb Hbs Hbl.
  assert (Z.land off (Z.lnot (alignment - 1)) = off - off mod alignment) as Estart by (apply land_high; lia).
  assert (0 < alignment) as Hal by (apply Z.pow_pos_nonneg; lia).
  pose proof (Z.mod_pos_bound off alignment Hal) as Hmod. pose proof (Z.mod_le off alignment ltac:(lia) Hal) as Hle.
  unfold okm_map_file. rewrite Hfix, Hexec, Hd, Hkind, Estart. cbn [negb]. rewrite !bool_decide_true by done. cbn [negb].
  replace ((len =? 0) || (off <? 0)) with false by lia. replace (size <=? off) with false by lia.
  replace (negb (has flags MAP_SHARED) && negb (has flags MAP_PRIVATE)) with false by (by destruct (has flags MAP_SHARED), (has flags MAP_PRIVATE)).
  set (start := off - off mod alignment). set (want0 := wrap64 (off - start + len)).
  set (want := if size <? wrap64 (start + want0) then wrap64 (size - start) else want0).
  assert (want0 = off - start + len) as E0 by (unfold want0, start; apply wrap64_small; lia).
  assert (start + want = off + Z.min len (size - off)) as Ew.
  { unfold want. rewrite E0, !wrap64_small by (unfold start; lia). split_if; unfold start in *; lia. }
  assert (wrap64 (base + (off - start)) = base + (off - start)) as Eu by (apply wrap64_small; unfold start; lia).
  map_monad. set (t1 := Maps _ _ _ _). destruct Ht as [Hroom _].
  destruct (map_record_ok snap n (MkRegion (wrap64 (base + (off - start))) len base want) t1 Hroom Hfew) as
    (re & t' & E & Hm & [cs Hsuf] & Hroom' & [(-> & -> & Hfull & _) | [-> Er]]); [cbn in Hfull; lia|].
  rewrite E. change (negb (0 =? 0)) with false. cbv beta iota. cbn [m_user]. rewrite Eu in *. exists start, want, t'. split_and!; auto.
  - unfold start. replace (off - off mod alignment) with (off / alignment * alignment); [apply Z.mod_mul; lia|].
    pose proof (Z.div_mod off alignment). lia.
  - unfold start. lia.
  - lia.
  - rewrite Hsuf. apply elem_of_app. right. left.
  - intros Hno. assert (MapFile.find t' (base + (off - start)) = Z.of_nat (length (g_regions t))) as Ef.
    { unfold MapFile.find. rewrite Er. cbn [g_regions t1]. rewrite (scan_from_app_none _ _ _ _ Hno). cbn [scan_from].
      unfold in_user. cbn [m_user m_user_len]. rewrite wrap64_small by (unfold start; lia). split_if; lia. }
    assert (at_ (g_regions t') (Z.of_nat (length (g_regions t))) = Some (MkRegion (base + (off - start)) len base want)) as Hat.
    { rewrite Er. unfold at_. split_if; [|lia]. cbn [g_regions t1]. by rewrite Nat2Z.id, lookup_app_r, Nat.sub_diag by lia. }
    destruct (drop_region_ok t' _ _ Hat) as (t2 & E2 & Hp & Ha & _).
    unfold okm_map_unmap. map_monad. change (id t') with t'. rewrite Ef. split_if; [lia|]. rewrite Hat. cbn [fmap option_fmap option_map m_user].
    rewrite Z.eqb_refl. cbn [negb]. rewrite E2. cbn [fmap option_fmap option_map]. eexists. split; [reflexivity|]. cbn [asked g_regions m_base m_base_len].
    split; [by rewrite Ha|]. rewrite Er in Hp. cbn [g_regions t1] in Hp. rewrite Permutation_app_comm in Hp. cbn in Hp. by apply Permutation_cons_inv in Hp.
Qed.

Lemma map_file_placed_witness :
  exists start want t', okm_map_file (Snapshot 0 0 0 0) (2 ^ 16) true one_file 100 1 MAP_PRIVATE 0 70000 kal_ok 70050 kal_ok 0x50000 0x9000 maps_zero
      = Some (0x50000 + (70000 - start), t') /\
    start mod 2 ^ 16 = 0 /\ start <= 70000 /\ start + want <= 70050 /\ start + want = 70000 + Z.min 100 (70050 - 70000) /\
    K_map 77 start want false false (Some 0x50000) ∈ asked t' /\
    (Forall (fun r => in_user (0x50000 + (70000 - start)) r = false) (g_regions maps_zero) ->
     exists t'', okm_map_unmap (0x50000 + (70000 - start)) t' = Some (Some 0, t'') /\
       asked t'' = K_release 0x50000 want :: asked t' /\ g_regions t'' ≡ₚ g_regions maps_zero).
Proof.
  apply (map_file_placed (Snapshot 0 0 0 0) 16 one_file (Desc 1 OKM_FILE 0 0 77 0 0 0 (-1) 0 0 [] (-1) 0 0 0) 100 1 MAP_PRIVATE 0 70000 70050 0x50000 0x9000 maps_zero);
    try lia; try done. apply maps_zero_ok.
Defined.
