(* ===== verification/Context.v ===== *)
(** Where the state of an execution context is kept (port/src/okm_context.c): a
    table open to addressing by the identity openkal gives a context, without a
    lock. *)
From S2P Require Import Prelude Kal.
From stdpp Require Import base list option.
From Stdlib Require Import ZArith Lia.

#[local] Open Scope Z_scope.

(** ** Data *)

Definition OKM_CONTEXTS : Z := 512.
Definition OKM_RETIRED : Z := 2 ^ 64 - 1.
Definition OKM_ZERO : Z := 2 ^ 64 - 2.

Record okm_slot := Slot { s_key : Z; s_tp : Z; s_self : Z }.

Definition slot_zero : okm_slot := Slot 0 0 0.

(** g_slots and g_recorded. *)
Record contexts := Contexts { g_slots : list okm_slot; g_recorded : bool }.

Definition contexts_zero : contexts := Contexts (replicate (Z.to_nat OKM_CONTEXTS) slot_zero) false.

Definition slot_at (l : list okm_slot) (i : Z) : okm_slot := default slot_zero (at_ l i).
Definition key_at (l : list okm_slot) (i : Z) : Z := s_key (slot_at l i).
Definition set_slot (l : list okm_slot) (i : Z) (s : okm_slot) : list okm_slot := <[Z.to_nat i := s]> l.

Definition key_of (identity : Z) : Z := if identity =? 0 then OKM_ZERO else identity.

Definition start_at (key : Z) : Z :=
  let h := wrap64 (key * 0x9E3779B97F4A7C15) in
  Z.land (Z.shiftr h 32) (OKM_CONTEXTS - 1).

(** ** The search, one access of a shared word at a time *)

(** [F_probe n i free]: the loop is at its [n]th turn, at slot [i]. [F_load]: it has
    ended, with a slot that was free. [F_cas]: what that slot held was free when
    it was loaded. *)
Inductive find_state :=
| F_probe (n i : Z) (free : option Z)
| F_load (free : Z)
| F_cas (free expected : Z)
| F_done (r : option Z).

Definition find_start (me : Z) : find_state := F_probe 0 (start_at me) None.

Definition find_step (me : Z) (create : bool) (l : list okm_slot) (st : find_state) : list okm_slot * find_state :=
  match st with
  | F_probe n i free =>
      if n <? OKM_CONTEXTS then
        let k := key_at l i in
        if k =? me then (l, F_done (Some i))
        else if k =? 0 then (l, if negb create then F_done None else F_load (default i free))
        else (l, F_probe (n + 1) (Z.land (i + 1) (OKM_CONTEXTS - 1))
                   (if (k =? OKM_RETIRED) && bool_decide (free = None) then Some i else free))
      else (l, if negb create then F_done None else match free with None => F_done None | Some f => F_load f end)
  | F_load f =>
      let expected := key_at l f in
      (l, if expected =? me then F_done (Some f)
          else if negb (expected =? 0) && negb (expected =? OKM_RETIRED) then F_done None
          else F_cas f expected)
  | F_cas f expected =>
      if key_at l f =? expected
      then (set_slot l f (Slot me (s_tp (slot_at l f)) (s_self (slot_at l f))), F_done (Some f))
      else (l, F_done None)
  | F_done r => (l, st)
  end.

(** The search with no other context between its accesses. Of its steps 513 are
    turns of the loop and two follow it. *)
Fixpoint find_run (fuel : nat) (me : Z) (create : bool) (l : list okm_slot) (st : find_state) : option (option Z * list okm_slot) :=
  match st with
  | F_done r => Some (r, l)
  | _ =>
      match fuel with
      | O => None
      | S f => let '(l', st') := find_step me create l st in find_run f me create l' st'
      end
  end.

Definition find (me : Z) (create : bool) : M contexts (option Z) := fun c =>
  r ← find_run 515 me create (g_slots c) (find_start me);
  Some (r.1, Contexts r.2 (g_recorded c)).

(** ** Operations *)

(** What a call answers, or that it ended the program. *)
Inductive answer (A : Type) := Answer (a : A) | Aborted.
Arguments Answer {A} a.
Arguments Aborted {A}.

Definition write_slot (i : Z) (f : okm_slot -> okm_slot) : M contexts () :=
  modify (fun c => Contexts (set_slot (g_slots c) i (f (slot_at (g_slots c) i))) (g_recorded c)).

Section operations.
(** OKM_CONTEXT_ID of the context that calls. *)
Context (id : Z).

Definition okm_get_tp : M contexts (answer Z) :=
  s ← find (key_of id) false;
  match s with
  | Some i => c ← gets g_slots; mret (Answer (s_tp (slot_at c i)))
  | None => recorded ← gets g_recorded; mret (if recorded : bool then Aborted else Answer 0)
  end.

Definition okm_set_tp (value : Z) : M contexts (answer ()) :=
  s ← find (key_of id) true;
  match s with
  | None => mret Aborted
  | Some i =>
      write_slot i (fun s => Slot (s_key s) value (s_self s));;
      modify (fun c => Contexts (g_slots c) true);;
      mret (Answer ())
  end.

Definition okm_get_self : M contexts Z :=
  s ← find (key_of id) false;
  match s with
  | Some i => c ← gets g_slots; mret (s_self (slot_at c i))
  | None => mret 0
  end.

Definition okm_set_self (value : Z) : M contexts () :=
  s ← find (key_of id) true;
  match s with
  | Some i => write_slot i (fun s => Slot (s_key s) (s_tp s) value)
  | None => mret ()
  end.

Definition retire (i : Z) : M contexts () := write_slot i (fun _ => Slot OKM_RETIRED 0 0).

Definition okm_release_context : M contexts () :=
  s ← find (key_of id) false;
  match s with
  | None => mret ()
  | Some i => retire i
  end.

Definition okm_rebind_context (from : Z) : M contexts (answer ()) :=
  s ← find (key_of from) false;
  match s with
  | None => mret (Answer ())
  | Some i =>
      was ← gets (fun c => slot_at (g_slots c) i);
      retire i;;
      now ← find (key_of id) true;
      match now with
      | None => mret Aborted
      | Some j =>
          write_slot j (fun s => Slot (s_key s) (s_tp was) (s_self was));;
          modify (fun c => Contexts (g_slots c) true);;
          mret (Answer ())
      end
  end.
End operations.
