(* ===== verification/ContextOk.v ===== *)
(** The search of the table of contexts, by itself and between the accesses of
    other contexts. *)
From S2P Require Import Prelude Kal Context.
From stdpp Require Import base list option.
From Stdlib Require Import ZArith Lia.

#[local] Open Scope Z_scope.

(** ** Slots *)

Definition index (i : Z) : Prop := 0 <= i < OKM_CONTEXTS.
Definition live (k : Z) : Prop := k <> 0 /\ k <> OKM_RETIRED.

#[export] Instance live_dec k : Decision (live k).
Proof. unfold live. apply _. Defined.

Definition sized (l : list okm_slot) : Prop := Z.of_nat (length l) = OKM_CONTEXTS.

Lemma slot_at_some l i : sized l -> index i -> at_ l i = Some (slot_at l i).
Proof. intros Hl Hi. unfold slot_at. destruct (at_some l i) as [x ->]; [unfold sized, index in *; lia|done]. Qed.

Lemma slot_at_set l i j s : sized l -> index i -> slot_at (set_slot l i s) j = if j =? i then s else slot_at l j.
Proof.
  intros Hl Hi. unfold slot_at, set_slot. rewrite at_insert by (unfold sized, index in *; lia). by split_if.
Qed.

Lemma sized_set l i s : sized l -> sized (set_slot l i s).
Proof. unfold sized, set_slot. by rewrite length_insert. Qed.

(** ** The order in which a key's slots are looked at *)

Definition path (k m : Z) : Z := (start_at k + m) mod OKM_CONTEXTS.

Lemma land_contexts i : Z.land i (OKM_CONTEXTS - 1) = i mod OKM_CONTEXTS.
Proof. apply (land_low i 9). lia. Qed.

Lemma path_index k m : index (path k m).
Proof. apply Z.mod_pos_bound. done. Qed.

Lemma path_start k : path k 0 = start_at k.
Proof. unfold path, start_at. rewrite Z.add_0_r, land_contexts. by apply Z.mod_mod. Qed.

Lemma path_next k m : Z.land (path k m + 1) (OKM_CONTEXTS - 1) = path k (m + 1).
Proof. rewrite land_contexts. unfold path. rewrite Z.add_mod_idemp_l by done. f_equal. lia. Qed.

Lemma path_all k i : index i -> exists m, index m /\ path k m = i.
Proof.
  intros Hi. exists ((i - start_at k) mod OKM_CONTEXTS). split; [by apply Z.mod_pos_bound|].
  unfold path. rewrite Z.add_mod_idemp_r by done. replace (start_at k + (i - start_at k)) with i by lia. by apply Z.mod_small.
Qed.

(** ** The invariant *)

Record slots_ok (l : list okm_slot) : Prop := {
  so_sized : sized l;
  so_placed : forall k m q, live k -> index m -> key_at l (path k m) = k -> 0 <= q < m -> key_at l (path k q) <> 0;
  so_unique : forall i j, index i -> index j -> live (key_at l i) -> key_at l i = key_at l j -> i = j;
  so_clear : forall i, index i -> ~ live (key_at l i) -> s_tp (slot_at l i) = 0 /\ s_self (slot_at l i) = 0;
}.

Definition absent (me : Z) (l : list okm_slot) : Prop := forall i, index i -> key_at l i <> me.

(** What one context's access may do to the table as another, [k], sees it. *)
Record spares (k : Z) (l l' : list okm_slot) : Prop := {
  sp_own : forall i, index i -> key_at l i = k -> slot_at l' i = slot_at l i;
  sp_other : forall i, index i -> key_at l i <> k -> key_at l' i <> k;
  sp_nonzero : forall i, index i -> key_at l i <> 0 -> key_at l' i <> 0;
}.

Lemma spares_refl k l : spares k l l.
Proof. done. Qed.

Lemma spares_trans k l1 l2 l3 : spares k l1 l2 -> spares k l2 l3 -> spares k l1 l3.
Proof.
  intros [H1 H2 H3] [G1 G2 G3]. constructor; auto. intros i Hi Hk. rewrite G1; auto. unfold key_at in *. by rewrite H1.
Qed.

(** A key that is missed at a free slot of its path, or on all of it, is absent. *)
Lemma absent_zero me l n : slots_ok l -> live me -> index n ->
  (forall m, 0 <= m < n -> key_at l (path me m) <> me) -> key_at l (path me n) = 0 -> absent me l.
Proof.
  intros Hl Hlive Hn Hbefore Hz i Hi Hk. destruct (path_all me i Hi) as (m & Hm & <-).
  destruct (decide (m < n)); [by apply (Hbefore m); [unfold index in *; lia|]|].
  destruct (decide (m = n)) as [-> |]; [destruct Hlive; congruence|].
  apply (so_placed _ Hl me m n Hlive Hm Hk); [unfold index in *; lia|done].
Qed.

Lemma absent_all me l : (forall m, 0 <= m < OKM_CONTEXTS -> key_at l (path me m) <> me) -> absent me l.
Proof. intros H i Hi Hk. destruct (path_all me i Hi) as (m & Hm & <-). by apply (H m). Qed.

(** A free slot is given to an absent key whose path to it has no free slot. *)
Lemma slots_ok_claim me l q s : slots_ok l -> live me -> absent me l -> index q ->
  (forall m, 0 <= m < q -> key_at l (path me m) <> 0) -> ~ live (key_at l (path me q)) -> s_key s = me ->
  slots_ok (set_slot l (path me q) s).
Proof.
  intros [Hsz Hpl Hun Hcl] Hlive Habs Hq Hbefore Hfree Hs. set (f := path me q).
  assert (index f) as Hf by apply path_index.
  assert (forall i, key_at (set_slot l f s) i = if i =? f then me else key_at l i) as Hk.
  { intros i. unfold key_at. rewrite slot_at_set by done. by split_if. }
  constructor.
  - by apply sized_set.
  - intros k m p Hlk Hm Hkm Hp. rewrite Hk in Hkm |- *. split_if; [destruct Hlive; congruence|].
    destruct (path k m =? f) eqn:E; boolean; [|by apply (Hpl k m p)]. subst k. intros Hz. unfold f in E.
    destruct (decide (p < q)); [by apply (Hbefore p); [lia|]|].
    destruct (decide (q < m)) as [Hqm|].
    { assert (path me m <> path me q); [|done]. clear -Hqm Hm Hq. unfold path, index, OKM_CONTEXTS in *. Z.to_euclidean_division_equations; lia. }
    lia.
  - intros i j Hi Hj. rewrite !Hk. split_ifs; subst; auto; intros _ Hkey.
    + exfalso. by apply (Habs j).
    + exfalso. by apply (Habs i).
  - intros i Hi. unfold key_at. rewrite !slot_at_set by done. split_if; [|by apply Hcl]. rewrite Hs. done.
Qed.

Lemma spares_claim k me l f s : sized l -> index f -> k <> me -> live k -> live me -> ~ live (key_at l f) -> s_key s = me ->
  spares k l (set_slot l f s).
Proof.
  intros Hsz Hf Hne Hk Hme Hfree Hs.
  constructor; intros i Hi; unfold key_at in *; rewrite slot_at_set by done; split_if; auto; subst.
  - intros E. exfalso. apply Hfree. by rewrite E.
  - congruence.
  - intros _. by destruct Hme.
Qed.

(** ** The search, between the accesses of others *)

Section search.
Context (me : Z) (Hme : live me) (create : bool).

(** What the search knows of the table, whatever others do. *)
Definition search_ok (l : list okm_slot) (st : find_state) : Prop :=
  match st with
  | F_probe n i free =>
      0 <= n <= OKM_CONTEXTS /\ i = path me n /\
      (forall m, 0 <= m < n -> key_at l (path me m) <> 0 /\ key_at l (path me m) <> me) /\
      (forall f, free = Some f -> exists q, 0 <= q < n /\ f = path me q)
  | F_load f => create = true /\ absent me l /\ exists q, index q /\ f = path me q /\ forall m, 0 <= m < q -> key_at l (path me m) <> 0
  | F_cas f e => create = true /\ ~ live e /\ absent me l /\ exists q, index q /\ f = path me q /\ forall m, 0 <= m < q -> key_at l (path me m) <> 0
  | F_done (Some f) => index f /\ key_at l f = me
  | F_done None => absent me l
  end.

Lemma absent_spares l l' : spares me l l' -> absent me l -> absent me l'.
Proof using. intros [_ H _] Ha i Hi. auto. Qed.

Lemma search_spares l l' st : spares me l l' -> search_ok l st -> search_ok l' st.
Proof using.
intros Hs. pose proof Hs as [H1 H2 H3]. destruct st as [n i free|f|f e|[f|]]; cbn [search_ok].
- intros (Hn & Hi & Hb & Hf). split; [done|]. split; [done|]. split; [|done]. intros m Hm. destruct (Hb m Hm). split; [apply H3|apply H2]; auto using path_index.
- intros (Hc & Ha & q & Hq & Hf & Hb). split_and!; eauto using absent_spares. exists q. split_and!; auto. intros. apply H3; auto using path_index.
- intros (Hc & He & Ha & q & Hq & Hf & Hb). split_and!; eauto using absent_spares. exists q. split_and!; auto. intros. apply H3; auto using path_index.
- intros [Hf Hk]. split; [done|]. unfold key_at in *. by rewrite H1.
- by apply absent_spares.
Qed.

(** A step that only reads. *)
Ltac only_reads := split; [done|]; split; [cbn [search_ok]|split; [intros; apply spares_refl|done]].

Lemma search_step l st : slots_ok l -> search_ok l st ->
  slots_ok (find_step me create l st).1 /\ search_ok (find_step me create l st).1 (find_step me create l st).2 /\
  (forall k, k <> me -> live k -> spares k l (find_step me create l st).1) /\
  (create = false -> (find_step me create l st).1 = l).
Proof using Hme.
intros Hl. destruct st as [n i free|f|f e|r]; cbn [search_ok find_step].
- intros (Hn & -> & Hb & Hf). destruct (n <? OKM_CONTEXTS) eqn:En; boolean.
  + destruct (key_at l (path me n) =? me) eqn:Ek; boolean; cbn [fst snd]; [only_reads; by split; [apply path_index|]|].
    destruct (key_at l (path me n) =? 0) eqn:Ez; boolean; cbn [fst snd]; only_reads.
    * assert (absent me l) as Ha by (apply (absent_zero me l n); auto; [split; lia|intros m Hm; by apply Hb]).
      destruct create eqn:Ec; cbn [negb search_ok]; [|done]. split; [done|]. split; [done|]. destruct free as [f|]; cbn [default].
      -- destruct (Hf f eq_refl) as (q & Hq & ->). exists q. split; [unfold index; lia|]. split; [done|]. intros m Hm. apply Hb. lia.
      -- exists n. split; [unfold index; lia|]. split; [done|]. intros m Hm. by apply Hb.
    * split; [lia|]. split; [by rewrite path_next|]. split.
      -- intros m Hm. destruct (decide (m = n)) as [-> |]; [done|]. apply Hb. lia.
      -- intros f. split_if; [intros [= <-]; exists n; split; [lia|done]|]. intros E. destruct (Hf f E) as (q & ? & ?). exists q. split; [lia|done].
  + cbn [fst snd]. assert (n = OKM_CONTEXTS) as -> by lia.
    assert (absent me l) as Ha by (apply absent_all; intros m Hm; by apply Hb).
    only_reads. destruct create eqn:Ec; cbn [negb]; [|done]. destruct free as [f|]; [|done]. cbn [search_ok].
    destruct (Hf f eq_refl) as (q & Hq & ->). split; [done|]. split; [done|]. exists q. split; [done|]. split; [done|]. intros m Hm. apply Hb. lia.
- intros (Hc & Ha & q & Hq & -> & Hb). cbn [fst snd]. only_reads. destruct (key_at l (path me q) =? me) eqn:Ek; boolean.
  { split; [apply path_index|done]. }
  split_if; [done|]. cbn [search_ok]. split; [done|]. split; [unfold live; lia|]. split; [done|]. by exists q.
- intros (Hc & He & Ha & q & Hq & -> & Hb). destruct (key_at l (path me q) =? e) eqn:Ek; boolean; cbn [fst snd]; [|by only_reads].
  assert (~ live (key_at l (path me q))) as Hfree by (by rewrite Ek).
  split; [by apply slots_ok_claim|]. split.
  + split; [apply path_index|]. unfold key_at. rewrite slot_at_set by (apply path_index || apply Hl). by rewrite Z.eqb_refl.
  + split; [|congruence]. intros k Hk Hlk. apply (spares_claim k me); auto using path_index. apply Hl.
- intros H. cbn [fst snd]. by only_reads.
Qed.

(** ** The search by itself *)

Definition turns (st : find_state) : Z :=
  match st with
  | F_probe n _ _ => OKM_CONTEXTS - n + 3
  | F_load _ => 2
  | F_cas _ _ => 1
  | F_done _ => 0
  end.

(** What it knows besides when no other context runs. *)
Definition alone_ok (l : list okm_slot) (st : find_state) : Prop :=
  match st with
  | F_probe n _ (Some f) => key_at l f = OKM_RETIRED
  | F_probe n _ None => forall m, 0 <= m < n -> key_at l (path me m) <> OKM_RETIRED
  | F_load f => ~ live (key_at l f)
  | F_cas f e => key_at l f = e
  | F_done None => create = true -> forall i, index i -> live (key_at l i)
  | F_done (Some _) => True
  end.

(** The three ends of a search: found; not found, and to be made only if the table is
    full; made. *)
Definition found (l l' : list okm_slot) (r : option Z) : Prop :=
  match r with
  | Some i => index i /\
      ((l' = l /\ key_at l i = me) \/
       (create = true /\ absent me l /\ ~ live (key_at l i) /\ l' = set_slot l i (Slot me 0 0)))
  | None => l' = l /\ absent me l /\ (create = true -> forall i, index i -> live (key_at l i))
  end.

Lemma alone_step l st : slots_ok l -> search_ok l st -> alone_ok l st -> 0 < turns st ->
  let '(l', st') := find_step me create l st in
  turns st' < turns st /\ (l' = l /\ alone_ok l st' \/ exists i, st' = F_done (Some i) /\ found l l' (Some i)).
Proof using Hme.
intros Hl. destruct st as [n i free|f|f e|r]; cbn [search_ok find_step turns]; [..|lia].
- intros (Hn & -> & Hb & Hf) Hal _. destruct (n <? OKM_CONTEXTS) eqn:En; boolean.
  + destruct (key_at l (path me n) =? me) eqn:Ek; boolean; [split; [cbn; lia|by left]|].
    destruct (key_at l (path me n) =? 0) eqn:Ez; boolean.
    * destruct create eqn:Ec; cbn [negb]; (split; [cbn; lia|]); left; (split; [done|]); cbn [alone_ok]; [|congruence].
      destruct free as [f|]; cbn [from_option id alone_ok] in *; unfold live; [rewrite Hal|rewrite Ez]; tauto.
    * split; [cbn; lia|]. left. split; [done|]. destruct free as [f|]; cbn [alone_ok] in *.
      -- rewrite bool_decide_false by done. by rewrite andb_false_r.
      -- rewrite bool_decide_true, andb_true_r by done. split_if; [done|]. intros m Hm.
         destruct (decide (m = n)) as [-> |]; [done|]. apply Hal. lia.
  + assert (n = OKM_CONTEXTS) as -> by lia.
    destruct create eqn:Ec; cbn [negb]; [|split; [cbn; lia|]; left; split; [done|]; cbn [alone_ok]; congruence].
    destruct free as [f|]; (split; [cbn; lia|]); left; (split; [done|]); cbn [alone_ok] in *.
    * rewrite Hal. unfold live. tauto.
    * intros _ i Hi. destruct (path_all me i Hi) as (m & Hm & <-). split; [by apply Hb|by apply Hal].
- intros (Hc & Ha & q & Hq & -> & Hb) Hal _. cbn [alone_ok] in Hal. destruct (key_at l (path me q) =? me) eqn:Ek; boolean.
  { exfalso. by apply (Ha (path me q)); [apply path_index|]. }
  split_if; [exfalso; apply Hal; unfold live; lia|]. split; [cbn; lia|]. by left.
- intros (Hc & He & Ha & q & Hq & -> & Hb) Hal _. cbn [alone_ok] in Hal. rewrite Hal, Z.eqb_refl. split; [cbn; lia|].
  right. eexists. split; [done|]. split; [apply path_index|]. right. split_and!; auto; [by rewrite Hal|].
  destruct (so_clear _ Hl (path me q) (path_index _ _)) as [-> ->]; [by rewrite Hal|done].
Qed.

Lemma find_run_ok fuel l st : slots_ok l -> search_ok l st -> alone_ok l st -> turns st <= Z.of_nat fuel ->
  exists r l', find_run fuel me create l st = Some (r, l') /\ slots_ok l' /\ found l l' r /\
    (forall k, k <> me -> live k -> spares k l l').
Proof using Hme.
revert l st. induction fuel as [|f IH]; intros l st Hl Hs Ha Ht.
- destruct st as [n i free|g|g e|r]; cbn [turns search_ok] in *; try lia. cbn [find_run]. exists r, l. split_and!; auto using spares_refl.
  destruct r as [i|]; cbn in Hs |- *; [destruct Hs; split_and!; auto|auto].
- destruct (decide (turns st = 0)) as [E0|E0].
  { destruct st as [n i free|g|g e|r]; cbn [turns search_ok] in *; try lia. cbn [find_run]. exists r, l. split_and!; auto using spares_refl.
    destruct r as [i|]; cbn in Hs |- *; [destruct Hs; split_and!; auto|auto]. }
  assert (0 < turns st) as H0 by (destruct st; cbn [turns search_ok] in *; lia).
  assert (find_run (S f) me create l st = let '(l', st') := find_step me create l st in find_run f me create l' st') as ->
    by (destruct st; [done..|cbn in H0; lia]).
  destruct (search_step l st Hl Hs) as (Hl' & Hs' & Hsp & _). pose proof (alone_step l st Hl Hs Ha H0) as Hstep.
  destruct (find_step me create l st) as [l' st']. cbn [fst snd] in *. destruct Hstep as [Hturn [[-> Ha'] | (i & -> & Hfound)]].
  + apply IH; auto. lia.
  + exists (Some i), l'. split_and!; auto. by destruct f.
Qed.

Lemma ctx_find_ok c : slots_ok (g_slots c) ->
  exists r l', Context.find me create c = Some (r, Contexts l' (g_recorded c)) /\ slots_ok l' /\ found (g_slots c) l' r /\
    (forall k, k <> me -> live k -> spares k (g_slots c) l').
Proof using Hme.
intros Hc. destruct (find_run_ok 515 (g_slots c) (find_start me) Hc) as (r & l' & E & H).
- cbn [search_ok find_start]. split_and!; [done|done|by rewrite path_start|intros; lia|done].
- cbn. intros; lia.
- done.
- exists r, l'. split; [|done]. unfold Context.find. by rewrite E.
Qed.
End search.
