(* ===== verification/ContextTheorems.v ===== *)
(** The table of contexts is a map from a context's key to its state, and stays one
    whichever contexts search, record and retire at once. *)
From S2P Require Import Prelude Kal Context ContextOk.
From stdpp Require Import base list option gmap relations.
From Stdlib Require Import ZArith Lia.

#[local] Open Scope Z_scope.

(** ** The map *)

Definition contents (l : list okm_slot) : gmap Z (Z * Z) :=
  list_to_map ((fun s => (s_key s, (s_tp s, s_self s))) <$> filter (fun s => live (s_key s)) l).

Lemma elem_slot l s : sized l -> s ∈ l <-> exists i, index i /\ slot_at l i = s.
Proof.
  intros Hl. split.
  - intros (j & Hj)%list_elem_of_lookup. pose proof (lookup_lt_Some _ _ _ Hj). exists (Z.of_nat j).
    assert (index (Z.of_nat j)) as Hi by (unfold sized, index in *; lia). split; [done|].
    pose proof (slot_at_some l _ Hl Hi) as E. apply at_lookup in E. rewrite Nat2Z.id, Hj in E. by injection E.
  - intros (i & Hi & <-). pose proof (slot_at_some l i Hl Hi) as E. apply at_lookup in E. by eapply list_elem_of_lookup_2.
Qed.

Lemma contents_lookup l k v : slots_ok l ->
  contents l !! k = Some v <-> live k /\ exists i, index i /\ slot_at l i = Slot k v.1 v.2.
Proof.
  intros Hl. assert (forall k v, (k, v) ∈ (fun s => (s_key s, (s_tp s, s_self s))) <$> filter (fun s => live (s_key s)) l <->
    live k /\ exists i, index i /\ slot_at l i = Slot k v.1 v.2) as Hin.
  { intros k' [tp self]. rewrite list_elem_of_fmap. setoid_rewrite list_elem_of_filter. setoid_rewrite (elem_slot l) at 1; [|apply Hl]. split.
    - intros ([k2 tp2 self2] & [= -> -> ->] & Hlive & Hi). auto.
    - intros (Hlive & Hi). exists (Slot k' tp self). auto. }
  unfold contents. split.
  - intros H%elem_of_list_to_map_2. by apply Hin.
  - intros H. apply elem_of_list_to_map_1'; [|by apply Hin]. intros y Hy%Hin. destruct H as (Hlive & i & Hi & Ei), Hy as (_ & j & Hj & Ej).
    assert (i = j) as ->. { apply (so_unique _ Hl); auto; unfold key_at; rewrite ?Ei, ?Ej; done. }
    rewrite Ei in Ej. injection Ej as H1 H2. destruct v, y. cbn in *. congruence.
Qed.

Lemma contents_none l k : slots_ok l -> live k -> contents l !! k = None <-> absent k l.
Proof.
  intros Hl Hk. split.
  - intros Hn i Hi E. assert (contents l !! k = Some (s_tp (slot_at l i), s_self (slot_at l i))) as H; [|congruence].
    apply contents_lookup; [done|]. split; [done|]. exists i. split; [done|]. unfold key_at in E. rewrite <-E. by destruct (slot_at l i).
  - intros Ha. destruct (contents l !! k) as [v|] eqn:E; [|done]. apply contents_lookup in E as (_ & i & Hi & E); [|done].
    destruct (Ha i Hi). unfold key_at. by rewrite E.
Qed.

(** A slot of [k], or a free one where [k] is absent, is made [k]'s with a value. *)
Lemma contents_set l i k v : slots_ok l -> slots_ok (set_slot l i (Slot k v.1 v.2)) -> index i -> live k ->
  key_at l i = k \/ (absent k l /\ ~ live (key_at l i)) ->
  contents (set_slot l i (Slot k v.1 v.2)) = <[k := v]> (contents l).
Proof.
  intros Hl Hl' Hi Hk Hcase. apply map_eq. intros k'. apply option_eq. intros w. rewrite contents_lookup by done.
  rewrite lookup_insert_Some, contents_lookup by done. split.
  - intros (Hk' & j & Hj & E). rewrite slot_at_set in E by (done || apply Hl). destruct (j =? i) eqn:Eji; boolean.
    + injection E as -> E1 E2. left. split; [done|]. destruct v, w. cbn in *. congruence.
    + right. split; [|eauto]. intros ->. destruct Hcase as [Hkey|[Ha _]].
      * apply Eji. apply (so_unique _ Hl); auto; unfold key_at in *; rewrite E; [done|]. by cbn.
      * apply (Ha j Hj). unfold key_at. by rewrite E.
  - intros [[<- <-] | (Hne & Hk' & j & Hj & E)].
    + split; [done|]. exists i. split; [done|]. rewrite slot_at_set, Z.eqb_refl by (done || apply Hl). done.
    + split; [done|]. exists j. split; [done|]. rewrite slot_at_set by (done || apply Hl). split_if; [|done]. subst j.
      unfold key_at in Hcase. rewrite E in Hcase. cbn in Hcase. destruct Hcase as [|[_ []]]; done.
Qed.

Lemma contents_retire l i : slots_ok l -> slots_ok (set_slot l i (Slot OKM_RETIRED 0 0)) -> index i -> live (key_at l i) ->
  contents (set_slot l i (Slot OKM_RETIRED 0 0)) = delete (key_at l i) (contents l).
Proof.
  intros Hl Hl' Hi Hk. apply map_eq. intros k'. apply option_eq. intros w. rewrite contents_lookup by done.
  rewrite lookup_delete_Some, contents_lookup by done. split.
  - intros (Hk' & j & Hj & E). rewrite slot_at_set in E by (done || apply Hl). destruct (j =? i) eqn:Eji; boolean.
    + injection E as <- _ _. by destruct Hk'.
    + split; [|eauto]. intros <-. apply Eji. assert (key_at l j = key_at l i) as Ek by (unfold key_at at 1; by rewrite E). apply (so_unique _ Hl); auto. by rewrite Ek.
  - intros (Hne & Hk' & j & Hj & E). split; [done|]. exists j. split; [done|]. rewrite slot_at_set by (done || apply Hl).
    split_if; [|done]. subst j. unfold key_at in Hne. by rewrite E in Hne.
Qed.

(** ** Changes to one's own slot *)

Lemma slots_ok_write l i tp self : slots_ok l -> index i -> live (key_at l i) -> slots_ok (set_slot l i (Slot (key_at l i) tp self)).
Proof.
  intros [Hsz Hpl Hun Hcl] Hi Hk.
  assert (forall j, key_at (set_slot l i (Slot (key_at l i) tp self)) j = key_at l j) as E.
  { intros j. unfold key_at. rewrite slot_at_set by done. split_if; [by subst|done]. }
  constructor; [by apply sized_set|..].
  - intros k m q. rewrite !E. apply Hpl.
  - intros j1 j2. rewrite !E. apply Hun.
  - intros j Hj. rewrite E. rewrite slot_at_set by done. split_if; [by subst|by apply Hcl].
Qed.

Lemma slots_ok_retire l i : slots_ok l -> index i -> slots_ok (set_slot l i (Slot OKM_RETIRED 0 0)).
Proof.
  intros [Hsz Hpl Hun Hcl] Hi.
  assert (forall j, key_at (set_slot l i (Slot OKM_RETIRED 0 0)) j = if j =? i then OKM_RETIRED else key_at l j) as E.
  { intros j. unfold key_at. rewrite slot_at_set by done. by split_if. }
  constructor; [by apply sized_set|..].
  - intros k m q Hk Hm. rewrite !E. split_ifs; eauto. intros <-. destruct Hk as [_ Hk]. by destruct (Hk eq_refl).
  - intros j1 j2 H1 H2. rewrite !E. split_ifs; subst; auto; [by intros []|]. intros Hl1 E1. rewrite E1 in Hl1. by destruct Hl1.
  - intros j Hj. rewrite E. rewrite slot_at_set by done. split_if; [done|]. by apply Hcl.
Qed.

(** Writing one's own slot spares every other context. *)
Lemma spares_own k l i s : sized l -> index i -> key_at l i <> k -> s_key s <> k -> s_key s <> 0 -> spares k l (set_slot l i s).
Proof.
  intros Hsz Hi Hk Hs Hz. constructor; intros j Hj; unfold key_at in *; rewrite slot_at_set by done; split_if; auto; subst; done.
Qed.

(** ** The operations *)

(** No slot is free. *)
Definition full (c : contexts) : Prop := forall i, index i -> live (key_at (g_slots c) i).

Ltac context_monad := unfold write_slot, retire, mbind, M_bind, gets, mret, M_ret, modify; cbv beta iota.

Section operations.
Context (c : contexts) (Hc : slots_ok (g_slots c)).
Abbreviation m := (contents (g_slots c)).

(** A search that does not make finds what the map holds. *)
Lemma lookup_ok k : live k ->
  exists r, Context.find k false c = Some (r, c) /\
    match r with
    | Some i => index i /\ key_at (g_slots c) i = k /\ m !! k = Some (s_tp (slot_at (g_slots c) i), s_self (slot_at (g_slots c) i))
    | None => m !! k = None
    end.
Proof using Hc.
intros Hk. destruct (ctx_find_ok k Hk false c Hc) as (r & l' & E & _ & Hf & _). exists r. destruct r as [i|]; cbn [found] in Hf.
- destruct Hf as (Hi & [[-> Hkey] | [? _]]); [|done]. split; [rewrite E; by destruct c|]. split_and!; auto; try apply Hi.
  apply contents_lookup; [done|]. split; [done|]. exists i. split; [done|]. rewrite <-Hkey. unfold key_at. by destruct (slot_at _ i).
- destruct Hf as (-> & Ha & _). split; [rewrite E; by destruct c|]. by apply contents_none.
Qed.

(** A search that makes: the slot it answers is the key's, with what the map held of
    it or zero; it answers none only of a full table. *)
Lemma make_ok k : live k ->
  exists r c', Context.find k true c = Some (r, c') /\ slots_ok (g_slots c') /\ g_recorded c' = g_recorded c /\
    match r with
    | Some i => index i /\ slot_at (g_slots c') i = Slot k (default 0 (fst <$> m !! k)) (default 0 (snd <$> m !! k)) /\
        forall v, contents (set_slot (g_slots c') i (Slot k v.1 v.2)) = <[k := v]> m
    | None => c' = c /\ m !! k = None /\ full c
    end.
Proof using Hc.
intros Hk. destruct (ctx_find_ok k Hk true c Hc) as (r & l' & E & Hl' & Hf & _). exists r, (Contexts l' (g_recorded c)). split; [done|].
split; [done|]. split; [done|]. cbn [g_slots]. destruct r as [i|]; cbn [found] in Hf.
- destruct Hf as (Hi & [[-> Hkey] | (_ & Ha & Hfree & ->)]); split; [done|..|done|]; split.
  + assert (m !! k = Some (s_tp (slot_at (g_slots c) i), s_self (slot_at (g_slots c) i))) as ->; [|cbn; rewrite <-Hkey; unfold key_at; by destruct (slot_at _ i)].
    apply contents_lookup; [done|]. split; [done|]. exists i. split; [done|]. rewrite <-Hkey. unfold key_at. by destruct (slot_at _ i).
  + intros v. apply contents_set; auto. rewrite <-Hkey. apply slots_ok_write; auto. by rewrite Hkey.
  + apply (contents_none _ k) in Ha; [|done..]. rewrite Ha. rewrite slot_at_set, Z.eqb_refl by (done || apply Hc). done.
  + intros v. assert (forall s, set_slot (set_slot (g_slots c) i (Slot k 0 0)) i s = set_slot (g_slots c) i s) as Hss by (intros s; apply list_insert_insert_eq).
    rewrite Hss. apply contents_set; auto. rewrite <-(Hss (Slot k v.1 v.2)).
    assert (key_at (set_slot (g_slots c) i (Slot k 0 0)) i = k) as Ek by (unfold key_at; by rewrite slot_at_set, Z.eqb_refl by (done || apply Hc)).
    pose proof (slots_ok_write _ i v.1 v.2 Hl' Hi) as Hw. rewrite Ek in Hw. by apply Hw.
- destruct Hf as (-> & Ha & Hfull). split_and!; [by destruct c|by apply contents_none|]. exact (Hfull eq_refl).
Qed.
End operations.

Lemma release_ok c id : slots_ok (g_slots c) -> live (key_of id) ->
  exists c', okm_release_context id c = Some ((), c') /\ slots_ok (g_slots c') /\ g_recorded c' = g_recorded c /\
    contents (g_slots c') = delete (key_of id) (contents (g_slots c)).
Proof.
  intros Hc Hk. unfold okm_release_context. context_monad. destruct (lookup_ok c Hc _ Hk) as (r & -> & Hr). destruct r as [i|].
  - destruct Hr as (Hi & Hkey & _). eexists. split; [reflexivity|]. cbn [g_slots g_recorded].
    split; [by apply slots_ok_retire|]. split; [done|]. rewrite <-Hkey. apply contents_retire; auto using slots_ok_retire. by rewrite Hkey.
  - eexists. split; [reflexivity|]. split_and!; auto. by rewrite delete_id.
Qed.

Lemma slots_ok_write' l i k tp self tp' self' : slots_ok l -> index i -> live k -> slot_at l i = Slot k tp self -> slots_ok (set_slot l i (Slot k tp' self')).
Proof.
  intros Hl Hi Hk E. assert (key_at l i = k) as <- by (unfold key_at; by rewrite E). by apply slots_ok_write.
Qed.

(** C7. The table implements a map from a context's key to its thread pointer and its
    record: reading is lookup, and a context that reads none once any is
    recorded ends the program; writing is insertion, and fails only where the
    key is not there and no slot is free; releasing is deletion; and becoming
    the calling context moves what was there. *)
Theorem contexts_implement_map c id from v :
  let m := contents (g_slots c) in let k := key_of id in
  slots_ok (g_slots c) -> live k -> live (key_of from) ->
  okm_get_tp id c = Some (match m !! k with Some x => Answer x.1 | None => if g_recorded c then Aborted else Answer 0 end, c) /\
  okm_get_self id c = Some (default 0 (snd <$> m !! k), c) /\
  (exists a c', okm_set_tp id v c = Some (a, c') /\ slots_ok (g_slots c') /\
     match a with
     | Answer _ => contents (g_slots c') = <[k := (v, default 0 (snd <$> m !! k))]> m /\ g_recorded c' = true
     | Aborted => m !! k = None /\ full c
     end) /\
  (exists c', okm_set_self id v c = Some ((), c') /\ slots_ok (g_slots c') /\ g_recorded c' = g_recorded c /\
     (contents (g_slots c') = <[k := (default 0 (fst <$> m !! k), v)]> m \/ c' = c /\ m !! k = None /\ full c)) /\
  (exists c', okm_release_context id c = Some ((), c') /\ slots_ok (g_slots c') /\ contents (g_slots c') = delete k m) /\
  (exists c', okm_rebind_context id from c = Some (Answer (), c') /\ slots_ok (g_slots c') /\
     contents (g_slots c') = match m !! key_of from with Some x => <[k := x]> (delete (key_of from) m) | None => m end).
Proof.
  intros m k Hc Hk Hfrom. destruct (lookup_ok c Hc k Hk) as (r & Er & Hr). destruct (make_ok c Hc k Hk) as (r' & c' & Er' & Hc' & Hrec & Hr').
  split_and!.
  - unfold okm_get_tp. context_monad. fold k. rewrite Er. destruct r as [i|]; [destruct Hr as (_ & _ & Hr)|]; fold m in Hr; by rewrite Hr.
  - unfold okm_get_self. context_monad. fold k. rewrite Er. destruct r as [i|]; [destruct Hr as (_ & _ & Hr)|]; fold m in Hr; by rewrite Hr.
  - unfold okm_set_tp. context_monad. fold k. rewrite Er'. destruct r' as [i|]; [|by destruct Hr' as (-> & ? & ?); do 2 eexists].
    destruct Hr' as (Hi & Hs & Hset). do 2 eexists. split; [reflexivity|]. cbn [g_slots g_recorded]. rewrite Hs. cbn [s_key s_self].
    split; [by eapply slots_ok_write'|]. split; [|done]. by apply (Hset (v, _)).
  - unfold okm_set_self. context_monad. fold k. rewrite Er'. destruct r' as [i|]; [|by destruct Hr' as (-> & ? & ?); eexists; split_and!; auto].
    destruct Hr' as (Hi & Hs & Hset). eexists. split; [reflexivity|]. cbn [g_slots g_recorded]. rewrite Hs. cbn [s_key s_tp].
    split; [by eapply slots_ok_write'|]. split; [done|]. left. by apply (Hset (_, v)).
  - destruct (release_ok c id Hc Hk) as (c2 & ? & ? & _ & ?). eauto.
  - unfold okm_rebind_context. context_monad. destruct (lookup_ok c Hc _ Hfrom) as (rf & -> & Hrf). fold m in Hrf. destruct rf as [j|].
    2: { rewrite Hrf. eexists. split_and!; auto. }
    destruct Hrf as (Hj & Hkey & Hm). rewrite Hm. set (was := slot_at (g_slots c) j) in *. set (c1 := Contexts (set_slot (g_slots c) j (Slot OKM_RETIRED 0 0)) (g_recorded c)).
    assert (slots_ok (g_slots c1)) as Hc1 by (by apply slots_ok_retire).
    assert (contents (g_slots c1) = delete (key_of from) m) as Em.
    { rewrite <-Hkey. apply contents_retire; auto. by rewrite Hkey. }
    change (write_slot j _ c) with (Some ((), c1)). cbv beta iota. fold k. destruct (make_ok c1 Hc1 k Hk) as (r2 & c2 & -> & Hc2 & Hrec2 & Hr2). destruct r2 as [i|].
    + destruct Hr2 as (Hi & Hs & Hset). eexists. split; [reflexivity|]. cbn [g_slots]. rewrite Hs. cbn [s_key].
      split; [by eapply slots_ok_write'|]. rewrite <-Em. exact (Hset (s_tp was, s_self was)).
    + destruct Hr2 as (_ & _ & Hfull). exfalso. destruct (Hfull j Hj) as [_ Hne]. apply Hne. unfold key_at. cbn [g_slots c1].
      rewrite slot_at_set, Z.eqb_refl by (done || apply Hc). done.
Qed.

Lemma zero_slots_at i : slot_at (g_slots contexts_zero) i = slot_zero.
Proof.
  unfold slot_at, at_. cbn [g_slots contexts_zero]. split_if; [|done].
  destruct (replicate _ _ !! _) eqn:E; [|done]. by apply lookup_replicate in E as [-> _].
Qed.

Lemma zero_slots_ok : slots_ok (g_slots contexts_zero).
Proof.
  assert (forall i, key_at (g_slots contexts_zero) i = 0) as E by (intros i; unfold key_at; by rewrite zero_slots_at).
  constructor.
  - unfold sized. cbn [g_slots contexts_zero]. by rewrite length_replicate.
  - intros k m q [Hk _] _. rewrite E. intros <-. by destruct (Hk eq_refl).
  - intros i j _ _ [H _]. rewrite E in H. by destruct (H eq_refl).
  - intros i _ _. by rewrite zero_slots_at.
Qed.

Lemma live_small k : 0 < k < 2 ^ 64 - 1 -> live k.
Proof. unfold live, OKM_RETIRED. lia. Qed.

(** Context 0 records what context 9 had in an empty table. *)
Lemma contexts_implement_map_witness :
  exists c', okm_rebind_context 0 9 contexts_zero = Some (Answer (), c') /\ slots_ok (g_slots c') /\
    contents (g_slots c') = match contents (g_slots contexts_zero) !! 9 with
      Some x => <[key_of 0 := x]> (delete 9 (contents (g_slots contexts_zero))) | None => contents (g_slots contexts_zero) end.
Proof.
  apply (contexts_implement_map contexts_zero 0 9 5); [apply zero_slots_ok|apply live_small..]; by vm_compute.
Defined.

(** ** Contexts at once *)

(** The table, and the contexts that are in it: whether a context's search makes, and
    where it is. *)
Record system := System { sys_slots : list okm_slot; sys_threads : gmap Z (bool * find_state) }.

(** One access by the context whose key is [k]. A search that has found is followed
    by writes to the slot's other words, or by its retirement. *)
Inductive sys_step (k : Z) (s : system) : system -> Prop :=
| sys_call create :
    live k -> sys_threads s !! k = None ->
    sys_step k s (System (sys_slots s) (<[k := (create, find_start k)]> (sys_threads s)))
| sys_access create st :
    sys_threads s !! k = Some (create, st) ->
    sys_step k s (System (find_step k create (sys_slots s) st).1 (<[k := (create, (find_step k create (sys_slots s) st).2)]> (sys_threads s)))
| sys_write create i tp self :
    sys_threads s !! k = Some (create, F_done (Some i)) ->
    sys_step k s (System (set_slot (sys_slots s) i (Slot (key_at (sys_slots s) i) tp self)) (sys_threads s))
| sys_retire create i :
    sys_threads s !! k = Some (create, F_done (Some i)) ->
    sys_step k s (System (set_slot (sys_slots s) i (Slot OKM_RETIRED 0 0)) (delete k (sys_threads s)))
| sys_return create r :
    sys_threads s !! k = Some (create, F_done r) -> sys_step k s (System (sys_slots s) (delete k (sys_threads s))).

Definition any_step (s s' : system) : Prop := exists k, sys_step k s s'.
Definition sys_zero : system := System (g_slots contexts_zero) ∅.

Record sys_ok (s : system) : Prop := {
  sy_slots : slots_ok (sys_slots s);
  sy_threads : forall k create st, sys_threads s !! k = Some (create, st) -> live k /\ search_ok k create (sys_slots s) st;
}.

(** A step keeps every other context's search, given that it spares its key. *)
Lemma sys_ok_step k s l th :
  sys_ok s -> slots_ok l -> (forall k', k' <> k -> live k' -> spares k' (sys_slots s) l) ->
  (forall k', k' <> k -> th !! k' = sys_threads s !! k') ->
  (forall create st, th !! k = Some (create, st) -> live k /\ search_ok k create l st) -> sys_ok (System l th).
Proof.
  intros [_ Hth] Hl Hsp Hsame Hown. constructor; [done|]. cbn. intros k' create st Hk'. destruct (decide (k' = k)) as [-> |Hne]; [by apply Hown|].
  rewrite Hsame in Hk' by done. destruct (Hth _ _ _ Hk') as [Hlive Hs]. split; [done|]. eapply search_spares; [|done]. by apply Hsp.
Qed.

Lemma sys_step_ok k s s' : sys_step k s s' -> sys_ok s ->
  sys_ok s' /\ forall k', k' <> k -> live k' -> spares k' (sys_slots s) (sys_slots s').
Proof.
  intros Hstep Hs. pose proof Hs as [Hl Hth]. destruct Hstep as [create Hk Hn|create st Ht|create i tp self Ht|create i Ht|create r Ht]; cbn [sys_slots].
  - split; [|intros; apply spares_refl]. apply (sys_ok_step k s); auto using spares_refl.
    + intros k' Hne. by rewrite lookup_insert_ne.
    + intros create' st. rewrite lookup_insert_eq. intros [= <- <-]. split; [done|]. cbn [search_ok find_start].
      split; [done|]. split; [by rewrite path_start|]. split; [lia|done].
  - destruct (Hth _ _ _ Ht) as [Hk Hsearch]. destruct (search_step k Hk create _ _ Hl Hsearch) as (Hl' & Hs' & Hsp & _).
    split; [|done]. apply (sys_ok_step k s); auto.
    + intros k' Hne. by rewrite lookup_insert_ne.
    + intros create' st'. rewrite lookup_insert_eq. by intros [= <- <-].
  - destruct (Hth _ _ _ Ht) as [Hk [Hi Hkey]].
    assert (forall k', k' <> k -> live k' -> spares k' (sys_slots s) (set_slot (sys_slots s) i (Slot (key_at (sys_slots s) i) tp self))) as Hsp.
    { intros k' Hne _. apply spares_own; [apply Hl|done|congruence|cbn; congruence|]. cbn. rewrite Hkey. by destruct Hk. }
    split; [|done]. apply (sys_ok_step k s); auto; [by apply slots_ok_write; [| |rewrite Hkey]|].
    intros create' st'. rewrite Ht. intros [= <- <-]. split; [done|]. split; [done|]. unfold key_at. rewrite slot_at_set, Z.eqb_refl by (done || apply Hl). done.
  - destruct (Hth _ _ _ Ht) as [Hk [Hi Hkey]].
    assert (forall k', k' <> k -> live k' -> spares k' (sys_slots s) (set_slot (sys_slots s) i (Slot OKM_RETIRED 0 0))) as Hsp.
    { intros k' Hne [_ Hr]. apply spares_own; [apply Hl|done|congruence|cbn; congruence|done]. }
    split; [|done]. apply (sys_ok_step k s); auto; [by apply slots_ok_retire| |].
    + intros k' Hne. by rewrite lookup_delete_ne.
    + intros create' st'. by rewrite lookup_delete_eq.
  - split; [|intros; apply spares_refl]. apply (sys_ok_step k s); auto using spares_refl.
    + intros k' Hne. by rewrite lookup_delete_ne.
    + intros create' st'. by rewrite lookup_delete_eq.
Qed.

Lemma sys_reachable_ok s : rtc any_step sys_zero s -> sys_ok s.
Proof.
  intros H. assert (sys_ok sys_zero) as H0 by (constructor; [apply zero_slots_ok|done]).
  induction H as [|s1 s2 s3 [k Hk] _ IH]; [done|]. apply IH. by eapply sys_step_ok.
Qed.

(** C33. However the accesses of the contexts interleave, a search that ends has the
    right answer at its end: the slot it found or made holds its key, and one
    that answers none is of a key no slot holds; a key is in one slot at most;
    and no access of one context changes what another has recorded, moves it,
    or frees a slot another's search must pass. *)
Theorem contexts_at_once s :
  rtc any_step sys_zero s ->
  slots_ok (sys_slots s) /\
  (forall k create r, sys_threads s !! k = Some (create, F_done r) ->
     match r with
     | Some i => index i /\ key_at (sys_slots s) i = k
     | None => absent k (sys_slots s)
     end) /\
  (forall a s' k, sys_step a s s' -> k <> a -> live k -> spares k (sys_slots s) (sys_slots s')).
Proof.
  intros H. pose proof (sys_reachable_ok s H) as Hs. pose proof Hs as [Hl Hth]. split_and!; [done|..].
  - intros k create r Hk. destruct (Hth _ _ _ Hk) as [_ Hr]. by destruct r.
  - intros a s' k Hstep. by apply (sys_step_ok a s s').
Qed.

(** Contexts 57 and 362, whose searches start at one slot, both find it free; 57 takes
    it. *)
Definition race : system :=
  let s1 := System (sys_slots sys_zero) (<[57 := (true, find_start 57)]> ∅) in
  let s2 := System (sys_slots s1) (<[362 := (true, find_start 362)]> (sys_threads s1)) in
  let acc k s st := System (find_step k true (sys_slots s) st).1 (<[k := (true, (find_step k true (sys_slots s) st).2)]> (sys_threads s)) in
  let s3 := acc 57 s2 (find_start 57) in
  let s4 := acc 362 s3 (find_start 362) in
  let s5 := acc 57 s4 (F_load 77) in
  let s6 := acc 362 s5 (F_load 77) in
  let s7 := acc 57 s6 (F_cas 77 0) in
  acc 362 s7 (F_cas 77 0).

Lemma race_reachable : rtc any_step sys_zero race.
Proof.
  eapply rtc_l; [exists 57; apply (sys_call _ _ true); [by apply live_small|by vm_compute]|].
  eapply rtc_l; [exists 362; apply (sys_call _ _ true); [by apply live_small|by vm_compute]|].
  eapply rtc_l; [exists 57; apply (sys_access _ _ true (find_start 57)); by vm_compute|].
  eapply rtc_l; [exists 362; apply (sys_access _ _ true (find_start 362)); by vm_compute|].
  eapply rtc_l; [exists 57; apply (sys_access _ _ true (F_load 77)); by vm_compute|].
  eapply rtc_l; [exists 362; apply (sys_access _ _ true (F_load 77)); by vm_compute|].
  eapply rtc_l; [exists 57; apply (sys_access _ _ true (F_cas 77 0)); by vm_compute|].
  eapply rtc_l; [exists 362; apply (sys_access _ _ true (F_cas 77 0)); by vm_compute|].
  apply rtc_refl.
Qed.

Lemma contexts_at_once_witness : slots_ok (sys_slots race) /\ absent 362 (sys_slots race).
Proof.
  destruct (contexts_at_once race race_reachable) as (Hl & Hr & _). split; [done|]. apply (Hr 362 true None). by vm_compute.
Defined.

(** A context that loses the race for a slot is refused although the table is all
    but empty: its search, which was to make, answers none with 511 slots free,
    and __okm_set_tp then ends the program for want of room. *)
Theorem contexts_race_refused :
  exists s, rtc any_step sys_zero s /\ sys_threads s !! 362 = Some (true, F_done None) /\
    length (filter (fun x => s_key x = 0) (sys_slots s)) = 511%nat /\ length (sys_slots s) = 512%nat.
Proof. exists race. split; [apply race_reachable|]. by vm_compute. Qed.
