(* ===== verification/Mutex.v ===== *)
(** The lock (port/src/okm_fd.c, okm_mutex_lock and okm_mutex_unlock): a word that is
    free, held, or held and waited for, and contexts that sleep on it. *)
From S2P Require Import Prelude Kal.
From stdpp Require Import base list option relations.
From Stdlib Require Import ZArith Lia.

#[local] Open Scope Z_scope.

(** ** One context's accesses of the word *)

Definition OKM_LOOKS : Z := 64.

(** Where a context is: at the first exchange; at the [i]th look, or the exchange
    that follows one; at the exchange that says it waits; about to wait; asleep;
    holding the lock; about to wake a waiter. *)
Inductive lock_state :=
| Idle
| L_try
| L_look (i : Z)
| L_cas (i : Z)
| L_exchange
| L_wait
| L_asleep
| Holding
| U_wake.

#[export] Instance lock_state_eq_dec : EqDecision lock_state.
Proof. solve_decision. Defined.

(** The look after the [i]th, or what follows the last. *)
Definition next_look (i : Z) : lock_state := if i + 1 <? OKM_LOOKS then L_look (i + 1) else L_exchange.

(** okm_mutex_lock up to the wait: one access of the word [w], its new value and where
    the context is then. *)
Definition lock_step (w : Z) (st : lock_state) : option (Z * lock_state) :=
  match st with
  | L_try => Some (if w =? 0 then (1, Holding) else (w, L_look 0))
  | L_look i => Some (w, if w =? 0 then L_cas i else next_look i)
  | L_cas i => Some (if w =? 0 then (1, Holding) else (w, next_look i))
  | L_exchange => Some (2, if w =? 0 then Holding else L_wait)
  | _ => None
  end.

(** okm_mutex_unlock's access. *)
Definition unlock_step (w : Z) : Z * lock_state := (0, if w =? 2 then U_wake else Idle).

(** ** Contexts at once *)

Record lock_system := LockSystem { lk_word : Z; lk_at : Z -> lock_state }.

Definition move (f : Z -> lock_state) (c : Z) (st : lock_state) : Z -> lock_state := fun j => if j =? c then st else f j.

(** An access by context [c]. kal_task_wait with 2 sleeps only where the word is 2,
    and may return at any time; kal_task_wake of one wakes one of those asleep,
    if there is one. *)
Inductive lock_run (c : Z) (s : lock_system) : lock_system -> Prop :=
| run_call : lk_at s c = Idle -> lock_run c s (LockSystem (lk_word s) (move (lk_at s) c L_try))
| run_access w st : lock_step (lk_word s) (lk_at s c) = Some (w, st) -> lock_run c s (LockSystem w (move (lk_at s) c st))
| run_sleep : lk_at s c = L_wait -> lk_word s = 2 -> lock_run c s (LockSystem (lk_word s) (move (lk_at s) c L_asleep))
| run_wait_returns : lk_at s c = L_wait \/ lk_at s c = L_asleep -> lock_run c s (LockSystem (lk_word s) (move (lk_at s) c L_exchange))
| run_unlock : lk_at s c = Holding ->
    lock_run c s (LockSystem (unlock_step (lk_word s)).1 (move (lk_at s) c (unlock_step (lk_word s)).2))
| run_wake_one d : lk_at s c = U_wake -> lk_at s d = L_asleep ->
    lock_run c s (LockSystem (lk_word s) (move (move (lk_at s) d L_exchange) c Idle))
| run_wake_none : lk_at s c = U_wake -> (forall d, lk_at s d <> L_asleep) ->
    lock_run c s (LockSystem (lk_word s) (move (lk_at s) c Idle)).

Definition lock_zero : lock_system := LockSystem 0 (fun _ => Idle).
Definition lock_any (s s' : lock_system) : Prop := exists c, lock_run c s s'.

(** ** The invariant *)

Record lock_ok (s : lock_system) : Prop := {
  lo_word : lk_word s = 0 \/ lk_word s = 1 \/ lk_word s = 2;
  lo_one : forall c d, lk_at s c = Holding -> lk_at s d = Holding -> c = d;
  lo_free : lk_word s = 0 -> forall c, lk_at s c <> Holding;
  lo_held : lk_word s <> 0 -> exists c, lk_at s c = Holding;
  lo_sleep : forall c, lk_at s c = L_asleep -> lk_word s = 2 \/ exists d, lk_at s d = U_wake \/ lk_at s d = L_exchange;
}.

Lemma move_same f c st : move f c st c = st.
Proof. unfold move. by rewrite Z.eqb_refl. Qed.

Lemma move_other f c st j : j <> c -> move f c st j = f j.
Proof. unfold move. by intros ->%Z.eqb_neq. Qed.

Lemma move_at f c st j : (j = c /\ move f c st j = st) \/ (j <> c /\ move f c st j = f j).
Proof. destruct (decide (j = c)) as [-> |]; [left|right]; auto using move_same, move_other. Qed.

(** The word stays, and the context does not come to hold, to sleep, or to leave a
    wake undone. *)
Lemma lock_ok_move s c st :
  lock_ok s -> st <> Holding -> st <> L_asleep \/ lk_word s = 2 -> lk_at s c <> Holding ->
  (lk_at s c = U_wake \/ lk_at s c = L_exchange -> lk_word s = 2 \/ forall d, lk_at s d <> L_asleep) ->
  lock_ok (LockSystem (lk_word s) (move (lk_at s) c st)).
Proof.
  intros [Hw H1 Hf Hh Hs] Hst Hsl Hc Hx. constructor; cbn [lk_word lk_at]; [done|..].
  - intros a b. destruct (move_at (lk_at s) c st a) as [[_ ->] | [_ ->]], (move_at (lk_at s) c st b) as [[_ ->] | [_ ->]]; try done. apply H1.
  - intros Hz d. destruct (move_at (lk_at s) c st d) as [[_ ->] | [_ ->]]; auto.
  - intros Hz. destruct (Hh Hz) as [d Hd]. exists d. rewrite move_other; [done|congruence].
  - intros d. destruct (move_at (lk_at s) c st d) as [[_ ->] | [_ ->]]; [intros ->; destruct Hsl; [done|by left]|].
    intros Hd. destruct (Hs d Hd) as [|(e & He)]; [by left|]. destruct (decide (e = c)) as [-> |Hne].
    + destruct (Hx He) as [|Hno]; [by left|]. by destruct (Hno d).
    + right. exists e. by rewrite move_other.
Qed.

(** Coming to hold: the word was free, and is held, or held and waited for. *)
Lemma lock_ok_take s c w :
  lock_ok s -> lk_word s = 0 -> w = 1 \/ w = 2 -> lk_at s c <> U_wake -> (lk_at s c = L_exchange -> w = 2) ->
  lock_ok (LockSystem w (move (lk_at s) c Holding)).
Proof.
  intros [Hw H1 Hf Hh Hs] Hz Hw' Hu Hx. constructor; cbn [lk_word lk_at]; [lia|..].
  - intros a b. destruct (move_at (lk_at s) c Holding a) as [[-> ->] | [_ ->]], (move_at (lk_at s) c Holding b) as [[-> ->] | [_ ->]]; try done.
    + intros _ H. by destruct (Hf Hz b).
    + intros H. by destruct (Hf Hz a).
    + apply H1.
  - lia.
  - intros _. exists c. apply move_same.
  - intros d. destruct (move_at (lk_at s) c Holding d) as [[_ ->] | [_ ->]]; [done|]. intros Hd. destruct (Hs d Hd) as [|(e & He)]; [lia|].
    destruct (decide (e = c)) as [-> |Hne]; [destruct He as [|He]; [done|]; left; auto|]. right. exists e. by rewrite move_other.
Qed.

(** The exchange that finds the lock held. *)
Lemma lock_ok_wait s c :
  lock_ok s -> lk_word s <> 0 -> lk_at s c <> Holding -> lock_ok (LockSystem 2 (move (lk_at s) c L_wait)).
Proof.
  intros [Hw H1 Hf Hh Hs] Hz Hc. constructor; cbn [lk_word lk_at]; [lia|..|by left].
  - intros a b. destruct (move_at (lk_at s) c L_wait a) as [[_ ->] | [_ ->]], (move_at (lk_at s) c L_wait b) as [[_ ->] | [_ ->]]; try done. apply H1.
  - lia.
  - intros _. destruct (Hh Hz) as [d Hd]. exists d. rewrite move_other; [done|congruence].
Qed.

Lemma lock_ok_release s c :
  lock_ok s -> lk_at s c = Holding -> lock_ok (LockSystem 0 (move (lk_at s) c (if lk_word s =? 2 then U_wake else Idle))).
Proof.
  intros [Hw H1 Hf Hh Hs] Hc. set (st := if lk_word s =? 2 then U_wake else Idle).
  assert (st <> Holding /\ st <> L_asleep) as [? ?] by (unfold st; by split_if).
  constructor; cbn [lk_word lk_at]; [lia|..|done|].
  - intros a b. destruct (move_at (lk_at s) c st a) as [[_ ->] | [_ ->]], (move_at (lk_at s) c st b) as [[_ ->] | [_ ->]]; try done. apply H1.
  - intros _ d. destruct (move_at (lk_at s) c st d) as [[_ ->] | [Hne ->]]; [done|]. intros Hd. by destruct (Hne (H1 d c Hd Hc)).
  - intros d. destruct (move_at (lk_at s) c st d) as [[_ ->] | [_ ->]]; [done|]. intros Hd. right. unfold st.
    destruct (lk_word s =? 2) eqn:E2; boolean; [exists c; rewrite move_same; by left|].
    destruct (Hs d Hd) as [|(e & He)]; [done|]. exists e. rewrite move_other; [done|]. intros ->. rewrite Hc in He. by destruct He.
Qed.

(** A wake of one, which then exchanges. *)
Lemma lock_ok_wake s c d :
  lock_ok s -> lk_at s c = U_wake -> lk_at s d = L_asleep -> lock_ok (LockSystem (lk_word s) (move (move (lk_at s) d L_exchange) c Idle)).
Proof.
  intros Hs Hc Hd. assert (d <> c) as Hne by congruence.
  assert (lock_ok (LockSystem (lk_word s) (move (lk_at s) d L_exchange))) as [Hw H1 Hf Hh Hs'] by (apply lock_ok_move; auto; rewrite Hd; naive_solver).
  cbn [lk_word lk_at] in *. set (f := move (lk_at s) d L_exchange) in *. assert (f c = U_wake) as Hfc by (unfold f; rewrite move_other; done).
  constructor; cbn [lk_word lk_at]; [done|..].
  - intros a b. destruct (move_at f c Idle a) as [[_ ->] | [_ ->]], (move_at f c Idle b) as [[_ ->] | [_ ->]]; try done. apply H1.
  - intros Hz e. destruct (move_at f c Idle e) as [[_ ->] | [_ ->]]; auto.
  - intros Hz. destruct (Hh Hz) as [e He]. exists e. rewrite move_other; [done|congruence].
  - intros e _. right. exists d. rewrite move_other by done. right. apply move_same.
Qed.

Lemma next_look_plain i : next_look i <> Holding /\ next_look i <> L_asleep.
Proof. unfold next_look. by split_if. Qed.

(** The conditions of a step, by where the context is. *)
Ltac at_state Hc := rewrite Hc; naive_solver.

Lemma lock_run_ok c s s' : lock_run c s s' -> lock_ok s -> lock_ok s'.
Proof.
  intros Hr Hs. destruct Hr as [Hc|w st Hstep|Hc H2|Hc|Hc|d Hc Hd|Hc Hno].
  - apply lock_ok_move; auto; at_state Hc.
  - destruct (lk_at s c) as [| |i|i| | | | |] eqn:Hc; cbn [lock_step] in Hstep; try done; try (destruct (next_look_plain i));
      destruct (lk_word s =? 0) eqn:E; boolean; injection Hstep as <- <-.
    1, 5: apply lock_ok_take; auto; at_state Hc.
    1-4: apply lock_ok_move; auto; at_state Hc.
    + apply lock_ok_take; auto; at_state Hc.
    + apply lock_ok_wait; auto; at_state Hc.
  - apply lock_ok_move; auto; at_state Hc.
  - apply lock_ok_move; auto; destruct Hc as [-> | ->]; naive_solver.
  - by apply lock_ok_release.
  - by apply lock_ok_wake.
  - apply lock_ok_move; auto; at_state Hc.
Qed.

Lemma lock_reachable_ok s : rtc lock_any lock_zero s -> lock_ok s.
Proof.
  assert (lock_ok lock_zero) as H0 by (constructor; cbn; [by left|done..]).
  induction 1 as [|s1 s2 s3 [c Hc] _ IH]; [done|]. apply IH. by eapply lock_run_ok.
Qed.

(** C35. However the accesses of the contexts interleave, at most one holds the lock,
    the word is zero exactly when none does, and no wake is lost: where a context
    sleeps on the lock, one that is awake holds it, is to wake a waiter, or is
    to exchange. *)
Theorem mutex_safe s :
  rtc lock_any lock_zero s ->
  (forall c d, lk_at s c = Holding -> lk_at s d = Holding -> c = d) /\
  (lk_word s = 0 <-> forall c, lk_at s c <> Holding) /\
  (forall c, lk_at s c = L_asleep -> exists d, lk_at s d = Holding \/ lk_at s d = U_wake \/ lk_at s d = L_exchange).
Proof.
  intros H. destruct (lock_reachable_ok s H) as [Hw H1 Hf Hh Hs]. split; [done|]. split.
  - split; [done|]. intros Hno. destruct (decide (lk_word s = 0)) as [|Hz]; [done|]. destruct (Hh Hz) as [c Hc]. by destruct (Hno c).
  - intros c Hc. destruct (Hs c Hc) as [H2|(d & Hd)]; [|by exists d; right]. destruct Hh as [d Hd]; [lia|]. exists d. by left.
Qed.

(** Context 1 takes the lock and context 2 finds it held. *)
Lemma mutex_safe_witness : exists s, rtc lock_any lock_zero s /\ lk_word s = 1 /\ lk_at s 1 = Holding /\
  forall d, lk_at s d = Holding -> d = 1.
Proof.
  set (s1 := LockSystem 0 (move (fun _ => Idle) 1 L_try)).
  set (s2 := LockSystem 1 (move (lk_at s1) 1 Holding)).
  set (s3 := LockSystem 1 (move (lk_at s2) 2 L_try)).
  set (s4 := LockSystem 1 (move (lk_at s3) 2 (L_look 0))).
  assert (rtc lock_any lock_zero s4) as Hr.
  { eapply rtc_l; [exists 1; by apply run_call|]. eapply rtc_l; [exists 1; by apply (run_access _ _ 1 Holding)|].
    eapply rtc_l; [exists 2; by apply run_call|]. eapply rtc_l; [exists 2; by apply (run_access _ _ 1 (L_look 0))|]. apply rtc_refl. }
  exists s4. split; [done|]. split; [done|]. split; [done|]. intros d Hd. by apply (mutex_safe s4 Hr).
Defined.
