(* ===== verification/Net.v ===== *)
(** Sockets over openkal's connections, listeners and datagram endpoints
    (port/src/okm_net.c), with the bounded transfers and the read-ahead of
    port/src/okm_poll.c that they use. A socket holds what it was asked to be until
    a call says what it is for. *)
From S2P Require Import Prelude Kal FdTable.
From stdpp Require Import base list option.
From Stdlib Require Import ZArith Lia.

#[local] Open Scope Z_scope.

(** ** musl's values *)

Definition AF_INET : Z := 2.
Definition AF_INET6 : Z := 10.
Definition SOCK_STREAM : Z := 1.
Definition SOCK_DGRAM : Z := 2.
Definition SOCK_CLOEXEC : Z := 0x80000.
Definition SOCK_NONBLOCK : Z := 0x800.
Definition SOL_SOCKET : Z := 1.
Definition SO_REUSEADDR : Z := 2.
Definition SO_TYPE : Z := 3.
Definition SO_ERROR : Z := 4.
Definition SO_RCVTIMEO : Z := 20.
Definition SO_SNDTIMEO : Z := 21.
Definition SHUT_RD : Z := 0.
Definition SHUT_WR : Z := 1.
Definition SHUT_RDWR : Z := 2.
Definition MSG_DONTWAIT : Z := 0x40.
Definition MSG_NOSIGNAL : Z := 0x4000.
Definition ENOTSOCK : Z := 88.
Definition EDESTADDRREQ : Z := 89.
Definition ENOPROTOOPT : Z := 92.
Definition ESOCKTNOSUPPORT : Z := 94.
Definition EOPNOTSUPP : Z := 95.
Definition EAFNOSUPPORT : Z := 97.
Definition EISCONN : Z := 106.
Definition ENOTCONN : Z := 107.

Definition OKM_MAX_SOCK : Z := 128.
Definition OKM_DGRAM_MAX : Z := 65536.
Definition OKM_NOW_NS : Z := 1.
Definition OKM_AHEAD_EOF : Z := -1.

(** [flags & ~mask] *)
Definition without (flags mask : Z) : Z := Z.land flags (Z.lnot mask).

(** ** Addresses *)

(** openkal's endpoint: address bytes in network order, of which [ep_len] count, and
    the port in host order. *)
Record endpoint := Endpoint { ep_addr : list Z; ep_len : Z; ep_port : Z }.

Definition byte_at (l : list Z) (i : Z) : Z := default 0 (at_ l i).
Definition bytes_at (l : list Z) (i n : Z) : list Z := (fun k => byte_at l (i + k)) <$> seqZ 0 n.
Definition zeros (n : Z) : list Z := replicate (Z.to_nat n) 0.

(** ntohs and htons of a little-endian machine, on the two bytes as they lie. *)
Definition port_at (l : list Z) (i : Z) : Z := byte_at l i * 256 + byte_at l (i + 1).
Definition port_bytes (port : Z) : list Z := [port mod 65536 / 256; port mod 256].

(** A 32-bit value as its bytes from the least, [(sc >> (i * 8)) & 0xff], and back. *)
Definition u32_bytes (v : Z) : list Z := (fun i => Z.land (Z.shiftr v (i * 8)) 0xff) <$> seqZ 0 4.
Definition u32_at (l : list Z) (i : Z) : Z :=
  Z.lor (Z.lor (Z.lor (byte_at l i) (Z.shiftl (byte_at l (i + 1)) 8)) (Z.shiftl (byte_at l (i + 2)) 16)) (Z.shiftl (byte_at l (i + 3)) 24).

Definition sizeof_sockaddr_in : Z := 16.
Definition sizeof_sockaddr_in6 : Z := 28.

(** What a caller gave for an address to be written to: the bytes, and their number. *)
Definition sa_out : Type := option (list Z) * option Z.

Section addresses.
(** The size of an endpoint's address, openkal's. *)
Context (addr_size : Z).

Definition padded (l : list Z) : list Z := l ++ zeros (addr_size - Z.of_nat (length l)).

(** [addr]: the bytes of the sockaddr, or no address. *)
Definition to_endpoint (addr : option (list Z)) (len : Z) : Z + endpoint :=
  match addr with
  | None => inl (- EFAULT)
  | Some a =>
      let family := byte_at a 0 + 256 * byte_at a 1 in
      if family =? AF_INET then
        if len <? sizeof_sockaddr_in then inl (- EINVAL)
        else inr (Endpoint (padded (bytes_at a 4 4)) 4 (port_at a 2))
      else if family =? AF_INET6 then
        if len <? sizeof_sockaddr_in6 then inl (- EINVAL)
        else
          let sc := u32_at a 24 in
          if negb (sc =? 0) then inr (Endpoint (padded (bytes_at a 8 16 ++ u32_bytes sc)) 20 (port_at a 2))
          else inr (Endpoint (padded (bytes_at a 8 16)) 16 (port_at a 2))
      else inl (- EAFNOSUPPORT)
  end.

(** The sockaddr of an endpoint, and its size. *)
Definition sockaddr_of (ep : endpoint) : option (list Z) :=
  if ep_len ep =? 4 then Some ([AF_INET; 0] ++ port_bytes (ep_port ep) ++ bytes_at (ep_addr ep) 0 4 ++ zeros 8)
  else if (ep_len ep =? 16) || (ep_len ep =? 20) then
    Some ([AF_INET6; 0] ++ port_bytes (ep_port ep) ++ zeros 4 ++ bytes_at (ep_addr ep) 0 16 ++
          (if ep_len ep =? 20 then u32_bytes (u32_at (ep_addr ep) 16) else zeros 4))
  else None.

Definition from_endpoint (ep : endpoint) (out : sa_out) : Z * sa_out :=
  match out with
  | (Some a, Some len) =>
      match sockaddr_of ep with
      | None => (- EAFNOSUPPORT, (Some a, Some 0))
      | Some u =>
          let whole := Z.of_nat (length u) in
          let room := Z.to_nat (if whole <? len then whole else len) in
          (0, (Some (take room u ++ drop room a), Some whole))
      end
  | _ => (0, out)
  end.
End addresses.

(** ** The table *)

Inductive sock_state := OKM_SOCK_FREE | OKM_SOCK_NEW | OKM_SOCK_LISTEN | OKM_SOCK_CONN | OKM_SOCK_DGRAM.

#[export] Instance sock_state_eq_dec : EqDecision sock_state.
Proof. solve_decision. Defined.

(** The message a readiness enquiry took is [k_msg]; [k_buf] whether the buffer it is
    kept in has been obtained. *)
Record okm_sock := Sock {
  k_state : sock_state;
  k_domain : Z;
  k_type : Z;
  k_protocol : Z;
  k_local : option endpoint;
  k_peer : option endpoint;
  k_conn : Z;
  k_lis : Z;
  k_dg : Z;
  k_rcv_bound : Z;
  k_snd_bound : Z;
  k_pend : option Z;
  k_msg : option (list Z * endpoint);
  k_buf : bool;
}.

Definition sock_zero : okm_sock := Sock OKM_SOCK_FREE 0 0 0 None None 0 0 0 0 0 None None false.

Definition set_state (s : okm_sock) st := Sock st (k_domain s) (k_type s) (k_protocol s) (k_local s) (k_peer s) (k_conn s) (k_lis s) (k_dg s) (k_rcv_bound s) (k_snd_bound s) (k_pend s) (k_msg s) (k_buf s).
Definition set_ids (s : okm_sock) d ty pr := Sock (k_state s) d ty pr (k_local s) (k_peer s) (k_conn s) (k_lis s) (k_dg s) (k_rcv_bound s) (k_snd_bound s) (k_pend s) (k_msg s) (k_buf s).
Definition set_local (s : okm_sock) ep := Sock (k_state s) (k_domain s) (k_type s) (k_protocol s) (Some ep) (k_peer s) (k_conn s) (k_lis s) (k_dg s) (k_rcv_bound s) (k_snd_bound s) (k_pend s) (k_msg s) (k_buf s).
Definition set_peer (s : okm_sock) ep := Sock (k_state s) (k_domain s) (k_type s) (k_protocol s) (k_local s) (Some ep) (k_conn s) (k_lis s) (k_dg s) (k_rcv_bound s) (k_snd_bound s) (k_pend s) (k_msg s) (k_buf s).
Definition set_conn (s : okm_sock) c := Sock OKM_SOCK_CONN (k_domain s) (k_type s) (k_protocol s) (k_local s) (k_peer s) c (k_lis s) (k_dg s) (k_rcv_bound s) (k_snd_bound s) (k_pend s) (k_msg s) (k_buf s).
Definition set_lis (s : okm_sock) l := Sock OKM_SOCK_LISTEN (k_domain s) (k_type s) (k_protocol s) (k_local s) (k_peer s) (k_conn s) l (k_dg s) (k_rcv_bound s) (k_snd_bound s) (k_pend s) (k_msg s) (k_buf s).
Definition set_dg (s : okm_sock) h := Sock OKM_SOCK_DGRAM (k_domain s) (k_type s) (k_protocol s) (k_local s) (k_peer s) (k_conn s) (k_lis s) h (k_rcv_bound s) (k_snd_bound s) (k_pend s) (k_msg s) (k_buf s).
Definition set_bounds (s : okm_sock) r w := Sock (k_state s) (k_domain s) (k_type s) (k_protocol s) (k_local s) (k_peer s) (k_conn s) (k_lis s) (k_dg s) r w (k_pend s) (k_msg s) (k_buf s).
Definition set_pend (s : okm_sock) p := Sock (k_state s) (k_domain s) (k_type s) (k_protocol s) (k_local s) (k_peer s) (k_conn s) (k_lis s) (k_dg s) (k_rcv_bound s) (k_snd_bound s) p (k_msg s) (k_buf s).
Definition set_msg (s : okm_sock) m b := Sock (k_state s) (k_domain s) (k_type s) (k_protocol s) (k_local s) (k_peer s) (k_conn s) (k_lis s) (k_dg s) (k_rcv_bound s) (k_snd_bound s) (k_pend s) m b.

(** ** What is asked of the environment *)

Inductive handle := H_conn (h : Z) | H_lis (h : Z) | H_dg (h : Z).

#[export] Instance handle_eq_dec : EqDecision handle.
Proof. solve_decision. Defined.

(** A call that opens: at an endpoint, or from a listener under a bound, which is zero
    for one without end. *)
Inductive opening := At (ep : option endpoint) | Accepted (lis bound : Z).

(** A call that opens carries what it was given, if anything. *)
Inductive net_call :=
| Q_open (h : option handle) (w : opening)
| Q_close (h : handle)
| Q_shutdown (conn dir : Z)
| Q_send (dg : Z) (buf : list Z) (to : endpoint)
| Q_recv (dg : Z) (n bound : Z)
| Q_write (stream : Z) (buf : list Z) (bound : Z)
| Q_read (stream n bound : Z)
| Q_sleep (ns : Z).

Record net := Net { n_fds : fd_table; n_sock : list okm_sock; n_calls : list net_call }.

Definition net_zero (t : fd_table) : net := Net t (replicate (Z.to_nat OKM_MAX_SOCK) sock_zero) [].

Definition n_ask (c : net_call) : M net () := modify (fun n => Net (n_fds n) (n_sock n) (c :: n_calls n)).
Definition get_sock (i : Z) : M net okm_sock := try (fun n => at_ (n_sock n) i).
Definition put_sock (i : Z) (s : okm_sock) : M net () :=
  put_try (fun n => (fun l => Net (n_fds n) l (n_calls n)) <$> set_at (n_sock n) i s).
Definition put_socks (i : Z) (f : okm_sock -> okm_sock) : M net () := s ← get_sock i; put_sock i (f s).

Definition slot_alloc : M net Z :=
  n ← gets id;
  match scan_from (fun s => bool_decide (k_state s = OKM_SOCK_FREE)) (n_sock n) 0 with
  | Some i =>
      s ← get_sock i;
      put_sock i (Sock OKM_SOCK_NEW 0 0 0 None None 0 0 0 0 0 None None (k_buf s));;
      mret i
  | None => mret (-1)
  end.

(** The slot of a socket's description. *)
Definition slot_of (d : okm_desc) : option Z :=
  if negb (bool_decide (d_kind d = OKM_SOCKET)) then None
  else if (d_sock d <? 0) || (OKM_MAX_SOCK <=? d_sock d) then None
  else Some (d_sock d).

(** [s = slot_of(d)] of the descriptor's description [d]: that description, its index
    and the slot, or the error of a descriptor that has none. *)
Definition sock_of (n : net) (fd : Z) : Z + (Z * okm_desc * Z) :=
  match (i ← okm_desc_of (n_fds n) fd; d ← at_ (g_desc (n_fds n)) i; Some (i, d)) with
  | None => inl (- EBADF)
  | Some (i, d) => match slot_of d with None => inl (- ENOTSOCK) | Some k => inr (i, d, k) end
  end.

Section calls.
Context (addr_size : Z).
(** Whether openkal.net and openkal.datagram are there, each in whole or not at all,
    and the bounded operations. *)
Context (have_net have_dgram can_bound can_accept can_recv : bool).
(** kal_net_stream, of a connection. *)
Context (net_stream : Z -> Z).
Context (me : Z).

Definition okm_sock_release (slot : Z) : M net () :=
  if (slot <? 0) || (OKM_MAX_SOCK <=? slot) then mret ()
  else
    s ← get_sock slot;
    match k_state s with
    | OKM_SOCK_CONN => when have_net (n_ask (Q_close (H_conn (k_conn s))))
    | OKM_SOCK_LISTEN => when have_net (n_ask (Q_close (H_lis (k_lis s))))
    | OKM_SOCK_DGRAM => when have_dgram (n_ask (Q_close (H_dg (k_dg s))))
    | _ => mret ()
    end;;
    match k_pend s with Some c => when have_net (n_ask (Q_close (H_conn c))) | None => mret () end;;
    put_sock slot (set_msg (set_pend (set_state s OKM_SOCK_FREE) None) None (k_buf s)).

(** The sockets of a log of what was given back. *)
Fixpoint release_all (l : list resource) : M net () :=
  match l with
  | [] => mret ()
  | R_sock k :: l' => okm_sock_release k;; release_all l'
  | _ :: l' => release_all l'
  end.

(** An operation of the descriptor table that closes nothing. *)
Definition in_fds {A} (e : M fd_table A) : M net A := fun n =>
  match e (n_fds n) with
  | None => None
  | Some (x, t) => Some (x, Net t (n_sock n) (n_calls n))
  end.

(** One that may: close_owned, in it, is okm_sock_release of a
    socket's slot, which the table only logs. *)
Definition on_fds {A} (e : M fd_table A) : M net A := fun n =>
  match e (n_fds n) with
  | None => None
  | Some (x, t) =>
      let new := take (length (closed t) - length (closed (n_fds n))) (closed t) in
      match release_all (rev new) (Net t (n_sock n) (n_calls n)) with
      | None => None
      | Some (_, n') => Some (x, n')
      end
  end.

Definition okm_sock_open (domain type protocol : Z) : M net Z :=
  if negb (domain =? AF_INET) && negb (domain =? AF_INET6) then mret (- EAFNOSUPPORT)
  else
    let base := without type (Z.lor SOCK_CLOEXEC SOCK_NONBLOCK) in
    if negb (base =? SOCK_STREAM) && negb (base =? SOCK_DGRAM) then mret (- ESOCKTNOSUPPORT)
    else if (base =? SOCK_STREAM) && negb have_net then mret (- EAFNOSUPPORT)
    else if (base =? SOCK_DGRAM) && negb have_dgram then mret (- EAFNOSUPPORT)
    else if has type SOCK_NONBLOCK && negb can_bound then mret (- ENOSYS)
    else
      n ← gets id;
      let fd := okm_fd_alloc (n_fds n) 0 in
      if fd <? 0 then mret fd
      else
        slot ← slot_alloc;
        if slot <? 0 then mret (- ENFILE)
        else
          let flags := Z.lor (Z.lor O_RDWR (if has type SOCK_NONBLOCK then O_NONBLOCK else 0)) (if has type SOCK_CLOEXEC then O_CLOEXEC else 0) in
          on_fds (bind_socket true me fd 0 flags slot);;
          put_socks slot (fun s => set_ids s domain base protocol);;
          mret fd.

Definition okm_sock_bind (fd : Z) (addr : option (list Z)) (len : Z) (e : kal_error) (dg : Z) : M net Z :=
  n ← gets id;
  match sock_of n fd with
  | inl r => mret r
  | inr (_, d, k) =>
      s ← get_sock k;
      if negb (bool_decide (k_state s = OKM_SOCK_NEW)) then mret (- EINVAL)
      else match to_endpoint addr_size addr len with
      | inl r => mret r
      | inr ep =>
          put_sock k (set_local s ep);;
          if k_type s =? SOCK_DGRAM then
            if negb have_dgram then mret (- ENOSYS)
            else
              n_ask (Q_open (if bool_decide (e = kal_ok) then Some (H_dg dg) else None) (At (Some ep)));;
              if negb (bool_decide (e = kal_ok)) then mret (- okm_errno e)
              else put_sock k (set_dg (set_local s ep) dg);; mret 0
          else mret 0
      end
  end.

Definition okm_sock_listen (fd : Z) (e : kal_error) (lis : Z) : M net Z :=
  n ← gets id;
  match sock_of n fd with
  | inl r => mret r
  | inr (_, d, k) =>
      s ← get_sock k;
      if negb (k_type s =? SOCK_STREAM) then mret (- EOPNOTSUPP)
      else if bool_decide (k_state s = OKM_SOCK_LISTEN) then mret 0
      else if negb (bool_decide (k_state s = OKM_SOCK_NEW)) then mret (- EINVAL)
      else if negb have_net then mret (- ENOSYS)
      else
        let ep := match k_local s with
          | Some ep => ep
          | None => Endpoint (zeros addr_size) (if k_domain s =? AF_INET6 then 16 else 4) 0
          end in
        n_ask (Q_open (if bool_decide (e = kal_ok) then Some (H_lis lis) else None) (At (Some ep)));;
        if negb (bool_decide (e = kal_ok)) then mret (- okm_errno e)
        else put_sock k (set_lis s lis);; mret 0
  end.

(** A connection into a descriptor of its own. *)
Definition adopt (c flags : Z) : M net Z :=
  n ← gets id;
  let fd := okm_fd_alloc (n_fds n) 0 in
  if fd <? 0 then n_ask (Q_close (H_conn c));; mret fd
  else
    slot ← slot_alloc;
    if slot <? 0 then n_ask (Q_close (H_conn c));; mret (- ENFILE)
    else
      on_fds (bind_socket true me fd (net_stream c) (Z.lor O_RDWR flags) slot);;
      put_socks slot (fun s => set_ids (set_conn s c) (k_domain s) SOCK_STREAM (k_protocol s));;
      mret fd.

(** The answer of the accept that is asked for, bounded or not, is [e] and [c]; [pe],
    [peer] is kal_net_peer's. *)
Definition okm_sock_accept (fd : Z) (out : sa_out) (flags : Z) (e : kal_error) (c : Z) (pe : kal_error) (peer : endpoint) : M net (Z * sa_out) :=
  n ← gets id;
  match sock_of n fd with
  | inl r => mret (r, out)
  | inr (_, d, k) =>
      s ← get_sock k;
      if negb (bool_decide (k_state s = OKM_SOCK_LISTEN)) then mret (- EINVAL, out)
      else if negb (without flags (Z.lor SOCK_CLOEXEC SOCK_NONBLOCK) =? 0) then mret (- EINVAL, out)
      else if has flags SOCK_NONBLOCK && negb can_bound then mret (- ENOSYS, out)
      else
        c ← match k_pend s with
            | Some p => put_sock k (set_pend s None);; mret (inr p)
            | None =>
                if has (d_flags d) O_NONBLOCK && negb can_accept then mret (inl (- ENOSYS))
                else
                  n_ask (Q_open (if bool_decide (e = kal_ok) then Some (H_conn c) else None) (Accepted (k_lis s) (if has (d_flags d) O_NONBLOCK then OKM_NOW_NS else 0)));;
                  if has (d_flags d) O_NONBLOCK && bool_decide (e = kal_err_again) then mret (inl (- EAGAIN))
                  else mret (if bool_decide (e = kal_ok) then inr c else inl (- okm_errno e))
            end;
        match c : Z + Z with
        | inl r => mret (r, out)
        | inr c =>
            let newflags := Z.lor (if has flags SOCK_NONBLOCK then O_NONBLOCK else 0) (if has flags SOCK_CLOEXEC then O_CLOEXEC else 0) in
            nfd ← adopt c newflags;
            when ((0 <=? nfd) && has flags SOCK_CLOEXEC) (in_fds (okm_fd_cloexec nfd true);; mret ());;
            if nfd <? 0 then mret (nfd, out)
            else
              mret (nfd, match out with
                         | (Some a, Some len) => if bool_decide (pe = kal_ok) then (from_endpoint peer out).2 else (Some a, Some 0)
                         | _ => out
                         end)
        end
  end.

(** The datagram endpoint of a socket that has none yet: opened at its local endpoint. *)
Definition ensure_dgram (k : Z) (s : okm_sock) (e : kal_error) (dg : Z) : M net Z :=
  if bool_decide (k_state s = OKM_SOCK_NEW) then
    n_ask (Q_open (if bool_decide (e = kal_ok) then Some (H_dg dg) else None) (At (k_local s)));;
    if negb (bool_decide (e = kal_ok)) then mret (- okm_errno e)
    else put_sock k (set_dg s dg);; mret 0
  else mret 0.

(** [e], [h]: the answer of kal_datagram_open or of kal_net_connect. *)
Definition okm_sock_connect (fd : Z) (addr : option (list Z)) (len : Z) (e : kal_error) (h : Z) : M net Z :=
  n ← gets id;
  match sock_of n fd with
  | inl r => mret r
  | inr (i, d, k) =>
      s ← get_sock k;
      match to_endpoint addr_size addr len with
      | inl r => mret r
      | inr ep =>
          if k_type s =? SOCK_DGRAM then
            if negb have_dgram then mret (- ENOSYS)
            else
              r ← ensure_dgram k s e h;
              if negb (r =? 0) then mret r
              else put_socks k (fun s => set_peer s ep);; mret 0
          else if bool_decide (k_state s = OKM_SOCK_CONN) then mret (- EISCONN)
          else if negb (bool_decide (k_state s = OKM_SOCK_NEW)) then mret (- EINVAL)
          else if negb have_net then mret (- ENOSYS)
          else
            n_ask (Q_open (if bool_decide (e = kal_ok) then Some (H_conn h) else None) (At (Some ep)));;
            if negb (bool_decide (e = kal_ok)) then mret (- okm_errno e)
            else
              put_sock k (set_peer (set_conn s h) ep);;
              in_fds (put_desc i (with_stream d (net_stream h)));;
              mret 0
      end
  end.

(** [e], [ep]: the answer of the environment, where it is asked. *)
Definition okm_sock_name (fd : Z) (out : sa_out) (peer : bool) (e : kal_error) (ep : endpoint) : M net (Z * sa_out) :=
  n ← gets id;
  match sock_of n fd with
  | inl r => mret (r, out)
  | inr (_, d, k) =>
      s ← get_sock k;
      match out with
      | (Some _, Some _) =>
          let answer := if bool_decide (e = kal_ok) then inr ep else inl (- okm_errno e) in
          let name : Z + endpoint :=
            if peer then
              if bool_decide (k_state s = OKM_SOCK_CONN) then answer
              else match k_peer s with Some p => inr p | None => inl (- ENOTCONN) end
            else match k_state s with
              | OKM_SOCK_CONN | OKM_SOCK_LISTEN | OKM_SOCK_DGRAM => answer
              | _ => match k_local s with Some p => inr p | None => inl (- EINVAL) end
              end in
          mret (match name with inl r => (r, out) | inr ep => from_endpoint ep out end)
      | _ => mret (- EFAULT, out)
      end
  end.

Definition okm_sock_shutdown (fd how : Z) (e : kal_error) : M net Z :=
  n ← gets id;
  match sock_of n fd with
  | inl r => mret r
  | inr (_, d, k) =>
      s ← get_sock k;
      if negb (bool_decide (k_state s = OKM_SOCK_CONN)) then mret (- ENOTCONN)
      else if negb (how =? SHUT_RD) && negb (how =? SHUT_WR) && negb (how =? SHUT_RDWR) then mret (- EINVAL)
      else n_ask (Q_shutdown (k_conn s) how);; mret (if bool_decide (e = kal_ok) then 0 else - okm_errno e)
  end.
End calls.

(** ** Transfers *)

(** What the environment answers to a transfer: an error, or what was moved. *)
Definition io (A : Type) : Type := kal_error + A.

Definition io_result (r : io Z) : Z := match r with inl e => - okm_errno e | inr n => n end.

Section transfers.
Context (addr_size : Z).
Context (have_dgram can_bound can_accept can_recv : bool).

(** okm_timed_read and okm_timed_write of port/src/okm_poll.c: [r] is the answer, for a
    read the bytes read. *)
Definition okm_timed_read (stream len ns : Z) (r : io (list Z)) : M net (Z * list Z) :=
  if negb can_bound then mret (- ENOSYS, [])
  else if len =? 0 then mret (0, [])
  else
    n_ask (Q_read stream len ns);;
    mret (match r with
          | inl e => (if bool_decide (e = kal_err_again) then - EAGAIN else - okm_errno e, [])
          | inr l => (Z.of_nat (length l), l)
          end).

Definition okm_timed_write (stream : Z) (buf : list Z) (ns : Z) (r : io Z) : M net Z :=
  if negb can_bound then mret (- ENOSYS)
  else if Z.of_nat (length buf) =? 0 then mret 0
  else
    n_ask (Q_write stream buf ns);;
    mret (match r with
          | inl e => if bool_decide (e = kal_err_again) then - EAGAIN else - okm_errno e
          | inr n => n
          end).

(** okm_take_ahead of port/src/okm_poll.c, of the description [i]: the count, and what
    is put in the buffer. *)
Definition okm_take_ahead (i : Z) (len : Z) : M fd_table (Z * list Z) :=
  d ← get_desc i;
  if negb (d_ahead d =? 0) && negb (len =? 0) then
    put_desc i (with_ahead d 0 (d_ahead_eof d) (d_ahead_byte d));;
    mret (1, [d_ahead_byte d])
  else if negb (d_ahead_eof d =? 0) then
    put_desc i (with_ahead d (d_ahead d) 0 (d_ahead_byte d));;
    mret (OKM_AHEAD_EOF, [])
  else mret (0, []).

Definition bound_of (d : okm_desc) (s : okm_sock) (flags : Z) (receiving : bool) : Z :=
  if has flags MSG_DONTWAIT || has (d_flags d) O_NONBLOCK then OKM_NOW_NS
  else if receiving then k_rcv_bound s else k_snd_bound s.

(** [buf] is the bytes of the caller's buffer; [e], [dg]: kal_datagram_open's answer,
    should it be asked; [r] that of the transfer. *)
Definition okm_sock_send (fd : Z) (buf : list Z) (flags : Z) (addr : option (list Z)) (alen : Z) (e : kal_error) (dg : Z) (r : io Z) : M net Z :=
  n ← gets id;
  match sock_of n fd with
  | inl r => mret r
  | inr (_, d, k) =>
      s ← get_sock k;
      if negb (without flags (Z.lor MSG_NOSIGNAL MSG_DONTWAIT) =? 0) then mret (- ENOSYS)
      else if k_type s =? SOCK_DGRAM then
        if negb have_dgram then mret (- ENOSYS)
        else
          let to := match addr with
            | Some a => to_endpoint addr_size (Some a) alen
            | None => match k_peer s with Some p => inr p | None => inl (- EDESTADDRREQ) end
            end in
          match to with
          | inl r => mret r
          | inr to =>
              o ← ensure_dgram k s e dg;
              if negb (o =? 0) then mret o
              else s ← get_sock k; n_ask (Q_send (k_dg s) buf to);; mret (io_result r)
          end
      else if negb (bool_decide (k_state s = OKM_SOCK_CONN)) then mret (- ENOTCONN)
      else if bool_decide (addr <> None) then mret (- EISCONN)
      else
        let ns := bound_of d s flags false in
        if negb (ns =? 0) then okm_timed_write (d_stream d) buf ns r
        else n_ask (Q_write (d_stream d) buf 0);; mret (io_result r)
  end.

(** [m] is the answer of the receive of a message, with whom it is from, and [r] of a
    read; the answer is the count, what is put in the buffer, and the address. *)
Definition okm_sock_recv (fd len flags : Z) (out : sa_out) (e : kal_error) (dg : Z) (m : io (list Z * endpoint)) (r : io (list Z))
    : M net (Z * list Z * sa_out) :=
  n ← gets id;
  match sock_of n fd with
  | inl r => mret (r, [], out)
  | inr (i, d, k) =>
      s ← get_sock k;
      if negb (without flags (Z.lor MSG_NOSIGNAL MSG_DONTWAIT) =? 0) then mret (- ENOSYS, [], out)
      else if k_type s =? SOCK_DGRAM then
        if negb have_dgram then mret (- ENOSYS, [], out)
        else
          o ← ensure_dgram k s e dg;
          if negb (o =? 0) then mret (o, [], out)
          else
            s ← get_sock k;
            match k_msg s with
            | Some (msg, from) =>
                let got := take (Z.to_nat len) msg in
                put_sock k (set_msg s None (k_buf s));;
                mret (Z.of_nat (length got), got, (from_endpoint from out).2)
            | None =>
                let ns := bound_of d s flags true in
                if negb (ns =? 0) && negb can_recv then mret (- ENOSYS, [], out)
                else
                  n_ask (Q_recv (k_dg s) len ns);;
                  mret (match m with
                        | inl e => (if negb (ns =? 0) && bool_decide (e = kal_err_again) then - EAGAIN else - okm_errno e, [], out)
                        | inr (msg, from) => (Z.of_nat (length msg), msg, (from_endpoint from out).2)
                        end)
            end
      else if negb (bool_decide (k_state s = OKM_SOCK_CONN)) then mret (- ENOTCONN, [], out)
      else
        let out := match out with (Some a, Some _) => (Some a, Some 0) | _ => out end in
        held ← in_fds (okm_take_ahead i len);
        if held.1 =? OKM_AHEAD_EOF then mret (0, [], out)
        else if negb (held.1 =? 0) then mret (held.1, held.2, out)
        else
          let ns := bound_of d s flags true in
          if negb (ns =? 0) then x ← okm_timed_read (d_stream d) len ns r; mret (x.1, x.2, out)
          else
            n_ask (Q_read (d_stream d) len 0);;
            mret (match r with
                  | inl e => (- okm_errno e, [], out)
                  | inr l => (Z.of_nat (length l), l, out)
                  end)
  end.

(** ** Options *)

Definition sizeof_timeval : Z := 16.
Definition sizeof_int : Z := 4.

(** The bound of a timeval, which is two signed 64-bit numbers, and of one too short. *)
Definition ns_of_timeval (tv : Z * Z) (len : Z) : Z :=
  if len <? sizeof_timeval then 2 ^ 64 - 1
  else if (tv.1 =? 0) && (tv.2 =? 0) then 0
  else
    let ns := wrap64 (wrap64 tv.1 * 1000000000 + wrap64 tv.2 * 1000) in
    if ns =? 0 then OKM_NOW_NS else ns.

Definition okm_sock_setopt (fd level opt : Z) (tv : Z * Z) (len : Z) : M net Z :=
  n ← gets id;
  match sock_of n fd with
  | inl r => mret r
  | inr (_, d, k) =>
      s ← get_sock k;
      if negb (level =? SOL_SOCKET) then mret (- ENOPROTOOPT)
      else if opt =? SO_REUSEADDR then mret 0
      else if (opt =? SO_RCVTIMEO) || (opt =? SO_SNDTIMEO) then
        let ns := ns_of_timeval tv len in
        if ns =? 2 ^ 64 - 1 then mret (- EINVAL)
        else if negb (ns =? 0) && negb can_bound then mret (- ENOSYS)
        else
          put_sock k (if opt =? SO_RCVTIMEO then set_bounds s ns (k_snd_bound s) else set_bounds s (k_rcv_bound s) ns);;
          mret 0
      else mret (- ENOPROTOOPT)
  end.

(** What an option is written as, and its size. *)
Inductive optval := V_int (v : Z) | V_timeval (sec usec : Z).

(** [len]: the room the caller has for the value, if it gave a place for it. *)
Definition okm_sock_getopt (fd level opt : Z) (len : option Z) : M net (Z + optval * Z) :=
  n ← gets id;
  match sock_of n fd with
  | inl r => mret (inl r)
  | inr (_, d, k) =>
      s ← get_sock k;
      if negb (level =? SOL_SOCKET) then mret (inl (- ENOPROTOOPT))
      else match len with
      | None => mret (inl (- EFAULT))
      | Some len =>
          if (opt =? SO_TYPE) || (opt =? SO_ERROR) then
            if len <? sizeof_int then mret (inl (- EINVAL))
            else mret (inr (V_int (if opt =? SO_TYPE then k_type s else 0), sizeof_int))
          else if (opt =? SO_RCVTIMEO) || (opt =? SO_SNDTIMEO) then
            if len <? sizeof_timeval then mret (inl (- EINVAL))
            else
              let ns := if opt =? SO_RCVTIMEO then k_rcv_bound s else k_snd_bound s in
              mret (inr (V_timeval (ns / 1000000000) (ns mod 1000000000 / 1000), sizeof_timeval))
          else mret (inl (- ENOPROTOOPT))
      end
  end.

(** ** Readiness *)

Inductive sock_shape := OKM_SOCK_SHAPE_IDLE | OKM_SOCK_SHAPE_STREAM | OKM_SOCK_SHAPE_OWN.

#[export] Instance sock_shape_eq_dec : EqDecision sock_shape.
Proof. solve_decision. Defined.

Definition okm_sock_shape (d : okm_desc) : M net sock_shape :=
  match slot_of d with
  | None => mret OKM_SOCK_SHAPE_IDLE
  | Some k =>
      s ← get_sock k;
      mret (match k_state s with
            | OKM_SOCK_CONN => OKM_SOCK_SHAPE_STREAM
            | OKM_SOCK_LISTEN | OKM_SOCK_DGRAM => OKM_SOCK_SHAPE_OWN
            | _ => OKM_SOCK_SHAPE_IDLE
            end)
  end.

(** [e], [c]: kal_timeout_accept's answer; [alloc]: malloc's, should it be asked; [m]:
    kal_timeout_recv_from's. *)
Definition okm_sock_wait_in (d : okm_desc) (ns : Z) (e : kal_error) (c : Z) (alloc : bool) (m : io (list Z * endpoint)) : M net Z :=
  match slot_of d with
  | None => mret (- EBADF)
  | Some k =>
      s ← get_sock k;
      match k_state s with
      | OKM_SOCK_LISTEN =>
          if bool_decide (k_pend s <> None) then mret 1
          else if negb can_accept then mret (- ENOSYS)
          else
            n_ask (Q_open (if bool_decide (e = kal_ok) then Some (H_conn c) else None) (Accepted (k_lis s) ns));;
            if bool_decide (e = kal_err_again) then mret 0
            else if negb (bool_decide (e = kal_ok)) then mret (- okm_errno e)
            else put_sock k (set_pend s (Some c));; mret 1
      | OKM_SOCK_DGRAM =>
          if bool_decide (k_msg s <> None) then mret 1
          else if negb can_recv then mret (- ENOSYS)
          else if negb (k_buf s) && negb alloc then mret (- ENOMEM)
          else
            put_sock k (set_msg s None true);;
            n_ask (Q_recv (k_dg s) OKM_DGRAM_MAX ns);;
            match m with
            | inl e => mret (if bool_decide (e = kal_err_again) then 0 else - okm_errno e)
            | inr (msg, from) => put_sock k (set_msg s (Some (msg, from)) true);; mret 1
            end
      | _ => mret 0
      end
  end.
End transfers.
