(* ===== verification/NetOk.v ===== *)
(** The table of sockets beside the table of descriptors: a slot in use is one
    description's, and what a slot holds of the environment is open until it is
    given back, once. *)
From S2P Require Import Prelude Kal FdTable FdTableOk FdTheorems Net.
From stdpp Require Import base list option.
From Stdlib Require Import ZArith Lia.

#[local] Open Scope Z_scope.

(** ** What the operations of the descriptor table do not do
    They forget nothing that was given back, and what they keep to close later is
    never a socket. *)

Definition calm (t : fd_table) : Prop := Forall (fun e => d_kind e.2 <> OKM_SOCKET) (g_settling t).
Definition tame (t t' : fd_table) : Prop := closed t `suffix_of` closed t' /\ (calm t -> calm t').
Definition obeys {A} (e : M fd_table A) : Prop := forall t x t', e t = Some (x, t') -> tame t t'.

Create HintDb tame.

Lemma tame_refl t : tame t t.
Proof. done. Qed.

Lemma tame_trans t1 t2 t3 : tame t1 t2 -> tame t2 t3 -> tame t1 t3.
Proof. intros [H1 G1] [H2 G2]. split; [by etrans|auto]. Qed.

Lemma obeys_ret {A} (x : A) : obeys (mret x).
Proof. intros t y t' [= <- <-]. apply tame_refl. Qed.

Lemma obeys_bind {A B} (e : M fd_table A) (k : A -> M fd_table B) : obeys e -> (forall x, obeys (k x)) -> obeys (e ≫= k).
Proof.
  intros He Hk t y t'. unfold mbind, M_bind. destruct (e t) as [[x t1]|] eqn:E; [|done]. intros E'.
  eapply tame_trans; [by eapply He|by eapply Hk].
Qed.

Lemma obeys_gets {A} (f : fd_table -> A) : obeys (gets f).
Proof. intros t x t' [= <- <-]. apply tame_refl. Qed.

Lemma obeys_try {A} (f : fd_table -> option A) : obeys (try f).
Proof. intros t x t'. unfold try. destruct (f t); [|done]. intros [= <- <-]. apply tame_refl. Qed.

Lemma obeys_put_try f : (forall t t', f t = Some t' -> closed t' = closed t /\ g_settling t' = g_settling t) -> obeys (put_try f).
Proof.
  intros H t x t'. unfold put_try. destruct (f t) as [t1|] eqn:E; [|done]. intros [= <- <-]. destruct (H _ _ E) as [E1 E2].
  split; [by rewrite E1|]. unfold calm. by rewrite E2.
Qed.

Lemma obeys_when b e : obeys e -> obeys (when b e).
Proof. intros H. unfold when. destruct b; [done|apply obeys_ret]. Qed.

Lemma obeys_if {A} (b : bool) (e e' : M fd_table A) : obeys e -> obeys e' -> obeys (if b then e else e').
Proof. by destruct b. Qed.

#[export] Hint Resolve obeys_ret obeys_bind obeys_gets obeys_try obeys_when obeys_if : tame.

Lemma obeys_get_desc d : obeys (get_desc d).
Proof. apply obeys_try. Qed.
Lemma obeys_get_fd fd : obeys (get_fd fd).
Proof. apply obeys_try. Qed.
Lemma obeys_put_desc d p : obeys (put_desc d p).
Proof. apply obeys_put_try. intros t t'. by destruct (set_at _ _ _); intros [= <-]. Qed.
Lemma obeys_put_fd fd e : obeys (put_fd fd e).
Proof. apply obeys_put_try. intros t t'. by destruct (set_at _ _ _); intros [= <-]. Qed.

#[export] Hint Resolve obeys_get_desc obeys_get_fd obeys_put_desc obeys_put_fd : tame.

Ltac names_only := apply obeys_put_try; intros ? ?; repeat (match goal with |- context [?e ≫= _] => destruct e; cbn [mbind option_bind]; [|done] end); by intros [= <-].

Lemma obeys_path_slot_clear s : obeys (path_slot_clear s).
Proof. unfold path_slot_clear. names_only. Qed.

Lemma obeys_path_slot_free s : obeys (path_slot_free s).
Proof. unfold path_slot_free. apply obeys_bind; [apply obeys_path_slot_clear|]. intros _. names_only. Qed.

Lemma obeys_path_slot_alloc : obeys path_slot_alloc.
Proof.
  unfold path_slot_alloc. apply obeys_bind; [apply obeys_gets|]. intros t. destruct (scan_from _ _ _); [|apply obeys_ret].
  apply obeys_bind; [|intros; apply obeys_ret]. names_only.
Qed.

#[export] Hint Resolve obeys_path_slot_clear obeys_path_slot_free obeys_path_slot_alloc : tame.

Lemma obeys_settle me p : obeys (settle true me p).
Proof.
  intros t x t'. unfold settle, close_owned. monad. change (id t) with t.
  assert (forall l, tame t (with_closed t (l ++ closed t))) as Hc by (intros l; split; [by exists l|done]).
  assert (d_kind p <> OKM_SOCKET -> tame t (with_settling t (g_settling t ++ [(me, p)]))) as Hs.
  { intros Hk. split; [done|]. unfold calm. cbn [g_settling with_settling]. intros H. apply Forall_app. split; [done|by repeat constructor]. }
  destruct (d_kind p) eqn:Ek; try split_if; intros [= <- <-]; first [apply tame_refl | apply Hc | by apply Hs].
Qed.

Lemma obeys_desc_release me d : obeys (desc_release true me d).
Proof. unfold desc_release. auto 10 using obeys_settle with tame. Qed.

Lemma obeys_desc_alloc : obeys desc_alloc.
Proof. unfold desc_alloc. apply obeys_bind; [apply obeys_gets|]. intros t. destruct (scan_from _ _ _); auto with tame. Qed.

#[export] Hint Resolve obeys_desc_release obeys_desc_alloc : tame.

Lemma obeys_fd_release me fd : obeys (okm_fd_release true me fd).
Proof. unfold okm_fd_release. auto 10 with tame. Qed.

Lemma obeys_fd_bind me fd kind stream file dir flags : obeys (okm_fd_bind true me fd kind stream file dir flags).
Proof. unfold okm_fd_bind. auto 15 with tame. Qed.

#[export] Hint Resolve obeys_fd_release obeys_fd_bind : tame.

Lemma obeys_bind_socket me fd stream flags slot : obeys (bind_socket true me fd stream flags slot).
Proof.
  unfold bind_socket. apply obeys_bind; [auto with tame|]. intros r. apply obeys_bind; [auto with tame|]. intros t.
  destruct (okm_desc_of t fd); auto with tame.
Qed.

Lemma obeys_dup_at me fd newfd c : obeys (dup_at true me fd newfd c).
Proof. unfold dup_at. auto 15 with tame. Qed.

Lemma obeys_slot_for d p : obeys (slot_for d p).
Proof. unfold slot_for. auto with tame. Qed.

Lemma obeys_remember fd abs alloc : obeys (okm_dir_remember fd abs alloc).
Proof.
  unfold okm_dir_remember. apply obeys_bind; [apply obeys_gets|]. intros t. destruct (okm_desc_of t fd); [|apply obeys_ret].
  apply obeys_bind; [apply obeys_get_desc|]. intros p. apply obeys_if; [apply obeys_ret|]. apply obeys_bind; [apply obeys_slot_for|]. intros s.
  apply obeys_if; [apply obeys_ret|]. apply obeys_bind; [apply obeys_path_slot_clear|]. intros _.
  apply obeys_if; [names_only|]. apply obeys_if; [apply obeys_ret|names_only].
Qed.

Lemma obeys_close_from me fd n : obeys (close_from true me fd n).
Proof. revert fd. induction n as [|n IH]; intros fd; cbn [close_from]; auto 10 with tame. Qed.

Lemma obeys_run_call me c : obeys (run_call me c).
Proof.
  destruct c; cbn [run_call]; unfold okm_fd_dup, okm_fd_cloexec, okm_close_all;
    auto 20 using obeys_bind_socket, obeys_dup_at, obeys_remember, obeys_close_from with tame.
Qed.

(** ** What a slot holds *)

Definition sock_handles (s : okm_sock) : list handle :=
  match k_state s with
  | OKM_SOCK_CONN => [H_conn (k_conn s)]
  | OKM_SOCK_LISTEN => [H_lis (k_lis s)]
  | OKM_SOCK_DGRAM => [H_dg (k_dg s)]
  | _ => []
  end ++ match k_pend s with Some c => [H_conn c] | None => [] end.

(** What is open after the calls, of which a close must name something that is. *)
Fixpoint open_after (cs : list net_call) : option (list handle) :=
  match cs with
  | [] => Some []
  | c :: cs' =>
      l ← open_after cs';
      match c with
      | Q_open (Some h) _ => Some (h :: l)
      | Q_close h => remove_one h l
      | _ => Some l
      end
  end.

Definition slot_number (r : resource) : list Z := match r with R_sock k => [k] | _ => [] end.
Definition slots_of (l : list resource) : list Z := flat_map slot_number l.
(** The slots the descriptions name. *)
Definition named_slots (t : fd_table) : list Z := slots_of (flat_map owned (g_desc t)).

Definition in_use (s : okm_sock) : bool := negb (bool_decide (k_state s = OKM_SOCK_FREE)).

(** The indices, from [i] on, of the slots in use. *)
Fixpoint used_from (i : Z) (l : list okm_sock) : list Z :=
  match l with
  | [] => []
  | s :: l' => (if in_use s then [i] else []) ++ used_from (i + 1) l'
  end.
Definition used (l : list okm_sock) : list Z := used_from 0 l.

Section invariant.
Context (have_net have_dgram : bool).

(** A slot's state is one its interface is there for, and a free one holds nothing. *)
Record sane (s : okm_sock) : Prop := {
  sn_conn : k_state s = OKM_SOCK_CONN -> have_net = true;
  sn_listen : k_state s = OKM_SOCK_LISTEN -> have_net = true;
  sn_dgram : k_state s = OKM_SOCK_DGRAM -> have_dgram = true;
  sn_pend : k_pend s <> None -> k_state s = OKM_SOCK_LISTEN;
}.

(** In the midst of a call [x] is open and in no slot, and the slots [y] are in use and
    no description's; between calls neither is anything. *)
Record net_inv (x : list handle) (y : list Z) (n : net) : Prop := {
  ni_table : table_ok (n_fds n);
  ni_calm : calm (n_fds n);
  ni_len : Z.of_nat (length (n_sock n)) = OKM_MAX_SOCK;
  ni_sane : Forall sane (n_sock n);
  ni_slots : used (n_sock n) ≡ₚ y ++ named_slots (n_fds n);
  ni_open : exists l, open_after (n_calls n) = Some l /\ l ≡ₚ x ++ flat_map sock_handles (n_sock n);
}.

Lemma sane_free_handles s : sane s -> in_use s = false -> sock_handles s = [].
Proof using.
intros Hs Hf. unfold in_use in Hf. apply negb_false_iff, bool_decide_eq_true in Hf. unfold sock_handles. rewrite Hf. cbn [app].
destruct (k_pend s) eqn:E; [|done]. destruct Hs as [_ _ _ H]. rewrite E, Hf in H. by discriminate H.
Qed.
End invariant.

Lemma used_from_insert i l k s s' : l !! k = Some s -> in_use s' = in_use s -> used_from i (<[k := s']> l) = used_from i l.
Proof.
  revert i k. induction l as [|z l IH]; intros i [|k] Hk E; try done; cbn [insert list_insert used_from].
  - injection Hk as ->. by rewrite E.
  - f_equal. by apply IH.
Qed.

Lemma used_from_free i l k s s' : l !! k = Some s -> in_use s = false -> in_use s' = true ->
  used_from i (<[k := s']> l) ≡ₚ (i + Z.of_nat k) :: used_from i l.
Proof.
  revert i k. induction l as [|z l IH]; intros i [|k] Hk E E'; try done; cbn [insert list_insert used_from].
  - injection Hk as ->. rewrite E, E'. cbn [app]. by rewrite Z.add_0_r.
  - change (list_insert k s' l) with (<[k := s']> l). rewrite (IH (i + 1) k Hk E E').
    replace (i + 1 + Z.of_nat k) with (i + Z.of_nat (S k)) by lia. by rewrite Permutation_middle.
Qed.

Lemma used_from_elem i l k : k ∈ used_from i l <-> exists s, at_ l (k - i) = Some s /\ in_use s = true.
Proof.
  revert i. induction l as [|z l IH]; intros i; cbn [used_from].
  - split; [by intros ?%not_elem_of_nil|]. intros (s & H%at_lookup & _). done.
  - rewrite elem_of_app, IH. assert (forall s, at_ l (k - (i + 1)) = Some s <-> k <> i /\ at_ (z :: l) (k - i) = Some s) as Hsh.
    { intros s. unfold at_. split_ifs; try lia.
      - replace (Z.to_nat (k - i)) with (S (Z.to_nat (k - (i + 1)))) by lia. cbn. intuition lia.
      - split; [done|]. intros [? _]. lia.
      - split; [done|]. intros []. done. }
    split.
    + intros [H|(s & H & E)]; [|apply Hsh in H as [_ H]; eauto]. destruct (in_use z) eqn:Ez; [|by apply not_elem_of_nil in H].
      apply list_elem_of_singleton in H as ->. exists z. rewrite Z.sub_diag. auto.
    + intros (s & H & E). destruct (decide (k = i)) as [-> |Hne]; [|right; exists s; split; [by apply Hsh|done]].
      rewrite Z.sub_diag in H. cbn in H. injection H as <-. left. rewrite E. by left.
Qed.

Lemma used_elem l k : k ∈ used l <-> exists s, at_ l k = Some s /\ in_use s = true.
Proof. unfold used. rewrite used_from_elem. by rewrite Z.sub_0_r. Qed.

(** ** Slots *)

Lemma get_sock_eq n k s : at_ (n_sock n) k = Some s -> get_sock k n = Some (s, n).
Proof. unfold get_sock, try. by intros ->. Qed.

Lemma put_sock_eq n k s s' : at_ (n_sock n) k = Some s -> put_sock k s' n = Some ((), Net (n_fds n) (<[Z.to_nat k := s']> (n_sock n)) (n_calls n)).
Proof. intros H%at_range. unfold put_sock, put_try. by rewrite set_at_some. Qed.

Section slots.
Context (have_net have_dgram : bool).
Abbreviation inv := (net_inv have_net have_dgram).

(** The calls [cs] open [opened] and close [shut], of [rest] and what they opened. *)
Definition effect (cs : list net_call) (opened shut : list handle) : Prop :=
  forall cs' l rest, open_after cs' = Some l -> l ++ opened ≡ₚ shut ++ rest -> exists l', open_after (cs ++ cs') = Some l' /\ l' ≡ₚ rest.

Lemma effect_nil : effect [] [] [].
Proof using. intros cs' l rest H E. rewrite app_nil_r in E. eauto. Qed.

Lemma effect_open h ep : effect [Q_open (Some h) ep] [h] [].
Proof using. intros cs' l rest H E. cbn [app open_after]. rewrite H. cbn [mbind option_bind]. eexists. split; [done|]. rewrite <-E. by rewrite Permutation_app_comm. Qed.

Lemma effect_close h : effect [Q_close h] [] [h].
Proof using.
intros cs' l rest H E. rewrite app_nil_r in E. cbn [app open_after]. rewrite H. cbn [mbind option_bind]. by apply remove_one_perm.
Qed.

(** A call that opens nothing and closes nothing. *)
Definition plain_call (c : net_call) : bool := match c with Q_open (Some _) _ | Q_close _ => false | _ => true end.

Lemma effect_plain c : plain_call c = true -> effect [c] [] [].
Proof using.
intros Hc cs' l rest H E. rewrite app_nil_r in E. cbn [app open_after]. rewrite H. cbn [mbind option_bind]. exists l. split; [|done].
destruct c as [[]| | | | | | |]; done.
Qed.

Lemma effect_app cs1 cs2 o s1 s2 : effect cs2 o s2 -> effect cs1 [] s1 -> effect (cs1 ++ cs2) o (s2 ++ s1).
Proof using.
intros H2 H1 cs' l rest H E. rewrite <-app_assoc in E. destruct (H2 _ _ _ H E) as (l2 & E2 & P2).
rewrite <-app_assoc. apply (H1 _ l2); [done|]. by rewrite app_nil_r.
Qed.

(** A slot in use changes, with what it holds, as calls are made. *)
Lemma inv_slot x x' y n k s s' cs opened shut :
  inv x y n -> at_ (n_sock n) k = Some s -> in_use s = true -> in_use s' = true -> sane have_net have_dgram s' ->
  effect cs opened shut -> x ++ sock_handles s ++ opened ≡ₚ shut ++ x' ++ sock_handles s' ->
  inv x' y (Net (n_fds n) (<[Z.to_nat k := s']> (n_sock n)) (cs ++ n_calls n)).
Proof using.
intros [Ht Hcalm Hlen Hsane Hslots (l & Hl & Hp)] Hk Hu Hu' Hs' He Hh. apply at_lookup in Hk as Hk'.
constructor; cbn [n_fds n_sock n_calls]; [done|done|by rewrite length_insert|by apply Forall_insert| |].
- unfold used. by rewrite (used_from_insert _ _ _ s) by congruence.
- apply (He _ l); [done|]. pose proof (flat_map_insert sock_handles _ _ s' _ Hk') as E. perm.
Qed.

Lemma inv_perm x x' y y' n : x ≡ₚ x' -> y ≡ₚ y' -> inv x y n -> inv x' y' n.
Proof using.
intros Hx Hy [Ht Hcalm Hlen Hsane Hslots (l & Hl & Hp)]. constructor; auto; [by rewrite <-Hy|]. exists l. split; [done|]. by rewrite <-Hx.
Qed.

(** Calls are made and no slot changes. *)
Lemma inv_calls x x' y n cs opened shut :
  inv x y n -> effect cs opened shut -> x ++ opened ≡ₚ shut ++ x' -> inv x' y (Net (n_fds n) (n_sock n) (cs ++ n_calls n)).
Proof using.
intros [Ht Hcalm Hlen Hsane Hslots (l & Hl & Hp)] He Hx. constructor; auto. cbn [n_calls n_sock]. apply (He _ l); [done|]. perm.
Qed.

Lemma slot_alloc_ok x y n : inv x y n ->
  exists k n', slot_alloc n = Some (k, n') /\
    ((k = -1 /\ n' = n) \/
     (0 <= k /\ inv x (k :: y) n' /\ n_fds n' = n_fds n /\ exists s, at_ (n_sock n') k = Some s /\ k_state s = OKM_SOCK_NEW /\ k_pend s = None)).
Proof using.
intros [Ht Hcalm Hlen Hsane Hslots (l & Hl & Hp)]. unfold slot_alloc, mbind, M_bind, gets. change (id n) with n.
destruct (scan_from _ _ 0) as [k|] eqn:E; [|exists (-1), n; split; [done|by left]].
apply scan_from_some in E as (Hk & (s & Hs & Hfree) & _). rewrite Z.sub_0_r in Hs. pose proof (at_lookup _ _ _ Hs) as Hs'.
rewrite (get_sock_eq _ _ _ Hs), (put_sock_eq _ _ _ _ Hs). set (s' := Sock OKM_SOCK_NEW _ _ _ _ _ _ _ _ _ _ _ _ _).
do 2 eexists. split; [reflexivity|]. right. split; [lia|].
assert (in_use s = false) as Hu by (unfold in_use; by rewrite Hfree).
assert (sock_handles s = []) as Hh.
{ eapply sane_free_handles; [|done]. rewrite Forall_lookup in Hsane. by apply Hsane in Hs'. }
split; [|split; [done|]; exists s'; split; [cbn [n_sock]; rewrite at_insert, Z.eqb_refl by lia; done|done]].
constructor; cbn [n_fds n_sock n_calls]; [done|done|by rewrite length_insert| | |].
- apply Forall_insert; [done|]. by constructor.
- unfold used. rewrite (used_from_free _ _ _ s) by done. rewrite Z.add_0_l, Z2Nat.id by lia. cbn [app]. by constructor.
- exists l. split; [done|]. pose proof (flat_map_insert sock_handles _ _ s' _ Hs') as E'. change (sock_handles s') with ([] : list handle) in E'.
  rewrite Hh in E'. perm.
Qed.

(** What giving a slot back closes, the latest first. *)
Definition closings (s : okm_sock) : list net_call :=
  match k_pend s with Some c => [Q_close (H_conn c)] | None => [] end ++
  match k_state s with
  | OKM_SOCK_CONN => [Q_close (H_conn (k_conn s))]
  | OKM_SOCK_LISTEN => [Q_close (H_lis (k_lis s))]
  | OKM_SOCK_DGRAM => [Q_close (H_dg (k_dg s))]
  | _ => []
  end.

Lemma closings_effect s : effect (closings s) [] (sock_handles s).
Proof using. unfold closings, sock_handles. apply effect_app; [destruct (k_state s)|destruct (k_pend s)]; auto using effect_close, effect_nil. Qed.

Lemma release_eq n k s : 0 <= k < OKM_MAX_SOCK -> at_ (n_sock n) k = Some s -> sane have_net have_dgram s ->
  okm_sock_release have_net have_dgram k n =
  Some ((), Net (n_fds n) (<[Z.to_nat k := set_msg (set_pend (set_state s OKM_SOCK_FREE) None) None (k_buf s)]> (n_sock n)) (closings s ++ n_calls n)).
Proof using.
intros Hk Hs Hsane. unfold okm_sock_release. split_if; [lia|]. unfold n_ask. monad. rewrite (get_sock_eq _ _ _ Hs).
destruct Hsane as [H1 H2 H3 H4]. unfold closings.
assert (k_pend s <> None -> have_net = true) as H5 by auto.
destruct (k_pend s) as [c|]; [rewrite H5 by done|]; destruct (k_state s) eqn:E; rewrite ?H1, ?H2, ?H3 by done;
  by rewrite (put_sock_eq _ _ s) by done.
Qed.

Lemma sock_release_ok x y n k : inv x (k :: y) n ->
  exists socks calls, okm_sock_release have_net have_dgram k n = Some ((), Net (n_fds n) socks calls) /\ inv x y (Net (n_fds n) socks calls).
Proof using.
intros Hn. pose proof Hn as [Ht Hcalm Hlen Hsane Hslots (l & Hl & Hp)].
assert (k ∈ used (n_sock n)) as (s & Hs & Hu)%used_elem by (rewrite Hslots; by left).
pose proof (at_lookup _ _ _ Hs) as Hs'. pose proof (at_range _ _ _ Hs) as Hr.
assert (sane have_net have_dgram s) as Hsn by (rewrite Forall_lookup in Hsane; eauto).
rewrite (release_eq n k s) by (done || lia). do 2 eexists. split; [done|]. set (s' := set_msg _ _ _).
constructor; cbn [n_fds n_sock n_calls]; [done|done|by rewrite length_insert|apply Forall_insert; [done|by constructor]| |].
- pose proof (used_from_free 0 (<[Z.to_nat k := s']> (n_sock n)) (Z.to_nat k) s' s) as E. rewrite list_insert_insert_eq, (list_insert_id _ _ s) in E by done.
  rewrite Z.add_0_l, Z2Nat.id in E by lia. assert ((<[Z.to_nat k := s']> (n_sock n)) !! Z.to_nat k = Some s') as El by (apply list_lookup_insert_eq; lia).
  specialize (E El eq_refl Hu). unfold used in *. perm.
- apply (closings_effect s _ l); [done|]. pose proof (flat_map_insert sock_handles _ _ s' _ Hs') as E'. change (sock_handles s') with ([] : list handle) in E'. perm.
Qed.

Lemma release_all_ok rs x y n : inv x (slots_of rs ++ y) n ->
  exists socks calls, release_all have_net have_dgram rs n = Some ((), Net (n_fds n) socks calls) /\ inv x y (Net (n_fds n) socks calls).
Proof using.
revert n. induction rs as [|r rs IH]; intros n Hn; cbn [release_all].
- exists (n_sock n), (n_calls n). by destruct n.
- destruct r; cbn [slots_of flat_map slot_number app] in Hn; try by apply IH.
  destruct (sock_release_ok _ _ _ _ Hn) as (socks & cs & E & Hn'). unfold mbind, M_bind. rewrite E. by apply IH in Hn'.
Qed.

(** ** The table of descriptors beneath *)

Lemma slots_of_app l l' : slots_of (l ++ l') = slots_of l ++ slots_of l'.
Proof using. apply flat_map_app. Qed.

Lemma slots_of_perm l l' : l ≡ₚ l' -> slots_of l ≡ₚ slots_of l'.
Proof using. intros H. unfold slots_of. by rewrite H. Qed.

Lemma calm_slots t : calm t -> slots_of (flat_map (fun e => owned e.2) (g_settling t)) = [].
Proof using.
intros H. induction H as [|e l He _ IH]; [done|]. cbn [flat_map]. rewrite slots_of_app, IH, app_nil_r.
unfold owned, closes. by destruct (d_kind e.2).
Qed.

(** What a step of the table of descriptors was given, and what it gave back. *)
Lemma named_step t t' g : calm t -> tame t t' -> held t' ≡ₚ g ++ held t ->
  exists new, closed t' = new ++ closed t /\ calm t' /\ named_slots t' ++ slots_of new ≡ₚ slots_of g ++ named_slots t.
Proof using.
intros Hc [[new En] Hc'] Hh. exists new. split; [done|]. split; [auto|]. apply slots_of_perm in Hh. unfold held in Hh. rewrite En in Hh.
rewrite !slots_of_app, (calm_slots t Hc), (calm_slots t') in Hh by auto. unfold named_slots. perm.
Qed.

Lemma inv_fds x y y' n t' g : inv x y n -> table_ok t' -> tame (n_fds n) t' -> held t' ≡ₚ g ++ held (n_fds n) ->
  closed t' = closed (n_fds n) -> y ≡ₚ slots_of g ++ y' -> inv x y' (Net t' (n_sock n) (n_calls n)).
Proof using.
intros [Ht Hcalm Hlen Hsane Hslots Hopen] Ht' Htame Hh Hcl Hy. destruct (named_step _ _ _ Hcalm Htame Hh) as (new & En & Hcalm' & Hnamed).
rewrite Hcl in En. assert (new = []) as -> by (apply (app_inv_tail (closed (n_fds n))); by rewrite <-En).
constructor; auto. cbn [n_fds n_sock]. cbn [slots_of flat_map] in Hnamed. perm.
Qed.

Lemma on_fds_ok {A} (e : M fd_table A) x y y' n r t' g : inv x y n -> e (n_fds n) = Some (r, t') -> table_ok t' -> tame (n_fds n) t' ->
  held t' ≡ₚ g ++ held (n_fds n) -> y ≡ₚ slots_of g ++ y' ->
  exists n', on_fds have_net have_dgram e n = Some (r, n') /\ inv x y' n'.
Proof using.
intros [Ht Hcalm Hlen Hsane Hslots Hopen] E Ht' Htame Hh Hy. destruct (named_step _ _ _ Hcalm Htame Hh) as (new & En & Hcalm' & Hnamed).
unfold on_fds. rewrite E, En, length_app, Nat.add_sub, take_app_length.
assert (slots_of (rev new) ≡ₚ slots_of new) as Hrev by (apply slots_of_perm; by rewrite <-Permutation_rev).
destruct (release_all_ok (rev new) x y' (Net t' (n_sock n) (n_calls n))) as (socks & cs & -> & Hn').
- constructor; auto. cbn [n_fds n_sock]. perm.
- eexists. split; [done|]. exact Hn'.
Qed.

Lemma sock_of_ok x y n fd i d k : inv x y n -> sock_of n fd = inr (i, d, k) ->
  okm_desc_of (n_fds n) fd = Some i /\ at_ (g_desc (n_fds n)) i = Some d /\ d_kind d = OKM_SOCKET /\ d_sock d = k /\
  exists s, at_ (n_sock n) k = Some s /\ in_use s = true /\ sane have_net have_dgram s.
Proof using.
intros [Ht Hcalm Hlen Hsane Hslots Hopen]. unfold sock_of. destruct (okm_desc_of (n_fds n) fd) as [j|]; cbn [mbind option_bind]; [|done].
destruct (at_ (g_desc (n_fds n)) j) as [p|] eqn:Ep; cbn [mbind option_bind]; [|done]. unfold slot_of.
destruct (bool_decide (d_kind p = OKM_SOCKET)) eqn:Ek; cbn [negb]; [|done]. apply bool_decide_eq_true in Ek. split_if; [done|].
intros [= <- <- <-]. split_and!; auto.
assert (d_sock p ∈ used (n_sock n)) as (s & Hs & Hu)%used_elem.
{ rewrite Hslots. apply elem_of_app. right. unfold named_slots, slots_of. apply list_elem_of_In, in_flat_map. exists (R_sock (d_sock p)).
  split; [|by left]. apply in_flat_map. exists p. split; [apply list_elem_of_In; eapply list_elem_of_lookup_2; by apply at_lookup|].
  unfold owned, closes. rewrite Ek. by left. }
exists s. split_and!; auto. rewrite Forall_lookup in Hsane. apply at_lookup in Hs. eauto.
Qed.

(** A description's fields that no count and no slot hangs on. *)
Lemma inv_desc x y n i d d' : inv x y n -> at_ (g_desc (n_fds n)) i = Some d -> 0 < d_refs d -> d_refs d' = d_refs d ->
  d_path_slot d' = d_path_slot d -> owned d' = owned d ->
  inv x y (Net (with_desc (n_fds n) (<[Z.to_nat i := d']> (g_desc (n_fds n)))) (n_sock n) (n_calls n)).
Proof using.
intros Hn Hd Hl Hr Hp Ho. pose proof Hn as [Ht Hcalm _ _ _ _]. apply (inv_fds x y y n _ []); auto; [|done|].
- destruct Ht as [Hc Hpl Hs]. constructor; cbn; [by apply (counted_fields _ _ _ i d)|apply (pooled_same _ _ _ _ _ _ d); auto; lia|done].
- unfold held. cbn [g_desc g_settling closed with_desc app]. pose proof (flat_map_insert owned _ _ d' _ (at_lookup _ _ _ Hd)) as E. rewrite Ho in E. perm.
Qed.
End slots.
