(* ===== verification/NetTheorems.v ===== *)
(** What the calls on sockets promise: everything the environment gives a socket is held
    by its slot and given back once, and no call leaves a table. *)
From S2P Require Import Prelude Kal FdTable FdTableOk FdTheorems Net NetOk.
From stdpp Require Import base list option relations.
From Stdlib Require Import ZArith Lia.

#[local] Open Scope Z_scope.

(** ** A descriptor for a socket *)

Lemma fd_alloc_free t fd : table_ok t -> okm_fd_alloc t 0 = fd -> 0 <= fd -> fd < OKM_MAX_FD /\ okm_desc_of t fd = None.
Proof.
  intros Ht E Hfd. change (match scan_from (fun e => e.1 =? OKM_FD_FREE) (g_fd t) 0 with Some i => i | None => - EMFILE end = fd) in E.
  destruct (scan_from _ _ _) as [i|] eqn:Es; [|subst fd; unfold EMFILE in Hfd; lia]. subst i. apply scan_from_some in Es as (Hr & (e & He & Hf) & _).
  rewrite Z.sub_0_r in He. pose proof Ht as [Hc _ _]. pose proof (ct_fds _ _ _ Hc). split; [lia|].
  unfold okm_desc_of. split_if; [done|]. rewrite He. cbn [mbind option_bind]. unfold OKM_FD_FREE in Hf. by destruct (e.1 <? 0) eqn:?; boolean; [|lia].
Qed.

(** Every descriptor names something. *)
Definition all_used (t : fd_table) : Prop := forall j, 0 <= j < OKM_MAX_FD -> okm_desc_of t j <> None.

Lemma alloc_none t : table_ok t -> okm_fd_alloc t 0 < 0 -> okm_fd_alloc t 0 = - EMFILE /\ all_used t.
Proof.
  intros Ht. change (okm_fd_alloc t 0) with (match scan_from (fun e => e.1 =? OKM_FD_FREE) (g_fd t) 0 with Some i => i | None => - EMFILE end).
  destruct (scan_from _ _ _) as [i|] eqn:Es; [intros Hi; apply scan_from_some in Es as (Hr & _); lia|]. intros _. split; [done|]. intros j Hj Hno.
  destruct (fd_entry t Ht j Hj) as (e & He & Hr). apply scan_from_none in Es. rewrite Forall_lookup in Es. apply at_lookup in He as He'. specialize (Es _ _ He').
  unfold okm_desc_of in Hno. replace ((j <? 0) || (OKM_MAX_FD <=? j)) with false in Hno by lia. rewrite He in Hno. cbn in Hno. destruct (e.1 <? 0) eqn:E; [|done]. unfold OKM_FD_FREE in Es. lia.
Qed.

Lemma bind_inv {S A B} (e : M S A) (k : A -> M S B) s r s' : (e ≫= k) s = Some (r, s') -> exists x s1, e s = Some (x, s1) /\ k x s1 = Some (r, s').
Proof. unfold mbind, M_bind. destruct (e s) as [[x s1]|]; [eauto|done]. Qed.

Lemma try_silent {A} (f : fd_table -> option A) t x t' : try f t = Some (x, t') -> t = t'.
Proof. unfold try. destruct (f t); [|done]. by intros [= _ <-]. Qed.

Lemma put_desc_silent d p t x t' : put_desc d p t = Some (x, t') -> closed t' = closed t /\ g_fd t' = g_fd t.
Proof. unfold put_desc, put_try. destruct (set_at _ _ _); [|done]. by intros [= _ <-]. Qed.

Lemma desc_alloc_silent t i t' : desc_alloc t = Some (i, t') -> closed t' = closed t /\ g_fd t' = g_fd t.
Proof.
  unfold desc_alloc. intros (t0 & t1 & [= <- <-] & E)%bind_inv. change (id t) with t in E. destruct (scan_from _ _ _); [|by injection E as _ <-].
  apply bind_inv in E as (p & t2 & Eg & E). destruct (try_silent _ _ _ _ Eg). apply bind_inv in E as ([] & t3 & Ep & [= _ <-]).
  by eapply put_desc_silent.
Qed.

Lemma bind_closed me t fd stream flags slot r t' : table_ok t -> 0 <= fd < OKM_MAX_FD -> okm_desc_of t fd = None ->
  bind_socket true me fd stream flags slot t = Some (r, t') -> r = fd /\ closed t' = closed t.
Proof.
  intros Ht Hfd Hno. assert (room t) as Hroom by (by eapply free_fd_room).
  destruct (fd_bind_ok me t fd OKM_SOCKET stream 0 0 flags Ht Hfd Hroom) as (t1 & d & pk & pn & ab & E & Ht1 & _ & _ & Hof & Hp & _).
  unfold bind_socket. monad. rewrite E. change (id t1) with t1. rewrite Hof. split_if; [lia|].
  rewrite (get_desc_eq _ _ _ Hp), (put_desc_eq _ _ _ _ Hp). intros [= <- <-]. split; [done|]. cbn [closed with_desc].
  destruct (fd_entry t Ht fd Hfd) as (e & He & _).
  assert ((e.1 <? 0) = true) as Hneg.
  { unfold okm_desc_of in Hno. rewrite He in Hno. replace ((fd <? 0) || (OKM_MAX_FD <=? fd)) with false in Hno by lia. cbn [mbind option_bind] in Hno. by destruct (e.1 <? 0). }
  revert E. unfold okm_fd_bind. replace ((fd <? 0) || (OKM_MAX_FD <=? fd)) with false by lia.
  intros (i & t2 & Ea & E)%bind_inv. destruct (desc_alloc_silent _ _ _ Ea) as [E1 E1']. destruct (i <? 0); [by injection E as _ <-|].
  apply bind_inv in E as (p2 & t3 & Eg & E). destruct (try_silent _ _ _ _ Eg). apply bind_inv in E as ([] & t4 & Ep & E).
  destruct (put_desc_silent _ _ _ _ _ Ep) as [E4 E4']. apply bind_inv in E as (e' & t5 & Ef & E). destruct (try_silent _ _ _ _ Ef).
  assert (e' = e) as ->. { revert Ef. unfold get_fd, try. rewrite E4', E1', He. by intros [= <-]. }
  unfold when in E. replace (0 <=? e.1) with false in E by lia. apply bind_inv in E as ([] & t6 & [= <-] & E).
  apply bind_inv in E as ([] & t7 & Eq & [= <-]). revert Eq. unfold put_fd, put_try. destruct (set_at (g_fd t4) fd _); [|done].
  intros [= <-]. cbn [closed with_fd]. congruence.
Qed.

Section calls.
Context (have_net have_dgram : bool) (me : Z).
Abbreviation inv := (net_inv have_net have_dgram).
(** Between calls. *)
Definition net_ok (n : net) : Prop := inv [] [] n.

(** The slot in flight goes to a free descriptor. *)
Lemma bind_socket_ok x y n fd stream flags k : inv x (k :: y) n -> okm_fd_alloc (n_fds n) 0 = fd -> 0 <= fd ->
  exists t', on_fds have_net have_dgram (bind_socket true me fd stream flags k) n = Some (fd, Net t' (n_sock n) (n_calls n)) /\
    inv x y (Net t' (n_sock n) (n_calls n)).
Proof using.
intros Hn Ef Hfd. pose proof Hn as [Ht _ _ _ _ _]. destruct (fd_alloc_free _ _ Ht Ef Hfd) as [Hlt Hno].
destruct (socket_ok me (n_fds n) fd stream flags k Ht) as (r & t' & E & Ht' & _ & _ & Hh).
destruct (bind_closed me _ fd stream flags k r t' Ht ltac:(lia) Hno E) as [-> Hcl]. exists t'. split.
- unfold on_fds. rewrite E, Hcl, Nat.sub_diag. cbn [take rev release_all]. done.
- apply (inv_fds have_net have_dgram x (k :: y) y n t' (gives (Call_socket fd stream flags k) fd)); auto; [by eapply obeys_bind_socket|].
  unfold gives. split_if; [lia|]. done.
Qed.

(** A call that answers and keeps the invariant. *)
Definition keeps {A} (n : net) (e : M net A) : Prop := exists r n', e n = Some (r, n') /\ net_ok n'.

Lemma keeps_ret {A} (x : A) n : net_ok n -> keeps n (mret x).
Proof using. intros H. by exists x, n. Qed.

Lemma keeps_bind {A B} n (e : M net A) (k : A -> M net B) : keeps n e -> (forall x n', net_ok n' -> keeps n' (k x)) -> keeps n (e ≫= k).
Proof using.
intros (x & n1 & E & H1) Hk. destruct (Hk x n1 H1) as (r & n' & E' & H'). exists r, n'. split; [|done]. unfold mbind, M_bind. by rewrite E.
Qed.

Lemma keeps_gets {A B} n (f : net -> A) (k : A -> M net B) : keeps n (k (f n)) -> keeps n (gets f ≫= k).
Proof using. done. Qed.

Lemma keeps_get_sock {B} n i s (k : okm_sock -> M net B) : at_ (n_sock n) i = Some s -> keeps n (k s) -> keeps n (get_sock i ≫= k).
Proof using. intros Hi (r & n' & E & H). exists r, n'. split; [|done]. unfold mbind, M_bind. by rewrite (get_sock_eq _ _ _ Hi). Qed.

Lemma keeps_ask {B} n c (k : unit -> M net B) : keeps (Net (n_fds n) (n_sock n) (c :: n_calls n)) (k ()) -> keeps n (n_ask c ≫= k).
Proof using. done. Qed.

Lemma keeps_put {B} n i s s' (k : unit -> M net B) : at_ (n_sock n) i = Some s ->
  keeps (Net (n_fds n) (<[Z.to_nat i := s']> (n_sock n)) (n_calls n)) (k ()) -> keeps n (put_sock i s' ≫= k).
Proof using. intros Hi (r & n' & E & H). exists r, n'. split; [|done]. unfold mbind, M_bind. by rewrite (put_sock_eq _ _ _ _ Hi). Qed.

Lemma keeps_put_first {A B} n i s s' (e : M net A) (k : A -> M net B) : at_ (n_sock n) i = Some s ->
  keeps (Net (n_fds n) (<[Z.to_nat i := s']> (n_sock n)) (n_calls n)) (e ≫= k) -> keeps n ((put_sock i s';; e) ≫= k).
Proof using. intros Hi (r & n' & E & H). exists r, n'. split; [|done]. revert E. unfold mbind, M_bind. by rewrite (put_sock_eq _ _ _ _ Hi). Qed.

(** A slot changes, what it holds not. *)
Lemma ok_slot n k s s' : net_ok n -> at_ (n_sock n) k = Some s -> in_use s = true -> in_use s' = true -> sane have_net have_dgram s' ->
  sock_handles s' = sock_handles s -> net_ok (Net (n_fds n) (<[Z.to_nat k := s']> (n_sock n)) (n_calls n)).
Proof using.
intros Hn Hk Hu Hu' Hs' Hh. apply (inv_slot have_net have_dgram [] [] [] n k s s' [] [] []); auto using effect_nil. by rewrite Hh, app_nil_r.
Qed.

(** A slot comes to hold what a call opened. *)
Lemma ok_open n k s s' h ep : net_ok n -> at_ (n_sock n) k = Some s -> in_use s = true -> in_use s' = true -> sane have_net have_dgram s' ->
  sock_handles s' ≡ₚ h :: sock_handles s -> net_ok (Net (n_fds n) (<[Z.to_nat k := s']> (n_sock n)) (Q_open (Some h) ep :: n_calls n)).
Proof using.
intros Hn Hk Hu Hu' Hs' Hh. apply (inv_slot have_net have_dgram [] [] [] n k s s' [Q_open (Some h) ep] [h] []); auto using effect_open. cbn [app]. perm.
Qed.

Lemma ok_plain n c : net_ok n -> plain_call c = true -> net_ok (Net (n_fds n) (n_sock n) (c :: n_calls n)).
Proof using. intros Hn Hc. by apply (inv_calls have_net have_dgram [] [] [] n [c] [] []); auto using effect_plain. Qed.

Lemma at_put n k (s s' : okm_sock) : at_ (n_sock n) k = Some s -> at_ (<[Z.to_nat k := s']> (n_sock n)) k = Some s'.
Proof using. intros Hk%at_range. rewrite at_insert by done. by rewrite Z.eqb_refl. Qed.

Lemma keeps_ensure n k s e h : net_ok n -> have_dgram = true -> at_ (n_sock n) k = Some s -> in_use s = true -> sane have_net have_dgram s ->
  exists r n' s', ensure_dgram k s e h n = Some (r, n') /\ net_ok n' /\ n_fds n' = n_fds n /\
    at_ (n_sock n') k = Some s' /\ in_use s' = true /\ sane have_net have_dgram s'.
Proof using.
intros Hn Hd Hs Hu Hsn. unfold ensure_dgram. destruct (bool_decide (k_state s = OKM_SOCK_NEW)) eqn:Est; [|by exists 0, n, s].
apply bool_decide_eq_true in Est. unfold n_ask. monad. destruct (bool_decide (e = kal_ok)); cbn [negb].
- rewrite (put_sock_eq _ k s) by done. exists 0. eexists. exists (set_dg s h). split; [reflexivity|]. split_and!; [|done|by eapply at_put|done|].
  + apply (ok_open n k s (set_dg s h) (H_dg h)); auto; [by destruct Hsn as [? ? ? Hp]; constructor; cbn; try done; intros H; apply Hp in H; rewrite Est in H|].
    unfold sock_handles. cbn [k_state set_dg k_dg k_pend]. by rewrite Est.
  + destruct Hsn as [? ? ? Hp]. constructor; cbn; try done. intros H. apply Hp in H. by rewrite Est in H.
- exists (- okm_errno e). eexists. exists s. split; [reflexivity|]. split_and!; auto. by apply ok_plain.
Qed.

(** A call on a descriptor's socket: the errors of one that has none, or its slot. *)
Ltac open_socket Hn :=
  apply keeps_gets;
  match goal with |- keeps ?n _ => change (id n) with n end;
  match goal with |- context [sock_of ?n ?fd] =>
    let E := fresh "E" in
    destruct (sock_of n fd) as [r0|[[i d] k]] eqn:E; [by apply keeps_ret|];
    destruct (sock_of_ok _ _ _ _ _ _ _ _ _ Hn E) as (Hof & Hd & Hkind & Hk & s & Hs & Hu & Hsn); clear E
  end;
  match goal with H : at_ (n_sock _) _ = Some ?s |- _ => apply (keeps_get_sock _ _ s); [exact H|] end.

(** The branches that answer at once. *)
Ltac answers := repeat (match goal with |- keeps _ (if ?b then mret _ else _) => destruct b eqn:?; [by apply keeps_ret|] end).

Ltac decided := repeat (match goal with
  | H : negb _ = false |- _ => apply negb_false_iff in H
  | H : bool_decide _ = true |- _ => apply bool_decide_eq_true in H
  end).

Context (addr_size : Z) (can_bound can_accept can_recv : bool) (net_stream : Z -> Z).

Lemma open_keeps domain type protocol n : net_ok n -> keeps n (okm_sock_open have_net have_dgram can_bound me domain type protocol).
Proof using.
intros Hn. unfold okm_sock_open. answers. apply keeps_gets. change (id n) with n. set (fd := okm_fd_alloc (n_fds n) 0). answers. boolean.
destruct (slot_alloc_ok _ _ _ _ _ Hn) as (k & n1 & E1 & H1). unfold keeps, mbind at 1, M_bind at 1. rewrite E1.
destruct H1 as [[-> ->] | (Hk & Hn1 & Ef & s & Hs & Hst & Hpend)]; [by exists (- ENFILE), n|].
replace (k <? 0) with false by lia. cbv zeta.
match goal with |- context [bind_socket true me fd 0 ?flags k] => destruct (bind_socket_ok [] [] n1 fd 0 flags k Hn1) as (t' & E2 & Hn2); [by rewrite Ef|done|] end.
unfold mbind, M_bind. rewrite E2. unfold put_socks, mbind, M_bind. rewrite (get_sock_eq _ _ s) by done. rewrite (put_sock_eq _ _ s) by done.
do 2 eexists. split; [reflexivity|]. apply (ok_slot (Net t' (n_sock n1) (n_calls n1)) k s); auto; try (unfold in_use; cbn; by rewrite Hst).
constructor; cbn [k_state k_pend set_ids]; rewrite ?Hst, ?Hpend; done.
Qed.

Lemma bind_keeps fd addr len e dg n : net_ok n -> keeps n (okm_sock_bind addr_size have_dgram fd addr len e dg).
Proof using.
intros Hn. unfold okm_sock_bind. open_socket Hn. answers. decided. destruct (to_endpoint addr_size addr len) as [r|ep]; [by apply keeps_ret|].
apply (keeps_put _ _ s); [done|].
assert (net_ok (Net (n_fds n) (<[Z.to_nat k := set_local s ep]> (n_sock n)) (n_calls n))) as Hn1.
{ apply (ok_slot n k s); auto. destruct Hsn; by constructor. }
destruct (k_type s =? SOCK_DGRAM); [|by apply keeps_ret]. answers. decided.
apply keeps_ask. cbn [n_fds n_sock n_calls]. destruct (bool_decide (e = kal_ok)); cbn [negb]; [|by apply keeps_ret, (ok_plain (Net _ _ _))].
apply (keeps_put _ _ (set_local s ep)); [cbn; by eapply at_put|]. apply keeps_ret.
apply (ok_open (Net (n_fds n) (<[Z.to_nat k := set_local s ep]> (n_sock n)) (n_calls n)) k (set_local s ep) _ (H_dg dg)); auto; [cbn; by eapply at_put| |].
- destruct Hsn as [? ? ? Hp]. constructor; cbn; try done. intros H. apply Hp in H. congruence.
- unfold sock_handles. cbn [k_state k_dg k_pend set_dg set_local]. by match goal with H : k_state s = OKM_SOCK_NEW |- _ => rewrite H end.
Qed.

Lemma listen_keeps fd e lis n : net_ok n -> keeps n (okm_sock_listen addr_size have_net fd e lis).
Proof using.
intros Hn. unfold okm_sock_listen. open_socket Hn. answers. decided. apply keeps_ask.
destruct (bool_decide (e = kal_ok)); cbn [negb]; [|by apply keeps_ret, ok_plain].
apply (keeps_put _ _ s); [done|]. apply keeps_ret. match goal with H : k_state s = OKM_SOCK_NEW |- _ => rename H into Hst end.
apply (ok_open n k s (set_lis s lis) (H_lis lis)); auto.
- destruct Hsn as [? ? ? Hp]. by constructor.
- unfold sock_handles. cbn [k_state k_lis k_pend set_lis]. by rewrite Hst.
Qed.

Lemma shutdown_keeps fd how e n : net_ok n -> keeps n (okm_sock_shutdown fd how e).
Proof using. intros Hn. unfold okm_sock_shutdown. open_socket Hn. answers. apply keeps_ask, keeps_ret. by apply ok_plain. Qed.

Lemma name_keeps fd out peer e ep n : net_ok n -> keeps n (okm_sock_name fd out peer e ep).
Proof using. intros Hn. unfold okm_sock_name. open_socket Hn. destruct out as [[] []]; by apply keeps_ret. Qed.

Lemma getopt_keeps fd level opt len n : net_ok n -> keeps n (okm_sock_getopt fd level opt len).
Proof using. intros Hn. unfold okm_sock_getopt. open_socket Hn. answers. destruct len; [|by apply keeps_ret]. repeat split_if; by apply keeps_ret. Qed.

Lemma setopt_keeps fd level opt tv len n : net_ok n -> keeps n (okm_sock_setopt can_bound fd level opt tv len).
Proof using.
intros Hn. unfold okm_sock_setopt. open_socket Hn. answers. destruct ((opt =? SO_RCVTIMEO) || _) eqn:?; [|by apply keeps_ret]. cbv zeta. answers.
apply (keeps_put _ _ s); [done|]. apply keeps_ret. apply (ok_slot n k s); auto; [by split_if| |by split_if].
split_if; destruct Hsn; by constructor.
Qed.

(** A description's fields change under a socket's call. *)
Lemma keeps_put_desc {A} n fd i d d' (x : A) : net_ok n -> okm_desc_of (n_fds n) fd = Some i -> at_ (g_desc (n_fds n)) i = Some d ->
  d_refs d' = d_refs d -> d_path_slot d' = d_path_slot d -> owned d' = owned d -> keeps n (in_fds (put_desc i d');; mret x).
Proof using.
intros Hn Hof Hd Hr Hp Ho. pose proof Hn as [Ht _ _ _ _ _]. destruct (named_live _ Ht fd i Hof) as (p & Hp' & Hl).
rewrite Hd in Hp'. injection Hp' as <-. unfold keeps, in_fds, mbind, M_bind. rewrite (put_desc_eq _ _ _ _ Hd).
do 2 eexists. split; [reflexivity|]. by apply (inv_desc have_net have_dgram [] [] n i d d').
Qed.

Lemma connect_keeps fd addr len e h n : net_ok n -> keeps n (okm_sock_connect addr_size have_net have_dgram net_stream fd addr len e h).
Proof using.
intros Hn. unfold okm_sock_connect. open_socket Hn. destruct (to_endpoint addr_size addr len) as [r|ep]; [by apply keeps_ret|].
destruct (k_type s =? SOCK_DGRAM).
- answers. decided. destruct (keeps_ensure n k s e h) as (r & n1 & s1 & E1 & Hn1 & _ & Hs1 & Hu1 & Hsn1); auto.
  unfold keeps, mbind at 1, M_bind at 1. rewrite E1. destruct (negb (r =? 0)); [by exists r, n1|].
  unfold put_socks, mbind, M_bind. rewrite (get_sock_eq _ _ _ Hs1), (put_sock_eq _ _ s1) by done. do 2 eexists. split; [reflexivity|].
  apply (ok_slot n1 k s1); auto. destruct Hsn1; by constructor.
- answers. decided. apply keeps_ask. destruct (bool_decide (e = kal_ok)); cbn [negb]; [|by apply keeps_ret, ok_plain].
  apply (keeps_put _ _ s); [done|]. match goal with H : k_state s = OKM_SOCK_NEW |- _ => rename H into Hst end.
  apply (keeps_put_desc _ fd _ d); auto; [|by unfold owned, closes; cbn [d_kind with_stream]; rewrite Hkind].
  apply (ok_open n k s _ (H_conn h)); auto.
  + destruct Hsn as [? ? ? Hp]. constructor; cbn; try done. intros H. apply Hp in H. congruence.
  + unfold sock_handles. cbn [k_state k_conn k_pend set_conn set_peer]. by rewrite Hst.
Qed.

(** A connection in flight gets a descriptor and a slot, or is closed. *)
Lemma adopt_ok c flags n : have_net = true -> inv [H_conn c] [] n ->
  exists r n', adopt have_net have_dgram net_stream me c flags n = Some (r, n') /\ net_ok n'.
Proof using.
intros Hhn Hn. unfold adopt. set (fd := okm_fd_alloc (n_fds n) 0).
assert (forall m, inv [H_conn c] [] m -> net_ok (Net (n_fds m) (n_sock m) (Q_close (H_conn c) :: n_calls m))) as Hclose.
{ intros m Hm. by apply (inv_calls have_net have_dgram [H_conn c] [] [] m [Q_close (H_conn c)] [] [H_conn c]); auto using effect_close. }
unfold mbind at 1, M_bind at 1, gets. change (id n) with n. fold fd. destruct (fd <? 0) eqn:Efd; boolean.
{ unfold n_ask. monad. do 2 eexists. split; [reflexivity|]. by apply Hclose. }
destruct (slot_alloc_ok _ _ _ _ _ Hn) as (k & n1 & E1 & H1). unfold mbind at 1, M_bind at 1. rewrite E1.
destruct H1 as [[-> ->] | (Hk & Hn1 & Ef & s & Hs & Hst & Hpend)].
{ cbn [Z.ltb Z.compare]. unfold n_ask. monad. do 2 eexists. split; [reflexivity|]. by apply Hclose. }
replace (k <? 0) with false by lia.
destruct (bind_socket_ok [H_conn c] [] n1 fd (net_stream c) (Z.lor O_RDWR flags) k Hn1) as (t' & E2 & Hn2); [by rewrite Ef|done|].
unfold mbind, M_bind. rewrite E2. unfold put_socks, mbind, M_bind. rewrite (get_sock_eq _ _ s) by done. rewrite (put_sock_eq _ _ s) by done.
do 2 eexists. split; [reflexivity|].
apply (inv_slot have_net have_dgram [H_conn c] [] [] (Net t' (n_sock n1) (n_calls n1)) k s _ [] [] []); auto using effect_nil.
- unfold in_use. by rewrite Hst.
- constructor; cbn [k_state k_pend set_ids set_conn]; rewrite ?Hpend; done.
- unfold sock_handles. cbn [k_state k_conn k_pend set_ids set_conn]. rewrite Hst, Hpend. cbn. done.
Qed.

Lemma cloexec_keeps fd on n : net_ok n -> keeps n (in_fds (okm_fd_cloexec fd on)).
Proof using me.
intros Hn. pose proof Hn as [Ht _ _ _ _ _]. destruct (cloexec_ok me (n_fds n) fd on Ht) as (r & t' & E & (Ht' & Hh & _) & _).
exists r, (Net t' (n_sock n) (n_calls n)). split; [unfold in_fds; by rewrite E|].
apply (inv_fds have_net have_dgram [] [] [] n t' []); auto; [by apply (obeys_run_call me (Call_cloexec fd on)) in E|].
revert E. unfold okm_fd_cloexec. split_if; [by intros [= _ <-]|]. intros (e & t1 & Eg & E)%bind_inv. destruct (try_silent _ _ _ _ Eg).
destruct (e.1 <? 0); [by injection E as _ <-|]. apply bind_inv in E as ([] & t2 & Ep & [= _ <-]). revert Ep. unfold put_fd, put_try.
destruct (set_at _ _ _); [|done]. by intros [= <-].
Qed.

Lemma accept_keeps fd out flags e c pe peer n : net_ok n ->
  keeps n (okm_sock_accept have_net have_dgram can_bound can_accept net_stream me fd out flags e c pe peer).
Proof using.
intros Hn. unfold okm_sock_accept. open_socket Hn. answers. decided. match goal with H : k_state s = OKM_SOCK_LISTEN |- _ => rename H into Hst end.
assert (have_net = true) as Hhn by (destruct Hsn; auto).
(* What follows once a connection is in flight. *)
assert (forall c' m, inv [H_conn c'] [] m -> forall out', keeps m (nfd ← adopt have_net have_dgram net_stream me c'
    (Z.lor (if has flags SOCK_NONBLOCK then O_NONBLOCK else 0) (if has flags SOCK_CLOEXEC then O_CLOEXEC else 0));
  when ((0 <=? nfd) && has flags SOCK_CLOEXEC) (in_fds (okm_fd_cloexec nfd true);; mret ());;
  if nfd <? 0 then mret (nfd, out) else mret (nfd, out'))) as Hafter.
{ intros c' m Hm out'. match goal with |- keeps _ (adopt _ _ _ _ _ ?fl ≫= _) => destruct (adopt_ok c' fl m Hhn Hm) as (r & m' & Ea & Hm') end.
  apply keeps_bind; [by exists r, m'|]. intros x m2 Hm2. apply keeps_bind; [|intros _ m3 Hm3; split_if; by apply keeps_ret].
  unfold when. split_if; [|by apply keeps_ret]. apply keeps_bind; [by apply cloexec_keeps|]. intros _ m3 Hm3. by apply keeps_ret. }
destruct (k_pend s) as [p|] eqn:Ep.
- apply (keeps_put_first _ _ s); [done|]. apply Hafter.
  apply (inv_slot have_net have_dgram [] [H_conn p] [] n k s (set_pend s None) [] [] []); auto using effect_nil.
  + destruct Hsn; by constructor.
  + unfold sock_handles. cbn [k_state k_lis k_pend set_pend]. rewrite Hst, Ep. cbn. apply perm_swap.
- destruct (has (d_flags d) O_NONBLOCK && negb can_accept); [by apply keeps_ret|].
  destruct (bool_decide (e = kal_ok)) eqn:Ee.
  + apply bool_decide_eq_true in Ee. subst e. rewrite (bool_decide_false (kal_ok = kal_err_again)), andb_false_r by done.
    match goal with |- context [Q_open _ ?w] => apply (Hafter c (Net (n_fds n) (n_sock n) (Q_open (Some (H_conn c)) w :: n_calls n))) end.
    match goal with |- context [Q_open _ ?w] => by apply (inv_calls have_net have_dgram [] [H_conn c] [] n [Q_open (Some (H_conn c)) w] [H_conn c] []); auto using effect_open end.
  + assert (forall w, net_ok (Net (n_fds n) (n_sock n) (Q_open None w :: n_calls n))) as Hn1 by (intros w; by apply ok_plain).
    unfold keeps, n_ask. monad. split_if; do 2 eexists; (split; [reflexivity|done]).
Qed.

Lemma timed_read_keeps stream len ns r n : net_ok n -> keeps n (okm_timed_read can_bound stream len ns r).
Proof using. intros Hn. unfold okm_timed_read. answers. apply keeps_ask, keeps_ret. by apply ok_plain. Qed.

Lemma timed_write_keeps stream len ns r n : net_ok n -> keeps n (okm_timed_write can_bound stream len ns r).
Proof using. intros Hn. unfold okm_timed_write. answers. apply keeps_ask, keeps_ret. by apply ok_plain. Qed.

(** The datagram endpoint is there, or its error is answered. *)
Lemma keeps_dgram {A} n k s e h (f : Z -> M net A) :
  net_ok n -> have_dgram = true -> at_ (n_sock n) k = Some s -> in_use s = true -> sane have_net have_dgram s ->
  (forall r n' s', net_ok n' -> n_fds n' = n_fds n -> at_ (n_sock n') k = Some s' -> in_use s' = true -> sane have_net have_dgram s' -> keeps n' (f r)) ->
  keeps n (ensure_dgram k s e h ≫= f).
Proof using.
intros Hn Hd Hs Hu Hsn Hf. destruct (keeps_ensure n k s e h) as (r & n' & s' & E & Hn' & Ef & Hs' & Hu' & Hsn'); auto.
destruct (Hf r n' s') as (x & n2 & E2 & H2); auto. exists x, n2. split; [|done]. unfold mbind, M_bind. by rewrite E.
Qed.

Lemma send_keeps fd len flags addr alen e dg r n : net_ok n -> keeps n (okm_sock_send addr_size have_dgram can_bound fd len flags addr alen e dg r).
Proof using.
intros Hn. unfold okm_sock_send. open_socket Hn. answers. destruct (k_type s =? SOCK_DGRAM).
- answers. decided. cbv zeta. match goal with |- keeps _ (match ?x with _ => _ end) => destruct x as [r1|to] end; [by apply keeps_ret|].
  apply (keeps_dgram _ _ _ _ _ _ Hn); auto. intros o n1 s1 Hn1 _ Hs1 _ _. answers. apply (keeps_get_sock _ _ s1); [done|]. apply keeps_ask, keeps_ret. by apply ok_plain.
- answers. cbv zeta. split_if; [by apply timed_write_keeps|]. apply keeps_ask, keeps_ret. by apply ok_plain.
Qed.

Lemma take_ahead_keeps fd i len n : net_ok n -> okm_desc_of (n_fds n) fd = Some i -> keeps n (in_fds (okm_take_ahead i len)).
Proof using.
intros Hn Hof. pose proof Hn as [Ht _ _ _ _ _]. destruct (named_live _ Ht fd i Hof) as (d & Hd & Hl).
assert (forall a b c (x : Z * list Z), keeps n (in_fds (put_desc i (with_ahead d a b c);; mret x))) as Hput.
{ intros a b c x. unfold keeps, in_fds. monad. rewrite (put_desc_eq _ _ _ _ Hd). do 2 eexists. split; [reflexivity|].
  by apply (inv_desc have_net have_dgram [] [] n i d). }
unfold okm_take_ahead. unfold keeps, in_fds, mbind at 1, M_bind at 1. rewrite (get_desc_eq _ _ _ Hd).
repeat split_if; [apply Hput|apply Hput|]. exists (0, []), n. split; [by destruct n|done].
Qed.

Lemma recv_keeps fd len flags out e dg m r n : net_ok n -> keeps n (okm_sock_recv have_dgram can_bound can_recv fd len flags out e dg m r).
Proof using.
intros Hn. unfold okm_sock_recv. open_socket Hn. answers. destruct (k_type s =? SOCK_DGRAM).
- answers. decided. apply (keeps_dgram _ _ _ _ _ _ Hn); auto. intros o n1 s1 Hn1 _ Hs1 Hu1 Hsn1. answers. apply (keeps_get_sock _ _ s1); [done|].
  destruct (k_msg s1) as [[msg from]|]; cbv zeta.
  + apply (keeps_put _ _ s1); [done|]. apply keeps_ret. apply (ok_slot n1 k s1); auto. destruct Hsn1; by constructor.
  + answers. apply keeps_ask, keeps_ret. by apply ok_plain.
- answers. cbv zeta. apply keeps_bind; [by apply (take_ahead_keeps fd)|]. intros held n1 Hn1. answers.
  split_if; [apply keeps_bind; [by apply timed_read_keeps|]; intros x n2 Hn2; by apply keeps_ret|]. apply keeps_ask, keeps_ret. by apply ok_plain.
Qed.

Lemma wait_in_keeps fd d ns e c alloc m n : net_ok n -> desc_at (n_fds n) fd = Some d -> keeps n (okm_sock_wait_in can_accept can_recv d ns e c alloc m).
Proof using.
intros Hn Hd. unfold okm_sock_wait_in. destruct (slot_of d) as [k|] eqn:Ek; [|by apply keeps_ret].
assert (exists i, sock_of n fd = inr (i, d, k)) as [i E].
{ unfold desc_at in Hd. unfold sock_of. destruct (okm_desc_of (n_fds n) fd) as [i|]; [|done]. cbn [mbind option_bind] in *.
  rewrite Hd. cbn [mbind option_bind]. rewrite Ek. eauto. }
destruct (sock_of_ok _ _ _ _ _ _ _ _ _ Hn E) as (_ & _ & _ & _ & s & Hs & Hu & Hsn). apply (keeps_get_sock _ _ s); [done|].
destruct (k_state s) eqn:Est; try by apply keeps_ret.
- answers. apply keeps_ask. destruct (bool_decide (e = kal_ok)) eqn:Ee.
  + apply bool_decide_eq_true in Ee. subst e. rewrite (bool_decide_false (kal_ok = kal_err_again)) by done. cbn [negb].
    apply (keeps_put _ _ s); [done|]. apply keeps_ret. apply (ok_open n k s _ (H_conn c)); auto.
    * destruct Hsn; by constructor.
    * unfold sock_handles. cbn [k_state k_lis k_pend set_pend]. rewrite Est.
      match goal with H : bool_decide (k_pend s <> None) = false |- _ => apply bool_decide_eq_false in H; destruct (k_pend s); [by destruct H|] end.
      cbn. apply perm_swap.
  + assert (forall w, net_ok (Net (n_fds n) (n_sock n) (Q_open None w :: n_calls n))) by (intros w; by apply ok_plain). cbn [negb]; split_if; by apply keeps_ret.
- answers. apply (keeps_put _ _ s); [done|]. apply keeps_ask. cbn [n_fds n_sock n_calls].
  assert (forall msg, net_ok (Net (n_fds n) (<[Z.to_nat k := set_msg s msg true]> (n_sock n)) (Q_recv (k_dg s) OKM_DGRAM_MAX ns :: n_calls n))) as Hset.
  { intros msg. apply (ok_plain (Net _ _ _)); [|done]. apply (ok_slot n k s); auto. destruct Hsn; by constructor. }
  destruct m as [e'|[msg from]]; [by apply keeps_ret|]. apply (keeps_put _ _ (set_msg s None true)); [cbn; by eapply at_put|]. apply keeps_ret.
  cbn [n_sock n_fds n_calls]. rewrite list_insert_insert_eq. apply Hset.
Qed.

(** A call on the table of descriptors: close, dup, and the rest. *)
Lemma fd_call_keeps c n : net_ok n -> FdTheorems.proper c -> (forall fd stream flags slot, c <> Call_socket fd stream flags slot) ->
  keeps n (on_fds have_net have_dgram (run_call me c)).
Proof using.
intros Hn Hc Hns. pose proof Hn as [Ht _ _ _ _ _]. destruct (run_call_ok me _ c Ht Hc) as (r & t' & E & Ht' & _ & _ & Hh).
destruct (on_fds_ok have_net have_dgram (run_call me c) [] [] [] n r t' (gives c r)) as (n' & E' & Hn'); auto.
- by eapply obeys_run_call.
- unfold gives. split_if; [done|]. destruct c; try done; [|by destruct (Hns fd stream flags slot)].
  destruct Hc as [Hk _]. unfold owned, closes, bound. cbn [d_kind]. by destruct kind.
- by exists r, n'.
Qed.

(** ** Any calls, in any order *)

(** A call, with what the environment answers. *)
Inductive net_step (n : net) : net -> Prop :=
| ns_open domain type protocol r n' : okm_sock_open have_net have_dgram can_bound me domain type protocol n = Some (r, n') -> net_step n n'
| ns_bind fd addr len e dg r n' : okm_sock_bind addr_size have_dgram fd addr len e dg n = Some (r, n') -> net_step n n'
| ns_listen fd e lis r n' : okm_sock_listen addr_size have_net fd e lis n = Some (r, n') -> net_step n n'
| ns_accept fd out flags e c pe peer r n' :
    okm_sock_accept have_net have_dgram can_bound can_accept net_stream me fd out flags e c pe peer n = Some (r, n') -> net_step n n'
| ns_connect fd addr len e h r n' : okm_sock_connect addr_size have_net have_dgram net_stream fd addr len e h n = Some (r, n') -> net_step n n'
| ns_shutdown fd how e r n' : okm_sock_shutdown fd how e n = Some (r, n') -> net_step n n'
| ns_send fd len flags addr alen e dg x r n' : okm_sock_send addr_size have_dgram can_bound fd len flags addr alen e dg x n = Some (r, n') -> net_step n n'
| ns_recv fd len flags out e dg m x r n' : okm_sock_recv have_dgram can_bound can_recv fd len flags out e dg m x n = Some (r, n') -> net_step n n'
| ns_setopt fd level opt tv len r n' : okm_sock_setopt can_bound fd level opt tv len n = Some (r, n') -> net_step n n'
| ns_wait_in fd d ns e c alloc m r n' :
    desc_at (n_fds n) fd = Some d -> okm_sock_wait_in can_accept can_recv d ns e c alloc m n = Some (r, n') -> net_step n n'
| ns_fd c r n' :
    FdTheorems.proper c -> (forall fd stream flags slot, c <> Call_socket fd stream flags slot) ->
    on_fds have_net have_dgram (run_call me c) n = Some (r, n') -> net_step n n'.

Lemma keeps_step {A} n (e : M net A) r n' : keeps n e -> e n = Some (r, n') -> net_ok n'.
Proof using. intros (r1 & n1 & E & H) E'. rewrite E in E'. by injection E' as _ <-. Qed.

Lemma net_step_ok n n' : net_step n n' -> net_ok n -> net_ok n'.
Proof using.
intros Hs Hn. destruct Hs; match goal with H : _ n = Some _ |- _ => eapply keeps_step; [|exact H] end;
  eauto using open_keeps, bind_keeps, listen_keeps, accept_keeps, connect_keeps, shutdown_keeps, send_keeps, recv_keeps, setopt_keeps, wait_in_keeps, fd_call_keeps.
Qed.
End calls.

Lemma used_from_bound i l k : k ∈ used_from i l -> i <= k.
Proof. intros (s & H%at_range & _)%used_from_elem. lia. Qed.

Lemma used_NoDup i l : NoDup (used_from i l).
Proof.
  revert i. induction l as [|s l IH]; intros i; cbn [used_from]; [constructor|]. destruct (in_use s); cbn [app]; [|done].
  constructor; [|done]. intros H%used_from_bound. lia.
Qed.

(** That a call returns: it reads and writes within the tables. *)
Lemma keeps_some have_net have_dgram {A} n (e : M net A) : keeps have_net have_dgram n e -> is_Some (e n).
Proof. intros (r & n' & -> & _). eauto. Qed.

(** C2. Whatever sockets are opened, bound, connected, accepted, read, polled and
    closed, and whatever else is done to the descriptors, in whatever order and
    whatever the environment answers: what the environment has open for sockets
    is exactly what the slots hold, so nothing it gave is lost or closed twice;
    a slot in use is one description's and a slot a description names is in use;
    and every call on sockets, and every call on descriptors, then returns, leaving
    neither table. *)
Theorem sockets_accounted have_net have_dgram me addr_size can_bound can_accept can_recv net_stream n0 n :
  net_ok have_net have_dgram n0 ->
  rtc (net_step have_net have_dgram me addr_size can_bound can_accept can_recv net_stream) n0 n ->
  (exists l, open_after (n_calls n) = Some l /\ l ≡ₚ flat_map sock_handles (n_sock n)) /\
  used (n_sock n) ≡ₚ named_slots (n_fds n) /\ NoDup (named_slots (n_fds n)) /\
  (forall domain type protocol, is_Some (okm_sock_open have_net have_dgram can_bound me domain type protocol n)) /\
  (forall fd addr len e dg, is_Some (okm_sock_bind addr_size have_dgram fd addr len e dg n)) /\
  (forall fd e lis, is_Some (okm_sock_listen addr_size have_net fd e lis n)) /\
  (forall fd out flags e c pe peer, is_Some (okm_sock_accept have_net have_dgram can_bound can_accept net_stream me fd out flags e c pe peer n)) /\
  (forall fd addr len e h, is_Some (okm_sock_connect addr_size have_net have_dgram net_stream fd addr len e h n)) /\
  (forall fd how e, is_Some (okm_sock_shutdown fd how e n)) /\
  (forall fd out peer e ep, is_Some (okm_sock_name fd out peer e ep n)) /\
  (forall fd len flags addr alen e dg x, is_Some (okm_sock_send addr_size have_dgram can_bound fd len flags addr alen e dg x n)) /\
  (forall fd len flags out e dg m r, is_Some (okm_sock_recv have_dgram can_bound can_recv fd len flags out e dg m r n)) /\
  (forall fd level opt tv len, is_Some (okm_sock_setopt can_bound fd level opt tv len n)) /\
  (forall fd level opt len, is_Some (okm_sock_getopt fd level opt len n)) /\
  (forall fd d ns e c alloc m, desc_at (n_fds n) fd = Some d -> is_Some (okm_sock_wait_in can_accept can_recv d ns e c alloc m n)) /\
  (forall c, FdTheorems.proper c -> (forall fd stream flags slot, c <> Call_socket fd stream flags slot) -> is_Some (on_fds have_net have_dgram (run_call me c) n)).
Proof.
  intros H0 Hs. assert (net_ok have_net have_dgram n) as Hn by (induction Hs; eauto using net_step_ok).
  pose proof Hn as [_ _ _ _ Hslots Hopen]. split_and!; auto; [rewrite <-Hslots; apply used_NoDup|..]; intros; eapply keeps_some;
    eauto using open_keeps, bind_keeps, listen_keeps, accept_keeps, connect_keeps, shutdown_keeps, name_keeps, send_keeps, recv_keeps, setopt_keeps, getopt_keeps, wait_in_keeps, fd_call_keeps.
Qed.

Lemma net_started_ok : net_ok true true (net_zero started).
Proof.
  constructor; [apply started_ok|constructor|done| |done|].
  - cbn [n_sock net_zero]. apply Forall_replicate. by constructor.
  - exists []. split; [done|]. vm_compute. done.
Qed.

(** A socket is opened, listens, and is asked whether a connection waits. *)
Definition accepting : option net :=
  '(_, n1) ← okm_sock_open true true true 1 AF_INET SOCK_STREAM 0 (net_zero started);
  '(_, n2) ← okm_sock_listen 24 true 0 kal_ok 40 n1;
  Some n2.

Lemma accepting_open : (fun n => open_after (n_calls n)) <$> accepting = Some (Some [H_lis 40]).
Proof. by vm_compute. Qed.

Lemma accepting_reached n : accepting = Some n -> rtc (net_step true true 1 24 true true true id) (net_zero started) n.
Proof.
  unfold accepting. destruct (okm_sock_open _ _ _ _ _ _ _ _) as [[r1 n1]|] eqn:E1; [|done]. cbn [mbind option_bind].
  destruct (okm_sock_listen _ _ _ _ _ n1) as [[r2 n2]|] eqn:E2; [|done]. intros [= <-].
  eapply rtc_l; [by eapply ns_open|]. eapply rtc_l; [by eapply ns_listen|]. apply rtc_refl.
Qed.

Lemma sockets_accounted_witness :
  exists n, accepting = Some n /\ open_after (n_calls n) = Some [H_lis 40] /\ used (n_sock n) ≡ₚ named_slots (n_fds n).
Proof.
  pose proof accepting_open as H. pose proof accepting_reached as Hr. destruct accepting as [n|]; [|discriminate H]. exists n. split; [reflexivity|].
  split; [by injection H|]. apply (sockets_accounted true true 1 24 true true true id (net_zero started) n net_started_ok (Hr n eq_refl)).
Defined.
