(* ===== verification/NetAddr.v ===== *)
(** An address between the C library's sockaddr and openkal's endpoint, and a bound
    between a timeval and nanoseconds: there and back. *)
From S2P Require Import Prelude Kal FdTable Net.
From stdpp Require Import base list option.
From Stdlib Require Import ZArith Lia.

#[local] Open Scope Z_scope.

(** ** Bytes *)

Definition byte (b : Z) : Prop := 0 <= b < 256.

(** A 32-bit value whose bytes do not overlap is their sum. *)
Lemma lor_shift a b k : 0 <= k -> 0 <= a < 2 ^ k -> 0 <= b -> Z.lor a (Z.shiftl b k) = a + 2 ^ k * b.
Proof.
  intros Hk Ha Hb. apply Z.bits_inj'. intros n Hn. rewrite Z.lor_spec, Z.shiftl_spec, testbit_cons by done. split_if.
  - rewrite (Z.testbit_neg_r b (n - k)) by lia. by rewrite orb_false_r.
  - by rewrite (testbit_above k a n) by lia.
Qed.

Lemma u32_at_sum l i : byte (byte_at l i) -> byte (byte_at l (i + 1)) -> byte (byte_at l (i + 2)) -> byte (byte_at l (i + 3)) ->
  u32_at l i = byte_at l i + 256 * byte_at l (i + 1) + 65536 * byte_at l (i + 2) + 16777216 * byte_at l (i + 3).
Proof.
  unfold byte, u32_at. intros H0 H1 H2 H3. rewrite (lor_shift (byte_at l i)) by lia. rewrite (lor_shift (byte_at l i + _)) by lia.
  rewrite lor_shift by lia. lia.
Qed.

Lemma u32_at_four a b c d : byte a -> byte b -> byte c -> byte d -> u32_at [a; b; c; d] 0 = a + 256 * b + 65536 * c + 16777216 * d.
Proof. exact (u32_at_sum [a; b; c; d] 0). Qed.

Lemma land_byte v : Z.land v 0xff = v mod 256.
Proof. apply (land_low v 8). lia. Qed.

Lemma u32_bytes_div v : u32_bytes v = [v mod 256; v / 256 mod 256; v / 65536 mod 256; v / 16777216 mod 256].
Proof.
  unfold u32_bytes. cbn [seqZ fmap list_fmap]. change (seqZ 0 4) with [0; 1; 2; 3]. cbn [fmap list_fmap]. rewrite !land_byte, !Z.shiftr_div_pow2 by lia.
  change (2 ^ (0 * 8)) with 1. rewrite Z.div_1_r. done.
Qed.

Lemma u32_bytes_sum a b c d : byte a -> byte b -> byte c -> byte d -> u32_bytes (a + 256 * b + 65536 * c + 16777216 * d) = [a; b; c; d].
Proof. unfold byte. intros. rewrite u32_bytes_div. repeat f_equal; Z.to_euclidean_division_equations; lia. Qed.

Lemma port_bytes_at port : 0 <= port < 65536 -> port mod 65536 / 256 * 256 + port mod 256 = port.
Proof. intros. Z.to_euclidean_division_equations. lia. Qed.

Lemma bytes_at_app l k n : Z.of_nat (length l) = n -> bytes_at (l ++ k) 0 n = l.
Proof.
  intros Hn. unfold bytes_at. apply list_eq. intros i. rewrite list_lookup_fmap. destruct (decide (i < length l)%nat) as [Hi|Hi].
  - rewrite lookup_seqZ_lt by lia. cbn. destruct (lookup_lt_is_Some_2 l i Hi) as [x Hx]. rewrite Hx. f_equal. unfold byte_at, at_.
    replace (0 <=? 0 + (0 + Z.of_nat i)) with true by lia. rewrite lookup_app_l by lia. replace (Z.to_nat (0 + (0 + Z.of_nat i))) with i by lia. by rewrite Hx.
  - rewrite lookup_seqZ_ge by lia. cbn. by rewrite lookup_ge_None_2 by lia.
Qed.

(** A list of a known length, as its elements. *)
Ltac elements l := repeat (destruct l as [|? l]; [discriminate|]); destruct l; [|discriminate].

Section addresses.
Context (addr_size : Z) (Hsize : 20 <= addr_size).

(** The endpoints that addresses are: four bytes, sixteen, or sixteen and a scope that
    is not zero, in a field that is zero beyond them. *)
Inductive ep_ok : endpoint -> Prop :=
| ep_four a port : length a = 4%nat -> Forall byte a -> 0 <= port < 65536 -> ep_ok (Endpoint (padded addr_size a) 4 port)
| ep_sixteen a port : length a = 16%nat -> Forall byte a -> 0 <= port < 65536 -> ep_ok (Endpoint (padded addr_size a) 16 port)
| ep_scoped a s port : length a = 16%nat -> length s = 4%nat -> Forall byte a -> Forall byte s -> u32_at s 0 <> 0 -> 0 <= port < 65536 ->
    ep_ok (Endpoint (padded addr_size (a ++ s)) 20 port).

Lemma padded_prefix a n : Z.of_nat (length a) = n -> bytes_at (padded addr_size a) 0 n = a.
Proof using. apply bytes_at_app. Qed.

Lemma sockaddr_four a port : length a = 4%nat -> sockaddr_of (Endpoint (padded addr_size a) 4 port) = Some ([AF_INET; 0] ++ port_bytes port ++ a ++ zeros 8).
Proof using. intros Hl. unfold sockaddr_of. cbn [ep_len ep_addr ep_port Z.eqb Pos.eqb]. by rewrite padded_prefix by lia. Qed.

Lemma sockaddr_sixteen a port : length a = 16%nat ->
  sockaddr_of (Endpoint (padded addr_size a) 16 port) = Some ([AF_INET6; 0] ++ port_bytes port ++ zeros 4 ++ a ++ zeros 4).
Proof using. intros Hl. unfold sockaddr_of. cbn [ep_len ep_addr ep_port Z.eqb Pos.eqb orb]. by rewrite padded_prefix by lia. Qed.

Lemma u32_at_app a s k : length a = 16%nat -> length s = 4%nat -> u32_at ((a ++ s) ++ k) 16 = u32_at s 0.
Proof using. intros Ha Hs. elements a. elements s. reflexivity. Qed.

Lemma sockaddr_scoped a s port : length a = 16%nat -> length s = 4%nat -> Forall byte s ->
  sockaddr_of (Endpoint (padded addr_size (a ++ s)) 20 port) = Some ([AF_INET6; 0] ++ port_bytes port ++ zeros 4 ++ a ++ s).
Proof using.
intros Ha Hs Hb. unfold sockaddr_of. cbn [ep_len ep_addr ep_port Z.eqb Pos.eqb orb]. unfold padded at 1. rewrite <-app_assoc, bytes_at_app by lia.
unfold padded. rewrite u32_at_app by done. do 5 f_equal. elements s.
repeat (match goal with H : Forall byte (_ :: _) |- _ => inversion_clear H end).
rewrite u32_at_four by done. by apply u32_bytes_sum.
Qed.

Lemma to_endpoint_four a port : length a = 4%nat -> 0 <= port < 65536 ->
  to_endpoint addr_size (Some ([AF_INET; 0] ++ port_bytes port ++ a ++ zeros 8)) 16 = inr (Endpoint (padded addr_size a) 4 port).
Proof using.
intros Ha Hp. elements a. unfold to_endpoint. cbn -[padded port_at]. do 2 f_equal. unfold port_at. cbn. by apply port_bytes_at.
Qed.

Lemma to_endpoint_six a s port : length a = 16%nat -> length s = 4%nat -> Forall byte s -> 0 <= port < 65536 ->
  to_endpoint addr_size (Some ([AF_INET6; 0] ++ port_bytes port ++ zeros 4 ++ a ++ s)) 28 =
  inr (if u32_at s 0 =? 0 then Endpoint (padded addr_size a) 16 port else Endpoint (padded addr_size (a ++ s)) 20 port).
Proof using.
intros Ha Hs Hb Hp. set (u := [AF_INET6; 0] ++ port_bytes port ++ zeros 4 ++ a ++ s).
assert (u32_at u 24 = u32_at s 0) as E1 by (elements a; elements s; reflexivity).
assert (bytes_at u 8 16 = a) as E2 by (elements a; elements s; reflexivity).
assert (port_at u 2 = port) as E3 by (unfold port_at; cbn; by apply port_bytes_at).
assert (u32_bytes (u32_at s 0) = s) as E4.
{ elements s. repeat (match goal with H : Forall byte (_ :: _) |- _ => inversion_clear H end). rewrite u32_at_four by done. by apply u32_bytes_sum. }
unfold to_endpoint. change (byte_at u 0 + 256 * byte_at u 1) with AF_INET6. cbn [AF_INET6 AF_INET Z.eqb Pos.eqb Z.ltb Z.compare sizeof_sockaddr_in6 Pos.compare Pos.compare_cont].
rewrite E1, E2, E3, E4. by destruct (u32_at s 0 =? 0).
Qed.
End addresses.

Lemma byte_at_byte l i : Forall byte l -> byte (byte_at l i).
Proof.
  intros H. unfold byte_at. destruct (at_ l i) as [b|] eqn:E; [|done]. apply at_lookup in E. rewrite Forall_lookup in H. by eapply H.
Qed.

Lemma bytes_at_byte l i n : Forall byte l -> Forall byte (bytes_at l i n).
Proof. intros H. apply Forall_fmap. apply Forall_true. intros k. by apply byte_at_byte. Qed.

Lemma bytes_at_length l i n : 0 <= n -> Z.of_nat (length (bytes_at l i n)) = n.
Proof. intros Hn. unfold bytes_at. rewrite length_fmap, length_seqZ. lia. Qed.

Lemma port_at_range l i : Forall byte l -> 0 <= port_at l i < 65536.
Proof. intros H. unfold port_at. pose proof (byte_at_byte l i H). pose proof (byte_at_byte l (i + 1) H). unfold byte in *. lia. Qed.

Lemma u32_at_range l i : Forall byte l -> 0 <= u32_at l i < 2 ^ 32.
Proof.
  intros H. rewrite u32_at_sum by (by apply byte_at_byte). pose proof (byte_at_byte l i H). pose proof (byte_at_byte l (i + 1) H).
  pose proof (byte_at_byte l (i + 2) H). pose proof (byte_at_byte l (i + 3) H). unfold byte in *. lia.
Qed.

Lemma u32_bytes_byte v : Forall byte (u32_bytes v).
Proof. rewrite u32_bytes_div. unfold byte. repeat constructor; apply Z.mod_pos_bound; lia. Qed.

Lemma u32_at_bytes v : 0 <= v < 2 ^ 32 -> u32_at (u32_bytes v) 0 = v.
Proof.
  intros Hv. rewrite u32_bytes_div, u32_at_four by (unfold byte; apply Z.mod_pos_bound; lia). Z.to_euclidean_division_equations. lia.
Qed.

Lemma inr_eq {A B} (x y : B) : @inr A B x = inr y -> x = y.
Proof. congruence. Qed.

(** An endpoint goes to a sockaddr and back unchanged; a caller with less room
    gets that much of it, its buffer beyond is left, and it is told the whole
    length; and whatever sockaddr is accepted names an endpoint of which this
    holds. *)
Theorem endpoint_roundtrip addr_size :
  20 <= addr_size ->
  (forall ep buf len, ep_ok addr_size ep -> 0 <= len ->
     exists u, to_endpoint addr_size (Some u) (Z.of_nat (length u)) = inr ep /\
       let room := Z.to_nat (Z.min len (Z.of_nat (length u))) in
       from_endpoint ep (Some buf, Some len) = (0, (Some (take room u ++ drop room buf), Some (Z.of_nat (length u))))) /\
  (forall a len ep, Forall byte a -> to_endpoint addr_size (Some a) len = inr ep -> ep_ok addr_size ep).
Proof.
  intros Hsize. split.
  - intros ep buf len Hep Hlen. assert (exists u, sockaddr_of ep = Some u /\ to_endpoint addr_size (Some u) (Z.of_nat (length u)) = inr ep) as (u & E & Ht).
    { destruct Hep as [a port Ha Hb Hp|a port Ha Hb Hp|a s port Ha Hs Hb Hbs Hnz Hp].
      - eexists. split; [by apply sockaddr_four|]. rewrite !length_app, Ha. by apply to_endpoint_four.
      - eexists. split; [by apply sockaddr_sixteen|]. rewrite !length_app, Ha. apply (to_endpoint_six addr_size a (zeros 4) port); [done|done|by repeat constructor|done].
      - eexists. split; [by apply sockaddr_scoped|]. rewrite !length_app, Ha, Hs. etrans; [by apply (to_endpoint_six addr_size a s port)|].
        by destruct (u32_at s 0 =? 0) eqn:E; boolean. }
    exists u. split; [done|]. cbv zeta. unfold from_endpoint. rewrite E. cbv zeta.
    replace (if Z.of_nat (length u) <? len then Z.of_nat (length u) else len) with (Z.min len (Z.of_nat (length u))) by (split_if; lia). done.
  - intros a len ep Ha. unfold to_endpoint. cbv zeta. split_ifs; try done; intros <-%inr_eq.
    + pose proof (bytes_at_length a 4 4). apply ep_four; [lia|by apply bytes_at_byte|by apply port_at_range].
    + pose proof (bytes_at_length a 8 16). apply ep_scoped; [lia|done|by apply bytes_at_byte|apply u32_bytes_byte| |by apply port_at_range].
      by rewrite u32_at_bytes by (by apply u32_at_range).
    + pose proof (bytes_at_length a 8 16). apply ep_sixteen; [lia|by apply bytes_at_byte|by apply port_at_range].
Qed.

(** 127.0.0.1, port 8080, to a caller with room for six bytes. *)
Lemma endpoint_roundtrip_witness :
  exists u, to_endpoint 24 (Some u) (Z.of_nat (length u)) = inr (Endpoint (padded 24 [127; 0; 0; 1]) 4 8080) /\
    let room := Z.to_nat (Z.min 6 (Z.of_nat (length u))) in
    from_endpoint (Endpoint (padded 24 [127; 0; 0; 1]) 4 8080) (Some [9; 9; 9; 9; 9; 9; 9], Some 6) =
    (0, (Some (take room u ++ drop room [9; 9; 9; 9; 9; 9; 9]), Some (Z.of_nat (length u)))).
Proof.
  apply (proj1 (endpoint_roundtrip 24 ltac:(lia))); [|lia]. apply ep_four; [reflexivity|unfold byte; repeat constructor; lia|lia].
Defined.

(** ** Bounds *)

(** A bound is a multiple of eight nanoseconds, so never the mark of a timeval too
    short. *)
Lemma bound_mod_8 s u : wrap64 (wrap64 s * 1000000000 + wrap64 u * 1000) mod 8 = 0.
Proof.
  unfold wrap64. rewrite Z.mod_mod_divide by (by exists (2 ^ 61)).
  replace (s mod 2 ^ 64 * 1000000000 + u mod 2 ^ 64 * 1000) with ((s mod 2 ^ 64 * 125000000 + u mod 2 ^ 64 * 125) * 8) by lia. apply Z.mod_mul. lia.
Qed.

Lemma ns_of_timeval_range tv len : sizeof_timeval <= len -> 0 <= ns_of_timeval tv len < 2 ^ 64 - 1.
Proof.
  intros Hl. unfold ns_of_timeval. replace (len <? sizeof_timeval) with false by lia. split_if; [lia|]. cbv zeta. split_if; [done|].
  pose proof (bound_mod_8 tv.1 tv.2) as E. pose proof (Z.mod_pos_bound (wrap64 tv.1 * 1000000000 + wrap64 tv.2 * 1000) (2 ^ 64) ltac:(lia)) as Hr.
  fold (wrap64 (wrap64 tv.1 * 1000000000 + wrap64 tv.2 * 1000)) in Hr. set (ns := wrap64 _) in *.
  destruct (decide (ns = 2 ^ 64 - 1)) as [E'|]; [|lia]. by rewrite E' in E.
Qed.

(** SO_RCVTIMEO and SO_SNDTIMEO: the bound set is the bound read back; no timeval
    of full size is taken for one too short; and only a zero timeval is no bound,
    so one that is asked for is never lost. *)
Theorem timeout_roundtrip can_bound n fd i d k s opt sec usec len len' :
  sock_of n fd = inr (i, d, k) -> at_ (n_sock n) k = Some s -> opt = SO_RCVTIMEO \/ opt = SO_SNDTIMEO ->
  sizeof_timeval <= len -> sizeof_timeval <= len' ->
  (ns_of_timeval (sec, usec) len = 0 <-> sec = 0 /\ usec = 0) /\
  (can_bound = false -> (sec, usec) <> (0, 0) -> okm_sock_setopt can_bound fd SOL_SOCKET opt (sec, usec) len n = Some (- ENOSYS, n)) /\
  (can_bound = true -> 0 <= sec -> 0 <= usec < 1000000 -> sec * 1000000000 + usec * 1000 < 2 ^ 64 ->
   exists n', okm_sock_setopt can_bound fd SOL_SOCKET opt (sec, usec) len n = Some (0, n') /\
     okm_sock_getopt fd SOL_SOCKET opt (Some len') n' = Some (inr (V_timeval sec usec, sizeof_timeval), n')).
Proof.
  intros Hof Hk Hopt Hlen Hlen'. pose proof (ns_of_timeval_range (sec, usec) len Hlen) as Hns.
  assert (ns_of_timeval (sec, usec) len = 0 <-> sec = 0 /\ usec = 0) as Hzero.
  { unfold ns_of_timeval. replace (len <? sizeof_timeval) with false by lia. cbn [fst snd]. destruct ((sec =? 0) && (usec =? 0)) eqn:E; [lia|].
    cbv zeta. split_if; unfold OKM_NOW_NS; lia. }
  assert (forall n', okm_sock_setopt can_bound fd SOL_SOCKET opt (sec, usec) len n = n' -> n' =
    (if negb (ns_of_timeval (sec, usec) len =? 0) && negb can_bound then Some (- ENOSYS, n)
     else Some (0, Net (n_fds n) (<[Z.to_nat k := if opt =? SO_RCVTIMEO then set_bounds s (ns_of_timeval (sec, usec) len) (k_snd_bound s)
                                                  else set_bounds s (k_rcv_bound s) (ns_of_timeval (sec, usec) len)]> (n_sock n)) (n_calls n)))) as Hset.
  { intros n' <-. unfold okm_sock_setopt, get_sock, put_sock, try, put_try, mbind, M_bind, mret, M_ret, gets. change (id n) with n. rewrite Hof, Hk.
    cbn [fmap option_fmap option_map]. change (negb (SOL_SOCKET =? SOL_SOCKET)) with false. cbv iota.
    replace (opt =? SO_REUSEADDR) with false by (unfold SO_REUSEADDR, SO_RCVTIMEO, SO_SNDTIMEO in *; lia).
    replace ((opt =? SO_RCVTIMEO) || (opt =? SO_SNDTIMEO)) with true by lia. cbv zeta.
    replace (ns_of_timeval (sec, usec) len =? 2 ^ 64 - 1) with false by lia.
    destruct (negb (ns_of_timeval (sec, usec) len =? 0) && negb can_bound); [done|]. by rewrite set_at_some by (by apply at_range in Hk). }
  split; [done|]. split.
  - intros -> Hne. rewrite (Hset _ eq_refl). destruct (ns_of_timeval (sec, usec) len =? 0) eqn:E; boolean; [|done].
    destruct Hne. apply Hzero in E as [-> ->]. done.
  - intros -> Hs Hu Hmax. eexists. rewrite (Hset _ eq_refl), andb_false_r. split; [reflexivity|].
    assert (ns_of_timeval (sec, usec) len = sec * 1000000000 + usec * 1000) as Ens.
    { unfold ns_of_timeval. replace (len <? sizeof_timeval) with false by lia. cbn [fst snd]. destruct ((sec =? 0) && (usec =? 0)) eqn:E; [lia|].
      rewrite !wrap64_small by (lia || (rewrite !wrap64_small by lia; lia)). cbv zeta. split_if; [lia|done]. }
    unfold okm_sock_getopt, get_sock, try, mbind, M_bind, mret, M_ret, gets, id. unfold sock_of in Hof |- *. cbn [n_fds n_sock]. rewrite Hof. cbv beta iota. cbn [n_sock].
    rewrite at_insert, Z.eqb_refl by (by apply at_range in Hk). cbn [fmap option_fmap option_map]. change (negb (SOL_SOCKET =? SOL_SOCKET)) with false. cbv iota.
    replace ((opt =? SO_TYPE) || (opt =? SO_ERROR)) with false by (unfold SO_TYPE, SO_ERROR, SO_RCVTIMEO, SO_SNDTIMEO in *; lia).
    replace ((opt =? SO_RCVTIMEO) || (opt =? SO_SNDTIMEO)) with true by lia. replace (len' <? sizeof_timeval) with false by lia.
    assert ((if opt =? SO_RCVTIMEO then k_rcv_bound (if opt =? SO_RCVTIMEO then set_bounds s (ns_of_timeval (sec, usec) len) (k_snd_bound s) else set_bounds s (k_rcv_bound s) (ns_of_timeval (sec, usec) len))
      else k_snd_bound (if opt =? SO_RCVTIMEO then set_bounds s (ns_of_timeval (sec, usec) len) (k_snd_bound s) else set_bounds s (k_rcv_bound s) (ns_of_timeval (sec, usec) len)))
      = sec * 1000000000 + usec * 1000) as -> by (by destruct (opt =? SO_RCVTIMEO)).
    do 3 f_equal. f_equal. f_equal; Z.to_euclidean_division_equations; lia.
Qed.

(** Descriptor 0 is a stream socket, in slot 0. *)
Definition socket_desc : okm_desc := Desc 1 OKM_SOCKET O_RDWR 0 0 0 0 0 (-1) 0 0 [] 0 0 0 0.
Definition stream_socket : okm_sock := Sock OKM_SOCK_NEW AF_INET SOCK_STREAM 0 None None 0 0 0 0 0 None None false.
Definition one_socket : net :=
  Net (FdTable [socket_desc] [(0, 0)] [] [] [] 0 [] [] []) [stream_socket] [].

(** A second and a half. *)
Lemma timeout_roundtrip_witness :
  exists n', okm_sock_setopt true 0 SOL_SOCKET SO_RCVTIMEO (1, 500000) 16 one_socket = Some (0, n') /\
    okm_sock_getopt 0 SOL_SOCKET SO_RCVTIMEO (Some 16) n' = Some (inr (V_timeval 1 500000, sizeof_timeval), n').
Proof.
  apply (timeout_roundtrip true one_socket 0 0 socket_desc 0 stream_socket SO_RCVTIMEO 1 500000 16 16); try reflexivity; try lia; first [done | by left].
Defined.
