(* ===== verification/Poll.v ===== *)
(** Readiness (port/src/okm_poll.c). openkal has no operation that tells whether a
    transfer would proceed, so poll attempts the transfer and keeps what it produced:
    a byte, a connection, a message. The bounded transfers and the read-ahead of the
    same file are in Net. *)
From S2P Require Import Prelude Kal FdTable Net.
From stdpp Require Import base list option.
From Stdlib Require Import ZArith Lia.

#[local] Open Scope Z_scope.

Definition POLLIN : Z := 1.
Definition POLLOUT : Z := 4.
Definition POLLERR : Z := 8.
Definition POLLHUP : Z := 0x10.
Definition POLLNVAL : Z := 0x20.

Definition OKM_ROUND_NS : Z := 1000000.

Record pollfd := Pollfd { p_fd : Z; p_events : Z; p_revents : Z }.

#[export] Instance pollfd_eq_dec : EqDecision pollfd.
Proof. solve_decision. Defined.

Definition with_revents (p : pollfd) (r : Z) : pollfd := Pollfd (p_fd p) (p_events p) r.

(** What the environment answers to one attempt, whichever of its operations is asked:
    kal_timeout_accept's error and connection, malloc's answer, kal_timeout_recv_from's,
    kal_timeout_read's. *)
Record attempt := Attempt {
  t_error : kal_error;
  t_conn : Z;
  t_alloc : bool;
  t_msg : io (list Z * endpoint);
  t_byte : io (list Z);
}.

Section poll.
Context (can_bound can_accept can_recv : bool).

Definition has_input_route (d : okm_desc) : M net bool :=
  match d_kind d with
  | OKM_STREAM | OKM_CHANNEL => mret (negb (Z.land (d_flags d) O_ACCMODE =? O_WRONLY))
  | OKM_SOCKET => sh ← okm_sock_shape d; mret (negb (bool_decide (sh = OKM_SOCK_SHAPE_IDLE)))
  | _ => mret false
  end.

(** Of the description [i]: 1 ready, 0 the bound expired, negative an error. *)
Definition wait_in (i ns : Z) (a : attempt) : M net Z :=
  d ← in_fds (get_desc i);
  if negb (d_ahead d =? 0) || negb (d_ahead_eof d =? 0) then mret 1
  else
    own ← (if bool_decide (d_kind d = OKM_SOCKET)
           then sh ← okm_sock_shape d; mret (bool_decide (sh = OKM_SOCK_SHAPE_OWN))
           else mret false);
    if own : bool then okm_sock_wait_in can_accept can_recv d ns (t_error a) (t_conn a) (t_alloc a) (t_msg a)
    else if negb can_bound then mret (- ENOSYS)
    else
      n_ask (Q_read (d_stream d) 1 ns);;
      match t_byte a with
      | inl e => mret (if bool_decide (e = kal_err_again) then 0 else - okm_errno e)
      | inr [] => in_fds (put_desc i (with_ahead d (d_ahead d) 1 (d_ahead_byte d)));; mret 1
      | inr (b :: _) => in_fds (put_desc i (with_ahead d 1 (d_ahead_eof d) b));; mret 1
      end.

(** What one turn of the inner loop adds to: the number ready, the first failure, and
    whether anything was waited upon. *)
Record tally := Tally { y_ready : Z; y_failure : Z; y_waited : bool }.

(** The bound of an attempt: [left] is what remains of the caller's. *)
Definition bound_for (single forever : bool) (left : Z) : Z :=
  if single then if forever then 0 else if negb (left =? 0) then left else OKM_NOW_NS else OKM_NOW_NS.

(** A descriptor's turn: its entry, with what is reported, and the tally after it. *)
Definition poll_turn (ns : Z) (p : pollfd) (a : attempt) (y : tally) : M net (pollfd * tally) :=
  if p_fd p <? 0 then mret (with_revents p 0, y)
  else
    n ← gets id;
    match (i ← okm_desc_of (n_fds n) (p_fd p); d ← at_ (g_desc (n_fds n)) i; Some (i, d)) with
    | None => mret (with_revents p POLLNVAL, Tally (y_ready y + 1) (y_failure y) (y_waited y))
    | Some (i, d) =>
        if bool_decide (d_kind d = OKM_FILE) || bool_decide (d_kind d = OKM_DIR) || bool_decide (d_kind d = OKM_NULL) then
          let re := Z.lor (if has (p_events p) POLLIN then POLLIN else 0) (if has (p_events p) POLLOUT then POLLOUT else 0) in
          mret (with_revents p re, Tally (y_ready y + if re =? 0 then 0 else 1) (y_failure y) (y_waited y))
        else
          route ← (if has (p_events p) POLLIN then has_input_route d else mret false);
          '(re, f, w) ← (if route : bool then
            r ← wait_in i ns a;
            d' ← in_fds (get_desc i);
            mret (if r <? 0 then (0, if y_failure y =? 0 then r else y_failure y, true)
                  else if 0 <? r then
                    (Z.lor POLLIN (if negb (d_ahead_eof d' =? 0) && negb (bool_decide (d_kind d' = OKM_STREAM)) then POLLHUP else 0), y_failure y, true)
                  else (0, y_failure y, true))
            else mret (0, y_failure y, y_waited y));
          let re := Z.lor re (if has (p_events p) POLLOUT && negb (Z.land (d_flags d) O_ACCMODE =? O_RDONLY) then POLLOUT else 0) in
          mret (with_revents p re, Tally (y_ready y + if re =? 0 then 0 else 1) f w)
    end.

(** The inner loop; [ask j] answers the attempt of the [j]th descriptor. *)
Fixpoint poll_round (ns : Z) (fds : list pollfd) (ask : nat -> attempt) (y : tally) : M net (list pollfd * tally) :=
  match fds with
  | [] => mret ([], y)
  | p :: fds' =>
      '(p', y1) ← poll_turn ns p (ask O) y;
      '(l, y2) ← poll_round ns fds' (fun j => ask (S j)) y1;
      mret (p' :: l, y2)
  end.

Definition sleep_ns (ns : Z) : M net () := n_ask (Q_sleep ns).

(** The outer loop: the answer and the set as it is left, or [None] for the answer when
    [fuel] rounds were not enough; [env r j] answers in the round [r]. *)
Fixpoint poll_loop (fuel : nat) (single forever : bool) (left : Z) (fds : list pollfd) (env : nat -> nat -> attempt)
    : M net (option Z * list pollfd) :=
  match fuel with
  | O => mret (None, fds)
  | S fuel' =>
      '(fds, y) ← poll_round (bound_for single forever left) fds (env O) (Tally 0 0 false);
      if negb (y_ready y =? 0) then mret (Some (y_ready y), fds)
      else if negb (y_failure y =? 0) then mret (Some (y_failure y), fds)
      else if negb forever && (left =? 0) then mret (Some 0, fds)
      else if single && y_waited y then
        if negb forever then mret (Some 0, fds)
        else poll_loop fuel' single forever left fds (fun r => env (S r))
      else
        sleep_ns OKM_ROUND_NS;;
        poll_loop fuel' single forever
          (if negb forever then if left <=? OKM_ROUND_NS then 0 else left - OKM_ROUND_NS else left) fds (fun r => env (S r))
  end.

(** [fds]: the [n] entries, or no address for them. *)
Definition okm_poll (fuel : nat) (fds : option (list pollfd)) (n timeout_ms : Z) (env : nat -> nat -> attempt)
    : M net (option Z * list pollfd) :=
  let l := default [] fds in
  if negb (n =? 0) && bool_decide (fds = None) then mret (Some (- EFAULT), l)
  else if OKM_MAX_FD <? n then mret (Some (- EINVAL), l)
  else
    let forever := timeout_ms <? 0 in
    let left := if forever then 0 else wrap64 (timeout_ms * 1000000) in
    let single := (n =? 1) && match l with p :: _ => 0 <=? p_fd p | [] => false end in
    poll_loop fuel single forever left l env.
End poll.
