(* ===== verification/PollTheorems.v ===== *)
(** What poll promises: it returns within the caller's bound, counts the entries it
    reports, and reports input only where what the next read delivers is already
    held. *)
From S2P Require Import Prelude Kal FdTable FdTableOk FdTheorems Net NetOk NetTheorems Poll.
From stdpp Require Import base list option relations.
From Stdlib Require Import ZArith Lia.

#[local] Open Scope Z_scope.

(** ** What an enquiry leaves as it was *)

(** A description keeps what it is and what it holds. *)
Definition desc_keeps (d d' : okm_desc) : Prop :=
  d_kind d' = d_kind d /\ d_flags d' = d_flags d /\ d_sock d' = d_sock d /\ d_stream d' = d_stream d /\
  (d_ahead d <> 0 -> d_ahead d' <> 0) /\ (d_ahead_eof d <> 0 -> d_ahead_eof d' <> 0).

(** A socket too. *)
Definition slot_keeps (s s' : okm_sock) : Prop :=
  k_state s' = k_state s /\ k_type s' = k_type s /\ (is_Some (k_pend s) -> k_pend s' = k_pend s) /\ (is_Some (k_msg s) -> k_msg s' = k_msg s).

Record turned (n n' : net) : Prop := {
  tu_fd : g_fd (n_fds n') = g_fd (n_fds n);
  tu_desc : forall i d, at_ (g_desc (n_fds n)) i = Some d -> exists d', at_ (g_desc (n_fds n')) i = Some d' /\ desc_keeps d d';
  tu_sock : forall k s, at_ (n_sock n) k = Some s -> exists s', at_ (n_sock n') k = Some s' /\ slot_keeps s s';
}.

#[export] Instance desc_keeps_preorder : PreOrder desc_keeps.
Proof. split; [by intros d|]. intros d1 d2 d3 (?&?&?&?&?&?) (?&?&?&?&?&?). split_and!; try congruence; auto. Qed.

#[export] Instance slot_keeps_preorder : PreOrder slot_keeps.
Proof.
  split; [by intros s|]. intros s1 s2 s3 (?&?&Hp1&Hm1) (?&?&Hp2&Hm2). split_and!; try congruence.
  - intros G. rewrite Hp2; [auto|]. by rewrite Hp1.
  - intros G. rewrite Hm2; [auto|]. by rewrite Hm1.
Qed.

#[export] Instance turned_preorder : PreOrder turned.
Proof.
  split; [intros n; split; eauto; intros ? x ?; exists x; by split|]. intros n1 n2 n3 [F1 D1 S1] [F2 D2 S2]. split; [congruence| |].
  - intros i d (d2 & E2 & K2)%D1. destruct (D2 _ _ E2) as (d3 & E3 & K3). exists d3. split; [done|by etrans].
  - intros i s (s2 & E2 & K2)%S1. destruct (S2 _ _ E2) as (s3 & E3 & K3). exists s3. split; [done|by etrans].
Qed.

Lemma turned_desc n n' fd : turned n n' -> okm_desc_of (n_fds n') fd = okm_desc_of (n_fds n) fd.
Proof. intros [F _ _]. unfold okm_desc_of. by rewrite F. Qed.

Lemma turned_calls n c : turned n (Net (n_fds n) (n_sock n) c).
Proof. split; eauto; intros ? x ?; exists x; by split. Qed.

Lemma turned_put_sock n k s s' c : at_ (n_sock n) k = Some s -> slot_keeps s s' -> turned n (Net (n_fds n) (<[Z.to_nat k := s']> (n_sock n)) c).
Proof.
  intros Hk Hs. split; cbn [n_fds n_sock]; [done|intros ? d ?; exists d; by split|]. intros j x Hj. rewrite at_insert by (by eapply at_range).
  destruct (j =? k) eqn:E; boolean; [subst j|by exists x]. exists s'. split; [done|]. congruence.
Qed.

Lemma turned_put_desc n i d d' c : at_ (g_desc (n_fds n)) i = Some d -> desc_keeps d d' ->
  turned n (Net (with_desc (n_fds n) (<[Z.to_nat i := d']> (g_desc (n_fds n)))) (n_sock n) c).
Proof.
  intros Hi Hd. split; cbn [n_fds n_sock g_fd g_desc with_desc]; [done| |intros ? s ?; exists s; by split]. intros j x Hj. rewrite at_insert by (by eapply at_range).
  destruct (j =? i) eqn:E; boolean; [subst j|by exists x]. exists d'. split; [done|]. congruence.
Qed.

(** ** What is held *)

Definition sock_held (s : okm_sock) : Prop :=
  match k_state s with OKM_SOCK_LISTEN => is_Some (k_pend s) | OKM_SOCK_DGRAM => is_Some (k_msg s) | _ => False end.

(** What the next read of the description [i] delivers is in hand: a byte, the end of
    the input, a connection or a message. *)
Definition held (n : net) (i : Z) : Prop :=
  exists d, at_ (g_desc (n_fds n)) i = Some d /\
    (d_ahead d <> 0 \/ d_ahead_eof d <> 0 \/ exists k s, slot_of d = Some k /\ at_ (n_sock n) k = Some s /\ sock_held s).

Lemma slot_keeps_held s s' : slot_keeps s s' -> sock_held s -> sock_held s'.
Proof. unfold sock_held. intros (-> & _ & Hp & Hm). destruct (k_state s); try done; intros H; [by rewrite Hp|by rewrite Hm]. Qed.

Lemma desc_keeps_slot d d' : desc_keeps d d' -> slot_of d' = slot_of d.
Proof. unfold slot_of. by intros (-> & _ & -> & _). Qed.

Lemma turned_held n n' i : turned n n' -> held n i -> held n' i.
Proof.
  intros [_ D S] (d & Hd & H). destruct (D _ _ Hd) as (d' & Hd' & K). exists d'. split; [done|].
  pose proof K as (_ & _ & _ & _ & Ha & He). destruct H as [H|[H|(k & s & Hk & Hs & H)]]; [auto|auto|]. right. right.
  destruct (S _ _ Hs) as (s' & Hs' & K'). exists k, s'. rewrite (desc_keeps_slot _ _ K). eauto using slot_keeps_held.
Qed.

(** ** What is asked meanwhile *)

(** An attempt whose bound is [ns]. *)
Definition bounded_by (ns : Z) (c : net_call) : Prop :=
  match c with
  | Q_open _ (Accepted _ b) | Q_recv _ _ b | Q_read _ _ b => b = ns
  | _ => False
  end.

(** At most one attempt, under the bound. *)
Definition asked (ns : Z) (n n' : net) : Prop := exists cs, n_calls n' = cs ++ n_calls n /\ Forall (bounded_by ns) cs.

#[export] Instance asked_preorder ns : PreOrder (asked ns).
Proof.
  split; [intros n; by exists []|]. intros n1 n2 n3 (c1 & E1 & F1) (c2 & E2 & F2). exists (c2 ++ c1).
  rewrite E2, E1. split; [by rewrite app_assoc|by apply Forall_app].
Qed.

Lemma asked_one ns n n' c : n_calls n' = c :: n_calls n -> bounded_by ns c -> asked ns n n'.
Proof. intros E H. exists [c]. split; [done|by constructor]. Qed.

(** Something was asked. *)
Definition grew (n n' : net) : Prop := (length (n_calls n) < length (n_calls n'))%nat.

Lemma asked_length ns n n' : asked ns n n' -> (length (n_calls n) <= length (n_calls n'))%nat.
Proof. intros (cs & -> & _). rewrite length_app. lia. Qed.

(** ** What is reported *)

Definition always_ready (d : okm_desc) : bool :=
  bool_decide (d_kind d = OKM_FILE) || bool_decide (d_kind d = OKM_DIR) || bool_decide (d_kind d = OKM_NULL).

Definition writable (d : okm_desc) : bool := negb (Z.land (d_flags d) O_ACCMODE =? O_RDONLY).

(** What an entry's answer says of the descriptor: nothing of one below zero; that a
    descriptor names nothing; what was asked of a file; and of the rest, input only
    where it was asked for and is held, the end only where it was met, and output
    exactly where it was asked for and may be written. *)
Definition reported (n : net) (p : pollfd) : Prop :=
  if p_fd p <? 0 then p_revents p = 0
  else match okm_desc_of (n_fds n) (p_fd p) with
  | None => p_revents p = POLLNVAL
  | Some i => exists d, at_ (g_desc (n_fds n)) i = Some d /\
      if always_ready d then p_revents p = Z.land (p_events p) (Z.lor POLLIN POLLOUT)
      else
        (has (p_revents p) POLLIN = true -> has (p_events p) POLLIN = true /\ held n i) /\
        (has (p_revents p) POLLHUP = true -> has (p_revents p) POLLIN = true /\ d_ahead_eof d <> 0 /\ d_kind d <> OKM_STREAM) /\
        has (p_revents p) POLLOUT = has (p_events p) POLLOUT && writable d /\
        has (p_revents p) POLLNVAL = false /\ has (p_revents p) POLLERR = false
  end.

Lemma turned_reported n n' p : turned n n' -> reported n p -> reported n' p.
Proof.
  intros T. unfold reported. split_if; [done|]. rewrite (turned_desc _ _ _ T). destruct (okm_desc_of _ _) as [i|]; [|done].
  intros (d & Hd & H). destruct (tu_desc _ _ T _ _ Hd) as (d' & Hd' & K). exists d'. split; [done|]. pose proof K as (Hk & Hf & _ & _ & _ & He).
  assert (always_ready d' = always_ready d) as -> by (unfold always_ready; by rewrite Hk). assert (writable d' = writable d) as -> by (unfold writable; by rewrite Hf).
  split_if; [done|]. destruct H as (H1 & H2 & H3 & H4 & H5). rewrite Hk. split_and!; auto.
  - intros H. destruct (H1 H). eauto using turned_held.
  - intros H. destruct (H2 H) as (? & ? & ?). auto.
Qed.

(** The entries reported. *)
Definition count (l : list pollfd) : Z := Z.of_nat (length (filter (fun p => p_revents p <> 0) l)).

Lemma count_cons p l : count (p :: l) = (if p_revents p =? 0 then 0 else 1) + count l.
Proof. unfold count. rewrite filter_cons. destruct (p_revents p =? 0) eqn:E; boolean; case_decide; cbn [length]; try lia. Qed.

(** ** One descriptor *)

Section turns.
Context (have_net have_dgram can_bound can_accept can_recv : bool).
Abbreviation ok := (net_ok have_net have_dgram).

(** An operation that answers, keeps the invariant, forgets nothing held and asks only
    under the bound. *)
Definition turns {A} (ns : Z) (n : net) (e : M net A) (Q : A -> net -> Prop) : Prop :=
  exists r n', e n = Some (r, n') /\ ok n' /\ turned n n' /\ asked ns n n' /\ Q r n'.

Lemma turns_ret {A} ns n (x : A) (Q : A -> net -> Prop) : ok n -> Q x n -> turns ns n (mret x) Q.
Proof using. intros Hn HQ. exists x, n. by split_and!. Qed.

Lemma turns_bind {A B} ns n (e : M net A) (k : A -> M net B) P Q :
  turns ns n e P -> (forall x n', ok n' -> turned n n' -> P x n' -> turns ns n' (k x) Q) -> turns ns n (e ≫= k) Q.
Proof using.
intros (x & n1 & E & H1 & T1 & A1 & HP) Hk. destruct (Hk x n1 H1 T1 HP) as (r & n2 & E2 & H2 & T2 & A2 & HQ). exists r, n2.
split_and!; auto; [unfold mbind, M_bind; by rewrite E|by etrans|by etrans].
Qed.

Lemma turns_weaken {A} ns n (e : M net A) (P Q : A -> net -> Prop) : turns ns n e P -> (forall x n', P x n' -> Q x n') -> turns ns n e Q.
Proof using. intros (x & n1 & ? & ? & ? & ? & ?) Himp. exists x, n1. split_and!; auto. Qed.

(** The description a descriptor names, and its socket if it is one. *)
Lemma named_slot n fd i d k : ok n -> okm_desc_of (n_fds n) fd = Some i -> at_ (g_desc (n_fds n)) i = Some d -> slot_of d = Some k ->
  exists s, at_ (n_sock n) k = Some s.
Proof using.
intros Hn Hof Hd Hk. destruct (sock_of_ok have_net have_dgram [] [] n fd i d k Hn) as (_ & _ & _ & _ & s & Hs & _); [|eauto].
unfold sock_of. rewrite Hof. cbn [mbind option_bind]. rewrite Hd. cbn [mbind option_bind]. by rewrite Hk.
Qed.

Lemma turns_shape ns n fd i d : ok n -> okm_desc_of (n_fds n) fd = Some i -> at_ (g_desc (n_fds n)) i = Some d ->
  turns ns n (okm_sock_shape d) (fun sh n' => n' = n /\ (sh = OKM_SOCK_SHAPE_OWN -> exists k s, slot_of d = Some k /\ at_ (n_sock n) k = Some s /\
    (k_state s = OKM_SOCK_LISTEN \/ k_state s = OKM_SOCK_DGRAM))).
Proof using.
intros Hn Hof Hd. unfold okm_sock_shape. destruct (slot_of d) as [k|] eqn:Ek; [|by apply turns_ret].
destruct (named_slot _ _ _ _ _ Hn Hof Hd Ek) as [s Hs]. unfold turns, mbind, M_bind. rewrite (get_sock_eq _ _ _ Hs).
do 2 eexists. split; [reflexivity|]. split_and!; try done. intros E. exists k, s. split_and!; auto. destruct (k_state s); auto; discriminate.
Qed.

(** What okm_sock_wait_in does, when it answers. *)
Lemma sock_wait_in_held d ns e c alloc m n r n' : okm_sock_wait_in can_accept can_recv d ns e c alloc m n = Some (r, n') ->
  turned n n' /\ asked ns n n' /\ n_fds n' = n_fds n /\ (0 < r -> exists k s, slot_of d = Some k /\ at_ (n_sock n') k = Some s /\ sock_held s).
Proof using.
pose proof okm_errno_range as Hr. unfold okm_sock_wait_in. destruct (slot_of d) as [k|]; [|by intros [= <- <-]].
intros (s & n1 & Es & E)%bind_inv. unfold get_sock, try in Es. destruct (at_ (n_sock n) k) as [s0|] eqn:Hs; [|done]. injection Es as -> <-.
assert (sock_held s -> forall q : Prop, q -> exists k0 s1, Some k = Some k0 /\ at_ (n_sock n) k0 = Some s1 /\ sock_held s1) as Hheld by eauto.
unfold sock_held in Hheld. destruct (k_state s) eqn:Est; try by injection E as <- <-.
- case_bool_decide as Hp; [injection E as <- <-; split_and!; try done; intros _; apply (Hheld ltac:(by destruct (k_pend s)) True I)|].
  destruct can_accept; [|by injection E as <- <-]. cbn [negb] in E.
  apply bind_inv in E as ([] & n2 & [= <-] & E).
  assert (forall h, asked ns n (Net (n_fds n) (n_sock n) (Q_open h (Accepted (k_lis s) ns) :: n_calls n))) as Ha by (intros h; by eapply asked_one).
  case_bool_decide as Hag; [injection E as <- <-; split_and!; auto using turned_calls; intros ?; lia|].
  case_bool_decide as Hok; cbn [negb] in E; [|injection E as <- <-; split_and!; auto using turned_calls; specialize (Hr e); intros ?; lia].
  apply bind_inv in E as ([] & n3 & Ep & [= <- <-]). rewrite (put_sock_eq _ _ s) in Ep by done. injection Ep as <-.
  split_and!; [|by eapply asked_one|done|intros _; exists k; eexists; split_and!; [done|by eapply at_put|by unfold sock_held; cbn; rewrite Est]].
  apply (turned_put_sock n k s); [done|]. split_and!; try done. cbn. destruct (k_pend s); [done|]. by intros [? ?].
- case_bool_decide as Hp; [injection E as <- <-; split_and!; try done; intros _; apply (Hheld ltac:(by destruct (k_msg s)) True I)|].
  destruct can_recv; [|by injection E as <- <-]. cbn [negb] in E. destruct (negb (k_buf s) && negb alloc); [by injection E as <- <-|].
  apply bind_inv in E as ([] & n2 & Ep & E). rewrite (put_sock_eq _ _ s) in Ep by done. injection Ep as <-.
  apply bind_inv in E as ([] & n3 & [= <-] & E). cbn [n_fds n_sock n_calls] in E.
  assert (forall x, slot_keeps s (set_msg s x true)) as Hset. { intros x. split_and!; try done. cbn. destruct (k_msg s); [done|]. by intros [? ?]. }
  destruct m as [e'|[msg from]].
  + injection E as <- <-. split_and!; [by eapply turned_put_sock|by eapply asked_one|done|]. specialize (Hr e'). case_bool_decide; intros ?; lia.
  + apply bind_inv in E as ([] & n4 & Ep & [= <- <-]). rewrite (put_sock_eq _ _ (set_msg s None true)) in Ep by (cbn; by eapply at_put). injection Ep as <-.
    cbn [n_fds n_sock n_calls]. rewrite list_insert_insert_eq.
    split_and!; [by eapply turned_put_sock|by eapply asked_one|done|]. intros _. exists k. eexists. split_and!; [done|by eapply at_put|]. unfold sock_held. cbn. by rewrite Est.
Qed.

(** Where it answers that the bound expired, it asked. *)
Lemma sock_wait_in_asks d ns e c alloc m n n' k s : okm_sock_wait_in can_accept can_recv d ns e c alloc m n = Some (0, n') ->
  slot_of d = Some k -> at_ (n_sock n) k = Some s -> k_state s = OKM_SOCK_LISTEN \/ k_state s = OKM_SOCK_DGRAM -> grew n n'.
Proof using.
intros E Hk Hs Hst. revert E. unfold okm_sock_wait_in. rewrite Hk. unfold mbind, M_bind. rewrite (get_sock_eq _ _ _ Hs). unfold grew.
destruct Hst as [-> | ->]; (case_bool_decide; [done|]).
- destruct can_accept; [|done]. cbn [negb]. unfold n_ask, modify. case_bool_decide; [intros [= <-]; cbn; lia|].
  case_bool_decide as Hok; cbn [negb].
  + intros E. by destruct (put_sock _ _ _) as [[[] ?]|].
  + intros [= _ <-]. cbn. lia.
- destruct can_recv; [|done]. cbn [negb]. split_if; [done|]. rewrite (put_sock_eq _ _ s) by done. unfold n_ask, modify. cbn [n_fds n_sock n_calls].
  destruct m as [e'|[msg from]]; [intros [= _ <-]; cbn; lia|]. by destruct (put_sock _ _ _) as [[[] ?]|].
Qed.

Lemma turns_get {B} ns n i d (k : okm_desc -> M net B) Q : at_ (g_desc (n_fds n)) i = Some d -> turns ns n (k d) Q -> turns ns n (in_fds (get_desc i) ≫= k) Q.
Proof using.
intros Hd (r & n' & E & H). exists r, n'. split; [|done]. unfold mbind, M_bind, in_fds. rewrite (get_desc_eq _ _ _ Hd). by destruct n.
Qed.

(** The read-ahead of a description that has none is filled. *)
Lemma turns_fill ns n fd i d a b c (r : Z) : ok n -> okm_desc_of (n_fds n) fd = Some i -> at_ (g_desc (n_fds n)) i = Some d ->
  d_ahead d = 0 -> d_ahead_eof d = 0 -> a <> 0 \/ b <> 0 ->
  turns ns n (in_fds (put_desc i (with_ahead d a b c));; mret r) (fun x n' => held n' i /\ x = r).
Proof using.
intros Hn Hof Hd Ha He Hab. pose proof Hn as [Ht _ _ _ _ _]. destruct (named_live _ Ht fd i Hof) as (p & Hp & Hl).
rewrite Hd in Hp. injection Hp as <-. unfold turns, in_fds, mbind, M_bind. rewrite (put_desc_eq _ _ _ _ Hd). do 2 eexists. split; [reflexivity|]. split_and!.
- by apply (inv_desc have_net have_dgram [] [] n i d).
- apply (turned_put_desc n i d); [done|]. split_and!; done.
- by exists [].
- exists (with_ahead d a b c). split; [cbn [g_desc n_fds with_desc]; rewrite at_insert by (by eapply at_range); by rewrite Z.eqb_refl|]. cbn. tauto.
- done.
Qed.

Lemma wait_in_turns ns n fd i a : ok n -> okm_desc_of (n_fds n) fd = Some i ->
  turns ns n (wait_in can_bound can_accept can_recv i ns a) (fun r n' => (0 < r -> held n' i) /\ (r = 0 -> grew n n')).
Proof using.
intros Hn Hof. pose proof Hn as [Ht _ _ _ _ _]. destruct (named_live _ Ht fd i Hof) as (d & Hd & _). unfold wait_in. apply (turns_get _ _ _ d); [done|].
destruct (decide (d_ahead d = 0 /\ d_ahead_eof d = 0)) as [[Ea Ee]|Hh].
2: { replace (negb (d_ahead d =? 0) || negb (d_ahead_eof d =? 0)) with true by lia. apply turns_ret; [done|]. split; [|done]. intros _. exists d. split; [done|]. lia. }
rewrite Ea, Ee. cbn [Z.eqb negb orb].
eapply (turns_bind _ _ _ _ (fun own n' => n' = n /\ (own = true -> exists k s, slot_of d = Some k /\ at_ (n_sock n) k = Some s /\
  (k_state s = OKM_SOCK_LISTEN \/ k_state s = OKM_SOCK_DGRAM)))).
{ case_bool_decide; [|by apply turns_ret]. eapply turns_bind; [by eapply turns_shape|]. intros sh n' Hn' _ [-> Hsh]. apply turns_ret; [done|].
  split; [done|]. intros ->%bool_decide_eq_true. auto. }
intros own n' _ _ [-> Hown]. destruct own.
{ assert (desc_at (n_fds n) fd = Some d) as Hda by (unfold desc_at; by rewrite Hof).
  destruct (wait_in_keeps have_net have_dgram can_accept can_recv fd d ns (t_error a) (t_conn a) (t_alloc a) (t_msg a) n Hn Hda) as (r & n' & E & Hn').
  destruct (sock_wait_in_held _ _ _ _ _ _ _ _ _ E) as (T & A & F & H). exists r, n'. split_and!; auto; [intros Hr; exists d; rewrite F; auto|].
  intros ->. destruct Hown as (k & s & Hk & Hs & Hst); [done|]. by eapply sock_wait_in_asks. }
destruct can_bound; [|by apply turns_ret]. cbn [negb]. eapply (turns_bind _ _ _ _ (fun _ n' => n_fds n' = n_fds n /\ grew n n')).
{ unfold turns, n_ask, modify. do 2 eexists. split; [reflexivity|]. split_and!; auto using turned_calls; [by apply ok_plain|by eapply asked_one|unfold grew; cbn; lia]. }
intros [] n' Hn' _ [F G]. destruct (t_byte a) as [e|[|b l]].
- apply turns_ret; [done|]. split; [|done]. pose proof (okm_errno_range e). case_bool_decide; intros ?; lia.
- eapply turns_weaken; [apply (turns_fill _ _ fd); rewrite ?F; auto|]. intros x n2 [H ->]. by split.
- eapply turns_weaken; [apply (turns_fill _ _ fd); rewrite ?F; auto|]. intros x n2 [H ->]. by split.
Qed.

Lemma turns_route ns n fd i d : ok n -> okm_desc_of (n_fds n) fd = Some i -> at_ (g_desc (n_fds n)) i = Some d ->
  turns ns n (has_input_route d) (fun _ n' => n' = n).
Proof using.
intros Hn Hof Hd. unfold has_input_route. destruct (d_kind d); try by apply turns_ret.
eapply turns_bind; [by eapply turns_shape|]. intros sh n' Hn' _ [-> _]. by apply turns_ret.
Qed.

(** Of the caller's entry, all but the answer. *)
Definition same_entry (p p' : pollfd) : Prop := p_fd p' = p_fd p /\ p_events p' = p_events p.

(** An entry's turn. *)
(** The failures of a tally, and that what was waited upon was asked. *)
Definition tally_ok (y y' : tally) (n n' : net) : Prop :=
  (y_failure y <= 0 -> y_failure y' <= 0) /\ (y_failure y' = 0 -> y_failure y = 0) /\
  (y_waited y' = true -> y_waited y = true \/ y_ready y < y_ready y' \/ y_failure y' <> 0 \/ grew n n').

Lemma tally_same y y' n n' : y_failure y' = y_failure y -> y_waited y' = y_waited y -> tally_ok y y' n n'.
Proof using. intros E1 E2. unfold tally_ok. rewrite E1, E2. auto. Qed.

Definition turn_ok (n : net) (p : pollfd) (y : tally) (r : pollfd * tally) (n' : net) : Prop :=
  same_entry p r.1 /\ reported n' r.1 /\ y_ready r.2 = y_ready y + (if p_revents r.1 =? 0 then 0 else 1) /\ tally_ok y r.2 n n'.

(** The input part of an answer. *)
Definition input_ok (n : net) (i re : Z) : Prop :=
  re = 0 \/ held n i /\ exists d, at_ (g_desc (n_fds n)) i = Some d /\
    (re = POLLIN \/ re = Z.lor POLLIN POLLHUP /\ d_ahead_eof d <> 0 /\ d_kind d <> OKM_STREAM).

Lemma land_bit e k : 0 <= k -> Z.land e (2 ^ k) = if has e (2 ^ k) then 2 ^ k else 0.
Proof using.
intros Hk. assert (Z.land e (2 ^ k) = if Z.testbit e k then 2 ^ k else 0) as E.
{ apply Z.bits_inj'. intros j Hj. rewrite Z.land_spec, Z.pow2_bits_eqb by done. destruct (k =? j) eqn:Ej; boolean.
  - subst j. rewrite andb_true_r. destruct (Z.testbit e k) eqn:Et; [by rewrite Z.pow2_bits_true|by rewrite Z.bits_0].
  - rewrite andb_false_r. destruct (Z.testbit e k); [by rewrite Z.pow2_bits_false|by rewrite Z.bits_0]. }
unfold has. rewrite E. destruct (Z.testbit e k); [|done]. by destruct (2 ^ k =? 0) eqn:?; boolean; [lia|].
Qed.

Lemma file_events e : Z.lor (if has e POLLIN then POLLIN else 0) (if has e POLLOUT then POLLOUT else 0) = Z.land e (Z.lor POLLIN POLLOUT).
Proof using.
rewrite Z.land_lor_distr_r. change POLLIN with (2 ^ 0). change POLLOUT with (2 ^ 2). by rewrite <-!land_bit.
Qed.

Lemma poll_turn_ok ns n p a y : ok n -> turns ns n (poll_turn can_bound can_accept can_recv ns p a y) (turn_ok n p y).
Proof using.
intros Hn. unfold poll_turn. destruct (p_fd p <? 0) eqn:Efd.
{ apply turns_ret; [done|]. split_and!; try done; [|cbn; lia|by apply tally_same]. unfold reported. cbn. by rewrite Efd. }
apply (turns_bind _ _ _ _ (fun x n' => x = n /\ n' = n)); [by exists n, n|]. intros ? ? _ _ [-> ->].
destruct (okm_desc_of (n_fds n) (p_fd p)) as [i|] eqn:Hof; cbn [mbind option_bind].
2: { apply turns_ret; [done|]. split_and!; try done; [|by apply tally_same]. unfold reported. cbn. by rewrite Efd, Hof. }
pose proof Hn as [Ht _ _ _ _ _]. destruct (named_live _ Ht _ i Hof) as (d & Hd & _). rewrite Hd. cbn [mbind option_bind].
change (bool_decide (d_kind d = OKM_FILE) || bool_decide (d_kind d = OKM_DIR) || bool_decide (d_kind d = OKM_NULL)) with (always_ready d).
destruct (always_ready d) eqn:Ed.
{ apply turns_ret; [done|]. split_and!; try done; [|by apply tally_same]. unfold reported. cbn. rewrite Efd, Hof. exists d. split; [done|]. rewrite Ed. apply file_events. }
apply (turns_bind _ _ _ _ (fun route n' => n' = n /\ (route = true -> has (p_events p) POLLIN = true))).
{ destruct (has (p_events p) POLLIN) eqn:Ein; [|by apply turns_ret]. eapply turns_weaken; [by eapply turns_route|done]. }
intros route ? _ _ [-> Hroute].
apply (turns_bind _ _ _ _ (fun x n' => input_ok n' i x.1.1 /\ (y_failure y <= 0 -> x.1.2 <= 0) /\ (x.1.2 = 0 -> y_failure y = 0) /\
  (has x.1.1 POLLIN = true -> has (p_events p) POLLIN = true) /\ (x.2 = true -> y_waited y = true \/ x.1.1 <> 0 \/ x.1.2 <> 0 \/ grew n n'))).
{ destruct route; [|apply turns_ret; [done|]; split_and!; try done; [by left|by auto]]. eapply turns_bind; [by eapply wait_in_turns|]. intros r n' Hn' T [Hr Hg].
  destruct (tu_desc _ _ T _ _ Hd) as (d' & Hd' & _). apply (turns_get _ _ _ d'); [done|]. apply turns_ret; [done|].
  destruct (r <? 0) eqn:Er; [|destruct (0 <? r) eqn:Er']; cbn [fst snd]; boolean.
  - split_and!; [by left|split_if; lia|split_if; lia|done|]. intros _. right. right. left. split_if; lia.
  - split_and!; auto; [|intros _; right; left; by split_if]. right. split; [auto|]. exists d'. split; [done|].
    destruct (negb (d_ahead_eof d' =? 0) && _) eqn:Ehup; [right|by left]. boolean. case_bool_decide; [done|]. by split_and!.
  - split_and!; [by left|done|done|done|]. intros _. right. right. right. apply Hg. lia. }
intros [[re f] w] n' Hn' T (Hin & Hf & Hf0 & Hev & Hw). cbn [fst snd] in *. destruct (tu_desc _ _ T _ _ Hd) as (d' & Hd' & K). pose proof K as (Hk & Hfl & _).
apply turns_ret; [done|]. split_and!; try done.
2: { split_and!; cbn [y_failure y_waited y_ready snd]; auto. intros H. destruct (Hw H) as [?|[?|[?|?]]]; auto. right. left.
  match goal with |- context [Z.lor re ?x =? 0] => destruct (Z.lor re x =? 0) eqn:E0 end; boolean; [by apply Z.lor_eq_0_iff in E0 as [-> _]|lia]. }
unfold reported. cbn [fst p_fd p_events p_revents with_revents]. rewrite Efd, (turned_desc _ _ _ T), Hof.
exists d'. split; [done|]. assert (always_ready d' = false) as -> by (rewrite <-Ed; unfold always_ready; by rewrite Hk).
assert (negb (Z.land (d_flags d) O_ACCMODE =? O_RDONLY) = writable d') as -> by (unfold writable; by rewrite Hfl).
destruct Hin as [->|(Hh & d2 & Hd2 & [->|(-> & He & Hst)])]; destruct (has (p_events p) POLLOUT && writable d'); cbn; split_and!; try done; auto.
- rewrite Hd' in Hd2. injection Hd2 as <-. auto.
- rewrite Hd' in Hd2. injection Hd2 as <-. auto.
Qed.

(** ** A round *)

Lemma tally_trans y1 y2 y3 n1 n2 n3 ns : y_ready y1 <= y_ready y2 <= y_ready y3 -> asked ns n1 n2 -> asked ns n2 n3 ->
  tally_ok y1 y2 n1 n2 -> tally_ok y2 y3 n2 n3 -> tally_ok y1 y3 n1 n3.
Proof using.
intros Hy A1%asked_length A2%asked_length (F1 & Z1 & W1) (F2 & Z2 & W2). unfold tally_ok, grew in *. split_and!; auto.
intros [H|[H|[H|H]]]%W2; [|right; left; lia|auto|right; right; right; lia].
destruct (W1 H) as [?|[?|[?|?]]]; [auto|right; left; lia|right; right; left; auto|right; right; right; lia].
Qed.

Definition round_ok (n : net) (l : list pollfd) (y : tally) (r : list pollfd * tally) (n' : net) : Prop :=
  Forall2 same_entry l r.1 /\ Forall (reported n') r.1 /\ y_ready r.2 = y_ready y + count r.1 /\ tally_ok y r.2 n n'.

Lemma poll_round_ok ns l : forall n ask y, ok n -> turns ns n (poll_round can_bound can_accept can_recv ns l ask y) (round_ok n l y).
Proof using.
induction l as [|p l IH]; intros n ask y Hn; cbn [poll_round].
{ apply turns_ret; [done|]. split_and!; try done; [cbn [fst snd]; change (count []) with 0; lia|by apply tally_same]. }
destruct (poll_turn_ok ns n p (ask O) y Hn) as ([p' y1] & n1 & E1 & Hn1 & T1 & A1 & (S1 & R1 & C1 & Y1)).
destruct (IH n1 (fun j => ask (S j)) y1 Hn1) as ([l' y2] & n2 & E2 & Hn2 & T2 & A2 & (S2 & R2 & C2 & Y2)). cbn [fst snd] in *.
unfold turns, mbind, M_bind. rewrite E1. cbv beta iota. rewrite E2. do 2 eexists. split; [reflexivity|]. split_and!; auto; try by etrans.
split_and!; cbn [fst snd]; [by constructor|constructor; eauto using turned_reported|rewrite count_cons; lia|].
eapply tally_trans; [|done|done|done|done]. unfold count in *. split; [destruct (p_revents p' =? 0); lia|lia].
Qed.

(** ** The loop *)

(** What an answer says of the set. *)
Definition answer_ok (n : net) (l l' : list pollfd) (r : Z) : Prop :=
  Forall (reported n) l' /\ (0 < r -> r = count l') /\ (r <= 0 -> count l' = 0).

(** However many rounds there are and whatever the bound. *)
Lemma poll_loop_ok fuel single forever : forall left l env n, ok n ->
  exists r l' n', poll_loop can_bound can_accept can_recv fuel single forever left l env n = Some ((r, l'), n') /\ ok n' /\ turned n n' /\
    Forall2 same_entry l l' /\ forall v, r = Some v -> answer_ok n' l l' v.
Proof using.
induction fuel as [|fuel IH]; intros left l env n Hn; cbn [poll_loop].
{ exists None, l, n. split_and!; try done. induction l; constructor; done. }
destruct (poll_round_ok (bound_for single forever left) l n (env O) (Tally 0 0 false) Hn) as ([l1 y] & n1 & E1 & Hn1 & T1 & _ & (S1 & R1 & C1 & (F1 & _ & _))).
cbn [fst snd y_ready y_failure] in *. unfold mbind at 1, M_bind at 1. rewrite E1. cbv beta iota.
assert (0 <= count l1) by (unfold count; lia).
destruct (negb (y_ready y =? 0)) eqn:Er; boolean.
{ exists (Some (y_ready y)), l1, n1. split_and!; try done. intros v [= <-]. split_and!; auto; lia. }
destruct (negb (y_failure y =? 0)) eqn:Ef; boolean.
{ exists (Some (y_failure y)), l1, n1. split_and!; try done. intros v [= <-]. split_and!; auto; lia. }
assert (forall v, Some 0 = Some v -> answer_ok n1 l l1 v) as Hzero by (intros v [= <-]; split_and!; auto; lia).
destruct (negb forever && (left =? 0)); [by exists (Some 0), l1, n1|].
assert (forall lf n2, ok n2 -> turned n1 n2 -> exists r l' n', poll_loop can_bound can_accept can_recv fuel single forever lf l1 (fun r => env (S r)) n2 = Some ((r, l'), n') /\
  ok n' /\ turned n n' /\ Forall2 same_entry l l' /\ forall v, r = Some v -> answer_ok n' l l' v) as Hagain.
{ intros lf n2 Hn2 T2. destruct (IH lf l1 (fun r => env (S r)) n2 Hn2) as (r & l' & n' & E & Hn' & T & S & A). exists r, l', n'. split_and!; auto; [by etrans; [|etrans]|].
  revert S1 S. clear. intros S1. revert l'. induction S1 as [|p1 p2 l l1 [? ?] ? IH]; intros l' S; inversion S as [|? p3 ? ? [? ?]]; subst; constructor; auto.
  split; congruence. }
destruct (single && y_waited y).
- destruct (negb forever); [by exists (Some 0), l1, n1|by apply Hagain].
- apply Hagain; [by apply ok_plain|apply turned_calls].
Qed.

(** What a loop that is given [left] may ask: to sleep a round, or an attempt under a
    bound that is not zero and within the caller's. *)
Definition timely (left : Z) (c : net_call) : Prop := c = Q_sleep OKM_ROUND_NS \/ exists b, bounded_by b c /\ 0 < b <= left `max` OKM_NOW_NS.

Definition slept (cs : list net_call) : Z := Z.of_nat (sum_list_with (fun c => match c with Q_sleep ns => Z.to_nat ns | _ => O end) cs).

(** The caller's bound was waited for: asleep, or asleep and then in one attempt. *)
Definition in_full (left : Z) (cs : list net_call) : Prop :=
  slept cs = left \/ exists c b, c ∈ cs /\ bounded_by b c /\ slept cs + b = left.

Lemma slept_app cs cs' : slept (cs ++ cs') = slept cs + slept cs'.
Proof using. unfold slept. rewrite sum_list_with_app. lia. Qed.

Lemma slept_sleep ns : 0 <= ns -> slept [Q_sleep ns] = ns.
Proof using. intros H. unfold slept. cbn [sum_list_with]. lia. Qed.

Lemma slept_attempts b cs : Forall (bounded_by b) cs -> slept cs = 0.
Proof using. induction 1 as [|c cs H _ IH]; [done|]. change (c :: cs) with ([c] ++ cs). rewrite slept_app, IH. by destruct c as [? []| | | | | | |]. Qed.

Lemma poll_loop_time single k : forall fuel l env n, ok n -> (k < fuel)%nat ->
  exists v l' n' cs, poll_loop can_bound can_accept can_recv fuel single false (Z.of_nat k * OKM_ROUND_NS) l env n = Some ((Some v, l'), n') /\
    n_calls n' = cs ++ n_calls n /\ Forall (timely (Z.of_nat k * OKM_ROUND_NS)) cs /\ slept cs <= Z.of_nat k * OKM_ROUND_NS /\
    (v = 0 -> in_full (Z.of_nat k * OKM_ROUND_NS) cs).
Proof using.
induction k as [k IH] using lt_wf_ind. intros [|fuel] l env n Hn Hk; [lia|]. cbn [poll_loop]. set (left := Z.of_nat k * OKM_ROUND_NS).
assert (0 <= left /\ (left = 0 <-> k = O)) as [Hl Hl0] by (subst left; unfold OKM_ROUND_NS; lia).
destruct (poll_round_ok (bound_for single false left) l n (env O) (Tally 0 0 false) Hn) as ([l1 y] & n1 & E1 & Hn1 & T1 & (cs1 & A1 & B1) & (_ & _ & _ & (_ & _ & W1))).
cbn [fst snd y_ready y_failure y_waited] in *. unfold mbind at 1, M_bind at 1. rewrite E1. cbv beta iota.
assert (0 < bound_for single false left <= left `max` OKM_NOW_NS) as Hb by (unfold bound_for, OKM_NOW_NS; destruct single, (left =? 0) eqn:?; boolean; cbn [negb]; lia).
assert (Forall (timely left) cs1) as Ht1 by (eapply Forall_impl; [exact B1|]; intros c Hc; right; eauto).
pose proof (slept_attempts _ _ B1) as Hs1.
destruct (negb (y_ready y =? 0)) eqn:Er; boolean.
{ exists (y_ready y), l1, n1, cs1. split_and!; auto; [lia|]. intros ?; lia. }
destruct (negb (y_failure y =? 0)) eqn:Ef; boolean.
{ exists (y_failure y), l1, n1, cs1. split_and!; auto; [lia|]. intros ?; lia. }
cbn [negb andb]. destruct (left =? 0) eqn:E0; boolean.
{ exists 0, l1, n1, cs1. split_and!; auto; [lia|]. intros _. left. lia. }
destruct (single && y_waited y) eqn:Ew.
{ exists 0, l1, n1, cs1. split_and!; auto; [lia|]. intros _. right. apply andb_true_iff in Ew as [-> Ew].
  destruct (W1 Ew) as [?|[?|[?|G]]]; [done|lia|done|]. unfold grew in G. rewrite A1, length_app in G. destruct cs1 as [|c cs1]; [cbn in G; lia|].
  inversion B1; subst. exists c, (bound_for true false left). split_and!; [by left|done|]. rewrite Hs1. unfold bound_for. replace (left =? 0) with false by lia. cbn [negb]. lia. }
set (k' := Nat.pred k).
assert ((if left <=? OKM_ROUND_NS then 0 else left - OKM_ROUND_NS) = Z.of_nat k' * OKM_ROUND_NS) as ->.
{ subst k' left. unfold OKM_ROUND_NS in *. destruct k as [|k]; [lia|]. cbn [Nat.pred]. split_if; lia. }
destruct (IH k' ltac:(subst k'; lia) fuel l1 (fun r => env (S r)) (Net (n_fds n1) (n_sock n1) (Q_sleep OKM_ROUND_NS :: n_calls n1))) as (v & l' & n' & cs & E & A & B & Hs & Hv);
  [by apply ok_plain|subst k'; lia|].
unfold sleep_ns, n_ask, modify, mbind, M_bind. rewrite E. exists v, l', n', (cs ++ [Q_sleep OKM_ROUND_NS] ++ cs1).
assert (slept (cs ++ [Q_sleep OKM_ROUND_NS] ++ cs1) = slept cs + OKM_ROUND_NS) as Hsum by (rewrite !slept_app, Hs1, slept_sleep by done; lia).
assert (left = Z.of_nat k' * OKM_ROUND_NS + OKM_ROUND_NS) as Hleft by (subst left k'; unfold OKM_ROUND_NS; lia).
split_and!; auto.
- rewrite A. cbn [n_calls]. rewrite A1, <-app_assoc. done.
- apply Forall_app. split; [|constructor; [by left|done]]. eapply Forall_impl; [exact B|]. intros c [Hc|(b & Hc & ?)]; [by left|right]. exists b. split; [done|].
  unfold OKM_ROUND_NS, OKM_NOW_NS in *. lia.
- lia.
- intros [H|(c & b & Hc & Hcb & H)]%Hv; [left; lia|]. right. exists c, b. rewrite Hsum. split_and!; auto; [apply elem_of_app; by left|lia].
Qed.
End turns.

(** ** What follows a report of input *)







Section after.
Context (have_net have_dgram can_bound can_accept can_recv : bool) (net_stream : Z -> Z) (me : Z).
Context (n : net) (fd i k : Z) (d : okm_desc) (s : okm_sock).
Hypothesis Hn : net_ok have_net have_dgram n.
Hypothesis Hof : sock_of n fd = inr (i, d, k).
Hypothesis Hs : at_ (n_sock n) k = Some s.



End after.

(** ** The theorems *)


(** poll with a bound: what [poll_returns] says of it, and that the descriptors are as
    they were. *)
Lemma poll_bounded have_net have_dgram can_bound can_accept can_recv fuel l timeout_ms env n :
  net_ok have_net have_dgram n -> Z.of_nat (length l) <= OKM_MAX_FD -> 0 <= timeout_ms < 2 ^ 31 -> timeout_ms < Z.of_nat fuel ->
  exists r l' n' cs, okm_poll can_bound can_accept can_recv fuel (Some l) (Z.of_nat (length l)) timeout_ms env n = Some ((Some r, l'), n') /\
    net_ok have_net have_dgram n' /\ turned n n' /\ Forall2 same_entry l l' /\ Forall (reported n') l' /\ (0 < r -> r = count l') /\ (r <= 0 -> count l' = 0) /\
    n_calls n' = cs ++ n_calls n /\ Forall (timely (timeout_ms * OKM_ROUND_NS)) cs /\ slept cs <= timeout_ms * OKM_ROUND_NS /\
    (r = 0 -> in_full (timeout_ms * OKM_ROUND_NS) cs).
Proof.
  intros Hn Hl Hms Hfuel. unfold okm_poll. change (default [] (Some l)) with l. rewrite (bool_decide_false (Some l = None)), andb_false_r by done.
  replace (OKM_MAX_FD <? Z.of_nat (length l)) with false by lia. replace (timeout_ms <? 0) with false by lia. rewrite wrap64_small by lia.
  cbv zeta. set (single := (_ =? 1) && _). change 1000000 with OKM_ROUND_NS. rewrite <-(Z2Nat.id timeout_ms) by lia.
  destruct (poll_loop_time have_net have_dgram can_bound can_accept can_recv single (Z.to_nat timeout_ms) fuel l env n Hn ltac:(lia)) as (v & l' & n' & cs & E & A & B & Hs & Hv).
  destruct (poll_loop_ok have_net have_dgram can_bound can_accept can_recv fuel single false (Z.of_nat (Z.to_nat timeout_ms) * OKM_ROUND_NS) l env n Hn) as (r & l2 & n2 & E2 & Hn2 & T & S & Ha).
  rewrite E in E2. injection E2 as <- <- <-. destruct (Ha v eq_refl) as (R & C & C0). exists v, l', n', cs. by split_and!.
Qed.

(** C5. poll with a bound returns, within as many rounds as the bound has milliseconds
    and one more, whatever the environment answers: its answer is the number of
    entries it reports, or none are; every entry's report is true of what is then
    held; nothing is asked under the bound of zero that to the environment is none,
    or under more than the caller's; it sleeps no more than the caller's bound, and
    answers zero only once that bound has been waited for. *)
Theorem poll_returns have_net have_dgram can_bound can_accept can_recv fuel l timeout_ms env n :
  net_ok have_net have_dgram n -> Z.of_nat (length l) <= OKM_MAX_FD -> 0 <= timeout_ms < 2 ^ 31 -> timeout_ms < Z.of_nat fuel ->
  exists r l' n' cs, okm_poll can_bound can_accept can_recv fuel (Some l) (Z.of_nat (length l)) timeout_ms env n = Some ((Some r, l'), n') /\
    net_ok have_net have_dgram n' /\ Forall2 same_entry l l' /\ Forall (reported n') l' /\ (0 < r -> r = count l') /\ (r <= 0 -> count l' = 0) /\
    n_calls n' = cs ++ n_calls n /\ Forall (timely (timeout_ms * OKM_ROUND_NS)) cs /\ slept cs <= timeout_ms * OKM_ROUND_NS /\
    (r = 0 -> in_full (timeout_ms * OKM_ROUND_NS) cs).
Proof.
  intros Hn Hl Hms Hfuel. destruct (poll_bounded have_net have_dgram can_bound can_accept can_recv fuel l timeout_ms env n Hn Hl Hms Hfuel) as (r & l' & n' & cs & H1 & H2 & _ & H3).
  exists r, l', n', cs. by split.
Qed.

(** A listener, and a connection that waits. *)
Definition conn_waits (r j : nat) : attempt := Attempt kal_ok 41 true (inl kal_err_again) (inl kal_err_again).

Lemma accepting_ok n : accepting = Some n -> net_ok true true n.
Proof.
  intros E%accepting_reached. pose proof net_started_ok as H. revert E H. generalize (net_zero started). intros n0 Hs. induction Hs; eauto using net_step_ok.
Qed.

Lemma accepting_some : is_Some accepting.
Proof. pose proof accepting_open as H. by destruct accepting as [n|]. Qed.

Lemma poll_returns_witness : exists n r l' n' cs, accepting = Some n /\
  okm_poll true true true 4 (Some [Pollfd 0 POLLIN 0]) 1 3 conn_waits n = Some ((Some r, l'), n') /\ (0 < r -> r = count l') /\ Forall (timely (3 * OKM_ROUND_NS)) cs.
Proof.
  destruct accepting_some as [n Hn].
  destruct (poll_returns true true true true true 4 [Pollfd 0 POLLIN 0] 3 conn_waits n (accepting_ok n Hn))
    as (r & l' & n' & cs & E & _ & _ & _ & C & _ & _ & T & _); [by vm_compute|lia|lia|]. exists n, r, l', n', cs. auto.
Defined.




