(* ===== verification/Dents.v ===== *)
(** Directory enumeration (port/src/okm_syscall.c, do_getdents). openkal enumerates
    through an iterator and has no operation that returns an entry to it, so an entry
    that does not fit the caller's buffer is held in the description until the next
    call. *)
From S2P Require Import Prelude Kal FdTable.
From stdpp Require Import base list option.
From Stdlib Require Import ZArith Lia.

#[local] Open Scope Z_scope.

Definition DT_UNKNOWN : Z := 0.
Definition DT_DIR : Z := 4.
Definition DT_REG : Z := 8.
Definition DT_LNK : Z := 10.

(** The length of a C string. *)
Fixpoint slen (s : list Z) : Z :=
  match s with
  | [] => 0
  | b :: s' => if b =? 0 then 0 else 1 + slen s'
  end.

(** An integer as its [n] bytes from the least, and back. *)
Fixpoint le_bytes (n : nat) (v : Z) : list Z :=
  match n with
  | O => []
  | S n' => v mod 256 :: le_bytes n' (v / 256)
  end.

Fixpoint of_le (l : list Z) : Z :=
  match l with
  | [] => 0
  | b :: l' => b + 256 * of_le l'
  end.

(** Bytes put into a buffer; outside it the machine is stuck. *)
Definition put_bytes (buf : list Z) (i : Z) (bytes : list Z) : option (list Z) :=
  if (0 <=? i) && (i + Z.of_nat (length bytes) <=? Z.of_nat (length buf))
  then Some (take (Z.to_nat i) buf ++ bytes ++ drop (Z.to_nat i + length bytes) buf)
  else None.

(** struct linux_dirent64: its size, and what is written of it up to the end of the
    name; [d_name] is at offset 19. *)
Definition sizeof_dirent64 : Z := 24.
Definition dirent64 (d_ino d_off d_reclen d_type : Z) (d_name : list Z) : list Z :=
  le_bytes 8 d_ino ++ le_bytes 8 d_off ++ le_bytes 2 d_reclen ++ [d_type] ++ d_name ++ [0].

(** What kal_fs_list_next answers: its error, the iterator it leaves (zero once it is
    spent), and the entry. *)
Record next_answer := Next { x_error : kal_error; x_iter : Z; x_name : list Z; x_kind : Z }.

Definition with_iter (p : okm_desc) (iter iter_open : Z) : okm_desc :=
  Desc (d_refs p) (d_kind p) (d_flags p) (d_stream p) (d_file p) (d_dir p) iter iter_open (d_path_slot p)
       (d_pending p) (d_pending_kind p) (d_pending_name p) (d_sock p) (d_ahead p) (d_ahead_eof p) (d_ahead_byte p).

Definition with_pending (p : okm_desc) (pending kind : Z) (name : list Z) : okm_desc :=
  Desc (d_refs p) (d_kind p) (d_flags p) (d_stream p) (d_file p) (d_dir p) (d_iter p) (d_iter_open p) (d_path_slot p)
       pending kind name (d_sock p) (d_ahead p) (d_ahead_eof p) (d_ahead_byte p).

Section getdents.
(** openkal's kinds of node. *)
Context (kal_node_directory kal_node_file kal_node_link : Z).

Definition d_type_of (kind : Z) : Z :=
  if kind =? kal_node_directory then DT_DIR else if kind =? kal_node_file then DT_REG else if kind =? kal_node_link then DT_LNK else DT_UNKNOWN.

(** The room of an entry whose name has [len] bytes. *)
Definition reclen_of (len : Z) : Z := Z.land (sizeof_dirent64 + len + 1 + 7) (Z.lnot 7).

(** What a turn of the loop comes to before there is room to find: the call is answered,
    an entry is passed over, or one is to be delivered. *)
Inductive acquired := A_answer (r : Z) | A_skip | A_entry (name : list Z) (kind : Z).

(** The entry held, or the environment's next; [None] where it does not answer. *)
Definition acquire (d : okm_desc) (used : Z) (env : list next_answer) : option (okm_desc * acquired * list next_answer) :=
  if negb (d_pending d =? 0) then
    Some (d, A_entry (take (Z.to_nat (slen (d_pending_name d))) (d_pending_name d)) (d_pending_kind d), env)
  else match env with
  | [] => None
  | a :: env' =>
      let d := with_iter d (x_iter a) (d_iter_open d) in
      Some (d,
            if negb (bool_decide (x_error a = kal_ok)) then A_answer (if negb (used =? 0) then used else - okm_errno (x_error a))
            else if d_iter d =? 0 then A_answer used
            else if 256 <=? Z.of_nat (length (x_name a)) then A_skip
            else A_entry (x_name a) (x_kind a),
            env')
  end.

(** The loop: the answer of the call, the description and the buffer as they are left,
    and what is left of the environment's answers. *)
Fixpoint getdents_loop (fuel : nat) (cap : Z) (d : okm_desc) (buf : list Z) (used : Z) (env : list next_answer)
    : option (Z * okm_desc * list Z * list next_answer) :=
  match fuel with
  | O => None
  | S fuel' =>
      '(d, got, env) ← acquire d used env;
      match got with
      | A_answer r => Some (r, d, buf, env)
      | A_skip => getdents_loop fuel' cap d buf used env
      | A_entry name kind =>
          let need := reclen_of (Z.of_nat (length name)) in
          if cap <? used + need then
            let d := if d_pending d =? 0 then with_pending d 1 kind name else d in
            Some (if used =? 0 then - EINVAL else used, d, buf, env)
          else
            let d := with_pending d 0 (d_pending_kind d) (d_pending_name d) in
            buf ← put_bytes buf used (dirent64 1 (used + need) need (d_type_of kind) name);
            getdents_loop fuel' cap d buf (used + need) env
      end
  end.

(** Of a directory's description; [begin] is kal_fs_list_begin's answer, should it be
    asked. An answer is consumed by every turn but the first, so the fuel is theirs. *)
Definition getdents_of (d : okm_desc) (buf : list Z) (begin : kal_error * Z) (env : list next_answer)
    : option (Z * okm_desc * list Z * list next_answer) :=
  let run d := if d_iter d =? 0 then Some (0, d, buf, env)
               else getdents_loop (2 + length env) (Z.of_nat (length buf)) d buf 0 env in
  if d_iter_open d =? 0 then
    if negb (bool_decide (begin.1 = kal_ok)) then Some (- okm_errno begin.1, d, buf, env)
    else run (with_iter d begin.2 1)
  else run d.

Definition do_getdents (fd : Z) (buf : list Z) (begin : kal_error * Z) (env : list next_answer) : M fd_table (Z * list Z * list next_answer) :=
  t ← gets id;
  match okm_desc_of t fd with
  | None => mret (- EBADF, buf, env)
  | Some i =>
      d ← get_desc i;
      if negb (bool_decide (d_kind d = OKM_DIR)) then mret (- ENOTDIR, buf, env)
      else
        '(r, d, buf, env) ← try (fun _ => getdents_of d buf begin env);
        put_desc i d;;
        mret (r, buf, env)
  end.
End getdents.

(** ** What the caller reads
    musl's readdir: from an entry to the next by the entry's length, and an entry's name
    up to its end. *)

Definition bytes_from (buf : list Z) (i n : Z) : list Z := take (Z.to_nat n) (drop (Z.to_nat i) buf).

Fixpoint c_string (l : list Z) : list Z :=
  match l with
  | [] => []
  | b :: l' => if b =? 0 then [] else b :: c_string l'
  end.

Fixpoint read_dents (fuel : nat) (buf : list Z) (pos used : Z) : option (list (list Z * Z)) :=
  if used <=? pos then Some []
  else match fuel with
  | O => None
  | S fuel' =>
      let reclen := of_le (bytes_from buf (pos + 16) 2) in
      rest ← read_dents fuel' buf (pos + reclen) used;
      Some ((c_string (drop (Z.to_nat (pos + 19)) buf), of_le (bytes_from buf (pos + 18) 1)) :: rest)
  end.
