(* ===== verification/DentsTheorems.v ===== *)
(** A directory is listed whole: over any calls with buffers of any size no entry is
    lost, repeated or out of order, and what the caller reads in its buffers is what
    the environment answered. *)
From S2P Require Import Prelude Kal FdTable FdTableOk Dents.
From stdpp Require Import base list option.
From Stdlib Require Import ZArith Lia.

#[local] Open Scope Z_scope.

(** ** Bytes *)

Lemma length_le_bytes n v : length (le_bytes n v) = n.
Proof. revert v. induction n; intros v; cbn [le_bytes length]; auto. Qed.

Lemma of_le_bytes n v : 0 <= v < 256 ^ Z.of_nat n -> of_le (le_bytes n v) = v.
Proof.
  revert v. induction n as [|n IH]; intros v; [cbn; lia|]. rewrite Nat2Z.inj_succ, Z.pow_succ_r by lia. intros Hv. cbn [le_bytes of_le].
  rewrite IH; [pose proof (Z.div_mod v 256); lia|]. split; [apply Z.div_pos; lia|apply Z.div_lt_upper_bound; lia].
Qed.

Lemma put_bytes_some buf i bytes : 0 <= i -> i + Z.of_nat (length bytes) <= Z.of_nat (length buf) ->
  exists buf', put_bytes buf i bytes = Some buf' /\ length buf' = length buf /\
    take (Z.to_nat i) buf' = take (Z.to_nat i) buf /\ bytes_from buf' i (Z.of_nat (length bytes)) = bytes /\
    (forall j, i + Z.of_nat (length bytes) <= j -> drop (Z.to_nat j) buf' = drop (Z.to_nat j) buf).
Proof.
  intros Hi Hl. unfold put_bytes. destruct (_ && _) eqn:E; [|lia]. eexists. split; [reflexivity|].
  assert (length (take (Z.to_nat i) buf) = Z.to_nat i) as Ht by (rewrite length_take; lia). split_and!.
  - rewrite !length_app, length_take, length_drop. lia.
  - by rewrite take_app_length' by done.
  - unfold bytes_from. rewrite drop_app_length' by done. rewrite Nat2Z.id. by rewrite take_app_length' by done.
  - intros j Hj. rewrite drop_app_ge by lia. rewrite drop_app_ge by lia. rewrite drop_drop. f_equal. lia.
Qed.

Lemma bytes_from_take buf buf' i n j : take (Z.to_nat j) buf' = take (Z.to_nat j) buf -> 0 <= i -> 0 <= n -> i + n <= j -> bytes_from buf' i n = bytes_from buf i n.
Proof.
  intros H Hi Hn Hj. unfold bytes_from. rewrite !take_drop_commute, <-!Z2Nat.inj_add by lia.
  assert (forall b : list Z, take (Z.to_nat (i + n)) b = take (Z.to_nat (i + n)) (take (Z.to_nat j) b)) as E by (intros b; rewrite take_take; f_equal; lia).
  by rewrite (E buf'), (E buf), H.
Qed.

(** Part of what is at a place. *)
Lemma bytes_from_part buf i n k m : 0 <= i -> 0 <= k -> 0 <= m -> k + m <= n -> bytes_from buf (i + k) m = bytes_from (bytes_from buf i n) k m.
Proof.
  intros. unfold bytes_from. rewrite skipn_firstn_comm, drop_drop, take_take. f_equal; [lia|]. f_equal. lia.
Qed.

Lemma c_string_end l rest : Forall (fun b => b <> 0) l -> c_string (l ++ 0 :: rest) = l.
Proof. induction 1 as [|b l Hb _ IH]; [done|]. cbn [app c_string]. destruct (b =? 0) eqn:E; boolean; [done|]. by rewrite IH. Qed.

Lemma slen_proper s : Forall (fun b => b <> 0) s -> slen s = Z.of_nat (length s).
Proof. induction 1 as [|b s Hb _ IH]; [done|]. cbn [slen length]. destruct (b =? 0) eqn:E; boolean; [done|]. lia. Qed.

(** ** Entries in a buffer *)

Lemma reclen_bounds len : 0 <= len -> len + 25 <= reclen_of len <= len + 32 /\ reclen_of len mod 8 = 0.
Proof.
  intros H. unfold reclen_of, sizeof_dirent64. replace (Z.land (24 + len + 1 + 7) (Z.lnot 7)) with (24 + len + 1 + 7 - (24 + len + 1 + 7) mod 8) by (symmetry; apply (land_high _ 3); lia).
  pose proof (Z.mod_pos_bound (24 + len + 1 + 7) 8 ltac:(lia)). split; [lia|]. rewrite Zminus_mod, Zmod_mod, Z.sub_diag. done.
Qed.

Lemma length_dirent64 i o r t name : Z.of_nat (length (dirent64 i o r t name)) = Z.of_nat (length name) + 20.
Proof. unfold dirent64. rewrite !length_app, !length_le_bytes. cbn [length]. lia. Qed.

(** From [pos] to [used] the buffer holds the entries [l]. *)
Inductive chain (buf : list Z) : Z -> Z -> list (list Z * Z) -> Prop :=
| chain_nil pos : chain buf pos pos []
| chain_cons pos used name ty l : 0 <= pos -> Forall (fun b => b <> 0) name -> Z.of_nat (length name) < 256 -> 0 <= ty < 256 ->
    (exists off, bytes_from buf pos (Z.of_nat (length name) + 20) = dirent64 1 off (reclen_of (Z.of_nat (length name))) ty name) ->
    chain buf (pos + reclen_of (Z.of_nat (length name))) used l -> chain buf pos used ((name, ty) :: l).

Lemma chain_le buf pos used l : chain buf pos used l -> pos <= used.
Proof. induction 1 as [|pos used name ty l _ _ _ _ _ _ IH]; [lia|]. pose proof (reclen_bounds (Z.of_nat (length name))). lia. Qed.

(** What is written after the entries leaves them. *)
Lemma chain_take buf buf' pos used l : chain buf pos used l -> take (Z.to_nat used) buf' = take (Z.to_nat used) buf -> chain buf' pos used l.
Proof.
  induction 1 as [|pos used name ty l Hp Hn Hl Ht [off Hb] Hc IH]; intros E; [constructor|]. constructor; auto. exists off. rewrite <-Hb.
  apply (bytes_from_take _ _ _ _ used); auto; [lia|]. apply chain_le in Hc. pose proof (reclen_bounds (Z.of_nat (length name))). lia.
Qed.

Lemma chain_app buf pos mid used l l' : chain buf pos mid l -> chain buf mid used l' -> chain buf pos used (l ++ l').
Proof. induction 1; intros; [done|]. cbn [app]. constructor; auto. Qed.

(** The caller's walk finds them. *)
Lemma chain_read buf pos used l fuel : chain buf pos used l -> (length l <= fuel)%nat -> read_dents fuel buf pos used = Some l.
Proof.
  intros Hc. revert fuel. induction Hc as [pos|pos used name ty l Hp Hn Hl Ht [off Hb] Hc IH]; intros fuel Hf.
  { destruct fuel; cbn [read_dents]; by replace (pos <=? pos) with true by lia. }
  pose proof (reclen_bounds (Z.of_nat (length name)) ltac:(lia)) as [Hr _]. pose proof (chain_le _ _ _ _ Hc).
  destruct fuel as [|fuel]; [cbn in Hf; lia|]. cbn [read_dents]. replace (used <=? pos) with false by lia.
  assert (forall k m, 0 <= k -> 0 <= m -> k + m <= Z.of_nat (length name) + 20 -> bytes_from buf (pos + k) m =
    bytes_from (dirent64 1 off (reclen_of (Z.of_nat (length name))) ty name) k m) as Hpart.
  { intros k m ? ? ?. rewrite (bytes_from_part buf pos (Z.of_nat (length name) + 20)) by lia. by rewrite Hb. }
  assert (of_le (bytes_from buf (pos + 16) 2) = reclen_of (Z.of_nat (length name))) as ->.
  { rewrite Hpart by lia. unfold bytes_from, dirent64. rewrite app_assoc. rewrite drop_app_length' by (by rewrite length_app, !length_le_bytes).
    rewrite take_app_length' by (by rewrite length_le_bytes). apply of_le_bytes. lia. }
  rewrite IH by (cbn [length] in Hf; lia). cbn [mbind option_bind]. f_equal. f_equal. f_equal.
  - assert (drop (Z.to_nat (pos + 19)) buf = name ++ 0 :: drop (Z.to_nat (pos + 20 + Z.of_nat (length name))) buf) as ->; [|by apply c_string_end].
    rewrite <-(take_drop (length name + 1) (drop (Z.to_nat (pos + 19)) buf)) at 1. rewrite drop_drop. change (name ++ 0 :: ?r) with (name ++ [0] ++ r). rewrite app_assoc. f_equal; [|f_equal; lia].
    specialize (Hpart 19 (Z.of_nat (length name) + 1) ltac:(lia) ltac:(lia) ltac:(lia)). unfold bytes_from at 1 in Hpart. replace (Z.to_nat (Z.of_nat (length name) + 1)) with (length name + 1)%nat in Hpart by lia.
    rewrite Hpart. unfold bytes_from, dirent64. rewrite !app_assoc. rewrite <-(app_assoc _ name [0]). rewrite drop_app_length' by (rewrite !length_app, !length_le_bytes; cbn; lia).
    apply take_ge. rewrite length_app. cbn. lia.
  - rewrite Hpart by lia. unfold bytes_from, dirent64. rewrite !app_assoc, <-!(app_assoc _ name), <-(app_assoc _ [ty]). rewrite drop_app_length' by (rewrite !length_app, !length_le_bytes; cbn; lia).
    cbn [app]. change (Z.to_nat 1) with 1%nat. rewrite firstn_cons. cbn [of_le]. rewrite take_0. cbn [of_le]. lia.
Qed.

(** ** The loop *)

Section loop.
Context (kal_node_directory kal_node_file kal_node_link : Z).
Abbreviation type_of := (d_type_of kal_node_directory kal_node_file kal_node_link).
Abbreviation loop := (getdents_loop kal_node_directory kal_node_file kal_node_link).

Definition typed (l : list (list Z * Z)) : list (list Z * Z) := (fun e => (e.1, type_of e.2)) <$> l.

(** The entry a description holds. *)
Definition held (d : okm_desc) : list (list Z * Z) := if d_pending d =? 0 then [] else [(d_pending_name d, d_pending_kind d)].

(** The answer that ends an enumeration, in error or not. *)
Definition final (a : next_answer) : bool := negb (bool_decide (x_error a = kal_ok)) || (x_iter a =? 0).

(** The entries of the environment's answers, but for the names that are too long to be
    carried. *)
Definition entry_of (a : next_answer) : list (list Z * Z) :=
  if final a || (256 <=? Z.of_nat (length (x_name a))) then [] else [(x_name a, x_kind a)].
Definition entries (cs : list next_answer) : list (list Z * Z) := flat_map entry_of cs.

Definition name_ok (name : list Z) : Prop := Forall (fun b => b <> 0) name.
Definition names_ok (env : list next_answer) : Prop := Forall (fun a => name_ok (x_name a)) env.

(** What is held is an entry that was carried. *)
Definition dir_ok (d : okm_desc) : Prop := d_pending d <> 0 -> name_ok (d_pending_name d) /\ Z.of_nat (length (d_pending_name d)) < 256 /\ d_iter d <> 0 /\ d_iter_open d <> 0.

Lemma type_range k : 0 <= type_of k < 256.
Proof using. unfold d_type_of, DT_DIR, DT_REG, DT_LNK, DT_UNKNOWN. repeat split_if; lia. Qed.

(** Where an entry comes from. *)
Lemma acquire_ok d used env d' got env' : dir_ok d -> names_ok env -> acquire d used env = Some (d', got, env') ->
  exists cs, env = cs ++ env' /\ (length cs <= 1)%nat /\ d_iter_open d' = d_iter_open d /\ (cs = [] -> d_pending d <> 0 /\ d' = d) /\ (cs <> [] -> d_pending d' = 0 /\ d_pending d = 0) /\
    match got with
    | A_answer r => exists a, cs = [a] /\ final a = true /\ (x_error a = kal_ok -> d_iter d' = 0 /\ r = used) /\
        (x_error a <> kal_ok -> r = if used =? 0 then - okm_errno (x_error a) else used)
    | A_skip => held d ++ entries cs = [] /\ cs <> [] /\ d_iter d' <> 0 /\ Forall (fun a => final a = false) cs
    | A_entry name kind => held d ++ entries cs = [(name, kind)] /\ name_ok name /\ Z.of_nat (length name) < 256 /\ d_iter d' <> 0 /\ Forall (fun a => final a = false) cs
    end.
Proof using.
intros Hd He. unfold acquire. destruct (d_pending d =? 0) eqn:Ep; boolean; cbn [negb].
2: { destruct (Hd Ep) as (Hn & Hl & Hi & _). rewrite slen_proper, Nat2Z.id, take_ge by done. intros [= <- <- <-]. exists []. unfold held. replace (d_pending d =? 0) with false by lia. split_and!; try done. cbn; lia. }
destruct env as [|a env]; [done|]. intros [= <- <- <-]. pose proof (Forall_inv He) as Hn. exists [a]. unfold held, entries. rewrite Ep. cbn [Z.eqb app flat_map]. rewrite app_nil_r.
split_and!; try done. unfold entry_of, final. destruct (bool_decide (x_error a = kal_ok)) eqn:Ee; cbn [negb orb].
- apply bool_decide_eq_true in Ee. cbn [d_iter with_iter]. destruct (x_iter a =? 0) eqn:Ei; boolean; cbn [orb].
  + exists a. rewrite Ei, bool_decide_true by done. by split_and!.
  + assert (final a = false) as Hfa by (unfold final; rewrite bool_decide_true by done; cbn; lia).
    destruct (256 <=? _) eqn:El; boolean; split_and!; auto.
- apply bool_decide_eq_false in Ee. exists a. rewrite bool_decide_false by done. split_and!; try done. intros _. by destruct (used =? 0).
Qed.

(** What a run of the loop comes to: the entries it took of what was held and of the
    environment are those it put in the buffer, then the one it holds. *)
Record ran (cap : Z) (d : okm_desc) (buf : list Z) (used : Z) (l : list (list Z * Z)) (cs : list next_answer)
    (r : Z) (d' : okm_desc) (buf' : list Z) : Prop := {
  ra_length : length buf' = length buf;
  ra_dir : dir_ok d';
  ra_kept : exists dl used', held d ++ entries cs = dl ++ held d' /\ chain buf' 0 used' (l ++ typed dl) /\ used <= used' <= cap /\
    (0 < r -> r = used') /\ (r <= 0 -> used' = 0) /\ drop (Z.to_nat used') buf' = drop (Z.to_nat used') buf;
  ra_end : r = 0 -> d_pending d' = 0 /\ d_iter d' = 0;
}.

(** A turn that delivers [now], and then the rest. *)
Lemma ran_more cap d d1 buf buf1 used used1 l now cs1 cs r d' buf' : held d ++ entries cs1 = now ++ held d1 -> length buf1 = length buf -> used <= used1 ->
  drop (Z.to_nat used1) buf1 = drop (Z.to_nat used1) buf -> ran cap d1 buf1 used1 (l ++ typed now) cs r d' buf' -> ran cap d buf used l (cs1 ++ cs) r d' buf'.
Proof using.
intros Hnow Hl Hu Hdr [H1 H2 (dl & u & Hk & Hc & Hr & Hp & Hn & Hd) H4]. constructor; [congruence|done| |done].
exists (now ++ dl), u. split_and!; auto; try lia.
- unfold entries. rewrite flat_map_app, app_assoc. change (flat_map entry_of cs1) with (entries cs1). rewrite Hnow, <-!app_assoc. f_equal. exact Hk.
- unfold typed. rewrite fmap_app, app_assoc. done.
- rewrite Hd. replace (Z.to_nat u) with (Z.to_nat used1 + (Z.to_nat u - Z.to_nat used1))%nat by lia. by rewrite <-!drop_drop, Hdr.
Qed.

Lemma loop_ok fuel : forall cap d buf used env l, dir_ok d -> d_iter_open d <> 0 -> names_ok env -> 0 <= used <= cap -> cap <= Z.of_nat (length buf) -> chain buf 0 used l ->
  (length env + (if (d_pending d =? 0)%Z then 1 else 2) <= fuel)%nat ->
  (loop fuel cap d buf used env = None /\ Forall (fun a => final a = false) env) \/
  exists r d' buf' cs env', loop fuel cap d buf used env = Some (r, d', buf', env') /\ env = cs ++ env' /\ ran cap d buf used l cs r d' buf'.
Proof using.
induction fuel as [|fuel IH]; intros cap d buf used env l Hd Hop He Hu Hcap Hc Hf; [destruct (d_pending d =? 0); lia|]. cbn [getdents_loop].
destruct (acquire d used env) as [[[d1 got] env1]|] eqn:Ea; cbn [mbind option_bind].
2: { left. split; [done|]. revert Ea. unfold acquire. destruct (negb _); [done|]. by destruct env. }
destruct (acquire_ok _ _ _ _ _ _ Hd He Ea) as (cs1 & -> & Hlen & Hop1 & Hnil & Hcons & Hgot). clear Ea.
assert (d_iter_open d1 <> 0) as Hopen by congruence.
apply Forall_app in He as [He1 He]. rewrite length_app in Hf.
assert (dir_ok d1) as Hd1. { destruct cs1 as [|a cs1]; [by destruct (Hnil eq_refl) as [_ ->]|]. intros H. by destruct (Hcons ltac:(done)) as [? _]. }
destruct got as [r| |name kind].
- right. destruct Hgot as (a & -> & Hfin & Hok & Herr). destruct (Hcons ltac:(done)) as [Hp1 Hp]. exists r, d1, buf, [a], env1. split; [done|]. split; [done|].
  pose proof (okm_errno_range (x_error a)). pose proof (proj1 (okm_errno_ok (x_error a))) as Hz.
  assert (r = used \/ (used = 0 /\ r < 0)) as Hr. { destruct (decide (x_error a = kal_ok)) as [E|E]; [left; by destruct (Hok E)|]. rewrite (Herr E). destruct (used =? 0) eqn:?; boolean; [right|by left].
    split; [done|]. destruct (Z.eq_dec (okm_errno (x_error a)) 0); [by destruct E; auto|lia]. }
  constructor; try done.
  + exists [], used. unfold held, entries, entry_of. rewrite Hp, Hp1. cbn [Z.eqb flat_map app typed fmap list_fmap]. rewrite Hfin. cbn [orb app]. rewrite app_nil_r. split_and!; try done; lia.
  + intros ->. split; [done|]. destruct (decide (x_error a = kal_ok)) as [E|E]; [by destruct (Hok E)|]. exfalso. specialize (Herr E). destruct (used =? 0) eqn:?; boolean; [|lia].
    apply E, Hz. lia.
- destruct Hgot as (Hno & Hne & Hi & Hfa). destruct (Hcons Hne) as [Hp1 Hp]. rewrite Hp in Hf. assert (length cs1 = 1)%nat by (destruct cs1; [done|cbn in *; lia]).
  destruct (IH cap d1 buf used env1 l) as [[E F]|(r & d2 & buf2 & cs & env2 & E & -> & H2)]; auto; [rewrite Hp1; cbn in *; lia| |].
  + left. split; [done|]. by apply Forall_app.
  + right. exists r, d2, buf2, (cs1 ++ cs), env2. split_and!; [done|by rewrite app_assoc|]. eapply (ran_more cap d d1 buf buf used used l [] cs1 cs); auto; [|lia|by rewrite app_nil_r].
    rewrite Hno. unfold held. by rewrite Hp1.
- destruct Hgot as (Hent & Hnm & Hlt & Hi & Hfa). set (need := reclen_of (Z.of_nat (length name))) in *. pose proof (reclen_bounds (Z.of_nat (length name)) ltac:(lia)) as [Hneed _]. fold need in Hneed.
  destruct (cap <? used + need) eqn:Efit; boolean.
  + right. do 3 eexists. exists cs1, env1. split; [reflexivity|]. split; [done|].
    assert (held (if d_pending d1 =? 0 then with_pending d1 1 kind name else d1) = [(name, kind)]) as Hheld.
    { destruct (d_pending d1 =? 0) eqn:Ep; boolean; [done|]. destruct cs1 as [|a cs1]; [|by destruct (Hcons ltac:(done))]. destruct (Hnil eq_refl) as [_ ->]. by rewrite app_nil_r in Hent. }
    constructor; [done| | |].
    * destruct (d_pending d1 =? 0); [|done]. intros _. by split_and!.
    * exists [], used. rewrite Hent, Hheld. split_and!; try done; try lia; [by rewrite app_nil_r| |]; destruct (used =? 0) eqn:?; boolean; unfold EINVAL; lia.
    * destruct (used =? 0) eqn:?; boolean; unfold EINVAL; lia.
  + destruct (put_bytes_some buf used (dirent64 1 (used + need) need (type_of kind) name)) as (buf1 & -> & Hl1 & Ht1 & Hb1 & Hdr1); [lia|rewrite length_dirent64; lia|].
    rewrite length_dirent64 in Hb1, Hdr1. cbn [mbind option_bind]. set (d2 := with_pending d1 0 _ _).
    assert (chain buf1 0 (used + need) (l ++ typed [(name, kind)])) as Hc1.
    { eapply chain_app; [by eapply chain_take|]. constructor; auto using type_range; [lia|by exists (used + need)|constructor]. }
    assert ((length env1 + 1 <= fuel)%nat) as Hf1.
    { destruct cs1 as [|a cs1]; cbn [length] in Hf; [|destruct (d_pending d =? 0); lia]. destruct (Hnil eq_refl) as [Hp _]. replace (d_pending d =? 0) with false in Hf by lia. lia. }
    destruct (IH cap d2 buf1 (used + need) env1 (l ++ typed [(name, kind)])) as [[E F]|(r & d3 & buf3 & cs & env2 & E & -> & H2)]; auto; [by intros ?|lia|lia| |].
    * left. split; [done|]. by apply Forall_app.
    * right. exists r, d3, buf3, (cs1 ++ cs), env2. split_and!; [done|by rewrite app_assoc|].
      eapply (ran_more cap d d2 buf buf1 used (used + need) l [(name, kind)] cs1 cs); auto; [lia|]. apply Hdr1. lia.
Qed.

(** ** Calls *)

(** A call on a directory's description with a buffer, which took the answers [cs]:
    what the caller finds in the buffer is [seen]. *)
Inductive listed (d : okm_desc) (seen : list (list Z * Z)) (cs : list next_answer) (d' : okm_desc) : Prop :=
| listed_call buf begin env r buf' env' :
    getdents_of kal_node_directory kal_node_file kal_node_link d buf begin env = Some (r, d', buf', env') ->
    env = cs ++ env' -> names_ok env ->
    read_dents (length buf') buf' 0 r = Some seen -> listed d seen cs d'.

(** Any calls, one after another. *)
Inductive listing (d : okm_desc) : list (list Z * Z) -> list next_answer -> okm_desc -> Prop :=
| listing_nil : listing d [] [] d
| listing_snoc seen cs d1 seen1 cs1 d2 : listing d seen cs d1 -> listed d1 seen1 cs1 d2 -> listing d (seen ++ seen1) (cs ++ cs1) d2.

Lemma chain_length buf pos used l : chain buf pos used l -> 25 * Z.of_nat (length l) <= used - pos.
Proof using.
induction 1 as [|pos used name ty l _ _ _ _ _ _ IH]; [cbn; lia|]. cbn [length]. pose proof (reclen_bounds (Z.of_nat (length name)) ltac:(lia)). lia.
Qed.

(** What a call comes to: what it took is what the caller finds, then what is held. *)
Definition served (d : okm_desc) (buf : list Z) (env : list next_answer) (o : option (Z * okm_desc * list Z * list next_answer)) : Prop :=
  exists r d' buf' cs env' dl, o = Some (r, d', buf', env') /\ env = cs ++ env' /\ dir_ok d' /\ length buf' = length buf /\ r <= Z.of_nat (length buf) /\
    read_dents (length buf') buf' 0 r = Some (typed dl) /\ held d ++ entries cs = dl ++ held d' /\
    drop (Z.to_nat r) buf' = drop (Z.to_nat r) buf /\ (r = 0 -> held d' = [] /\ d_iter d' = 0).

Lemma served_nothing d buf env r d' : r <= 0 -> dir_ok d' -> held d' = held d -> (r = 0 -> held d' = [] /\ d_iter d' = 0) -> served d buf env (Some (r, d', buf, env)).
Proof using.
intros Hr Hd' Hh Hz. exists r, d', buf, [], env, []. split_and!; auto; [lia| |by rewrite app_nil_r, Hh]. destruct (length buf); cbn [read_dents]; by replace (r <=? 0) with true by lia.
Qed.

Lemma ran_served d buf env r d' buf' cs env' : env = cs ++ env' -> ran (Z.of_nat (length buf)) d buf 0 [] cs r d' buf' -> served d buf env (Some (r, d', buf', env')).
Proof using.
intros -> [H1 H2 (dl & u & Hk & Hc & Hu & Hpos & Hneg & Hdr) H4]. exists r, d', buf', cs, env', dl.
assert (Z.to_nat r = Z.to_nat u) as Hru by (destruct (Z.le_gt_cases r 0) as [Hr|Hr]; [rewrite (Hneg Hr); lia|by rewrite Hpos]).
split_and!; auto; [destruct (Z.le_gt_cases r 0); lia| |by rewrite Hru|].
- assert (read_dents (length buf') buf' 0 u = Some (typed dl)) as Hrd. { apply chain_read; [done|]. apply chain_length in Hc. cbn [app] in Hc. lia. }
  destruct (Z.le_gt_cases r 0) as [Hr|Hr]; [|by rewrite Hpos]. rewrite (Hneg Hr) in Hrd. revert Hrd. destruct (length buf'); cbn [read_dents]; by replace (r <=? 0) with true by lia.
- intros Hr. destruct (H4 Hr) as [Hp ?]. unfold held. by rewrite Hp.
Qed.

(** A call returns once the environment has said it has no more, or fails. *)
Lemma getdents_of_ok d buf begin env : dir_ok d -> names_ok env ->
  (getdents_of kal_node_directory kal_node_file kal_node_link d buf begin env = None /\ Forall (fun a => final a = false) env) \/
  served d buf env (getdents_of kal_node_directory kal_node_file kal_node_link d buf begin env).
Proof using.
intros Hd He.
assert (forall d1, dir_ok d1 -> held d1 = held d -> d_iter_open d1 <> 0 ->
  let run := if d_iter d1 =? 0 then Some (0, d1, buf, env) else loop (2 + length env) (Z.of_nat (length buf)) d1 buf 0 env in
  (run = None /\ Forall (fun a => final a = false) env) \/ served d buf env run) as Hrun.
{ intros d1 Hd1 Hh1 Hp1. cbv zeta. destruct (d_iter d1 =? 0) eqn:Ei; boolean.
  { right. apply served_nothing; auto; [lia|]. intros _. split; [|done]. unfold held. destruct (d_pending d1 =? 0) eqn:E; boolean; [done|]. by destruct (Hd1 E) as (_ & _ & ? & _). }
  destruct (loop_ok (2 + length env) (Z.of_nat (length buf)) d1 buf 0 env []) as [?|(r & d' & buf' & cs & env' & E & Ecs & Hr)];
    auto; [lia|lia|constructor|destruct (d_pending d1 =? 0); lia|]. right. rewrite E. destruct (ran_served d1 buf env r d' buf' cs env' Ecs Hr) as (r0 & d0 & b0 & cs0 & e0 & dl & H).
  rewrite Hh1 in H. by exists r0, d0, b0, cs0, e0, dl. }
unfold getdents_of. cbv zeta in *. destruct (d_iter_open d =? 0) eqn:Eo; boolean; [|by apply Hrun].
assert (d_pending d = 0) as Hp. { destruct (Z.eq_dec (d_pending d) 0) as [|E]; [done|]. by destruct (Hd E) as (_ & _ & _ & ?). }
case_bool_decide as Hb; cbn [negb].
- apply Hrun; [|done|done]. intros H. by destruct H.
- right. pose proof (okm_errno_range begin.1). pose proof (proj1 (okm_errno_ok begin.1)). apply served_nothing; auto; [lia|].
  intros E. destruct Hb. apply okm_errno_ok. lia.
Qed.

Lemma listed_ok d seen cs d' : dir_ok d -> listed d seen cs d' -> dir_ok d' /\ typed (held d ++ entries cs) = seen ++ typed (held d').
Proof using.
intros Hd [buf begin env r buf' env' E Ecs He Hs]. destruct (getdents_of_ok d buf begin env Hd He) as [[E' _]|(r1 & d1 & b1 & cs1 & e1 & dl & E1 & Ecs1 & Hd1 & _ & _ & Hr & Hk & _)]; [congruence|].
rewrite E in E1. injection E1 as <- <- <- <-. rewrite Ecs in Ecs1. apply app_inv_tail in Ecs1 as <-. split; [done|]. assert (seen = typed dl) as -> by congruence. rewrite Hk. unfold typed. by rewrite fmap_app.
Qed.

Lemma listing_ok d seen cs d' : dir_ok d -> listing d seen cs d' -> dir_ok d' /\ typed (held d ++ entries cs) = seen ++ typed (held d').
Proof using.
intros Hd. induction 1 as [|seen cs d1 seen1 cs1 d2 _ [Hd1 IH] Hl]; [by rewrite app_nil_r|]. destruct (listed_ok _ _ _ _ Hd1 Hl) as [Hd2 E]. split; [done|].
unfold entries, typed in *. rewrite flat_map_app, app_assoc, fmap_app, IH, <-!app_assoc. f_equal. by rewrite <-fmap_app, E.
Qed.
End loop.

(** C4. A directory listed from its start, by any calls with buffers of any size and
    whatever the environment answers: what the caller finds walking its buffers by
    the length of each entry is, in order and once each, the entries the environment
    answered, but for the one that is held and the names of 256 bytes and more. A
    further call returns once the environment says it has no more or fails, writes
    within the bytes it answers and these within the buffer, and answers zero only
    when every entry has been delivered. *)
Theorem getdents_lossless kd kf kl d seen cs d' :
  dir_ok d -> held d = [] -> listing kd kf kl d seen cs d' ->
  typed kd kf kl (entries cs) = seen ++ typed kd kf kl (held d') /\
  forall t fd i buf begin env, okm_desc_of t fd = Some i -> at_ (g_desc t) i = Some d' -> d_kind d' = OKM_DIR -> names_ok env -> Exists (fun a => final a = true) env ->
    exists r d2 buf' cs2 env', do_getdents kd kf kl fd buf begin env t = Some ((r, buf', env'), with_desc t (<[Z.to_nat i := d2]> (g_desc t))) /\
      env = cs2 ++ env' /\ r <= Z.of_nat (length buf) /\ length buf' = length buf /\ drop (Z.to_nat r) buf' = drop (Z.to_nat r) buf /\
      (r = 0 -> seen = typed kd kf kl (entries (cs ++ cs2))).
Proof.
  intros Hd Hh Hl. destruct (listing_ok kd kf kl d seen cs d' Hd Hl) as [Hd' E]. rewrite Hh in E. split; [done|]. intros t fd i buf begin env Hof Hi Hk He Hfin.
  destruct (getdents_of_ok kd kf kl d' buf begin env Hd' He) as [[_ Hno]|(r & d2 & buf' & cs2 & env' & dl & E2 & Ecs & _ & Hlen & Hr & Hrd & Hkept & Hdr & Hz)].
  { exfalso. apply Exists_exists in Hfin as (a & Ha & Hf). rewrite Forall_forall in Hno. specialize (Hno a Ha). congruence. }
  exists r, d2, buf', cs2, env'. split.
  { unfold do_getdents, mbind, M_bind, gets. change (id t) with t. rewrite Hof, (get_desc_eq _ _ _ Hi), bool_decide_true by done. cbn [negb]. unfold try. rewrite E2. cbn [fmap option_fmap option_map].
    by rewrite (put_desc_eq _ _ _ _ Hi). }
  split_and!; auto. intros Hr0. destruct (Hz Hr0) as [Hh2 _]. rewrite Hh2, app_nil_r in Hkept.
  assert (dl = []) as ->. { subst r. destruct (length buf'); cbn in Hrd; injection Hrd as Hrd; symmetry in Hrd; by apply fmap_nil_inv in Hrd. }
  apply app_eq_nil in Hkept as [Hh' Hc2]. rewrite Hh' in E. cbn in E. rewrite app_nil_r in E. unfold entries in *. by rewrite flat_map_app, Hc2, app_nil_r.
Qed.

(** A directory of three entries, listed with a buffer for one and then for the rest. *)
Definition three : list next_answer := [Next kal_ok 7 [97] 1; Next kal_ok 7 [98; 99] 2; Next kal_ok 7 [100] 3; Next kal_ok 0 [] 0].
Definition fresh_dir : okm_desc := Desc 1 OKM_DIR 0 0 0 5 0 0 (-1) 0 0 [] (-1) 0 0 0.

Definition first_call := getdents_of 1 2 3 fresh_dir (replicate 40 9) (kal_ok, 7) three.

Lemma first_call_eq : match first_call with
  | Some (r, d, buf, env) => r = 32 /\ env = drop 2 three /\ read_dents (length buf) buf 0 r = Some [([97], DT_DIR)] /\ held d = [([98; 99], 2)] /\ d_kind d = OKM_DIR
  | None => False
  end.
Proof. by vm_compute. Qed.

Lemma getdents_lossless_witness : exists r d buf env, first_call = Some (r, d, buf, env) /\ held d = [([98; 99], 2)] /\
  typed 1 2 3 (entries (take 2 three)) = [([97], DT_DIR)] ++ typed 1 2 3 (held d).
Proof.
  pose proof first_call_eq as H. destruct first_call as [[[[r d] buf] env]|] eqn:E; [|destruct H]. destruct H as (-> & -> & Hrd & Hh & _).
  exists 32, d, buf, (drop 2 three). split; [reflexivity|]. split; [exact Hh|].
  refine (proj1 (getdents_lossless 1 2 3 fresh_dir ([] ++ [([97], DT_DIR)]) ([] ++ take 2 three) d _ eq_refl _)).
  - intros H. by destruct H.
  - apply (listing_snoc 1 2 3 fresh_dir [] [] fresh_dir); [constructor|]. apply (listed_call 1 2 3 fresh_dir _ _ d (replicate 40 9) (kal_ok, 7) three 32 buf (drop 2 three)); [exact E|reflexivity| |exact Hrd].
    repeat constructor; done.
Defined.
