(* ===== verification/Transfer.v ===== *)
(** Reading and writing (port/src/okm_syscall.c: stream_of, do_write, do_read_stream,
    do_read, transfer_at, do_transfer_at, and copy_file_range of do_scratch_call). *)
From S2P Require Import Prelude Kal FdTable Net.
From stdpp Require Import base list option.
From Stdlib Require Import ZArith Lia.

#[local] Open Scope Z_scope.

Definition ESPIPE : Z := 29.
Definition ISTRIP : Z := 0x20.
Definition ICRNL : Z := 0x100.

Inductive whence := SEEK_SET | SEEK_CUR.

(** What the environment offers, over a state [W] of its own: a read and a write of a
    stream under a bound (zero for none), whether a stream is interactive, and of a
    file its seek and the transfers at an offset. *)
Class KalIo (W : Type) := {
  io_read : Z -> Z -> Z -> W -> io (list Z) * W;
  io_write : Z -> list Z -> Z -> W -> io Z * W;
  io_interactive : W -> Z -> bool;
  io_seek : Z -> Z -> whence -> W -> (kal_error * Z) * W;
  io_read_at : Z -> Z -> Z -> W -> io (list Z) * W;
  io_write_at : Z -> list Z -> Z -> W -> io Z * W;
}.

Record sys (W : Type) := Sys { y_net : net; y_env : W }.
Arguments Sys {W}.
Arguments y_net {W}.
Arguments y_env {W}.

Section transfer.
Context {W : Type} `{KalIo W}.

Definition lift {A} (e : M net A) : M (sys W) A := fun y =>
  match e (y_net y) with
  | None => None
  | Some (x, n) => Some (x, Sys n (y_env y))
  end.

Definition env {A} (f : W -> A * W) : M (sys W) A := fun y => let (x, w) := f (y_env y) in Some (x, Sys (y_net y) w).

(** The bounded operations of okm_poll.c: the environment is asked where they ask it. *)
Context (can_bound : bool).

Definition timed_read (s len ns : Z) : M (sys W) (Z * list Z) :=
  r ← (if can_bound && negb (len =? 0) then env (io_read s len ns) else mret (inl kal_err_again));
  lift (okm_timed_read can_bound s len ns r).

Definition timed_write (s : Z) (buf : list Z) (ns : Z) : M (sys W) Z :=
  let len := Z.of_nat (length buf) in
  r ← (if can_bound && negb (len =? 0) then env (io_write s buf ns) else mret (inl kal_err_again));
  lift (okm_timed_write can_bound s buf ns r).

(** ** Streams *)

Definition stream_of (t : fd_table) (fd : Z) : Z + Z :=
  match desc_at t fd with
  | None => inl (- EBADF)
  | Some d =>
      match d_kind d with
      | OKM_STREAM | OKM_CHANNEL | OKM_FILE => inr (d_stream d)
      | OKM_SOCKET => if d_stream d =? 0 then inl (- ENOTCONN) else inr (d_stream d)
      | _ => inl (- EISDIR)
      end
  end.

Definition is_null (t : fd_table) (fd : Z) : bool :=
  match desc_at t fd with Some d => bool_decide (d_kind d = OKM_NULL) | None => false end.

Definition do_write (fd : Z) (buf : list Z) : M (sys W) Z :=
  t ← gets (fun y => n_fds (y_net y));
  let len := Z.of_nat (length buf) in
  if is_null t fd then mret len
  else match stream_of t fd with
  | inl r => mret r
  | inr s =>
      if len =? 0 then mret 0
      else
        d ← try (fun _ => desc_at t fd);
        if has (d_flags d) O_NONBLOCK then timed_write s buf OKM_NOW_NS
        else
          r ← env (io_write s buf 0);
          lift (n_ask (Q_write s buf 0));;
          mret (io_result r)
  end.

(** The count, and what is put in the buffer. *)
Definition do_read_stream (fd len : Z) : M (sys W) (Z * list Z) :=
  t ← gets (fun y => n_fds (y_net y));
  if is_null t fd then mret (0, [])
  else match stream_of t fd with
  | inl r => mret (r, [])
  | inr s =>
      if len =? 0 then mret (0, [])
      else
        i ← try (fun _ => okm_desc_of t fd);
        d ← try (fun _ => desc_at t fd);
        held ← lift (in_fds (okm_take_ahead i len));
        if held.1 =? OKM_AHEAD_EOF then mret (0, [])
        else if negb (held.1 =? 0) then
          if (1 <? len) && can_bound then
            more ← timed_read s (len - 1) OKM_NOW_NS;
            if 0 <? more.1 then mret (held.1 + more.1, held.2 ++ more.2) else mret held
          else mret held
        else if has (d_flags d) O_NONBLOCK then timed_read s len OKM_NOW_NS
        else
          r ← env (io_read s len 0);
          lift (n_ask (Q_read s len 0));;
          mret (match r with inl e => (- okm_errno e, []) | inr l => (Z.of_nat (length l), l) end)
  end.

(** What this layer does to a byte typed, where it took the task over. *)
Definition alter (g_term_alter b : Z) : Z :=
  let b := if has g_term_alter ISTRIP then Z.land b 0x7f else b in
  if has g_term_alter ICRNL && (b =? 13) then 10 else b.

Definition do_read (g_term_alter fd len : Z) : M (sys W) (Z * list Z) :=
  x ← do_read_stream fd len;
  if (x.1 <=? 0) || (g_term_alter =? 0) then mret x
  else
    y ← gets id;
    match desc_at (n_fds (y_net y)) fd with
    | None => mret x
    | Some d =>
        if negb (bool_decide (d_kind d = OKM_STREAM)) then mret x
        else if negb (io_interactive (y_env y) (d_stream d)) then mret x
        else mret (x.1, alter g_term_alter <$> x.2)
    end.

(** ** Transfers at an offset *)

(** The loop over the parts of a read, whose rooms are [v]: the total, and what each
    part received. [io] reads one part at the offset [total]. *)
Fixpoint scatter (io : Z -> Z -> M (sys W) (Z * list Z)) (v : list Z) (total : Z) : M (sys W) (Z * list (list Z)) :=
  match v with
  | [] => mret (total, [])
  | len :: v' =>
      if len =? 0 then x ← scatter io v' total; mret (x.1, [] :: x.2)
      else
        r ← io len total;
        if r.1 <? 0 then mret (if total =? 0 then r.1 else total, [])
        else if r.1 <? len then mret (total + r.1, [r.2])
        else x ← scatter io v' (total + r.1); mret (x.1, r.2 :: x.2)
  end.

(** And over the parts of a write. *)
Fixpoint gather (io : list Z -> Z -> M (sys W) Z) (v : list (list Z)) (total : Z) : M (sys W) Z :=
  match v with
  | [] => mret total
  | buf :: v' =>
      if Z.of_nat (length buf) =? 0 then gather io v' total
      else
        r ← io buf total;
        if r <? 0 then mret (if total =? 0 then r else total)
        else if r <? Z.of_nat (length buf) then mret (total + r)
        else gather io v' (total + r)
  end.

Definition transfer_at_read (d : okm_desc) (v : list Z) (at' : Z) : M (sys W) (Z * list (list Z)) :=
  scatter (fun len total =>
    r ← env (io_read_at (d_file d) len (wrap64 (at' + total)));
    mret (match r with inl e => (- okm_errno e, []) | inr l => (Z.of_nat (length l), l) end)) v 0.

Definition transfer_at_write (d : okm_desc) (v : list (list Z)) (at' : Z) : M (sys W) Z :=
  gather (fun buf total => r ← env (io_write_at (d_file d) buf (wrap64 (at' + total))); mret (io_result r)) v 0.

(** Where the environment transfers at no offset: a seek, the transfer, a seek back. *)
Definition at_position {A} (d : okm_desc) (at' : Z) (fail : Z -> A) (body : M (sys W) A) : M (sys W) A :=
  k ← env (io_seek (d_file d) 0 SEEK_CUR);
  e ← (if bool_decide (k.1 = kal_ok) then s ← env (io_seek (d_file d) at' SEEK_SET); mret s.1 else mret k.1);
  if negb (bool_decide (e = kal_ok)) then mret (fail (- okm_errno e))
  else
    x ← body;
    env (io_seek (d_file d) k.2 SEEK_SET);;
    mret x.

Context (g_term_alter : Z) (at_available : bool).

Definition do_transfer_at_read (fd : Z) (v : list Z) (at' : Z) : M (sys W) (Z * list (list Z)) :=
  t ← gets (fun y => n_fds (y_net y));
  match desc_at t fd with
  | None => mret (- EBADF, [])
  | Some d =>
      if bool_decide (d_kind d = OKM_NULL) then mret (if at' <? 0 then - EINVAL else 0, [])
      else if negb (bool_decide (d_kind d = OKM_FILE)) then mret (- ESPIPE, [])
      else if at' <? 0 then mret (- EINVAL, [])
      else if at_available then transfer_at_read d v at'
      else at_position d at' (fun r => (r, [])) (scatter (fun len _ => do_read g_term_alter fd len) v 0)
  end.

Definition do_transfer_at_write (fd : Z) (v : list (list Z)) (at' : Z) : M (sys W) Z :=
  t ← gets (fun y => n_fds (y_net y));
  match desc_at t fd with
  | None => mret (- EBADF)
  | Some d =>
      if bool_decide (d_kind d = OKM_NULL) then mret (if at' <? 0 then - EINVAL else Z.of_nat (length (concat v)))
      else if negb (bool_decide (d_kind d = OKM_FILE)) then mret (- ESPIPE)
      else if at' <? 0 then mret (- EINVAL)
      else if at_available then transfer_at_write d v at'
      else at_position d at' id (gather (fun buf _ => do_write fd buf) v 0)
  end.

(** ** copy_file_range *)

(** A transfer of at most a block at a time: what was moved, and the failure. *)
Fixpoint copy_blocks (fuel : nat) (fd_in fd_out want done : Z) : M (sys W) (option (Z * Z)) :=
  match fuel with
  | O => mret None
  | S fuel' =>
      if want <=? done then mret (Some (done, 0))
      else
        got ← do_read g_term_alter fd_in (Z.min (want - done) 8192);
        if got.1 <? 0 then mret (Some (done, got.1))
        else if got.1 =? 0 then mret (Some (done, 0))
        else
          put ← do_write fd_out got.2;
          if put <? 0 then mret (Some (done, put))
          else if put <? got.1 then mret (Some (done + put, - EIO))
          else copy_blocks fuel' fd_in fd_out want (done + put)
  end.

(** The position of a file whose offset the caller gave: kept, and put at the offset. *)
Definition keep_position (f : Z) (off : option Z) : M (sys W) (option Z) :=
  match off with
  | None => mret (Some 0)
  | Some o =>
      k ← env (io_seek f 0 SEEK_CUR);
      if negb (bool_decide (k.1 = kal_ok)) then mret None
      else s ← env (io_seek f o SEEK_SET); mret (if bool_decide (s.1 = kal_ok) then Some k.2 else None)
  end.

Definition put_back (f : Z) (off : option Z) (keep done : Z) : M (sys W) (option Z) :=
  match off with
  | None => mret None
  | Some o => env (io_seek f 0 SEEK_CUR);; env (io_seek f keep SEEK_SET);; mret (Some (o + done))
  end.

(** The answer, or that [fuel] blocks were not enough, and the offsets as they are
    left. *)
Definition copy_file_range (fuel : nat) (fd_in : Z) (off_in : option Z) (fd_out : Z) (off_out : option Z) (want flags : Z)
    : M (sys W) (option Z * option Z * option Z) :=
  let stop r := mret (Some r, off_in, off_out) in
  if negb (flags =? 0) then stop (- EINVAL)
  else if want =? 0 then stop 0
  else
    t ← gets (fun y => n_fds (y_net y));
    match desc_at t fd_in, desc_at t fd_out with
    | Some di, Some dobj =>
        if negb (bool_decide (d_kind di = OKM_FILE)) || negb (bool_decide (d_kind dobj = OKM_FILE)) then stop (- EINVAL)
        else
          k ← keep_position (d_file di) off_in;
          match k with
          | None => stop (- EIO)
          | Some keep_in =>
              k ← keep_position (d_file dobj) off_out;
              match k with
              | None => stop (- EIO)
              | Some keep_out =>
                  r ← copy_blocks fuel fd_in fd_out want 0;
                  match r with
                  | None => mret (None, off_in, off_out)
                  | Some (done, failure) =>
                      o_in ← put_back (d_file di) off_in keep_in done;
                      o_out ← put_back (d_file dobj) off_out keep_out done;
                      mret (Some (if 0 <? done then done else if negb (failure =? 0) then failure else 0), o_in, o_out)
                  end
              end
          end
    | _, _ => stop (- EBADF)
    end.
End transfer.
