(* ===== verification/TransferOk.v ===== *)
(** Reads and writes of files over an environment that keeps its word: what it promises
    of a file, and what one read or write of a file's descriptor then does. An environment with
    so much room to write in shows that what is asked of it can be had. *)
From S2P Require Import Prelude Kal FdTable FdTableOk FdTheorems Net NetOk NetTheorems Transfer.
From stdpp Require Import base list option.
From Stdlib Require Import ZArith Lia.

#[local] Open Scope Z_scope.

(** [b] written over [l] at [off]; a gap reads as zero. *)
Definition splice (l : list Z) (off : Z) (b : list Z) : list Z :=
  match b with
  | [] => l
  | _ => take (Z.to_nat off) l ++ replicate (Z.to_nat off - length l) 0 ++ b ++ drop (Z.to_nat off + length b) l
  end.

(** ** What the environment promises of files
    [bytes] is what a file holds and [pos] its position; [fs_stream] the stream of a
    file. Two files that were opened apart may be one node's, and then hold the same, each
    with a position of its own. A transfer by the stream is at the position and moves it,
    but that one opened to append writes elsewhere, of which nothing is said; one at an
    offset neither uses it nor moves it; a seek moves it alone, or is refused. *)
Class KalFiles (W : Type) `{KalIo W} := {
  bytes : W -> Z -> list Z;
  pos : W -> Z -> Z;
  fs_stream : Z -> Z;
  same_node : Z -> Z -> bool;
  appends : Z -> bool;
  same_node_refl f : same_node f f = true;
  same_node_bytes w f f' : same_node f f' = true -> bytes w f' = bytes w f;
  pos_nonneg w f : 0 <= pos w f;
  read_ok f len b w r w' : 0 < len -> io_read (fs_stream f) len b w = (r, w') ->
    (forall f', bytes w' f' = bytes w f') /\ (forall f', f' <> f -> pos w' f' = pos w f') /\
    match r with
    | inl _ => pos w' f = pos w f
    | inr l => Z.of_nat (length l) <= len /\ l = take (length l) (drop (Z.to_nat (pos w f)) (bytes w f)) /\ pos w' f = pos w f + Z.of_nat (length l)
    end;
  write_ok f buf b w r w' : appends f = false -> io_write (fs_stream f) buf b w = (r, w') ->
    (forall f', same_node f f' = false -> bytes w' f' = bytes w f') /\ (forall f', f' <> f -> pos w' f' = pos w f') /\
    match r with
    | inl _ => bytes w' f = bytes w f /\ pos w' f = pos w f
    | inr n => 0 <= n <= Z.of_nat (length buf) /\ bytes w' f = splice (bytes w f) (pos w f) (take (Z.to_nat n) buf) /\ pos w' f = pos w f + n
    end;
  read_at_ok f len off w r w' : 0 < len -> 0 <= off -> io_read_at f len off w = (r, w') ->
    (forall f', bytes w' f' = bytes w f' /\ pos w' f' = pos w f') /\
    match r with inl _ => True | inr l => Z.of_nat (length l) <= len /\ l = take (length l) (drop (Z.to_nat off) (bytes w f)) end;
  write_at_ok f buf off w r w' : appends f = false -> 0 <= off -> io_write_at f buf off w = (r, w') ->
    (forall f', same_node f f' = false -> bytes w' f' = bytes w f') /\ (forall f', pos w' f' = pos w f') /\
    match r with
    | inl _ => bytes w' f = bytes w f
    | inr n => 0 <= n <= Z.of_nat (length buf) /\ bytes w' f = splice (bytes w f) off (take (Z.to_nat n) buf)
    end;
  tell_ok f w r w' : io_seek f 0 SEEK_CUR w = (r, w') -> w' = w /\ (r.1 = kal_ok -> r.2 = pos w f);
  seek_ok f o w r w' : io_seek f o SEEK_SET w = (r, w') ->
    (forall f', bytes w' f' = bytes w f') /\ (forall f', f' <> f -> pos w' f' = pos w f') /\
    pos w' f = (if bool_decide (r.1 = kal_ok) then o else pos w f);
  (** A file can be put back where it said it was. *)
  seek_back f o w w' : (io_seek f 0 SEEK_CUR w).1 = (kal_ok, o) -> (io_seek f o SEEK_SET w').1.1 = kal_ok;
}.

Lemma splice_app l o a b : 0 <= o -> splice (splice l o a) (o + Z.of_nat (length a)) b = splice l o (a ++ b).
Proof.
  intros Ho. destruct b as [|b0 b]; [by rewrite app_nil_r|]. destruct a as [|a0 a]; [cbn [splice length app]; by rewrite Z.add_0_r|].
  set (A := a0 :: a). set (B := b0 :: b). change (splice l o (A ++ B)) with (take (Z.to_nat o) l ++ replicate (Z.to_nat o - length l) 0 ++ (A ++ B) ++ drop (Z.to_nat o + length (A ++ B)) l).
  change (splice l o A) with (take (Z.to_nat o) l ++ replicate (Z.to_nat o - length l) 0 ++ A ++ drop (Z.to_nat o + length A) l).
  set (X := take (Z.to_nat o) l ++ replicate (Z.to_nat o - length l) 0). assert (length X = Z.to_nat o) as HX by (unfold X; rewrite length_app, length_take, length_replicate; lia).
  assert (forall r, take (Z.to_nat o) l ++ replicate (Z.to_nat o - length l) 0 ++ r = X ++ r) as EX by (intros r; unfold X; by rewrite app_assoc). rewrite !EX.
  unfold splice. fold B. replace (Z.to_nat (o + Z.of_nat (length A))) with (Z.to_nat o + length A)%nat by lia.
  rewrite app_assoc, take_app_length' by (rewrite length_app; lia).
  match goal with |- context [replicate ?k 0] => replace k with O by (rewrite !length_app; lia) end. cbn [replicate app].
  rewrite drop_app_ge by (rewrite length_app; lia). rewrite drop_drop, <-!app_assoc. do 3 f_equal. rewrite length_app. f_equal. rewrite length_app. lia.
Qed.

Lemma length_slice (l : list Z) a n : (length (take n (drop a l)) <= n)%nat.
Proof. rewrite length_take. lia. Qed.

(** Two parts of a file, one after the other. *)
Lemma slice_app (l : list Z) o m n : take m (drop o l) ++ take n (drop (o + m) l) = take (m + n) (drop o l).
Proof. rewrite <-drop_drop. by rewrite take_take_drop. Qed.

Section file.
Context {W : Type} `{KalFiles W}.
Context (can_bound : bool) (g_term_alter : Z).
Implicit Types y : sys W.

(** A descriptor of the file [f], as open made it: with the file's stream, not to append,
    and nothing read ahead. *)
Definition file_fd (t : fd_table) (fd f : Z) : Prop :=
  exists i d, okm_desc_of t fd = Some i /\ at_ (g_desc t) i = Some d /\ d_kind d = OKM_FILE /\ d_file d = f /\ d_stream d = fs_stream f /\ d_ahead d = 0 /\ d_ahead_eof d = 0 /\ appends f = false.

Lemma file_desc t fd f : file_fd t fd f -> exists i d, okm_desc_of t fd = Some i /\ desc_at t fd = Some d /\ at_ (g_desc t) i = Some d /\ d_kind d = OKM_FILE /\ d_file d = f /\
  stream_of t fd = inr (fs_stream f) /\ is_null t fd = false /\ d_ahead d = 0 /\ d_ahead_eof d = 0 /\ appends f = false.
Proof using.
intros (i & d & Hof & Hd & Hk & Hf & Hs & Ha & He & Happ). exists i, d. assert (desc_at t fd = Some d) as Hda by (unfold desc_at; by rewrite Hof).
split_and!; auto; [unfold stream_of; by rewrite Hda, Hk, Hs|unfold is_null; by rewrite Hda, Hk].
Qed.

(** Nothing but the environment changes. *)
Definition same_net y y' : Prop := n_fds (y_net y') = n_fds (y_net y).

(** A read of the file [f] of at most [len]. *)
Definition reads (f len : Z) y (r : Z * list Z) y' : Prop :=
  same_net y y' /\ (forall f', bytes (y_env y') f' = bytes (y_env y) f') /\ (forall f', f' <> f -> pos (y_env y') f' = pos (y_env y) f') /\
  pos (y_env y') f = pos (y_env y) f + Z.of_nat (length r.2) /\ r.2 = take (length r.2) (drop (Z.to_nat (pos (y_env y) f)) (bytes (y_env y) f)) /\
  Z.of_nat (length r.2) <= len /\ (r.1 < 0 /\ r.2 = [] \/ r.1 = Z.of_nat (length r.2)).

Lemma reads_answer f len b y r w' : 0 < len -> io_read (fs_stream f) len b (y_env y) = (r, w') -> forall n', n_fds n' = n_fds (y_net y) -> forall c,
  (forall e, r = inl e -> c <= 0) -> (forall l, r = inr l -> c = Z.of_nat (length l)) ->
  reads f len y (c, match r with inl _ => [] | inr l => l end) (Sys n' w').
Proof using.
intros Hlen E n' Hn' c He Hl. destruct (read_ok _ _ _ _ _ _ Hlen E) as (Hb & Hp & Hr). unfold reads. cbn [fst snd y_env y_net]. split_and!; auto; destruct r as [e|l]; cbn [length]; try done; try lia; try tauto.
- specialize (He e eq_refl). destruct (Z.eq_dec c 0); [by right|left; split; [lia|done]].
- right. by apply Hl.
Qed.

Lemma timed_read_file f len ns y : 0 < len -> exists r y', timed_read can_bound (fs_stream f) len ns y = Some (r, y') /\ reads f len y r y'.
Proof using.
intros Hlen. unfold timed_read, mbind, M_bind. replace (len =? 0) with false by lia. cbn [negb]. rewrite andb_true_r. destruct can_bound.
- unfold env. destruct (io_read (fs_stream f) len ns (y_env y)) as [r w'] eqn:E. unfold lift, okm_timed_read. replace (len =? 0) with false by lia. unfold n_ask, modify, mbind, M_bind. cbn [negb y_net].
  do 2 eexists. split; [reflexivity|]. pose proof okm_errno_range as Hr. cbn [y_env y_net]. 
  match goal with |- reads _ _ _ ?x _ => replace x with (x.1, match r with inl _ => [] | inr l => l end) by (by destruct r) end.
  eapply reads_answer; eauto; intros ? ->; cbn; [case_bool_decide; [done|specialize (Hr e); lia]|done].
- do 2 eexists. split; [unfold lift, okm_timed_read; cbn [negb]; reflexivity|]. unfold reads. cbn. split_and!; try done; try lia. by left.
Qed.

Lemma read_file fd f len y : file_fd (n_fds (y_net y)) fd f -> 0 < len ->
  exists r y', do_read can_bound g_term_alter fd len y = Some (r, y') /\ reads f len y r y'.
Proof using.
intros Hf Hlen. destruct (file_desc _ _ _ Hf) as (i & d & Hof & Hda & Hd & Hk & _ & Hs & Hnull & Ha & He & _).
assert (exists r y', do_read_stream can_bound fd len y = Some (r, y') /\ reads f len y r y') as (r & y' & E & Hr).
{ unfold do_read_stream, mbind, M_bind, gets. rewrite Hnull, Hs. replace (len =? 0) with false by lia. unfold try. rewrite Hof, Hda. cbn [fmap option_fmap option_map].
  assert (lift (in_fds (okm_take_ahead i len)) y = Some ((0, []), y)) as ->.
  { unfold lift, in_fds, okm_take_ahead, mbind, M_bind. rewrite (get_desc_eq _ _ _ Hd), Ha, He. cbn. by destruct y as [[] ?]. }
  cbn [fst snd]. change (0 =? OKM_AHEAD_EOF) with false. change (negb (0 =? 0)) with false. cbv iota. split_if; [by apply timed_read_file|].
  unfold env. destruct (io_read (fs_stream f) len 0 (y_env y)) as [r w'] eqn:Er. unfold lift, n_ask, modify. cbn [y_net y_env]. do 2 eexists. split; [reflexivity|].
  pose proof okm_errno_range as Hr. match goal with |- reads _ _ _ ?x _ => replace x with (x.1, match r with inl _ => [] | inr l => l end) by (by destruct r) end.
  eapply reads_answer; eauto; intros ? ->; cbn; [specialize (Hr e); lia|done]. }
exists r, y'. split; [|done]. unfold do_read, mbind, M_bind. rewrite E. split_if; [by destruct r|].
unfold gets. destruct Hr as (Hn & _). unfold same_net in Hn. change (id y') with y'. rewrite Hn, Hda, Hk. by destruct r.
Qed.

(** A write of [buf] to the file [f]. *)
Definition writes (f : Z) (buf : list Z) y (r : Z) y' : Prop :=
  same_net y y' /\ (forall f', same_node f f' = false -> bytes (y_env y') f' = bytes (y_env y) f') /\ (forall f', f' <> f -> pos (y_env y') f' = pos (y_env y) f') /\
  (r <= 0 /\ bytes (y_env y') f = bytes (y_env y) f /\ pos (y_env y') f = pos (y_env y) f \/
   0 <= r <= Z.of_nat (length buf) /\ bytes (y_env y') f = splice (bytes (y_env y) f) (pos (y_env y) f) (take (Z.to_nat r) buf) /\ pos (y_env y') f = pos (y_env y) f + r).

Lemma writes_answer f buf b y r w' : appends f = false -> io_write (fs_stream f) buf b (y_env y) = (r, w') -> forall n', n_fds n' = n_fds (y_net y) -> forall c,
  (forall e, r = inl e -> c <= 0) -> (forall n, r = inr n -> c = n) -> writes f buf y c (Sys n' w').
Proof using.
intros Happ E n' Hn' c He Hl. destruct (write_ok _ _ _ _ _ _ Happ E) as (Ho & Hpo & Hr). unfold writes. cbn [y_env y_net]. split_and!; auto.
destruct r as [e|n]; [left; split; [by apply (He e)|done]|]. right. rewrite (Hl n eq_refl). done.
Qed.

Lemma write_file fd f buf y : file_fd (n_fds (y_net y)) fd f -> buf <> [] ->
  exists r y', do_write can_bound fd buf y = Some (r, y') /\ writes f buf y r y'.
Proof using.
intros Hf Hbuf. destruct (file_desc _ _ _ Hf) as (i & d & Hof & Hda & Hd & Hk & _ & Hs & Hnull & _ & _ & Happ).
assert (0 < Z.of_nat (length buf)) as Hlen by (destruct buf; [done|cbn; lia]). pose proof okm_errno_range as Hr.
unfold do_write, mbind, M_bind, gets. rewrite Hnull, Hs. replace (Z.of_nat (length buf) =? 0) with false by lia. unfold try. rewrite Hda. cbn [fmap option_fmap option_map].
split_if.
- unfold timed_write, mbind, M_bind. replace (Z.of_nat (length buf) =? 0) with false by lia. cbn [negb]. rewrite andb_true_r. destruct can_bound.
  + unfold env. destruct (io_write (fs_stream f) buf OKM_NOW_NS (y_env y)) as [r w'] eqn:E. unfold lift, okm_timed_write. replace (Z.of_nat (length buf) =? 0) with false by lia.
    unfold n_ask, modify, mbind, M_bind. cbn [negb y_net]. do 2 eexists. split; [reflexivity|]. eapply writes_answer; eauto; intros ? ->; [case_bool_decide; [done|specialize (Hr e); lia]|done].
  + do 2 eexists. split; [unfold lift, okm_timed_write; cbn [negb]; reflexivity|]. unfold writes. cbn [y_env y_net]. split_and!; try done. left. split_and!; try done.
- unfold env. destruct (io_write (fs_stream f) buf 0 (y_env y)) as [r w'] eqn:E. unfold lift, n_ask, modify. cbn [y_net y_env]. do 2 eexists. split; [reflexivity|].
  eapply writes_answer; eauto; intros ? ->; cbn; [specialize (Hr e); lia|done].
Qed.
End file.

(** ** An environment that keeps its word about files *)

Record disk := Disk { k_bytes : Z -> list Z; k_pos : Z -> nat; k_room : nat }.

Definition upd {A} (g : Z -> A) (f : Z) (x : A) : Z -> A := fun f' => if f' =? f then x else g f'.

Lemma upd_eq {A} (g : Z -> A) f x : upd g f x f = x.
Proof. unfold upd. by rewrite Z.eqb_refl. Qed.

Lemma upd_ne {A} (g : Z -> A) f x f' : f' <> f -> upd g f x f' = g f'.
Proof. intros Hne. unfold upd. by replace (f' =? f) with false by lia. Qed.

Definition disk_read (f len off : Z) (w : disk) : list Z := take (Z.to_nat len) (drop (Z.to_nat off) (k_bytes w f)).

(** What is written, and to what. *)
Definition disk_write (f : Z) (buf : list Z) (off : Z) (w : disk) : io Z * disk :=
  if (k_room w =? 0)%nat && negb (Z.of_nat (length buf) =? 0) then (inl kal_err_no_space, w)
  else
    let n := Nat.min (length buf) (k_room w) in
    (inr (Z.of_nat n), Disk (upd (k_bytes w) f (splice (k_bytes w f) off (take n buf))) (k_pos w) (k_room w - n)).

#[export] Instance disk_io : KalIo disk := {
  io_read f len _ w := let l := disk_read f len (Z.of_nat (k_pos w f)) w in
    (inr l, Disk (k_bytes w) (upd (k_pos w) f (k_pos w f + length l)%nat) (k_room w));
  io_write f buf _ w :=
    let '(r, w') := disk_write f buf (Z.of_nat (k_pos w f)) w in
    (r, match r with inl _ => w' | inr n => Disk (k_bytes w') (upd (k_pos w') f (k_pos w' f + Z.to_nat n)%nat) (k_room w') end);
  io_interactive _ _ := false;
  io_seek f o wh w :=
    match wh with
    | SEEK_CUR => ((kal_ok, Z.of_nat (k_pos w f)), w)
    | SEEK_SET => if o <? 0 then ((kal_err_invalid, 0), w) else ((kal_ok, o), Disk (k_bytes w) (upd (k_pos w) f (Z.to_nat o)) (k_room w))
    end;
  io_read_at f len off w := (inr (disk_read f len off w), w);
  io_write_at f buf off w := disk_write f buf off w;
}.

Lemma disk_read_ok f len off w : 0 < len ->
  Z.of_nat (length (disk_read f len off w)) <= len /\ disk_read f len off w = take (length (disk_read f len off w)) (drop (Z.to_nat off) (k_bytes w f)).
Proof.
  intros Hlen. unfold disk_read. rewrite length_take. split; [lia|]. set (l := drop _ _). destruct (decide (Z.to_nat len <= length l)%nat) as [Hle|Hgt].
  - by rewrite Nat.min_l by done.
  - rewrite Nat.min_r by lia. by rewrite (take_ge l (Z.to_nat len)), (take_ge l (length l)) by lia.
Qed.

Lemma disk_write_ok f buf off w r w' : disk_write f buf off w = (r, w') ->
  (forall f', f' <> f -> k_bytes w' f' = k_bytes w f') /\ k_pos w' = k_pos w /\
  match r with
  | inl _ => k_bytes w' f = k_bytes w f
  | inr n => 0 <= n <= Z.of_nat (length buf) /\ k_bytes w' f = splice (k_bytes w f) off (take (Z.to_nat n) buf)
  end.
Proof.
  unfold disk_write. split_if; intros [= <- <-]; [done|]. cbn [k_bytes k_pos]. rewrite upd_eq, Nat2Z.id. split_and!; auto using upd_ne; lia.
Qed.

#[export] Instance disk_files : KalFiles disk.
Proof.
  refine {| bytes := k_bytes; pos w f := Z.of_nat (k_pos w f); fs_stream f := f; same_node := Z.eqb; appends _ := false |}.
  - apply Z.eqb_refl.
  - by intros w f f' ->%Z.eqb_eq.
  - lia.
  - intros f len b w r w' Hlen [= <- <-]. cbn [k_bytes k_pos]. rewrite upd_eq, Nat2Z.id. destruct (disk_read_ok f len (Z.of_nat (k_pos w f)) w Hlen) as [H1 H2]. rewrite Nat2Z.id in H2.
    split_and!; auto; [intros f' Hf'; by rewrite upd_ne|lia].
  - intros f buf b w r w' _. cbn [io_write disk_io]. destruct (disk_write f buf (Z.of_nat (k_pos w f)) w) as [r1 w1] eqn:E. destruct (disk_write_ok _ _ _ _ _ _ E) as (Ho & Hp & Hr). intros [= <- <-].
    destruct r1 as [e|n]; cbn [k_bytes k_pos]; rewrite ?Hp; [split_and!; auto; intros f' Hf'; apply Ho; lia|]. rewrite upd_eq. split_and!; try lia; try apply Hr; intros f' Hf'; [apply Ho; lia|by rewrite upd_ne].
  - intros f len off w r w' Hlen Hoff [= <- <-]. split; [done|]. by apply disk_read_ok.
  - intros f buf off w r w' _ Hoff E. destruct (disk_write_ok _ _ _ _ _ _ E) as (Ho & Hp & Hr). split_and!; auto; intros f'; [intros Hf'; apply Ho; lia|by rewrite Hp].
  - intros f w r w' [= <- <-]. done.
  - intros f o w r w'. cbn [io_seek disk_io]. split_if; intros [= <- <-]; [by split_and!|]. cbn [k_bytes k_pos fst]. rewrite upd_eq, bool_decide_true by done. split_and!; [done|intros f' Hf'; by rewrite upd_ne|lia].
  - intros f o w w'. cbn [io_seek disk_io fst]. intros [= <-]. by replace (Z.of_nat (k_pos w f) <? 0) with false by lia.
Defined.

(** A table with two files open, 7 as descriptor 0 and 8 as 1. *)
Definition two_files : fd_table :=
  FdTable [Desc 1 OKM_FILE O_RDWR 7 7 0 0 0 (-1) 0 0 [] (-1) 0 0 0; Desc 1 OKM_FILE O_RDWR 8 8 0 0 0 (-1) 0 0 [] (-1) 0 0 0] ([(0, 0); (1, 0)] ++ replicate 1022 (OKM_FD_FREE, 0))
    [] [] [] 0 [] [] [].

Definition with_disk (room : nat) (p0 : nat) : sys disk :=
  Sys (Net two_files [] []) (Disk (fun f => if f =? 7 then [10; 11; 12; 13; 14; 15] else []) (fun f => if f =? 7 then p0 else O) room).

Lemma with_disk_fd room p0 : file_fd (n_fds (y_net (with_disk room p0))) 0 7 /\ file_fd (n_fds (y_net (with_disk room p0))) 1 8.
Proof. split; do 2 eexists; split_and!; by vm_compute. Qed.
