(* ===== verification/TransferTheorems.v ===== *)
(** What transfers of files promise over an environment that keeps its word: a read or a
    write in parts at an offset is one of the whole, at that offset, and moves no
    position; copy_file_range copies, and says how much. *)
From S2P Require Import Prelude Kal FdTable FdTableOk FdTheorems Net NetOk NetTheorems Transfer TransferOk.
From stdpp Require Import base list option.
From Stdlib Require Import ZArith Lia.

#[local] Open Scope Z_scope.

(** What parts of a read received: each is full before the next is begun. *)
Fixpoint fits (v : list Z) (parts : list (list Z)) : Prop :=
  match v, parts with
  | _, [] => True
  | [], _ :: _ => False
  | len :: v', p :: parts' => Z.of_nat (length p) <= len /\ (parts' <> [] -> Z.of_nat (length p) = len) /\ fits v' parts'
  end.

Section loops.
Context {W : Type} `{KalFiles W}.
Implicit Types y : sys W.

(** ** The parts of a read *)
Section scatter.
(** The file, from where on, and what is true once [total] bytes have been read. *)
Context (data : list Z) (from : Z) (I : Z -> sys W -> Prop) (io : Z -> Z -> M (sys W) (Z * list Z)).
Context (from_nonneg : 0 <= from).
Hypothesis io_ok : forall len total y, 0 < len -> 0 <= total -> I total y -> exists r y', io len total y = Some (r, y') /\
  I (total + Z.of_nat (length r.2)) y' /\ r.2 = take (length r.2) (drop (Z.to_nat (from + total)) data) /\ Z.of_nat (length r.2) <= len /\
  (r.1 < 0 /\ r.2 = [] \/ r.1 = Z.of_nat (length r.2)).

Lemma scatter_ok v : forall total y, Forall (fun len => 0 <= len) v -> 0 <= total -> I total y ->
  exists x y', scatter io v total y = Some (x, y') /\ I (total + Z.of_nat (length (concat x.2))) y' /\
    concat x.2 = take (length (concat x.2)) (drop (Z.to_nat (from + total)) data) /\ fits v x.2 /\
    (x.1 = total + Z.of_nat (length (concat x.2)) \/ x.1 < 0 /\ total = 0 /\ concat x.2 = []).
Proof using from_nonneg io_ok.
induction v as [|len v IH]; intros total y Hv Ht HI.
{ exists (total, []), y. cbn. rewrite Z.add_0_r. split_and!; auto. }
apply Forall_cons_1 in Hv as [Hlen Hv]. cbn [scatter]. destruct (len =? 0) eqn:El; boolean.
{ subst len. destruct (IH total y Hv Ht HI) as (x & y' & E & H1 & H2 & H3 & H4). unfold mbind, M_bind. rewrite E. exists (x.1, [] :: x.2), y'. cbn [fst snd concat app fits length]. by split_and!. }
destruct (io_ok len total y) as (r & y1 & E & HI1 & Hr & Hl & Hc); [lia|done|done|]. unfold mbind at 1, M_bind at 1. rewrite E.
destruct (r.1 <? 0) eqn:Eneg; boolean.
{ destruct Hc as [[_ Hnil]|Hc]; [|lia]. rewrite Hnil in HI1. exists (if total =? 0 then r.1 else total, []), y1. cbn [fst snd]. split_and!; [reflexivity|exact HI1|done|done|]. change (Z.of_nat (length (concat []))) with 0. destruct (total =? 0) eqn:?; boolean; [right; by split_and!|left; lia]. }
assert (r.1 = Z.of_nat (length r.2)) as Hr1 by (destruct Hc as [[? _]|]; lia).
destruct (r.1 <? len) eqn:Eshort; boolean.
{ exists (total + r.1, [r.2]), y1. cbn [fst snd concat fits]. rewrite app_nil_r. split_and!; [reflexivity|done|done|done|done|by destruct v|left; lia]. }
destruct (IH (total + r.1) y1 Hv) as (x & y' & E2 & H1 & H2 & H3 & H4); [lia|by rewrite Hr1|]. unfold mbind, M_bind. rewrite E2. exists (x.1, r.2 :: x.2), y'. cbn [fst snd concat fits]. rewrite length_app.
split_and!; auto; [by replace (total + Z.of_nat (length r.2 + length (concat x.2))) with (total + r.1 + Z.of_nat (length (concat x.2))) by lia| |lia|].
- rewrite <-slice_app. rewrite <-Hr. f_equal. rewrite H2 at 1. do 2 f_equal. lia.
- left. destruct H4 as [->|(_ & Hz & _)]; [lia|]. assert (r.1 = 0) by lia. lia.
Qed.
End scatter.

(** ** The parts of a write *)
Section gather.
(** What is true once the bytes [done] have been written, and how many there may be. *)
Context (room : Z) (I : list Z -> sys W -> Prop) (io : list Z -> Z -> M (sys W) Z).
Hypothesis io_ok : forall buf written y, buf <> [] -> Z.of_nat (length written) + Z.of_nat (length buf) <= room -> I written y ->
  exists r y', io buf (Z.of_nat (length written)) y = Some (r, y') /\ (r < 0 /\ I written y' \/ 0 <= r <= Z.of_nat (length buf) /\ I (written ++ take (Z.to_nat r) buf) y').

Lemma gather_ok v : forall written y, Z.of_nat (length written) + Z.of_nat (length (concat v)) <= room -> I written y ->
  exists x more y', gather io v (Z.of_nat (length written)) y = Some (x, y') /\ I (written ++ more) y' /\ more `prefix_of` concat v /\
    (x = Z.of_nat (length (written ++ more)) \/ x < 0 /\ written ++ more = []).
Proof using io_ok.
induction v as [|buf v IH]; intros written y Hroom HI.
{ exists (Z.of_nat (length written)), [], y. rewrite app_nil_r. by split_and!; auto. }
cbn [gather concat] in *. rewrite length_app in Hroom. destruct (Z.of_nat (length buf) =? 0) eqn:El; boolean.
{ destruct buf; [|done]. by apply IH; [cbn in *; lia|]. }
destruct (io_ok buf written y) as (r & y1 & E & Hr); [by intros ->|lia|done|]. unfold mbind, M_bind. rewrite E.
destruct Hr as [[Hneg HI1]|[Hr HI1]].
{ replace (r <? 0) with true by lia. exists (if Z.of_nat (length written) =? 0 then r else Z.of_nat (length written)), [], y1. rewrite app_nil_r. split_and!; auto; [apply prefix_nil|].
  destruct (_ =? 0) eqn:?; boolean; [right; by destruct written|by left]. }
replace (r <? 0) with false by lia. destruct (r <? Z.of_nat (length buf)) eqn:Eshort; boolean.
{ do 3 eexists. split; [reflexivity|]. split_and!; [exact HI1| |left; rewrite length_app, length_take; lia]. exists (drop (Z.to_nat r) buf ++ concat v). by rewrite app_assoc, take_drop. }
assert (take (Z.to_nat r) buf = buf) as Etake by (apply take_ge; lia). rewrite Etake in HI1.
destruct (IH (written ++ buf) y1) as (x & more & y' & E2 & HI2 & Hp & Hx); [rewrite length_app; lia|done|].
replace (Z.of_nat (length written) + r) with (Z.of_nat (length (written ++ buf))) by (rewrite length_app; lia). rewrite E2. exists x, (buf ++ more), y'. rewrite app_assoc.
split_and!; auto. by apply prefix_app.
Qed.
End gather.
End loops.

Lemma slice_within (l data : list Z) a : 0 <= a -> l = take (length l) (drop (Z.to_nat a) data) -> l = [] \/ a + Z.of_nat (length l) <= Z.of_nat (length data).
Proof. intros Ha E. destruct l as [|b l]; [by left|]. right. apply (f_equal length) in E. rewrite length_take, length_drop in E. cbn [length] in *. lia. Qed.

Section positional.
Context {W : Type} `{KalFiles W}.
Implicit Types y : sys W.
Context (can_bound : bool) (g_term_alter : Z) (at_available : bool).

(** The environment holds what it held, and every file is where it was but for [f],
    which is at [p]. *)
Definition same_files y y' : Prop := same_net y y' /\ (forall f, bytes (y_env y') f = bytes (y_env y) f).
Definition same_places y y' (f p : Z) : Prop := pos (y_env y') f = p /\ forall f', f' <> f -> pos (y_env y') f' = pos (y_env y) f'.

Lemma at_position_ok {A} y d from fail (body : M (sys W) A) (Q : A -> sys W -> Prop) : 0 <= from ->
  (forall y1, same_files y y1 -> same_places y y1 (d_file d) from -> exists x y2, body y1 = Some (x, y2) /\ (forall f', f' <> d_file d -> pos (y_env y2) f' = pos (y_env y) f') /\ Q x y2) ->
  (forall x y2 y3, Q x y2 -> same_net y2 y3 -> (forall f, bytes (y_env y3) f = bytes (y_env y2) f) -> Q x y3) ->
  exists x y', at_position d from fail body y = Some (x, y') /\ (forall f, pos (y_env y') f = pos (y_env y) f) /\
    (Q x y' \/ (exists r, r < 0 /\ x = fail r) /\ same_files y y').
Proof using.
intros Hfrom Hbody HQ. unfold at_position, mbind, M_bind, env. destruct (io_seek (d_file d) 0 SEEK_CUR (y_env y)) as [k w1] eqn:E1. destruct (tell_ok _ _ _ _ E1) as [-> Hk]. cbn [y_env y_net].
assert (forall e : kal_error, e <> kal_ok -> - okm_errno e < 0) as Hneg. { intros e He. pose proof (okm_errno_range e). destruct (Z.eq_dec (okm_errno e) 0) as [Hz|]; [by apply okm_errno_ok in Hz|lia]. }
case_bool_decide as Hok.
- cbn [y_env y_net]. destruct (io_seek (d_file d) from SEEK_SET (y_env y)) as [s w2] eqn:E2. destruct (seek_ok _ _ _ _ _ E2) as (Hb & Hp & Hps). unfold mret, M_ret. cbn [y_env y_net].
  case_bool_decide as Hs; cbn [negb].
  + destruct (Hbody (Sys (y_net y) w2)) as (x & y2 & E & Hpos & Hq); [done|done|]. unfold mret, M_ret in E. rewrite E.
    destruct (io_seek (d_file d) k.2 SEEK_SET (y_env y2)) as [s3 w3] eqn:E3. destruct (seek_ok _ _ _ _ _ E3) as (Hb3 & Hp3 & Hps3). exists x, (Sys (y_net y2) w3). split; [done|]. split.
    * intros f. cbn [y_env]. destruct (decide (f = d_file d)) as [->|Hf]; [|by rewrite Hp3, Hpos]. rewrite Hps3. pose proof (seek_back (d_file d) k.2 (y_env y) (y_env y2)) as Hback. rewrite E1, E3 in Hback.
      rewrite bool_decide_true by (apply Hback; cbn; destruct k; cbn in *; by subst). by apply Hk.
    * left. eapply HQ; [exact Hq|done|]. cbn. done.
  + do 2 eexists. split; [reflexivity|]. split; [|right; split; [eexists; split; [by apply Hneg|reflexivity]|done]]. intros f. cbn [y_env]. destruct (decide (f = d_file d)) as [->|Hf]; [done|by apply Hp].
- unfold mret, M_ret. rewrite bool_decide_false by done. cbn [negb]. do 2 eexists. split; [reflexivity|]. split; [done|]. right. split; [eexists; split; [by apply Hneg|reflexivity]|done].
Qed.

(** What a read in parts comes to. *)
Definition read_parts (from : Z) (v : list Z) (data : list Z) (x : Z * list (list Z)) : Prop :=
  concat x.2 = take (length (concat x.2)) (drop (Z.to_nat from) data) /\ fits v x.2 /\ (x.1 = Z.of_nat (length (concat x.2)) \/ x.1 < 0 /\ concat x.2 = []).

Lemma transfer_at_read_ok y d v from : 0 <= from < 2 ^ 64 -> Z.of_nat (length (bytes (y_env y) (d_file d))) < 2 ^ 64 -> Forall (fun len => 0 <= len) v ->
  exists x y', transfer_at_read d v from y = Some (x, y') /\ same_files y y' /\ (forall f, pos (y_env y') f = pos (y_env y) f) /\ read_parts from v (bytes (y_env y) (d_file d)) x.
Proof using.
intros Hfrom Hsize Hv. set (data := bytes (y_env y) (d_file d)) in *.
set (I := fun total y' => (same_files y y' /\ forall f, pos (y_env y') f = pos (y_env y) f) /\ from + total <= from `max` Z.of_nat (length data)).
destruct (scatter_ok data from I (fun len total => r ← env (io_read_at (d_file d) len (wrap64 (from + total)));
    mret (match r with inl e => (- okm_errno e, []) | inr l => (Z.of_nat (length l), l) end)) ltac:(lia)) with (v := v) (total := 0) (y := y) as (x & y' & E & [[HI Hp] _] & Hx & Hfit & Hr); auto.
- intros len total y1 Hlen Ht [[[Hn Hb] Hp] Hmax]. rewrite wrap64_small by lia. unfold mbind, M_bind, env. destruct (io_read_at (d_file d) len (from + total) (y_env y1)) as [r w'] eqn:E.
  destruct (read_at_ok _ _ (from + total) _ _ _ Hlen ltac:(lia) E) as [Hsame Hr]. rewrite Hb in Hr. do 2 eexists. split; [reflexivity|].
  assert (same_files y (Sys (y_net y1) w') /\ forall f, pos (y_env (Sys (y_net y1) w')) f = pos (y_env y) f) as HI1.
  { split; [split; [done|]|]; intros f; cbn [y_env]; destruct (Hsame f) as [E1 E2]; [rewrite E1|rewrite E2]; auto. }
  destruct r as [e|l]; cbn [fst snd length].
  + split_and!; [split; [exact HI1|lia]|done|lia|]. pose proof (okm_errno_range e). destruct (Z.eq_dec (okm_errno e) 0); [right; lia|left; split; [lia|done]].
  + destruct Hr as [Hl Hr]. split_and!; auto. split; [exact HI1|]. destruct (slice_within l data (from + total) ltac:(lia) Hr) as [-> |]; cbn [length]; lia.
- lia.
- split; [done|]. lia.
- exists x, y'. rewrite Z.add_0_r in Hx. split; [done|]. split; [done|]. split; [done|]. split_and!; auto. destruct Hr as [?|(? & _ & ?)]; auto.
Qed.

Lemma at_position_read y fd d v from : file_fd (n_fds (y_net y)) fd (d_file d) -> 0 <= from -> Forall (fun len => 0 <= len) v ->
  exists x y', at_position d from (fun r => (r, [])) (scatter (fun len _ => do_read can_bound g_term_alter fd len) v 0) y = Some (x, y') /\
    same_files y y' /\ (forall f, pos (y_env y') f = pos (y_env y) f) /\ read_parts from v (bytes (y_env y) (d_file d)) x.
Proof using.
intros Hf Hfrom Hv. set (data := bytes (y_env y) (d_file d)).
destruct (at_position_ok y d from (fun r => (r, [])) (scatter (fun len _ => do_read can_bound g_term_alter fd len) v 0) (fun x y' => same_files y y' /\ read_parts from v data x) Hfrom) as (x & y' & E & Hp & HQ).
- intros y1 [Hn Hb] [Hp1 Hpo].
  set (I := fun total y' => (same_files y y' /\ forall f, f <> d_file d -> pos (y_env y') f = pos (y_env y) f) /\ pos (y_env y') (d_file d) = from + total).
  destruct (scatter_ok data from I (fun len _ => do_read can_bound g_term_alter fd len) Hfrom) with (v := v) (total := 0) (y := y1) as (x & y' & E & [[HI Hpo2] _] & Hx & Hfit & Hr); auto.
  + intros len total y2 Hlen Ht [[[Hn2 Hb2] Hpo2] Hp2]. destruct (read_file can_bound g_term_alter fd (d_file d) len y2) as (r & y3 & E & (Hn3 & Hb3 & Hpo3 & Hp3 & Hr & Hl & Hc)); [by rewrite Hn2|done|].
    exists r, y3. rewrite Hb2, Hp2 in Hr. split_and!; auto. split; [split; [split|]|].
    * unfold same_net in *. congruence.
    * intros f. by rewrite Hb3.
    * intros f Hne. by rewrite Hpo3, Hpo2.
    * lia.
  + lia.
  + split; [done|]. lia.
  + rewrite Z.add_0_r in Hx. exists x, y'. split; [done|]. split; [done|]. split; [done|]. split_and!; auto. destruct Hr as [?|(? & _ & ?)]; auto.
- intros x y2 y3 [[Hn Hb] Hr] Hn3 Hb3. split; [split; [unfold same_net in *; congruence|intros f; by rewrite Hb3]|done].
- exists x, y'. split; [done|]. destruct HQ as [[HI Hr]|[(r & Hr & ->) HI]]; [done|]. split; [done|]. split; [done|]. split_and!; [done|by destruct v|by right].
Qed.

(** ** Writes *)

(** The file [f] holds [b] over what it held at [from]; other nodes hold what they did. *)
Definition written_at y y' (f from : Z) (b : list Z) : Prop :=
  same_net y y' /\ bytes (y_env y') f = splice (bytes (y_env y) f) from b /\ forall f', same_node f f' = false -> bytes (y_env y') f' = bytes (y_env y) f'.

Lemma written_more y y1 y2 f from b c : 0 <= from -> written_at y y1 f from b -> written_at y1 y2 f (from + Z.of_nat (length b)) c -> written_at y y2 f from (b ++ c).
Proof using.
intros Hfrom (Hn1 & Hb1 & Ho1) (Hn2 & Hb2 & Ho2). split_and!; [unfold same_net in *; congruence| |intros f' Hf'; by rewrite Ho2, Ho1].
rewrite Hb2, Hb1. by apply splice_app.
Qed.

(** What a write in parts comes to. *)
Definition wrote_parts y y' (f from : Z) (v : list (list Z)) (x : Z) : Prop :=
  exists b, b `prefix_of` concat v /\ written_at y y' f from b /\ (x = Z.of_nat (length b) \/ x < 0 /\ b = []).

Lemma written_nothing y f from : written_at y y f from [].
Proof using. by split_and!. Qed.

Lemma transfer_at_write_ok y d v from : appends (d_file d) = false -> 0 <= from -> from + Z.of_nat (length (concat v)) < 2 ^ 64 ->
  exists x y', transfer_at_write d v from y = Some (x, y') /\ (forall f, pos (y_env y') f = pos (y_env y) f) /\ wrote_parts y y' (d_file d) from v x.
Proof using.
intros Happ Hfrom Hroom. set (I := fun b y' => written_at y y' (d_file d) from b /\ forall f, pos (y_env y') f = pos (y_env y) f).
destruct (gather_ok (Z.of_nat (length (concat v))) I (fun buf total => r ← env (io_write_at (d_file d) buf (wrap64 (from + total))); mret (io_result r)))
  with (v := v) (written := @nil Z) (y := y) as (x & b & y' & E & [HI Hp] & Hb & Hx).
- intros buf b y1 Hbuf Hlen [Hw Hp]. rewrite wrap64_small by lia. unfold mbind, M_bind, env. destruct (io_write_at (d_file d) buf (from + Z.of_nat (length b)) (y_env y1)) as [r w'] eqn:E.
  destruct (write_at_ok _ _ (from + Z.of_nat (length b)) _ _ _ Happ ltac:(lia) E) as (Ho & Hpo & Hr). do 2 eexists. split; [reflexivity|].
  assert (forall c, bytes w' (d_file d) = splice (bytes (y_env y1) (d_file d)) (from + Z.of_nat (length b)) c -> I (b ++ c) (Sys (y_net y1) w')) as HI.
  { intros c Hc. split; [apply (written_more y y1); [done|done|by split_and!]|]. intros f. cbn [y_env]. by rewrite Hpo. }
  destruct r as [e|n]; cbn [io_result].
  + assert (I b (Sys (y_net y1) w')) as HIb by (rewrite <-(app_nil_r b); by apply HI). pose proof (okm_errno_range e). destruct (Z.eq_dec (okm_errno e) 0) as [Hz|]; [right|left; split; [lia|done]].
    split; [lia|]. rewrite Hz. cbn [Z.opp Z.to_nat]. rewrite take_0, app_nil_r. exact HIb.
  + destruct Hr as [Hn Hr]. right. split; [done|]. by apply HI.
- cbn [length]. lia.
- split; [apply written_nothing|done].
- cbn [app] in *. exists x, y'. split; [exact E|]. split; [done|]. exists b. by split_and!.
Qed.

Lemma at_position_write y fd d v from : file_fd (n_fds (y_net y)) fd (d_file d) -> 0 <= from ->
  exists x y', at_position d from id (gather (fun buf _ => do_write can_bound fd buf) v 0) y = Some (x, y') /\
    (forall f, pos (y_env y') f = pos (y_env y) f) /\ wrote_parts y y' (d_file d) from v x.
Proof using.
intros Hf Hfrom.
destruct (at_position_ok y d from id (gather (fun buf _ => do_write can_bound fd buf) v 0) (fun x y' => wrote_parts y y' (d_file d) from v x) Hfrom) as (x & y' & E & Hp & HQ).
- intros y1 [Hn Hb] [Hp1 Hpo].
  set (I := fun b y' => (written_at y y' (d_file d) from b /\ forall f, f <> d_file d -> pos (y_env y') f = pos (y_env y) f) /\ pos (y_env y') (d_file d) = from + Z.of_nat (length b)).
  destruct (gather_ok (Z.of_nat (length (concat v))) I (fun buf _ => do_write can_bound fd buf)) with (v := v) (written := @nil Z) (y := y1) as (x & b & y' & E & [[HI Hpo2] _] & Hpre & Hx).
  + intros buf b y2 Hbuf _ [[Hw Hpo2] Hp2]. destruct (write_file can_bound fd (d_file d) buf y2) as (r & y3 & E & (Hn3 & Ho3 & Hq3 & Hc)); [by destruct Hw as (-> & _)|done|]. exists r, y3. split; [done|].
    assert (forall c, bytes (y_env y3) (d_file d) = splice (bytes (y_env y2) (d_file d)) (from + Z.of_nat (length b)) c -> pos (y_env y3) (d_file d) = from + Z.of_nat (length b) + Z.of_nat (length c) -> I (b ++ c) y3) as HI.
    { intros c Hc1 Hc2. split; [split|rewrite length_app; lia].
      - apply (written_more y y2); [done|done|]. by split_and!.
      - intros f' Hf'. rewrite Hq3 by done. auto. }
    destruct Hc as [(Hr & Hb3 & Hp3)|(Hr & Hb3 & Hp3)].
    * assert (I b y3) as HIb by (rewrite <-(app_nil_r b); apply HI; cbn; [done|lia]). destruct (Z.eq_dec r 0) as [-> |]; [right|left; split; [lia|done]]. split; [lia|]. cbn [Z.to_nat]. by rewrite take_0, app_nil_r.
    * right. split; [done|]. apply HI; [by rewrite <-Hp2|rewrite length_take; lia].
  + cbn [length]. lia.
  + split; [split; [|done]|cbn; lia]. split_and!; [done|apply Hb|intros f' _; apply Hb].
  + cbn [app] in *. exists x, y'. split; [exact E|]. split; [done|]. exists b. by split_and!.
- intros x y2 y3 (b & Hb & (Hn & Hw & Ho) & Hx) Hn3 Hb3. exists b. split_and!; auto. split_and!; [unfold same_net in *; congruence|by rewrite Hb3|intros f' Hf'; by rewrite Hb3, Ho].
- exists x, y'. split; [done|]. split; [done|]. destruct HQ as [|[(r & Hr & ->) [Hn Hb]]]; [done|]. exists []. split_and!; [apply prefix_nil| |by right]. split_and!; [done|apply Hb|intros f' _; apply Hb].
Qed.
End positional.

(** C31. pread and preadv, pwrite and pwritev of a file, whether the environment
    transfers at an offset or this library seeks there and back: the transfer
    returns; no file's position is moved; a read moves bytes of the file from the
    offset on, as many as it answers, each part filled before the next, and changes
    nothing; a write changes the file at the offset only, to the first bytes of the
    parts put together, as many as it answers; an error is answered only where no
    byte moved. *)
Theorem positional_transfer {W} `{KalFiles W} can_bound g_term_alter at_available (y : sys W) fd f from v vw :
  file_fd (n_fds (y_net y)) fd f -> 0 <= from < 2 ^ 63 -> Z.of_nat (length (bytes (y_env y) f)) < 2 ^ 64 -> Forall (fun len => 0 <= len) v -> Z.of_nat (length (concat vw)) < 2 ^ 63 ->
  (exists x y', do_transfer_at_read can_bound g_term_alter at_available fd v from y = Some (x, y') /\
    same_files y y' /\ (forall f', pos (y_env y') f' = pos (y_env y) f') /\ read_parts from v (bytes (y_env y) f) x) /\
  (exists x y', do_transfer_at_write can_bound at_available fd vw from y = Some (x, y') /\
    (forall f', pos (y_env y') f' = pos (y_env y) f') /\ wrote_parts y y' f from vw x).
Proof.
  intros Hf Hfrom Hsize Hv Hvw. destruct (file_desc _ _ _ Hf) as (i & d & Hof & Hda & Hd & Hk & Hfile & _ & _ & _ & _ & Happ). subst f.
  unfold do_transfer_at_read, do_transfer_at_write, mbind, M_bind, gets. rewrite Hda, Hk. cbn [bool_decide negb]. replace (from <? 0) with false by lia. destruct at_available; split.
  - apply transfer_at_read_ok; [lia|done|done].
  - apply transfer_at_write_ok; [done|lia|lia].
  - by apply at_position_read; [|lia|].
  - by apply at_position_write; [|lia].
Qed.

(** The environment of Disk: bytes 2 to 4 of a file are read into parts of two, and two
    written after its end. *)
Lemma positional_transfer_witness : exists x y', do_transfer_at_read true 0 false 0 [2; 2] 2 (with_disk 9 5) = Some (x, y') /\
  (forall f', pos (y_env y') f' = pos (y_env (with_disk 9 5)) f') /\ read_parts 2 [2; 2] [10; 11; 12; 13; 14; 15] x.
Proof.
  destruct (with_disk_fd 9 5) as [H0 _].
  destruct (positional_transfer true 0 false (with_disk 9 5) 0 7 2 [2; 2] [[1]; [2]] H0) as [(x & y' & E & _ & Hp & Hr) _]; [lia|by vm_compute|repeat constructor; lia|by vm_compute|].
  by exists x, y'.
Defined.

(** ** copy_file_range *)

Section copy.
Context {W : Type} `{KalFiles W}.
Implicit Types y : sys W.
Context (can_bound : bool) (g_term_alter : Z).

(** From [y] to [y'] the [m] bytes of [f] at its position have been copied to [g] at its
    own, and [ahead] more have been read. *)
Record copied y y' (f g m ahead : Z) : Prop := {
  co_bytes : written_at y y' g (pos (y_env y) g) (take (Z.to_nat m) (drop (Z.to_nat (pos (y_env y) f)) (bytes (y_env y) f)));
  co_length : Z.of_nat (length (take (Z.to_nat m) (drop (Z.to_nat (pos (y_env y) f)) (bytes (y_env y) f)))) = m;
  co_from : pos (y_env y') f = pos (y_env y) f + m + ahead;
  co_to : pos (y_env y') g = pos (y_env y) g + m;
  co_rest : forall f', f' <> f -> f' <> g -> pos (y_env y') f' = pos (y_env y) f';
}.

Lemma copied_nothing y f g : copied y y f g 0 0.
Proof using. constructor; [apply written_nothing|done|lia|lia|done]. Qed.

(** A block read and so much of it written. *)
Lemma copied_block y y1 y2 y3 f g m len got put : same_node g f = false -> f <> g -> 0 <= m -> 0 < put -> copied y y1 f g m 0 -> reads f len y1 got y2 -> writes g got.2 y2 put y3 ->
  copied y y3 f g (m + put) (Z.of_nat (length got.2) - put).
Proof using.
intros Hfg Hne Hm Hput [(Hn1 & Hb1 & Ho1) Hl1 Hf1 Hg1 Hr1] (Hn2 & Hb2 & Hpo2 & Hp2 & Hgot & _ & _) (Hn3 & Ho3 & Hq3 & Hw3). destruct Hw3 as [[? _]|(Hput2 & Hb3 & Hp3)]; [lia|].
pose proof (pos_nonneg (y_env y) f). pose proof (pos_nonneg (y_env y) g). set (p := pos (y_env y) f) in *. set (src := bytes (y_env y) f) in *.
assert (take (Z.to_nat put) got.2 = take (Z.to_nat put) (drop (Z.to_nat p + Z.to_nat m) src)) as Eput.
{ rewrite Hgot, Hf1, (Ho1 f Hfg), take_take. fold src p. f_equal; [lia|]. f_equal. lia. }
assert (take (Z.to_nat m) (drop (Z.to_nat p) src) ++ take (Z.to_nat put) got.2 = take (Z.to_nat (m + put)) (drop (Z.to_nat p) src)) as Eall.
{ rewrite Eput, slice_app. f_equal. lia. }
constructor; fold p src.
- rewrite <-Eall. apply (written_more y y1); [done|done|]. rewrite Hl1. split_and!; [unfold same_net in *; congruence| |intros f' Hf'; rewrite Ho3 by done; apply Hb2].
  rewrite Hb3, Hb2, (Hpo2 g) by done. by rewrite Hg1.
- rewrite <-Eall, length_app, (length_take got.2), Nat2Z.inj_add, Hl1. lia.
- rewrite (Hq3 f Hne). lia.
- rewrite Hp3, (Hpo2 g) by done. lia.
- intros f' Hf' Hg'. rewrite (Hq3 f' Hg'). rewrite Hpo2 by done. auto.
Qed.

(** A block read, and none of it written. *)
Lemma copied_read y y1 y2 f g m len got : f <> g -> copied y y1 f g m 0 -> reads f len y1 got y2 -> copied y y2 f g m (Z.of_nat (length got.2)).
Proof using.
intros Hfg [(Hn1 & Hb1 & Ho1) Hl1 Hf1 Hg1 Hr1] (Hn2 & Hb2 & Hpo2 & Hp2 & _). constructor; try done; try lia.
- split_and!; [unfold same_net in *; congruence|by rewrite Hb2|intros f' Hf'; by rewrite Hb2, Ho1].
- by rewrite Hpo2.
- intros f' Hf' Hg'. rewrite Hpo2 by done. auto.
Qed.

Lemma copied_fail y y1 y2 f g buf m ahead put : put <= 0 -> copied y y1 f g m ahead -> writes g buf y1 put y2 -> f <> g -> copied y y2 f g m ahead.
Proof using.
intros Hput [(Hn1 & Hb1 & Ho1) Hl1 Hf1 Hg1 Hr1] (Hn2 & Ho2 & Hq2 & Hw) Hfg.
assert (bytes (y_env y2) g = bytes (y_env y1) g /\ pos (y_env y2) g = pos (y_env y1) g) as [Eb Ep].
{ destruct Hw as [(_ & -> & ->)|(Hr & -> & ->)]; [done|]. assert (put = 0) as -> by lia. cbn [Z.to_nat]. rewrite take_0. split; [done|lia]. }
constructor; try done; try (by rewrite (Hq2 f Hfg)); try (by rewrite Ep).
- split_and!; [unfold same_net in *; congruence|by rewrite Eb|intros f' Hf'; rewrite Ho2 by done; auto].
- intros f' Hf' Hg'. rewrite (Hq2 f' Hg'). auto.
Qed.

(** The loop: [fuel] is enough where it is more than the bytes wanted, since a block that
    moves none is the last. *)
Lemma copy_blocks_ok fd_in fd_out f g want fuel : same_node g f = false -> f <> g -> forall y y1 m, file_fd (n_fds (y_net y1)) fd_in f -> file_fd (n_fds (y_net y1)) fd_out g ->
  0 <= m <= want -> want - m < Z.of_nat fuel -> copied y y1 f g m 0 ->
  exists m' failure ahead y2, copy_blocks can_bound g_term_alter fuel fd_in fd_out want m y1 = Some (Some (m', failure), y2) /\
    0 <= m' <= want /\ failure <= 0 /\ 0 <= ahead <= 8192 /\ (failure = 0 -> ahead = 0) /\ copied y y2 f g m' ahead.
Proof using.
intros Hnode Hfg. induction fuel as [|fuel IH]; intros y y1 m Hin Hout Hm Hfuel Hc; [lia|]. cbn [copy_blocks]. destruct (want <=? m) eqn:Ew; boolean.
{ exists m, 0, 0, y1. by split_and!; try lia. }
destruct (read_file can_bound g_term_alter fd_in f (Z.min (want - m) 8192) y1 Hin ltac:(lia)) as (got & y2 & E2 & Hr). pose proof (copied_read _ _ _ _ _ _ _ _ Hfg Hc Hr) as Hc2.
pose proof Hr as (Hn2 & _ & _ & _ & _ & Hlen & Hgot). unfold mbind at 1, M_bind at 1. rewrite E2.
destruct (got.1 <? 0) eqn:Eneg; boolean.
{ destruct Hgot as [[_ Hnil]|Hgot]; [|lia]. rewrite Hnil in Hc2. exists m, got.1, 0, y2. split_and!; try done; lia. }
assert (got.1 = Z.of_nat (length got.2)) as Hg1 by (destruct Hgot as [[? _]|]; lia). destruct (got.1 =? 0) eqn:E0; boolean.
{ replace (Z.of_nat (length got.2)) with 0 in Hc2 by lia. exists m, 0, 0, y2. split_and!; try done; lia. }
destruct (write_file can_bound fd_out g got.2 y2) as (put & y3 & E3 & Hw); [by rewrite Hn2|by intros Hnil; rewrite Hnil in Hg1|].
pose proof Hw as (Hn3 & _ & _ & Hput). unfold mbind at 1, M_bind at 1. rewrite E3. destruct (put <? 0) eqn:Ep; boolean.
{ exists m, put, (Z.of_nat (length got.2)), y3. split_and!; try done; try lia. by apply (copied_fail y y2 y3 f g got.2 m _ put); [lia|..]. }
assert (put <= Z.of_nat (length got.2)) as Hput1 by (destruct Hput as [?|?]; lia).
destruct (put <? got.1) eqn:Eshort; boolean.
{ exists (m + put), (- EIO). destruct (Z.eq_dec put 0) as [-> |Hz].
  - exists (Z.of_nat (length got.2)), y3. rewrite Z.add_0_r. split_and!; try done; try lia. by apply (copied_fail y y2 y3 f g got.2 m _ 0).
  - exists (Z.of_nat (length got.2) - put), y3. split_and!; try done; try lia. eapply (copied_block y y1 y2); [done|done|lia|lia|exact Hc|exact Hr|exact Hw]. }
apply IH; try lia.
- unfold same_net in *. by rewrite Hn3, Hn2.
- unfold same_net in *. by rewrite Hn3, Hn2.
- replace 0 with (Z.of_nat (length got.2) - put) at 1 by lia. eapply (copied_block y y1 y2); [done|done|lia|lia|exact Hc|exact Hr|exact Hw].
Qed.

(** A file whose offset was given is put there, or, where it refuses, left where it was. *)
Lemma keep_position_ok y f off :
  exists k y1, keep_position f off y = Some (k, y1) /\ same_files y y1 /\ (forall f', f' <> f -> pos (y_env y1) f' = pos (y_env y) f') /\
    match k with
    | None => is_Some off /\ pos (y_env y1) f = pos (y_env y) f
    | Some kp => pos (y_env y1) f = default (pos (y_env y) f) off /\ (is_Some off -> kp = pos (y_env y) f /\ (io_seek f 0 SEEK_CUR (y_env y)).1 = (kal_ok, kp))
    end.
Proof using.
unfold keep_position. destruct off as [o|].
2: { exists (Some 0), y. by split_and!. }
unfold mbind, M_bind, env. destruct (io_seek f 0 SEEK_CUR (y_env y)) as [k w1] eqn:E1. destruct (tell_ok _ _ _ _ E1) as [-> Hk]. cbn [y_env y_net].
case_bool_decide as Hok; cbn [negb]; [|exists None, (Sys (y_net y) (y_env y)); by split_and!].
cbn [y_env y_net]. destruct (io_seek f o SEEK_SET (y_env y)) as [s w2] eqn:E2. destruct (seek_ok _ _ _ _ _ E2) as (Hb & Hp & Hps).
do 2 eexists. split; [reflexivity|]. case_bool_decide as Hs; split_and!; try done. intros _. split; [by apply Hk|]. destruct k as [k1 k2]. cbn in *. by subst.
Qed.

(** And back where it said it was, in the state [w]. *)
Lemma put_back_ok y f off keep m w : (is_Some off -> (io_seek f 0 SEEK_CUR w).1 = (kal_ok, keep)) ->
  exists y', put_back f off keep m y = Some ((fun o => o + m) <$> off, y') /\ same_files y y' /\ (forall f', f' <> f -> pos (y_env y') f' = pos (y_env y) f') /\
    pos (y_env y') f = match off with Some _ => keep | None => pos (y_env y) f end.
Proof using.
intros Hkeep. unfold put_back. destruct off as [o|]; [|by exists y]. specialize (Hkeep ltac:(done)). unfold mbind, M_bind, env. destruct (io_seek f 0 SEEK_CUR (y_env y)) as [k w1] eqn:E1. destruct (tell_ok _ _ _ _ E1) as [-> _].
cbn [y_env y_net]. pose proof (seek_back f keep w (y_env y) Hkeep) as Hback. destruct (io_seek f keep SEEK_SET (y_env y)) as [s w2] eqn:E2. destruct (seek_ok _ _ _ _ _ E2) as (Hb & Hp & Hps). cbn [fst] in Hback.
rewrite bool_decide_true in Hps by done. eexists. split; [reflexivity|]. by split_and!.
Qed.

(** What a copy that a seek refused comes to: nothing is copied, and no file is moved but
    that the input may be left at the offset given for it, where the output refused. *)
Record copy_refused y y' (f : Z) (off_in off_out : option Z) : Prop := {
  cr_files : same_files y y';
  cr_asked : is_Some off_in \/ is_Some off_out;
  cr_rest : forall f', f' <> f -> pos (y_env y') f' = pos (y_env y) f';
  cr_from : pos (y_env y') f = pos (y_env y) f \/ off_in = Some (pos (y_env y') f) /\ is_Some off_out;
}.

(** What a copy that went ahead comes to, of [m] bytes. *)
Record copy_done y y' (f g want : Z) (off_in off_out : option Z) (m failure ahead : Z) : Prop := {
  cd_range : 0 <= m <= want /\ failure <= 0 /\ 0 <= ahead <= 8192 /\ (failure = 0 -> ahead = 0);
  cd_length : Z.of_nat (length (take (Z.to_nat m) (drop (Z.to_nat (default (pos (y_env y) f) off_in)) (bytes (y_env y) f)))) = m;
  cd_bytes : written_at y y' g (default (pos (y_env y) g) off_out) (take (Z.to_nat m) (drop (Z.to_nat (default (pos (y_env y) f) off_in)) (bytes (y_env y) f)));
  cd_from : pos (y_env y') f = match off_in with Some _ => pos (y_env y) f | None => pos (y_env y) f + m + ahead end;
  cd_to : pos (y_env y') g = match off_out with Some _ => pos (y_env y) g | None => pos (y_env y) g + m end;
  cd_rest : forall f', f' <> f -> f' <> g -> pos (y_env y') f' = pos (y_env y) f';
}.
End copy.

(** C39. copy_file_range between descriptors of two different nodes, neither opened to
    append, returns: it copies the bytes of the one file from its offset to the other's, as
    many as it answers, and changes nothing else; offsets given are moved by as much, and the
    positions of the files then not at all; an error is answered only where no byte was
    copied. Where no offset of the input is given and every byte read is written, its
    position is moved by what was copied. Where the environment refuses to seek to an offset
    given, EIO is answered, nothing is copied and no position is moved, but that the input
    may be left at its offset where it is the output's that is refused. *)
Theorem copy_file_range_copies {W} `{KalFiles W} can_bound g_term_alter (y : sys W) fd_in fd_out f g off_in off_out want fuel :
  file_fd (n_fds (y_net y)) fd_in f -> file_fd (n_fds (y_net y)) fd_out g -> same_node g f = false -> 0 < want -> want < Z.of_nat fuel ->
  exists r o_in o_out y', copy_file_range can_bound g_term_alter fuel fd_in off_in fd_out off_out want 0 y = Some ((Some r, o_in, o_out), y') /\
    (r = - EIO /\ copy_refused y y' f off_in off_out /\ o_in = off_in /\ o_out = off_out \/
     exists m failure ahead, copy_done y y' f g want off_in off_out m failure ahead /\ r = (if 0 <? m then m else failure) /\
       o_in = ((fun o => o + m) <$> off_in) /\ o_out = ((fun o => o + m) <$> off_out)).
Proof.
  intros Hin Hout Hnode Hwant Hfuel. assert (Hfg : f <> g) by (intros ->; by rewrite same_node_refl in Hnode).
  destruct (file_desc _ _ _ Hin) as (i & di & _ & Hdi & _ & Hki & Hfi & _). destruct (file_desc _ _ _ Hout) as (j & dobj & _ & Hdj & _ & Hkj & Hfj & _).
  unfold copy_file_range. cbn [Z.eqb negb]. replace (want =? 0) with false by lia. unfold mbind at 1, M_bind at 1, gets. rewrite Hdi, Hdj, Hki, Hkj, Hfi, Hfj. change (bool_decide (OKM_FILE = OKM_FILE)) with true. cbn [negb orb].
  destruct (keep_position_ok y f off_in) as (k1 & y1 & E1 & [Hn1 Hb1] & Hp1 & Hk1). unfold mbind at 1, M_bind at 1. rewrite E1.
  destruct k1 as [keep_in|]; [|destruct Hk1; do 4 eexists; split; [reflexivity|]; left; split; [done|]; split; [constructor; [done|by left|done|by left]|done]].
  destruct (keep_position_ok y1 g off_out) as (k2 & y2 & E2 & [Hn2 Hb2] & Hp2 & Hk2). unfold mbind at 1, M_bind at 1. rewrite E2.
  assert (n_fds (y_net y2) = n_fds (y_net y)) as Hn by (unfold same_net in *; congruence).
  assert (forall f', bytes (y_env y2) f' = bytes (y_env y) f') as Hb by (intros f'; by rewrite Hb2).
  destruct Hk1 as [Hf1 Hkeep1]. destruct k2 as [keep_out|].
  2: { destruct Hk2 as [Ho2 Hg2]. do 4 eexists. split; [reflexivity|]. left. split; [done|]. split; [|done]. constructor; [done|by right| |].
    - intros f' Hf'. destruct (decide (f' = g)) as [->|Hg]; [rewrite Hg2; by apply Hp1|by rewrite Hp2, Hp1].
    - rewrite (Hp2 f Hfg), Hf1. destruct off_in; [by right|by left]. }
  destruct Hk2 as [Hg2 Hkeep2]. rewrite (Hp1 g) in Hg2, Hkeep2 by done. rewrite <-(Hp2 f) in Hf1 by done.
  destruct (copy_blocks_ok can_bound g_term_alter fd_in fd_out f g want fuel Hnode Hfg y2 y2 0) as (m & failure & ahead & y3 & E3 & Hm & Hfl & Hah & Hz & [(Hn3 & Hb3 & Ho3) Hl3 Hf3 Hg3 Hr3]);
    [by rewrite Hn|by rewrite Hn|lia|lia|apply copied_nothing|].
  unfold mbind at 1, M_bind at 1. rewrite E3. rewrite Hf1, Hb in Hl3, Hb3. rewrite Hb, Hg2 in Hb3. rewrite Hf1 in Hf3. rewrite Hg2 in Hg3.
  destruct (put_back_ok y3 f off_in keep_in m (y_env y)) as (y4 & E4 & [Hn4 Hb4] & Hp4 & Hf4); [intros Ho; by apply Hkeep1|].
  destruct (put_back_ok y4 g off_out keep_out m (y_env y1)) as (y5 & E5 & [Hn5 Hb5] & Hp5 & Hg5); [intros Ho; by apply Hkeep2|].
  unfold mbind, M_bind. rewrite E4, E5. do 4 eexists. split; [reflexivity|]. right. exists m, failure, ahead. split; [|split_and!; try done; repeat split_if; lia].
  constructor; [done|done| | | |].
  - split_and!; [unfold same_net in *; congruence|by rewrite Hb5, Hb4|]. intros f' Hf'. by rewrite Hb5, Hb4, Ho3, Hb.
  - rewrite (Hp5 f) by done. rewrite Hf4. destruct off_in; [by apply Hkeep1|done].
  - rewrite Hg5, (Hp4 g) by done. destruct off_out; [by apply Hkeep2|done].
  - intros f' Hf' Hg'. rewrite Hp5, Hp4, Hr3, Hp2, Hp1 by done. done.
Qed.

(** Five bytes from the second on, past the end of the other file's two. *)
Lemma copy_file_range_copies_witness : exists r o_in o_out y', copy_file_range true 0 6 0 (Some 1) 1 None 5 0 (with_disk 9 5) = Some ((Some r, o_in, o_out), y') /\
    (r = - EIO /\ copy_refused (with_disk 9 5) y' 7 (Some 1) None /\ o_in = Some 1 /\ o_out = None \/
     exists m failure ahead, copy_done (with_disk 9 5) y' 7 8 5 (Some 1) None m failure ahead /\ r = (if 0 <? m then m else failure) /\
       o_in = ((fun o => o + m) <$> Some 1) /\ o_out = ((fun o => o + m) <$> None)).
Proof.
  destruct (with_disk_fd 9 5) as [H0 H1].
  apply (copy_file_range_copies true 0 (with_disk 9 5) 0 1 7 8 (Some 1) None 5 6 H0 H1); [done|lia|lia].
Defined.

(** copy_file_range loses the input's place in two ways. A write that is short
    leaves the input's position after all that was read, so that a caller that
    resumes skips the bytes read and not written: of six bytes with room for four,
    four are copied and the next call finds none. And where the output's offset is
    refused, the input, whose offset was given and whose position is not to move, is
    left at that offset. *)
Theorem copy_loses_place :
  (exists y1 y2, copy_file_range true 0 9 0 None 1 None 6 0 (with_disk 4 0) = Some ((Some 4, None, None), y1) /\
     pos (y_env y1) 7 = 6 /\ bytes (y_env y1) 8 = [10; 11; 12; 13] /\
     copy_file_range true 0 9 0 None 1 None 2 0 y1 = Some ((Some 0, None, None), y2) /\ bytes (y_env y2) 8 = [10; 11; 12; 13]) /\
  (exists y1, copy_file_range true 0 9 0 (Some 3) 1 (Some (-1)) 6 0 (with_disk 4 0) = Some ((Some (- EIO), Some 3, Some (-1)), y1) /\
     pos (y_env (with_disk 4 0)) 7 = 0 /\ pos (y_env y1) 7 = 3).
Proof. split; [do 2 eexists|eexists]; (split; [vm_compute; reflexivity|]); split_and!; vm_compute; reflexivity. Qed.

(** Where both descriptors are of one description, by dup or because they are the same
    descriptor, the two seeks move the one position: the second undoes the first, and keeps
    as the output's position the input's offset. Of the six bytes 10 to 15, at position 0,
    two are to be copied from offset 1 to offset 4: those at offset 4 are read and written
    after themselves, two are answered, both offsets moved by two, and the position is left
    at the input's offset. *)
Theorem copy_within_one : exists y1, copy_file_range true 0 9 0 (Some 1) 0 (Some 4) 2 0 (with_disk 9 0) = Some ((Some 2, Some 3, Some 6), y1) /\
  bytes (y_env (with_disk 9 0)) 7 = [10; 11; 12; 13; 14; 15] /\ bytes (y_env y1) 7 = [10; 11; 12; 13; 14; 15; 14; 15] /\ pos (y_env (with_disk 9 0)) 7 = 0 /\ pos (y_env y1) 7 = 1.
Proof. eexists. split; [vm_compute; reflexivity|]. split_and!; vm_compute; reflexivity. Qed.
