(* ===== verification/StreamTheorems.v ===== *)
(** Readiness enquiries, reads and writes of one stream together: an enquiry takes a byte
    to make its answer true, the read that follows delivers it, the program sees the bytes
    the environment gave, each once and in order, and the environment takes those the
    program wrote. *)
From S2P Require Import Prelude Kal FdTable FdTableOk Net NetOk NetTheorems Poll Transfer.
From stdpp Require Import base list option.
From Stdlib Require Import ZArith Lia.

#[local] Open Scope Z_scope.

(** ** An environment that notes what it gives and takes of each stream *)

Section recording.
Context {W : Type} `{KalIo W}.

Inductive note := Gave (s : Z) (l : list Z) | Took (s : Z) (l : list Z).
Definition noted : Type := W * list note.

#[export] Instance noting : KalIo noted := {
  io_read s len b w := let '(r, w') := io_read s len b w.1 in (r, (w', match r with inr l => w.2 ++ [Gave s l] | inl _ => w.2 end));
  io_write s buf b w := let '(r, w') := io_write s buf b w.1 in (r, (w', match r with inr c => w.2 ++ [Took s (take (Z.to_nat c) buf)] | inl _ => w.2 end));
  io_interactive w s := io_interactive w.1 s;
  io_seek f o wh w := let '(r, w') := io_seek f o wh w.1 in (r, (w', w.2));
  io_read_at f len off w := let '(r, w') := io_read_at f len off w.1 in (r, (w', w.2));
  io_write_at f buf off w := let '(r, w') := io_write_at f buf off w.1 in (r, (w', w.2));
}.

(** What the environment gave of the stream [s], and what it took of what was written. *)
Definition given (s : Z) (w : noted) : list Z := concat ((fun e => match e with Gave s' l => if s' =? s then l else [] | Took _ _ => [] end) <$> w.2).
Definition took (s : Z) (w : noted) : list Z := concat ((fun e => match e with Took s' l => if s' =? s then l else [] | Gave _ _ => [] end) <$> w.2).

Context (can_bound can_accept can_recv : bool).

(** An enquiry about the description [i] of a stream or a channel: the environment is
    asked where wait_in asks it. *)
Definition enquire (i ns : Z) : M (sys noted) Z :=
  d ← lift (in_fds (get_desc i));
  r ← (if can_bound && (d_ahead d =? 0) && (d_ahead_eof d =? 0) then env (io_read (d_stream d) 1 ns) else mret (inl kal_err_again));
  lift (wait_in can_bound can_accept can_recv i ns (Attempt kal_ok 0 false (inl kal_err_again) r)).

(** A program's operations on the description [i]: reads and writes through any descriptor
    of it, and enquiries. [out] is what the program is given, before the terminal's setting
    alters it; [put] is what it was told is written. *)
Inductive operation (i : Z) (y : sys noted) (out put : list Z) (y' : sys noted) : Prop :=
| op_read fd len c : put = [] -> 0 <= len -> okm_desc_of (n_fds (y_net y)) fd = Some i -> do_read_stream can_bound fd len y = Some ((c, out), y') -> operation i y out put y'
| op_write fd buf c : out = [] -> put = take (Z.to_nat c) buf -> okm_desc_of (n_fds (y_net y)) fd = Some i -> do_write can_bound fd buf y = Some (c, y') -> operation i y out put y'
| op_poll ns r : out = [] -> put = [] -> enquire i ns y = Some (r, y') -> operation i y out put y'.

Inductive operations (i : Z) (y : sys noted) : list Z -> list Z -> sys noted -> Prop :=
| ops_nil : operations i y [] [] y
| ops_snoc out put y1 out1 put1 y2 : operations i y out put y1 -> operation i y1 out1 put1 y2 -> operations i y (out ++ out1) (put ++ put1) y2.

(** What is documented of a read: it gives no more than was asked for. *)
Hypothesis read_short : forall s len b w l w', 0 <= len -> io_read s len b (w : W) = (inr l, w') -> Z.of_nat (length l) <= len.

(** The byte an enquiry took and no read has delivered yet. *)
Definition ahead (d : okm_desc) : list Z := if d_ahead d =? 0 then [] else [d_ahead_byte d].

(** [y] and then [y']: the description is as it was, but for what is read ahead. *)
Definition same_stream (i : Z) (d : okm_desc) (y y' : sys noted) (d' : okm_desc) : Prop :=
  at_ (g_desc (n_fds (y_net y'))) i = Some d' /\ d_kind d' = d_kind d /\ d_stream d' = d_stream d /\ d_flags d' = d_flags d /\ g_fd (n_fds (y_net y')) = g_fd (n_fds (y_net y)).

(** Nothing lost, nothing twice: what was ahead and what is given meanwhile are what is
    delivered and what is then ahead; what is taken is what was written. *)
Definition conserved (i : Z) (d : okm_desc) (y : sys noted) (out put : list Z) (y' : sys noted) : Prop :=
  exists d' got, same_stream i d y y' d' /\ given (d_stream d) (y_env y') = given (d_stream d) (y_env y) ++ got /\ ahead d ++ got = out ++ ahead d' /\
    took (d_stream d) (y_env y') = took (d_stream d) (y_env y) ++ put.

Definition is_stream (d : okm_desc) : Prop := d_kind d = OKM_STREAM \/ d_kind d = OKM_CHANNEL.

(** One read of the environment. *)
Lemma read_noted s len b w r w' : 0 <= len -> io_read s len b (w : noted) = (r, w') ->
  given s w' = given s w ++ match r with inl _ => [] | inr l => l end /\ took s w' = took s w /\ forall l, r = inr l -> Z.of_nat (length l) <= len.
Proof using read_short.
intros Hlen. cbn [io_read noting]. destruct (io_read s len b w.1) as [r1 w1] eqn:E. intros [= <- <-]. destruct r1 as [e|l].
- split; [by rewrite app_nil_r|done].
- unfold given, took. cbn [snd]. rewrite !fmap_app, !concat_app. cbn. rewrite Z.eqb_refl, !app_nil_r. split_and!; [done|done|]. intros ? [= <-]. by eapply read_short.
Qed.

(** What the bounded read comes to: what it delivers is what the environment gave. *)
Lemma timed_read_noted s len ns y : 0 <= len -> exists c l y', timed_read can_bound s len ns y = Some ((c, l), y') /\ n_fds (y_net y') = n_fds (y_net y) /\
  given s (y_env y') = given s (y_env y) ++ l /\ took s (y_env y') = took s (y_env y) /\ Z.of_nat (length l) <= len /\ (c = Z.of_nat (length l) \/ c <= 0 /\ l = []).
Proof using read_short.
intros Hlen. unfold timed_read, mbind, M_bind, lift, okm_timed_read, mret, M_ret. pose proof okm_errno_range as Hr.
destruct can_bound; [|by exists (- ENOSYS), [], (Sys (y_net y) (y_env y)); cbn; rewrite app_nil_r; split_and!; auto; right].
destruct (len =? 0) eqn:Ez; [by exists 0, [], (Sys (y_net y) (y_env y)); cbn; rewrite app_nil_r; split_and!; auto|].
unfold env. cbn [negb andb]. destruct (io_read s len ns (y_env y)) as [r w'] eqn:E. destruct (read_noted _ _ _ _ _ _ Hlen E) as (Hg & Ht & Hl).
unfold n_ask, modify, mbind, M_bind. cbn [y_net]. destruct r as [e|l].
- do 3 eexists. split; [reflexivity|]. cbn [y_env y_net n_fds length]. split_and!; auto. right. split; [|done]. case_bool_decide; [done|]. specialize (Hr e). lia.
- do 3 eexists. split; [reflexivity|]. cbn [y_env y_net n_fds]. split_and!; auto.
Qed.

Lemma conserved_same i d y y' l : at_ (g_desc (n_fds (y_net y))) i = Some d -> n_fds (y_net y') = n_fds (y_net y) -> ahead d = [] ->
  given (d_stream d) (y_env y') = given (d_stream d) (y_env y) ++ l -> took (d_stream d) (y_env y') = took (d_stream d) (y_env y) -> conserved i d y l [] y'.
Proof using. intros Hd Hn Ha Hg Ht. exists d, l. rewrite Ha, !app_nil_r. split_and!; auto. unfold same_stream. by rewrite Hn. Qed.

(** A description read ahead of otherwise. *)
Definition refilled (y : sys noted) (i : Z) (d : okm_desc) (a e b : Z) : net :=
  Net (with_desc (n_fds (y_net y)) (<[Z.to_nat i := with_ahead d a e b]> (g_desc (n_fds (y_net y))))) (n_sock (y_net y)) (n_calls (y_net y)).

Lemma same_refilled i d y a e b y' : at_ (g_desc (n_fds (y_net y))) i = Some d -> n_fds (y_net y') = n_fds (refilled y i d a e b) -> same_stream i d y y' (with_ahead d a e b).
Proof using. intros Hd Hn. unfold same_stream. rewrite Hn. cbn [refilled n_fds g_desc g_fd with_desc]. rewrite at_insert by (by eapply at_range). by rewrite Z.eqb_refl. Qed.

(** What okm_take_ahead takes. *)
Lemma take_ahead_noted i d len y : at_ (g_desc (n_fds (y_net y))) i = Some d -> 0 < len ->
  lift (in_fds (okm_take_ahead i len)) y =
    Some (if negb (d_ahead d =? 0) then ((1, [d_ahead_byte d]), Sys (refilled y i d 0 (d_ahead_eof d) (d_ahead_byte d)) (y_env y))
          else if negb (d_ahead_eof d =? 0) then ((OKM_AHEAD_EOF, []), Sys (refilled y i d 0 0 (d_ahead_byte d)) (y_env y))
          else ((0, []), y)).
Proof using.
intros Hd Hlen. unfold lift, in_fds, okm_take_ahead, mbind, M_bind. rewrite (get_desc_eq _ _ _ Hd). replace (len =? 0) with false by lia. cbn [negb]. rewrite andb_true_r.
destruct (d_ahead d =? 0) eqn:Ea; boolean; cbn [negb]; [|by rewrite (put_desc_eq _ _ _ _ Hd)].
destruct (d_ahead_eof d =? 0) eqn:Ee; boolean; cbn [negb]; [by destruct y as [[] ?]|]. rewrite (put_desc_eq _ _ _ _ Hd). by rewrite Ea.
Qed.

(** A read of a stream or a channel: it returns, gives no more than was asked for, and
    conserves; where a byte is held it gives that byte first. *)
Lemma read_conserves fd i d len y : is_stream d -> okm_desc_of (n_fds (y_net y)) fd = Some i -> at_ (g_desc (n_fds (y_net y))) i = Some d -> 0 <= len ->
  exists c l y', do_read_stream can_bound fd len y = Some ((c, l), y') /\ conserved i d y l [] y' /\ Z.of_nat (length l) <= len /\
    (c = Z.of_nat (length l) \/ c <= 0 /\ l = []) /\ (d_ahead d <> 0 -> 0 < len -> 1 <= c /\ head l = Some (d_ahead_byte d)).
Proof using read_short.
intros Hst Hof Hd Hlen. assert (desc_at (n_fds (y_net y)) fd = Some d) as Hda by (unfold desc_at; by rewrite Hof).
assert (is_null (n_fds (y_net y)) fd = false /\ stream_of (n_fds (y_net y)) fd = inr (d_stream d)) as [Hnull Hs].
{ unfold is_null, stream_of. rewrite Hda. by destruct Hst as [-> | ->]. }
pose proof okm_errno_range as Hr. unfold do_read_stream, mbind, M_bind, gets. rewrite Hnull, Hs. destruct (len =? 0) eqn:Ez; boolean.
{ exists 0, [], y. split_and!; auto; try done; try lia. exists d, []. unfold same_stream. by rewrite !app_nil_r. }
unfold try. rewrite Hof, Hda. cbn [fmap option_fmap option_map]. rewrite (take_ahead_noted _ _ _ _ Hd) by lia.
destruct (d_ahead d =? 0) eqn:Ea; boolean; cbn [negb].
- assert (ahead d = []) as Hno by (unfold ahead; by rewrite Ea). destruct (d_ahead_eof d =? 0) eqn:Ee; boolean; cbn [negb fst snd].
  + change (0 =? OKM_AHEAD_EOF) with false. change (negb (0 =? 0)) with false. cbv iota. destruct (has (d_flags d) O_NONBLOCK).
    * destruct (timed_read_noted (d_stream d) len OKM_NOW_NS y Hlen) as (c & l & y' & E & Hn & Hg & Ht & Hl & Hc). exists c, l, y'. split_and!; [done|by apply conserved_same|done|done|done].
    * unfold env. destruct (io_read (d_stream d) len 0 (y_env y)) as [r w'] eqn:E. destruct (read_noted _ _ _ _ _ _ Hlen E) as (Hg & Ht & Hl). unfold lift, n_ask, modify, mret, M_ret. cbn [y_net y_env].
      destruct r as [e|l]; do 3 eexists; (split; [reflexivity|]).
      -- split_and!; [by apply conserved_same|cbn; lia|right; split; [specialize (Hr e); lia|done]|done].
      -- split_and!; [by apply conserved_same|by apply Hl|by left|done].
  + change (OKM_AHEAD_EOF =? OKM_AHEAD_EOF) with true. cbv iota. do 3 eexists. split; [reflexivity|]. split_and!; [|cbn; lia|by left|done].
    exists (with_ahead d 0 0 (d_ahead_byte d)), []. split; [by apply same_refilled|]. cbn [y_env]. by rewrite Hno, !app_nil_r.
- cbn [fst snd]. change (1 =? OKM_AHEAD_EOF) with false. change (negb (1 =? 0)) with true. cbv iota. set (n1 := refilled y i d 0 _ _).
  assert (ahead d = [d_ahead_byte d]) as Hyes by (unfold ahead; by replace (d_ahead d =? 0) with false by lia).
  assert (forall y' l, n_fds (y_net y') = n_fds n1 -> given (d_stream d) (y_env y') = given (d_stream d) (y_env y) ++ l -> took (d_stream d) (y_env y') = took (d_stream d) (y_env y) -> conserved i d y (d_ahead_byte d :: l) [] y') as Hc.
  { intros y' l Hn Hg Ht. exists (with_ahead d 0 (d_ahead_eof d) (d_ahead_byte d)), l. split; [by apply same_refilled|]. split; [done|]. rewrite Hyes. cbn. by rewrite !app_nil_r. }
  assert (conserved i d y [d_ahead_byte d] [] (Sys n1 (y_env y))) as H1 by (apply Hc; [done|by rewrite app_nil_r|done]).
  destruct ((1 <? len) && can_bound) eqn:Em; [|do 3 eexists; split; [reflexivity|]; split_and!; auto; [cbn; lia|done]].
  boolean. destruct (timed_read_noted (d_stream d) (len - 1) OKM_NOW_NS (Sys n1 (y_env y)) ltac:(lia)) as (c & l & y' & E & Hn & Hg & Ht & Hl & Hcl). rewrite E. cbn [fst snd].
  destruct (0 <? c) eqn:Ec; boolean.
  + exists (1 + c), (d_ahead_byte d :: l), y'. split; [done|]. split_and!; [by apply Hc|cbn [length]; lia|left; cbn [length]; lia|intros _ _; split; [lia|done]].
  + assert (l = []) as -> by (destruct Hcl as [?|[_ ?]]; [by destruct l; [|cbn in *; lia]|done]).
    exists 1, [d_ahead_byte d], y'. split; [done|]. split_and!; [by apply Hc|cbn; lia|by left|done].
Qed.

(** An enquiry: it returns, gives the program nothing and conserves; where it answers
    that there is input, there is a byte or the end of the input ahead. *)
Lemma enquire_conserves i d ns y : is_stream d -> at_ (g_desc (n_fds (y_net y))) i = Some d ->
  exists r y', enquire i ns y = Some (r, y') /\ conserved i d y [] [] y' /\
    (0 < r -> exists d', at_ (g_desc (n_fds (y_net y'))) i = Some d' /\ (d_ahead d' <> 0 \/ d_ahead_eof d' <> 0)).
Proof using read_short.
intros Hst Hd. unfold enquire, mbind, M_bind, lift at 1, in_fds at 1. rewrite (get_desc_eq _ _ _ Hd).
assert (forall y' : sys noted, y' = y -> conserved i d y [] [] y') as Hid by (intros ? ->; exists d, []; unfold same_stream; by rewrite !app_nil_r).
assert (Sys (Net (n_fds (y_net y)) (n_sock (y_net y)) (n_calls (y_net y))) (y_env y) = y) as Ey by (by destruct y as [[] ?]).
assert (bool_decide (d_kind d = OKM_SOCKET) = false) as Hk by (by destruct Hst as [-> | ->]).
unfold wait_in, mbind, M_bind, lift, in_fds. cbn [y_net n_fds]. destruct (decide (d_ahead d = 0 /\ d_ahead_eof d = 0)) as [[Ha He]|Hh].
2: { replace (can_bound && (d_ahead d =? 0) && (d_ahead_eof d =? 0)) with false by (clear -Hh; destruct can_bound, (d_ahead d =? 0) eqn:?, (d_ahead_eof d =? 0) eqn:?; boolean; done || lia). unfold mret, M_ret. cbn [y_net n_fds]. rewrite (get_desc_eq _ _ _ Hd).
  replace (negb (d_ahead d =? 0) || negb (d_ahead_eof d =? 0)) with true by lia. do 2 eexists. split; [reflexivity|]. split; [by apply Hid|]. intros _. exists d. split; [done|]. lia. }
rewrite Ha, He. cbn [Z.eqb negb orb]. rewrite !andb_true_r. destruct can_bound.
- unfold env. cbn [y_env]. destruct (io_read (d_stream d) 1 ns (y_env y)) as [r w'] eqn:E. destruct (read_noted _ 1 _ _ _ _ ltac:(lia) E) as (Hg & Ht & Hl). cbn [y_net n_fds]. rewrite (get_desc_eq _ _ _ Hd), Hk, Ha, He.
  unfold mret, M_ret, n_ask, modify. cbn [Z.eqb negb orb t_byte]. destruct r as [e|[|b [|b' l]]].
  + do 2 eexists. split; [reflexivity|]. split; [apply conserved_same; try done; unfold ahead; by rewrite Ha|]. intros Hpos. exfalso. pose proof (okm_errno_range e) as He1. clear -Hpos He1. case_bool_decide; lia.
  + rewrite (put_desc_eq _ _ _ _ Hd). do 2 eexists. split; [reflexivity|]. split.
    * exists (with_ahead d 0 1 (d_ahead_byte d)), []. split; [by apply same_refilled|]. split; [done|]. unfold ahead. rewrite Ha. split; [done|]. cbn [y_env]. by rewrite Ht, app_nil_r.
    * intros _. exists (with_ahead d 0 1 (d_ahead_byte d)). split; [|by right]. by destruct (same_refilled i d y 0 1 (d_ahead_byte d) (Sys (refilled y i d 0 1 (d_ahead_byte d)) (y_env y)) Hd eq_refl).
  + rewrite (put_desc_eq _ _ _ _ Hd). do 2 eexists. split; [reflexivity|]. split.
    * exists (with_ahead d 1 0 b), [b]. split; [by apply same_refilled|]. split; [done|]. unfold ahead. rewrite Ha. split; [done|]. cbn [y_env]. by rewrite Ht, app_nil_r.
    * intros _. exists (with_ahead d 1 0 b). split; [|by left]. by destruct (same_refilled i d y 1 0 b (Sys (refilled y i d 1 0 b) (y_env y)) Hd eq_refl).
  + specialize (Hl _ eq_refl). cbn [length] in Hl. lia.
- unfold mret, M_ret. cbn [andb y_net n_fds]. rewrite (get_desc_eq _ _ _ Hd), Hk, Ha, He. cbn [Z.eqb negb orb]. do 2 eexists. split; [reflexivity|]. split; [by apply Hid|]. intros ?. unfold ENOSYS in *. lia.
Qed.

(** One write of the environment. *)
Lemma write_noted s buf b w r w' : io_write s buf b (w : noted) = (r, w') -> given s w' = given s w /\ took s w' = took s w ++ match r with inl _ => [] | inr c => take (Z.to_nat c) buf end.
Proof using.
cbn [io_write noting]. destruct (io_write s buf b w.1) as [r1 w1]. intros [= <- <-]. destruct r1 as [e|c]; [by rewrite app_nil_r|].
unfold given, took. cbn [snd]. rewrite !fmap_app, !concat_app. cbn. by rewrite Z.eqb_refl, !app_nil_r.
Qed.

(** A write of a stream or a channel: it returns, takes nothing of what is read, and what
    the environment took is what the answer says. *)
Lemma write_conserves fd i d buf y : is_stream d -> okm_desc_of (n_fds (y_net y)) fd = Some i -> at_ (g_desc (n_fds (y_net y))) i = Some d ->
  exists c y', do_write can_bound fd buf y = Some (c, y') /\ conserved i d y [] (take (Z.to_nat c) buf) y'.
Proof using.
intros Hst Hof Hd. assert (desc_at (n_fds (y_net y)) fd = Some d) as Hda by (unfold desc_at; by rewrite Hof).
assert (is_null (n_fds (y_net y)) fd = false /\ stream_of (n_fds (y_net y)) fd = inr (d_stream d)) as [Hnull Hs].
{ unfold is_null, stream_of. rewrite Hda. by destruct Hst as [-> | ->]. }
assert (Hc : forall y' put, n_fds (y_net y') = n_fds (y_net y) -> given (d_stream d) (y_env y') = given (d_stream d) (y_env y) -> took (d_stream d) (y_env y') = took (d_stream d) (y_env y) ++ put -> conserved i d y [] put y').
{ intros y' put Hn Hg Ht. exists d, []. unfold same_stream. rewrite Hn, !app_nil_r. by split_and!. }
assert (Herr : forall e, take (Z.to_nat (- okm_errno e)) buf = []) by (intros e; pose proof (okm_errno_range e); by replace (Z.to_nat (- okm_errno e)) with 0%nat by lia).
unfold do_write, mbind, M_bind, gets. rewrite Hnull, Hs. destruct (_ =? 0) eqn:Ez; [exists 0, y; split; [done|]; apply Hc; by rewrite ?app_nil_r|].
unfold try. rewrite Hda. cbn [fmap option_fmap option_map]. destruct (has (d_flags d) O_NONBLOCK).
- unfold timed_write, mbind, M_bind. rewrite Ez. cbn [negb]. rewrite andb_true_r. unfold lift, okm_timed_write. destruct can_bound.
  + unfold env. destruct (io_write (d_stream d) buf OKM_NOW_NS (y_env y)) as [r w'] eqn:E. destruct (write_noted _ _ _ _ _ _ E) as [Hg Ht]. cbn [negb]. rewrite Ez. unfold mbind, M_bind, n_ask, modify, mret, M_ret. do 2 eexists. split; [reflexivity|]. apply Hc; [done|done|].
    cbn [y_env]. rewrite Ht. f_equal. destruct r as [e|c]; [|done]. case_bool_decide; by rewrite ?Herr.
  + cbn [negb]. do 2 eexists. split; [reflexivity|]. apply Hc; by rewrite ?app_nil_r.
- unfold env. destruct (io_write (d_stream d) buf 0 (y_env y)) as [r w'] eqn:E. destruct (write_noted _ _ _ _ _ _ E) as [Hg Ht]. unfold lift, n_ask, modify, mret, M_ret. do 2 eexists. split; [reflexivity|]. apply Hc; [done|done|].
  cbn [y_env]. rewrite Ht. f_equal. destruct r as [e|c]; [|done]. cbn [io_result]. by rewrite Herr.
Qed.

Lemma operation_conserves i d y out put y' : is_stream d -> at_ (g_desc (n_fds (y_net y))) i = Some d -> operation i y out put y' -> conserved i d y out put y'.
Proof using read_short.
intros Hst Hd [fd len c -> Hlen Hof E|fd buf c -> -> Hof E|ns r -> -> E].
- destruct (read_conserves fd i d len y Hst Hof Hd Hlen) as (c' & l & y1 & E' & Hc & _). rewrite E in E'. by injection E' as _ <- <-.
- destruct (write_conserves fd i d buf y Hst Hof Hd) as (c' & y1 & E' & Hc). rewrite E in E'. by injection E' as <- <-.
- destruct (enquire_conserves i d ns y Hst Hd) as (r' & y1 & E' & Hc & _). rewrite E in E'. by injection E' as _ <-.
Qed.

Lemma operations_conserve i d y out put y' : is_stream d -> at_ (g_desc (n_fds (y_net y))) i = Some d -> operations i y out put y' -> conserved i d y out put y'.
Proof using read_short.
intros Hst Hd. induction 1 as [|out put y1 out1 put1 y2 _ (d1 & got & (Hd1 & Hk1 & Hs1 & Hf1 & Hg1) & Hgiv & Hahead & Htak) Hop].
{ exists d, []. unfold same_stream. by rewrite !app_nil_r. }
assert (is_stream d1) as Hst1 by (unfold is_stream; by rewrite Hk1).
destruct (operation_conserves i d1 y1 out1 put1 y2 Hst1 Hd1 Hop) as (d2 & got2 & (Hd2 & Hk2 & Hs2 & Hf2 & Hg2) & Hgiv2 & Hahead2 & Htak2). rewrite Hs1 in Hgiv2, Htak2. exists d2, (got ++ got2). split; [|split; [|split]].
- unfold same_stream. split_and!; congruence.
- rewrite Hgiv2, Hgiv. by rewrite app_assoc.
- rewrite app_assoc, Hahead, <-!app_assoc. f_equal. done.
- rewrite Htak2, Htak. by rewrite app_assoc.
Qed.

(** What a program is given of a read: its bytes, which the terminal's setting alters where
    the descriptor is a stream that is a terminal. *)
Definition altered (g : Z) (d : okm_desc) (w : noted) (l : list Z) : list Z :=
  if negb (g =? 0) && bool_decide (d_kind d = OKM_STREAM) && io_interactive w (d_stream d) then Transfer.alter g <$> l else l.

Lemma read_altered g fd i d len y c l y' : is_stream d -> okm_desc_of (n_fds (y_net y)) fd = Some i -> at_ (g_desc (n_fds (y_net y))) i = Some d -> 0 <= len ->
  do_read_stream can_bound fd len y = Some ((c, l), y') -> do_read can_bound g fd len y = Some ((c, altered g d (y_env y') l), y').
Proof using read_short.
intros Hst Hof Hd Hlen E. destruct (read_conserves fd i d len y Hst Hof Hd Hlen) as (c' & l' & y1 & E' & (d' & _ & (Hd' & Hk & Hs & _ & Hfd) & _) & _ & Hc & _). rewrite E in E'. injection E' as <- <- <-.
unfold do_read, mbind, M_bind. rewrite E. cbn [fst snd]. unfold altered. destruct (g =? 0); [by rewrite orb_true_r|]. rewrite orb_false_r. cbn [negb andb]. destruct (Z.leb_spec c 0) as [Hle|Hgt].
- assert (l = []) as -> by (destruct Hc as [Hc|[_ ?]]; [destruct l; [done|cbn in Hc; lia]|done]). by destruct (bool_decide _ && _).
- unfold gets. change (id y') with y'. assert (desc_at (n_fds (y_net y')) fd = Some d') as -> by (unfold desc_at, okm_desc_of in *; rewrite Hfd; rewrite Hof; exact Hd'). rewrite Hk, Hs.
  destruct (bool_decide (d_kind d = OKM_STREAM)); cbn [negb andb]; [|done]. by destruct (io_interactive (y_env y') (d_stream d)).
Qed.
End recording.

(** C37. Whatever reads, writes and readiness enquiries a program makes of a stream or a
    channel, through whichever descriptors and in whatever order, and whatever the
    environment answers: the bytes the environment has given of the stream are those the
    reads came to, in order, and then the one that is held; the bytes it has taken are those
    the program was told it wrote, in order and each once. The next read returns, with no
    more bytes than were asked for, the one that is held before the others, and the program
    is given them as they are, or, where the descriptor is a stream that is a terminal, each
    altered as the terminal's setting says; the next write returns. *)
Theorem stream_in_order {W} `{KalIo W} can_bound can_accept can_recv i d (y : sys (@noted W)) out put y' :
  (forall s len b (w : W) l w', 0 <= len -> io_read s len b w = (inr l, w') -> Z.of_nat (length l) <= len) ->
  is_stream d -> at_ (g_desc (n_fds (y_net y))) i = Some d -> operations can_bound can_accept can_recv i y out put y' ->
  exists d' got, at_ (g_desc (n_fds (y_net y'))) i = Some d' /\ given (d_stream d) (y_env y') = given (d_stream d) (y_env y) ++ got /\
    ahead d ++ got = out ++ ahead d' /\ took (d_stream d) (y_env y') = took (d_stream d) (y_env y) ++ put /\
    (forall fd len, okm_desc_of (n_fds (y_net y')) fd = Some i -> 0 <= len -> exists c l y2, do_read_stream can_bound fd len y' = Some ((c, l), y2) /\
      Z.of_nat (length l) <= len /\ (c = Z.of_nat (length l) \/ c <= 0 /\ l = []) /\ (d_ahead d' <> 0 -> 0 < len -> 1 <= c /\ head l = Some (d_ahead_byte d')) /\
      forall g, do_read can_bound g fd len y' = Some ((c, altered g d (y_env y2) l), y2)) /\
    (forall fd buf, okm_desc_of (n_fds (y_net y')) fd = Some i -> is_Some (do_write can_bound fd buf y')).
Proof.
  intros Hshort Hst Hd Hops. destruct (operations_conserve can_bound can_accept can_recv Hshort i d y out put y' Hst Hd Hops) as (d' & got & (Hd' & Hk & Hs & _) & Hg & Ha & Ht).
  assert (is_stream d') as Hst' by (unfold is_stream; by rewrite Hk). exists d', got. split_and!; auto.
  - intros fd len Hof Hlen. destruct (read_conserves can_bound Hshort fd i d' len y' Hst' Hof Hd' Hlen) as (c & l & y2 & E & _ & H1 & H2 & H3). exists c, l, y2. split_and!; auto.
    intros g. rewrite (read_altered can_bound Hshort g fd i d' len y' c l y2 Hst' Hof Hd' Hlen E). unfold altered. by rewrite Hk, Hs.
  - intros fd buf Hof. destruct (write_conserves can_bound fd i d' buf y' Hst' Hof Hd') as (c & y2 & -> & _). eauto.
Qed.

(** ** An input of three bytes *)

#[local] Instance tape : KalIo (list Z) := {
  io_read _ len _ w := (inr (take (Z.to_nat len) w), drop (Z.to_nat len) w);
  io_write _ buf _ w := (inr (Z.of_nat (length buf)), w);
  io_interactive _ _ := false;
  io_seek _ _ _ w := ((kal_err_not_supported, 0), w);
  io_read_at _ _ _ w := (inl kal_err_not_supported, w);
  io_write_at _ _ _ w := (inl kal_err_not_supported, w);
}.

Lemma tape_short s len b (w : list Z) l w' : 0 <= len -> io_read s len b w = (inr l, w') -> Z.of_nat (length l) <= len.
Proof. intros Hlen. cbn. intros [= <- _]. rewrite length_take. lia. Qed.

Definition stdin_desc : okm_desc := Desc 1 OKM_STREAM 0 3 0 0 0 0 (-1) 0 0 [] (-1) 0 0 0.
Definition at_start : sys (@noted (list Z)) :=
  Sys (Net (FdTable [stdin_desc] ((0, 0) :: replicate 1023 (OKM_FD_FREE, 0)) [] [] [] 0 [] [] []) [] []) ([65; 66; 67], []).

(** An enquiry, a write of two, then a read of two. *)
Definition enquired : option (Z * sys (@noted (list Z))) := enquire true true true 0 1 at_start.
Definition then_write : option (Z * sys (@noted (list Z))) := '(_, y) ← enquired; do_write true 0 [97; 98] y.
Definition then_read : option (Z * list Z * sys (@noted (list Z))) := '(_, y) ← then_write; do_read_stream true 0 2 y.

Lemma then_read_eq : match then_read with Some (c, l, y) => c = 2 /\ l = [65; 66] /\ given 3 (y_env y) = [65; 66] /\ took 3 (y_env y) = [97; 98] | None => False end.
Proof. by vm_compute. Qed.

Lemma stream_in_order_witness : exists c out y' d' got, then_read = Some (c, out, y') /\ given 3 (y_env y') = [] ++ got /\ [] ++ got = out ++ ahead d' /\ took 3 (y_env y') = [97; 98].
Proof.
  pose proof then_read_eq as Hr. unfold then_read, then_write in Hr |- *. destruct enquired as [[r y1]|] eqn:E1; [|destruct Hr]. cbn [mbind option_bind] in Hr |- *.
  destruct (do_write true 0 [97; 98] y1) as [[c1 y2]|] eqn:E2; [|destruct Hr]. cbn [mbind option_bind] in Hr |- *. destruct (do_read_stream true 0 2 y2) as [[[c out] y3]|] eqn:E3; [|destruct Hr].
  assert (H1 : okm_desc_of (n_fds (y_net y1)) 0 = Some 0) by (revert E1; vm_compute; intros [= _ <-]; reflexivity).
  assert (H2 : okm_desc_of (n_fds (y_net y2)) 0 = Some 0 /\ c1 = 2) by (revert E1 E2; vm_compute; intros [= _ <-] [= <- <-]; split; reflexivity). destruct H2 as [H2 ->].
  destruct (stream_in_order true true true 0 stdin_desc at_start ((([] ++ []) ++ []) ++ out) ((([] ++ []) ++ [97; 98]) ++ []) y3 tape_short) as (d' & got & _ & Hg & Ha & Ht & _); [by left|reflexivity| |].
  - eapply ops_snoc; [eapply ops_snoc; [eapply ops_snoc; [apply ops_nil|apply (op_poll _ _ _ _ _ _ _ _ 1 r); [reflexivity|reflexivity|exact E1]]|]|].
    + apply (op_write _ _ _ _ _ _ _ _ 0 [97; 98] 2); [reflexivity|reflexivity|exact H1|exact E2].
    + apply (op_read _ _ _ _ _ _ _ _ 0 2 c); [reflexivity|lia|exact H2|exact E3].
  - exists c, out, y3, d', got. split; [reflexivity|]. split; [exact Hg|]. split; [exact Ha|exact Ht].
Defined.
