(* ===== verification/Nodes.v ===== *)
(** Names of nodes: opening them, asking about them, and the one property of theirs that
    may be changed (port/src/okm_syscall.c: do_openat, null_kstat, fill_kstat,
    do_fstat, do_readlink, do_symlink, do_fstatat, do_chmod). *)
From S2P Require Import Prelude Kal FdTable Names.
From stdpp Require Import base list option.
From Stdlib Require Import ZArith Lia.

#[local] Open Scope Z_scope.

Definition ELOOP : Z := 40.
Definition O_NOFOLLOW : Z := 0x20000.
Definition AT_SYMLINK_NOFOLLOW : Z := 0x100.
Definition AT_EMPTY_PATH : Z := 0x1000.
Definition OKM_PAGE : Z := 4096.

Definition S_IFIFO : Z := 0x1000.
Definition S_IFCHR : Z := 0x2000.
Definition S_IFDIR : Z := 0x4000.
Definition S_IFREG : Z := 0x8000.
Definition S_IFLNK : Z := 0xa000.

(** ** What openkal says of a node *)

Inductive node_kind := kal_node_absent | kal_node_file | kal_node_directory | kal_node_link | kal_node_other.

#[export] Instance node_kind_eq_dec : EqDecision node_kind.
Proof. solve_decision. Defined.

(** [ni_executable] and [ni_identity] are there where the position of the answer is
    set. *)
Record node_info := Info {
  ni_kind : node_kind;
  ni_size : Z;
  ni_writable : bool;
  ni_executable : option bool;
  ni_modified_ns : Z;
  ni_identity : option (Z * Z);
}.

Record kstat := Kstat {
  st_dev : Z; st_ino : Z; st_mode : Z; st_nlink : Z; st_uid : Z; st_gid : Z; st_rdev : Z;
  st_size : Z; st_blksize : Z; st_blocks : Z;
  st_mtime_sec : Z; st_mtime_nsec : Z;
}.

Definition null_kstat : kstat := Kstat 0 0 (Z.lor S_IFCHR 0x1b6) 1 0 0 (Z.lor (Z.shiftl 1 8) 3) 0 OKM_PAGE 0 0 0.

(** The access and the change time are the modification's. *)
Definition fill_kstat (i : node_info) : kstat :=
  let mode := match ni_kind i with
    | kal_node_file => S_IFREG
    | kal_node_directory => S_IFDIR
    | kal_node_link => S_IFLNK
    | _ => S_IFCHR
    end in
  let mode := Z.lor mode 0x124 in
  let mode := if ni_writable i then Z.lor mode 0x92 else mode in
  let mode := if bool_decide (ni_kind i = kal_node_directory) then Z.lor mode 0x49
              else if default false (ni_executable i) then Z.lor mode 0x49 else mode in
  Kstat (match ni_identity i with Some (a, _) => a | None => 0 end) (match ni_identity i with Some (_, b) => b | None => 0 end)
    mode 1 1000 1000 0 (sext64 (ni_size i)) OKM_PAGE (wrap64 (ni_size i + 511) / 512)
    (ni_modified_ns i / 1000000000) (ni_modified_ns i mod 1000000000).

Definition with_mode (st : kstat) (m : Z) : kstat :=
  Kstat (st_dev st) (st_ino st) m (st_nlink st) (st_uid st) (st_gid st) (st_rdev st) (st_size st) (st_blksize st) (st_blocks st) (st_mtime_sec st) (st_mtime_nsec st).

(** What is said where nothing is asked: a kind, and that it may be written. *)
Definition plain_info (k : node_kind) : node_info := Info k 0 true None 0 None.

Section nodes.
(** What the environment answers in a call: of a name, itself or what it refers to; of an
    open file; of a directory by its own name; and whether a stream is interactive. *)
Context (fs_info : Z -> str -> bool -> kal_error + node_info).
Context (fs_file_info : Z -> kal_error + node_info).
Context (interactive : Z -> bool).
Context (t : fd_table) (g : names).

Definition do_fstat (fd : Z) : Z + kstat :=
  match desc_at t fd with
  | None => inl (- EBADF)
  | Some d =>
      match d_kind d with
      | OKM_NULL => inr null_kstat
      | OKM_FILE => match fs_file_info (d_file d) with inl e => inl (- okm_errno e) | inr i => inr (fill_kstat i) end
      | OKM_DIR =>
          match fs_info (d_dir d) [dot] false with
          | inr i => inr (fill_kstat (if bool_decide (ni_kind i = kal_node_directory) then i else plain_info kal_node_directory))
          | inl _ => inr (fill_kstat (plain_info kal_node_directory))
          end
      | OKM_STREAM => inr (with_mode (fill_kstat (plain_info kal_node_other)) (if interactive (d_stream d) then Z.lor S_IFCHR 0x190 else Z.lor S_IFIFO 0x180))
      | OKM_CHANNEL => inr (with_mode (fill_kstat (plain_info kal_node_other)) (Z.lor S_IFIFO 0x180))
      | _ => inr (fill_kstat (plain_info kal_node_other))
      end
  end.

Definition do_fstatat (dirfd : Z) (path : str) (flag : Z) : Z + kstat :=
  if has flag AT_EMPTY_PATH && (len path =? 0) then do_fstat dirfd
  else if okm_null_name t g dirfd path then inr null_kstat
  else match okm_resolve t g dirfd path false with
  | inl r => inl r
  | inr a =>
      match fs_info (at_base a) (at_rel a) (has flag AT_SYMLINK_NOFOLLOW) with
      | inl e => inl (- okm_errno e)
      | inr i => if bool_decide (ni_kind i = kal_node_absent) then inl (- ENOENT) else inr (fill_kstat i)
      end
  end.

(** [link] is kal_fs_link_read's answer, the length of the content and the content; [cap]
    the caller's room. *)
Definition do_readlink (dirfd : Z) (path : str) (cap : Z) (link : kal_error + str) : Z * str :=
  if okm_null_name t g dirfd path then (- EINVAL, [])
  else match okm_resolve t g dirfd path false with
  | inl r => (r, [])
  | inr a =>
      match fs_info (at_base a) (at_rel a) true with
      | inl e => (- okm_errno e, [])
      | inr i =>
          if bool_decide (ni_kind i = kal_node_absent) then (- ENOENT, [])
          else if negb (bool_decide (ni_kind i = kal_node_link)) then (- EINVAL, [])
          else match link with
          | inl e => (- okm_errno e, [])
          | inr s => (if len s <? cap then len s else cap, take (Z.to_nat cap) s)
          end
      end
  end.

(** The answer, and what the environment is asked to make, its answer being [e]. *)
Definition do_symlink (target : option str) (dirfd : Z) (path : option str) (e : kal_error) : Z * option (okm_at * str) :=
  match target, path with
  | Some target, Some path =>
      match okm_resolve t g dirfd path false with
      | inl r => (r, None)
      | inr a => (if bool_decide (e = kal_ok) then 0 else - okm_errno e, Some (a, target))
      end
  | _, _ => (- EFAULT, None)
  end.

(** ** chmod *)

(** The permissions fill_kstat reports. *)
Definition current_mode (i : node_info) : Z :=
  let c := 0x124 in
  let c := if ni_writable i then Z.lor c 0x92 else c in
  if bool_decide (ni_kind i = kal_node_directory) then Z.lor c 0x49 else if default false (ni_executable i) then Z.lor c 0x49 else c.

(** The answer, and what the environment is asked to set a node's property to, if it is
    asked; its answer is [e]. *)
Definition do_chmod (dirfd : Z) (path : str) (mode : Z) (e : kal_error) : Z * option (okm_at * bool) :=
  match okm_resolve t g dirfd path false with
  | inl r => (r, None)
  | inr a =>
      match fs_info (at_base a) (at_rel a) false with
      | inl qe => (- okm_errno qe, None)
      | inr i =>
          if bool_decide (ni_kind i = kal_node_absent) then (- ENOENT, None)
          else
            let current := current_mode i in
            let requested := Z.land mode 0xfff in
            if requested =? current then (0, None)
            else if bool_decide (ni_kind i = kal_node_directory) then (- ENOSYS, None)
            else
              let none := Z.land current (Z.lnot 0x49) in
              let full := Z.lor none (Z.shiftr (Z.land current 0x124) 2) in
              let set x := (if bool_decide (e = kal_ok) then 0 else - okm_errno e, Some (a, x)) in
              if requested =? none then set false
              else if requested =? full then set true
              else (- ENOSYS, None)
      end
  end.
End nodes.

(** ** open *)

Section openat.
Context (me : Z) (g : names).
(** What the environment answers: of the name itself; to an open of a file and of a
    directory; the stream of a file; and malloc's answer for a long name. *)
Context (fs_info : Z -> str -> bool -> kal_error + node_info).
Context (fs_open : Z -> str -> kal_open -> kal_error + Z) (fs_open_dir : Z -> str -> kal_error + Z).
Context (fs_stream : Z -> Z) (alloc : bool).

(** A descriptor for what was opened. *)
Definition open_fd (kind : okm_kind) (stream file dir flags : Z) : M fd_table Z :=
  t ← gets id;
  let fd := okm_fd_alloc t 0 in
  if fd <? 0 then mret fd else okm_fd_bind true me fd kind stream file dir flags.

(** A descriptor for the directory [d] that was opened: the answer, what was opened, and
    what is closed again. *)
Definition opened_dir (t : fd_table) (dirfd : Z) (path : str) (flags d : Z) : M fd_table (Z * list resource * list resource) :=
  let abs := okm_absolute t g dirfd path OKM_MAX_PATH in
  fd ← open_fd OKM_DIR 0 0 d flags;
  match abs with
  | inr abs => when (0 <=? fd) (okm_dir_remember fd abs alloc)
  | inl _ => mret ()
  end;;
  mret (fd, [R_dir d], if fd <? 0 then [R_dir d] else []).

(** The answer, what the environment opened, and what it was asked to close. *)
Definition do_openat (dirfd : Z) (path : str) (flags : Z) : M fd_table (Z * list resource * list resource) :=
  t ← gets id;
  if okm_null_name t g dirfd path then
    if has flags O_DIRECTORY then mret (- ENOTDIR, [], [])
    else if Z.land flags (Z.lor O_CREAT O_EXCL) =? Z.lor O_CREAT O_EXCL then mret (- EEXIST, [], [])
    else fd ← open_fd OKM_NULL 0 0 0 flags; mret (fd, [], [])
  else match okm_resolve t g dirfd path false with
  | inl r => mret (r, [], [])
  | inr a =>
      let link := match fs_info (at_base a) (at_rel a) true with inr i => bool_decide (ni_kind i = kal_node_link) | inl _ => false end in
      if has flags O_NOFOLLOW && link then mret (- ELOOP, [], [])
      else
        if has flags O_DIRECTORY then
          match fs_open_dir (at_base a) (at_rel a) with inl e => mret (- okm_errno e, [], []) | inr d => opened_dir t dirfd path flags d end
        else match fs_open (at_base a) (at_rel a) (okm_open_flags flags) with
        | inr f =>
            fd ← open_fd OKM_FILE (fs_stream f) f 0 flags;
            mret (fd, [R_file f], if fd <? 0 then [R_file f] else [])
        | inl e =>
            if bool_decide (e = kal_err_is_directory) then
              match fs_open_dir (at_base a) (at_rel a) with inl e => mret (- okm_errno e, [], []) | inr d => opened_dir t dirfd path flags d end
            else mret (- okm_errno e, [], [])
        end
  end.
End openat.
