(* ===== verification/NodesTheorems.v ===== *)
(** What opening a name and changing its mode promise. *)
From S2P Require Import Prelude Kal FdTable FdTableOk FdTheorems Names NamesOk Nodes.
From stdpp Require Import base list option.
From Stdlib Require Import ZArith Lia.

#[local] Open Scope Z_scope.

(** ** Modes *)

(** A node with its property set, as an environment that sets it then reports it. *)
Definition with_executable (i : node_info) (x : bool) : node_info := Info (ni_kind i) (ni_size i) (ni_writable i) (Some x) (ni_modified_ns i) (ni_identity i).

Lemma mode_bits i : Z.land (st_mode (fill_kstat i)) 0xfff = current_mode i.
Proof. unfold fill_kstat, current_mode. cbn [st_mode]. destruct (ni_kind i), (ni_writable i), (default false (ni_executable i)); reflexivity. Qed.

(** The modes there are. *)
Lemma current_modes i : current_mode i ∈ [0x124; 0x1b6; 0x16d; 0x1ff].
Proof. unfold current_mode. apply list_elem_of_In. destruct (ni_writable i), (bool_decide _), (default false (ni_executable i)); cbn; tauto. Qed.

(** What a node can be made to report: its mode, and of one that is not a directory the
    mode with the property set and without. *)
Definition reachable_mode (i : node_info) (m : Z) : Prop :=
  m = current_mode i \/ ni_kind i <> kal_node_directory /\ exists x, m = current_mode (with_executable i x).

Lemma chmod_shapes i : ni_kind i <> kal_node_directory ->
  current_mode (with_executable i false) = Z.land (current_mode i) (Z.lnot 0x49) /\
  current_mode (with_executable i true) = Z.lor (Z.land (current_mode i) (Z.lnot 0x49)) (Z.shiftr (Z.land (current_mode i) 0x124) 2).
Proof.
  intros Hk. unfold current_mode, with_executable. cbn [ni_kind ni_writable ni_executable default from_option id]. rewrite bool_decide_false by done.
  destruct (ni_writable i), (ni_executable i) as [[]|]; done.
Qed.

(** chmod says it did a thing only where stat then says so. Of a name that resolves
    to a node: the request is refused without the environment being asked exactly
    where no state of the node reports that mode; it answers zero only where the
    node, as the environment set it where it was asked, reports exactly the mode
    requested; where it answers an error after asking, it is the environment's. *)
Theorem chmod_honest fs_info t g dirfd path mode e a i :
  okm_resolve t g dirfd path false = inr a -> fs_info (at_base a) (at_rel a) false = inr i -> ni_kind i <> kal_node_absent ->
  let m := Z.land mode 0xfff in
  (forall r q, do_chmod fs_info t g dirfd path mode e = (r, q) ->
    (reachable_mode i m \/ r = - ENOSYS /\ q = None) /\
    (reachable_mode i m -> q = None -> r = 0) /\
    match q with
    | None => r = 0 -> Z.land (st_mode (fill_kstat i)) 0xfff = m
    | Some (a', x) => a' = a /\ (r = 0 <-> e = kal_ok) /\ Z.land (st_mode (fill_kstat (with_executable i x))) 0xfff = m
    end).
Proof.
  intros Ha Hi Hk m r q. unfold do_chmod. rewrite Ha, Hi, bool_decide_false by done. fold m. cbv zeta. rewrite !mode_bits.
  destruct (m =? current_mode i) eqn:Em; boolean.
  { intros [= <- <-]. split; [by left; left|]. split; [done|]. done. }
  destruct (bool_decide (ni_kind i = kal_node_directory)) eqn:Ed.
  { apply bool_decide_eq_true in Ed. intros [= <- <-]. split_and!; [by right| |done]. intros [?|[? _]]; done. }
  apply bool_decide_eq_false in Ed. destruct (chmod_shapes i Ed) as [Hnone Hfull]. rewrite <-Hfull, <-Hnone.
  assert ((if bool_decide (e = kal_ok) then 0 else - okm_errno e) = 0 <-> e = kal_ok) as He.
  { case_bool_decide as Hb; [done|]. pose proof (okm_errno_ok e). split; [|done]. intros Hz. apply H. lia. }
  destruct (m =? current_mode (with_executable i false)) eqn:E0; boolean.
  { intros [= <- <-]. split_and!; try done; [left; right; eauto|]. by rewrite mode_bits. }
  destruct (m =? current_mode (with_executable i true)) eqn:E1; boolean.
  { intros [= <- <-]. split_and!; try done; [left; right; eauto|]. by rewrite mode_bits. }
  intros [= <- <-]. split_and!; [by right| |done]. intros [?|[_ [[] ?]]]; done.
Qed.

(** A file that is not executable, and chmod a+x of it. *)
Definition plain_file : node_info := Info kal_node_file 3 true (Some false) 0 None.

Definition at_root : names := Names [Preopen 4 [47]] 4 [47].

Lemma chmod_honest_witness : exists q, do_chmod (fun _ _ _ => inr plain_file) started at_root AT_FDCWD [47; 97] 0x1ff kal_ok = (0, q) /\
  match q with None => False | Some (_, x) => Z.land (st_mode (fill_kstat (with_executable plain_file x))) 0xfff = 0x1ff end.
Proof.
  destruct (do_chmod (fun _ _ _ => inr plain_file) started at_root AT_FDCWD [47; 97] 0x1ff kal_ok) as [r q] eqn:E.
  destruct (chmod_honest (fun _ _ _ => inr plain_file) started at_root AT_FDCWD [47; 97] 0x1ff kal_ok (At 4 [97]) plain_file eq_refl eq_refl ltac:(discriminate) r q E) as (_ & H0 & H).
  vm_compute in E. injection E as <- <-. eexists. split; [reflexivity|]. exact (proj2 (proj2 H)).
Defined.

(** ** Opening *)

(** The descriptor [fd] is the lowest that was free and now names a description of its
    own that holds [r] and has the flags, and is marked as they say; the other descriptors are as they were. *)
Record opened_as (t t' : fd_table) (fd : Z) (kind : okm_kind) (r : list resource) (flags : Z) : Prop := {
  oa_lowest : 0 <= fd < OKM_MAX_FD /\ okm_desc_of t fd = None /\ forall j, 0 <= j < fd -> okm_desc_of t j <> None;
  oa_desc : exists i p, okm_desc_of t' fd = Some i /\ at_ (g_desc t') i = Some p /\ d_kind p = kind /\ owned p = r /\ d_flags p = flags /\ (forall j, j <> fd -> okm_desc_of t' j <> Some i);
  oa_mark : snd <$> at_ (g_fd t') fd = Some (if has flags O_CLOEXEC then 1 else 0);
  oa_others : others_kept fd t t';
  oa_held : held t' ≡ₚ r ++ held t;
}.

(** An error, of those musl tells from a value. *)
Definition errno_answer (r : Z) : Prop := -4096 < r < 0.

Lemma alloc_errno t m : okm_fd_alloc t m < 0 -> errno_answer (okm_fd_alloc t m).
Proof.
  unfold okm_fd_alloc. destruct (scan_from _ _ _) as [i|] eqn:E; [|done]. apply scan_from_some in E as ([Hi _] & _). intros Hlt. exfalso. destruct (m <? 0) eqn:Em; boolean; lia.
Qed.

Section opening.
Context (me : Z).

Lemma alloc_lowest t : table_ok t -> 0 <= okm_fd_alloc t 0 ->
  okm_fd_alloc t 0 < OKM_MAX_FD /\ okm_desc_of t (okm_fd_alloc t 0) = None /\ forall j, 0 <= j < okm_fd_alloc t 0 -> okm_desc_of t j <> None.
Proof using.
intros Ht. pose proof Ht as [Hc _ _]. pose proof (ct_fds _ _ _ Hc) as Hl. change (okm_fd_alloc t 0) with (match scan_from (fun e => e.1 =? OKM_FD_FREE) (g_fd t) 0 with Some i => i | None => - EMFILE end).
destruct (scan_from _ _ _) as [i|] eqn:Es; [|unfold EMFILE; lia]. intros Hi. apply scan_from_some in Es as (Hr & (e & He & Hf) & Hbefore). rewrite Z.sub_0_r in He.
assert (forall j x, 0 <= j < OKM_MAX_FD -> at_ (g_fd t) j = Some x -> okm_desc_of t j = if x.1 <? 0 then None else Some x.1) as Hof.
{ intros j x Hj Hx. unfold okm_desc_of. replace ((j <? 0) || (OKM_MAX_FD <=? j)) with false by lia. rewrite Hx. done. }
split; [lia|]. split; [rewrite (Hof i e) by (done || lia); by replace (e.1 <? 0) with true by (unfold OKM_FD_FREE in *; lia)|].
intros j Hj. destruct (fd_entry t Ht j ltac:(lia)) as (x & Hx & Hxr). rewrite (Hof j x) by (done || lia). specialize (Hbefore j x). rewrite Z.sub_0_r in Hbefore.
destruct (x.1 <? 0) eqn:E; [|done]. boolean. exfalso. assert (x.1 = -1) by lia. specialize (Hbefore ltac:(lia) Hx). unfold OKM_FD_FREE in Hbefore. lia.
Qed.

(** A descriptor for what was opened: the lowest that is free. *)
Lemma open_fd_at t kind stream file dir flags : table_ok t ->
  exists t', open_fd me kind stream file dir flags t = Some (okm_fd_alloc t 0, t') /\ table_ok t' /\
    (errno_answer (okm_fd_alloc t 0) /\ t' = t \/ 0 <= okm_fd_alloc t 0 /\ opened_as t t' (okm_fd_alloc t 0) kind (owned (bound kind stream file dir flags 0 [] 0)) flags /\
       forall i p, okm_desc_of t' (okm_fd_alloc t 0) = Some i -> at_ (g_desc t') i = Some p -> d_dir p = dir).
Proof using.
intros Ht. unfold open_fd, mbind, M_bind, gets. change (id t) with t. set (fd := okm_fd_alloc t 0). destruct (fd <? 0) eqn:E; boolean.
{ exists t. split_and!; [done|done|]. left. split; [by apply alloc_errno|done]. }
destruct (alloc_lowest t Ht E) as (Hlt & Hno & Hlow). fold fd in Hlt, Hno, Hlow. assert (room t) as Hroom by (eapply free_fd_room; [done| |exact Hno]; lia).
destruct (fd_bind_ok me t fd kind stream file dir flags Ht ltac:(lia) Hroom) as (t' & d & pk & pn & ab & E1 & Ht' & Hh & _ & Hof & Hp & Hmk & Hnew & Hothers & _). rewrite E1.
exists t'. split; [done|]. split; [done|]. right. split; [done|]. split; [constructor; auto; [|by rewrite Hmk]|].
- exists d, (bound kind stream file dir flags pk pn ab). split_and!; try done. intros j Hj Hje. destruct (Hothers j Hj) as [Hoj _]. rewrite Hoj in Hje. by destruct (Hnew j).
- intros i p Hi Hip. rewrite Hof in Hi. injection Hi as <-. rewrite Hp in Hip. by injection Hip as <-.
Qed.

Lemma open_fd_ok t kind stream file dir flags : table_ok t ->
  exists fd t', open_fd me kind stream file dir flags t = Some (fd, t') /\ table_ok t' /\
    (errno_answer fd /\ t' = t \/ 0 <= fd /\ opened_as t t' fd kind (owned (bound kind stream file dir flags 0 [] 0)) flags /\ forall i p, okm_desc_of t' fd = Some i -> at_ (g_desc t') i = Some p -> d_dir p = dir).
Proof using. intros Ht. destruct (open_fd_at t kind stream file dir flags Ht) as (t' & E & H). eauto. Qed.

(** And its name. *)
Lemma opened_remember t t1 fd r flags abs alloc : table_ok t1 -> opened_as t t1 fd OKM_DIR r flags ->
  exists t', okm_dir_remember fd abs alloc t1 = Some ((), t') /\ table_ok t' /\ opened_as t t' fd OKM_DIR r flags.
Proof using me.
intros Ht1 [Hlow (i & p & Hof & Hp & Hk & Ho & Hfl & Hnew) Hmark Hoth Hheld]. destruct (remember_ok me t1 fd abs alloc i p Ht1 Hof Hp Hk) as (s & t' & E & (Ht' & Hh' & _) & Hf & _ & Hd & _).
exists t'. split; [done|]. split; [done|]. pose proof (at_range _ _ _ Hp) as Hr. assert (forall j, okm_desc_of t' j = okm_desc_of t1 j) as Hsame by (intros j; unfold okm_desc_of; by rewrite Hf).
constructor; auto; [|by rewrite Hf| |by rewrite Hh'].
- exists i, (with_path_slot p s). rewrite Hsame, Hd, at_insert, Z.eqb_refl by done. split_and!; auto. intros j Hj. rewrite Hsame. auto.
- intros j Hj. destruct (Hoth j Hj) as [Hoj Hvj]. rewrite Hsame. split; [done|]. rewrite <-Hvj. unfold view. rewrite Hsame. destruct (okm_desc_of t1 j) as [d'|] eqn:Ej; [|done]. cbn [mbind option_bind].
  rewrite Hd, at_insert by done. destruct (d' =? i) eqn:Ed; boolean; [|done]. subst d'. by destruct (Hnew j Hj).
Qed.
End opening.

(** A name that does not resolve is an error. *)
Lemma join_errno prefix rel cap e : Names.join prefix rel cap = inl e -> errno_answer e.
Proof.
  unfold Names.join. repeat (match goal with |- context [if ?b then _ else _] => destruct b end); try (by intros [= <-]);
    try (destruct (normalise _ _) as [e'|s'] eqn:En; [|done]; apply normalise_error in En; intros [= <-]; by rewrite En).
Qed.

Lemma resolve_errno t g dirfd path b e : okm_resolve t g dirfd path b = inl e -> errno_answer e.
Proof.
  assert (forall abs, resolve_abs g abs = inl e -> errno_answer e) as Hr. { intros abs. unfold resolve_abs. destruct (longest _ _ _); [done|]. by intros [= <-]. }
  assert (forall prefix rel, match Names.join prefix rel OKM_MAX_PATH with inl e => inl e | inr abs => resolve_abs g abs end = inl e -> errno_answer e) as Hj.
  { intros prefix rel. destruct (Names.join prefix rel OKM_MAX_PATH) as [e'|abs] eqn:E; [|apply Hr]. intros [= ->]. by eapply join_errno. }
  unfold okm_resolve. split_if; [by intros [= <-]|]. split_if; [apply Hr|]. split_if; [apply Hj|]. split_if; [apply Hj|].
  destruct (_ ≫= _) as [d|]; [|by intros [= <-]]. split_if; [by intros [= <-]|]. destruct (dir_name t d); [apply Hj|].
  destruct (normalise path OKM_MAX_PATH) as [e'|norm] eqn:En; [apply normalise_error in En; intros [= <-]; by rewrite En|]. split_if; [by intros [= <-]|done].
Qed.

Lemma resolve_error t g dirfd path b e : okm_resolve t g dirfd path b = inl e -> e < 0.
Proof. intros []%resolve_errno. done. Qed.

(** What a call of open may come to. *)
Definition openat_ok (t : fd_table) (flags : Z) (o : option (Z * list resource * list resource * fd_table)) : Prop :=
  exists fd opened closed_ t', o = Some ((fd, opened, closed_), t') /\ table_ok t' /\
    (errno_answer fd /\ t' = t /\ closed_ = opened \/ 0 <= fd /\ closed_ = [] /\ exists kind, opened_as t t' fd kind opened flags).

Lemma openat_error t flags r : table_ok t -> errno_answer r -> openat_ok t flags (Some ((r, [], []), t)).
Proof. intros Ht Hr. exists r, [], [], t. split_and!; auto. Qed.

Lemma errno_errno e : e <> kal_ok -> errno_answer (- okm_errno e).
Proof. intros He%errno_pos. pose proof (okm_errno_range e). unfold errno_answer. lia. Qed.

Lemma errno_negative e : e <> kal_ok -> - okm_errno e < 0.
Proof. intros He%errno_pos. lia. Qed.

Lemma openat_whole me g fs_info fs_open fs_open_dir fs_stream alloc dirfd path flags t :
  table_ok t -> (forall b r, fs_open_dir b r <> inl kal_ok) -> (forall b r f, fs_open b r f <> inl kal_ok) ->
  openat_ok t flags (do_openat me g fs_info fs_open fs_open_dir fs_stream alloc dirfd path flags t).
Proof.
  intros Ht Hdir Hopen. unfold do_openat, mbind at 1, M_bind at 1, gets. change (id t) with t. destruct (okm_null_name t g dirfd path).
  { split_if; [by apply openat_error|]. split_if; [by apply openat_error|]. unfold mbind, M_bind.
    destruct (open_fd_ok me t OKM_NULL 0 0 0 flags Ht) as (fd & t' & -> & Ht' & H). exists fd, [], [], t'. split; [done|]. split; [done|]. destruct H as [[? ->]|(? & ? & _)]; [by left|right; eauto]. }
  destruct (okm_resolve t g dirfd path false) as [r|a] eqn:Er; [apply openat_error; [done|by eapply resolve_errno]|]. cbv zeta. split_if; [by apply openat_error|].
  set (dir := opened_dir me g alloc t dirfd path flags).
  assert (forall d, openat_ok t flags (dir d t)) as Hd.
  { intros d. unfold dir, opened_dir, mbind, M_bind. destruct (open_fd_ok me t OKM_DIR 0 0 d flags Ht) as (fd & t1 & -> & Ht1 & H).
    assert (forall t', table_ok t' -> errno_answer fd /\ t' = t \/ 0 <= fd /\ opened_as t t' fd OKM_DIR [R_dir d] flags -> openat_ok t flags (Some ((fd, [R_dir d], if fd <? 0 then [R_dir d] else []), t'))) as Hret.
    { intros t' Ht' H'. do 4 eexists. split; [reflexivity|]. split; [done|]. destruct H' as [[Hfd ->]|[Hfd Hoa]]; [left|right]; split_if; unfold errno_answer in *; try lia; split_and!; eauto; lia. }
    assert (errno_answer fd /\ t1 = t \/ 0 <= fd /\ opened_as t t1 fd OKM_DIR [R_dir d] flags) as H1 by (destruct H as [?|(? & ? & _)]; auto).
    destruct (okm_absolute t g dirfd path OKM_MAX_PATH) as [e|abs]; [by apply Hret|]. unfold when. destruct (0 <=? fd) eqn:Efd; boolean; [|by apply Hret].
    destruct H1 as [[[??] _]|[_ Hoa]]; [lia|]. destruct (opened_remember me t t1 fd [R_dir d] flags abs alloc Ht1 Hoa) as (t' & -> & Ht' & Hoa'). apply Hret; auto. }
  assert (openat_ok t flags ((match fs_open_dir (at_base a) (at_rel a) with inl e => mret (- okm_errno e, [], []) | inr d => dir d end) t)) as Hod.
  { destruct (fs_open_dir (at_base a) (at_rel a)) as [e|d] eqn:E; [|apply Hd]. apply openat_error; [done|]. apply errno_errno. intros ->. by eapply Hdir. }
  split_if; [done|]. destruct (fs_open (at_base a) (at_rel a) (okm_open_flags flags)) as [e|f] eqn:E.
  - case_bool_decide; [done|]. apply openat_error; [done|]. apply errno_errno. intros ->. by eapply Hopen.
  - unfold mbind, M_bind. destruct (open_fd_ok me t OKM_FILE (fs_stream f) f 0 flags Ht) as (fd & t' & -> & Ht' & H). do 4 eexists. split; [reflexivity|]. split; [done|].
    destruct H as [[Hfd ->]|(Hfd & Hoa & _)]; [left|right]; split_if; unfold errno_answer in *; try lia; split_and!; eauto; lia.
Qed.

(** C8. open: whatever the name, the flags and the environment's answers, it returns
    with the table whole, and what the environment opened is held by the descriptor
    answered or was given back. An error is one musl tells from a value, and leaves the table as it was and nothing open;
    a descriptor is the lowest that was free, names a description of its own with the
    flags that were asked for, holding exactly what was opened, and the other
    descriptors are as they were. *)
Theorem openat_exact me g fs_info fs_open fs_open_dir fs_stream alloc dirfd path flags t :
  table_ok t -> (forall b r, fs_open_dir b r <> inl kal_ok) -> (forall b r f, fs_open b r f <> inl kal_ok) ->
  exists fd opened closed_ t', do_openat me g fs_info fs_open fs_open_dir fs_stream alloc dirfd path flags t = Some ((fd, opened, closed_), t') /\ table_ok t' /\
    (errno_answer fd /\ t' = t /\ closed_ = opened \/
     0 <= fd /\ closed_ = [] /\ exists kind, opened_as t t' fd kind opened flags).
Proof. intros Ht Hdir Hopen. by apply openat_whole. Qed.

Lemma openat_exact_witness : exists fd opened closed_ t',
  do_openat 1 at_root (fun _ _ _ => inr plain_file) (fun _ _ _ => inr 6) (fun _ _ => inl kal_err_not_directory) id true AT_FDCWD [47; 97] O_RDWR started = Some ((fd, opened, closed_), t') /\
  table_ok t' /\ (errno_answer fd /\ t' = started /\ closed_ = opened \/ 0 <= fd /\ closed_ = [] /\ exists kind, opened_as started t' fd kind opened O_RDWR).
Proof. apply (openat_exact 1 at_root (fun _ _ _ => inr plain_file) (fun _ _ _ => inr 6) (fun _ _ => inl kal_err_not_directory) id true AT_FDCWD [47; 97] O_RDWR started started_ok); intros; discriminate. Defined.
