(* ===== verification/Children.v ===== *)
(** The programs this one started: the table of children, do_wait4 and what children used
    (port/src/okm_syscall.c), fork (port/src/okm_fork.c), and what posix_spawn records of
    a program it has started (port/src/okm_spawn.c). *)
From S2P Require Import Prelude Kal Net.
From stdpp Require Import base list option.
From Stdlib Require Import ZArith Lia.

#[local] Open Scope Z_scope.

Definition ECHILD : Z := 10.
Definition WNOHANG : Z := 1.
Definition RUSAGE_SELF : Z := 0.
Definition RUSAGE_CHILDREN : Z := -1.
Definition INT_MAX : Z := 2 ^ 31 - 1.

Definition OKM_MAX_CHILD : Z := 256.

(** An entry: [c_h] is openkal's handle of the program, [c_job] of the unit it formed. *)
Record child := Child { c_used : bool; c_pid : Z; c_h : Z; c_job : Z; c_has_job : bool }.

Definition child_zero : child := Child false 0 0 0 false.

(** [p_closed]: the handles given back. *)
Record procs := Procs {
  g_child : list child;
  g_next_pid : Z;
  g_children_cpu_ns : Z;
  g_children_peak : Z;
  p_closed : list Z;
}.

Definition procs_zero : procs := Procs (replicate (Z.to_nat OKM_MAX_CHILD) child_zero) 1000 0 0 [].

Definition get_child (i : Z) : M procs child := try (fun p => at_ (g_child p) i).
Definition put_child (i : Z) (c : child) : M procs () :=
  put_try (fun p => (fun l => Procs l (g_next_pid p) (g_children_cpu_ns p) (g_children_peak p) (p_closed p)) <$> set_at (g_child p) i c).

(** ** The table *)

(** The entry, and the identifier settled: an int, incremented as the machine does. *)
Definition child_reserve : M procs (Z * Z) :=
  p ← gets id;
  match scan_from (fun c => negb (c_used c)) (g_child p) 0 with
  | Some i =>
      let pid := sext32 (g_next_pid p + 1) in
      modify (fun p => Procs (g_child p) pid (g_children_cpu_ns p) (g_children_peak p) (p_closed p));;
      put_child i (Child true pid 0 0 false);;
      mret (i, pid)
  | None => mret (-1, 0)
  end.

Definition in_table (slot : Z) : bool := (0 <=? slot) && (slot <? OKM_MAX_CHILD).

(** [id]: the identifier kal_process_info answers, if it does. *)
Definition child_commit (slot h : Z) (id : option Z) : M procs Z :=
  if negb (in_table slot) then mret (-1)
  else
    c ← get_child slot;
    let pid := match id with Some n => if (0 <? n) && (n <=? INT_MAX) then n else c_pid c | None => c_pid c end in
    put_child slot (Child (c_used c) pid h (c_job c) (c_has_job c));;
    mret pid.

Definition child_job (slot j : Z) : M procs () :=
  if in_table slot && negb (j =? 0) then c ← get_child slot; put_child slot (Child (c_used c) (c_pid c) (c_h c) j true)
  else mret ().

Definition child_release (slot : Z) : M procs () :=
  if in_table slot then c ← get_child slot; put_child slot (Child false (c_pid c) (c_h c) (c_job c) (c_has_job c))
  else mret ().

Definition child_record_job (h j : Z) (id : option Z) : M procs Z :=
  s ← child_reserve;
  if s.1 <? 0 then mret (- EAGAIN)
  else
    pid ← child_commit s.1 h id;
    child_job s.1 j;;
    mret pid.

Definition forget_children : M procs () :=
  modify (fun p => Procs ((fun c => Child false (c_pid c) (c_h c) (c_job c) (c_has_job c)) <$> g_child p) (g_next_pid p) (g_children_cpu_ns p) (g_children_peak p) (p_closed p)).

Definition child_index (p : procs) (pid : Z) : Z := default (-1) (scan_from (fun c => c_used c && (c_pid c =? pid)) (g_child p) 0).
Definition job_index (p : procs) (pid : Z) : Z := default (-1) (scan_from (fun c => c_has_job c && (c_pid c =? pid)) (g_child p) 0).

(** ** Starting a program *)

Definition okm_process_close (h : Z) : M procs () :=
  modify (fun p => Procs (g_child p) (g_next_pid p) (g_children_cpu_ns p) (g_children_peak p) (h :: p_closed p)).

(** What posix_spawn does once the environment has started the program [h], in the unit
    [unit]: the answer, and the identifier told. *)
Definition spawned (h unit : Z) (id : option Z) : M procs (Z * option Z) :=
  pid ← child_record_job h unit id;
  if pid <? 0 then okm_process_close h;; mret (EAGAIN, None) else mret (0, Some pid).

(** fork, in the parent: [start] is kal_space_start's answer, where there is one. *)
Definition okm_fork (have : bool) (start : kal_error * Z) (id : option Z) : M procs Z :=
  if negb have then mret (- ENOSYS)
  else
    s ← child_reserve;
    if s.1 <? 0 then mret (- EAGAIN)
    else if negb (bool_decide (start.1 = kal_ok)) then child_release s.1;; mret (- okm_errno start.1)
    else pid ← child_commit s.1 start.2 id; mret (if 0 <? pid then pid else s.2).

(** And in the copy, of its copy of the table. *)
Definition okm_fork_copy : M procs Z := forget_children;; mret 0.

(** ** What children used *)

(** The user time in seconds and microseconds, and the peak in units of 1024 bytes. *)
Record rusage := Rusage { ru_sec : Z; ru_usec : Z; ru_maxrss : Z }.

Definition usage_of (cpu_ns peak : Z) : rusage := Rusage (cpu_ns / 1000000000) (cpu_ns mod 1000000000 / 1000) (peak / 1024).

(** What kal_process_info answers of the processor time and the peak memory, each where
    it is there; zero where it is not. *)
Definition usage_answer : Type := option (option Z * option Z).
Definition cpu_of (u : usage_answer) : Z := default 0 (x ← u; x.1).
Definition peak_of (u : usage_answer) : Z := default 0 (x ← u; x.2).

Definition child_usage (u : usage_answer) : M procs rusage :=
  modify (fun p => Procs (g_child p) (g_next_pid p) (wrap64 (g_children_cpu_ns p + cpu_of u)) (Z.max (g_children_peak p) (peak_of u)) (p_closed p));;
  mret (usage_of (cpu_of u) (peak_of u)).

(** [place]: whether the caller gave a place for it; [u]: what is answered of this
    program. *)
Definition do_getrusage (p : procs) (who : Z) (place : bool) (u : usage_answer) : Z + rusage :=
  if negb place then inl (- EFAULT)
  else if who =? RUSAGE_CHILDREN then inr (usage_of (g_children_cpu_ns p) (g_children_peak p))
  else if negb (who =? RUSAGE_SELF) then inl (- EINVAL)
  else inr (usage_of (cpu_of u) (peak_of u)).

(** ** Waiting *)

(** What the environment answers to a wait for a program: an error, the status, and
    whether it was ended by another. *)
Record ended := Ended { w_error : kal_error; w_status : Z; w_terminated : bool }.

(** The first entry in use from [i] on whose wait is answered other than "again". *)
Fixpoint wait_any (answer : Z -> ended) (l : list child) (i : Z) : option Z :=
  match l with
  | [] => None
  | c :: l' =>
      if negb (c_used c) then wait_any answer l' (i + 1)
      else if bool_decide (w_error (answer (c_h c)) = kal_err_again) then wait_any answer l' (i + 1)
      else Some i
  end.

Definition status_word (a : ended) : Z :=
  if w_terminated a then Z.land (w_status a) 0x7f else Z.shiftl (Z.land (w_status a) 0xff) 8.

(** [answer h] is what the environment answers to the wait for [h], bounded or not, and
    [usage h] of what it used; [can_bound] whether there is a bounded one. The answer,
    with the status where there is one. *)
Definition do_wait4 (can_bound : bool) (answer : Z -> ended) (usage : Z -> usage_answer) (pid options : Z) : M procs (Z * option (Z * rusage)) :=
  p ← gets id;
  let i := if 0 <? pid then child_index p pid else default (-1) (scan_from c_used (g_child p) 0) in
  if i <? 0 then mret (- ECHILD, None)
  else
    found ← (if has options WNOHANG then
        if negb can_bound then mret (inl (- ENOSYS))
        else if 0 <? pid then
          c ← get_child i;
          mret (if bool_decide (w_error (answer (c_h c)) = kal_err_again) then inl 0 else inr i)
        else mret (match wait_any answer (g_child p) 0 with Some k => inr k | None => inl 0 end)
      else mret (inr i));
    match found : Z + Z with
    | inl r => mret (r, None)
    | inr i =>
        c ← get_child i;
        let a := answer (c_h c) in
        if negb (bool_decide (w_error a = kal_ok)) then mret (- okm_errno (w_error a), None)
        else
          ru ← child_usage (usage (c_h c));
          okm_process_close (c_h c);;
          put_child i (Child false (c_pid c) (c_h c) (c_job c) (c_has_job c));;
          mret (c_pid c, Some (status_word a, ru))
    end.

(** ** What a caller makes of the status (musl/include/sys/wait.h) *)

Definition WEXITSTATUS (s : Z) : Z := Z.shiftr (Z.land s 0xff00) 8.
Definition WTERMSIG (s : Z) : Z := Z.land s 0x7f.
Definition WIFEXITED (s : Z) : bool := WTERMSIG s =? 0.
Definition WIFSIGNALED (s : Z) : bool := wrap32 (Z.land s 0xffff - 1) <? 0xff.
