(* ===== verification/ChildrenTheorems.v ===== *)
(** Every program started is waited for once: its handle is in the table until then and
    is given back then. *)
From S2P Require Import Prelude Kal FdTableOk Net NetTheorems Children.
From stdpp Require Import base list option relations.
From Stdlib Require Import ZArith Lia.

#[local] Open Scope Z_scope.

(** ** The table *)

Definition live_of (c : child) : list Z := if c_used c then [c_h c] else [].

(** The handles the table holds. *)
Definition live (p : procs) : list Z := flat_map live_of (g_child p).

Definition with_child (p : procs) (i : Z) (c : child) : procs := Procs (<[Z.to_nat i := c]> (g_child p)) (g_next_pid p) (g_children_cpu_ns p) (g_children_peak p) (p_closed p).

(** The programs [started] are those in the table and those given back. *)
Record children_ok (started : list Z) (p : procs) : Prop := {
  ch_length : Z.of_nat (length (g_child p)) = OKM_MAX_CHILD;
  ch_pids : Forall (fun c => c_used c = true -> 0 < c_pid c) (g_child p);
  ch_next : 1000 <= g_next_pid p;
  ch_handles : started ≡ₚ live p ++ p_closed p;
}.

Lemma get_child_eq p i c : at_ (g_child p) i = Some c -> get_child i p = Some (c, p).
Proof. unfold get_child, try. by intros ->. Qed.

Lemma put_child_eq p i c c' : at_ (g_child p) i = Some c -> put_child i c' p = Some ((), with_child p i c').
Proof. intros H%at_range. unfold put_child, put_try. by rewrite set_at_some. Qed.

Lemma at_with_child p i c c' : at_ (g_child p) i = Some c -> at_ (g_child (with_child p i c')) i = Some c'.
Proof. intros H%at_range. cbn [g_child with_child]. rewrite at_insert by done. by rewrite Z.eqb_refl. Qed.

Lemma live_with_child p i c c' : at_ (g_child p) i = Some c -> live (with_child p i c') ++ live_of c ≡ₚ live p ++ live_of c'.
Proof. intros H%at_lookup. by apply flat_map_insert. Qed.

(** An entry changes: what it held is given back or goes on, what it comes to hold was
    started. *)
Lemma children_put st st' p i c c' closed_ : children_ok st p -> at_ (g_child p) i = Some c -> (c_used c' = true -> 0 < c_pid c') ->
  live_of c' ++ closed_ ++ st ≡ₚ live_of c ++ st' ->
  children_ok st' (Procs (g_child (with_child p i c')) (g_next_pid p) (g_children_cpu_ns p) (g_children_peak p) (closed_ ++ p_closed p)).
Proof.
  intros [Hl Hp Hn Hh] Hi Hc' E. constructor; cbn [g_child with_child g_next_pid p_closed]; auto.
  - by rewrite length_insert.
  - by apply Forall_insert.
  - pose proof (live_with_child p i c c' Hi) as El. unfold live in El |- *. cbn [g_child with_child] in El |- *. fold (live p) in El. set (new := flat_map _ _) in *.
    apply (Permutation_app_inv_l (live_of c)). rewrite <-E, Hh. rewrite (Permutation_app_comm closed_). perm.
Qed.

Definition with_counts (p : procs) (next cpu peak : Z) : procs := Procs (g_child p) next cpu peak (p_closed p).

Lemma children_counts st p next cpu peak : children_ok st p -> 1000 <= next -> children_ok st (with_counts p next cpu peak).
Proof. intros [Hl Hp _ Hh] Hn. by constructor. Qed.

(** The identifiers are not used up: the next one is an int. *)
Definition pids_left (p : procs) : Prop := g_next_pid p < INT_MAX.

Lemma next_pid st p : children_ok st p -> pids_left p -> sext32 (g_next_pid p + 1) = g_next_pid p + 1.
Proof. intros [_ _ Hn _] Hl. unfold pids_left, INT_MAX in Hl. unfold sext32. rewrite Z.mod_small; lia. Qed.

(** The lowest entry that is free is taken, or all are used. *)
Lemma reserve_ok st p : children_ok st p -> pids_left p ->
  (child_reserve p = Some ((-1, 0), p) /\ Forall (fun c => c_used c = true) (g_child p)) \/
  exists i c, let pid := g_next_pid p + 1 in 0 <= i < OKM_MAX_CHILD /\ at_ (g_child p) i = Some c /\ c_used c = false /\
    child_reserve p = Some ((i, pid), with_child (with_counts p pid (g_children_cpu_ns p) (g_children_peak p)) i (Child true pid 0 0 false)).
Proof.
  intros Hok Hleft. pose proof Hok as [Hl _ _ _]. pose proof (next_pid st p Hok Hleft) as Hpid. unfold child_reserve, mbind, M_bind, gets. change (id p) with p. destruct (scan_from _ _ _) as [i|] eqn:E.
  - right. apply scan_from_some in E as (Hi & (c & Hc & Hu) & _). rewrite Z.sub_0_r in Hc. boolean. exists i, c. split_and!; auto; [lia|lia|].
    rewrite Hpid. unfold modify. erewrite put_child_eq by exact Hc. done.
  - left. split; [done|]. apply scan_from_none in E. eapply Forall_impl; [exact E|]. intros c. cbn. by destruct (c_used c).
Qed.

Lemma with_child_twice p i c c' : with_child (with_child p i c) i c' = with_child p i c'.
Proof. unfold with_child. cbn [g_child g_next_pid g_children_cpu_ns g_children_peak p_closed]. by rewrite list_insert_insert_eq. Qed.

Lemma in_table_range i : 0 <= i < OKM_MAX_CHILD -> in_table i = true.
Proof. unfold in_table. lia. Qed.

(** ** Starting *)

(** The number a program is told by: the environment's where that is one, else [own]. *)
Definition number_of (id : option Z) (own : Z) : Z := match id with Some n => if (0 <? n) && (n <=? INT_MAX) then n else own | None => own end.

(** An entry is settled in one step. *)
Lemma commit_eq p i c h id : at_ (g_child p) i = Some c -> 0 <= i < OKM_MAX_CHILD -> 0 < c_pid c ->
  exists pid, (0 < pid /\ pid = number_of id (c_pid c)) /\ child_commit i h id p = Some (pid, with_child p i (Child (c_used c) pid h (c_job c) (c_has_job c))).
Proof.
  intros Hc Hi Hp. unfold child_commit. rewrite in_table_range by done. cbn [negb]. unfold mbind, M_bind. rewrite (get_child_eq p i c) by done.
  eexists. erewrite put_child_eq by exact Hc. split; [|done]. split; [|done]. destruct id as [n|]; [|done]. destruct (_ && _) eqn:E; boolean; lia.
Qed.

Lemma job_eq p i c j : at_ (g_child p) i = Some c -> 0 <= i < OKM_MAX_CHILD ->
  exists j' b, child_job i j p = Some ((), with_child p i (Child (c_used c) (c_pid c) (c_h c) j' b)).
Proof.
  intros Hc Hi. unfold child_job. rewrite in_table_range by done. cbn [andb]. destruct (negb (j =? 0)).
  - unfold mbind, M_bind. rewrite (get_child_eq p i c) by done. erewrite put_child_eq by exact Hc. by exists j, true.
  - exists (c_job c), (c_has_job c). unfold mret, M_ret, with_child. destruct c, p; cbn. rewrite list_insert_id; [done|]. by apply at_lookup.
Qed.

(** The table has no entry left. *)
Definition full (p : procs) : Prop := Forall (fun c => c_used c = true) (g_child p).

(** The table records [h] under [pid]. *)
Definition child_of (p : procs) (pid h : Z) : Prop := exists i c, at_ (g_child p) i = Some c /\ c_used c = true /\ c_pid c = pid /\ c_h c = h.

(** And it is all the table came to record. *)
Definition newly (p p' : procs) (pid h : Z) : Prop := child_of p' pid h /\ forall pid' h', child_of p' pid' h' -> child_of p pid' h' \/ pid' = pid /\ h' = h.

Lemma not_full p i c : at_ (g_child p) i = Some c -> c_used c = false -> ~ full p.
Proof. intros Hc%at_lookup Hu Hf. pose proof (Forall_lookup_1 _ _ _ _ Hf Hc) as H. cbn in H. congruence. Qed.

(** A free entry comes to hold [h]. *)
Lemma children_start st p next i c pid h j b : children_ok st p -> at_ (g_child p) i = Some c -> c_used c = false -> 0 < pid -> 1000 <= next ->
  let p' := with_child (with_counts p next (g_children_cpu_ns p) (g_children_peak p)) i (Child true pid h j b) in
  children_ok (h :: st) p' /\ newly p p' pid h.
Proof.
  intros Hok Hc Hu Hp Hn p'. split.
  - apply (children_put st (h :: st) (with_counts p next (g_children_cpu_ns p) (g_children_peak p)) i c (Child true pid h j b) []); [by apply children_counts|done|done|].
    unfold live_of. rewrite Hu. reflexivity.
  - split.
    { exists i, (Child true pid h j b). split; [|done]. by apply (at_with_child (with_counts p next (g_children_cpu_ns p) (g_children_peak p)) i c). }
    intros pid' h' (k & c' & Hk & Hu' & Hp' & Hh'). pose proof (at_range _ _ _ Hc) as Hr. unfold p', with_child in Hk. cbn [g_child with_counts] in Hk. rewrite at_insert in Hk by done.
    destruct (k =? i); [injection Hk as <-; by right|]. left. by exists k, c'.
Qed.

Lemma recorded_ok st p h j id : children_ok st p -> pids_left p ->
  (full p /\ child_record_job h j id p = Some (- EAGAIN, p)) \/
  exists pid p', ~ full p /\ 0 < pid /\ pid = number_of id (g_next_pid p + 1) /\ child_record_job h j id p = Some (pid, p') /\ children_ok (h :: st) p' /\ newly p p' pid h.
Proof.
  intros Hok Hleft. unfold child_record_job. destruct (reserve_ok st p Hok Hleft) as [[E Hf]|(i & c & Hi & Hc & Hu & E)].
  - left. split; [done|]. unfold mbind, M_bind. by rewrite E.
  - right. pose proof (ch_next _ _ Hok) as Hn. set (p1 := with_counts p (g_next_pid p + 1) (g_children_cpu_ns p) (g_children_peak p)) in *.
    assert (Hc1 : forall c', at_ (g_child (with_child p1 i c')) i = Some c') by (intros; by apply (at_with_child p1 i c)).
    destruct (commit_eq (with_child p1 i (Child true (g_next_pid p + 1) 0 0 false)) i _ h id (Hc1 _) Hi ltac:(cbn [c_pid]; lia)) as (pid & [Hp Hid] & E2). rewrite with_child_twice in E2. cbn [c_used c_job c_has_job] in E2.
    destruct (job_eq (with_child p1 i (Child true pid h 0 false)) i _ j (Hc1 _) Hi) as (j' & b & E3). rewrite with_child_twice in E3. cbn [c_used c_pid c_h] in E3.
    exists pid, (with_child p1 i (Child true pid h j' b)). split; [by eapply not_full|]. split; [done|]. split; [done|]. split.
    + unfold mbind, M_bind. rewrite E. cbn [fst]. replace (i <? 0) with false by lia. rewrite E2, E3. done.
    + by apply (children_start st p (g_next_pid p + 1) i c); try lia.
Qed.

(** A program that no entry is left for is given back at once. *)
Lemma spawned_ok st p h unit id : children_ok st p -> pids_left p -> exists r p', spawned h unit id p = Some (r, p') /\ children_ok (h :: st) p' /\
  ((full p /\ r = (EAGAIN, None)) \/ (~ full p /\ exists pid, 0 < pid /\ pid = number_of id (g_next_pid p + 1) /\ r = (0, Some pid) /\ newly p p' pid h)).
Proof.
  intros Hok Hleft. unfold spawned. destruct (recorded_ok st p h unit id Hok Hleft) as [[Hf E]|(pid & p' & Hf & Hp & Hid & E & Hok' & Hc)]; unfold mbind, M_bind; rewrite E.
  - eexists _, _. split; [done|]. split; [|by left]. destruct Hok as [Hl Hpi Hn Hh]. constructor; cbn [g_child g_next_pid p_closed]; auto. unfold live in *. cbn [g_child]. rewrite Hh. apply Permutation_middle.
  - replace (pid <? 0) with false by lia. eexists _, _. split; [done|]. split; [done|]. right. split; [done|]. by exists pid.
Qed.

(** What a fork started, where the environment has it: nothing where it was refused. *)
Definition forked (have : bool) (start : kal_error * Z) (r : Z) : list Z := if have && (0 <? r) then [start.2] else [].

Lemma fork_ok st p have start id : children_ok st p -> pids_left p -> exists r p', okm_fork have start id p = Some (r, p') /\ children_ok (forked have start r ++ st) p' /\
  (r < 0 \/ 0 < r /\ have = true /\ start.1 = kal_ok /\ child_of p' r start.2) /\
  (have = true -> r = - EAGAIN -> full p \/ okm_errno start.1 = EAGAIN).
Proof.
  intros Hok Hleft. unfold okm_fork, forked. destruct have; cbn [negb andb].
  2: { exists (- ENOSYS), p. split_and!; try done. left. unfold ENOSYS. lia. }
  destruct (reserve_ok st p Hok Hleft) as [[E Hf]|(i & c & Hi & Hc & Hu & E)]; unfold mbind, M_bind; rewrite E; cbn [fst].
  { exists (- EAGAIN), p. split_and!; try done; left; [unfold EAGAIN; lia|done]. }
  replace (i <? 0) with false by lia. pose proof (ch_next _ _ Hok) as Hn. set (p1 := with_counts p (g_next_pid p + 1) (g_children_cpu_ns p) (g_children_peak p)) in *.
  assert (Hc1 : forall c', at_ (g_child (with_child p1 i c')) i = Some c') by (intros; by apply (at_with_child p1 i c)).
  destruct (bool_decide_reflect (start.1 = kal_ok)) as [Hs|Hs]; cbn [negb].
  - destruct (commit_eq (with_child p1 i (Child true (g_next_pid p + 1) 0 0 false)) i _ start.2 id (Hc1 _) Hi ltac:(cbn [c_pid]; lia)) as (pid & [Hp _] & E2). rewrite with_child_twice in E2. rewrite E2.
    destruct (children_start st p (g_next_pid p + 1) i c pid start.2 0 false Hok Hc Hu Hp ltac:(lia)) as [Hok' [Hof _]].
    replace (0 <? pid) with true by lia. eexists _, _. split; [done|]. replace (0 <? pid) with true by lia. split; [done|]. split; [by right|]. intros _ ->. unfold EAGAIN in Hp. lia.
  - unfold child_release. rewrite in_table_range by done. unfold mbind, M_bind. erewrite get_child_eq by apply Hc1. erewrite put_child_eq by apply Hc1. rewrite with_child_twice.
    pose proof (errno_pos _ Hs) as Hpos. eexists _, _. split; [done|]. replace (0 <? - okm_errno start.1) with false by lia. split; [|split; [left; lia|right; lia]].
    apply (children_put st st p1 i c _ []); [apply children_counts; [done|lia]|done|done|]. unfold live_of. by rewrite Hu.
Qed.

(** ** Waiting *)

(** The child [c] is one that a wait for [pid] is about. *)
Definition asked_for (pid : Z) (c : child) : Prop := c_used c = true /\ (0 < pid -> c_pid c = pid).

(** What a wait may come to. Its answer, and the state after it: *)
Inductive waited (can_bound : bool) (answer : Z -> ended) (usage : Z -> usage_answer) (pid options : Z) (p : procs) : Z * option (Z * rusage) -> procs -> Prop :=
(** there is no such child; *)
| no_child : (forall i c, at_ (g_child p) i = Some c -> ~ asked_for pid c) -> waited can_bound answer usage pid options p (- ECHILD, None) p
(** the environment has no wait that is bounded; *)
| unbounded : has options WNOHANG = true -> can_bound = false -> waited can_bound answer usage pid options p (- ENOSYS, None) p
(** none has ended, of all of them where none was named; *)
| none_yet : has options WNOHANG = true ->
    (pid <= 0 -> forall i c, at_ (g_child p) i = Some c -> c_used c = true -> w_error (answer (c_h c)) = kal_err_again) ->
    (exists i c, at_ (g_child p) i = Some c /\ asked_for pid c /\ w_error (answer (c_h c)) = kal_err_again) ->
    waited can_bound answer usage pid options p (0, None) p
(** the environment refuses, and nothing is given back; *)
| not_waited i c : at_ (g_child p) i = Some c -> asked_for pid c -> w_error (answer (c_h c)) <> kal_ok ->
    waited can_bound answer usage pid options p (- okm_errno (w_error (answer (c_h c))), None) p
(** it has ended: its entry is free and its handle given back, what it used is counted. *)
| reaped i c cpu peak : at_ (g_child p) i = Some c -> asked_for pid c -> w_error (answer (c_h c)) = kal_ok ->
    cpu = wrap64 (g_children_cpu_ns p + cpu_of (usage (c_h c))) -> peak = Z.max (g_children_peak p) (peak_of (usage (c_h c))) ->
    waited can_bound answer usage pid options p
      (c_pid c, Some (status_word (answer (c_h c)), usage_of (cpu_of (usage (c_h c))) (peak_of (usage (c_h c)))))
      (Procs (<[Z.to_nat i := Child false (c_pid c) (c_h c) (c_job c) (c_has_job c)]> (g_child p)) (g_next_pid p) cpu peak (c_h c :: p_closed p)).

(** The entry the wait begins with. *)
Lemma wait_first p pid : let i := if 0 <? pid then child_index p pid else default (-1) (scan_from c_used (g_child p) 0) in
  (i < 0 /\ forall j c, at_ (g_child p) j = Some c -> ~ asked_for pid c) \/
  (0 <= i /\ exists c, at_ (g_child p) i = Some c /\ asked_for pid c).
Proof.
  unfold child_index. cbn zeta. destruct (Z.ltb_spec 0 pid) as [Hp|Hp]; destruct (scan_from _ _ _) as [i|] eqn:E; cbn [default from_option id].
  - right. apply scan_from_some in E as (Hi & (c & Hc & Hu) & _). rewrite Z.sub_0_r in Hc. boolean. split; [lia|]. exists c. split; [done|]. by split.
  - left. split; [done|]. apply scan_from_none in E. intros j c Hj%at_lookup [Hu Heq]. pose proof (Forall_lookup_1 _ _ _ _ E Hj) as H. cbn in H. rewrite Hu, (Heq Hp), Z.eqb_refl in H. done.
  - right. apply scan_from_some in E as (Hi & (c & Hc & Hu) & _). rewrite Z.sub_0_r in Hc. split; [lia|]. exists c. split; [done|]. split; [done|lia].
  - left. split; [done|]. apply scan_from_none in E. intros j c Hj%at_lookup [Hu _]. pose proof (Forall_lookup_1 _ _ _ _ E Hj) as H. cbn in H. congruence.
Qed.

Lemma wait_any_spec answer l : forall i, match wait_any answer l i with
  | Some k => i <= k /\ exists c, at_ l (k - i) = Some c /\ c_used c = true /\ w_error (answer (c_h c)) <> kal_err_again
  | None => Forall (fun c => c_used c = true -> w_error (answer (c_h c)) = kal_err_again) l
  end.
Proof.
  assert (Hat : forall c l (k i : Z), i + 1 <= k -> at_ (c :: l) (k - i) = at_ l (k - (i + 1)) :> option child).
  { intros c l' k i Hk. unfold at_. split_if; [|lia]. split_if; [|lia]. by replace (Z.to_nat (k - i)) with (S (Z.to_nat (k - (i + 1)))) by lia. }
  induction l as [|c l IH]; intros i; cbn [wait_any]; [done|]. specialize (IH (i + 1)).
  assert (Hskip : (c_used c = true -> w_error (answer (c_h c)) = kal_err_again) -> match wait_any answer l (i + 1) with
    | Some k => i <= k /\ exists c', at_ (c :: l) (k - i) = Some c' /\ c_used c' = true /\ w_error (answer (c_h c')) <> kal_err_again
    | None => Forall (fun c => c_used c = true -> w_error (answer (c_h c)) = kal_err_again) (c :: l) end).
  { intros Hc. destruct (wait_any _ _ _) as [k|]; [|by constructor]. destruct IH as [Hk Hx]. split; [lia|]. rewrite Hat by lia. done. }
  destruct (c_used c) eqn:Hu; cbn [negb]; [|by apply Hskip]. destruct (bool_decide_reflect (w_error (answer (c_h c)) = kal_err_again)) as [Ha|Ha]; [by apply Hskip|].
  split; [lia|]. exists c. by replace (i - i) with 0 by lia.
Qed.

(** An entry whose wait is answered: it is given back or nothing changes. *)
Lemma wait_entry can_bound answer usage pid options p i c : at_ (g_child p) i = Some c -> asked_for pid c -> exists r p',
  (c ← get_child i;
   let a := answer (c_h c) in
   if negb (bool_decide (w_error a = kal_ok)) then mret (- okm_errno (w_error a), None)
   else
     ru ← child_usage (usage (c_h c));
     okm_process_close (c_h c);;
     put_child i (Child false (c_pid c) (c_h c) (c_job c) (c_has_job c));;
     mret (c_pid c, Some (status_word a, ru))) p = Some (r, p') /\ waited can_bound answer usage pid options p r p'.
Proof.
  intros Hc Ha. unfold mbind, M_bind. rewrite (get_child_eq p i c) by done. destruct (bool_decide_reflect (w_error (answer (c_h c)) = kal_ok)) as [He|He]; cbn [negb].
  - unfold child_usage, mbind, M_bind, modify, okm_process_close, modify, mret, M_ret. cbn [g_child]. erewrite put_child_eq by (cbn [g_child]; exact Hc).
    eexists _, _. split; [reflexivity|]. unfold with_child. cbn [g_child g_next_pid g_children_cpu_ns g_children_peak p_closed]. by eapply reaped.
  - eexists _, _. split; [reflexivity|]. by eapply not_waited.
Qed.

Lemma wait_ok can_bound answer usage pid options p : exists r p', do_wait4 can_bound answer usage pid options p = Some (r, p') /\ waited can_bound answer usage pid options p r p'.
Proof.
  unfold do_wait4. rewrite (bind_run (gets id) _ p p p) by reflexivity. cbn zeta. set (i := if 0 <? pid then _ else _).  destruct (wait_first p pid) as [[Hi Hno]|(Hi & c & Hc & Ha)]; fold i in Hi.
  { replace (i <? 0) with true by lia. eexists _, _. split; [reflexivity|]. by apply no_child. }
  fold i in Hc. replace (i <? 0) with false by lia. destruct (has options WNOHANG) eqn:Hh; [|erewrite bind_run by reflexivity; by apply (wait_entry can_bound answer usage pid options p i c)].
  destruct can_bound; cbn [negb]; [|eexists _, _; split; [reflexivity|]; by apply unbounded]. destruct (Z.ltb_spec 0 pid) as [Hp|Hp].
  - erewrite bind_run by (unfold mbind, M_bind; rewrite (get_child_eq p i c Hc); reflexivity). destruct (bool_decide_reflect (w_error (answer (c_h c)) = kal_err_again)) as [He|He].
    + eexists _, _. split; [reflexivity|]. apply none_yet; [done|lia|]. by exists i, c.
    + by apply (wait_entry true answer usage pid options p i c).
  - erewrite bind_run by reflexivity. pose proof (wait_any_spec answer (g_child p) 0) as Hw. destruct (wait_any _ _ _) as [k|].
    + destruct Hw as [Hk (c' & Hc' & Hu & He)]. rewrite Z.sub_0_r in Hc'. apply (wait_entry true answer usage pid options p k c'); [done|]. split; [done|lia].
    + assert (Hag : forall j c', at_ (g_child p) j = Some c' -> c_used c' = true -> w_error (answer (c_h c')) = kal_err_again) by (intros j c' Hj%at_lookup; by apply (Forall_lookup_1 _ _ _ _ Hw Hj)).
      eexists _, _. split; [reflexivity|]. apply none_yet; [done|done|]. exists i, c. split_and!; auto. by apply (Hag i), Ha.
Qed.

Lemma waited_ok st can_bound answer usage pid options p r p' : children_ok st p -> waited can_bound answer usage pid options p r p' -> children_ok st p'.
Proof.
  intros Hok Hw. destruct Hw as [| | | |i c cpu peak Hc Ha _ _ _]; try done. destruct Ha as [Hu _].
  apply (children_put st st (with_counts p (g_next_pid p) cpu peak) i c _ [c_h c]); [by apply children_counts, Hok|done|done|]. unfold live_of. by rewrite Hu.
Qed.

(** ** The status *)

Lemma below_all n (f : nat -> bool) : forallb f (seq 0 n) = true -> forall k, (k < n)%nat -> f k = true.
Proof. rewrite forallb_forall. intros H k Hk. apply H, in_seq. lia. Qed.

Lemma exit_status_read a : w_terminated a = false ->
  WIFEXITED (status_word a) = true /\ WIFSIGNALED (status_word a) = false /\ WEXITSTATUS (status_word a) = w_status a mod 256.
Proof.
  intros H. unfold status_word, WIFEXITED, WIFSIGNALED, WEXITSTATUS, WTERMSIG. rewrite H. replace (Z.land (w_status a) 0xff) with (w_status a mod 256) by (symmetry; by apply (land_low _ 8)).
  pose proof (Z.mod_pos_bound (w_status a) 256 ltac:(lia)) as Hb. generalize dependent (w_status a mod 256). intros x Hx.
  pose proof (below_all 256 (fun n => (Z.land (Z.shiftl (Z.of_nat n) 8) 0x7f =? 0) && negb (wrap32 (Z.land (Z.shiftl (Z.of_nat n) 8) 0xffff - 1) <? 0xff) && (Z.shiftr (Z.land (Z.shiftl (Z.of_nat n) 8) 0xff00) 8 =? Z.of_nat n)) ltac:(vm_compute; reflexivity)) as Hall. cbn beta in Hall.
  specialize (Hall (Z.to_nat x) ltac:(lia)). rewrite Z2Nat.id in Hall by lia. boolean. split_and!; auto; lia.
Qed.

Lemma signal_status_read a : w_terminated a = true -> w_status a mod 128 <> 0 ->
  WIFEXITED (status_word a) = false /\ WIFSIGNALED (status_word a) = true /\ WTERMSIG (status_word a) = w_status a mod 128.
Proof.
  intros H. unfold status_word, WIFEXITED, WIFSIGNALED, WTERMSIG. rewrite H. replace (Z.land (w_status a) 0x7f) with (w_status a mod 128) by (symmetry; by apply (land_low _ 7)).
  pose proof (Z.mod_pos_bound (w_status a) 128 ltac:(lia)) as Hb. generalize dependent (w_status a mod 128). intros x Hx Hne.
  pose proof (below_all 128 (fun n => (Z.of_nat n =? 0) || (Z.land (Z.of_nat n) 0x7f =? Z.of_nat n) && (wrap32 (Z.land (Z.of_nat n) 0xffff - 1) <? 0xff)) ltac:(vm_compute; reflexivity)) as Hall. cbn beta in Hall.
  specialize (Hall (Z.to_nat x) ltac:(lia)). rewrite Z2Nat.id in Hall by lia. boolean; split_and!; auto; lia.
Qed.

(** ** Any sequence of starts and waits *)

(** The programs started so far, and the table. *)
Inductive proc_step : list Z * procs -> list Z * procs -> Prop :=
| P_spawn st p h unit id r p' : spawned h unit id p = Some (r, p') -> proc_step (st, p) (h :: st, p')
| P_fork st p have start id r p' : okm_fork have start id p = Some (r, p') -> proc_step (st, p) (forked have start r ++ st, p')
| P_wait st p can_bound answer usage pid options r p' : do_wait4 can_bound answer usage pid options p = Some (r, p') -> proc_step (st, p) (st, p').

(** ** The identifiers used *)

(** An operation that takes no identifier. *)
Definition takes_none {A} (e : M procs A) : Prop := forall p r p', e p = Some (r, p') -> g_next_pid p' = g_next_pid p.

Lemma takes_ret {A} (x : A) : takes_none (mret x).
Proof. by intros p r p' [= _ <-]. Qed.

Lemma takes_bind {A B} (e : M procs A) (k : A -> M procs B) : takes_none e -> (forall x, takes_none (k x)) -> takes_none (e ≫= k).
Proof. intros He Hk p r p' (x & p1 & E1 & E2)%bind_inv. rewrite (Hk _ _ _ _ E2). by eapply He. Qed.

Lemma takes_get i : takes_none (get_child i).
Proof. intros p r p'. unfold get_child, try. destruct (at_ _ _); [|done]. by intros [= _ <-]. Qed.

Lemma takes_put i c : takes_none (put_child i c).
Proof. intros p r p'. unfold put_child, put_try. destruct (set_at _ _ _); [|done]. by intros [= _ <-]. Qed.

Lemma takes_gets {A} (f : procs -> A) : takes_none (gets f).
Proof. by intros p r p' [= _ <-]. Qed.

Lemma takes_close h : takes_none (okm_process_close h).
Proof. by intros p r p' [= _ <-]. Qed.

Lemma takes_usage u : takes_none (child_usage u).
Proof. by intros p r p' [= _ <-]. Qed.

Create HintDb takes.
#[export] Hint Resolve takes_ret takes_get takes_put takes_gets takes_close takes_usage : takes.

Ltac takes := repeat first [solve [auto with takes] | apply takes_bind; [|intros] | case_match].

Lemma takes_commit slot h id : takes_none (child_commit slot h id).
Proof. unfold child_commit. takes. Qed.

Lemma takes_job slot j : takes_none (child_job slot j).
Proof. unfold child_job. takes. Qed.

Lemma takes_release slot : takes_none (child_release slot).
Proof. unfold child_release. takes. Qed.

Lemma takes_wait can_bound answer usage pid options : takes_none (do_wait4 can_bound answer usage pid options).
Proof. unfold do_wait4. takes. Qed.

Lemma reserve_takes st p r p' : children_ok st p -> pids_left p -> child_reserve p = Some (r, p') -> g_next_pid p' <= g_next_pid p + 1.
Proof. intros Hok Hl E. destruct (reserve_ok st p Hok Hl) as [[E' _]|(i & c & _ & _ & _ & E')]; rewrite E in E'; simplify_eq; cbn; lia. Qed.

(** After a reservation, an operation that takes no identifier. *)
Lemma reserve_then {A} (k : Z * Z -> M procs A) st p r p' : (forall x, takes_none (k x)) -> children_ok st p -> pids_left p -> (child_reserve ≫= k) p = Some (r, p') -> g_next_pid p' <= g_next_pid p + 1.
Proof. intros Hk Hok Hl (x & p1 & E1 & E2)%bind_inv. rewrite (Hk _ _ _ _ E2). by eapply reserve_takes. Qed.

Lemma spawned_takes st p h unit id r p' : children_ok st p -> pids_left p -> spawned h unit id p = Some (r, p') -> g_next_pid p' <= g_next_pid p + 1.
Proof.
  intros Hok Hl E. apply bind_inv in E as (pid & p1 & E1 & E2). assert (g_next_pid p' = g_next_pid p1) as ->. { revert E2. case_match; intros E2; [|by injection E2 as _ <-]. by injection E2 as _ <-. }
  revert E1. apply (reserve_then _ st); [|done|done]. intros x. cbv beta. destruct (x.1 <? 0); takes; auto using takes_commit, takes_job.
Qed.

Lemma fork_takes st p have start id r p' : children_ok st p -> pids_left p -> okm_fork have start id p = Some (r, p') -> g_next_pid p' <= g_next_pid p + 1.
Proof.
  intros Hok Hl. unfold okm_fork. destruct (negb have); [intros [= _ <-]; lia|]. apply (reserve_then _ st); [|done|done]. intros x. cbv beta. destruct (x.1 <? 0); takes; auto using takes_commit, takes_release.
Qed.

(** A step takes one identifier at most. *)
Lemma proc_step_ok x y : children_ok x.1 x.2 -> pids_left x.2 -> proc_step x y -> children_ok y.1 y.2 /\ g_next_pid y.2 <= g_next_pid x.2 + 1.
Proof.
  intros Hok Hl Hs. destruct Hs as [st p h unit id r p' E|st p have start id r p' E|st p cb answer usage pid options r p' E]; cbn [fst snd] in *.
  - split; [|by eapply spawned_takes]. destruct (spawned_ok st p h unit id Hok Hl) as (? & ? & E' & ? & _). by simplify_eq.
  - split; [|by eapply fork_takes]. destruct (fork_ok st p have start id Hok Hl) as (? & ? & E' & ? & _). by simplify_eq.
  - split; [|rewrite (takes_wait _ _ _ _ _ _ _ _ E); lia]. destruct (wait_ok cb answer usage pid options p) as (? & ? & E' & Hw). simplify_eq. by eapply waited_ok.
Qed.

Lemma procs_zero_ok : children_ok [] procs_zero.
Proof. constructor; [reflexivity|by apply Forall_replicate|reflexivity|]. unfold live. cbn [g_child procs_zero]. generalize (Z.to_nat OKM_MAX_CHILD). induction n; [done|]. by cbn [replicate flat_map]. Qed.

Lemma proc_steps_ok n x : nsteps proc_step n ([], procs_zero) x -> 1000 + Z.of_nat n <= INT_MAX -> children_ok x.1 x.2 /\ g_next_pid x.2 <= 1000 + Z.of_nat n.
Proof.
  revert x. induction n as [|n IH]; intros x Hs Hn; [inversion Hs; subst; split; [apply procs_zero_ok|done]|].
  apply nsteps_inv_r in Hs as (y & Hy & Hs). destruct (IH y Hy ltac:(lia)) as [Hok Hle]. destruct (proc_step_ok y x Hok ltac:(unfold pids_left; lia) Hs). split; [done|lia].
Qed.

(** C9. After any sequence of posix_spawn, fork and wait4 from a table with no child, of
    fewer calls than there are identifiers from 1000 to the largest int, the
    programs started are, each as often as it was started, those the table holds a handle
    of and those whose handle was given back: none is lost and none is given back twice.
    posix_spawn and fork then refuse for want of an entry only where every one of the 256
    is used, and what they tell the caller is positive and names the program started.
    wait4 comes to what [waited] says and nothing else: no child, no bounded wait, none
    ended (of all of them, where none was named), a refusal that leaves the table as it
    was, or one child whose entry and handle it gives back. The status it writes reads,
    by the macros of sys/wait.h, as the exit status or as the signal the environment
    answered. *)
Theorem children_accounted n st p : nsteps proc_step n ([], procs_zero) (st, p) -> 1000 + Z.of_nat n < INT_MAX ->
  st ≡ₚ live p ++ p_closed p /\
  (forall h unit id, exists r p', spawned h unit id p = Some (r, p') /\
     ((full p /\ r = (EAGAIN, None)) \/ (~ full p /\ exists pid, 0 < pid /\ r = (0, Some pid) /\ child_of p' pid h))) /\
  (forall have start id, exists r p', okm_fork have start id p = Some (r, p') /\
     (r < 0 \/ 0 < r /\ have = true /\ start.1 = kal_ok /\ child_of p' r start.2) /\
     (have = true -> r = - EAGAIN -> full p \/ okm_errno start.1 = EAGAIN)) /\
  (forall can_bound answer usage pid options, exists r p', do_wait4 can_bound answer usage pid options p = Some (r, p') /\
     waited can_bound answer usage pid options p r p') /\
  (forall a, (w_terminated a = false ->
      WIFEXITED (status_word a) = true /\ WIFSIGNALED (status_word a) = false /\ WEXITSTATUS (status_word a) = w_status a mod 256) /\
    (w_terminated a = true -> w_status a mod 128 <> 0 ->
      WIFEXITED (status_word a) = false /\ WIFSIGNALED (status_word a) = true /\ WTERMSIG (status_word a) = w_status a mod 128)).
Proof.
  intros Hs Hn. destruct (proc_steps_ok n (st, p) Hs ltac:(lia)) as [Hok Hle]. cbn [fst snd] in Hok, Hle. assert (pids_left p) as Hl by (unfold pids_left; lia). split; [apply Hok|]. split; [|split; [|split]].
  - intros h unit id. destruct (spawned_ok st p h unit id Hok Hl) as (r & p' & E & _ & H). exists r, p'. split; [done|]. destruct H as [H|(? & pid & ? & ? & ? & [? _])]; [by left|right; eauto].
  - intros have start id. destruct (fork_ok st p have start id Hok Hl) as (r & p' & E & _ & H). eauto.
  - intros. apply wait_ok.
  - split; [apply exit_status_read|apply signal_status_read].
Qed.

(** Two programs started, and one wait. *)
Definition three_calls (h unit : Z) (id : option Z) (h' unit' : Z) (id' : option Z) (answer : Z -> ended) (usage : Z -> usage_answer) (pid options : Z) : M procs (Z * option (Z * rusage)) :=
  spawned h unit id;; spawned h' unit' id';; do_wait4 true answer usage pid options.

Lemma three_steps h unit id h' unit' id' answer usage pid options p0 r p :
  three_calls h unit id h' unit' id' answer usage pid options p0 = Some (r, p) -> nsteps proc_step 3 ([], p0) ([h'; h], p).
Proof.
  intros E. apply bind_inv in E as (r1 & p1 & E1 & E). apply bind_inv in E as (r2 & p2 & E2 & E3).
  eapply nsteps_l; [eapply P_spawn; exact E1|]. eapply nsteps_l; [eapply P_spawn; exact E2|]. eapply nsteps_once. eapply P_wait; exact E3.
Qed.

(** Only the second has ended, with 7. *)
Definition one_ended (h : Z) : ended := if h =? 42 then Ended kal_ok 7 false else Ended kal_err_again 0 false.
Definition used_some (h : Z) : usage_answer := Some (Some 5000000, Some 4096).

Lemma three_answer : fst <$> three_calls 41 0 (Some 500) 42 9 None one_ended used_some (-1) WNOHANG procs_zero = Some (1002, Some (0x700, Rusage 0 5000 4)).
Proof. vm_compute. reflexivity. Qed.

Lemma children_accounted_witness : exists p, three_calls 41 0 (Some 500) 42 9 None one_ended used_some (-1) WNOHANG procs_zero = Some ((1002, Some (0x700, Rusage 0 5000 4)), p) /\
  [42; 41] ≡ₚ live p ++ p_closed p.
Proof.
  pose proof three_answer as H. destruct (three_calls _ _ _ _ _ _ _ _ _ _ _) as [[r p]|] eqn:E; [|discriminate H]. injection H as ->. exists p. split; [reflexivity|].
  apply (children_accounted 3 [42; 41] p); [exact (three_steps _ _ _ _ _ _ _ _ _ _ _ _ _ E)|reflexivity].
Defined.

(** And where the identifiers are used up: the one settled is the least int, so the program
    that was started is given back and its start refused, while its entry, which holds the
    handle that was given back, stays used. *)
Lemma pids_used_up h id cpu peak : match id with Some n => n <= 0 \/ INT_MAX < n | None => True end ->
  match spawned h 0 id (Procs (replicate (Z.to_nat OKM_MAX_CHILD) child_zero) INT_MAX cpu peak []) with
  | Some (r, p') => r = (EAGAIN, None) /\ live p' = [h] /\ p_closed p' = [h]
  | None => False
  end.
Proof.
  intros Hid. unfold spawned, child_record_job, child_commit. destruct id as [n|]; [|by vm_compute].
  replace ((0 <? n) && (n <=? INT_MAX)) with false by lia. by vm_compute.
Qed.
