(* ===== verification/MallocCache.v ===== *)
(** The slots a thread keeps (port/src/mallocng/okm_malloc_tc.c), over what mallocng's
    groups record of theirs (musl/src/malloc/mallocng/meta.h). *)
From S2P Require Import Prelude Kal.
From stdpp Require Import base list option gmap.
From Stdlib Require Import ZArith Lia.

#[local] Open Scope Z_scope.

Definition TC_CLASSES : Z := 24.
Definition TC_MAX : Z := 16.
Definition TC_BATCH : Z := 8.

(** What a group's record says of its slots; a slot is its group's address and its
    index. *)
Record meta := Meta { avail_mask : Z; freed_mask : Z; last_idx : Z; sizeclass : Z }.

Abbreviation slot := (Z * Z)%type.

(** A class of the cache: its count, and its entries of [g] and [idx] side by side. *)
Record tc_class := TcClass { tc_n : Z; tc_slot : list slot }.

Abbreviation malloc_tc := (list tc_class).

(** As it is mapped. *)
Definition tc_zero : malloc_tc := replicate (Z.to_nat TC_CLASSES) (TcClass 0 (replicate (Z.to_nat TC_MAX) (0, 0))).

(** The field of a thread's record. *)
Inductive tc_field := TC_NONE | TC_PENDING | TC_OFF | TC_AT (tc : malloc_tc).

(** The groups by address, the active one of a class, the field of each thread. *)
Record mheap := Mheap { h_meta : gmap Z meta; h_active : gmap Z Z; h_tc : list tc_field }.

Definition get_meta (g : Z) : M mheap meta := try (fun h => h_meta h !! g).
Definition put_avail (g mask : Z) : M mheap () :=
  put_try (fun h => (fun m => Mheap (<[g := Meta mask (freed_mask m) (last_idx m) (sizeclass m)]> (h_meta h)) (h_active h) (h_tc h)) <$> h_meta h !! g).

Definition get_class (tc : malloc_tc) (c : Z) : M mheap tc_class := try (fun _ => at_ tc c).

Section thread.
(** The calling thread. *)
Context (self : Z).

Definition get_field : M mheap tc_field := try (fun h => at_ (h_tc h) self).
Definition put_field (f : tc_field) : M mheap () :=
  put_try (fun h => (fun l => Mheap (h_meta h) (h_active h) l) <$> set_at (h_tc h) self f).

(** An entry of the calling thread's cache, written. *)
Definition put_class (tc : malloc_tc) (c : Z) (k : tc_class) : M mheap () :=
  tc' ← try (fun _ => set_at tc c k);
  put_field (TC_AT tc').

Definition held (f : tc_field) : option malloc_tc := match f with TC_AT tc => Some tc | _ => None end.

(** [mapped]: whether mmap answers a mapping. *)
Definition own_cache (mapped : bool) : M mheap (option malloc_tc) :=
  f ← get_field;
  match f with
  | TC_NONE =>
      put_field TC_PENDING;;
      put_field (if mapped then TC_AT tc_zero else TC_OFF);;
      mret (if mapped then Some tc_zero else None)
  | f => mret (held f)
  end.

(** The slot taken, which the caller frames. *)
Definition malloc_tc_take (mapped : bool) (sc : Z) : M mheap (option slot) :=
  if TC_CLASSES <=? sc then mret None
  else
    tc ← own_cache mapped;
    match tc with
    | None => mret None
    | Some tc =>
        k ← get_class tc sc;
        c ← (if negb (tc_n k =? 0) then mret (Some sc)
             else if (sc <? 4) || has sc 1 || (TC_CLASSES <=? Z.lor sc 1) then mret None
             else k' ← get_class tc (Z.lor sc 1); mret (if tc_n k' =? 0 then None else Some (Z.lor sc 1)));
        match c with
        | None => mret None
        | Some c =>
            k ← get_class tc c;
            put_class tc c (TcClass (tc_n k - 1) (tc_slot k));;
            s ← try (fun _ => at_ (tc_slot k) (tc_n k - 1));
            mret (Some s)
        end
    end.

(** The loop of the group [g], whose mask is [mask]: the mask and the class after it. *)
Fixpoint fill_loop (fuel : nat) (g mask : Z) (k : tc_class) : option (Z * tc_class) :=
  match fuel with
  | O => None
  | S f =>
      if TC_BATCH <=? tc_n k then Some (mask, k)
      else
        let first := Z.land mask (wrap32 (- mask)) in
        if first =? 0 then Some (mask, k)
        else
          l ← set_at (tc_slot k) (tc_n k) (g, ctz first);
          fill_loop f g (mask - first) (TcClass (tc_n k + 1) l)
  end.

Definition malloc_tc_fill (sc : Z) : M mheap () :=
  if TC_CLASSES <=? sc then mret ()
  else
    f ← get_field;
    match held f with
    | None => mret ()
    | Some tc =>
        h ← gets id;
        match h_active h !! sc with
        | None => mret ()
        | Some g =>
            m ← get_meta g;
            k ← get_class tc sc;
            r ← try (fun _ => fill_loop (S (Z.to_nat TC_BATCH)) g (avail_mask m) k);
            put_avail g r.1;;
            put_class tc sc r.2
        end
    end.

(** Whether the slot was kept. *)
Definition malloc_tc_give (s : slot) : M mheap bool :=
  m ← get_meta s.1;
  let sc := sizeclass m in
  if (TC_CLASSES <=? sc) || (last_idx m =? 0) then mret false
  else
    f ← get_field;
    match held f with
    | None => mret false
    | Some tc =>
        k ← get_class tc sc;
        if TC_MAX <=? tc_n k then mret false
        else
          l ← try (fun _ => set_at (tc_slot k) (tc_n k) s);
          put_class tc sc (TcClass (tc_n k + 1) l);;
          mret true
    end.

(** The slots of a class as they are given back: the last first. *)
Fixpoint pop_class (n : nat) (l : list slot) : option (list slot) :=
  match n with
  | O => Some []
  | S k => s ← l !! k; r ← pop_class k l; Some (s :: r)
  end.

Fixpoint pop_classes (tc : malloc_tc) : option (list slot) :=
  match tc with
  | [] => Some []
  | k :: tc' => a ← pop_class (Z.to_nat (tc_n k)) (tc_slot k); b ← pop_classes tc'; Some (a ++ b)
  end.

(** What is handed to mallocng, in order. *)
Definition malloc_tc_flush : M mheap (list slot) :=
  f ← get_field;
  put_field TC_OFF;;
  match held f with
  | None => mret []
  | Some tc => try (fun _ => pop_classes tc)
  end.
End thread.

(** ** What mallocng does to its groups' masks *)

Definition bit (i : Z) : Z := Z.shiftl 1 i.
Definition all_slots (m : meta) : Z := Z.shiftl 2 (last_idx m) - 1.

(** malloc's own way: the first available of the active group. *)
Definition malloc_active (sc : Z) : M mheap (option slot) :=
  h ← gets id;
  match h_active h !! sc with
  | None => mret None
  | Some g =>
      m ← get_meta g;
      let mask := avail_mask m in
      let first := Z.land mask (wrap32 (- mask)) in
      if first =? 0 then mret None
      else put_avail g (mask - first);; mret (Some (g, ctz first))
  end.

(** A slot is freed: [drop] is whether a group all of whose slots are free is given
    up. *)
Definition release_slot (drop : bool) (s : slot) : M mheap () :=
  m ← get_meta s.1;
  let mask := Z.lor (freed_mask m) (avail_mask m) in
  if (wrap32 (mask + bit s.2) =? wrap32 (all_slots m)) && drop
  then modify (fun h => Mheap (delete s.1 (h_meta h)) (filter (fun x => x.2 <> s.1) (h_active h)) (h_tc h))
  else modify (fun h => Mheap (<[s.1 := Meta (avail_mask m) (Z.lor (freed_mask m) (bit s.2)) (last_idx m) (sizeclass m)]> (h_meta h)) (h_active h) (h_tc h)).

(** The freed slots below [active_idx] become available. *)
Definition activate_group (active_idx g : Z) : M mheap () :=
  m ← get_meta g;
  let act := Z.shiftl 2 active_idx - 1 in
  modify (fun h => Mheap (<[g := Meta (Z.land (freed_mask m) act) (Z.land (freed_mask m) (Z.lnot act)) (last_idx m) (sizeclass m)]> (h_meta h)) (h_active h) (h_tc h)).
