(* ===== verification/MallocCacheOk.v ===== *)
(** The lowest bit of a mask, and what each operation of a thread's cache does to the
    slots in it. *)
From S2P Require Import Prelude Kal FdTableOk MallocCache.
From stdpp Require Import base list option gmap.
From Stdlib Require Import ZArith Lia.

#[local] Open Scope Z_scope.

(** ** Masks *)

Lemma land_double_neg z : Z.land (2 * z) (- (2 * z)) = 2 * Z.land z (- z).
Proof.
  replace (- (2 * z)) with (2 * (- z)) by lia. apply Z.bits_inj'. intros n Hn. rewrite Z.land_spec.
  destruct (Z.eq_dec n 0) as [->|Hz]; [by rewrite !Z.testbit_even_0|]. replace n with (Z.succ (n - 1)) by lia. rewrite !Z.testbit_even_succ by lia. by rewrite Z.land_spec.
Qed.

Lemma land_odd_neg z : Z.land (2 * z + 1) (- (2 * z + 1)) = 1.
Proof.
  replace (- (2 * z + 1)) with (2 * Z.lnot z + 1) by (unfold Z.lnot; lia). apply Z.bits_inj'. intros n Hn. rewrite Z.land_spec. change 1 with (2 * 0 + 1) at 3.
  destruct (Z.eq_dec n 0) as [->|Hz]; [by rewrite !Z.testbit_odd_0|]. replace n with (Z.succ (n - 1)) by lia. rewrite !Z.testbit_odd_succ by lia.
  rewrite Z.lnot_spec, Z.bits_0 by lia. by destruct (Z.testbit z (n - 1)).
Qed.

Lemma lowest_bit z : 0 < z -> Z.land z (- z) = 2 ^ ctz z /\ Z.testbit z (ctz z) = true.
Proof.
  destruct z as [|p|p]; [done| |done]. intros _. induction p as [p IH|p IH|]; [| |done].
  - change (Zpos p~1) with (2 * Zpos p + 1). rewrite land_odd_neg, ctz_odd. split; [done|]. apply Z.testbit_odd_0.
  - change (Zpos p~0) with (2 * Zpos p). rewrite land_double_neg, ctz_double by done. destruct IH as [IH1 IH2]. pose proof (ctz_nonneg (Zpos p)).
    rewrite IH1. replace (1 + ctz (Zpos p)) with (Z.succ (ctz (Zpos p))) by lia. split; [by rewrite Z.pow_succ_r|]. by rewrite Z.testbit_even_succ.
Qed.

Lemma ctz_pow i : 0 <= i -> ctz (2 ^ i) = i.
Proof. intros Hi. rewrite <-(Z.mul_1_r (2 ^ i)), ctz_shift by done. cbn. lia. Qed.

(** In 32 bits. *)
Lemma first_bit mask : 0 <= mask < 2 ^ 32 ->
  let first := Z.land mask (wrap32 (- mask)) in
  (mask = 0 /\ first = 0) \/ (mask <> 0 /\ first = 2 ^ ctz mask /\ ctz first = ctz mask /\ Z.testbit mask (ctz mask) = true).
Proof.
  intros Hm first. assert (Hf : first = Z.land mask (- mask)).
  { apply Z.bits_inj'. intros n Hn. unfold first, wrap32. rewrite !Z.land_spec. destruct (Z.lt_ge_cases n 32) as [Hl|Hl]; [by rewrite Z.mod_pow2_bits_low by lia|].
    rewrite (Z.bits_above_log2 mask n); [done|lia|]. destruct (Z.eq_dec mask 0) as [->|Hz]; [cbn; lia|]. pose proof (proj1 (Z.log2_lt_pow2 mask 32 ltac:(lia))). lia. }
  destruct (Z.eq_dec mask 0) as [->|Hz]; [left; by rewrite Hf|right]. destruct (lowest_bit mask ltac:(lia)) as [H1 H2]. split; [done|].
  rewrite Hf, H1. split; [done|]. split; [|done]. apply ctz_pow, ctz_nonneg.
Qed.

Lemma clear_bit mask i : 0 <= i -> Z.testbit mask i = true ->
  forall j, Z.testbit (mask - 2 ^ i) j = Z.testbit mask j && negb (j =? i).
Proof.
  intros Hi Hb j. rewrite Z.sub_nocarry_ldiff.
  - rewrite Z.ldiff_spec. destruct (Z.lt_ge_cases j 0) as [Hj|Hj]; [by rewrite !Z.testbit_neg_r|]. rewrite Z.pow2_bits_eqb by done. by rewrite (Z.eqb_sym j i).
  - apply Z.bits_inj'. intros n Hn. rewrite Z.ldiff_spec, Z.bits_0, Z.pow2_bits_eqb by done. destruct (Z.eqb_spec i n) as [->|]; [by rewrite Hb|done].
Qed.

(** ** A group's slots *)

Record meta_ok (m : meta) : Prop := {
  mt_last : 0 <= last_idx m <= 31;
  mt_class : 0 <= sizeclass m < 64;
  mt_avail : 0 <= avail_mask m < 2 ^ (last_idx m + 1);
  mt_freed : 0 <= freed_mask m < 2 ^ (last_idx m + 1);
  mt_apart : forall j, Z.testbit (avail_mask m) j = true -> Z.testbit (freed_mask m) j = false;
}.

(** A slot of the group that is in neither mask. *)
Definition out_of (m : meta) (i : Z) : Prop := 0 <= i <= last_idx m /\ Z.testbit (avail_mask m) i = false /\ Z.testbit (freed_mask m) i = false.

Lemma mask_small m : meta_ok m -> 0 <= avail_mask m < 2 ^ 32.
Proof. intros [H1 _ H2 _ _]. assert (2 ^ (last_idx m + 1) <= 2 ^ 32) by (apply Z.pow_le_mono_r; lia). lia. Qed.

Lemma bit_index x n j : 0 <= x < 2 ^ n -> Z.testbit x j = true -> 0 <= j < n.
Proof.
  intros Hx Hj. destruct (Z.lt_ge_cases j 0) as [Hn|Hn]; [by rewrite Z.testbit_neg_r in Hj|]. split; [done|]. destruct (Z.lt_ge_cases j n) as [|Hge]; [done|].
  assert (0 <= n) by (destruct (Z.lt_ge_cases n 0); [rewrite Z.pow_neg_r in Hx by done; lia|done]).
  rewrite <-(Z.mod_small x (2 ^ n)), Z.mod_pow2_bits_high in Hj by lia. done.
Qed.

Lemma mask_bound x n : 0 <= n -> 0 <= x -> (forall j, Z.testbit x j = true -> j < n) -> x < 2 ^ n.
Proof. intros Hn Hx Hb. apply bits_bound; [done|done|]. intros j Hj. destruct (Z.testbit x j) eqn:E; [|done]. apply Hb in E. lia. Qed.

(** ** A class *)

Definition class_ok (k : tc_class) : Prop := 0 <= tc_n k <= TC_MAX /\ Z.of_nat (length (tc_slot k)) = TC_MAX.

(** The slots in it. *)
Definition live_class (k : tc_class) : list slot := take (Z.to_nat (tc_n k)) (tc_slot k).

Lemma class_push k s : class_ok k -> tc_n k < TC_MAX -> exists l, set_at (tc_slot k) (tc_n k) s = Some l /\
  class_ok (TcClass (tc_n k + 1) l) /\ live_class (TcClass (tc_n k + 1) l) = live_class k ++ [s].
Proof.
  intros [Hn Hl] Hm. eexists. rewrite set_at_some by lia. split; [done|]. split; [split; cbn [tc_n tc_slot]; rewrite ?length_insert; lia|].
  unfold live_class. cbn [tc_n tc_slot]. replace (Z.to_nat (tc_n k + 1)) with (S (Z.to_nat (tc_n k))) by lia.
  rewrite (take_S_r _ _ s); [|apply list_lookup_insert_eq; lia]. by rewrite take_insert_ge by lia.
Qed.

Lemma class_pop k : class_ok k -> tc_n k <> 0 -> exists s, at_ (tc_slot k) (tc_n k - 1) = Some s /\
  class_ok (TcClass (tc_n k - 1) (tc_slot k)) /\ live_class k = live_class (TcClass (tc_n k - 1) (tc_slot k)) ++ [s].
Proof.
  intros [Hn Hl] Hz. destruct (at_some (tc_slot k) (tc_n k - 1)) as [s Hs]; [lia|]. exists s. split; [done|]. split; [split; cbn [tc_n tc_slot]; lia|].
  unfold live_class. cbn [tc_n tc_slot]. apply at_lookup in Hs. rewrite <-(take_S_r _ _ _ Hs). f_equal. lia.
Qed.

Lemma fill_loop_ok g : forall fuel mask k, class_ok k -> 0 <= mask < 2 ^ 32 -> Z.max 0 (TC_BATCH - tc_n k) < Z.of_nat fuel -> exists mask' k' l,
  fill_loop fuel g mask k = Some (mask', k') /\ class_ok k' /\ live_class k' = live_class k ++ l /\ NoDup l /\
  Forall (fun s => s.1 = g /\ 0 <= s.2 /\ Z.testbit mask s.2 = true /\ Z.testbit mask' s.2 = false) l /\
  (forall j, Z.testbit mask' j = true -> Z.testbit mask j = true) /\ 0 <= mask' <= mask.
Proof.
  intros fuel. induction fuel as [|f IH]; intros mask k Hk Hm Hf; [lia|]. cbn [fill_loop].
  assert (Hstop : exists mask' k' l, Some (mask, k) = Some (mask', k') /\ class_ok k' /\ live_class k' = live_class k ++ l /\ NoDup l /\
    Forall (fun s => s.1 = g /\ 0 <= s.2 /\ Z.testbit mask s.2 = true /\ Z.testbit mask' s.2 = false) l /\ (forall j, Z.testbit mask' j = true -> Z.testbit mask j = true) /\ 0 <= mask' <= mask).
  { exists mask, k, []. rewrite app_nil_r. split_and!; auto; [constructor|lia|lia]. }
  destruct (Z.leb_spec TC_BATCH (tc_n k)) as [|Hn]; [done|]. destruct (first_bit mask Hm) as [[Hz ->]|(Hz & Hfi & Hc & Hb)]; [done|].
  rewrite Hfi in *. pose proof (ctz_nonneg mask) as Hi. pose proof (ctz_le mask ltac:(lia)) as Hle. assert (0 < 2 ^ ctz mask) by (apply Z.pow_pos_nonneg; lia).
  replace (2 ^ ctz mask =? 0) with false by lia. rewrite Hc. destruct (class_push k (g, ctz mask) Hk) as (l & -> & Hk' & Hlive); [unfold TC_BATCH, TC_MAX in *; lia|].
  cbn [mbind option_bind]. destruct (IH (mask - 2 ^ ctz mask) (TcClass (tc_n k + 1) l) Hk' ltac:(lia) ltac:(cbn [tc_n]; lia)) as (mask' & k' & l' & -> & Hk'' & Hlive' & Hnd & Hall & Hsub & Hrange).
  pose proof (clear_bit mask (ctz mask) Hi Hb) as Hclr. exists mask', k', ((g, ctz mask) :: l'). split; [done|]. split; [done|]. split; [by rewrite Hlive', Hlive, <-app_assoc|].
  assert (Hnew : Z.testbit mask' (ctz mask) = false). { destruct (Z.testbit mask' (ctz mask)) eqn:E; [|done]. apply Hsub in E. rewrite Hclr, Z.eqb_refl, andb_false_r in E. done. }
  split_and!.
  - constructor; [|done]. rewrite Forall_forall in Hall. intros Hin%Hall. cbn in Hin. destruct Hin as (_ & _ & Hin & _). rewrite Hclr, Z.eqb_refl, andb_false_r in Hin. done.
  - constructor; [done|]. eapply Forall_impl; [exact Hall|]. intros s (H1 & H2 & H3 & H4). rewrite Hclr in H3. boolean. done.
  - intros j Hj%Hsub. rewrite Hclr in Hj. by boolean.
  - lia.
  - lia.
Qed.

(** ** The caches *)

Definition cached_tc (tc : malloc_tc) : list slot := flat_map live_class tc.
Definition cached_field (f : tc_field) : list slot := match f with TC_AT tc => cached_tc tc | _ => [] end.
Definition cached (h : mheap) : list slot := flat_map cached_field (h_tc h).

(** Every class holds slots of its own class. *)
Definition of_class (mt : gmap Z meta) (c : Z) (s : slot) : Prop := exists m, mt !! s.1 = Some m /\ sizeclass m = c.
Definition tc_ok (mt : gmap Z meta) (tc : malloc_tc) : Prop :=
  Z.of_nat (length tc) = TC_CLASSES /\ forall c k, at_ tc c = Some k -> class_ok k /\ Forall (of_class mt c) (live_class k).
Definition field_ok (mt : gmap Z meta) (f : tc_field) : Prop := match f with TC_AT tc => tc_ok mt tc | _ => True end.

Record heap_ok (h : mheap) : Prop := {
  hp_meta : forall g m, h_meta h !! g = Some m -> meta_ok m;
  hp_active : forall sc g, h_active h !! sc = Some g -> exists m, h_meta h !! g = Some m /\ sizeclass m = sc;
  hp_tc : Forall (field_ok (h_meta h)) (h_tc h);
}.

Definition with_tc (h : mheap) (self : Z) (f : tc_field) : mheap := Mheap (h_meta h) (h_active h) (<[Z.to_nat self := f]> (h_tc h)).

Lemma heap_field h self f : heap_ok h -> at_ (h_tc h) self = Some f -> field_ok (h_meta h) f.
Proof. intros [_ _ H] Hf%at_lookup. by apply (Forall_lookup_1 _ _ _ _ H Hf). Qed.

Lemma get_field_eq h self f : at_ (h_tc h) self = Some f -> get_field self h = Some (f, h).
Proof. unfold get_field, try. by intros ->. Qed.

Lemma put_field_ok h self f0 f : heap_ok h -> at_ (h_tc h) self = Some f0 -> field_ok (h_meta h) f ->
  put_field self f h = Some ((), with_tc h self f) /\ heap_ok (with_tc h self f) /\ at_ (h_tc (with_tc h self f)) self = Some f /\
  cached (with_tc h self f) ++ cached_field f0 ≡ₚ cached h ++ cached_field f.
Proof.
  intros [H1 H2 H3] Hf0 Hf. pose proof (at_range _ _ _ Hf0) as Hr. split; [unfold put_field, put_try; by rewrite set_at_some|]. split; [|split].
  - constructor; auto. cbn [h_tc h_meta with_tc]. by apply Forall_insert.
  - cbn [h_tc with_tc]. rewrite at_insert by done. by rewrite Z.eqb_refl.
  - unfold cached. cbn [h_tc with_tc]. by apply flat_map_insert, at_lookup.
Qed.

Lemma with_tc_twice h self f f' : with_tc (with_tc h self f) self f' = with_tc h self f'.
Proof. unfold with_tc. cbn [h_meta h_active h_tc]. by rewrite list_insert_insert_eq. Qed.

Lemma tc_class_at mt tc c : tc_ok mt tc -> 0 <= c < TC_CLASSES -> exists k, at_ tc c = Some k /\ class_ok k /\ Forall (of_class mt c) (live_class k).
Proof. intros [Hl Ht] Hc. destruct (at_some tc c) as [k Hk]; [lia|]. exists k. split; [done|]. by apply Ht. Qed.

(** A class of the calling thread's cache is written. *)
Lemma put_class_ok h self tc c k k' : heap_ok h -> at_ (h_tc h) self = Some (TC_AT tc) -> at_ tc c = Some k -> class_ok k' -> Forall (of_class (h_meta h) c) (live_class k') ->
  exists h', put_class self tc c k' h = Some ((), h') /\ heap_ok h' /\ h_meta h' = h_meta h /\ h_active h' = h_active h /\ cached h' ++ live_class k ≡ₚ cached h ++ live_class k'.
Proof.
  intros Hh Hf Hk Hk' Hc'. pose proof (heap_field _ _ _ Hh Hf) as [Hl Ht]. pose proof (at_range _ _ _ Hk) as Hr.
  assert (Hnew : tc_ok (h_meta h) (<[Z.to_nat c := k']> tc)).
  { split; [by rewrite length_insert|]. intros c0 k0. rewrite at_insert by done. destruct (Z.eqb_spec c0 c) as [->|]; [by intros [= <-]|apply Ht]. }
  destruct (put_field_ok h self (TC_AT tc) (TC_AT (<[Z.to_nat c := k']> tc)) Hh Hf Hnew) as (E & Hok & _ & Hp).
  exists (with_tc h self (TC_AT (<[Z.to_nat c := k']> tc))). unfold put_class, mbind, M_bind, try. rewrite set_at_some by done. cbn [fmap option_fmap option_map]. split; [done|]. split_and!; auto.
  pose proof (flat_map_insert live_class tc _ k' _ (at_lookup _ _ _ Hk)) as Hq. cbn [cached_field] in Hp. unfold cached_tc in Hp. perm.
Qed.

Lemma tc_zero_ok mt : tc_ok mt tc_zero.
Proof.
  split; [done|]. intros c k Hk%at_lookup. unfold tc_zero in Hk. apply lookup_replicate in Hk as [-> _]. split; [split; [cbn; unfold TC_MAX; lia|done]|constructor].
Qed.

Lemma cached_zero : cached_tc tc_zero = [].
Proof. reflexivity. Qed.

(** The cache the thread has after asking for one. *)
Lemma own_cache_ok self mapped h f : heap_ok h -> at_ (h_tc h) self = Some f -> exists r h', own_cache self mapped h = Some (r, h') /\
  heap_ok h' /\ h_meta h' = h_meta h /\ h_active h' = h_active h /\ cached h' ≡ₚ cached h /\ (forall tc, r = Some tc -> at_ (h_tc h') self = Some (TC_AT tc)).
Proof.
  intros Hh Hf. unfold own_cache, mbind, M_bind. rewrite (get_field_eq _ _ _ Hf). destruct f as [| | |tc].
  2-4: eexists _, _; split; [reflexivity|]; split_and!; auto; by intros ? [= <-].
  destruct (put_field_ok h self TC_NONE TC_PENDING Hh Hf I) as (-> & Hh1 & Hf1 & Hp1).
  destruct (put_field_ok (with_tc h self TC_PENDING) self TC_PENDING (if mapped then TC_AT tc_zero else TC_OFF) Hh1 Hf1) as (-> & Hh2 & Hf2 & Hp2); [destruct mapped; [apply tc_zero_ok|done]|].
  eexists _, _. split; [reflexivity|]. split_and!; auto.
  - cbn [cached_field] in Hp1. rewrite !app_nil_r in Hp1. destruct mapped; cbn [cached_field] in Hp2; rewrite ?cached_zero, !app_nil_r in Hp2; by rewrite Hp2.
  - rewrite Hf2. destruct mapped; [by intros ? [= <-]|done].
Qed.

(** ** The operations *)

Lemma get_class_eq tc c k h : at_ tc c = Some k -> get_class tc c h = Some (k, h).
Proof. unfold get_class, try. by intros ->. Qed.

(** The class a slot of class [c] serves. *)
Definition serves (sc c : Z) : Prop := c = sc \/ (4 <= sc /\ Z.land sc 1 = 0 /\ c = Z.lor sc 1).

(** Nothing is taken, or one slot, of the class asked for or the coarse one above it. *)
Lemma take_ok self mapped sc h f : heap_ok h -> at_ (h_tc h) self = Some f -> 0 <= sc -> exists r h', malloc_tc_take self mapped sc h = Some (r, h') /\
  heap_ok h' /\ h_meta h' = h_meta h /\ h_active h' = h_active h /\ cached h ≡ₚ option_list r ++ cached h' /\
  (forall s, r = Some s -> exists c, serves sc c /\ of_class (h_meta h) c s).
Proof.
  intros Hh Hf Hsc. unfold malloc_tc_take. destruct (Z.leb_spec TC_CLASSES sc) as [|Hlt]; [eexists None, h; split; [done|]; split_and!; done|].
  destruct (own_cache_ok self mapped h f Hh Hf) as (tc & h1 & E1 & Hh1 & Hm1 & Ha1 & Hc1 & Htc). unfold mbind at 1, M_bind at 1. rewrite E1.
  assert (Hnone : exists r h', Some (None, h1) = Some (r, h') /\ heap_ok h' /\ h_meta h' = h_meta h /\ h_active h' = h_active h /\ cached h ≡ₚ option_list r ++ cached h' /\
    (forall s, r = Some s -> exists c, serves sc c /\ of_class (h_meta h) c s)) by (eexists None, h1; split_and!; done).
  destruct tc as [tc|]; [|done]. specialize (Htc tc eq_refl). pose proof (heap_field _ _ _ Hh1 Htc) as Hok. cbn [field_ok] in Hok. rewrite Hm1 in Hok.
  assert (Hpop : forall c, serves sc c -> 0 <= c < TC_CLASSES -> (exists k, at_ tc c = Some k /\ tc_n k <> 0) ->
    exists r h', (k ← get_class tc c; put_class self tc c (TcClass (tc_n k - 1) (tc_slot k));; s ← try (fun _ => at_ (tc_slot k) (tc_n k - 1)); mret (Some s)) h1 = Some (r, h') /\
      heap_ok h' /\ h_meta h' = h_meta h /\ h_active h' = h_active h /\ cached h ≡ₚ option_list r ++ cached h' /\ (forall s, r = Some s -> exists c, serves sc c /\ of_class (h_meta h) c s)).
  { intros c Hs Hc (k & Hk & Hn). destruct (proj2 Hok c k Hk) as [Hk' Hof]. destruct (class_pop k Hk' Hn) as (s & Hs' & Hk2 & Hlive). rewrite Hlive in Hof. apply Forall_app in Hof as [Hof1 Hof2].
    destruct (put_class_ok h1 self tc c k (TcClass (tc_n k - 1) (tc_slot k)) Hh1 Htc Hk Hk2) as (h' & E & Hh' & Hm' & Ha' & Hp); [by rewrite Hm1|].
    unfold mbind, M_bind. rewrite (get_class_eq _ _ _ h1 Hk), E. unfold try. rewrite Hs'. cbn [fmap option_fmap option_map]. eexists _, _. split; [reflexivity|]. split_and!; auto; [congruence|congruence| |].
    - rewrite Hlive in Hp. change (option_list (Some s)) with [s]. perm.
    - intros ? [= <-]. exists c. split; [done|]. by inversion_clear Hof2. }
  destruct (tc_class_at _ tc sc Hok ltac:(lia)) as (k & Hk & _). unfold mbind at 1, M_bind at 1. rewrite (get_class_eq _ _ _ h1 Hk). destruct (Z.eqb_spec (tc_n k) 0) as [Hz|Hz]; cbn [negb].
  2: { apply (Hpop sc); [by left|lia|eauto]. }
  destruct (_ || _) eqn:Eb; [done|]. boolean. unfold has in *. boolean. assert (0 <= Z.lor sc 1) by (apply Z.lor_nonneg; lia).
  destruct (tc_class_at _ tc (Z.lor sc 1) Hok ltac:(lia)) as (k' & Hk' & _). unfold mbind at 1, M_bind at 1. unfold mbind at 1, M_bind at 1. rewrite (get_class_eq _ _ _ h1 Hk').
  destruct (Z.eqb_spec (tc_n k') 0) as [Hz'|Hz']; [done|]. apply (Hpop (Z.lor sc 1)); [right; split_and!; done|lia|eauto].
Qed.

(** A slot is available in its group, or in neither mask of it. *)
Definition avail (mt : gmap Z meta) (s : slot) : Prop := exists m, mt !! s.1 = Some m /\ Z.testbit (avail_mask m) s.2 = true.
Definition out (mt : gmap Z meta) (s : slot) : Prop := exists m, mt !! s.1 = Some m /\ out_of m s.2.

Lemma avail_not_out mt s : avail mt s -> out mt s -> False.
Proof. intros (m & Hm & Ha) (m' & Hm' & _ & Hb & _). congruence. Qed.

Lemma field_mono mt mt' f : (forall c s, s ∈ cached_field f -> of_class mt c s -> of_class mt' c s) -> field_ok mt f -> field_ok mt' f.
Proof.
  intros Hmono. destruct f as [| | |tc]; try done. intros [Hl Ht]. split; [done|]. intros c k Hk. destruct (Ht c k Hk) as [Hk' Hof]. split; [done|].
  rewrite Forall_forall in Hof |- *. intros s Hs. apply Hmono; [|by apply Hof]. cbn [cached_field]. unfold cached_tc. apply list_elem_of_In, in_flat_map.
  exists k. split; apply list_elem_of_In; [|done]. apply at_lookup in Hk. by eapply list_elem_of_lookup_2.
Qed.

(** A group's masks change, its class does not. *)
Definition with_meta (h : mheap) (g : Z) (m : meta) : mheap := Mheap (<[g := m]> (h_meta h)) (h_active h) (h_tc h).

Lemma heap_with_meta h g m m' : heap_ok h -> h_meta h !! g = Some m -> meta_ok m' -> sizeclass m' = sizeclass m -> heap_ok (with_meta h g m').
Proof.
  intros [H1 H2 H3] Hm Hm' Hs. constructor; cbn [h_meta h_active h_tc with_meta].
  - intros g0 m0. destruct (decide (g0 = g)) as [->|Hne]; [rewrite lookup_insert_eq; by intros [= <-]|rewrite lookup_insert_ne by done; apply H1].
  - intros sc g0 Hg. destruct (H2 sc g0 Hg) as (m0 & Hm0 & Hs0). destruct (decide (g0 = g)) as [->|Hne]; [|rewrite lookup_insert_ne by done; eauto].
    exists m'. rewrite lookup_insert_eq. split; [done|]. congruence.
  - eapply Forall_impl; [exact H3|]. intros f. apply field_mono. intros c s _ (m0 & Hm0 & Hs0). destruct (decide (s.1 = g)) as [<- |Hne]; [|exists m0; by rewrite lookup_insert_ne].
    exists m'. rewrite lookup_insert_eq. split; [done|]. congruence.
Qed.

Lemma out_with_meta mt g m m' s : mt !! g = Some m -> last_idx m' = last_idx m ->
  (s.1 = g -> Z.testbit (avail_mask m') s.2 || Z.testbit (freed_mask m') s.2 = true -> Z.testbit (avail_mask m) s.2 || Z.testbit (freed_mask m) s.2 = true) ->
  out mt s -> out (<[g := m']> mt) s.
Proof.
  intros Hm Hl Hb (m0 & Hm0 & Hr & H1 & H2). destruct (decide (s.1 = g)) as [<- |Hne]; [|exists m0; rewrite lookup_insert_ne by done; by split_and!].
  replace m0 with m in * by congruence. exists m'. rewrite lookup_insert_eq. split; [done|]. specialize (Hb eq_refl). rewrite H1, H2 in Hb. split; [lia|].
  destruct (Z.testbit (avail_mask m') s.2), (Z.testbit (freed_mask m') s.2); try done; by specialize (Hb eq_refl).
Qed.

Definition fewer (m : meta) (mask : Z) : meta := Meta mask (freed_mask m) (last_idx m) (sizeclass m).

Lemma fewer_ok m mask : meta_ok m -> 0 <= mask <= avail_mask m -> (forall j, Z.testbit mask j = true -> Z.testbit (avail_mask m) j = true) -> meta_ok (fewer m mask).
Proof. intros [H1 H2 H3 H4 H5] Hm Hs. constructor; cbn [fewer avail_mask freed_mask last_idx sizeclass]; auto; lia. Qed.

Lemma put_avail_eq h g m mask : h_meta h !! g = Some m -> put_avail g mask h = Some ((), with_meta h g (fewer m mask)).
Proof. unfold put_avail, put_try. by intros ->. Qed.
Lemma get_meta_eq h g m : h_meta h !! g = Some m -> get_meta g h = Some (m, h).
Proof. unfold get_meta, try. by intros ->. Qed.

(** Slots that are available become the thread's. *)
Lemma fill_ok self sc h f : heap_ok h -> at_ (h_tc h) self = Some f -> 0 <= sc -> exists h' l, malloc_tc_fill self sc h = Some ((), h') /\
  heap_ok h' /\ cached h' ≡ₚ l ++ cached h /\ NoDup l /\ (forall s, s ∈ l -> avail (h_meta h) s /\ out (h_meta h') s) /\ (forall s, out (h_meta h) s -> out (h_meta h') s).
Proof.
  intros Hh Hf Hsc. assert (Hnone : exists h' l, Some ((), h) = Some ((), h') /\ heap_ok h' /\ cached h' ≡ₚ l ++ cached h /\ NoDup l /\
    (forall s, s ∈ l -> avail (h_meta h) s /\ out (h_meta h') s) /\ (forall s, out (h_meta h) s -> out (h_meta h') s)).
  { exists h, []. split_and!; auto; [constructor|]. by intros s ?%not_elem_of_nil. }
  unfold malloc_tc_fill. destruct (Z.leb_spec TC_CLASSES sc) as [|Hlt]; [done|]. unfold mbind, M_bind. rewrite (get_field_eq _ _ _ Hf). pose proof (heap_field _ _ _ Hh Hf) as Hok.
  destruct f as [| | |tc]; cbn [held]; try done. cbn [field_ok] in Hok. unfold gets. change (id h) with h. destruct (h_active h !! sc) as [g|] eqn:Hg; [|done].
  destruct (hp_active h Hh sc g Hg) as (m & Hm & Hs). pose proof (hp_meta h Hh g m Hm) as Hmo. rewrite (get_meta_eq _ _ _ Hm).
  destruct (tc_class_at _ tc sc Hok ltac:(lia)) as (k & Hk & Hk' & Hof). rewrite (get_class_eq _ _ _ h Hk).
  destruct (fill_loop_ok g (S (Z.to_nat TC_BATCH)) (avail_mask m) k Hk' (mask_small m Hmo)) as (mask & k2 & l & E & Hk2 & Hlive & Hnd & Hall & Hsub & Hr).
  { destruct Hk'. unfold TC_BATCH. lia. }
  unfold try. rewrite E. cbn [fmap option_fmap option_map]. rewrite (put_avail_eq _ _ _ _ Hm).
  pose proof (heap_with_meta h g m (fewer m mask) Hh Hm (fewer_ok m mask Hmo Hr Hsub) eq_refl) as Hh1. set (h1 := with_meta h g (fewer m mask)) in *.
  assert (Hmono : forall s, of_class (h_meta h) sc s -> of_class (h_meta h1) sc s).
  { intros s (m0 & Hm0 & Hs0). cbn [h1 h_meta with_meta]. destruct (decide (s.1 = g)) as [Eg|Hne]; [|exists m0; by rewrite lookup_insert_ne]. exists (fewer m mask). by rewrite Eg, lookup_insert_eq. }
  rewrite Forall_forall in Hall. destruct (put_class_ok h1 self tc sc k k2 Hh1 Hf Hk Hk2) as (h' & E' & Hh' & Hm' & Ha' & Hp).
  { rewrite Hlive. apply Forall_app. split; [by eapply Forall_impl; [exact Hof|]|]. apply Forall_forall. intros s Hin. destruct (Hall s Hin) as (H1 & _). apply Hmono. exists m. by rewrite H1. }
  cbn [fst snd]. exists h', l. split; [exact E'|]. split; [done|]. split; [|split; [done|split]].
  - rewrite Hlive in Hp. change (cached h1) with (cached h) in Hp. perm.
  - intros s Hin. destruct (Hall s Hin) as (H1 & H2 & H3 & H4). split; [exists m; by rewrite H1|]. rewrite Hm'. cbn [h1 h_meta with_meta]. exists (fewer m mask). rewrite H1, lookup_insert_eq. split; [done|].
    split; [|split; [done|by apply (mt_apart _ Hmo)]]. pose proof (bit_index _ _ _ (mt_avail _ Hmo) H3). cbn [fewer last_idx]. lia.
  - intros s. rewrite Hm'. cbn [h1 h_meta with_meta]. apply (out_with_meta _ g m); [done|done|]. cbn [fewer avail_mask freed_mask]. intros _. destruct (Z.testbit mask s.2) eqn:Eb; [by rewrite (Hsub _ Eb)|]. cbn. intros ->. by rewrite orb_true_r.
Qed.

(** A slot freed is kept, or the caller gives it back. *)
Lemma give_ok self s m h f : heap_ok h -> at_ (h_tc h) self = Some f -> h_meta h !! s.1 = Some m -> exists b h', malloc_tc_give self s h = Some (b, h') /\
  heap_ok h' /\ h_meta h' = h_meta h /\ h_active h' = h_active h /\ cached h' ≡ₚ (if b then [s] else []) ++ cached h.
Proof.
  intros Hh Hf Hm. pose proof (hp_meta h Hh _ m Hm) as Hmo. unfold malloc_tc_give, mbind, M_bind. rewrite (get_meta_eq _ _ _ Hm). destruct (_ || _) eqn:Eb; [by exists false, h|]. boolean.
  rewrite (get_field_eq _ _ _ Hf). pose proof (heap_field _ _ _ Hh Hf) as Hok. destruct f as [| | |tc]; cbn [held]; try by exists false, h. cbn [field_ok] in Hok.
  pose proof (mt_class _ Hmo) as Hc. destruct (tc_class_at _ tc (sizeclass m) Hok ltac:(lia)) as (k & Hk & Hk' & Hof). rewrite (get_class_eq _ _ _ h Hk).
  destruct (Z.leb_spec TC_MAX (tc_n k)) as [|Hn]; [by exists false, h|]. destruct (class_push k s Hk' Hn) as (l & El & Hk2 & Hlive). unfold try. rewrite El. cbn [fmap option_fmap option_map].
  destruct (put_class_ok h self tc (sizeclass m) k _ Hh Hf Hk Hk2) as (h' & E' & Hh' & Hm' & Ha' & Hp).
  { rewrite Hlive. apply Forall_app. split; [done|]. constructor; [by exists m|constructor]. }
  rewrite E'. exists true, h'. split_and!; auto. rewrite Hlive in Hp. perm.
Qed.

Lemma pop_class_ok l n : (n <= length l)%nat -> pop_class n l = Some (rev (take n l)).
Proof.
  induction n as [|n IH]; intros Hn; [done|]. cbn [pop_class]. destruct (lookup_lt_is_Some_2 l n) as [s Hs]; [lia|]. rewrite Hs. cbn [mbind option_bind]. rewrite IH by lia.
  cbn [mbind option_bind]. by rewrite (take_S_r _ _ _ Hs), rev_app_distr.
Qed.

Lemma pop_classes_ok tc : Forall class_ok tc -> exists l, pop_classes tc = Some l /\ l ≡ₚ cached_tc tc.
Proof.
  induction 1 as [|k tc [Hn Hl] _ (l & IH & Hp)]; [by exists []|]. cbn [pop_classes]. rewrite pop_class_ok by lia. cbn [mbind option_bind]. rewrite IH. cbn [mbind option_bind].
  eexists. split; [done|]. cbn [cached_tc flat_map]. unfold cached_tc in Hp. rewrite Hp. apply Permutation_app_tail. by rewrite <-Permutation_rev.
Qed.

(** Everything the thread kept goes back, and it keeps nothing more. *)
Lemma flush_ok self h f : heap_ok h -> at_ (h_tc h) self = Some f -> exists l h', malloc_tc_flush self h = Some (l, h') /\
  heap_ok h' /\ h_meta h' = h_meta h /\ h_active h' = h_active h /\ cached h ≡ₚ l ++ cached h' /\ l ≡ₚ cached_field f /\ at_ (h_tc h') self = Some TC_OFF.
Proof.
  intros Hh Hf. destruct (put_field_ok h self f TC_OFF Hh Hf I) as (E & Hh' & Hf' & Hp). unfold malloc_tc_flush, mbind, M_bind. rewrite (get_field_eq _ _ _ Hf), E. cbn [cached_field] in Hp. rewrite app_nil_r in Hp.
  pose proof (heap_field _ _ _ Hh Hf) as Hok. destruct f as [| | |tc]; cbn [held cached_field] in *.
  1-3: eexists [], _; split; [reflexivity|]; rewrite app_nil_r in Hp; by split_and!.
  destruct Hok as [_ Ht]. destruct (pop_classes_ok tc) as (l & El & Hl).
  { apply Forall_forall. intros k Hk. apply list_elem_of_lookup in Hk as [i Hi]. apply (Ht (Z.of_nat i) k). unfold at_. replace (0 <=? Z.of_nat i) with true by lia. by rewrite Nat2Z.id. }
  unfold try. rewrite El. cbn [fmap option_fmap option_map]. eexists l, _. split; [reflexivity|]. split_and!; auto. rewrite <-Hp, Hl. apply Permutation_app_comm.
Qed.
