(* ===== verification/MallocCacheTheorems.v ===== *)
(** No slot is two owners': over any interleaving of threads that allocate, free and end,
    with mallocng's own changes to its groups between them. *)
From S2P Require Import Prelude Kal MallocCache MallocCacheOk.
From stdpp Require Import base list option gmap relations.
From Stdlib Require Import ZArith Lia.

#[local] Open Scope Z_scope.

(** ** mallocng's side *)

Lemma malloc_active_ok sc h : heap_ok h -> exists r h', malloc_active sc h = Some (r, h') /\ heap_ok h' /\ h_tc h' = h_tc h /\
  (forall s, r = Some s -> avail (h_meta h) s /\ out (h_meta h') s) /\ (forall s, out (h_meta h) s -> out (h_meta h') s).
Proof.
  intros Hh. unfold malloc_active, mbind, M_bind, gets. change (id h) with h. destruct (h_active h !! sc) as [g|] eqn:Hg; [|by exists None, h].
  destruct (hp_active h Hh sc g Hg) as (m & Hm & Hs). pose proof (hp_meta h Hh g m Hm) as Hmo. rewrite (get_meta_eq _ _ _ Hm). cbn zeta.
  destruct (first_bit _ (mask_small m Hmo)) as [[Hz ->]|(Hz & Hf & Hc & Hb)]; [by exists None, h|]. rewrite Hf in *. pose proof (ctz_nonneg (avail_mask m)) as Hi. pose proof (ctz_le (avail_mask m)) as Hle.
  pose proof (mt_avail m Hmo) as Hav. assert (0 < 2 ^ ctz (avail_mask m)) by (apply Z.pow_pos_nonneg; lia). replace (2 ^ ctz (avail_mask m) =? 0) with false by lia.
  pose proof (clear_bit _ _ Hi Hb) as Hclr. rewrite (put_avail_eq _ _ _ _ Hm), Hc. set (i := ctz (avail_mask m)) in *. set (mask := avail_mask m - 2 ^ i) in *.
  assert (Hsub : forall j, Z.testbit mask j = true -> Z.testbit (avail_mask m) j = true) by (intros j; rewrite Hclr; by intros [? _]%andb_true_iff).
  eexists _, _. split; [reflexivity|]. split; [apply (heap_with_meta h g m); [done|done|apply fewer_ok; [done|lia|done]|done]|]. split; [done|]. cbn [h_meta with_meta]. split.
  - intros s [= <-]. split; [by exists m|]. exists (fewer m mask). cbn [fst]. rewrite lookup_insert_eq. split; [done|]. cbn [snd]. split; [pose proof (bit_index _ _ _ Hav Hb); cbn [fewer last_idx]; lia|].
    split; [|by apply (mt_apart _ Hmo)]. cbn [fewer avail_mask]. by rewrite Hclr, Z.eqb_refl, andb_false_r.
  - intros s. apply (out_with_meta _ g m); [done|done|]. cbn [fewer avail_mask freed_mask]. intros _. destruct (Z.testbit mask s.2) eqn:Eb; [by rewrite (Hsub _ Eb)|]. cbn. intros ->. by rewrite orb_true_r.
Qed.

Lemma bit_bits i j : 0 <= i -> Z.testbit (bit i) j = (j =? i).
Proof.
  intros Hi. unfold bit. rewrite Z.shiftl_1_l. destruct (Z.lt_ge_cases j 0) as [Hj|Hj]; [rewrite Z.testbit_neg_r by done; lia|]. rewrite Z.pow2_bits_eqb by done. apply Z.eqb_sym.
Qed.

Lemma all_slots_bits m j : 0 <= last_idx m -> Z.testbit (all_slots m) j = (0 <=? j) && (j <=? last_idx m).
Proof.
  intros Hl. unfold all_slots. rewrite Z.shiftl_mul_pow2, <-Z.pow_succ_r by done. rewrite Z.sub_1_r, <-Z.ones_equiv. destruct (Z.lt_ge_cases j 0) as [Hj|Hj]; [rewrite Z.testbit_neg_r by done; lia|].
  rewrite Z.testbit_ones_nonneg by lia. lia.
Qed.

(** All of a group's slots are in its masks with [i] among them: no other is out. *)
Lemma all_free m i j : meta_ok m -> out_of m i -> wrap32 (Z.lor (freed_mask m) (avail_mask m) + bit i) = wrap32 (all_slots m) -> out_of m j -> j = i.
Proof.
  intros Hm (Hi & Ha & Hf) E (Hj & Ja & Jf). pose proof (mt_last m Hm) as Hl. assert (Hb : 0 <= Z.lor (freed_mask m) (avail_mask m)) by (apply Z.lor_nonneg; pose proof (mt_freed m Hm); pose proof (mt_avail m Hm); lia).
  rewrite Z.add_nocarry_lxor in E.
  2: { apply Z.bits_inj'. intros n Hn. rewrite Z.land_spec, Z.lor_spec, bit_bits, Z.bits_0 by lia. destruct (Z.eqb_spec n i) as [->|]; [by rewrite Ha, Hf|apply andb_false_r]. }
  assert (Hbit : Z.testbit (wrap32 (Z.lxor (Z.lor (freed_mask m) (avail_mask m)) (bit i))) j = Z.testbit (wrap32 (all_slots m)) j) by by rewrite E.
  unfold wrap32 in Hbit. rewrite !Z.mod_pow2_bits_low in Hbit by lia. rewrite Z.lxor_spec, Z.lor_spec, bit_bits, all_slots_bits, Ja, Jf in Hbit by lia. cbn in Hbit. destruct (Z.eqb_spec j i); [done|]. cbn in Hbit. lia.
Qed.

Lemma freed_ok m i : meta_ok m -> out_of m i -> meta_ok (Meta (avail_mask m) (Z.lor (freed_mask m) (bit i)) (last_idx m) (sizeclass m)).
Proof.
  intros [H1 H2 H3 H4 H5] (Hi & Ha & Hf). constructor; cbn [avail_mask freed_mask last_idx sizeclass]; auto.
  - assert (0 <= Z.lor (freed_mask m) (bit i)). { apply Z.lor_nonneg. split; [lia|]. unfold bit. apply Z.shiftl_nonneg. lia. } split; [done|]. apply mask_bound; [lia|done|].
    intros j. rewrite Z.lor_spec, bit_bits by lia. intros [Hj|Hj]%orb_true_iff; [apply (bit_index _ _ _ H4) in Hj; lia|lia].
  - intros j Hj. rewrite Z.lor_spec, (H5 j Hj), bit_bits by lia. cbn. destruct (Z.eqb_spec j i) as [->|]; [congruence|done].
Qed.

(** A slot goes back. A group is given up only where none of its slots is anybody's. *)
Lemma slot_release_ok drop s h : heap_ok h -> out (h_meta h) s -> (forall s', s' ∈ cached h -> s' <> s /\ out (h_meta h) s') -> exists h', release_slot drop s h = Some ((), h') /\
  heap_ok h' /\ h_tc h' = h_tc h /\ (forall s', s' <> s -> out (h_meta h) s' -> out (h_meta h') s').
Proof.
  intros Hh (m & Hm & Hout) Hcached. pose proof (hp_meta h Hh _ m Hm) as Hmo. unfold release_slot, mbind, M_bind. rewrite (get_meta_eq _ _ _ Hm).
  destruct (_ && drop) eqn:Eb; (eexists; split; [reflexivity|]).
  - boolean. assert (Hother : forall s', s' <> s -> out (h_meta h) s' -> s'.1 <> s.1).
    { intros s' Hne (m' & Hm' & Ho) Eg. rewrite Eg, Hm in Hm'. injection Hm' as <-. apply Hne. apply (all_free m s.2 s'.2) in Ho; [|done|done|done]. destruct s, s'. cbn in *. congruence. }
    split; [|split; [done|]].
    + destruct Hh as [H1 H2 H3]. constructor; cbn [h_meta h_active h_tc].
      * intros g m' [_ Hg]%lookup_delete_Some. by apply (H1 g).
      * intros sc g [Ha Hg]%map_lookup_filter_Some. destruct (H2 sc g Ha) as (m' & Hm' & Hs). exists m'. cbn in Hg. by rewrite lookup_delete_ne.
      * rewrite Forall_forall in H3 |- *. intros f Hf. apply (field_mono (h_meta h)); [|by apply H3]. intros c s' Hs' (m' & Hm' & Hc). exists m'. split; [|done].
        assert (Hin : s' ∈ cached h) by (apply list_elem_of_In, in_flat_map; exists f; split; by apply list_elem_of_In). rewrite lookup_delete_ne; [done|]. destruct (Hcached s' Hin) as [Hne Ho]. by apply not_eq_sym, Hother.
    + intros s' Hne Ho. pose proof (Hother s' Hne Ho) as Hg. destruct Ho as (m' & Hm' & Ho). exists m'. cbn [h_meta]. by rewrite lookup_delete_ne.
  - split; [by apply (heap_with_meta h s.1 m); [| |apply freed_ok|]|]. split; [done|]. intros s' Hne. cbn [h_meta]. apply (out_with_meta _ s.1 m); [done|done|]. cbn [avail_mask freed_mask].
    intros Eg. destruct Hout as (Hi & _). rewrite Z.lor_spec, bit_bits by lia. destruct (Z.eqb_spec s'.2 s.2) as [E2|]; [|by rewrite orb_false_r]. exfalso. apply Hne. destruct s, s'. cbn in *. congruence.
Qed.

Lemma activate_ok idx g m h : heap_ok h -> h_meta h !! g = Some m -> 0 <= idx -> exists h', activate_group idx g h = Some ((), h') /\
  heap_ok h' /\ h_tc h' = h_tc h /\ (forall s, out (h_meta h) s -> out (h_meta h') s).
Proof.
  intros Hh Hm Hi. pose proof (hp_meta h Hh _ m Hm) as Hmo. unfold activate_group, mbind, M_bind. rewrite (get_meta_eq _ _ _ Hm). set (act := Z.shiftl 2 idx - 1). eexists. split; [reflexivity|].
  destruct Hmo as [H1 H2 H3 H4 H5]. assert (Hsub : forall x, (forall j, Z.testbit x j = true -> Z.testbit (freed_mask m) j = true) -> 0 <= x -> 0 <= x < 2 ^ (last_idx m + 1)).
  { intros x Hx H0. split; [done|]. apply mask_bound; [lia|done|]. intros j Hj%Hx. apply (bit_index _ _ _ H4) in Hj. lia. }
  split; [|split; [done|]].
  - apply (heap_with_meta h g m); [done|done| |done]. constructor; cbn [avail_mask freed_mask last_idx sizeclass]; auto.
    + apply Hsub; [intros j; rewrite Z.land_spec; by intros [? _]%andb_true_iff|apply Z.land_nonneg; left; lia].
    + apply Hsub; [intros j; rewrite Z.land_spec; by intros [? _]%andb_true_iff|apply Z.land_nonneg; left; lia].
    + intros j. rewrite !Z.land_spec. intros [Hj Ha]%andb_true_iff. rewrite Z.lnot_spec, Ha; [apply andb_false_r|]. apply (bit_index _ _ _ H4) in Hj. lia.
  - intros s. cbn [h_meta]. apply (out_with_meta _ g m); [done|done|]. cbn [avail_mask freed_mask]. intros _. rewrite !Z.land_spec. destruct (Z.testbit (freed_mask m) s.2); [by rewrite orb_true_r|done].
Qed.

(** ** The threads at once *)

(** The heap; the slots a caller of malloc has, mallocng for a group within a slot among
    them; and those handed to mallocng, which has not put them in a mask yet. *)
Record heap_world := HeapWorld { hw_heap : mheap; hw_use : list slot; hw_back : list slot }.

Definition heap_start : heap_world := HeapWorld (Mheap ∅ ∅ [TC_NONE]) [] [].

(** What a thread does, and what mallocng does of its own. *)
Inductive heap_step : heap_world -> heap_world -> Prop :=
(** malloc, of the cache; *)
| T_take self f mapped sc r h h' u b : at_ (h_tc h) self = Some f -> 0 <= sc -> malloc_tc_take self mapped sc h = Some (r, h') -> heap_step (HeapWorld h u b) (HeapWorld h' (option_list r ++ u) b)
(** of the active group, and the slots kept beside it; *)
| T_active sc r h h' u b : malloc_active sc h = Some (r, h') -> heap_step (HeapWorld h u b) (HeapWorld h' (option_list r ++ u) b)
| T_fill self f sc h h' u b : at_ (h_tc h) self = Some f -> 0 <= sc -> malloc_tc_fill self sc h = Some ((), h') -> heap_step (HeapWorld h u b) (HeapWorld h' u b)
(** free; *)
| T_give self f s kept h h' u u' b : at_ (h_tc h) self = Some f -> u ≡ₚ s :: u' -> malloc_tc_give self s h = Some (kept, h') -> heap_step (HeapWorld h u b) (HeapWorld h' u' (if kept then b else s :: b))
(** the end of a thread, and a new one; *)
| T_flush self f l h h' u b : at_ (h_tc h) self = Some f -> malloc_tc_flush self h = Some (l, h') -> heap_step (HeapWorld h u b) (HeapWorld h' u (l ++ b))
| T_thread h u b : heap_step (HeapWorld h u b) (HeapWorld (Mheap (h_meta h) (h_active h) (h_tc h ++ [TC_NONE])) u b)
(** a group is made, its first slot being for the caller; *)
| N_group g m h u b : h_meta h !! g = None -> meta_ok m -> out_of m 0 -> heap_step (HeapWorld h u b) (HeapWorld (with_meta h g m) ((g, 0) :: u) b)
(** a slot within which a group was is given back, one handed over is put in a mask; *)
| N_return s h u u' b : u ≡ₚ s :: u' -> heap_step (HeapWorld h u b) (HeapWorld h u' (s :: b))
| N_release drop s h h' u b b' : b ≡ₚ s :: b' -> release_slot drop s h = Some ((), h') -> heap_step (HeapWorld h u b) (HeapWorld h' u b')
(** freed slots become available, another group becomes the active one. *)
| N_activate idx g m h h' u b : h_meta h !! g = Some m -> avail_mask m = 0 -> 0 <= idx -> activate_group idx g h = Some ((), h') -> heap_step (HeapWorld h u b) (HeapWorld h' u b)
| N_next sc g m h u b : h_meta h !! g = Some m -> sizeclass m = sc -> heap_step (HeapWorld h u b) (HeapWorld (Mheap (h_meta h) (<[sc := g]> (h_active h)) (h_tc h)) u b)
| N_none sc h u b : heap_step (HeapWorld h u b) (HeapWorld (Mheap (h_meta h) (delete sc (h_active h)) (h_tc h)) u b).

(** Every slot that is somebody's. *)
Definition owners (w : heap_world) : list slot := cached (hw_heap w) ++ hw_use w ++ hw_back w.

Record slots_exclusive (w : heap_world) : Prop := {
  sx_heap : heap_ok (hw_heap w);
  sx_once : NoDup (owners w);
  sx_out : forall s, s ∈ owners w -> out (h_meta (hw_heap w)) s;
}.

(** The owners change places. *)
Lemma exclusive_perm w w' : slots_exclusive w -> heap_ok (hw_heap w') -> owners w' ≡ₚ owners w -> (forall s, out (h_meta (hw_heap w)) s -> out (h_meta (hw_heap w')) s) -> slots_exclusive w'.
Proof. intros [H1 H2 H3] Hh Hp Ho. constructor; [done|by rewrite Hp|]. intros s. rewrite Hp. intros Hs. by apply Ho, H3. Qed.

(** Slots that are nobody's become somebody's. *)
Lemma exclusive_grow w w' l : slots_exclusive w -> heap_ok (hw_heap w') -> owners w' ≡ₚ l ++ owners w -> NoDup l ->
  (forall s, s ∈ l -> ~ out (h_meta (hw_heap w)) s /\ out (h_meta (hw_heap w')) s) -> (forall s, out (h_meta (hw_heap w)) s -> out (h_meta (hw_heap w')) s) -> slots_exclusive w'.
Proof.
  intros [H1 H2 H3] Hh Hp Hnd Hl Ho. constructor; [done| |].
  - rewrite Hp. apply NoDup_app. split_and!; auto. intros s Hs Hs'. by apply (Hl s Hs), H3.
  - intros s. rewrite Hp. intros [Hs|Hs]%elem_of_app; [by apply Hl|by apply Ho, H3].
Qed.

(** A group that was not there. *)
Lemma heap_new_group h g m : heap_ok h -> h_meta h !! g = None -> meta_ok m -> heap_ok (with_meta h g m).
Proof.
  intros [H1 H2 H3] Hg Hm. assert (Hmono : forall c s, of_class (h_meta h) c s -> of_class (<[g := m]> (h_meta h)) c s).
  { intros c s (m0 & Hm0 & Hc). exists m0. rewrite lookup_insert_ne; [done|congruence]. }
  constructor; cbn [h_meta h_active h_tc with_meta].
  - intros g0 m0 [[<- <-]|[_ Hg0]]%lookup_insert_Some; [done|by apply (H1 g0)].
  - intros sc g0 Hg0. destruct (H2 sc g0 Hg0) as (m0 & Hm0 & Hc). exists m0. rewrite lookup_insert_ne; [done|congruence].
  - eapply Forall_impl; [exact H3|]. intros f. apply field_mono. intros c s _. apply Hmono.
Qed.

Lemma heap_actives h a : heap_ok h -> (forall sc g, a !! sc = Some g -> exists m, h_meta h !! g = Some m /\ sizeclass m = sc) -> heap_ok (Mheap (h_meta h) a (h_tc h)).
Proof. intros [H1 _ H3] Ha. by constructor. Qed.

(** A slot that was handed over is put away. *)
Lemma exclusive_release drop s h h' u b b' : slots_exclusive (HeapWorld h u b) -> b ≡ₚ s :: b' -> release_slot drop s h = Some ((), h') -> slots_exclusive (HeapWorld h' u b').
Proof.
  intros [Hh Hnd Ho] Hb E. unfold owners in *. cbn [hw_heap hw_use hw_back] in *. assert (Hp : cached h ++ u ++ b ≡ₚ s :: (cached h ++ u ++ b')) by perm.
  rewrite Hp in Hnd. apply NoDup_cons in Hnd as [Hns Hnd]. assert (Hout : forall s', s' ∈ cached h ++ u ++ b' -> s' <> s /\ out (h_meta h) s').
  { intros s' Hs'. split; [by intros ->|]. apply Ho. rewrite Hp. by right. }
  destruct (slot_release_ok drop s h Hh) as (h'' & E' & Hh' & Ht & Hkeep); [apply Ho; rewrite Hp; by left|intros s' Hs'; apply Hout, elem_of_app; by left|]. simplify_eq.
  assert (Hc : cached h' = cached h) by (unfold cached; by rewrite Ht). constructor; unfold owners; cbn [hw_heap hw_use hw_back]; rewrite ?Hc; [done|done|].
  intros s' Hs'. destruct (Hout s' Hs'). by apply Hkeep.
Qed.

Lemma heap_step_ok w w' : slots_exclusive w -> heap_step w w' -> slots_exclusive w'.
Proof.
  intros Hw Hs. pose proof Hw as [Hh Hnd Ho]. destruct Hs as [self f mapped sc r h h' u b Hf Hsc E|sc r h h' u b E|self f sc h h' u b Hf Hsc E|self f s kept h h' u u' b Hf Hu E|self f l h h' u b Hf E|h u b
    |g m h u b Hg Hm H0|s h u u' b Hu|drop s h h' u b b' Hb E|idx g m h h' u b Hg Ha Hi E|sc g m h u b Hg Hs|sc h u b]; unfold owners in *; cbn [hw_heap hw_use hw_back] in *.
  - destruct (take_ok self mapped sc h f Hh Hf Hsc) as (r' & h'' & E' & Hh' & Hm & _ & Hp & _). simplify_eq. apply (exclusive_perm _ _ Hw); unfold owners; cbn [hw_heap hw_use hw_back]; [done|perm|by rewrite Hm].
  - destruct (malloc_active_ok sc h Hh) as (r' & h'' & E' & Hh' & Ht & Hr & Hout). simplify_eq. apply (exclusive_grow _ _ (option_list r) Hw); unfold owners; cbn [hw_heap hw_use hw_back]; [done| | | |done].
    + unfold cached. rewrite Ht. perm.
    + destruct r; cbn; [apply NoDup_singleton|constructor].
    + intros s Hs. destruct r as [s'|]; [|by apply not_elem_of_nil in Hs]. apply list_elem_of_singleton in Hs as ->. destruct (Hr s' eq_refl) as [Hav Hou]. split; [by intros ?%(avail_not_out _ _ Hav)|done].
  - destruct (fill_ok self sc h f Hh Hf Hsc) as (h'' & l & E' & Hh' & Hp & Hndl & Hl & Hout). simplify_eq. apply (exclusive_grow _ _ l Hw); unfold owners; cbn [hw_heap hw_use hw_back]; [done|perm|done| |done].
    intros s Hs. destruct (Hl s Hs) as [Hav Hou]. split; [by intros ?%(avail_not_out _ _ Hav)|done].
  - destruct (Ho s) as (m & Hm & _); [rewrite Hu; set_solver|]. destruct (give_ok self s m h f Hh Hf Hm) as (k & h'' & E' & Hh' & Hmm & _ & Hp). simplify_eq.
    apply (exclusive_perm _ _ Hw); unfold owners; cbn [hw_heap hw_use hw_back]; [done|destruct kept; perm|by rewrite Hmm].
  - destruct (flush_ok self h f Hh Hf) as (l' & h'' & E' & Hh' & Hm & _ & Hp & _). simplify_eq. apply (exclusive_perm _ _ Hw); unfold owners; cbn [hw_heap hw_use hw_back]; [done|perm|by rewrite Hm].
  - apply (exclusive_perm _ _ Hw); unfold owners; cbn [hw_heap hw_use hw_back]; [|unfold cached; cbn [h_tc]; by rewrite flat_map_app, app_nil_r|done].
    destruct Hh as [H1 H2 H3]. constructor; auto. cbn [h_tc h_meta]. apply Forall_app. split; [done|]. by constructor.
  - apply (exclusive_grow _ _ [(g, 0)] Hw); unfold owners; cbn [hw_heap hw_use hw_back].
    + by apply heap_new_group.
    + change (cached (with_meta h g m)) with (cached h). perm.
    + apply NoDup_singleton.
    + intros s ->%list_elem_of_singleton. split; [intros (m' & Hm' & _); cbn in Hm'; congruence|]. exists m. cbn [fst snd h_meta with_meta]. by rewrite lookup_insert_eq.
    + intros s (m' & Hm' & Hs). exists m'. cbn [h_meta with_meta]. rewrite lookup_insert_ne; [done|congruence].
  - apply (exclusive_perm _ _ Hw); unfold owners; cbn [hw_heap hw_use hw_back]; [done|perm|done].
  - by eapply exclusive_release.
  - destruct (activate_ok idx g m h Hh Hg Hi) as (h'' & E' & Hh' & Ht & Hout). simplify_eq. apply (exclusive_perm _ _ Hw); unfold owners; cbn [hw_heap hw_use hw_back]; [done|unfold cached; by rewrite Ht|done].
  - apply (exclusive_perm _ _ Hw); [|done|done]. apply heap_actives; [done|]. intros sc' g' [[<- <-]|[_ H]]%lookup_insert_Some; [eauto|by apply (hp_active h Hh)].
  - apply (exclusive_perm _ _ Hw); [|done|done]. apply heap_actives; [done|]. intros sc' g' [_ H]%lookup_delete_Some. by apply (hp_active h Hh).
Qed.

Lemma heap_start_ok : slots_exclusive heap_start.
Proof.
  constructor; [|constructor|by intros s ?%not_elem_of_nil]. constructor; cbn [heap_start hw_heap h_meta h_active h_tc]; [intros g m Hg; by rewrite lookup_empty in Hg|intros sc g Hg; by rewrite lookup_empty in Hg|by constructor].
Qed.

Lemma heap_steps_ok w : rtc heap_step heap_start w -> slots_exclusive w.
Proof. apply (rtc_ind_r slots_exclusive); [apply heap_start_ok|]. intros; by eapply heap_step_ok. Qed.

(** A cache holds at most what its arrays have room for. *)
Lemma cached_bound mt f : field_ok mt f -> Z.of_nat (length (cached_field f)) <= TC_CLASSES * TC_MAX.
Proof.
  destruct f as [| | |tc]; [done..|]. intros [Hl Ht]. cbn [cached_field]. rewrite <-Hl. unfold cached_tc.
  assert (Hall : Forall class_ok tc). { apply Forall_forall. intros k Hk. apply list_elem_of_lookup in Hk as [i Hi]. apply (Ht (Z.of_nat i) k). unfold at_. replace (0 <=? Z.of_nat i) with true by lia. by rewrite Nat2Z.id. }
  clear Hl Ht. induction Hall as [|k tc [Hn _] _ IH]; [done|]. cbn [flat_map]. rewrite length_app. unfold live_class at 1. rewrite length_take. cbn [length]. unfold TC_MAX in *. lia.
Qed.

(** C10. However the threads interleave, and whatever mallocng does to its groups between
    their steps, no slot of a group is two owners': a slot is in the cache of at most
    one thread, once, or a caller's, or on its way back to mallocng, and then its group
    is there and neither of its masks has it, so that the group is not given up beneath
    it. In any state so reached no operation of a cache leaves an array: malloc takes
    a slot nobody else has, of the class asked for or of the coarse class above an even
    one; free keeps a slot or hands it on; a thread that ends hands on all it kept and
    keeps nothing more; and a cache never holds more than its arrays have room for. *)
Theorem slots_never_shared w self f : rtc heap_step heap_start w -> at_ (h_tc (hw_heap w)) self = Some f ->
  NoDup (owners w) /\ (forall s, s ∈ owners w -> out (h_meta (hw_heap w)) s) /\
  (forall mapped sc, 0 <= sc -> exists r h', malloc_tc_take self mapped sc (hw_heap w) = Some (r, h') /\
     forall s, r = Some s -> (s ∉ (hw_use w ++ hw_back w)) /\ (s ∉ cached h') /\ exists c, serves sc c /\ of_class (h_meta (hw_heap w)) c s) /\
  (forall sc, 0 <= sc -> exists h', malloc_tc_fill self sc (hw_heap w) = Some ((), h')) /\
  (forall s, s ∈ hw_use w -> exists kept h', malloc_tc_give self s (hw_heap w) = Some (kept, h') /\ cached h' ≡ₚ (if kept then [s] else []) ++ cached (hw_heap w)) /\
  (exists l h', malloc_tc_flush self (hw_heap w) = Some (l, h') /\ l ≡ₚ cached_field f /\ at_ (h_tc h') self = Some TC_OFF) /\
  Z.of_nat (length (cached_field f)) <= TC_CLASSES * TC_MAX.
Proof.
  intros Hw%heap_steps_ok Hf. destruct Hw as [Hh Hnd Ho]. split; [done|]. split; [done|]. split; [|split; [|split; [|split]]].
  - intros mapped sc Hsc. destruct (take_ok self mapped sc _ f Hh Hf Hsc) as (r & h' & E & _ & _ & _ & Hp & Hr). exists r, h'. split; [done|]. intros s ->. change (option_list (Some s)) with [s] in Hp.
    unfold owners in Hnd. rewrite Hp, <-app_assoc in Hnd. apply NoDup_cons in Hnd as [Hns _]. split; [set_solver|]. split; [set_solver|by apply Hr].
  - intros sc Hsc. destruct (fill_ok self sc _ f Hh Hf Hsc) as (h' & _ & E & _). eauto.
  - intros s Hs. destruct (Ho s) as (m & Hm & _); [unfold owners; set_solver|]. destruct (give_ok self s m _ f Hh Hf Hm) as (b & h' & E & _ & _ & _ & Hp). eauto.
  - destruct (flush_ok self _ f Hh Hf) as (l & h' & E & _ & _ & _ & _ & Hl & Hoff). eauto.
  - by apply (cached_bound (h_meta (hw_heap w))), (heap_field _ self).
Qed.

(** A group of ten; the caller that made it, another slot of it, eight kept beside that,
    and one of them taken. *)
Definition ten : meta := Meta 0x3fe 0 9 3.

Lemma heap_run : exists w, rtc heap_step heap_start w /\ hw_use w = [(100, 9); (100, 1); (100, 0)] /\ length (cached (hw_heap w)) = 7%nat /\ is_Some (at_ (h_tc (hw_heap w)) 0).
Proof.
  eexists. split.
  - eapply rtc_l. { apply (T_take 0 TC_NONE true 3); [reflexivity|done|]. vm_compute. reflexivity. }
    eapply rtc_l. { apply (N_group 100 ten); [reflexivity|constructor; cbn; [lia|lia|lia|lia|intros; apply Z.bits_0]|split_and!; [cbn; lia|cbn; lia|reflexivity|reflexivity]]. }
    eapply rtc_l. { apply (N_next 3 100 ten); reflexivity. }
    eapply rtc_l. { eapply (T_active 3). vm_compute. reflexivity. }
    eapply rtc_l. { eapply (T_fill 0 _ 3); [reflexivity|done|]. vm_compute. reflexivity. }
    eapply rtc_l. { eapply (T_take 0 _ true 3); [reflexivity|done|]. vm_compute. reflexivity. }
    apply rtc_refl.
  - vm_compute. split_and!; [reflexivity..|]. eauto.
Qed.

Lemma slots_never_shared_witness : exists w, hw_use w = [(100, 9); (100, 1); (100, 0)] /\ NoDup (owners w).
Proof.
  destruct heap_run as (w & Hr & Hu & _ & f & Hf). exists w. split; [exact Hu|]. exact (proj1 (slots_never_shared w 0 f Hr Hf)).
Defined.
