(* ===== verification/Threads.v ===== *)
(** Threads over openkal's tasks (port/src/okm_thread.c): creating one, its entry, the
    records of those that have not been waited for, its end, the futex, the stack a thread
    is told it is on, and the check of a cancellation point. *)
From S2P Require Import Prelude Kal.
From stdpp Require Import base list option gmap.
From Stdlib Require Import ZArith Lia.

#[local] Open Scope Z_scope.

(** ** The futex *)

Definition ETIMEDOUT : Z := 110.
Definition FUTEX_WAIT : Z := 0.
Definition FUTEX_WAKE : Z := 1.
Definition FUTEX_REQUEUE : Z := 3.
Definition FUTEX_PRIVATE : Z := 128.
Definition FUTEX_CLOCK_REALTIME : Z := 256.

(** What is asked of the environment. *)
Inductive futex_ask := Ask_wait (addr val ns : Z) | Ask_wake (addr n : Z).

(** [t] is the fourth argument as it is passed and [ts] the timespec it points to, where
    it is one; [e] and [woken] are what the environment answers. *)
Definition okm_futex (addr op val t : Z) (ts : Z * Z) (e : kal_error) (woken : Z) : Z * option futex_ask :=
  let op := Z.land op (Z.lnot (Z.lor FUTEX_PRIVATE FUTEX_CLOCK_REALTIME)) in
  let wake n := (if bool_decide (e = kal_ok) then woken else - okm_errno e, Some (Ask_wake addr n)) in
  if op =? FUTEX_WAIT then
    let ns := if t =? 0 then 0 else wrap64 (wrap64 (wrap64 ts.1 * 1000000000) + wrap64 ts.2) in
    (if bool_decide (e = kal_ok) then 0 else if bool_decide (e = kal_err_again) then - ETIMEDOUT else - okm_errno e,
     Some (Ask_wait addr (wrap32 val) ns))
  else if op =? FUTEX_WAKE then wake (if val <? 0 then UINTPTR_MAX else val)
  else if op =? FUTEX_REQUEUE then
    let move := sext64 t in
    wake (if (val <? 0) || (move <? 0) then UINTPTR_MAX else wrap64 (val + move))
  else (- ENOSYS, None).

(** ** The records of threads *)

(** [t_ctid] is the address of the word its end clears, or zero; [t_task] openkal's
    handle of the context. *)
Record okm_thread := Thread { t_ctid : Z; t_tid : Z; t_task : Z; t_finished : bool }.

(** The records that are allocated, by address; those linked, the last first; the
    contexts started and those waited for. *)
Record threads := Threads {
  th_recs : gmap Z okm_thread;
  okm_done : list Z;
  g_tid : Z;
  th_started : list Z;
  th_joined : list Z;
}.

Definition with_recs (s : threads) (r : gmap Z okm_thread) : threads := Threads r (okm_done s) (g_tid s) (th_started s) (th_joined s).
Definition with_done (s : threads) (l : list Z) : threads := Threads (th_recs s) l (g_tid s) (th_started s) (th_joined s).

(** Where a context is within the call that creates another. Each is left in one step: a
    part of the code within the lock, or one call of openkal's. *)
Inductive clone_pc :=
| C_reap
| C_join (t : Z)
| C_free (t : Z)
| C_alloc
| C_number (t : Z)
| C_start (t : Z)
| C_link (t : Z)
| C_return (t : Z)
| C_done (r : Z).

(** The first record linked that has finished, and the others. A record that is not
    there cannot be read. *)
Fixpoint unlink_finished (r : gmap Z okm_thread) (l : list Z) : option (option Z * list Z) :=
  match l with
  | [] => Some (None, [])
  | t :: l' =>
      x ← r !! t;
      if t_finished x then Some (Some t, l')
      else '(o, k) ← unlink_finished r l'; Some (o, t :: k)
  end.

(** [ctid] is the caller's; [p] is kal_alloc's answer and [start] that of the start of a
    context, where they are asked. *)
Definition clone_step (ctid p : Z) (start : kal_error * Z) (pc : clone_pc) : M threads clone_pc :=
  match pc with
  | C_reap =>
      x ← try (fun s => unlink_finished (th_recs s) (okm_done s));
      modify (fun s => with_done s x.2);;
      mret (match x.1 with Some t => C_join t | None => C_alloc end)
  | C_join t =>
      x ← try (fun s => th_recs s !! t);
      modify (fun s => Threads (th_recs s) (okm_done s) (g_tid s) (th_started s) (t_task x :: th_joined s));;
      mret (C_free t)
  | C_free t =>
      _ ← try (fun s => th_recs s !! t);
      modify (fun s => with_recs s (delete t (th_recs s)));;
      mret C_reap
  | C_alloc =>
      if p =? 0 then mret (C_done (- EAGAIN))
      else modify (fun s => with_recs s (<[p := Thread ctid 0 0 false]> (th_recs s)));; mret (C_number p)
  | C_number t =>
      x ← try (fun s => th_recs s !! t);
      modify (fun s => Threads (<[t := Thread (t_ctid x) (g_tid s + 1) (t_task x) (t_finished x)]> (th_recs s)) (okm_done s) (g_tid s + 1) (th_started s) (th_joined s));;
      mret (C_start t)
  | C_start t =>
      x ← try (fun s => th_recs s !! t);
      if negb (bool_decide (start.1 = kal_ok)) then modify (fun s => with_recs s (delete t (th_recs s)));; mret (C_done (- EAGAIN))
      else
        modify (fun s => Threads (<[t := Thread (t_ctid x) (t_tid x) start.2 (t_finished x)]> (th_recs s)) (okm_done s) (g_tid s) (start.2 :: th_started s) (th_joined s));;
        mret (C_link t)
  | C_link t =>
      _ ← try (fun s => th_recs s !! t);
      modify (fun s => with_done s (t :: okm_done s));;
      mret (C_return t)
  | C_return t =>
      x ← try (fun s => th_recs s !! t);
      mret (C_done (t_tid x))
  | C_done r => mret (C_done r)
  end.

(** Where a context is within its entry. *)
Inductive entry_pc := E_self | E_run | E_clear | E_finish | E_release | E_over.

(** The word it clears and wakes one waiter of, where it does. *)
Definition entry_step (t : Z) (pc : entry_pc) : M threads (entry_pc * option Z) :=
  match pc with
  | E_self => _ ← try (fun s => th_recs s !! t); mret (E_run, None)
  | E_run => _ ← try (fun s => th_recs s !! t); mret (E_clear, None)
  | E_clear => x ← try (fun s => th_recs s !! t); mret (E_finish, if t_ctid x =? 0 then None else Some (t_ctid x))
  | E_finish =>
      x ← try (fun s => th_recs s !! t);
      modify (fun s => with_recs s (<[t := Thread (t_ctid x) (t_tid x) (t_task x) true]> (th_recs s)));;
      mret (E_release, None)
  | E_release => mret (E_over, None)
  | E_over => mret (E_over, None)
  end.

(** ** The end of a context *)

(** Where SYS_exit leads: back into the entry of the context's record, after the function
    it ran, or out of the program. *)
Inductive exit_to := Into_entry (t : Z) (pc : entry_pc) | Out_of_program (code : Z).

(** [self] is __okm_get_self's answer, null in the first context. *)
Definition okm_task_exit (self code : Z) : exit_to := if negb (self =? 0) then Into_entry self E_clear else Out_of_program code.

(** A detached context: the range it asks to be unmapped, and where it then goes. *)
Definition unmapself (self base size : Z) : Z * Z * exit_to := (base, size, okm_task_exit self 0).

Definition okm_current_tid (self : Z) : M threads Z := if negb (self =? 0) then x ← try (fun s => th_recs s !! self); mret (t_tid x) else mret 0.

(** ** The stack, as pthread_getattr_np says it *)

(** detach_state, in the order of musl's enumeration (pthread_impl.h). *)
Inductive detach_state := DT_EXITED | DT_EXITING | DT_JOINABLE | DT_DETACHED.

Record pthread_attr := PthreadAttr { _a_stacksize : Z; _a_guardsize : Z; _a_stackaddr : Z; _a_detach : bool }.

(** [place] is whether there is one for the attribute, [self] whether the thread asked about
    is the caller; [stack] openkal's answer. The answer, and what is written. *)
Definition pthread_getattr_np (place self : bool) (stack : kal_error * Z * Z) (d : detach_state) : Z * option pthread_attr :=
  let '(e, base, size) := stack in
  if negb place then (EINVAL, None)
  else if negb self then (ENOSYS, None)
  else if negb (bool_decide (e = kal_ok)) then (ENOSYS, None)
  else if (base =? 0) || (size =? 0) then (ENOSYS, None)
  else (0, Some (PthreadAttr size 0 (wrap64 (base + size)) (match d with DT_DETACHED => true | _ => false end))).

(** The address and the size (musl/src/thread/pthread_attr_get.c). *)
Definition pthread_attr_getstack (a : pthread_attr) : Z + Z * Z :=
  if _a_stackaddr a =? 0 then inl EINVAL else inr (wrap64 (_a_stackaddr a - _a_stacksize a), _a_stacksize a).

(** ** A cancellation point *)

(** The call is made where no cancellation is pending; [cancel] is what it comes to where
    one is, [call] the dispatcher's answer. *)
Definition syscall_cp_asm {A} (pending : Z) (cancel call : A) : A := if negb (pending =? 0) then cancel else call.
