(* ===== verification/ThreadsTheorems.v ===== *)
(** Every context that is started is waited for once, and its record is there for as long
    as the context or anybody else reads it. *)
From S2P Require Import Prelude Kal FdTableOk Threads.
From stdpp Require Import base list option gmap relations.
From Stdlib Require Import ZArith Lia.

#[local] Open Scope Z_scope.

(** ** The books: records, contexts, and who has which *)

Definition task_of (r : gmap Z okm_thread) (t : Z) : Z := match r !! t with Some x => t_task x | None => 0 end.

(** [own]: the records somebody is to free; [unj]: those among them whose context has
    been started and not waited for. *)
Record books (s : threads) (ctx : gmap Z (Z * entry_pc)) (own unj : list Z) : Prop := {
  bk_once : NoDup own;
  bk_recs : forall t, t ∈ own <-> is_Some (th_recs s !! t);
  bk_sub : NoDup unj /\ forall t, t ∈ unj -> t ∈ own;
  bk_joined : th_started s ≡ₚ th_joined s ++ (task_of (th_recs s) <$> unj);
  bk_started : NoDup (th_started s) /\ forall k, is_Some (ctx !! k) -> k ∈ th_started s;
  bk_live : forall k t e, ctx !! k = Some (t, e) -> e <> E_over -> t ∈ unj /\ task_of (th_recs s) t = k;
  bk_ctx : forall t x, t ∈ unj -> th_recs s !! t = Some x -> exists e, ctx !! t_task x = Some (t, e) /\ (t_finished x = true -> e = E_release \/ e = E_over);
}.

Lemma books_perm s ctx own own' unj unj' : own ≡ₚ own' -> unj ≡ₚ unj' -> books s ctx own unj -> books s ctx own' unj'.
Proof.
  intros Ho Hu [H1 H2 [H3 H3'] H4 H5 H6 H7]. constructor.
  - by rewrite <-Ho.
  - intros t. rewrite <-Ho. apply H2.
  - split; [by rewrite <-Hu|]. intros t. rewrite <-Hu, <-Ho. apply H3'.
  - by rewrite H4, Hu.
  - done.
  - intros k t e. rewrite <-Hu. apply H6.
  - intros t x. rewrite <-Hu. apply H7.
Qed.

(** The list of those linked says nothing more. *)
Lemma books_done s l ctx own unj : books s ctx own unj -> books (with_done s l) ctx own unj.
Proof. by intros [H1 H2 H3 H4 H5 H6 H7]; constructor. Qed.

Lemma task_of_insert_ne r t t' x : t' <> t -> task_of (<[t := x]> r) t' = task_of r t'.
Proof. intros Hne. unfold task_of. by rewrite lookup_insert_ne. Qed.

Lemma task_of_delete_ne r t t' : t' <> t -> task_of (delete t r) t' = task_of r t'.
Proof. intros Hne. unfold task_of. by rewrite lookup_delete_ne. Qed.

Lemma tasks_insert r t x (l : list Z) : t ∉ l -> task_of (<[t := x]> r) <$> l = task_of r <$> l.
Proof. intros Hl. apply list_fmap_ext. intros i t' Hi. apply task_of_insert_ne. intros ->. by apply Hl, (list_elem_of_lookup_2 _ i). Qed.

Lemma tasks_delete r t (l : list Z) : t ∉ l -> task_of (delete t r) <$> l = task_of r <$> l.
Proof. intros Hl. apply list_fmap_ext. intros i t' Hi. apply task_of_delete_ne. intros ->. by apply Hl, (list_elem_of_lookup_2 _ i). Qed.

(** A context that has returned is waited for. *)
Lemma books_join s ctx own unj t x a : books s ctx own (t :: unj) -> th_recs s !! t = Some x -> ctx !! t_task x = Some (a, E_over) ->
  books (Threads (th_recs s) (okm_done s) (g_tid s) (th_started s) (t_task x :: th_joined s)) ctx own unj.
Proof.
  intros [H1 H2 [H3 H3'] H4 H5 H6 H7] Hx Hov. apply NoDup_cons in H3 as [Hn H3]. constructor; cbn [th_recs okm_done th_started th_joined]; auto.
  - split; [done|]. intros t' Ht. apply H3'. by right.
  - rewrite H4. cbn [fmap list_fmap]. replace (task_of (th_recs s) t) with (t_task x) by (unfold task_of; by rewrite Hx). symmetry. apply Permutation_middle.
  - intros k t' e Hk He. destruct (H6 k t' e Hk He) as [[->|Hin]%elem_of_cons Ht]; [|done]. exfalso. unfold task_of in Ht. rewrite Hx in Ht. subst k. congruence.
  - intros t' x' Hin. apply H7. by right.
Qed.

(** A record whose context is not to be waited for is freed. *)
Lemma books_free s ctx own unj t : books s ctx (t :: own) unj -> t ∉ unj -> books (with_recs s (delete t (th_recs s))) ctx own unj.
Proof.
  intros [H1 H2 [H3 H3'] H4 H5 H6 H7] Hn. apply NoDup_cons in H1 as [Hno H1]. constructor; cbn [with_recs th_recs th_started th_joined]; auto.
  - intros t'. destruct (decide (t' = t)) as [->|Hne]; [rewrite lookup_delete_eq; split; [done|by intros []]|]. rewrite lookup_delete_ne by done. rewrite <-H2, elem_of_cons. split; [by right|by intros [?|?]].
  - split; [done|]. intros t' Ht. pose proof (H3' t' Ht) as [->|Hin]%elem_of_cons; done.
  - by rewrite tasks_delete.
  - intros k t' e Hk He. destruct (H6 k t' e Hk He) as [Hin Ht]. split; [done|]. rewrite task_of_delete_ne; [done|by intros ->].
  - intros t' x Hin [_ Hx]%lookup_delete_Some. by apply H7.
Qed.

(** A record is made where there was none. *)
Lemma books_new s ctx own unj t x : books s ctx own unj -> th_recs s !! t = None -> books (with_recs s (<[t := x]> (th_recs s))) ctx (t :: own) unj.
Proof.
  intros [H1 H2 [H3 H3'] H4 H5 H6 H7] Hx. assert (Hn : t ∉ own) by (rewrite H2, Hx; by intros []). assert (Hu : t ∉ unj) by (by intros ?%H3'). constructor; cbn [with_recs th_recs th_started th_joined]; auto.
  - by constructor.
  - intros t'. rewrite elem_of_cons, H2. destruct (decide (t' = t)) as [->|Hne]; [rewrite lookup_insert_eq; split; [done|by left]|rewrite lookup_insert_ne by done]. split; [by intros [?|?]|by right].
  - split; [done|]. intros t' Ht. right. by apply H3'.
  - by rewrite tasks_insert.
  - intros k t' e Hk He. destruct (H6 k t' e Hk He) as [Hin Ht]. split; [done|]. rewrite task_of_insert_ne; [done|by intros ->].
  - intros t' x' Hin [[<- _]|[_ Hx']]%lookup_insert_Some; [done|by apply H7].
Qed.

(** A record changes but for its context and whether it has finished. *)
Lemma books_set s ctx own unj t x x' n : books s ctx own unj -> th_recs s !! t = Some x -> t_task x' = t_task x -> t_finished x' = t_finished x ->
  books (Threads (<[t := x']> (th_recs s)) (okm_done s) n (th_started s) (th_joined s)) ctx own unj.
Proof.
  intros [H1 H2 H3 H4 H5 H6 H7] Hx Ht Hf. assert (Htask : forall t', task_of (<[t := x']> (th_recs s)) t' = task_of (th_recs s) t').
  { intros t'. destruct (decide (t' = t)) as [->|]; [|by apply task_of_insert_ne]. unfold task_of. by rewrite lookup_insert_eq, Hx. }
  constructor; cbn [th_recs th_started th_joined]; auto.
  - intros t'. rewrite H2. destruct (decide (t' = t)) as [->|]; [by rewrite lookup_insert_eq, Hx, !is_Some_alt|by rewrite lookup_insert_ne].
  - rewrite H4. replace (task_of (<[t := x']> (th_recs s)) <$> unj) with (task_of (th_recs s) <$> unj); [done|]. apply list_fmap_ext. intros. by rewrite Htask.
  - intros k t' e. rewrite Htask. apply H6.
  - intros t' y Hin [[<- <-]|[_ Hy]]%lookup_insert_Some; [|by apply H7]. rewrite Ht, Hf. by apply H7.
Qed.

(** A context is started for a record that had none. *)
Lemma books_start s ctx own unj t x k : books s ctx own unj -> t ∈ own -> t ∉ unj -> th_recs s !! t = Some x -> t_finished x = false -> k ∉ th_started s ->
  books (Threads (<[t := Thread (t_ctid x) (t_tid x) k (t_finished x)]> (th_recs s)) (okm_done s) (g_tid s) (k :: th_started s) (th_joined s)) (<[k := (t, E_self)]> ctx) own (t :: unj).
Proof.
  intros [H1 H2 [H3 H3'] H4 [H5 H5'] H6 H7] Hown Hu Hx Hf Hk. constructor; cbn [th_recs th_started th_joined]; auto.
  - intros t'. rewrite H2. destruct (decide (t' = t)) as [->|]; [by rewrite lookup_insert_eq, Hx, !is_Some_alt|by rewrite lookup_insert_ne].
  - split; [by constructor|]. intros t' [->|Ht]%elem_of_cons; [done|by apply H3'].
  - cbn [fmap list_fmap]. rewrite tasks_insert by done. replace (task_of _ t) with k by (unfold task_of; by rewrite lookup_insert_eq). rewrite H4. apply Permutation_middle.
  - split; [by constructor|]. intros k'. destruct (decide (k' = k)) as [->|]; [by left|rewrite lookup_insert_ne by done]. right. by apply H5'.
  - intros k' t' e. destruct (decide (k' = k)) as [->|Hne].
    + rewrite lookup_insert_eq. intros [= <- <-] _. split; [by left|]. unfold task_of. by rewrite lookup_insert_eq.
    + rewrite lookup_insert_ne by done. intros Hk' He. destruct (H6 k' t' e Hk' He) as [Hin Ht]. split; [by right|]. rewrite task_of_insert_ne; [done|by intros ->].
  - intros t' y Hin [[<- <-]|[Hne Hy]]%lookup_insert_Some; cbn [t_task t_finished].
    + exists E_self. rewrite lookup_insert_eq, Hf. done.
    + apply elem_of_cons in Hin as [->|Hin]; [done|]. destruct (H7 t' y Hin Hy) as (e & He & Hfin). exists e. rewrite lookup_insert_ne; [done|]. intros ->. apply Hk, H5'. by rewrite He.
Qed.

(** A context goes on in its entry. *)
Lemma books_phase s ctx own unj k t e e' : books s ctx own unj -> ctx !! k = Some (t, e) -> e <> E_over -> (e = E_release -> e' = E_over) ->
  books s (<[k := (t, e')]> ctx) own unj.
Proof.
  intros [H1 H2 H3 H4 [H5 H5'] H6 H7] Hk He Hfin. constructor; auto.
  - split; [done|]. intros k'. destruct (decide (k' = k)) as [->|]; [intros _; apply H5'; by rewrite Hk|rewrite lookup_insert_ne by done; apply H5'].
  - intros k' t' e0. destruct (decide (k' = k)) as [->|]; [rewrite lookup_insert_eq; intros [= <- <-] _; by apply (H6 k t e)|rewrite lookup_insert_ne by done; apply H6].
  - intros t' x Hin Hx. destruct (H7 t' x Hin Hx) as (e0 & He0 & Hf0). destruct (decide (t_task x = k)) as [E|Hne]; [|exists e0; by rewrite lookup_insert_ne].
    rewrite E in *. rewrite Hk in He0. injection He0 as <- <-. exists e'. rewrite lookup_insert_eq. split; [done|]. intros Ht. destruct (Hf0 Ht) as [-> | ->]; [right; by apply Hfin|done].
Qed.

(** It says that it has finished. *)
Lemma books_finish s ctx own unj k t x : books s ctx own unj -> ctx !! k = Some (t, E_finish) -> th_recs s !! t = Some x ->
  books (with_recs s (<[t := Thread (t_ctid x) (t_tid x) (t_task x) true]> (th_recs s))) (<[k := (t, E_release)]> ctx) own unj.
Proof.
  intros Hb Hk Hx. pose proof Hb as [H1 H2 H3 H4 [H5 H5'] H6 H7]. set (x' := Thread (t_ctid x) (t_tid x) (t_task x) true). assert (Htask : forall t', task_of (<[t := x']> (th_recs s)) t' = task_of (th_recs s) t').
  { intros t'. destruct (decide (t' = t)) as [->|]; [|by apply task_of_insert_ne]. unfold task_of. by rewrite lookup_insert_eq, Hx. }
  destruct (H6 k t E_finish Hk ltac:(done)) as [Hin Htk]. unfold task_of in Htk. rewrite Hx in Htk.
  constructor; cbn [with_recs th_recs th_started th_joined]; auto.
  - intros t'. rewrite H2. destruct (decide (t' = t)) as [->|]; [by rewrite lookup_insert_eq, Hx, !is_Some_alt|by rewrite lookup_insert_ne].
  - rewrite H4. replace (task_of (<[t := x']> (th_recs s)) <$> unj) with (task_of (th_recs s) <$> unj); [done|]. apply list_fmap_ext. intros. by rewrite Htask.
  - split; [done|]. intros k'. destruct (decide (k' = k)) as [->|]; [intros _; apply H5'; by rewrite Hk|rewrite lookup_insert_ne by done; apply H5'].
  - intros k' t' e. rewrite Htask. destruct (decide (k' = k)) as [->|]; [rewrite lookup_insert_eq; intros [= <- <-] _; by apply (H6 k t E_finish)|rewrite lookup_insert_ne by done; apply H6].
  - intros t' y Hin' [[<- <-]|[Hne Hy]]%lookup_insert_Some; cbn [t_task t_finished].
    + exists E_release. change (t_task x') with (t_task x). rewrite Htk, lookup_insert_eq. split; [done|by left].
    + destruct (H7 t' y Hin' Hy) as (e & He & Hf). exists e. rewrite lookup_insert_ne; [done|]. intros ->. rewrite Hk in He. congruence.
Qed.

(** ** One step of a context that creates another *)

(** The record it has, and the one whose context it is to wait for or has just started. *)
Definition pc_own (pc : clone_pc) : list Z := match pc with C_join t | C_free t | C_number t | C_start t | C_link t => [t] | _ => [] end.
Definition pc_unj (pc : clone_pc) : list Z := match pc with C_join t | C_link t => [t] | _ => [] end.

(** It waits only for what has finished, and starts only what has not. *)
Definition pc_flag (r : gmap Z okm_thread) (pc : clone_pc) : Prop := match pc with
  | C_join t => t_finished <$> r !! t = Some true
  | C_number t | C_start t => t_finished <$> r !! t = Some false
  | _ => True
  end.

Definition own (s : threads) (pcs : list clone_pc) : list Z := okm_done s ++ flat_map pc_own pcs.
Definition unj (s : threads) (pcs : list clone_pc) : list Z := okm_done s ++ flat_map pc_unj pcs.

Definition threads_ok (s : threads) (pcs : list clone_pc) (ctx : gmap Z (Z * entry_pc)) : Prop :=
  books s ctx (own s pcs) (unj s pcs) /\ Forall (pc_flag (th_recs s)) pcs.

Lemma flat_map_perm {A B} (f : A -> list B) l l' : l ≡ₚ l' -> flat_map f l ≡ₚ flat_map f l'.
Proof. induction 1; cbn [flat_map]; [done|by f_equiv|rewrite !app_assoc; f_equiv; apply Permutation_app_comm|by etrans]. Qed.

Lemma threads_ok_perm s pcs pcs' ctx : pcs ≡ₚ pcs' -> threads_ok s pcs ctx -> threads_ok s pcs' ctx.
Proof.
  intros Hp [Hb Hf]. split; [|by rewrite <-Hp]. eapply books_perm; [..|exact Hb]; unfold own, unj; by rewrite (flat_map_perm _ _ _ Hp).
Qed.

Lemma flags_frame r r' pcs : (forall t, t ∈ flat_map pc_own pcs -> r' !! t = r !! t) -> Forall (pc_flag r) pcs -> Forall (pc_flag r') pcs.
Proof.
  intros Hr Hf. induction Hf as [|pc pcs Hpc _ IH]; constructor; [|apply IH; intros; apply Hr; cbn [flat_map]; apply elem_of_app; by right].
  destruct pc as [|t|t| |t|t|t|t|]; cbn in *; try done; by rewrite Hr by set_solver.
Qed.

Lemma unlink_spec r l : (forall t, t ∈ l -> is_Some (r !! t)) -> exists o k, unlink_finished r l = Some (o, k) /\
  match o with Some t => l ≡ₚ t :: k /\ t_finished <$> r !! t = Some true | None => k = l end.
Proof.
  induction l as [|t l IH]; intros Hl; cbn [unlink_finished]; [by exists None, []|]. destruct (Hl t ltac:(by left)) as [x Hx]. rewrite Hx. cbn [mbind option_bind].
  destruct (t_finished x) eqn:Ef; [exists (Some t), l; split_and!; [done|done|by rewrite Hx; cbn; rewrite Ef]|].
  destruct IH as (o & k & -> & Ho); [intros t' Ht; apply Hl; by right|]. cbn [mbind option_bind]. exists o, (t :: k). split; [done|]. destruct o as [t'|]; [|by subst].
  destruct Ho as [Hp Hf]. split; [|done]. rewrite Hp. apply perm_swap.
Qed.

(** The contexts after the step: one more where it started one. *)
Definition ctx_after (start : kal_error * Z) (pc pc' : clone_pc) (ctx : gmap Z (Z * entry_pc)) : gmap Z (Z * entry_pc) :=
  match pc, pc' with C_start t, C_link _ => <[start.2 := (t, E_self)]> ctx | _, _ => ctx end.

(** What the environment promises at a step: memory that nobody has, a handle of its own
    for each context, and that a wait returns where the context has. *)
Definition env_ok (s : threads) (ctx : gmap Z (Z * entry_pc)) (p : Z) (start : kal_error * Z) (pc : clone_pc) : Prop := match pc with
  | C_alloc => p <> 0 -> th_recs s !! p = None
  | C_start _ => start.1 = kal_ok -> start.2 ∉ th_started s
  | C_join t => forall x, th_recs s !! t = Some x -> exists a, ctx !! t_task x = Some (a, E_over)
  | _ => True
  end.

Lemma own_here s pc pcs : own s (pc :: pcs) ≡ₚ pc_own pc ++ own s pcs.
Proof. unfold own. cbn [flat_map]. perm. Qed.
Lemma unj_here s pc pcs : unj s (pc :: pcs) ≡ₚ pc_unj pc ++ unj s pcs.
Proof. unfold unj. cbn [flat_map]. perm. Qed.
Lemma unj_own s pcs t : t ∈ unj s pcs -> t ∈ own s pcs.
Proof.
  unfold own, unj. rewrite !elem_of_app. intros [?|H]; [by left|right]. apply list_elem_of_In in H. apply in_flat_map in H as (pc & H1 & H2). apply list_elem_of_In, in_flat_map.
  exists pc. split; [done|]. by destruct pc.
Qed.

Section steps.
Context (s : threads) (pcs : list clone_pc) (ctx : gmap Z (Z * entry_pc)).

(** What is kept, seen from the one that takes the step. *)
Lemma threads_ok_here pc : threads_ok s (pc :: pcs) ctx <-> books s ctx (pc_own pc ++ own s pcs) (pc_unj pc ++ unj s pcs) /\ pc_flag (th_recs s) pc /\ Forall (pc_flag (th_recs s)) pcs.
Proof.
  unfold threads_ok. rewrite Forall_cons. split; intros [Hb Hf]; (split; [|done]).
  - eapply books_perm; [apply own_here|apply unj_here|done].
  - eapply books_perm; [symmetry; apply own_here|symmetry; apply unj_here|done].
Qed.

(** The others' records are not the one [t] that this one has. *)
Lemma others_apart t u : books s ctx (t :: own s pcs) u -> (t ∉ flat_map pc_own pcs) /\ (t ∉ unj s pcs).
Proof. intros [Hn _ _ _ _ _ _]. apply NoDup_cons in Hn as [Hn _]. split; [intros Ht; apply Hn; unfold own; apply elem_of_app; by right|]. by intros ?%unj_own. Qed.

Lemma reap_ok : threads_ok s (C_reap :: pcs) ctx -> exists pc' l, unlink_finished (th_recs s) (okm_done s) = Some (pc', l) /\
  threads_ok (with_done s l) (match pc' with Some t => C_join t | None => C_alloc end :: pcs) ctx.
Proof.
  intros [Hb Hf]. destruct (unlink_spec (th_recs s) (okm_done s)) as (o & l & E & Ho); [intros t Ht; apply (bk_recs _ _ _ _ Hb); unfold own; set_solver|]. exists o, l. split; [done|].
  apply Forall_cons in Hf as [_ Hf]. split.
  - apply books_done. eapply books_perm; [..|exact Hb]; unfold own, unj; cbn [okm_done with_done]; (destruct o as [t|]; cbn [flat_map pc_own pc_unj]; [destruct Ho as [-> _]; perm|by subst]).
  - constructor; [|done]. destruct o as [t|]; [|done]. by destruct Ho.
Qed.

Lemma waited_for_ok t x a : threads_ok s (C_join t :: pcs) ctx -> th_recs s !! t = Some x -> ctx !! t_task x = Some (a, E_over) ->
  threads_ok (Threads (th_recs s) (okm_done s) (g_tid s) (th_started s) (t_task x :: th_joined s)) (C_free t :: pcs) ctx.
Proof.
  intros (Hb & _ & Hf)%threads_ok_here Hx Hov. cbn [pc_own pc_unj app] in Hb. split; [|by constructor]. eapply books_perm; [..|by eapply books_join; [exact Hb|exact Hx|exact Hov]].
  - symmetry. apply own_here.
  - symmetry. apply unj_here.
Qed.

(** A record that no context runs on is freed. *)
Lemma free_ok pc t pc' : threads_ok s (pc :: pcs) ctx -> pc_own pc = [t] -> pc_unj pc = [] -> pc_own pc' = [] -> pc_unj pc' = [] -> (forall r, pc_flag r pc') ->
  threads_ok (with_recs s (delete t (th_recs s))) (pc' :: pcs) ctx.
Proof.
  intros (Hb & _ & Hf)%threads_ok_here E1 E2 E3 E4 Hfl. rewrite E1, E2 in Hb. cbn [app] in Hb. destruct (others_apart t _ Hb) as [Hn1 Hn2]. split.
  - eapply books_perm; [..|by apply books_free; [exact Hb|]]; [rewrite own_here, E3|rewrite unj_here, E4]; done.
  - constructor; [done|]. eapply flags_frame; [|exact Hf]. intros t' Ht. apply lookup_delete_ne. by intros ->.
Qed.

Lemma alloc_ok p ctid : threads_ok s (C_alloc :: pcs) ctx -> th_recs s !! p = None -> threads_ok (with_recs s (<[p := Thread ctid 0 0 false]> (th_recs s))) (C_number p :: pcs) ctx.
Proof.
  intros (Hb & _ & Hf)%threads_ok_here Hp. cbn [pc_own pc_unj app] in Hb. split.
  - eapply books_perm; [..|exact (books_new _ _ _ _ p _ Hb Hp)]; [by rewrite own_here|by rewrite unj_here].
  - constructor; [cbn; by rewrite lookup_insert_eq|]. eapply flags_frame; [|exact Hf]. intros t Ht. apply lookup_insert_ne. intros <-.
    assert (Hin : p ∈ own s pcs) by (unfold own; set_solver). apply (bk_recs _ _ _ _ Hb) in Hin. rewrite Hp in Hin. by destruct Hin.
Qed.

Lemma number_ok t x : threads_ok s (C_number t :: pcs) ctx -> th_recs s !! t = Some x ->
  threads_ok (Threads (<[t := Thread (t_ctid x) (g_tid s + 1) (t_task x) (t_finished x)]> (th_recs s)) (okm_done s) (g_tid s + 1) (th_started s) (th_joined s)) (C_start t :: pcs) ctx.
Proof.
  intros (Hb & Hfl & Hf)%threads_ok_here Hx. cbn [pc_own pc_unj app] in Hb. destruct (others_apart t _ Hb) as [Hn1 Hn2]. split.
  - eapply books_perm; [..|by apply (books_set s ctx (t :: own s pcs) (unj s pcs) t x)]; [by rewrite own_here|by rewrite unj_here].
  - constructor; [cbn in *; rewrite Hx in Hfl; by rewrite lookup_insert_eq|]. eapply flags_frame; [|exact Hf]. intros t' Ht. apply lookup_insert_ne. by intros ->.
Qed.

Lemma start_ok t x k : threads_ok s (C_start t :: pcs) ctx -> th_recs s !! t = Some x -> k ∉ th_started s ->
  threads_ok (Threads (<[t := Thread (t_ctid x) (t_tid x) k (t_finished x)]> (th_recs s)) (okm_done s) (g_tid s) (k :: th_started s) (th_joined s)) (C_link t :: pcs) (<[k := (t, E_self)]> ctx).
Proof.
  intros (Hb & Hfl & Hf)%threads_ok_here Hx Hk. cbn [pc_own pc_unj app] in Hb. destruct (others_apart t _ Hb) as [Hn1 Hn2]. cbn in Hfl. rewrite Hx in Hfl. injection Hfl as Hfl. split.
  - eapply books_perm; [..|apply (books_start s ctx (t :: own s pcs) (unj s pcs) t x k); [exact Hb|by left|done..]]; [by rewrite own_here|by rewrite unj_here].
  - constructor; [done|]. eapply flags_frame; [|exact Hf]. intros t' Ht. apply lookup_insert_ne. by intros ->.
Qed.

Lemma link_ok t : threads_ok s (C_link t :: pcs) ctx -> threads_ok (with_done s (t :: okm_done s)) (C_return t :: pcs) ctx.
Proof.
  intros (Hb & _ & Hf)%threads_ok_here. split; [|by constructor]. apply books_done. eapply books_perm; [..|exact Hb]; unfold own, unj; cbn [okm_done with_done flat_map pc_own pc_unj]; perm.
Qed.
End steps.

(** A record somebody has can be read. *)
Lemma owned_rec s pcs ctx pc t : threads_ok s (pc :: pcs) ctx -> t ∈ pc_own pc -> exists x, th_recs s !! t = Some x.
Proof. intros [Hb _] Ht. apply (bk_recs _ _ _ _ Hb). rewrite own_here. apply elem_of_app. by left. Qed.

Lemma clone_ok s pcs ctx ctid p start pc : threads_ok s (pc :: pcs) ctx -> env_ok s ctx p start pc -> (forall t, pc = C_return t -> is_Some (th_recs s !! t)) ->
  exists pc' s', clone_step ctid p start pc s = Some (pc', s') /\ threads_ok s' (pc' :: pcs) (ctx_after start pc pc' ctx).
Proof.
  intros Hok He Hret. pose proof (owned_rec s pcs ctx pc) as Hrec. destruct pc as [|t|t| |t|t|t|t|r]; cbn [clone_step env_ok pc_own ctx_after] in *; unfold mbind, M_bind, try.
  - destruct (reap_ok s pcs ctx Hok) as (o & l & -> & Hok'). eexists _, _. by split.
  - destruct (Hrec t Hok ltac:(by left)) as [x Hx]. rewrite Hx. destruct (He x Hx) as [a Ha]. eexists _, _. split; [done|]. by apply (waited_for_ok s pcs ctx t x a).
  - destruct (Hrec t Hok ltac:(by left)) as [x Hx]. rewrite Hx. eexists _, _. split; [done|]. by apply (free_ok s pcs ctx (C_free t) t).
  - destruct (Z.eqb_spec p 0) as [Hp|Hp]; eexists _, _; (split; [done|]); [|by apply alloc_ok; [|apply He]].
    apply threads_ok_here. apply threads_ok_here in Hok. done.
  - destruct (Hrec t Hok ltac:(by left)) as [x Hx]. rewrite Hx. eexists _, _. split; [done|]. by apply number_ok.
  - destruct (Hrec t Hok ltac:(by left)) as [x Hx]. rewrite Hx. cbn [fmap option_fmap option_map]. destruct (bool_decide_reflect (start.1 = kal_ok)) as [Hs|Hs]; cbn [negb]; eexists _, _; (split; [done|]).
    + apply start_ok; auto.
    + by apply (free_ok s pcs ctx (C_start t) t).
  - destruct (Hrec t Hok ltac:(by left)) as [x Hx]. rewrite Hx. eexists _, _. split; [done|]. by apply link_ok.
  - destruct (Hret t eq_refl) as [x Hx]. rewrite Hx. eexists _, _. split; [done|]. apply threads_ok_here. by apply threads_ok_here in Hok.
  - eexists _, _. by split.
Qed.

(** ** One step of a context in its entry *)

Lemma not_to_start s pcs ctx t pc : threads_ok s pcs ctx -> t ∈ unj s pcs -> pc ∈ pcs -> pc_own pc = [t] -> pc_unj pc = [t].
Proof.
  intros Hok Ht Hin Ho. apply elem_of_Permutation in Hin as [rest Hp]. apply (threads_ok_perm _ _ _ _ Hp) in Hok. apply threads_ok_here in Hok as [Hb _].
  assert (Ht' : t ∈ pc_unj pc ++ unj s rest). { rewrite <-unj_here. unfold unj in *. by rewrite <-(flat_map_perm _ _ _ Hp). }
  rewrite Ho in Hb. destruct (others_apart _ _ _ t _ Hb) as [_ Hn]. apply elem_of_app in Ht' as [Ht'|]; [|done]. destruct pc; cbn in *; try set_solver.
Qed.

Lemma entry_ok s pcs ctx k t e : threads_ok s pcs ctx -> ctx !! k = Some (t, e) -> e <> E_over ->
  exists e' w s', entry_step t e s = Some ((e', w), s') /\ threads_ok s' pcs (<[k := (t, e')]> ctx).
Proof.
  intros Hok Hk He. pose proof Hok as [Hb Hf]. destruct (bk_live _ _ _ _ Hb k t e Hk He) as [Hin Htk]. destruct (proj1 (bk_recs _ _ _ _ Hb t)) as [x Hx]; [by apply unj_own|].
  assert (Hgo : forall e', (e = E_release -> e' = E_over) -> threads_ok s pcs (<[k := (t, e')]> ctx)) by (intros e' He'; split; [by apply (books_phase s ctx _ _ k t e)|done]).
  destruct e; cbn [entry_step]; unfold mbind, M_bind, try; rewrite ?Hx; try done; (eexists _, _, _; split; [reflexivity|]); try by apply Hgo.
  split; [by apply books_finish|]. rewrite Forall_forall in Hf |- *. intros pc Hpc. specialize (Hf pc Hpc). cbn [with_recs th_recs].
  pose proof (not_to_start s pcs ctx t pc Hok Hin Hpc) as Hns. destruct pc as [|t'|t'| |t'|t'|t'|t'|]; cbn in *; try done; destruct (decide (t' = t)) as [->|Hne]; rewrite ?lookup_insert_eq, ?lookup_insert_ne by done; try done; by specialize (Hns eq_refl).
Qed.

(** ** The contexts at once *)

(** The records, the contexts that create others, and those created, by handle. *)
Record thread_world := ThreadWorld { tw_st : threads; tw_pcs : list clone_pc; tw_ctx : gmap Z (Z * entry_pc) }.

Definition threads_zero : threads := Threads ∅ [] 1 [] [].
Definition thread_start (n : nat) : thread_world := ThreadWorld threads_zero (replicate n (C_done 0)) ∅.

Definition is_done (pc : clone_pc) : Prop := exists r, pc = C_done r.

(** Every context steps when it may. [locked]: a context creates another only where no
    other is doing so, as under the lock of the thread list that pthread_create holds. *)
Inductive tasks_step (locked : bool) : thread_world -> thread_world -> Prop :=
| S_create i r s pcs ctx : pcs !! i = Some (C_done r) -> (locked = true -> Forall is_done pcs) ->
    tasks_step locked (ThreadWorld s pcs ctx) (ThreadWorld s (<[i := C_reap]> pcs) ctx)
| S_clone i ctid p start pc pc' s s' pcs ctx : pcs !! i = Some pc -> ~ is_done pc -> env_ok s ctx p start pc -> clone_step ctid p start pc s = Some (pc', s') ->
    tasks_step locked (ThreadWorld s pcs ctx) (ThreadWorld s' (<[i := pc']> pcs) (ctx_after start pc pc' ctx))
| S_entry k t e e' w s s' pcs ctx : ctx !! k = Some (t, e) -> e <> E_over -> entry_step t e s = Some ((e', w), s') ->
    tasks_step locked (ThreadWorld s pcs ctx) (ThreadWorld s' pcs (<[k := (t, e')]> ctx)).

Definition world_kept (w : thread_world) : Prop := threads_ok (tw_st w) (tw_pcs w) (tw_ctx w).

Lemma pcs_split (pcs : list clone_pc) i pc : pcs !! i = Some pc -> pcs ≡ₚ pc :: delete i pcs.
Proof. apply delete_Permutation. Qed.

Lemma pcs_insert (pcs : list clone_pc) i pc pc' : pcs !! i = Some pc -> <[i := pc']> pcs ≡ₚ pc' :: delete i pcs.
Proof.
  intros Hi. pose proof (lookup_lt_Some _ _ _ Hi) as Hlt. rewrite insert_take_drop, delete_take_drop by done. symmetry. apply Permutation_middle.
Qed.

Lemma tasks_step_ok locked w w' : world_kept w -> tasks_step locked w w' -> world_kept w'.
Proof.
  intros Hw Hs. unfold world_kept in *. destruct Hs as [i r s pcs ctx Hi _|i ctid p start pc pc' s s' pcs ctx Hi _ He E|k t e e' w s s' pcs ctx Hk He E]; cbn [tw_st tw_pcs tw_ctx] in *.
  - apply (threads_ok_perm _ _ _ _ (pcs_split _ _ _ Hi)) in Hw. eapply threads_ok_perm; [symmetry; by eapply pcs_insert|]. apply threads_ok_here. by apply threads_ok_here in Hw.
  - apply (threads_ok_perm _ _ _ _ (pcs_split _ _ _ Hi)) in Hw. eapply threads_ok_perm; [symmetry; by eapply pcs_insert|].
    destruct (clone_ok s (delete i pcs) ctx ctid p start pc Hw He) as (? & ? & E' & Hok); [intros t ->; cbn in E; unfold mbind, M_bind, try in E; by destruct (th_recs s !! t)|]. by simplify_eq.
  - destruct (entry_ok s pcs ctx k t e Hw Hk He) as (? & ? & ? & E' & Hok). by simplify_eq.
Qed.

(** Under the lock at most one is creating, and what it is about to read is linked. *)
Definition alone (w : thread_world) : Prop :=
  (forall pc rest, tw_pcs w ≡ₚ pc :: rest -> ~ is_done pc -> Forall is_done rest) /\ (forall t, C_return t ∈ tw_pcs w -> t ∈ okm_done (tw_st w)).

Lemma alone_here pc rest pc0 rest0 : Forall is_done rest -> pc :: rest ≡ₚ pc0 :: rest0 -> ~ is_done pc0 -> Forall is_done rest0.
Proof.
  intros Hr Hp Hn. assert (Hin : pc0 ∈ pc :: rest) by (rewrite Hp; by left). apply elem_of_cons in Hin as [->|Hin].
  - by rewrite <-(Permutation_cons_inv Hp).
  - rewrite Forall_forall in Hr. by apply Hr in Hin.
Qed.

Lemma return_here pc rest t : Forall is_done rest -> C_return t ∈ pc :: rest -> pc = C_return t.
Proof. intros Hr [->|Hin]%elem_of_cons; [done|]. rewrite Forall_forall in Hr. by destruct (Hr _ Hin). Qed.

Lemma alone_kept w w' : alone w -> tasks_step true w w' -> alone w'.
Proof.
  intros [Ha Hr] Hs. destruct Hs as [i r s pcs ctx Hi Hd|i ctid p start pc pc' s s' pcs ctx Hi Hn _ E|k t e e' w s s' pcs ctx Hk He E]; unfold alone in *; cbn [tw_st tw_pcs] in *.
  - specialize (Hd eq_refl). rewrite (pcs_split _ _ _ Hi) in Hd. apply Forall_cons in Hd as [_ Hd]. setoid_rewrite (pcs_insert _ _ _ C_reap Hi). split; [intros pc rest; by apply alone_here|].
    intros t Ht. by apply return_here in Ht.
  - pose proof (Ha pc (delete i pcs) (pcs_split _ _ _ Hi) Hn) as Hd. setoid_rewrite (pcs_insert _ _ _ pc' Hi). split; [intros pc0 rest; by apply alone_here|].
    intros t Ht. apply return_here in Ht as ->; [|done]. destruct pc as [|t'|t'| |t'|t'|t'|t'|]; cbn in E; unfold mbind, M_bind, try, modify, mret, M_ret in E; repeat case_match; simplify_eq/=; by left.
  - split; [done|]. intros t' Ht. replace (okm_done s') with (okm_done s); [by apply Hr|]. destruct e; cbn in E; unfold mbind, M_bind, try, modify, mret, M_ret in E; repeat case_match; by simplify_option_eq.
Qed.

Lemma thread_start_ok n : world_kept (thread_start n) /\ alone (thread_start n).
Proof.
  assert (Hd : Forall is_done (replicate n (C_done 0))) by (apply Forall_replicate; by exists 0). assert (Hmap : forall f : clone_pc -> list Z, f (C_done 0) = [] -> flat_map f (replicate n (C_done 0)) = []).
  { intros f Hf. induction n as [|n IH]; [done|]. cbn [replicate flat_map]. rewrite Hf. apply IH. by apply Forall_cons in Hd as [_ Hd]. }
  unfold world_kept, threads_ok, own, unj, thread_start. cbn [tw_st tw_pcs tw_ctx threads_zero okm_done th_recs app]. rewrite (Hmap pc_own), (Hmap pc_unj) by done. split; [split|split].
  - constructor; cbn [threads_zero th_recs th_started th_joined].
    + constructor.
    + intros t. rewrite lookup_empty. split; [by intros ?%not_elem_of_nil|by intros []].
    + split; [constructor|]. by intros t ?%not_elem_of_nil.
    + done.
    + split; [constructor|]. intros k. rewrite lookup_empty. by intros [].
    + intros k t e. by rewrite lookup_empty.
    + by intros t x ?%not_elem_of_nil.
  - eapply Forall_impl; [exact Hd|]. by intros ? [r ->].
  - intros pc rest Hp Hn. cbn [tw_pcs] in Hp. rewrite Hp in Hd. by apply Forall_cons in Hd as [_ Hd].
  - intros t Ht. cbn [tw_pcs] in Ht. rewrite Forall_forall in Hd. by destruct (Hd _ Ht).
Qed.

Lemma thread_steps_ok locked n w : rtc (tasks_step locked) (thread_start n) w -> world_kept w /\ (locked = true -> alone w).
Proof.
  apply (rtc_ind_r (fun w => world_kept w /\ (locked = true -> alone w))); [destruct (thread_start_ok n); auto|]. intros w1 w2 _ Hs [Hw Ha]. split; [by eapply tasks_step_ok|].
  intros ->. by eapply alone_kept; [apply Ha|].
Qed.

(** C11. However contexts that create others, and those created, interleave: each context
    started is waited for at most once, and is waited for or still to be waited for; the
    records allocated are those somebody is to free, each once. A context that has not
    returned has a record, so that nothing it does in its entry reads one that was freed,
    and it has not been waited for; a wait is made only for a context that has nothing
    left to do but return. No step of the creation reads a record that was freed, but
    for the last, which reads the identity to answer after the record is linked and the
    lock released: that one does not where one context at a time creates another, as
    under the thread list's lock that pthread_create holds. *)
Theorem threads_waited locked n w : rtc (tasks_step locked) (thread_start n) w ->
  let s := tw_st w in
  NoDup (th_started s) /\ th_started s ≡ₚ th_joined s ++ (task_of (th_recs s) <$> unj s (tw_pcs w)) /\
  NoDup (own s (tw_pcs w)) /\ (forall t, t ∈ own s (tw_pcs w) <-> is_Some (th_recs s !! t)) /\
  (forall k t e, tw_ctx w !! k = Some (t, e) -> e <> E_over -> is_Some (entry_step t e s) /\ (k ∉ th_joined s)) /\
  (forall i t x, tw_pcs w !! i = Some (C_join t) -> th_recs s !! t = Some x -> tw_ctx w !! t_task x = Some (t, E_release) \/ tw_ctx w !! t_task x = Some (t, E_over)) /\
  (forall i pc ctid p start, tw_pcs w !! i = Some pc -> env_ok s (tw_ctx w) p start pc -> (forall t, pc = C_return t -> locked = true) -> is_Some (clone_step ctid p start pc s)).
Proof.
  intros [Hw Ha]%thread_steps_ok s. pose proof Hw as [Hb Hf]. fold s in Hb, Hf. pose proof Hb as [H1 H2 [H3 H3'] H4 [H5 H5'] H6 H7]. split_and!; auto.
  - intros k t e Hk He. split; [destruct (entry_ok s _ _ k t e Hw Hk He) as (? & ? & ? & -> & _); eauto|]. destruct (H6 k t e Hk He) as [Hin <-]. rewrite H4 in H5. apply NoDup_app in H5 as (_ & H5 & _).
    intros Hj. apply (H5 _ Hj). by apply list_elem_of_fmap_2.
  - intros i t x Hi Hx. rewrite Forall_forall in Hf. specialize (Hf _ (list_elem_of_lookup_2 _ _ _ Hi)). cbn in Hf. rewrite Hx in Hf. injection Hf as Hf.
    destruct (H7 t x) as (e & He & Hfin); [|done|destruct (Hfin Hf) as [-> | ->]; auto]. unfold unj. rewrite (flat_map_perm _ _ _ (pcs_split _ _ _ Hi)). cbn [flat_map pc_unj]. set_solver.
  - intros i pc ctid p start Hi He Hret. apply (threads_ok_perm _ _ _ _ (pcs_split _ _ _ Hi)) in Hw. destruct (clone_ok s _ _ ctid p start pc Hw He) as (? & ? & -> & _); [|eauto].
    intros t ->. apply H2, elem_of_app. left. apply (proj2 (Ha (Hret t eq_refl))). by eapply list_elem_of_lookup_2.
Qed.

(** One created, which ends; the next creation waits for it and frees its record. *)
Ltac creates ctid p start := eapply rtc_l; [eapply (S_clone true 0 ctid p start); [reflexivity|by intros []| |vm_compute; reflexivity]; try done|cbn [insert list_insert alter list_alter ctx_after]].
Ltac runs := eapply rtc_l; [eapply (S_entry true 7); [reflexivity|done|vm_compute; reflexivity]|].

Lemma threads_run : exists w, rtc (tasks_step true) (thread_start 1) w /\ th_joined (tw_st w) = [7] /\ tw_pcs w = [C_reap].
Proof.
  eexists. split.
  - eapply rtc_l; [apply (S_create true 0 0); [reflexivity|intros _; constructor; [by exists 0|constructor]]|]. cbn [insert list_insert].
    creates 900 64 (kal_ok, 7). creates 900 64 (kal_ok, 7). creates 900 64 (kal_ok, 7). creates 900 64 (kal_ok, 7); [intros _; by apply not_elem_of_nil|]. creates 900 64 (kal_ok, 7). creates 900 64 (kal_ok, 7).
    runs. runs. runs. runs. runs.
    eapply rtc_l; [apply (S_create true 0 2); [reflexivity|intros _; constructor; [by exists 2|constructor]]|]. cbn [insert list_insert].
    creates 900 64 (kal_ok, 7). creates 900 64 (kal_ok, 7); [intros x Hx; vm_compute in Hx; injection Hx as <-; eexists; vm_compute; reflexivity|]. creates 900 64 (kal_ok, 7). apply rtc_refl.
  - vm_compute. done.
Qed.

Lemma threads_waited_witness : exists w, th_joined (tw_st w) = [7] /\ NoDup (th_started (tw_st w)).
Proof. destruct threads_run as (w & Hr & Hj & _). exists w. split; [exact Hj|]. exact (proj1 (threads_waited true 1 w Hr)). Defined.

(** ** The futex *)

(** C34. What a futex operation asks of the environment. A wait without a timeout asks for
    one without a bound, one with a timeout for exactly so many nanoseconds where that is
    a number of 64 bits; a requeue wakes as many as were to be woken and moved together,
    without wrapping, and all of them where either count is unbounded, so that none it
    would have moved goes on waiting for a wake that was this one. But a wait whose
    timeout is zero asks for the wait without a bound: it is the same request as one
    without a timeout. *)
Theorem futex_asks addr val t ts e woken : - 2 ^ 31 <= val < 2 ^ 31 -> 0 <= t < 2 ^ 64 -> 0 <= ts.1 -> 0 <= ts.2 < 1000000000 -> ts.1 * 1000000000 + ts.2 < 2 ^ 64 ->
  (t <> 0 -> (okm_futex addr FUTEX_WAIT val t ts e woken).2 = Some (Ask_wait addr (wrap32 val) (ts.1 * 1000000000 + ts.2))) /\
  (okm_futex addr FUTEX_WAIT val 0 ts e woken).2 = Some (Ask_wait addr (wrap32 val) 0) /\
  okm_futex addr FUTEX_WAIT val t (0, 0) e woken = okm_futex addr FUTEX_WAIT val 0 ts e woken /\
  (exists n, (okm_futex addr FUTEX_REQUEUE val t ts e woken).2 = Some (Ask_wake addr n) /\ 0 <= n <= UINTPTR_MAX /\
     if (val <? 0) || (2 ^ 63 <=? t) then n = UINTPTR_MAX else n = val + t).
Proof.
  intros Hv Ht H1 H2 H3. unfold okm_futex. cbn [fst snd]. change (Z.land FUTEX_WAIT _) with FUTEX_WAIT. change (Z.land FUTEX_REQUEUE _) with FUTEX_REQUEUE. change (FUTEX_WAIT =? FUTEX_WAIT) with true.
  change (FUTEX_REQUEUE =? FUTEX_WAIT) with false. change (FUTEX_REQUEUE =? FUTEX_WAKE) with false. change (FUTEX_REQUEUE =? FUTEX_REQUEUE) with true. cbn [Z.eqb]. split_and!.
  - intros Hz. replace (t =? 0) with false by lia. cbn [snd]. unfold wrap64. rewrite (Z.mod_small ts.1), (Z.mod_small ts.2), (Z.mod_small (ts.1 * 1000000000)), Z.mod_small by lia. done.
  - done.
  - destruct (t =? 0); done.
  - eexists. split; [reflexivity|]. assert (Hs : sext64 t = if 2 ^ 63 <=? t then t - 2 ^ 64 else t).
    { unfold sext64. split_if; [|rewrite Z.mod_small by lia; lia]. replace (t + 2 ^ 63) with ((t - 2 ^ 63) + 1 * 2 ^ 64) by lia. rewrite Z.mod_add, Z.mod_small by lia. lia. }
    rewrite Hs. unfold UINTPTR_MAX, wrap64. destruct (val <? 0) eqn:Ev; cbn [orb]; [lia|]. destruct (2 ^ 63 <=? t) eqn:Et; boolean; [replace (t - 2 ^ 64 <? 0) with true by lia; lia|].
    replace (t <? 0) with false by lia. rewrite Z.mod_small by lia. lia.
Qed.

Lemma futex_asks_witness : (okm_futex 64 (Z.lor FUTEX_WAIT FUTEX_PRIVATE) 2 900 (1, 5) kal_ok 0).2 = Some (Ask_wait 64 2 1000000005) /\
  (okm_futex 64 FUTEX_WAIT 2 900 (1, 5) kal_ok 0).2 = Some (Ask_wait 64 2 1000000005).
Proof. split; [reflexivity|]. apply (futex_asks 64 2 900 (1, 5) kal_ok 0); cbn [fst snd]; lia. Defined.

(** ** The stack a thread is told it is on *)

(** What pthread_getattr_np writes, pthread_attr_getstack reads back as openkal measured it,
    the lowest address and the size, for every region that ends within the address space;
    the region ends at the address written; and where the answer is an error, or the thread
    is not the caller, nothing is written. *)
Theorem stack_as_measured place self e base size d : 0 <= base -> 0 <= size -> base + size < 2 ^ 64 ->
  match pthread_getattr_np place self (e, base, size) d with
  | (r, Some a) => r = 0 /\ place = true /\ self = true /\ e = kal_ok /\ _a_stackaddr a = base + size /\ pthread_attr_getstack a = inr (base, size) /\ (_a_detach a = true <-> d = DT_DETACHED)
  | (r, None) => 0 < r /\ (place = false \/ self = false \/ e <> kal_ok \/ base = 0 \/ size = 0)
  end.
Proof.
  intros Hb Hs He. unfold pthread_getattr_np. destruct place; cbn [negb]; [|split; [done|auto 6]]. destruct self; cbn [negb]; [|split; [done|auto 6]]. case_bool_decide as Hk; cbn [negb]; [|split; [done|auto 6]].
  destruct ((base =? 0) || (size =? 0)) eqn:Ez; boolean; [split; [done|]; do 3 right; destruct Ez; boolean; auto|]. unfold wrap64 at 1. cbn [_a_stackaddr _a_detach]. rewrite (Z.mod_small (base + size)) by lia.
  split_and!; try done; [|by destruct d]. unfold pthread_attr_getstack, wrap64. cbn [_a_stackaddr _a_stacksize]. rewrite (Z.mod_small (base + size)) by lia. rewrite (proj2 (Z.eqb_neq (base + size) 0)) by lia.
  replace (base + size - size) with base by lia. by rewrite Z.mod_small by lia.
Qed.

Lemma stack_as_measured_witness : exists a, pthread_getattr_np true true (kal_ok, 65536, 8192) DT_JOINABLE = (0, Some a) /\ pthread_attr_getstack a = inr (65536, 8192).
Proof.
  assert (H := stack_as_measured true true kal_ok 65536 8192 DT_JOINABLE ltac:(lia) ltac:(lia) ltac:(lia)). destruct (pthread_getattr_np true true (kal_ok, 65536, 8192) DT_JOINABLE) as [r [a|]].
  - destruct H as (-> & _ & _ & _ & _ & H & _). exists a. split; [reflexivity|exact H].
  - exfalso. destruct H as (_ & [H|[H|[H|[H|H]]]]); [discriminate H..|by apply H|discriminate H|discriminate H].
Defined.

(** A context that ends by SYS_exit, from however deep, goes on in its entry as one whose
    function returned does; the first context ends the program, with the status asked for. *)
Theorem exit_as_return t code s x : t <> 0 -> th_recs s !! t = Some x ->
  (exists e, okm_task_exit t code = Into_entry t e /\ entry_step t E_run s = Some ((e, None), s)) /\ okm_task_exit 0 code = Out_of_program code /\ okm_current_tid t s = Some (t_tid x, s).
Proof.
  intros Ht Hx. unfold okm_task_exit, okm_current_tid. rewrite (proj2 (Z.eqb_neq t 0)) by done. cbn [negb entry_step]. unfold mbind, M_bind, try. rewrite Hx. cbn. split; [|done]. by exists E_clear.
Qed.

Lemma exit_as_return_witness : okm_current_tid 64 (Threads {[64 := Thread 900 2 7 false]} [64] 2 [7] []) = Some (2, Threads {[64 := Thread 900 2 7 false]} [64] 2 [7] []).
Proof. exact (proj2 (proj2 (exit_as_return 64 0 (Threads {[64 := Thread 900 2 7 false]} [64] 2 [7] []) (Thread 900 2 7 false) ltac:(lia) eq_refl))). Defined.
