(* ===== verification/Spawn.v ===== *)
(** Starting a program (port/src/okm_spawn.c): whether a name can be started, the three
    streams it is given, the file actions, the directories granted to it, and the search
    of PATH. The build is one for an environment that spells programs without a
    suffix. *)
From S2P Require Import Prelude Kal FdTable Names Net Nodes Children.
From stdpp Require Import base list option.
From Stdlib Require Import ZArith Lia.

#[local] Open Scope Z_scope.

Definition E2BIG : Z := 7.
Definition NAME_MAX : Z := 255.
Definition POSIX_SPAWN_SETPGROUP : Z := 2.
Definition POSIX_SPAWN_SETSIGDEF : Z := 4.
Definition POSIX_SPAWN_SETSIGMASK : Z := 8.
Definition OKM_SPAWN_MAX : Z := 512.
Definition OKM_SPAWN_MAX_OPEN : Z := 8.

(** A file action, and the attributes: the flags, the group, and whether a function is
    given. *)
Inductive fdop :=
| FDOP_DUP2 (fd srcfd : Z)
| FDOP_OPEN (fd : Z) (path : str) (oflag : Z)
| FDOP_CLOSE (fd : Z)
| FDOP_CHDIR (path : str)
| FDOP_FCHDIR (fd : Z)
| FDOP_OTHER.

Record spawnattr := Spawnattr { sa_flags : Z; sa_pgrp : Z; sa_fn : bool }.

(** What is opened and closed for one start. *)
Inductive spawn_call := Opened (r : resource) | Closed (r : resource).

(** The local state of one start: the three positions, the positions given the null
    device, whether a stream was placed, the files opened, the directory named with its
    name, how many files and directories were asked for, and the calls. *)
Record spawn := Spawn {
  sp_pos : list Z;
  g_null_at : Z;
  sp_placed : bool;
  sp_opened : list Z;
  sp_where : option (Z * str);
  sp_files : nat;
  sp_dirs : nat;
  sp_calls : list spawn_call;
}.

Definition spawn_zero : spawn := Spawn [0; 0; 0] 0 false [] None 0 0 [].

(** What process_props answers: whether the environment has units, grants, bound
    lifetimes, null streams, and passes streams. *)
Record props := Props { pr_job : bool; pr_grant : bool; pr_bound : bool; pr_null : bool; pr_stream : bool }.

(** What the environment is asked to start. *)
Record spawn_ask := SpawnAsk {
  how_at : okm_at;
  how_work : Z;
  how_job : bool;
  how_grants : list preopen;
  how_nulls : Z;
  how_bound : bool;
  how_args : list str;
  how_envs : list str;
  how_streams : list Z;
}.

Section spawn.
Context (t : fd_table) (g : names) (pr : props).
(** What the environment answers: of a name, following links; to the n-th open of a file
    and of a directory; and a file's stream. *)
Context (fs_info : Z -> str -> kal_error + node_kind).
Context (fs_open : nat -> okm_at -> kal_open -> kal_error + Z) (fs_open_dir : nat -> okm_at -> kal_error + Z).
Context (fs_stream : Z -> Z).

Definition startable (base : Z) (rel : str) : Z :=
  match fs_info base rel with
  | inl e => if bool_decide (e = kal_err_not_supported) then 0 else okm_errno e
  | inr k => if bool_decide (k = kal_node_absent) then ENOENT else if bool_decide (k = kal_node_directory) then EACCES else 0
  end.

(** ** The three streams *)

Definition pos_bit (pos : Z) : Z := Z.shiftl 1 pos.

Definition put_pos (pos stream : Z) : M spawn () :=
  put_try (fun s => (fun l => Spawn l (g_null_at s) (sp_placed s) (sp_opened s) (sp_where s) (sp_files s) (sp_dirs s) (sp_calls s)) <$> set_at (sp_pos s) pos stream).
Definition set_null (f : Z -> Z) : M spawn () :=
  modify (fun s => Spawn (sp_pos s) (f (g_null_at s)) (sp_placed s) (sp_opened s) (sp_where s) (sp_files s) (sp_dirs s) (sp_calls s)).
Definition set_placed : M spawn () :=
  modify (fun s => Spawn (sp_pos s) (g_null_at s) true (sp_opened s) (sp_where s) (sp_files s) (sp_dirs s) (sp_calls s)).

Definition place (pos stream : Z) : M spawn Z :=
  set_null (fun n => Z.land n (Z.lnot (pos_bit pos)));;
  std ← try (fun _ => okm_std_stream t pos);
  if stream =? std then put_pos pos 0;; mret 0
  else if stream =? 0 then mret ENOSYS
  else set_placed;; put_pos pos stream;; mret 0.

Definition place_null (pos : Z) : M spawn () := put_pos pos 0;; set_null (fun n => Z.lor n (pos_bit pos)).

Definition stream_for_spawn (fd : Z) : Z + Z :=
  match desc_at t fd with
  | None => inl EBADF
  | Some d =>
      match d_kind d with
      | OKM_STREAM | OKM_CHANNEL | OKM_FILE => inr (d_stream d)
      | OKM_SOCKET => if d_stream d =? 0 then inl ENOTCONN else inr (d_stream d)
      | _ => inl EBADF
      end
  end.

Definition is_null_fd (fd : Z) : bool := match desc_at t fd with Some d => bool_decide (d_kind d = OKM_NULL) | None => false end.

(** What the descriptor [fd] of this program is, at a position. *)
Definition place_fd (pos fd : Z) : M spawn Z :=
  if is_null_fd fd then place_null pos;; mret 0
  else match stream_for_spawn fd with
  | inl e => mret e
  | inr stream => place pos stream
  end.

Definition seed : M spawn Z :=
  set_null (fun _ => 0);;
  e ← place_fd 0 0;
  if negb (e =? 0) then mret e
  else
    e ← place_fd 1 1;
    if negb (e =? 0) then mret e else place_fd 2 2.

(** ** The file actions *)

Definition open_file (a : okm_at) (flags : kal_open) : M spawn (kal_error + Z) := fun s =>
  let r := fs_open (sp_files s) a flags in
  Some (r, match r with
           | inl _ => Spawn (sp_pos s) (g_null_at s) (sp_placed s) (sp_opened s) (sp_where s) (S (sp_files s)) (sp_dirs s) (sp_calls s)
           | inr f => Spawn (sp_pos s) (g_null_at s) (sp_placed s) (sp_opened s ++ [f]) (sp_where s) (S (sp_files s)) (sp_dirs s) (sp_calls s ++ [Opened (R_file f)])
           end).

(** The directory opened is the one to run in; the one before it is closed. *)
Definition open_where (a : okm_at) (name : str) : M spawn Z := fun s =>
  match fs_open_dir (sp_dirs s) a with
  | inl e => Some (okm_errno e, Spawn (sp_pos s) (g_null_at s) (sp_placed s) (sp_opened s) (sp_where s) (sp_files s) (S (sp_dirs s)) (sp_calls s))
  | inr d => Some (0, Spawn (sp_pos s) (g_null_at s) (sp_placed s) (sp_opened s) (Some (d, name)) (sp_files s) (S (sp_dirs s))
      (sp_calls s ++ Opened (R_dir d) :: match sp_where s with Some (w, _) => [Closed (R_dir w)] | None => [] end))
  end.

Definition name_or_none (r : answer) : str := match r with inl _ => [] | inr s => s end.

(** Zero, or why the action is refused. *)
Definition action (op : fdop) : M spawn Z :=
  match op with
  | FDOP_DUP2 fd srcfd => if (2 <? fd) || (fd <? 0) then mret ENOSYS else place_fd fd srcfd
  | FDOP_OPEN fd path oflag =>
      if (2 <? fd) || (fd <? 0) then mret ENOSYS
      else if okm_null_name t g AT_FDCWD path then place_null fd;; mret 0
      else
        n ← gets (fun s => Z.of_nat (length (sp_opened s)));
        if OKM_SPAWN_MAX_OPEN <=? n then mret ENOSYS
        else match okm_resolve t g AT_FDCWD path false with
        | inl r => mret (- r)
        | inr a =>
            f ← open_file a (okm_open_flags oflag);
            match f with inl e => mret (okm_errno e) | inr f => place fd (fs_stream f) end
        end
  | FDOP_CLOSE fd => mret (if 2 <? fd then 0 else ENOSYS)
  | FDOP_CHDIR path =>
      match okm_resolve t g AT_FDCWD path false with
      | inl r => mret (- r)
      | inr a => open_where a (name_or_none (okm_absolute t g AT_FDCWD path OKM_MAX_PATH))
      end
  | FDOP_FCHDIR fd =>
      match desc_at t fd with
      | Some d =>
          if bool_decide (d_kind d = OKM_DIR) then open_where (Names.At (d_dir d) [dot]) (name_or_none (okm_absolute t g fd [dot] OKM_MAX_PATH))
          else mret EBADF
      | None => mret EBADF
      end
  | FDOP_OTHER => mret ENOSYS
  end.

Fixpoint actions (ops : list fdop) : M spawn Z :=
  match ops with
  | [] => mret 0
  | op :: ops' =>
      e ← action op;
      if negb (e =? 0) then mret e else actions ops'
  end.

(** The null device's positions, where the environment has no such stream: its file of
    that name, at each. *)
Fixpoint place_nulls (at' f : Z) (l : list Z) : M spawn Z :=
  match l with
  | [] => mret 0
  | pos :: l' =>
      e ← (if has at' (pos_bit pos) then place pos (fs_stream f) else mret 0);
      if negb (e =? 0) then mret e else place_nulls at' f l'
  end.

Definition nulls_given : M spawn Z :=
  s ← gets id;
  if g_null_at s =? 0 then mret 0
  else if pr_null pr then mret 0
  else if OKM_SPAWN_MAX_OPEN <=? Z.of_nat (length (sp_opened s)) then mret ENOSYS
  else match okm_resolve t g AT_FDCWD null_device false with
  | inl r => mret (- r)
  | inr a =>
      f ← open_file a (okm_open_flags O_RDWR);
      match f with inl e => mret (okm_errno e) | inr f => place_nulls (g_null_at s) f [0; 1; 2] end
  end.

(** [ops]: the list of the actions as it is kept, the last one added first. *)
Definition prepare (ops : list fdop) : M spawn Z :=
  e ← seed;
  if negb (e =? 0) then mret e
  else
    e ← actions (rev ops);
    if negb (e =? 0) then mret e
    else
      e ← nulls_given;
      if negb (e =? 0) then mret e
      else
        s ← gets id;
        mret (if sp_placed s && negb (pr_stream pr) then ENOSYS else 0).

(** What was opened for the start is closed. *)
Definition finish (s : spawn) : list spawn_call :=
  sp_calls s ++ ((fun f => Closed (R_file f)) <$> sp_opened s) ++ match sp_where s with Some (d, _) => [Closed (R_dir d)] | None => [] end.

(** ** The start *)

(** The directories granted after the one the program runs in. *)
Fixpoint more_grants (n : nat) (work_name : str) (l : list preopen) : list preopen :=
  match n, l with
  | O, _ | _, [] => []
  | S n', q :: l' =>
      if (pre_dir q =? 0) || bool_decide (pre_name q = work_name) then more_grants n work_name l'
      else q :: more_grants n' work_name l'
  end.

Definition grants_of (work : Z) (work_name : str) : list preopen :=
  if pr_grant pr && negb (len work_name =? 0) then Preopen work work_name :: more_grants 15 work_name (g_pre g) else [].

Definition start_ask (a : okm_at) (bound unit : bool) (argv envp : list str) (s : spawn) : spawn_ask :=
  let work := match sp_where s with Some (d, _) => d | None => okm_cwd_dir g end in
  let work_name := match sp_where s with Some (_, n) => n | None => g_cwd g end in
  SpawnAsk a work (unit && pr_job pr) (grants_of work work_name)
    (if pr_null pr then g_null_at s else 0) (bound && pr_bound pr) argv envp (sp_pos s).

(** The answer and the identifier told, what the environment was asked to start, and what
    was opened and closed. [start] is its answer to the start, with the handle and the
    unit's; [id] what it then says of the identifier. *)
Definition spawn_common (path : str) (ops : list fdop) (attr : option spawnattr) (argv envp : list str) (bound : bool)
    (start : kal_error * Z * Z) (id : option Z) : M procs (Z * option Z * option spawn_ask * list spawn_call) :=
  let flags := match attr with Some a => sa_flags a | None => 0 end in
  let allowed := Z.lor (Z.lor POSIX_SPAWN_SETSIGDEF POSIX_SPAWN_SETSIGMASK) POSIX_SPAWN_SETPGROUP in
  let refuse e := mret (e, None, None, []) in
  if has flags (Z.lnot allowed) then refuse ENOSYS
  else if has flags POSIX_SPAWN_SETPGROUP && negb (match attr with Some a => sa_pgrp a | None => 0 end =? 0) then refuse ENOSYS
  else if match attr with Some a => sa_fn a | None => false end then refuse ENOSYS
  else match okm_resolve t g AT_FDCWD path false with
  | inl r => refuse (- r)
  | inr a =>
      let e := startable (at_base a) (at_rel a) in
      if negb (e =? 0) then refuse e
      else if (OKM_SPAWN_MAX <=? Z.of_nat (length argv)) || (OKM_SPAWN_MAX <=? Z.of_nat (length envp)) then refuse E2BIG
      else
        x ← try (fun _ => prepare ops spawn_zero);
        if negb (x.1 =? 0) then mret (x.1, None, None, finish x.2)
        else
          let ask := start_ask a bound (has flags POSIX_SPAWN_SETPGROUP) argv envp x.2 in
          if negb (bool_decide (start.1.1 = kal_ok)) then mret (okm_errno start.1.1, None, Some ask, finish x.2)
          else
            r ← spawned start.1.2 start.2 id;
            mret (r.1, r.2, Some ask, finish x.2)
  end.
End spawn.

(** ** The search of PATH *)

Definition default_path : str := [47; 117; 115; 114; 47; 108; 111; 99; 97; 108; 47; 98; 105; 110; 58; 47; 98; 105; 110; 58; 47; 117; 115; 114; 47; 98; 105; 110].

(** Up to a colon, and what is after it, if there is one. *)
Fixpoint until_colon (p : str) : str * option str :=
  match p with
  | [] => ([], None)
  | c :: p' => if c =? colon then ([], Some p') else let '(e, r) := until_colon p' in (c :: e, r)
  end.

Section search.
(** A start of the name given: zero, or why not. *)
Context {S : Type} (start : str -> M S Z).

Definition cand (entry file : str) : str := match entry with [] => file | _ => entry ++ slash :: file end.

Fixpoint search (fuel : nat) (file p : str) (seen : bool) : M S Z :=
  match fuel with
  | O => try (fun _ => None)
  | Datatypes.S f =>
      let '(entry, rest) := until_colon p in
      let n := len entry in
      r ← (if n + (if n =? 0 then 0 else 1) + len file + 1 <=? OKM_MAX_PATH then
             e ← start (cand entry file);
             mret (if e =? 0 then inl 0
                   else if e =? EACCES then inr true
                   else if (e =? ENOENT) || (e =? ENOTDIR) then inr seen else inl e)
           else mret (inr seen));
      match r : Z + bool with
      | inl e => mret e
      | inr seen => match rest with None => mret (if seen then EACCES else ENOENT) | Some p' => search f file p' seen end
      end
  end.

(** [path]: what getenv answers. *)
Definition posix_spawnp (path : option str) (file : str) : M S Z :=
  if len file =? 0 then mret ENOENT
  else if bool_decide (slash ∈ file) then start file
  else if NAME_MAX <? len file then mret ENAMETOOLONG
  else let p := default default_path path in search (Datatypes.S (length p)) file p false.
End search.
