(* ===== verification/SpawnTheorems.v ===== *)
(** What starting a program promises: the three streams of the program are the ones the
    file actions make of the caller's, whatever was opened for the start is closed, and
    the search of PATH is the search of its entries in order. *)
From S2P Require Import Prelude Kal FdTable Names Net Nodes NodesTheorems Children ChildrenTheorems Spawn.
From stdpp Require Import base list option.
From Stdlib Require Import ZArith Lia.

#[local] Open Scope Z_scope.

(** ** The streams, as POSIX has them: a table of the new program's own *)

Inductive given := G_null | G_stream (s : Z).

Definition three (pos : Z) : Prop := 0 <= pos <= 2.

Definition given_fd (t : fd_table) (fd : Z) : option given :=
  if is_null_fd t fd then Some G_null else match stream_for_spawn t fd with inr s => Some (G_stream s) | inl _ => None end.

Definition set_given (c : Z -> option given) (fd : Z) (x : option given) : Z -> option given := fun fd' => if fd' =? fd then x else c fd'.

(** Each action changes that table, and a duplicate reads it. *)
Definition posix_action (t : fd_table) (g : names) (fs_open : nat -> okm_at -> kal_open -> kal_error + Z) (fs_stream : Z -> Z)
    (x : (Z -> option given) * nat) (op : fdop) : (Z -> option given) * nat :=
  match op with
  | FDOP_DUP2 fd srcfd => (set_given x.1 fd (x.1 srcfd), x.2)
  | FDOP_OPEN fd path oflag =>
      if okm_null_name t g AT_FDCWD path then (set_given x.1 fd (Some G_null), x.2)
      else match okm_resolve t g AT_FDCWD path false with
      | inl _ => (set_given x.1 fd None, x.2)
      | inr a => (set_given x.1 fd (match fs_open x.2 a (okm_open_flags oflag) with inr f => Some (G_stream (fs_stream f)) | inl _ => None end), Datatypes.S x.2)
      end
  | FDOP_CLOSE fd => (set_given x.1 fd None, x.2)
  | _ => x
  end.

(** No duplicate reads a descriptor that an action before it changed, and no name is taken
    from a directory that an action before it left. *)
Definition changed_by (op : fdop) : list Z := match op with
  | FDOP_DUP2 fd _ | FDOP_OPEN fd _ _ | FDOP_CLOSE fd => [fd]
  | FDOP_CHDIR _ | FDOP_FCHDIR _ => [AT_FDCWD]
  | FDOP_OTHER => []
  end.
Definition reads_old (changed : list Z) (op : fdop) : bool := match op with
  | FDOP_DUP2 _ srcfd => bool_decide (srcfd ∉ changed)
  | FDOP_OPEN _ path _ => negb (root_length path =? 0) || bool_decide (AT_FDCWD ∉ changed)
  | _ => true
  end.
Fixpoint independent (changed : list Z) (ops : list fdop) : bool :=
  match ops with
  | [] => true
  | op :: ops' => reads_old changed op && independent (changed_by op ++ changed) ops'
  end.

(** What a position of a start says: the null device, the stream this program has there,
    or the one named. *)
Definition says (t : fd_table) (nulls : Z) (streams : list Z) (pos : Z) : option given :=
  if has nulls (pos_bit pos) then Some G_null
  else h ← at_ streams pos; if h =? 0 then G_stream <$> okm_std_stream t pos else Some (G_stream h).

Definition decode (t : fd_table) (s : spawn) : Z -> option given := says t (g_null_at s) (sp_pos s).

(** ** What is opened and closed *)

Definition opened_of (l : list spawn_call) : list resource := flat_map (fun c => match c with Opened r => [r] | Closed _ => [] end) l.
Definition closed_of (l : list spawn_call) : list resource := flat_map (fun c => match c with Closed r => [r] | Opened _ => [] end) l.

Definition where_held (w : option (Z * str)) : list resource := match w with Some (d, _) => [R_dir d] | None => [] end.

Record spawn_inv (s : spawn) : Prop := {
  si_three : length (sp_pos s) = 3%nat;
  si_bound : Z.of_nat (length (sp_opened s)) <= OKM_SPAWN_MAX_OPEN;
  si_open : opened_of (sp_calls s) ≡ₚ closed_of (sp_calls s) ++ (R_file <$> sp_opened s) ++ where_held (sp_where s);
}.

Lemma opened_app l k : opened_of (l ++ k) = opened_of l ++ opened_of k.
Proof. apply flat_map_app. Qed.
Lemma closed_app l k : closed_of (l ++ k) = closed_of l ++ closed_of k.
Proof. apply flat_map_app. Qed.

Lemma closes_files l : opened_of ((fun f => Closed (R_file f)) <$> l) = [] /\ closed_of ((fun f => Closed (R_file f)) <$> l) = R_file <$> l.
Proof. induction l as [|f l [H1 H2]]; [done|]. cbn. unfold opened_of, closed_of in *. cbn. by rewrite H1, H2. Qed.

(** Nothing is left open. *)
Lemma finish_closes s : spawn_inv s -> opened_of (finish s) ≡ₚ closed_of (finish s).
Proof.
  intros [_ _ H]. unfold finish. destruct (closes_files (sp_opened s)) as [H1 H2]. rewrite !opened_app, !closed_app, H1, H2, H. destruct (sp_where s) as [[d n]|]; cbn; by rewrite ?app_nil_r.
Qed.

Lemma has_bit n pos : 0 <= pos -> has n (pos_bit pos) = Z.testbit n pos.
Proof.
  intros Hp. unfold has, pos_bit. rewrite Z.shiftl_1_l. destruct (Z.testbit n pos) eqn:E.
  - apply negb_true_iff, Z.eqb_neq. intros H0. assert (Hb : Z.testbit (Z.land n (2 ^ pos)) pos = true) by (rewrite Z.land_spec, E, Z.pow2_bits_true by done; done). by rewrite H0, Z.bits_0 in Hb.
  - apply negb_false_iff, Z.eqb_eq. apply Z.bits_inj'. intros k Hk. rewrite Z.land_spec, Z.pow2_bits_eqb, Z.bits_0 by done. destruct (Z.eqb_spec pos k) as [<-|]; [by rewrite E|apply andb_false_r].
Qed.

Lemma clear_pos n pos j : 0 <= pos -> 0 <= j -> has (Z.land n (Z.lnot (pos_bit pos))) (pos_bit j) = has n (pos_bit j) && negb (j =? pos).
Proof.
  intros Hp Hj. rewrite !has_bit by done. rewrite Z.land_spec, Z.lnot_spec by done. unfold pos_bit. rewrite Z.shiftl_1_l, Z.pow2_bits_eqb by done. by rewrite Z.eqb_sym.
Qed.

Lemma set_pos n pos j : 0 <= pos -> 0 <= j -> has (Z.lor n (pos_bit pos)) (pos_bit j) = has n (pos_bit j) || (j =? pos).
Proof.
  intros Hp Hj. rewrite !has_bit by done. rewrite Z.lor_spec. unfold pos_bit. rewrite Z.shiftl_1_l, Z.pow2_bits_eqb by done. by rewrite Z.eqb_sym.
Qed.

Section spawn.
Context (t : fd_table) (g : names) (pr : props).
Context (fs_open : nat -> okm_at -> kal_open -> kal_error + Z) (fs_open_dir : nat -> okm_at -> kal_error + Z) (fs_stream : Z -> Z).
Hypothesis Hstd : Z.of_nat (length (g_std_stream t)) = 3.
(** An error is not the value for none. *)
Hypothesis Hopen : forall n a fl, fs_open n a fl <> inl kal_ok.

(** The positions change and nothing else. *)
Definition at_positions (s s' : spawn) : Prop :=
  length (sp_pos s') = length (sp_pos s) /\ sp_opened s' = sp_opened s /\ sp_where s' = sp_where s /\ sp_files s' = sp_files s /\ sp_dirs s' = sp_dirs s /\ sp_calls s' = sp_calls s.

Lemma positions_inv s s' : at_positions s s' -> spawn_inv s -> spawn_inv s'.
Proof. intros (H1 & H2 & H3 & H4 & H5 & H6) [I1 I2 I3]. constructor; rewrite ?H1, ?H2, ?H3, ?H6; done. Qed.

(** The position [pos] is given [x], and the others what they had. *)
Definition now_given (s s' : spawn) (pos : Z) (x : given) : Prop := decode t s' pos = Some x /\ forall j, three j -> j <> pos -> decode t s' j = decode t s j.

Lemma put_pos_eq pos x s : three pos -> length (sp_pos s) = 3%nat ->
  put_pos pos x s = Some ((), Spawn (<[Z.to_nat pos := x]> (sp_pos s)) (g_null_at s) (sp_placed s) (sp_opened s) (sp_where s) (sp_files s) (sp_dirs s) (sp_calls s)).
Proof. intros Hp Hl. unfold put_pos, put_try, three in *. by rewrite set_at_some by lia. Qed.

Lemma std_at pos : three pos -> exists h, okm_std_stream t pos = Some h.
Proof. intros Hp. unfold okm_std_stream, three in *. split_if; [lia|]. apply at_some. lia. Qed.

Lemma says_at nulls l pos j x n : three pos -> three j -> length l = 3%nat -> (forall k, three k -> k <> pos -> has n (pos_bit k) = has nulls (pos_bit k)) -> j <> pos ->
  says t n (<[Z.to_nat pos := x]> l) j = says t nulls l j.
Proof. intros Hp Hj Hl Hn Hne. unfold says. rewrite Hn by done. unfold three in *. rewrite at_insert by lia. by replace (j =? pos) with false by lia. Qed.

Lemma place_ok pos stream s : three pos -> length (sp_pos s) = 3%nat -> exists e s', place t pos stream s = Some (e, s') /\ at_positions s s' /\ (e = 0 -> now_given s s' pos (G_stream stream)).
Proof.
  intros Hp Hl. unfold place, set_null, mbind, M_bind, modify, try. destruct (std_at pos Hp) as [h Hh]. rewrite Hh. cbn [fmap option_fmap option_map].
  assert (Hclear : forall k, three k -> has (Z.land (g_null_at s) (Z.lnot (pos_bit pos))) (pos_bit k) = has (g_null_at s) (pos_bit k) && negb (k =? pos)) by (intros k Hk; unfold three in *; apply clear_pos; lia).
  assert (Hsays : forall x, (if x =? 0 then h = stream else x = stream) -> now_given s (Spawn (<[Z.to_nat pos := x]> (sp_pos s)) (Z.land (g_null_at s) (Z.lnot (pos_bit pos))) (sp_placed s) (sp_opened s) (sp_where s) (sp_files s) (sp_dirs s) (sp_calls s)) pos (G_stream stream)).
  { intros x Hx. split; unfold decode; cbn [g_null_at sp_pos].
    - unfold says. rewrite Hclear, Z.eqb_refl, andb_false_r by done. unfold three in *. rewrite at_insert, Z.eqb_refl by lia. cbn [mbind option_bind]. destruct (x =? 0); [rewrite Hh; cbn; by subst|by subst].
    - intros j Hj Hne. apply says_at; auto. intros k Hk Hnk. rewrite Hclear by done. replace (k =? pos) with false by lia. by rewrite andb_true_r. }
  destruct (Z.eqb_spec stream h) as [->|Hne]; [|destruct (Z.eqb_spec stream 0) as [->|Hz]].
  - rewrite put_pos_eq by done. eexists _, _. split; [reflexivity|]. split; [unfold at_positions; cbn; rewrite length_insert; by split_and!|]. intros _. by apply Hsays.
  - eexists _, _. split; [reflexivity|]. split; [by split_and!|]. done.
  - unfold set_placed, modify. rewrite put_pos_eq by done. eexists _, _. split; [reflexivity|]. split; [unfold at_positions; cbn; rewrite length_insert; by split_and!|]. intros _.
    apply Hsays. by replace (stream =? 0) with false by lia.
Qed.

Lemma place_null_ok pos s : three pos -> length (sp_pos s) = 3%nat -> exists s', place_null pos s = Some ((), s') /\ at_positions s s' /\ now_given s s' pos G_null.
Proof.
  intros Hp Hl. unfold place_null, mbind, M_bind. rewrite put_pos_eq by done. eexists. split; [reflexivity|]. split; [unfold at_positions; cbn; rewrite length_insert; by split_and!|].
  assert (Hset : forall k, three k -> has (Z.lor (g_null_at s) (pos_bit pos)) (pos_bit k) = has (g_null_at s) (pos_bit k) || (k =? pos)) by (intros k Hk; unfold three in *; apply set_pos; lia).
  split; unfold decode; cbn [g_null_at sp_pos].
  - unfold says. by rewrite Hset, Z.eqb_refl, orb_true_r.
  - intros j Hj Hne. apply says_at; auto. intros k Hk Hnk. rewrite Hset by done. replace (k =? pos) with false by lia. by rewrite orb_false_r.
Qed.

Lemma place_fd_ok pos fd s : three pos -> length (sp_pos s) = 3%nat ->
  exists e s', place_fd t pos fd s = Some (e, s') /\ at_positions s s' /\ (e = 0 -> exists x, given_fd t fd = Some x /\ now_given s s' pos x).
Proof.
  intros Hp Hl. unfold place_fd, given_fd. destruct (is_null_fd t fd).
  - destruct (place_null_ok pos s Hp Hl) as (s' & E & Hs & Hg). unfold mbind, M_bind. rewrite E. eexists _, _. split; [reflexivity|]. split; [done|]. eauto.
  - destruct (stream_for_spawn t fd) as [e|stream] eqn:Ef.
    + exists e, s. split; [done|]. split; [by split_and!|]. intros ->. exfalso. unfold stream_for_spawn in Ef. destruct (desc_at t fd) as [d|]; [|done]. destruct (d_kind d); try done. by destruct (d_stream d =? 0).
    + destruct (place_ok pos stream s Hp Hl) as (e & s' & E & Hs & Hg). exists e, s'. split; [done|]. split; [done|]. eauto.
Qed.

(** The start's positions are the table's, and what was not changed is the caller's. *)
Definition follows (s : spawn) (x : (Z -> option given) * nat) (changed : list Z) : Prop :=
  (forall j, three j -> decode t s j = x.1 j) /\ sp_files s = x.2 /\ (forall fd, fd ∉ changed -> x.1 fd = given_fd t fd).

Lemma follows_set s s' x changed pos v : follows s x changed -> now_given s s' pos v -> follows s' (set_given x.1 pos (Some v), sp_files s') (pos :: changed).
Proof.
  intros (H1 & _ & H3) [Hn Ho]. split; [|split; [done|]]; cbn [fst snd]; unfold set_given.
  - intros j Hj. destruct (Z.eqb_spec j pos) as [->|Hne]; [done|]. rewrite Ho by done. by apply H1.
  - intros fd Hfd. apply not_elem_of_cons in Hfd as [Hne Hfd]. replace (fd =? pos) with false by lia. by apply H3.
Qed.

Lemma follows_other s s' x changed : follows s x changed -> g_null_at s' = g_null_at s -> sp_pos s' = sp_pos s -> sp_files s' = sp_files s -> follows s' x changed.
Proof. intros (H1 & H2 & H3) E1 E2 E3. unfold follows, decode. rewrite E1, E2, E3. done. Qed.

Lemma open_file_ok a fl s : spawn_inv s -> Z.of_nat (length (sp_opened s)) < OKM_SPAWN_MAX_OPEN -> exists r s', open_file fs_open a fl s = Some (r, s') /\ r = fs_open (sp_files s) a fl /\
  spawn_inv s' /\ sp_files s' = S (sp_files s) /\ g_null_at s' = g_null_at s /\ sp_pos s' = sp_pos s /\ (forall f, r = inr f -> Opened (R_file f) ∈ sp_calls s').
Proof.
  intros [H1 H2 H3] Hlt. unfold open_file. eexists _, _. split; [reflexivity|]. split; [done|]. destruct (fs_open (sp_files s) a fl) as [e|f]; cbn; split_and!; try done.
  - constructor; cbn; rewrite ?length_app; cbn; [done|lia|]. rewrite opened_app, closed_app, fmap_app, H3. cbn. perm.
  - intros ? [= <-]. apply elem_of_app. right. by left.
Qed.

Lemma open_where_ok a name s : spawn_inv s -> exists e s', open_where fs_open_dir a name s = Some (e, s') /\ spawn_inv s' /\ g_null_at s' = g_null_at s /\ sp_pos s' = sp_pos s /\ sp_files s' = sp_files s.
Proof.
  intros [H1 H2 H3]. unfold open_where. destruct (fs_open_dir (sp_dirs s) a) as [e|d]; eexists _, _; (split; [reflexivity|]); cbn; split_and!; try done.
  constructor; cbn; [done|done|]. rewrite opened_app, closed_app, H3. destruct (sp_where s) as [[w n]|]; cbn; perm.
Qed.

Lemma follows_more s x fd changed : follows s x changed -> follows s x (fd :: changed).
Proof. intros (F1 & F2 & F3). split; [done|]. split; [done|]. intros fd' [_ Hf]%not_elem_of_cons. by apply F3. Qed.

Lemma action_ok op s : spawn_inv s -> exists e s', action t g fs_open fs_open_dir fs_stream op s = Some (e, s') /\ spawn_inv s' /\
  (e = 0 -> forall x changed, follows s x changed -> reads_old changed op = true -> follows s' (posix_action t g fs_open fs_stream x op) (changed_by op ++ changed)).
Proof.
  intros Hs. pose proof (si_three s Hs) as Hl. destruct op as [fd srcfd|fd path oflag|fd|path|fd|]; cbn [action posix_action changed_by reads_old app].
  - destruct (_ || _) eqn:Eb; [by exists ENOSYS, s|]. boolean. destruct (place_fd_ok fd srcfd s) as (e & s' & E & Hp & Hg); [unfold three; lia|done|]. exists e, s'. split; [done|]. split; [by eapply positions_inv|].
    intros He x changed Hx Hr. apply bool_decide_eq_true in Hr. destruct (Hg He) as (v & Hv & Hnow). destruct Hx as (F1 & F2 & F3). rewrite F3 by done. rewrite Hv.
    replace x.2 with (sp_files s') by (destruct Hp as (_ & _ & _ & -> & _); done). by apply (follows_set s).
  - destruct (_ || _) eqn:Eb; [by exists ENOSYS, s|]. boolean. assert (Hfd : three fd) by (unfold three; lia). destruct (okm_null_name t g AT_FDCWD path).
    + destruct (place_null_ok fd s Hfd Hl) as (s' & E & Hp & Hnow). unfold mbind, M_bind. rewrite E. eexists _, _. split; [reflexivity|]. split; [by eapply positions_inv|].
      intros _ x changed Hx _. replace x.2 with (sp_files s') by (destruct Hp as (_ & _ & _ & -> & _), Hx as (_ & -> & _); done). by apply (follows_set s).
    + unfold mbind at 1, M_bind at 1, gets. destruct (Z.leb_spec OKM_SPAWN_MAX_OPEN (Z.of_nat (length (sp_opened s)))) as [|Hlt]; [by exists ENOSYS, s|].
      destruct (okm_resolve t g AT_FDCWD path false) as [r|a] eqn:Er; [exists (- r), s; split; [done|]; split; [done|]; intros Hz; exfalso; apply resolve_error in Er; lia|].
      destruct (open_file_ok a (okm_open_flags oflag) s Hs Hlt) as (r & s1 & E1 & Hr & Hs1 & Hn1 & Hg1 & Hp1 & _). unfold mbind, M_bind. rewrite E1. destruct r as [e|f].
      * exists (okm_errno e), s1. split; [done|]. split; [done|]. intros He%okm_errno_ok. subst e. by destruct (Hopen _ _ _ (eq_sym Hr)).
      * destruct (place_ok fd (fs_stream f) s1 Hfd (si_three _ Hs1)) as (e & s' & E & Hp & Hg). exists e, s'. split; [done|]. split; [by eapply positions_inv|].
        intros He x changed Hx _. destruct Hx as (F1 & F2 & F3). rewrite <-F2, <-Hr. replace (Datatypes.S (sp_files s)) with (sp_files s') by (destruct Hp as (_ & _ & _ & -> & _); done).
        apply (follows_set s1 s' (x.1, sp_files s1)); [split; [intros j Hj; unfold decode; rewrite Hg1, Hp1; by apply F1|by split]|by apply Hg].
  - exists (if 2 <? fd then 0 else ENOSYS), s. split; [done|]. split; [done|]. intros He x changed (F1 & F2 & F3) _. assert (Hfd : 2 < fd) by (destruct (Z.ltb_spec 2 fd); [done|discriminate He]).
    split; [|split; [done|]]; cbn [fst]; unfold set_given; [intros j Hj; unfold three in *; replace (j =? fd) with false by lia; by apply F1|].
    intros fd' Hf. apply not_elem_of_cons in Hf as [Hne Hf]. replace (fd' =? fd) with false by lia. by apply F3.
  - destruct (okm_resolve t g AT_FDCWD path false) as [r|a] eqn:Er; [exists (- r), s; split; [done|]; split; [done|]; intros; by apply follows_more|].
    destruct (open_where_ok a (name_or_none (okm_absolute t g AT_FDCWD path OKM_MAX_PATH)) s Hs) as (e & s' & E & Hs' & E1 & E2 & E3). exists e, s'. split; [done|]. split; [done|]. intros _ x changed Hx _. by apply follows_more, (follows_other s).
  - destruct (desc_at t fd) as [d|]; [|by exists EBADF, s]. destruct (bool_decide (d_kind d = OKM_DIR)); [|by exists EBADF, s].
    destruct (open_where_ok (Names.At (d_dir d) [dot]) (name_or_none (okm_absolute t g fd [dot] OKM_MAX_PATH)) s Hs) as (e & s' & E & Hs' & E1 & E2 & E3). exists e, s'. split; [done|]. split; [done|]. intros _ x changed Hx _. by apply follows_more, (follows_other s).
  - by exists ENOSYS, s.
Qed.

Lemma actions_ok ops : forall s, spawn_inv s -> exists e s', actions t g fs_open fs_open_dir fs_stream ops s = Some (e, s') /\ spawn_inv s' /\
  (e = 0 -> forall x changed, follows s x changed -> independent changed ops = true -> exists changed', follows s' (fold_left (posix_action t g fs_open fs_stream) ops x) changed').
Proof.
  induction ops as [|op ops IH]; intros s Hs; cbn [actions independent fold_left]; [exists 0, s; split; [done|]; split; [done|]; eauto|].
  destruct (action_ok op s Hs) as (e & s1 & E & Hs1 & Hf). unfold mbind, M_bind. rewrite E. destruct (Z.eqb_spec e 0) as [->|He]; cbn [negb]; [|exists e, s1; by split_and!].
  destruct (IH s1 Hs1) as (e & s' & -> & Hs' & Hf'). exists e, s'. split; [done|]. split; [done|]. intros He x changed Hx [Hr Hi]%andb_true_iff. apply (Hf' He _ (changed_by op ++ changed)); [by apply Hf|done].
Qed.

Lemma seed_ok : exists e s', seed t spawn_zero = Some (e, s') /\ spawn_inv s' /\ (e = 0 -> follows s' (given_fd t, O) []).
Proof.
  assert (H0 : spawn_inv spawn_zero) by (constructor; cbn; [done|unfold OKM_SPAWN_MAX_OPEN; lia|done]). unfold seed, mbind at 1, M_bind at 1, set_null, modify. cbn [spawn_zero sp_pos g_null_at sp_placed sp_opened sp_where sp_files sp_dirs sp_calls].
  assert (three 0 /\ three 1 /\ three 2) as (T0 & T1 & T2) by (unfold three; lia).
  destruct (place_fd_ok 0 0 spawn_zero T0 eq_refl) as (e0 & s0 & E0 & P0 & G0). unfold mbind, M_bind. unfold spawn_zero in E0. rewrite E0. pose proof (positions_inv _ _ P0 H0) as I0.
  destruct (Z.eqb_spec e0 0) as [->|]; cbn [negb]; [|by exists e0, s0]. destruct (place_fd_ok 1 1 s0 T1 (si_three _ I0)) as (e1 & s1 & E1 & P1 & G1). rewrite E1. pose proof (positions_inv _ _ P1 I0) as I1.
  destruct (Z.eqb_spec e1 0) as [->|]; cbn [negb]; [|by exists e1, s1]. destruct (place_fd_ok 2 2 s1 T2 (si_three _ I1)) as (e2 & s2 & E2 & P2 & G2). exists e2, s2. split; [done|]. split; [by eapply positions_inv|]. intros He.
  destruct (G0 eq_refl) as (v0 & V0 & N0 & O0), (G1 eq_refl) as (v1 & V1 & N1 & O1), (G2 He) as (v2 & V2 & N2 & O2). split; [|split; [|done]].
  - cbn [fst]. intros j Hj. assert (j = 0 \/ j = 1 \/ j = 2) as [-> | [-> | ->]] by (unfold three in Hj; lia); [rewrite O2, O1, V0|rewrite O2, V1|rewrite V2]; done.
  - cbn [snd]. destruct P0 as (_ & _ & _ & F0 & _), P1 as (_ & _ & _ & F1 & _), P2 as (_ & _ & _ & F2 & _). by rewrite F2, F1, F0.
Qed.

(** The file of the null device takes the place of the device at every position [at']
    names. *)
Lemma place_nulls_ok at' f l : Forall three l -> forall s, spawn_inv s -> exists e s', place_nulls t fs_stream at' f l s = Some (e, s') /\ spawn_inv s' /\ at_positions s s' /\
  (e = 0 -> forall j, three j -> decode t s' j = if bool_decide (j ∈ l) && has at' (pos_bit j) then Some (G_stream (fs_stream f)) else decode t s j).
Proof.
  induction 1 as [|pos l Hp _ IH]; intros s Hs; cbn [place_nulls]; [exists 0, s; by split_and!|]. destruct (has at' (pos_bit pos)) eqn:Eh.
  - destruct (place_ok pos (fs_stream f) s Hp (si_three s Hs)) as (e & s1 & E & P & G). unfold mbind, M_bind. rewrite E. pose proof (positions_inv _ _ P Hs) as Hs1. destruct (Z.eqb_spec e 0) as [->|]; cbn [negb]; [|by exists e, s1].
    destruct (IH s1 Hs1) as (e & s' & -> & Hs' & P' & G'). exists e, s'. split; [done|]. split; [done|]. split; [unfold at_positions in *; naive_solver congruence|].
    intros He j Hj. rewrite (G' He j Hj). destruct (G eq_refl) as [N O]. destruct (Z.eq_dec j pos) as [->|Hne]; [rewrite (bool_decide_true (pos ∈ pos :: l)), Eh, N by (by left); by destruct (_ && _)|].
    rewrite (bool_decide_ext (j ∈ pos :: l) (j ∈ l)) by (rewrite elem_of_cons; naive_solver). by rewrite O.
  - unfold mbind, M_bind, mret at 1, M_ret at 1. cbn [Z.eqb negb]. destruct (IH s Hs) as (e & s' & -> & Hs' & P' & G'). exists e, s'. split; [done|]. split; [done|]. split; [done|].
    intros He j Hj. rewrite (G' He j Hj). destruct (Z.eq_dec j pos) as [->|Hne]; [by rewrite Eh, !andb_false_r|]. by rewrite (bool_decide_ext (j ∈ pos :: l) (j ∈ l)) by (rewrite elem_of_cons; naive_solver).
Qed.

Lemma decode_null s j : decode t s j = Some G_null <-> has (g_null_at s) (pos_bit j) = true.
Proof.
  unfold decode, says. destruct (has (g_null_at s) (pos_bit j)); [done|]. split; [|done]. destruct (at_ (sp_pos s) j) as [h|]; cbn; [|done]. destruct (h =? 0); [by destruct (okm_std_stream t j)|done].
Qed.

Lemma nulls_ok s : spawn_inv s -> exists e s', nulls_given t g pr fs_open fs_stream s = Some (e, s') /\ spawn_inv s' /\
  (e = 0 -> if pr_null pr then s' = s else forall j, three j ->
     (decode t s j = Some G_null -> exists f, Opened (R_file f) ∈ sp_calls s' /\ decode t s' j = Some (G_stream (fs_stream f))) /\ (decode t s j <> Some G_null -> decode t s' j = decode t s j)).
Proof.
  intros Hs. assert (Hnone : (pr_null pr = false -> g_null_at s = 0) -> if pr_null pr then s = s else forall j, three j ->
     (decode t s j = Some G_null -> exists f, Opened (R_file f) ∈ sp_calls s /\ decode t s j = Some (G_stream (fs_stream f))) /\ (decode t s j <> Some G_null -> decode t s j = decode t s j)).
  { intros Hz. destruct (pr_null pr); [done|]. intros j Hj. split; [|done]. intros Hd%decode_null. rewrite (Hz eq_refl) in Hd. unfold has in Hd. by rewrite Z.land_0_l in Hd. }
  unfold nulls_given, mbind at 1, M_bind at 1, gets. change (id s) with s. destruct (Z.eqb_spec (g_null_at s) 0) as [Hz|Hz]; [exists 0, s; split; [done|]; split; [done|]; intros _; by apply Hnone|].
  destruct (pr_null pr) eqn:Ep; [exists 0, s; by split_and!|]. destruct (Z.leb_spec OKM_SPAWN_MAX_OPEN (Z.of_nat (length (sp_opened s)))) as [|Hlt]; [by exists ENOSYS, s|].
  destruct (okm_resolve t g AT_FDCWD null_device false) as [r|a] eqn:Er; [exists (- r), s; split; [done|]; split; [done|]; intros He; exfalso; apply resolve_error in Er; lia|].
  destruct (open_file_ok a (okm_open_flags O_RDWR) s Hs Hlt) as (r & s1 & E1 & Hr & Hs1 & _ & Hn1 & Hp1 & Hop). unfold mbind, M_bind. rewrite E1. destruct r as [e|f].
  { exists (okm_errno e), s1. split; [done|]. split; [done|]. intros He%okm_errno_ok. subst e. by destruct (Hopen _ _ _ (eq_sym Hr)). }
  assert (Hall : Forall three [0; 1; 2]) by (repeat constructor; unfold three; lia). destruct (place_nulls_ok (g_null_at s) f [0; 1; 2] Hall s1 Hs1) as (e & s' & E & Hs' & P & G). exists e, s'. split; [done|]. split; [done|]. intros He j Hj.
  assert (Hin : bool_decide (j ∈ [0; 1; 2]) = true). { apply bool_decide_eq_true. assert (j = 0 \/ j = 1 \/ j = 2) as [-> | [-> | ->]] by (unfold three in Hj; lia); rewrite !elem_of_cons; auto. }
  rewrite (G He j Hj), Hin. cbn [andb]. assert (Hsame : decode t s1 j = decode t s j) by (unfold decode; by rewrite Hn1, Hp1). split.
  - intros Hd%decode_null. rewrite Hd. exists f. split; [|done]. destruct P as (_ & _ & _ & _ & _ & ->). by apply Hop.
  - intros Hd. destruct (has (g_null_at s) (pos_bit j)) eqn:Eh; [by apply decode_null in Eh|done].
Qed.

(** What the position [pos] of the start says is what is wanted; where that is the null
    device and the environment has no such stream, it is the stream of its file. *)
Definition gives (calls : list spawn_call) (want said : option given) : Prop := match want with
  | Some (G_stream x) => said = Some (G_stream x)
  | Some G_null => said = Some G_null \/ pr_null pr = false /\ exists f, Opened (R_file f) ∈ calls /\ said = Some (G_stream (fs_stream f))
  | None => False
  end.

Lemma decode_some s j : spawn_inv s -> three j -> is_Some (decode t s j).
Proof.
  intros Hs Hj. unfold decode, says. destruct (has _ _); [eauto|]. destruct (at_some (sp_pos s) j) as [h ->]; [rewrite (si_three s Hs); unfold three in Hj; lia|]. cbn. destruct (h =? 0); [|eauto].
  destruct (std_at j Hj) as [x ->]. cbn. eauto.
Qed.

Lemma prepare_ok ops : exists e s, prepare t g pr fs_open fs_open_dir fs_stream ops spawn_zero = Some (e, s) /\ spawn_inv s /\
  (e = 0 -> independent [] (rev ops) = true -> forall j, three j ->
     gives (sp_calls s) ((fold_left (posix_action t g fs_open fs_stream) (rev ops) (given_fd t, O)).1 j) (says t (if pr_null pr then g_null_at s else 0) (sp_pos s) j)) /\
  (e = 0 -> sp_placed s = true -> pr_stream pr = true).
Proof.
  unfold prepare. destruct seed_ok as (e & s0 & E & I0 & F0). unfold mbind, M_bind. rewrite E. destruct (Z.eqb_spec e 0) as [->|]; cbn [negb]; [|exists e, s0; by split_and!].
  destruct (actions_ok (rev ops) s0 I0) as (e & s1 & -> & I1 & F1). destruct (Z.eqb_spec e 0) as [->|]; cbn [negb]; [|exists e, s1; by split_and!].
  destruct (nulls_ok s1 I1) as (e & s2 & -> & I2 & F2). destruct (Z.eqb_spec e 0) as [->|]; cbn [negb]; [|exists e, s2; by split_and!]. unfold gets. change (id s2) with s2.
  eexists _, s2. split; [reflexivity|]. split; [done|]. split.
  2: { intros He Hpl. rewrite Hpl in He. by destruct (pr_stream pr). }
  intros _ Hi j Hj. destruct (F1 eq_refl _ _ (F0 eq_refl) Hi) as [ch (Hd & _ & _)]. specialize (Hd j Hj). specialize (F2 eq_refl). rewrite <-Hd. destruct (decode_some s1 j I1 Hj) as [v Hv]. unfold gives. destruct (pr_null pr) eqn:Ep.
  - subst s2. change (says t (g_null_at s1) (sp_pos s1) j) with (decode t s1 j). rewrite Hv. destruct v; auto.
  - destruct (F2 j Hj) as [Hn Ho]. assert (Hz : decode t s2 j <> Some G_null -> says t 0 (sp_pos s2) j = decode t s2 j).
    { intros Hne. unfold decode, says. destruct (has (g_null_at s2) (pos_bit j)) eqn:Eh; [by apply decode_null in Eh|]. unfold has. by rewrite Z.land_0_l. }
    rewrite Hv. destruct v as [|x].
    + destruct (Hn Hv) as (f & Hf & Hdf). right. split; [done|]. exists f. split; [done|]. rewrite Hz; [done|]. by rewrite Hdf.
    + assert (Hx : decode t s2 j = Some (G_stream x)) by (rewrite Ho; [done|by rewrite Hv]). rewrite Hz; [done|]. by rewrite Hx.
Qed.
End spawn.

(** ** posix_spawn *)

(** What is asked of the environment says what the positions say. *)
Lemma asked_right t g pr fs_open fs_stream ops a bound unit argv envp s :
  (independent [] (rev ops) = true -> forall j, three j ->
     gives pr fs_stream (sp_calls s) ((fold_left (posix_action t g fs_open fs_stream) (rev ops) (given_fd t, O)).1 j) (says t (if pr_null pr then g_null_at s else 0) (sp_pos s) j)) ->
  forall a0, Some (start_ask g pr a bound unit argv envp s) = Some a0 -> independent [] (rev ops) = true -> forall j, three j ->
     gives pr fs_stream (finish s) ((fold_left (posix_action t g fs_open fs_stream) (rev ops) (given_fd t, O)).1 j) (says t (how_nulls a0) (how_streams a0) j).
Proof.
  intros Hg a0 [= <-] Hi j Hj. cbn [start_ask how_nulls how_streams]. specialize (Hg Hi j Hj). unfold gives in *. destruct ((fold_left _ _ _).1 j) as [[|x]|]; [|done|done].
  destruct Hg as [Hg|(Hp & f & Hf & Hg)]; [by left|right]. split; [done|]. exists f. split; [|done]. unfold finish. apply elem_of_app. by left.
Qed.

(** What is right of a start's outcome. *)
Definition started_right (t : fd_table) (g : names) (pr : props) fs_open fs_stream (ops : list fdop) (argv envp : list str) (bound : bool) (start : kal_error * Z * Z) (id : option Z) (st : list Z) (p : procs)
    (x : option ((Z * option Z * option spawn_ask * list spawn_call) * procs)) : Prop :=
  exists r told ask calls p', x = Some ((r, told, ask, calls), p') /\ opened_of calls ≡ₚ closed_of calls /\
    (forall a, ask = Some a -> how_args a = argv /\ how_envs a = envp /\ how_bound a = bound && pr_bound pr) /\
    (forall a, ask = Some a -> independent [] (rev ops) = true -> forall j, three j ->
       gives pr fs_stream calls ((fold_left (posix_action t g fs_open fs_stream) (rev ops) (given_fd t, O)).1 j) (says t (how_nulls a) (how_streams a) j)) /\
    (r = 0 <-> is_Some told) /\ (forall pid, told = Some pid -> start.1.1 = kal_ok /\ is_Some ask /\ 0 < pid /\ pid = number_of id (g_next_pid p + 1) /\ newly p p' pid start.1.2) /\
    children_ok (if bool_decide (is_Some ask) && bool_decide (start.1.1 = kal_ok) then start.1.2 :: st else st) p'.

Lemma spawn_started_right t g pr fs_info fs_open fs_open_dir fs_stream path ops attr argv envp bound start id st p :
  Z.of_nat (length (g_std_stream t)) = 3 -> (forall n a fl, fs_open n a fl <> inl kal_ok) -> children_ok st p -> pids_left p ->
  started_right t g pr fs_open fs_stream ops argv envp bound start id st p (spawn_common t g pr fs_info fs_open fs_open_dir fs_stream path ops attr argv envp bound start id p).
Proof.
  intros Hstd Hopen Hch Hleft. unfold spawn_common. cbv zeta.
  assert (Hrefuse : forall e calls, e <> 0 -> opened_of calls ≡ₚ closed_of calls -> started_right t g pr fs_open fs_stream ops argv envp bound start id st p (Some ((e, None, None, calls), p))).
  { intros e calls He Hc. exists e, None, None, calls, p. by split_and!. }
  do 3 (split_if; [by apply Hrefuse|]). destruct (okm_resolve t g AT_FDCWD path false) as [r|a] eqn:Er; [apply Hrefuse; [apply resolve_error in Er; lia|done]|].
  destruct (Z.eqb_spec (startable fs_info (at_base a) (at_rel a)) 0); cbn [negb]; [|by apply Hrefuse]. split_if; [by apply Hrefuse|].
  destruct (prepare_ok t g pr fs_open fs_open_dir fs_stream Hstd Hopen ops) as (e' & s & E & Hs & Hg & _). unfold mbind, M_bind, try. rewrite E. cbn [fmap option_fmap option_map fst snd]. pose proof (finish_closes s Hs) as Hc.
  destruct (Z.eqb_spec e' 0) as [->|]; cbn [negb]; [|by apply Hrefuse].
  pose proof (asked_right t g pr fs_open fs_stream ops a bound (has match attr with Some x => sa_flags x | None => 0 end POSIX_SPAWN_SETPGROUP) argv envp s (Hg eq_refl)) as Hsaid.
  case_bool_decide as Hst; cbn [negb].
  - destruct (spawned_ok st p start.1.2 start.2 id Hch Hleft) as (r & p' & E' & Hch' & Hr). rewrite E'. eexists _, _, _, _, p'. split; [reflexivity|]. split; [done|]. split; [by intros ? [= <-]|]. split; [done|].
    destruct Hr as [[_ ->]|(_ & pid & Hpos & Hid & -> & Hof)]; (split; [split; [by eauto|by intros [? ?]]|]); (split; [|by rewrite !bool_decide_true by eauto]); [done|]. intros ? [= <-]. by split_and!.
  - pose proof (errno_pos _ Hst). eexists _, None, _, _, p. split; [reflexivity|]. split; [done|]. split; [by intros ? [= <-]|]. split; [done|]. split; [split; [lia|by intros [? ?]]|]. split; [done|]. by rewrite (bool_decide_false (start.1.1 = kal_ok)), andb_false_r by done.
Qed.

(** C12. posix_spawn, whatever the actions, the attributes and the environment's answers,
    while the counter of this library's own numbers is below the largest int:
    it returns, and every file and directory it opened for the start is closed again. The
    environment is asked to start a program only where nothing was refused, with the
    caller's arguments and environment and bound where that was asked; then, where no
    duplicate reads a descriptor that an action before it changed and no relative name is
    opened after the directory was changed, each of the program's three streams is the one
    POSIX gives it: that of a table of its own, which begins as the caller's and which the
    actions change in the order they were added. Zero is answered exactly where a number is
    told, which is the environment's for the program or the next of this library's own, and
    the number of the one entry the table of children has gained, which
    holds the program just started. *)
Theorem spawn_exact t g pr fs_info fs_open fs_open_dir fs_stream path ops attr argv envp bound start id st p :
  Z.of_nat (length (g_std_stream t)) = 3 -> (forall n a fl, fs_open n a fl <> inl kal_ok) -> children_ok st p -> pids_left p ->
  exists r told ask calls p', spawn_common t g pr fs_info fs_open fs_open_dir fs_stream path ops attr argv envp bound start id p = Some ((r, told, ask, calls), p') /\
    opened_of calls ≡ₚ closed_of calls /\
    (forall a, ask = Some a -> how_args a = argv /\ how_envs a = envp /\ how_bound a = bound && pr_bound pr) /\
    (forall a, ask = Some a -> independent [] (rev ops) = true -> forall j, three j ->
       gives pr fs_stream calls ((fold_left (posix_action t g fs_open fs_stream) (rev ops) (given_fd t, O)).1 j) (says t (how_nulls a) (how_streams a) j)) /\
    (r = 0 <-> is_Some told) /\ (forall pid, told = Some pid -> start.1.1 = kal_ok /\ is_Some ask /\ 0 < pid /\ pid = number_of id (g_next_pid p + 1) /\ newly p p' pid start.1.2) /\
    children_ok (if bool_decide (is_Some ask) && bool_decide (start.1.1 = kal_ok) then start.1.2 :: st else st) p'.
Proof. apply spawn_started_right. Qed.

(** A table as it is at first: 10, 11 and 12 are the streams of the program. *)
Definition at_first : fd_table :=
  FdTable [Desc 1 OKM_STREAM O_RDONLY 10 0 0 0 0 (-1) 0 0 [] (-1) 0 0 0; Desc 1 OKM_STREAM O_WRONLY 11 0 0 0 0 (-1) 0 0 [] (-1) 0 0 0; Desc 1 OKM_STREAM O_WRONLY 12 0 0 0 0 (-1) 0 0 [] (-1) 0 0 0]
    ([(0, 0); (1, 0); (2, 0)] ++ replicate 1021 (OKM_FD_FREE, 0)) [] [] [] 0 [] [] [10; 11; 12].

Definition one_supplied : names := Names [Preopen 1 [47]] 1 [47].
Definition all_props : props := Props true true true true true.
(** The n-th file opened is 70 + n, its stream 170 + n. *)
Definition opens (n : nat) (a : okm_at) (fl : kal_open) : kal_error + Z := inr (70 + Z.of_nat n).
Definition opens_dir (n : nat) (a : okm_at) : kal_error + Z := inr (90 + Z.of_nat n).
Definition streams (f : Z) : Z := 100 + f.

(** ">log 2>&1", the last action first; and the same by the descriptor 2 to 1. *)
Definition log_both : list fdop := [FDOP_DUP2 2 1; FDOP_OPEN 1 [108; 111; 103] O_WRONLY].
Definition log_err : list fdop := [FDOP_OPEN 2 [108; 111; 103] O_WRONLY; FDOP_DUP2 1 2].

Lemma spawn_exact_witness : exists r told ask calls p',
  spawn_common at_first one_supplied all_props (fun _ _ => inr kal_node_file) opens opens_dir streams [47; 98; 105; 110] log_err None [[98; 105; 110]] [] false (kal_ok, 41, 0) None procs_zero
    = Some ((r, told, ask, calls), p') /\ opened_of calls ≡ₚ closed_of calls.
Proof.
  destruct (spawn_exact at_first one_supplied all_props (fun _ _ => inr kal_node_file) opens opens_dir streams [47; 98; 105; 110] log_err None [[98; 105; 110]] [] false (kal_ok, 41, 0) None [] procs_zero)
    as (r & told & ask & calls & p' & E & Hc & _); [reflexivity|discriminate|apply procs_zero_ok|reflexivity|]. exists r, told, ask, calls, p'. split; [exact E|exact Hc].
Defined.

(** But a duplicate of a descriptor that an action before it changed reads the
    caller's own: of "standard output to this file, then standard error to standard
    output", the program is given the file as its output and the caller's output, not the
    file, as its error. *)
Theorem spawn_dup_reads_caller : exists e s,
  prepare at_first one_supplied all_props opens opens_dir streams log_both spawn_zero = Some (e, s) /\ e = 0 /\
  (says at_first (g_null_at s) (sp_pos s) 1 = Some (G_stream 170) /\ says at_first (g_null_at s) (sp_pos s) 2 = Some (G_stream 11)) /\
  (fold_left (posix_action at_first one_supplied opens streams) (rev log_both) (given_fd at_first, O)).1 2 = Some (G_stream 170).
Proof. eexists _, _. split; [vm_compute; reflexivity|]. by split_and!. Qed.

(** ** The search of PATH *)

(** The entries with colons between them. *)
Fixpoint with_colons (es : list str) : str :=
  match es with
  | [] => []
  | [e] => e
  | e :: es' => e ++ colon :: with_colons es'
  end.

(** The names an entry gives: none where the name does not fit. *)
Definition name_of (file entry : str) : list str := if bool_decide (len (cand entry file) < OKM_MAX_PATH) then [cand entry file] else [].

(** An answer that says the name is not there, or not one to be run. *)
Definition elsewhere (e : Z) : Prop := e = EACCES \/ e = ENOENT \/ e = ENOTDIR.
#[global] Instance elsewhere_dec e : Decision (elsewhere e).
Proof. unfold elsewhere. apply _. Defined.

(** What the first of the names that is there answers, and the names tried; [seen]:
    whether one before them was there and not to be run. *)
Definition first_there (f : str -> Z) (seen : bool) (cs : list str) : Z * list str :=
  match list_find (fun c => ~ elsewhere (f c)) cs with
  | Some (i, c) => (f c, take (S i) cs)
  | None => (if seen || bool_decide (Exists (fun c => f c = EACCES) cs) then EACCES else ENOENT, cs)
  end.

(** A start whose answer is of the name alone, with a record of the names. *)
Definition noted (f : str -> Z) (c : str) : M (list str) Z := fun l => Some (f c, l ++ [c]).

Lemma until_colon_ok p : colon ∉ (until_colon p).1 /\ p = (until_colon p).1 ++ match (until_colon p).2 with Some p' => colon :: p' | None => [] end.
Proof.
  induction p as [|c p [IH1 IH2]]; [split; [by intros H%elem_of_nil|done]|]. cbn [until_colon]. destruct (Z.eqb_spec c colon) as [->|Hc]; [split; [by intros H%elem_of_nil|done]|].
  destruct (until_colon p) as [e r]. cbn [fst snd] in *. split; [|by rewrite IH2]. rewrite not_elem_of_cons. by split.
Qed.

Lemma fits_len entry file : (len entry + (if len entry =? 0 then 0 else 1) + len file + 1 <=? OKM_MAX_PATH) = bool_decide (len (cand entry file) < OKM_MAX_PATH).
Proof.
  assert (E : len (cand entry file) = len entry + (if len entry =? 0 then 0 else 1) + len file).
  { unfold cand, len. destruct entry as [|c e]; [done|]. rewrite length_app. cbn [length]. replace (Z.of_nat (S (length e)) =? 0) with false by lia. lia. }
  rewrite E. case_bool_decide; lia.
Qed.

Lemma search_entry {A} (f : str -> M A Z) fuel file p seen : search f (S fuel) file p seen =
  (r ← (if bool_decide (len (cand (until_colon p).1 file) < OKM_MAX_PATH) then
          e ← f (cand (until_colon p).1 file);
          mret (if e =? 0 then inl 0 else if e =? EACCES then inr true else if (e =? ENOENT) || (e =? ENOTDIR) then inr seen else inl e)
        else mret (inr seen));
   match r : Z + bool with
   | inl e => mret e
   | inr seen => match (until_colon p).2 with None => mret (if seen then EACCES else ENOENT) | Some p' => search f fuel file p' seen end
   end).
Proof. cbn [search]. destruct (until_colon p) as [e r]. cbn [fst snd]. by rewrite fits_len. Qed.

Lemma first_there_cons f seen c cs : first_there f seen (c :: cs) =
  if bool_decide (elsewhere (f c)) then let x := first_there f (seen || bool_decide (f c = EACCES)) cs in (x.1, c :: x.2) else (f c, [c]).
Proof.
  unfold first_there. cbn [list_find]. case_decide as Hc; [rewrite bool_decide_false by done; cbn [take]; by rewrite take_0|]. rewrite (bool_decide_true (elsewhere (f c))) by done. cbv zeta.
  destruct (list_find _ cs) as [[i x]|]; cbn [fmap option_fmap option_map prod_map]; [done|]. cbn [fst snd]. by rewrite (bool_decide_ext _ _ (Exists_cons _ _ _)), bool_decide_or, orb_assoc.
Qed.

Lemma names_fit file e es : len (cand e file) < OKM_MAX_PATH -> (e :: es) ≫= name_of file = cand e file :: (es ≫= name_of file).
Proof. intros H. rewrite bind_cons. unfold name_of at 1. by rewrite bool_decide_true. Qed.

Lemma search_there f file fuel : forall p seen l, (length p < fuel)%nat -> exists es, with_colons es = p /\ Forall (fun e => colon ∉ e) es /\ es <> [] /\
  search (noted f) fuel file p seen l = Some ((first_there f seen (es ≫= name_of file)).1, l ++ (first_there f seen (es ≫= name_of file)).2).
Proof.
  induction fuel as [|fuel IH]; intros p seen l Hf; [lia|]. rewrite search_entry. pose proof (until_colon_ok p) as [Hno Hp]. destruct (until_colon p) as [e rest]. cbn [fst snd] in *.
  assert (Hrest : forall seen' l', exists es, with_colons es = match rest with Some p' => p' | None => [] end /\ Forall (fun e => colon ∉ e) es /\ (rest = None -> es = []) /\ (rest <> None -> es <> []) /\
    match rest with None => mret (if seen' then EACCES else ENOENT) | Some p' => search (noted f) fuel file p' seen' end l' =
      Some ((first_there f seen' (es ≫= name_of file)).1, l' ++ (first_there f seen' (es ≫= name_of file)).2)).
  { intros seen' l'. destruct rest as [p'|].
    - destruct (IH p' seen' l') as (es & H1 & H2 & H3 & H4); [rewrite Hp, length_app in Hf; cbn in Hf; lia|]. exists es. by split_and!.
    - exists []. split_and!; try done. cbn. by rewrite orb_false_r, app_nil_r. }
  assert (Hgoal : forall seen' l' (Q : list str -> Prop), (forall es, match rest with None => mret (if seen' then EACCES else ENOENT) | Some p' => search (noted f) fuel file p' seen' end l' =
      Some ((first_there f seen' (es ≫= name_of file)).1, l' ++ (first_there f seen' (es ≫= name_of file)).2) -> Q (e :: es)) -> exists es, with_colons es = p /\ Forall (fun e => colon ∉ e) es /\ es <> [] /\ Q es).
  { intros seen' l' Q HQ. destruct (Hrest seen' l') as (es & H1 & H2 & H3 & H4 & H5). exists (e :: es). split_and!; [|by constructor|done|by apply HQ].
    rewrite Hp. destruct rest as [p'|]; [|by rewrite (H3 eq_refl), app_nil_r]. destruct es as [|x es]; [by destruct (H4 ltac:(done))|]. cbn [with_colons] in *. by rewrite H1. }
  unfold mbind, M_bind, noted. case_bool_decide as Hfit.
  - cbn [mret M_ret]. destruct (decide (elsewhere (f (cand e file)))) as [He|He].
    + apply (Hgoal (seen || bool_decide (f (cand e file) = EACCES)) (l ++ [cand e file])). intros es Hes. rewrite names_fit by done.
      rewrite first_there_cons, (bool_decide_true (elsewhere _)) by done. cbv zeta. cbn [fst snd]. rewrite <-app_assoc in Hes. refine (eq_trans _ Hes).
      destruct He as [E|[E|E]]; rewrite E; cbn; by rewrite ?orb_true_r, ?orb_false_r.
    + apply (Hgoal false []). intros es _. rewrite names_fit by done.
      rewrite first_there_cons, (bool_decide_false (elsewhere _)) by done. unfold elsewhere in He. cbn [fst snd]. destruct (Z.eqb_spec (f (cand e file)) 0) as [E|]; [by rewrite E|].
      by replace (f (cand e file) =? EACCES) with false by lia; replace (f (cand e file) =? ENOENT) with false by lia; replace (f (cand e file) =? ENOTDIR) with false by lia.
  - apply (Hgoal seen l). intros es Hes. rewrite bind_cons. unfold name_of at 1 3. rewrite bool_decide_false by done. cbn [app]. exact Hes.
Qed.

(** posix_spawnp of a name without a slash: PATH is read as entries between colons,
    and the names they give that fit are tried in order, each once, until one answers
    something other than that it is not there or is not to be run; that is the answer,
    zero included, and no name after it is tried. Where there is none, every name was
    tried, and the answer is EACCES where one of them said so and ENOENT otherwise. *)
Theorem spawnp_searches f path file : slash ∉ file -> 0 < len file <= NAME_MAX ->
  exists es, with_colons es = default default_path path /\ Forall (fun e => colon ∉ e) es /\ es <> [] /\
    posix_spawnp (noted f) path file [] = Some (first_there f false (es ≫= name_of file)).
Proof.
  intros Hs Hl. unfold posix_spawnp. replace (len file =? 0) with false by lia. rewrite bool_decide_false by done. replace (NAME_MAX <? len file) with false by lia.
  destruct (search_there f file (S (length (default default_path path))) (default default_path path) false [] (Nat.lt_succ_diag_r _)) as (es & H1 & H2 & H3 & H4). exists es. split_and!; try done. rewrite H4. cbn [app]. by destruct (first_there _ _ _).
Qed.

(** Of "sh", with the default PATH, where only /bin/sh is. *)
Definition only_bin (c : str) : Z := if bool_decide (c = [47; 98; 105; 110; 47; 115; 104]) then 0 else ENOENT.

Lemma spawnp_searches_witness : posix_spawnp (noted only_bin) None [115; 104] [] =
  Some (0, [[47; 117; 115; 114; 47; 108; 111; 99; 97; 108; 47; 98; 105; 110; 47; 115; 104]; [47; 98; 105; 110; 47; 115; 104]]) /\
  exists es, with_colons es = default_path /\ posix_spawnp (noted only_bin) None [115; 104] [] = Some (first_there only_bin false (es ≫= name_of [115; 104])).
Proof.
  split; [vm_compute; reflexivity|]. destruct (spawnp_searches only_bin None [115; 104]) as (es & H1 & _ & _ & H2); [apply (bool_decide_eq_true_1 (slash ∉ [115; 104])); vm_compute; reflexivity|done|]. by exists es.
Defined.
