(* ===== verification/Select.v ===== *)
(** select, pselect6 and ppoll (port/src/okm_syscall.c): the bound in milliseconds, the
    entries made of the two sets, poll, and the sets made of the entries. The sets answered say what
    poll reports of the descriptors asked about, and the answer is the number of bits set
    in them. *)
From S2P Require Import Prelude Kal FdTable Net Poll FdTheorems NetTheorems PollTheorems.
From stdpp Require Import base list option gmap.
From Stdlib Require Import ZArith Lia.

#[local] Open Scope Z_scope.

Definition FD_SETSIZE : Z := 1024.
Definition OKM_SELECT_MAX : Z := 128.

(** The bits set. *)
Notation fd_set := (gset Z).

(** A timespec is its seconds and nanoseconds. *)
Definition ms_of_timespec (ts : option (Z * Z)) : Z :=
  match ts with
  | None => -1
  | Some (sec, nsec) =>
      if (sec =? 0) && (nsec =? 0) then 0
      else
        let ms := sext64 (sec * 1000 + Z.quot nsec 1000000) in
        let ms := if ms =? 0 then 1 else ms in
        let ms := if 0x7fffffff <? ms then 0x7fffffff else ms in
        sext32 ms
  end.

Definition FD_ISSET (fd : Z) (s : option fd_set) : bool := match s with Some s => bool_decide (fd ∈ s) | None => false end.

Definition events_of (rd wr : option fd_set) (fd : Z) : Z :=
  Z.lor (if FD_ISSET fd rd then POLLIN else 0) (if FD_ISSET fd wr then POLLOUT else 0).

(** The entries of the [n] descriptors from [fd], [watched] of them being there already;
    [None] where there is no room for one. *)
Fixpoint watch (rd wr : option fd_set) (n : nat) (fd watched : Z) : option (list pollfd) :=
  match n with
  | O => Some []
  | S n' =>
      let ev := events_of rd wr fd in
      if ev =? 0 then watch rd wr n' (fd + 1) watched
      else if watched =? OKM_SELECT_MAX then None
      else (fun l => Pollfd fd ev 0 :: l) <$> watch rd wr n' (fd + 1) (watched + 1)
  end.

Definition FD_ZERO (s : option fd_set) : option fd_set := (fun _ => ∅) <$> s.
Definition FD_SET (fd : Z) (s : option fd_set) : option fd_set := (fun s => {[fd]} ∪ s) <$> s.

Definition IN_BITS : Z := Z.lor (Z.lor (Z.lor POLLIN POLLHUP) POLLERR) POLLNVAL.
Definition OUT_BITS : Z := Z.lor (Z.lor POLLOUT POLLERR) POLLNVAL.

(** The sets, and the bits set in them. *)
Fixpoint report (l : list pollfd) (rd wr : option fd_set) (count : Z) : Z * option fd_set * option fd_set :=
  match l with
  | [] => (count, rd, wr)
  | p :: l' =>
      let i := bool_decide (is_Some rd) && has (p_revents p) IN_BITS in
      let o := bool_decide (is_Some wr) && has (p_revents p) OUT_BITS in
      report l' (if i then FD_SET (p_fd p) rd else rd) (if o then FD_SET (p_fd p) wr else wr)
        (count + (if i then 1 else 0) + (if o then 1 else 0))
  end.

Section select.
Context (can_bound can_accept can_recv : bool).

(** The answer and the three sets; the answer is [None] where [fuel] rounds were not
    enough. *)
Definition do_pselect (fuel : nat) (nfds : Z) (rd wr ex : option fd_set) (ts : option (Z * Z)) (env : nat -> nat -> attempt)
    : M net (option Z * (option fd_set * option fd_set * option fd_set)) :=
  if (nfds <? 0) || (FD_SETSIZE <? nfds) then mret (Some (- EINVAL), (rd, wr, ex))
  else match watch rd wr (Z.to_nat nfds) 0 0 with
  | None => mret (Some (- EINVAL), (rd, wr, ex))
  | Some l =>
      '(r, l') ← okm_poll can_bound can_accept can_recv fuel (Some l) (Z.of_nat (length l)) (ms_of_timespec ts) env;
      match r with
      | None => mret (None, (rd, wr, ex))
      | Some r =>
          if r <? 0 then mret (Some r, (rd, wr, ex))
          else let '(count, rd', wr') := report l' (FD_ZERO rd) (FD_ZERO wr) 0 in mret (Some count, (rd', wr', FD_ZERO ex))
      end
  end.

(** select states its bound in microseconds. *)
Definition do_select (fuel : nat) (nfds : Z) (rd wr ex : option fd_set) (tv : option (Z * Z)) (env : nat -> nat -> attempt) :=
  do_pselect fuel nfds rd wr ex ((fun x => (x.1, x.2 * 1000)) <$> tv) env.

Definition do_ppoll (fuel : nat) (fds : option (list pollfd)) (n : Z) (ts : option (Z * Z)) (env : nat -> nat -> attempt) :=
  okm_poll can_bound can_accept can_recv fuel fds n (ms_of_timespec ts) env.
End select.

(** ** What select promises *)

(** ** The bound *)

Lemma ms_range sec nsec : 0 <= sec < 2 ^ 53 -> 0 <= nsec < 1000000000 ->
  0 <= ms_of_timespec (Some (sec, nsec)) < 2 ^ 31 /\ (ms_of_timespec (Some (sec, nsec)) = 0 <-> sec = 0 /\ nsec = 0).
Proof.
  intros Hs Hn. unfold ms_of_timespec. destruct ((sec =? 0) && (nsec =? 0)) eqn:E; boolean; [lia|].
  rewrite Z.quot_div_nonneg by lia. assert (Hq : 0 <= nsec / 1000000 < 1000) by (split; [apply Z.div_pos|apply Z.div_lt_upper_bound]; lia).
  assert (Hm : 0 <= sec * 1000 + nsec / 1000000 < 2 ^ 63) by lia. assert (Hz : sec * 1000 + nsec / 1000000 = 0 -> sec = 0) by lia. revert Hm Hz. generalize (sec * 1000 + nsec / 1000000). intros m Hm Hz. unfold sext64, sext32. cbv zeta. rewrite (Z.mod_small (m + 2 ^ 63)) by lia.
  replace (m + 2 ^ 63 - 2 ^ 63) with m by lia. set (v := if 0x7fffffff <? _ then _ else _). assert (Hv : 1 <= v < 2 ^ 31) by (unfold v; split_ifs; lia).
  rewrite Z.mod_small by lia. lia.
Qed.

(** ** The entries *)

Definition asked (rd wr : option fd_set) (fd : Z) : Prop := FD_ISSET fd rd = true \/ FD_ISSET fd wr = true.
#[global] Instance asked_dec rd wr fd : Decision (asked rd wr fd).
Proof. unfold asked. apply _. Defined.

Definition entry_of (rd wr : option fd_set) (fd : Z) : pollfd := Pollfd fd (events_of rd wr fd) 0.

Lemma events_zero rd wr fd : events_of rd wr fd = 0 <-> ~ asked rd wr fd.
Proof. unfold events_of, asked. destruct (FD_ISSET fd rd), (FD_ISSET fd wr); cbn; naive_solver. Qed.

(** There is room for all of them, or none is watched. *)
Lemma watch_eq rd wr n : forall fd k, 0 <= k <= OKM_SELECT_MAX -> watch rd wr n fd k =
  if k + Z.of_nat (length (filter (asked rd wr) (seqZ fd (Z.of_nat n)))) <=? OKM_SELECT_MAX then Some (entry_of rd wr <$> filter (asked rd wr) (seqZ fd (Z.of_nat n))) else None.
Proof.
  induction n as [|n IH]; intros fd k Hk; [change (seqZ fd (Z.of_nat 0)) with (@nil Z); cbn [length filter list_filter fmap list_fmap watch]; by replace (_ <=? _) with true by lia|].
  rewrite seqZ_cons, filter_cons by lia. replace (Z.pred (Z.of_nat (S n))) with (Z.of_nat n) by lia. cbn [watch]. destruct (Z.eqb_spec (events_of rd wr fd) 0) as [E|E].
  - apply events_zero in E. rewrite decide_False by done. by rewrite IH, Z.add_1_r.
  - rewrite events_zero in E. rewrite decide_True by (by apply dec_stable). cbn [length fmap list_fmap]. destruct (Z.eqb_spec k OKM_SELECT_MAX) as [->|Hne]; [by replace (_ <=? _) with false by lia|].
    rewrite IH by lia. rewrite (Z.add_1_r fd). set (x := filter _ (seqZ (Z.succ fd) _)). replace (k + Z.of_nat (S (length x)) <=? OKM_SELECT_MAX) with (k + 1 + Z.of_nat (length x) <=? OKM_SELECT_MAX) by lia. by destruct (_ <=? _).
Qed.

(** ** The sets *)

Definition size_of (s : option fd_set) : Z := match s with Some s => Z.of_nat (size s) | None => 0 end.

(** The descriptors of the entries whose answer has one of the bits [m]. *)
Definition with_bits (m : Z) (l : list pollfd) : gset Z := list_to_set (p_fd <$> filter (fun p => has (p_revents p) m = true) l).

Lemma with_bits_cons m p l : with_bits m (p :: l) = (if has (p_revents p) m then {[p_fd p]} else ∅) ∪ with_bits m l.
Proof. unfold with_bits. rewrite filter_cons. destruct (has (p_revents p) m); [by rewrite decide_True|rewrite decide_False by done]. cbn. set_solver. Qed.

Lemma with_bits_in m l fd : fd ∈ with_bits m l <-> exists p, p ∈ l /\ p_fd p = fd /\ has (p_revents p) m = true.
Proof. unfold with_bits. rewrite elem_of_list_to_set, list_elem_of_fmap. setoid_rewrite list_elem_of_filter. naive_solver. Qed.

Lemma with_bits_size m p l : p_fd p ∉ p_fd <$> l -> Z.of_nat (size (with_bits m (p :: l))) = (if has (p_revents p) m then 1 else 0) + Z.of_nat (size (with_bits m l)).
Proof.
  intros Hp. rewrite with_bits_cons. destruct (has (p_revents p) m); [|by rewrite union_empty_l_L]. rewrite size_union, size_singleton; [lia|]. apply disjoint_singleton_l.
  intros (q & Hq & E & _)%with_bits_in. apply Hp. rewrite <-E. by apply list_elem_of_fmap_2.
Qed.

(** One set, after one entry. *)
Definition after (m : Z) (p : pollfd) (s : option fd_set) : option fd_set := if bool_decide (is_Some s) && has (p_revents p) m then FD_SET (p_fd p) s else s.

Lemma after_bits m p l s : (fun s => s ∪ with_bits m l) <$> after m p s = (fun s => s ∪ with_bits m (p :: l)) <$> s.
Proof. unfold after. rewrite with_bits_cons. destruct s as [s|]; [|done]. cbn. destruct (has _ _); cbn; f_equal; set_solver. Qed.

Lemma after_size m p l s : p_fd p ∉ p_fd <$> l ->
  size_of ((fun _ => with_bits m (p :: l)) <$> s) = (if bool_decide (is_Some s) && has (p_revents p) m then 1 else 0) + size_of ((fun _ => with_bits m l) <$> after m p s).
Proof. intros Hp. unfold after. destruct s as [s|]; [|done]. cbn [fmap option_fmap option_map size_of]. rewrite with_bits_size by done. cbn. by destruct (has _ _). Qed.

Lemma report_eq l : NoDup (p_fd <$> l) -> forall rd wr k, report l rd wr k =
  (k + size_of ((fun _ => with_bits IN_BITS l) <$> rd) + size_of ((fun _ => with_bits OUT_BITS l) <$> wr), (fun s => s ∪ with_bits IN_BITS l) <$> rd, (fun s => s ∪ with_bits OUT_BITS l) <$> wr).
Proof.
  induction l as [|p l IH]; cbn [fmap list_fmap report]; intros Hd rd wr k.
  - assert (E : forall s : option fd_set, size_of ((fun _ => with_bits IN_BITS []) <$> s) = 0 /\ (fun s => s ∪ with_bits IN_BITS []) <$> s = s) by (intros [s|]; [|done]; split; [done|]; cbn; by rewrite union_empty_r_L).
    change (with_bits OUT_BITS []) with (with_bits IN_BITS []). destruct (E rd) as [-> ->], (E wr) as [-> ->]. f_equal. f_equal. lia.
  - apply NoDup_cons in Hd as [Hp Hd]. fold (after IN_BITS p rd) (after OUT_BITS p wr). rewrite IH, !after_bits, !after_size by done. f_equal. f_equal. lia.
Qed.

(** ** select *)

(** What the descriptor [fd] is ready for. *)
Definition in_ready (n : net) (fd : Z) : Prop := exists i d, okm_desc_of (n_fds n) fd = Some i /\ at_ (g_desc (n_fds n)) i = Some d /\ (always_ready d = true \/ held n i).
Definition out_ready (n : net) (fd : Z) : Prop := exists i d, okm_desc_of (n_fds n) fd = Some i /\ at_ (g_desc (n_fds n)) i = Some d /\ (always_ready d = true \/ writable d = true).

Lemma has_lor x a b : has x (Z.lor a b) = has x a || has x b.
Proof. unfold has. rewrite Z.land_lor_distr_r. destruct (Z.eqb_spec (Z.lor (Z.land x a) (Z.land x b)) 0) as [E|E]; rewrite Z.lor_eq_0_iff in E; destruct (Z.eqb_spec (Z.land x a) 0), (Z.eqb_spec (Z.land x b) 0); naive_solver. Qed.

Lemma events_in rd wr fd : has (events_of rd wr fd) POLLIN = FD_ISSET fd rd /\ has (events_of rd wr fd) POLLOUT = FD_ISSET fd wr.
Proof. unfold events_of. by destruct (FD_ISSET fd rd), (FD_ISSET fd wr). Qed.

(** An answer for an open descriptor, without the bits it cannot have. *)
Lemma reported_open n p : reported n p -> 0 <= p_fd p -> is_Some (okm_desc_of (n_fds n) (p_fd p)) ->
  (has (p_revents p) IN_BITS = true -> has (p_events p) POLLIN = true /\ in_ready n (p_fd p)) /\
  (has (p_revents p) OUT_BITS = true <-> has (p_events p) POLLOUT = true /\ out_ready n (p_fd p)).
Proof.
  intros H Hp [i Hi]. unfold reported in H. replace (p_fd p <? 0) with false in H by lia. rewrite Hi in H. destruct H as (d & Hd & H). unfold in_ready, out_ready.
  assert (Hr : forall Q : okm_desc -> Z -> Prop, (exists i d, okm_desc_of (n_fds n) (p_fd p) = Some i /\ at_ (g_desc (n_fds n)) i = Some d /\ Q d i) <-> Q d i) by (intros Q; split; [intros (? & ? & ? & ? & ?); simplify_eq; congruence|eauto]).
  rewrite (Hr (fun d i => always_ready d = true \/ held n i)), (Hr (fun d i => always_ready d = true \/ writable d = true)). destruct (always_ready d).
  - rewrite H. unfold has. rewrite <-!Z.land_assoc. change (Z.land (Z.lor POLLIN POLLOUT) IN_BITS) with POLLIN. change (Z.land (Z.lor POLLIN POLLOUT) OUT_BITS) with POLLOUT. tauto.
  - destruct H as (H1 & H2 & H3 & H4 & H5). unfold IN_BITS, OUT_BITS. rewrite !has_lor, H3, H4, H5, !orb_false_r, orb_true_iff, andb_true_iff. naive_solver.
Qed.

(** The entries poll leaves are of the same descriptors and ask the same. *)
Lemma entries_same rd wr fds l' : Forall2 same_entry (entry_of rd wr <$> fds) l' ->
  p_fd <$> l' = fds /\ forall p, p ∈ l' -> p_fd p ∈ fds /\ p_events p = events_of rd wr (p_fd p).
Proof.
  intros H. remember (entry_of rd wr <$> fds) as l eqn:El. revert fds El. induction H as [|p p' l l' [Hf He] _ IH]; intros [|fd fds]; cbn; intros E; simplify_eq; [split; [done|by intros p H%elem_of_nil]|].
  destruct (IH fds eq_refl) as [H1 H2]. cbn in Hf, He. rewrite H1, Hf. split; [done|]. intros q [->|Hq]%elem_of_cons; [rewrite Hf; split; [by left|done]|]. destruct (H2 q Hq). split; [by right|done].
Qed.

Lemma emptied m l (s : option fd_set) fd : FD_ISSET fd ((fun s => s ∪ with_bits m l) <$> FD_ZERO s) = true <-> is_Some s /\ fd ∈ with_bits m l.
Proof. destruct s as [s|]; cbn; [rewrite bool_decide_eq_true, union_empty_l_L; by split; [|intros [_ ?]]|]. split; [done|intros [[? ?] _]; done]. Qed.

Lemma emptied_size m l (s : option fd_set) : size_of ((fun _ => with_bits m l) <$> FD_ZERO s) = size_of ((fun s => s ∪ with_bits m l) <$> FD_ZERO s).
Proof. destruct s as [s|]; [|done]. cbn. by rewrite union_empty_l_L. Qed.

Lemma isset_some fd s : FD_ISSET fd s = true -> is_Some s.
Proof. destruct s; [eauto|done]. Qed.

(** C24. pselect with a bound, on at most as many descriptors as it has room for, all of
    them open: it returns. Where it answers an error the sets are as they were. Else the
    answer is the number of bits in the sets it leaves, and those are bits that were asked
    for: of the input set, descriptors whose input is at hand, so that what is read next
    does not wait; of the output set, exactly the ones that take output. The third set is
    left empty. A bound that is not zero is not made one. *)
Theorem select_exact have_net have_dgram can_bound can_accept can_recv fuel nfds rd wr ex sec nsec env n :
  net_ok have_net have_dgram n -> 0 <= nfds <= FD_SETSIZE -> 0 <= sec < 2 ^ 53 -> 0 <= nsec < 1000000000 -> ms_of_timespec (Some (sec, nsec)) < Z.of_nat fuel ->
  Z.of_nat (length (filter (asked rd wr) (seqZ 0 nfds))) <= OKM_SELECT_MAX ->
  (forall fd, 0 <= fd < nfds -> asked rd wr fd -> is_Some (okm_desc_of (n_fds n) fd)) ->
  exists r rd' wr' ex' n', do_pselect can_bound can_accept can_recv fuel nfds rd wr ex (Some (sec, nsec)) env n = Some ((Some r, (rd', wr', ex')), n') /\ net_ok have_net have_dgram n' /\
    (r < 0 -> rd' = rd /\ wr' = wr /\ ex' = ex) /\
    (0 <= r -> r = size_of rd' + size_of wr' /\ ex' = FD_ZERO ex /\
       (forall fd, FD_ISSET fd rd' = true -> FD_ISSET fd rd = true /\ 0 <= fd < nfds /\ in_ready n' fd) /\
       (forall fd, FD_ISSET fd wr' = true <-> FD_ISSET fd wr = true /\ 0 <= fd < nfds /\ out_ready n' fd)) /\
    (ms_of_timespec (Some (sec, nsec)) = 0 <-> sec = 0 /\ nsec = 0).
Proof.
  intros Hn Hnf Hsec Hnsec Hfuel Hroom Hopen. destruct (ms_range sec nsec Hsec Hnsec) as [Hms Hz]. unfold do_pselect. replace (nfds <? 0) with false by lia. replace (FD_SETSIZE <? nfds) with false by lia. cbn [orb].
  rewrite watch_eq by (unfold OKM_SELECT_MAX; lia). rewrite Z2Nat.id by lia. replace (_ <=? OKM_SELECT_MAX) with true by lia. set (l := entry_of rd wr <$> _).
  assert (Hlen : Z.of_nat (length l) <= OKM_MAX_FD) by (unfold l; rewrite length_fmap; unfold OKM_SELECT_MAX, OKM_MAX_FD in *; lia).
  destruct (poll_bounded have_net have_dgram can_bound can_accept can_recv fuel l (ms_of_timespec (Some (sec, nsec))) env n Hn Hlen Hms Hfuel) as (r & l' & n' & cs & E & Hn' & T & S & R & _).
  unfold mbind, M_bind. rewrite E. cbv beta iota. destruct (r <? 0) eqn:Er; boolean; [exists r, rd, wr, ex, n'; split_and!; by try lia|].
  apply entries_same in S as [Hfds Hent]. rewrite report_eq by (rewrite Hfds; apply NoDup_filter, NoDup_seqZ). eexists _, _, _, _, n'. split; [reflexivity|]. split; [done|].
  assert (Hat : forall p, p ∈ l' -> 0 <= p_fd p < nfds /\ is_Some (okm_desc_of (n_fds n') (p_fd p)) /\ reported n' p /\ p_events p = events_of rd wr (p_fd p)).
  { intros p Hp. destruct (Hent p Hp) as [[Ha Hs]%list_elem_of_filter He]. apply elem_of_seqZ in Hs. rewrite (turned_desc n n') by done. split; [lia|]. split; [by apply Hopen; [lia|]|]. split; [|done]. rewrite Forall_forall in R. by apply R. }
  split; [intros Hneg; exfalso; revert Hneg; unfold size_of; destruct rd, wr; cbn; lia|]. split; [|done]. intros _. rewrite !emptied_size. split; [lia|]. split; [done|]. split; intros fd; rewrite emptied.
  - intros [_ (p & Hp & <- & Hb)%with_bits_in]. destruct (Hat p Hp) as (Hr & Ho & Hrep & He). destruct (reported_open n' p Hrep ltac:(lia) Ho) as [Hin _]. destruct (Hin Hb) as [Hev Hrdy]. rewrite He, (proj1 (events_in _ _ _)) in Hev. done.
  - rewrite with_bits_in. split.
    + intros [_ (p & Hp & <- & Hb)]. destruct (Hat p Hp) as (Hr & Ho & Hrep & He). destruct (reported_open n' p Hrep ltac:(lia) Ho) as [_ Hout]. apply Hout in Hb as [Hev Hrdy]. rewrite He, (proj2 (events_in _ _ _)) in Hev. done.
    + intros (Hset & Hr & Hrdy). split; [by eapply isset_some|]. assert (Hin : fd ∈ p_fd <$> l') by (rewrite Hfds; apply list_elem_of_filter; split; [by right|apply elem_of_seqZ; lia]).
      apply list_elem_of_fmap in Hin as (p & -> & Hp). exists p. split; [done|]. split; [done|]. destruct (Hat p Hp) as (_ & Ho & Hrep & He). destruct (reported_open n' p Hrep ltac:(lia) Ho) as [_ Hout]. apply Hout. split; [|done]. by rewrite He, (proj2 (events_in _ _ _)).
Qed.

Lemma select_exact_witness : exists n r rd' wr' ex' n', accepting = Some n /\
  do_pselect true true true 1 1 (Some {[0]}) None None (Some (0, 0)) conn_waits n = Some ((Some r, (rd', wr', ex')), n') /\ (0 <= r -> r = size_of rd' + size_of wr').
Proof.
  destruct accepting as [n|] eqn:E; [|by vm_compute in E].
  destruct (select_exact true true true true true 1 1 (Some {[0]}) None None 0 0 conn_waits n (accepting_ok n E)) as (r & rd' & wr' & ex' & n' & H & _ & _ & Hr & _); [unfold FD_SETSIZE; lia|lia|lia|by vm_compute|by vm_compute| |].
  - intros fd Hfd _. assert (fd = 0) as -> by lia. vm_compute in E. injection E as <-. vm_compute. by eexists.
  - exists n, r, rd', wr', ex', n'. split; [done|]. split; [exact H|]. intros Hge. apply (Hr Hge).
Defined.

Lemma turn_closed can_bound can_accept can_recv ns p a y n : 0 <= p_fd p -> okm_desc_of (n_fds n) (p_fd p) = None ->
  poll_turn can_bound can_accept can_recv ns p a y n = Some ((with_revents p POLLNVAL, Tally (y_ready y + 1) (y_failure y) (y_waited y)), n).
Proof. intros Hp H. unfold poll_turn. replace (p_fd p <? 0) with false by lia. unfold gets, mbind, M_bind. change (id n) with n. cbn [mbind option_bind]. by rewrite H. Qed.

Lemma poll_closed can_bound can_accept can_recv fd ev env n : 0 <= fd -> okm_desc_of (n_fds n) fd = None ->
  okm_poll can_bound can_accept can_recv 1 (Some [Pollfd fd ev 0]) 1 0 env n = Some ((Some 1, [Pollfd fd ev POLLNVAL]), n).
Proof.
  intros Hp H. unfold okm_poll. rewrite bool_decide_false by done. cbn [andb negb Z.eqb default]. change (id [Pollfd fd ev 0]) with [Pollfd fd ev 0]. cbv zeta. change (OKM_MAX_FD <? 1) with false.
  cbn [poll_loop poll_round]. unfold mbind, M_bind. by rewrite turn_closed.
Qed.

(** But where a descriptor asked about for output is not open, and an input set is
    given, pselect answers two and puts the descriptor in both sets, the input set
    included that was empty; POSIX's answer is EBADF. *)
Theorem select_names_unasked can_bound can_accept can_recv env n : okm_desc_of (n_fds n) 7 = None ->
  do_pselect can_bound can_accept can_recv 1 8 (Some ∅) (Some {[7]}) None (Some (0, 0)) env n = Some ((Some 2, (Some {[7]}, Some {[7]}, None)), n).
Proof.
  intros H. unfold do_pselect. replace (watch _ _ _ 0 0) with (Some [Pollfd 7 POLLOUT 0]) by (vm_compute; reflexivity).
  change (ms_of_timespec (Some (0, 0))) with 0. change (Z.of_nat (length [Pollfd 7 POLLOUT 0])) with 1. change ((8 <? 0) || (FD_SETSIZE <? 8)) with false. unfold mbind, M_bind. cbv beta iota. rewrite poll_closed by done. vm_compute. reflexivity.
Qed.

Lemma select_names_unasked_witness : do_pselect true true true 1 8 (Some ∅) (Some {[7]}) None (Some (0, 0)) conn_waits (net_zero started) = Some ((Some 2, (Some {[7]}, Some {[7]}, None)), net_zero started).
Proof. apply (select_names_unasked true true true conn_waits (net_zero started)). by vm_compute. Defined.
