(* ===== verification/Terminal.v ===== *)
(** The terminal (port/src/okm_syscall.c): what its mode is as a termios, the mode a termios
    asks for, the alteration of input this layer takes over, and the size. *)
From S2P Require Import Prelude Kal FdTable Net Transfer.
From stdpp Require Import base list option.
From Stdlib Require Import ZArith Lia.

#[local] Open Scope Z_scope.

Definition ENOTTY : Z := 25.
Definition INLCR : Z := 0x40.
Definition IGNCR : Z := 0x80.
Definition IXON : Z := 0x400.
Definition OPOST : Z := 1.
Definition ONLCR : Z := 4.
Definition B38400 : Z := 15.
Definition CS8 : Z := 0x30.
Definition CREAD : Z := 0x80.
Definition ISIG : Z := 1.
Definition ICANON : Z := 2.
Definition ECHO : Z := 8.
Definition ECHOE : Z := 0x10.
Definition ECHOK : Z := 0x20.
Definition IEXTEN : Z := 0x8000.

(** The four positions of openkal's mode word. *)
Record kal_term := KalTerm {
  KAL_TERM_LINE_EDIT : bool;
  KAL_TERM_ECHO : bool;
  KAL_TERM_PASS_CONTROL : bool;
  KAL_TERM_PASS_INPUT : bool;
}.

Record termios := Termios { c_iflag : Z; c_oflag : Z; c_cflag : Z; c_lflag : Z; c_cc : list Z }.

(** The control characters, by their positions: VINTR, VQUIT, VERASE, VKILL, VEOF, VTIME,
    VMIN, one unused, VSTART, VSTOP, VSUSP, one unused, VREPRINT, VDISCARD, VWERASE,
    VLNEXT, and the rest of the array. *)
Definition control_chars : list Z := [3; 28; 127; 21; 4; 0; 1; 0; 17; 19; 26; 0; 18; 15; 23; 22] ++ replicate 16 0.

Section terminal.
(** The environment's terminal: [T] its state, and the operations it may have. *)
Context {T : Type} (get_mode : option (T -> kal_error + kal_term)) (set_mode : option (kal_term -> T -> kal_error * T)).

(** [place] is whether the caller gave one. *)
Definition okm_termios_get (place : bool) (g_term_alter : Z) (w : T) : Z + termios :=
  if negb place then inl (- EFAULT) else
  match get_mode with
  | None => inl (- ENOTTY)
  | Some get =>
      match get w with
      | inl e => inl (- okm_errno e)
      | inr mode =>
          let i := Z.lor (if KAL_TERM_PASS_INPUT mode then 0 else ICRNL) g_term_alter in
          let l := Z.lor (if KAL_TERM_LINE_EDIT mode then Z.lor (Z.lor ICANON ECHOE) ECHOK else 0) (if KAL_TERM_ECHO mode then ECHO else 0) in
          inr (Termios (if KAL_TERM_PASS_CONTROL mode then i else Z.lor i IXON) (Z.lor OPOST ONLCR) (Z.lor (Z.lor CREAD CS8) B38400)
                 (if KAL_TERM_PASS_CONTROL mode then l else Z.lor l (Z.lor ISIG IEXTEN)) control_chars)
      end
  end.

(** The alterations of input a termios asks for, and whether this layer makes them. *)
Definition wanted (t : termios) : Z := Z.land (c_iflag t) (Z.lor (Z.lor (Z.lor ICRNL INLCR) IGNCR) ISTRIP).
Definition taken (t : termios) : bool := negb (wanted t =? 0) && negb (has (c_lflag t) (Z.lor ICANON ECHO)) && negb (has (wanted t) (Z.lor INLCR IGNCR)).

(** The answer, and g_term_alter. *)
Definition okm_termios_set (given : option termios) (g_term_alter : Z) (w : T) : Z * Z * T :=
  match given, set_mode with
  | None, _ => (- EFAULT, g_term_alter, w)
  | _, None => (- ENOTTY, g_term_alter, w)
  | Some t, Some set =>
      let mode := KalTerm (has (c_lflag t) ICANON) (has (c_lflag t) ECHO) (negb (has (c_lflag t) ISIG)) ((wanted t =? 0) || taken t) in
      let '(e, w') := set mode w in
      if negb (bool_decide (e = kal_ok)) then (- okm_errno e, g_term_alter, w')
      else (0, if taken t && match (get ← get_mode; Some (get w')) with Some (inr now) => KAL_TERM_PASS_INPUT now | _ => false end then wanted t else 0, w')
  end.
End terminal.

(** The rows and columns: none where the environment does not say. *)
Definition okm_winsize_get (place : bool) (size : option (kal_error * Z * Z)) : Z + Z * Z :=
  if negb place then inl (- EFAULT) else
  inr match size with
      | Some (e, cols, rows) => if bool_decide (e = kal_ok) then (rows mod 2 ^ 16, cols mod 2 ^ 16) else (0, 0)
      | None => (0, 0)
      end.

(** ** The requests of a terminal (SYS_ioctl), and musl's isatty over them *)

Definition TCGETS : Z := 0x5401.
Definition TCSETS : Z := 0x5402.
Definition TCSETSW : Z := 0x5403.
Definition TCSETSF : Z := 0x5404.
Definition TIOCGWINSZ : Z := 0x5413.

(** What a request writes where the caller said. *)
Inductive ioctl_out := Io_none | Io_termios (t : termios) | Io_winsize (rows cols : Z).

Section requests.
(** The table, whether a stream is interactive, and the terminal of a stream. *)
Context {T : Type} (t : fd_table) (interactive : Z -> bool) (get_mode : option (Z -> T -> kal_error + kal_term)) (set_mode : option (Z -> kal_term -> T -> kal_error * T))
  (size : option (Z -> T -> kal_error * Z * Z)).

(** The answer, what was written, g_term_alter and the terminal. [place] is whether the
    third argument is a place, [held] the termios in it. *)
Definition do_ioctl (fd request : Z) (place : bool) (held : termios) (g_term_alter : Z) (w : T) : Z * ioctl_out * Z * T :=
  match desc_at t fd with
  | None => (- EBADF, Io_none, g_term_alter, w)
  | Some d =>
      if bool_decide (d_kind d = OKM_STREAM) || bool_decide (d_kind d = OKM_CHANNEL) || bool_decide (d_kind d = OKM_FILE) then
        let s := d_stream d in
        if negb (bool_decide (d_kind d = OKM_STREAM) && interactive s) then (- ENOTTY, Io_none, g_term_alter, w)
        else
          let r := wrap64 request in
          if r =? TCGETS then
            match okm_termios_get ((fun g => g s) <$> get_mode) place g_term_alter w with
            | inl e => (e, Io_none, g_term_alter, w)
            | inr out => (0, Io_termios out, g_term_alter, w)
            end
          else if (r =? TCSETS) || (r =? TCSETSW) || (r =? TCSETSF) then
            let '(e, a, w') := okm_termios_set ((fun g => g s) <$> get_mode) ((fun g => g s) <$> set_mode) (if place then Some held else None) g_term_alter w in
            (e, Io_none, a, w')
          else if r =? TIOCGWINSZ then
            match okm_winsize_get place ((fun f => f s w) <$> size) with
            | inl e => (e, Io_none, g_term_alter, w)
            | inr (rows, cols) => (0, Io_winsize rows cols, g_term_alter, w)
            end
          else (- ENOTTY, Io_none, g_term_alter, w)
      else (- ENOTTY, Io_none, g_term_alter, w)
  end.

(** Its answer, and errno where it is set. *)
Definition isatty (fd g_term_alter : Z) (w : T) : Z * option Z :=
  let r := (do_ioctl fd TIOCGWINSZ true (Termios 0 0 0 0 []) g_term_alter w).1.1.1 in
  if r =? 0 then (1, None) else (0, Some (if - r =? EBADF then EBADF else ENOTTY)).
End requests.

(** ** What the terminal promises *)

(** What the input flags of a termios say of a byte typed: dropped, or which. *)
Definition posix_input (iflag b : Z) : option Z :=
  let b := if has iflag ISTRIP then Z.land b 0x7f else b in
  if b =? 13 then if has iflag IGNCR then None else Some (if has iflag ICRNL then 10 else 13)
  else if (b =? 10) && has iflag INLCR then Some 13 else Some b.

Lemma land_has x m : Z.land x m = 0 <-> has x m = false.
Proof. unfold has. destruct (Z.eqb_spec (Z.land x m) 0); cbn; naive_solver. Qed.

Lemma has_part x m k : Z.land k m = m -> has (Z.land x k) m = has x m.
Proof. intros H. unfold has. by rewrite <-Z.land_assoc, H. Qed.

(** The four input flags are one of sixteen words. *)
Definition input_word (a b c d : bool) : Z := Z.lor (Z.lor (Z.lor (if a then ICRNL else 0) (if b then INLCR else 0)) (if c then IGNCR else 0)) (if d then ISTRIP else 0).

Lemma land_one x k : 0 <= k -> Z.land x (2 ^ k) = if has x (2 ^ k) then 2 ^ k else 0.
Proof.
  intros Hk. unfold has. destruct (Z.eqb_spec (Z.land x (2 ^ k)) 0) as [E|E]; cbn [negb]; [done|]. apply Z.bits_inj'. intros j Hj. rewrite Z.land_spec, Z.pow2_bits_eqb by done.
  destruct (Z.eqb_spec k j) as [<-|]; [rewrite andb_true_r|apply andb_false_r]. destruct (Z.testbit x k) eqn:Eb; [done|]. destruct E. apply Z.bits_inj'. intros i Hi. rewrite Z.land_spec, Z.pow2_bits_eqb, Z.bits_0 by done.
  destruct (Z.eqb_spec k i) as [<-|]; [by rewrite Eb|apply andb_false_r].
Qed.

Lemma wanted_word t : wanted t = input_word (has (c_iflag t) ICRNL) (has (c_iflag t) INLCR) (has (c_iflag t) IGNCR) (has (c_iflag t) ISTRIP).
Proof.
  unfold wanted, input_word. rewrite !Z.land_lor_distr_r. f_equal; [f_equal; [f_equal|]|]; [apply (land_one _ 8)|apply (land_one _ 6)|apply (land_one _ 7)|apply (land_one _ 5)]; lia.
Qed.

Lemma has_two x a b : has x (Z.lor a b) = has x a || has x b.
Proof. unfold has. rewrite Z.land_lor_distr_r. destruct (Z.eqb_spec (Z.lor (Z.land x a) (Z.land x b)) 0) as [E|E]; rewrite Z.lor_eq_0_iff in E; destruct (Z.eqb_spec (Z.land x a) 0), (Z.eqb_spec (Z.land x b) 0); naive_solver. Qed.

Lemma alter_word i s b : Transfer.alter (input_word i false false s) b = let b := if s then Z.land b 0x7f else b in if i && (b =? 13) then 10 else b.
Proof. by destruct i, s. Qed.

(** What this layer does to a byte is what the flags ask for. *)
Lemma alter_asked iflag b : has iflag INLCR = false -> has iflag IGNCR = false ->
  posix_input iflag b = Some (Transfer.alter (input_word (has iflag ICRNL) false false (has iflag ISTRIP)) b).
Proof.
  intros Hn Hg. rewrite alter_word. unfold posix_input. rewrite Hn, Hg, andb_false_r. cbv zeta. generalize (if has iflag ISTRIP then Z.land b 0x7f else b). intros c.
  destruct (has iflag ICRNL), (Z.eqb_spec c 13); subst; done.
Qed.

Section promises.
(** The environment: its terminal's mode, whether it has the position of unaltered input,
    and which changes it accepts. A change accepted is made, but for that position where
    it has none; one refused changes nothing. *)
Context {T : Type} (mode_of : T -> kal_term) (has_pass : bool) (set_mode : kal_term -> T -> kal_error * T).
Definition made (m : kal_term) : kal_term := KalTerm (KAL_TERM_LINE_EDIT m) (KAL_TERM_ECHO m) (KAL_TERM_PASS_CONTROL m) (KAL_TERM_PASS_INPUT m && has_pass).
Hypothesis Hset : forall m w, if bool_decide ((set_mode m w).1 = kal_ok) then mode_of (set_mode m w).2 = made m else mode_of (set_mode m w).2 = mode_of w.
Hypothesis Hmode : forall w, has_pass = false -> KAL_TERM_PASS_INPUT (mode_of w) = false.

Notation get := (okm_termios_get (Some (fun w => inr (mode_of w))) true).
Notation set t := (okm_termios_set (Some (fun w => inr (mode_of w))) (Some set_mode) (Some t)).

(** What this layer has taken over is an alteration it can make, of a terminal that passes
    input unaltered and neither assembles lines nor echoes. *)
Definition term_ok (a : Z) (w : T) : Prop :=
  a = 0 \/ (a = ICRNL \/ a = ISTRIP \/ a = Z.lor ICRNL ISTRIP) /\ mode_of w = KalTerm false false (KAL_TERM_PASS_CONTROL (mode_of w)) true.

(** Of an accepted change. *)
Lemma set_accepted t a w w' r a' : set t a w = (r, a', w') -> r = 0 ->
  mode_of w' = KalTerm (has (c_lflag t) ICANON) (has (c_lflag t) ECHO) (negb (has (c_lflag t) ISIG)) (((wanted t =? 0) || taken t) && has_pass) /\ a' = if taken t && has_pass then wanted t else 0.
Proof using Hset.
  clear Hmode.
  unfold okm_termios_set. set (mode := KalTerm _ _ _ _). pose proof (Hset mode w) as Hm. destruct (set_mode mode w) as [e w1]. cbn [fst snd] in Hm. case_bool_decide as He; cbn [negb].
  - intros [= <- <- <-] _. rewrite Hm. split; [done|]. cbn [mbind option_bind made KAL_TERM_PASS_INPUT mode]. unfold mode, made. cbn. by destruct (wanted t =? 0), (taken t), has_pass.
  - intros [= <- <- <-] E. pose proof (errno_pos e He). lia.
Qed.

(** What is taken is one of the three. *)
Lemma taken_word t : taken t = true -> (wanted t = ICRNL \/ wanted t = ISTRIP \/ wanted t = Z.lor ICRNL ISTRIP) /\ has (c_lflag t) ICANON = false /\ has (c_lflag t) ECHO = false /\
  has (c_iflag t) INLCR = false /\ has (c_iflag t) IGNCR = false.
Proof.
  unfold taken. rewrite !andb_true_iff, !negb_true_iff, !has_two, !orb_false_iff. intros [[Hw [Hc He]] [Hi Hg]]. rewrite wanted_word in *.
  destruct (has (c_iflag t) ICRNL), (has (c_iflag t) INLCR), (has (c_iflag t) IGNCR), (has (c_iflag t) ISTRIP); try discriminate; auto.
Qed.

Lemma set_keeps t a w r a' w' : term_ok a w -> set t a w = (r, a', w') -> term_ok a' w'.
Proof using Hset.
  clear Hmode.
  intros Hok E. destruct (Z.eq_dec r 0) as [Hr|Hr].
  - destruct (set_accepted t a w w' r a' E Hr) as [Hm ->]. destruct (taken t) eqn:Et, has_pass; cbn [andb]; try by left. right. destruct (taken_word t Et) as (Hw & Hc & He & _). split; [done|]. rewrite Hm, Hc, He. cbn. by rewrite orb_true_r.
  - revert E. unfold okm_termios_set. set (mode := KalTerm _ _ _ _). pose proof (Hset mode w) as Hm. destruct (set_mode mode w) as [e w1]. cbn [fst snd] in Hm. case_bool_decide; cbn [negb]; intros [= <- <- <-]; [done|]. unfold term_ok. by rewrite Hm.
Qed.

(** What a mode reads as. *)
Definition read_as (a : Z) (m : kal_term) : termios := match okm_termios_get (Some (fun _ => inr m)) true a () with inr t => t | inl _ => Termios 0 0 0 0 [] end.

Lemma get_reads a w : get a w = inr (read_as a (mode_of w)).
Proof. done. Qed.

(** Setting what a mode reads as: the mode it asks for reads the same. *)
Lemma read_again a m : (has_pass = false -> KAL_TERM_PASS_INPUT m = false) ->
  (a = 0 \/ (a = ICRNL \/ a = ISTRIP \/ a = Z.lor ICRNL ISTRIP) /\ m = KalTerm false false (KAL_TERM_PASS_CONTROL m) true) ->
  let t := read_as a m in
  read_as (if taken t && has_pass then wanted t else 0)
    (KalTerm (has (c_lflag t) ICANON) (has (c_lflag t) ECHO) (negb (has (c_lflag t) ISIG)) (((wanted t =? 0) || taken t) && has_pass)) = t.
Proof using.
  clear Hset Hmode.
  intros Hp H. destruct m as [l e c i]. cbn in Hp, H. destruct has_pass; [clear Hp|rewrite (Hp eq_refl) in *; clear Hp].
  - destruct H as [->|[[->|[->| ->]] [= -> -> ->]]]; [destruct l, e, c, i|destruct c..]; reflexivity.
  - destruct H as [->|[_ [=]]]. destruct l, e, c; reflexivity.
Qed.

Lemma read_flags a l e c i : let u := read_as a (KalTerm l e (negb c) i) in
  has (c_lflag u) ICANON = l /\ has (c_lflag u) ECHO = e /\ has (c_lflag u) ISIG = c /\ wanted u = Z.land (Z.lor (if i then 0 else ICRNL) a) (Z.lor (Z.lor (Z.lor ICRNL INLCR) IGNCR) ISTRIP).
Proof.
  cbn zeta. split; [by destruct l, e, c|]. split; [by destruct l, e, c|]. split; [by destruct l, e, c|]. unfold wanted. destruct c; [|done]. cbn [read_as okm_termios_get negb KAL_TERM_PASS_CONTROL KAL_TERM_PASS_INPUT c_iflag]. by rewrite Z.land_lor_distr_l, Z.lor_0_r.
Qed.
End promises.

(** Any changes of the mode, accepted or not. *)
Inductive term_steps {T} (mode_of : T -> kal_term) (set_mode : kal_term -> T -> kal_error * T) : Z * T -> Z * T -> Prop :=
| T_none x : term_steps mode_of set_mode x x
| T_set t a w r a' w' y : okm_termios_set (Some (fun w => inr (mode_of w))) (Some set_mode) (Some t) a w = (r, a', w') -> term_steps mode_of set_mode (a', w') y -> term_steps mode_of set_mode (a, w) y.

(** C25. Of a terminal, after any changes of its mode from the start of the program: a
    termios that was read and is later set again, whatever was set between, is what is
    then read, word for word, if the environment accepts the change; a termios that is
    set keeps line assembly, echo and the interrupt keystroke as they were asked for; and
    where the environment passes input unaltered and line assembly and echo are off, a
    byte typed is read as the input flags asked for, with no flag that drops bytes. *)
Theorem termios_restores {T} (mode_of : T -> kal_term) has_pass set_mode w0 a w :
  (forall m w, if bool_decide ((set_mode m w).1 = kal_ok) then mode_of (set_mode m w).2 = made has_pass m else mode_of (set_mode m w).2 = mode_of w) ->
  (forall w, has_pass = false -> KAL_TERM_PASS_INPUT (mode_of w) = false) ->
  term_steps mode_of set_mode (0, w0) (a, w) ->
  exists t, okm_termios_get (Some (fun w => inr (mode_of w))) true a w = inr t /\
    (forall a1 w1 a' w', okm_termios_set (Some (fun w => inr (mode_of w))) (Some set_mode) (Some t) a1 w1 = (0, a', w') -> okm_termios_get (Some (fun w => inr (mode_of w))) true a' w' = inr t) /\
    (forall t' a' w', okm_termios_set (Some (fun w => inr (mode_of w))) (Some set_mode) (Some t') a w = (0, a', w') ->
       exists u, okm_termios_get (Some (fun w => inr (mode_of w))) true a' w' = inr u /\
         has (c_lflag u) ICANON = has (c_lflag t') ICANON /\ has (c_lflag u) ECHO = has (c_lflag t') ECHO /\ has (c_lflag u) ISIG = has (c_lflag t') ISIG /\
         (has_pass = true -> has (c_lflag t') (Z.lor ICANON ECHO) = false -> has (c_iflag t') (Z.lor INLCR IGNCR) = false ->
            wanted u = wanted t' /\ forall b, posix_input (c_iflag t') b = Some (Transfer.alter a' b))).
Proof.
  intros Hset Hmode Hs. assert (Hok : term_ok mode_of a w).
  { remember (0, w0) as x eqn:Ex. remember (a, w) as y eqn:Ey. revert Ex Ey. assert (H0 : term_ok mode_of x.1 x.2 -> term_ok mode_of y.1 y.2); [|intros -> ->; apply H0; by left].
    induction Hs as [|t a0 w1 r a1 w2 y E _ IH]; [done|]. intros Hk. apply IH. cbn in *. by eapply set_keeps. }
  eexists. split; [apply get_reads|]. split.
  - intros a1 w1 a' w' E. eapply (set_accepted mode_of has_pass set_mode Hset) in E as [Hm ->]; [|done]. rewrite get_reads, Hm. f_equal. apply read_again; [apply Hmode|done].
  - intros t' a' w' E. eapply (set_accepted mode_of has_pass set_mode Hset) in E as [Hm ->]; [|done]. eexists. split; [apply get_reads|]. rewrite Hm.
    destruct (read_flags (if taken t' && has_pass then wanted t' else 0) (has (c_lflag t') ICANON) (has (c_lflag t') ECHO) (has (c_lflag t') ISIG) (((wanted t' =? 0) || taken t') && has_pass)) as (-> & -> & -> & Hw).
    split; [done|]. split; [done|]. split; [done|]. intros -> Hl Hi. rewrite !has_two, !orb_false_iff in *. destruct Hl as [Hc He], Hi as [Hn Hg]. split.
    + rewrite Hw. unfold taken. rewrite wanted_word, !has_two, Hc, He, Hn, Hg. by destruct (has (c_iflag t') ICRNL), (has (c_iflag t') ISTRIP).
    + intros b. replace (if taken t' && true then wanted t' else 0) with (input_word (has (c_iflag t') ICRNL) false false (has (c_iflag t') ISTRIP)); [by apply alter_asked|].
      unfold taken. rewrite wanted_word, !has_two, Hc, He, Hn, Hg. by destruct (has (c_iflag t') ICRNL), (has (c_iflag t') ISTRIP).
Qed.

(** A terminal that accepts every change, in raw mode with the return key rewritten. *)
Definition raw_icrnl : termios := Termios ICRNL 0 0 0 [].

Lemma termios_restores_witness : exists t, okm_termios_get (Some (fun w : kal_term => inr w)) true ICRNL (KalTerm false false true true) = inr t /\ wanted t = ICRNL.
Proof.
  destruct (termios_restores (T := kal_term) (fun w => w) true (fun m _ => (kal_ok, m)) (KalTerm true true false false) ICRNL (KalTerm false false true true)) as (t & E & _).
  - intros m w. rewrite bool_decide_true by done. by destruct m as [l e c []].
  - done.
  - eapply (T_set _ _ raw_icrnl); [vm_compute; reflexivity|apply T_none].
  - exists t. split; [exact E|]. vm_compute in E. injection E as <-. reflexivity.
Defined.

(** isatty answers one exactly of an open descriptor that is a stream the environment calls
    interactive, whether or not it knows the terminal's size; of every other it answers
    zero, with EBADF exactly where the descriptor is not open. *)
Theorem isatty_exact {T} t interactive get_mode set_mode size fd a (w : T) :
  isatty t interactive get_mode set_mode size fd a w =
    match desc_at t fd with
    | None => (0, Some EBADF)
    | Some d => if bool_decide (d_kind d = OKM_STREAM) && interactive (d_stream d) then (1, None) else (0, Some ENOTTY)
    end.
Proof.
  unfold isatty, do_ioctl. destruct (desc_at t fd) as [d|]; [|done]. cbv zeta. replace (wrap64 TIOCGWINSZ) with TIOCGWINSZ by done. destruct (d_kind d); cbn; try done. destruct (interactive (d_stream d)); cbn; [|done].
  unfold okm_winsize_get. cbn. by destruct size as [f|]; cbn; [destruct (f _ w) as [[[] ?] ?]|].
Qed.

(** No request changes the terminal but the three that set it, and those only of a stream
    that is interactive, and only where a place is given. *)
Theorem ioctl_changes {T} t interactive get_mode set_mode size fd request place held a (w : T) r out a' w' :
  do_ioctl t interactive get_mode set_mode size fd request place held a w = (r, out, a', w') ->
  (a', w') = (a, w) \/ place = true /\ (exists d, desc_at t fd = Some d /\ d_kind d = OKM_STREAM /\ interactive (d_stream d) = true) /\ (wrap64 request = TCSETS \/ wrap64 request = TCSETSW \/ wrap64 request = TCSETSF) /\ out = Io_none.
Proof.
  unfold do_ioctl. destruct (desc_at t fd) as [d|]; [|intros [= <- <- <- <-]; by left]. cbv zeta. destruct (bool_decide _ || _ || _); [|intros [= <- <- <- <-]; by left].
  destruct (bool_decide (d_kind d = OKM_STREAM) && interactive (d_stream d)) eqn:Ei; cbn [negb]; [|intros [= <- <- <- <-]; by left]. apply andb_true_iff in Ei as [Hk%bool_decide_eq_true Hi].
  destruct (wrap64 request =? TCGETS); [destruct (okm_termios_get _ _ _ _); intros [= <- <- <- <-]; by left|]. destruct ((wrap64 request =? TCSETS) || (wrap64 request =? TCSETSW) || (wrap64 request =? TCSETSF)) eqn:Er.
  - destruct place; [|intros [= <- <- <- <-]; by left]. destruct (okm_termios_set _ _ _ _ _) as [[e a1] w1]. intros [= <- <- <- <-]. right. split; [done|]. split; [eauto|]. split; [lia|done].
  - destruct (wrap64 request =? TIOCGWINSZ); [|intros [= <- <- <- <-]; by left]. destruct (okm_winsize_get _ _) as [|[? ?]]; intros [= <- <- <- <-]; by left.
Qed.
