(* ===== verification/Calls.v ===== *)
(** The calls on descriptors that no other file has (port/src/okm_syscall.c): close, dup,
    pipe2, fcntl, flock, lseek, ftruncate, fsync. *)
From S2P Require Import Prelude Kal FdTable Net Nodes Transfer.
From stdpp Require Import base list option.
From Stdlib Require Import ZArith Lia.

#[local] Open Scope Z_scope.

Definition ESPIPE : Z := 29.
Definition FD_CLOEXEC : Z := 1.
Definition SEEK_SET : Z := 0.
Definition SEEK_CUR : Z := 1.
Definition F_RDLCK : Z := 0.
Definition F_WRLCK : Z := 1.
Definition F_UNLCK : Z := 2.
Definition LOCK_SH : Z := 1.
Definition LOCK_EX : Z := 2.
Definition LOCK_NB : Z := 4.
Definition LOCK_UN : Z := 8.

(** The commands of fcntl. *)
Inductive fcntl_cmd :=
| F_DUPFD | F_DUPFD_CLOEXEC | F_GETFD | F_SETFD | F_GETFL | F_SETFL
| F_SETLK | F_SETLKW | F_OFD_SETLK | F_OFD_SETLKW | F_GETLK | F_OFD_GETLK | F_OTHER.

#[export] Instance fcntl_cmd_eq_dec : EqDecision fcntl_cmd.
Proof. solve_decision. Defined.

Record flock := Flock { l_type : Z; l_whence : Z; l_start : Z; l_len : Z }.

(** What is asked of a file's lock: its range, and shared or exclusive, waiting or not;
    or that the range be given up. *)
Inductive lock_ask := A_lock (f start len : Z) (shared wait : bool) | A_unlock (f start len : Z).

Section calls.
Context (me : Z) (can_bound : bool).

Definition do_close (fd : Z) : M fd_table Z :=
  t ← gets id;
  match okm_desc_of t fd with
  | None => mret (- EBADF)
  | Some _ => okm_fd_release true me fd;; mret 0
  end.

Definition do_dup (fd : Z) : M fd_table Z := okm_fd_dup true me fd (-1) 0.
Definition do_dup2 (fd newfd : Z) : M fd_table Z := okm_fd_dup true me fd newfd 0.
Definition do_dup3 (fd newfd flags : Z) : M fd_table Z := okm_fd_dup true me fd newfd (if has flags O_CLOEXEC then 1 else 0).

(** The lowest descriptor, bound to one end; okm_fd_bind's answer is not looked at. *)
Definition bind_end (h flags : Z) : M fd_table Z :=
  t ← gets id;
  let fd := okm_fd_alloc t 0 in
  if fd <? 0 then mret fd else okm_fd_bind true me fd OKM_CHANNEL h 0 0 flags;; mret fd.

(** [out]: the caller gave a place for the two; [have]: the environment has channels;
    [chan] its answer. The answer, the two, what was opened and what was closed again. *)
Definition do_pipe2 (out : bool) (flags : Z) (have : bool) (chan : kal_error * Z * Z) : M fd_table (Z * option (Z * Z) * list resource * list resource) :=
  let '(e, mine, theirs) := chan in
  let refuse r := mret (r, None, [], []) in
  let both := [R_channel mine; R_channel theirs] in
  if negb out then refuse (- EFAULT)
  else if has flags (Z.lnot (Z.lor O_CLOEXEC O_NONBLOCK)) then refuse (- EINVAL)
  else if has flags O_NONBLOCK && negb can_bound then refuse (- ENOSYS)
  else if negb have then refuse (- ENOSYS)
  else if negb (bool_decide (e = kal_ok)) then refuse (- okm_errno e)
  else
    rfd ← bind_end mine (Z.lor O_RDONLY (Z.land flags O_NONBLOCK));
    if rfd <? 0 then mret (rfd, None, both, both)
    else
      wfd ← bind_end theirs (Z.lor O_WRONLY (Z.land flags O_NONBLOCK));
      if wfd <? 0 then mret (wfd, None, both, [R_channel theirs])
      else
        when (has flags O_CLOEXEC) (okm_fd_cloexec rfd true;; okm_fd_cloexec wfd true;; mret ());;
        mret (0, Some (rfd, wfd), both, []).

(** The range a flock names, from the position [here] where it is measured from that. *)
Definition lock_start (fl : flock) (here : kal_error + Z) : option Z :=
  if l_whence fl =? SEEK_SET then Some (wrap64 (l_start fl))
  else if l_whence fl =? SEEK_CUR then match here with inr h => Some (wrap64 (h + wrap64 (l_start fl))) | inl _ => None end
  else None.

Definition set_lock (d : okm_desc) (fl : option flock) (wait : bool) (here : kal_error + Z) (e : kal_error) : Z * option lock_ask :=
  if negb (bool_decide (d_kind d = OKM_FILE)) then (- EBADF, None)
  else match fl with
  | None => (- EFAULT, None)
  | Some fl =>
      match lock_start fl here with
      | None => (- EINVAL, None)
      | Some start =>
          let len := wrap64 (l_len fl) in
          let answer := if bool_decide (e = kal_ok) then 0 else - okm_errno e in
          (answer, Some (if l_type fl =? F_UNLCK then A_unlock (d_file d) start len else A_lock (d_file d) start len (l_type fl =? F_RDLCK) wait))
      end
  end.

(** Of a description, its flags. *)
Definition set_flags (d : okm_desc) (flags : Z) : okm_desc :=
  Desc (d_refs d) (d_kind d) flags (d_stream d) (d_file d) (d_dir d) (d_iter d) (d_iter_open d) (d_path_slot d) (d_pending d) (d_pending_kind d) (d_pending_name d) (d_sock d) (d_ahead d) (d_ahead_eof d) (d_ahead_byte d).

(** [arg]: the third argument as a number, [fl] as a lock; [here] and [e] the answers of
    the environment, should it be asked. *)
Definition do_fcntl (fd : Z) (cmd : fcntl_cmd) (arg : Z) (fl : option flock) (here : kal_error + Z) (e : kal_error) : M fd_table (Z * option lock_ask) :=
  t ← gets id;
  match (i ← okm_desc_of t fd; d ← at_ (g_desc t) i; Some (i, d)) with
  | None => mret (- EBADF, None)
  | Some (i, d) =>
      let plain (c : M fd_table Z) := r ← c; mret (r, None) in
      let dup_from cloexec := let nfd := okm_fd_alloc t arg in if nfd <? 0 then mret nfd else okm_fd_dup true me fd nfd cloexec in
      match cmd with
      | F_DUPFD => plain (dup_from 0)
      | F_DUPFD_CLOEXEC => plain (dup_from 1)
      | F_GETFD => plain (r ← okm_fd_get_cloexec fd; mret (if r =? 0 then 0 else FD_CLOEXEC))
      | F_SETFD => plain (okm_fd_cloexec fd (has arg FD_CLOEXEC))
      | F_GETFL => mret (d_flags d, None)
      | F_SETFL =>
          if has arg O_NONBLOCK && negb (has (d_flags d) O_NONBLOCK) && negb can_bound then mret (- ENOSYS, None)
          else
            let kept := Z.lor O_APPEND O_NONBLOCK in
            put_desc i (set_flags d (Z.lor (Z.land (d_flags d) (Z.lnot kept)) (Z.land arg kept)));;
            mret (0, None)
      | F_SETLK | F_OFD_SETLK => mret (set_lock d fl false here e)
      | F_SETLKW | F_OFD_SETLKW => mret (set_lock d fl true here e)
      | F_GETLK | F_OFD_GETLK => mret (- ENOSYS, None)
      | F_OTHER => mret (- EINVAL, None)
      end
  end.

Definition do_flock (t : fd_table) (fd op : Z) (e : kal_error) : Z * option lock_ask :=
  match desc_at t fd with
  | None => (- EBADF, None)
  | Some d =>
      if negb (bool_decide (d_kind d = OKM_FILE)) then (- EINVAL, None)
      else
        let answer := if bool_decide (e = kal_ok) then 0 else - okm_errno e in
        let op' := Z.land op (Z.lnot LOCK_NB) in
        if op' =? LOCK_UN then (answer, Some (A_unlock (d_file d) 0 0))
        else if negb (op' =? LOCK_SH) && negb (op' =? LOCK_EX) then (- EINVAL, None)
        else (answer, Some (A_lock (d_file d) 0 0 (op' =? LOCK_SH) (negb (has op LOCK_NB))))
  end.

(** [at']: the position kal_fs_seek answers. *)
Definition do_lseek (t : fd_table) (fd off whence : Z) (at' : kal_error + Z) : Z * option (Z * Z * Z) :=
  match desc_at t fd with
  | None => (- EBADF, None)
  | Some d =>
      if bool_decide (d_kind d = OKM_NULL) then (0, None)
      else if negb (bool_decide (d_kind d = OKM_FILE)) then (- ESPIPE, None)
      else (match at' with inl e => - okm_errno e | inr p => sext64 p end, Some (d_file d, off, whence))
  end.

Definition do_ftruncate (t : fd_table) (fd size : Z) (e : kal_error) : Z * option (Z * Z) :=
  match desc_at t fd with
  | None => (- EBADF, None)
  | Some d =>
      if bool_decide (d_kind d = OKM_NULL) then (- EINVAL, None)
      else if negb (bool_decide (d_kind d = OKM_FILE)) then (- EBADF, None)
      else (if bool_decide (e = kal_ok) then 0 else - okm_errno e, Some (d_file d, wrap64 size))
  end.

Definition do_fsync (t : fd_table) (fd : Z) (e : kal_error) : Z * option Z :=
  match stream_of t fd with
  | inl r => (r, None)
  | inr s => (if bool_decide (e = kal_ok) then 0 else - okm_errno e, Some s)
  end.
End calls.
