(* ===== verification/CallsTheorems.v ===== *)
(** What the calls on descriptors promise: what pipe2 leaves bound and open on every branch,
    and the range a lock is asked for. *)
From S2P Require Import Prelude Kal FdTable FdTableOk FdTheorems Net NetTheorems Nodes NodesTheorems Transfer Calls.
From stdpp Require Import base list option.
From Stdlib Require Import ZArith Lia.

#[local] Open Scope Z_scope.

(** ** pipe2 *)

(** A descriptor names a description of its own, of this kind, with these flags, that
    holds [r]. *)
Definition named (t : fd_table) (fd : Z) (kind : okm_kind) (r : list resource) (flags : Z) : Prop :=
  (exists p, view t fd = Some p /\ d_kind p = kind /\ owned p = r /\ d_flags p = flags) /\ forall j, j <> fd -> okm_desc_of t j <> okm_desc_of t fd.

Lemma opened_named t t' fd kind r flags : opened_as t t' fd kind r flags -> named t' fd kind r flags.
Proof.
  intros [_ (i & p & Hof & Hp & Hk & Ho & Hfl & Hnew) _ _ _]. split; [|intros j Hj; rewrite Hof; auto]. exists (content p). unfold view. rewrite Hof. cbn. rewrite Hp. by destruct p.
Qed.

(** A descriptor bound after it changes nothing of it. *)
Lemma named_kept t t' fd fd' kind r flags : others_kept fd' t t' -> fd <> fd' -> okm_desc_of t' fd' <> okm_desc_of t' fd -> named t fd kind r flags -> named t' fd kind r flags.
Proof.
  intros Ho Hne Hfresh [Hv Hn]. destruct (Ho fd Hne) as [Hof Hview]. split; [by rewrite Hview|]. intros j Hj. destruct (Z.eq_dec j fd') as [->|Hj']; [done|]. destruct (Ho j Hj') as [-> _]. rewrite Hof. auto.
Qed.

(** And a mark changes nothing but the mark. *)
Lemma named_marked t t' fd kind r flags : g_desc t' = g_desc t -> (forall j, okm_desc_of t' j = okm_desc_of t j) -> named t fd kind r flags -> named t' fd kind r flags.
Proof. intros Hd Hof [Hv Hn]. unfold named, view in *. split; [by rewrite Hof, Hd|]. intros j Hj. rewrite !Hof. auto. Qed.

(** What pipe2 refuses before it asks for a channel, or the environment does. *)
Definition pipe_refused (out : bool) (flags : Z) (can_bound have : bool) (e : kal_error) : bool :=
  negb out || has flags (Z.lnot (Z.lor O_CLOEXEC O_NONBLOCK)) || has flags O_NONBLOCK && negb can_bound || negb have || negb (bool_decide (e = kal_ok)).

(** What the two ends are, and that they are all that changed. *)
Definition piped (t t' : fd_table) (rfd wfd : Z) (mine theirs flags : Z) : Prop :=
  0 <= rfd < wfd /\ wfd < OKM_MAX_FD /\ okm_desc_of t rfd = None /\ okm_desc_of t wfd = None /\ (forall j, 0 <= j < wfd -> j <> rfd -> okm_desc_of t j <> None) /\
  named t' rfd OKM_CHANNEL [R_channel mine] (Z.lor O_RDONLY (Z.land flags O_NONBLOCK)) /\ named t' wfd OKM_CHANNEL [R_channel theirs] (Z.lor O_WRONLY (Z.land flags O_NONBLOCK)) /\
  forall j, j <> rfd -> j <> wfd -> okm_desc_of t' j = okm_desc_of t j /\ view t' j = view t j.

Lemma two_opened t t1 t2 rfd wfd mine theirs flags :
  opened_as t t1 rfd OKM_CHANNEL [R_channel mine] (Z.lor O_RDONLY (Z.land flags O_NONBLOCK)) -> opened_as t1 t2 wfd OKM_CHANNEL [R_channel theirs] (Z.lor O_WRONLY (Z.land flags O_NONBLOCK)) ->
  piped t t2 rfd wfd mine theirs flags /\ held t2 ≡ₚ [R_channel mine; R_channel theirs] ++ held t.
Proof.
  intros H1 H2. pose proof (opened_named _ _ _ _ _ _ H1) as N1. pose proof (opened_named _ _ _ _ _ _ H2) as N2. destruct H1 as [(R1 & F1 & L1) _ _ O1 H1], H2 as [(R2 & F2 & L2) (i & q & Hi & _ & _ & _ & _ & Hn) _ O2 H2].
  assert (Hne : wfd <> rfd) by (intros ->; destruct N1 as [(p & Hv & _) _]; unfold view in Hv; by rewrite F2 in Hv). destruct (O1 wfd Hne) as [Hw _]. rewrite F2 in Hw.
  assert (rfd < wfd) by (destruct (Z.lt_total wfd rfd) as [Hlt|[|]]; [by destruct (L1 wfd ltac:(lia))|done|done]). split; [|rewrite H2, H1; perm]. unfold piped. split_and!; auto; try lia.
  - intros j Hj Hjr. destruct (O1 j Hjr) as [<- _]. apply L2. lia.
  - eapply named_kept; [exact O2|done| |done]. intros E. rewrite Hi in E. by destruct (Hn rfd (not_eq_sym Hne)).
  - intros j Hr Hwj. destruct (O1 j Hr) as [<- <-]. apply O2. done.
Qed.

(** Where a descriptor is free, a description is: binding an end does not fail. *)
Lemma bind_end_at me t h flags : table_ok t ->
  exists t', bind_end me h flags t = Some (okm_fd_alloc t 0, t') /\ table_ok t' /\
    (okm_fd_alloc t 0 < 0 /\ t' = t \/ 0 <= okm_fd_alloc t 0 /\ opened_as t t' (okm_fd_alloc t 0) OKM_CHANNEL (owned (bound OKM_CHANNEL h 0 0 flags 0 [] 0)) flags).
Proof.
  intros Ht. destruct (open_fd_at me t OKM_CHANNEL h 0 0 flags Ht) as (t' & E & Ht' & H). exists t'. split; [|split; [done|destruct H as [[[]?]|(? & ? & _)]; auto]].
  revert E. unfold bind_end, open_fd, mbind, M_bind, gets. change (id t) with t. destruct (okm_fd_alloc t 0 <? 0); [done|]. by destruct (okm_fd_bind _ _ _ _ _ _ _ _ t) as [[r t1]|]; [intros [= _ ->]|].
Qed.

Lemma mark_both (me : Z) t rfd wfd mine theirs flags t0 : table_ok t -> piped t0 t rfd wfd mine theirs flags ->
  exists t', (okm_fd_cloexec rfd true;; okm_fd_cloexec wfd true;; mret ()) t = Some ((), t') /\ table_ok t' /\ held t' ≡ₚ held t /\ piped t0 t' rfd wfd mine theirs flags /\
    snd <$> at_ (g_fd t') rfd = Some 1 /\ snd <$> at_ (g_fd t') wfd = Some 1.
Proof.
  intros Ht P. pose proof P as (Hlt & _ & _ & _ & _ & [(p & Hp & _) _] & [(q & Hq & _) _] & _). unfold view in Hp, Hq.
  destruct (okm_desc_of t rfd) as [i|] eqn:Hi; [|done]. destruct (okm_desc_of t wfd) as [j|] eqn:Hj; [|done].
  destruct (cloexec_ok me t rfd true Ht) as (r1 & t1 & E1 & (T1 & H1 & _) & _ & D1 & O1 & F1). destruct (D1 i Hi) as (_ & G1 & M1).
  destruct (cloexec_ok me t1 wfd true T1) as (r2 & t2 & E2 & (T2 & H2 & _) & _ & D2 & O2 & F2). rewrite <-O1 in Hj. destruct (D2 j Hj) as (_ & G2 & M2).
  unfold mbind, M_bind. rewrite E1, E2. exists t2. split; [done|]. split; [done|]. split; [by rewrite H2, H1|]. assert (Hof : forall k, okm_desc_of t2 k = okm_desc_of t k) by (intros k; by rewrite O2, O1). assert (Hg : g_desc t2 = g_desc t) by (by rewrite G2, G1).
  split; [|split; [rewrite F2, M1 by lia|rewrite M2]; done]. destruct P as (A & B & C & D & E & N1 & N2 & O). unfold piped. split_and!; auto; try lia; try (by eapply named_marked). intros k Hr Hw. unfold view. rewrite Hof, Hg. by apply O.
Qed.

(** C40. pipe2, on every branch: what it opens is closed again or held by the table, and
    nothing is both. Where it is refused, nothing is opened and the table is as it was.
    Else, where two descriptors are free, the two lowest name the two ends, each a
    description of its own with the flags asked for, marked where that was asked for,
    and every other descriptor is as it was. Where none is free, both ends are closed and
    the table is as it was. But where one is free, the answer is EMFILE too and the read
    end stays bound to it, a descriptor the caller is not told of. *)
Theorem pipe2_exact me can_bound out flags have e mine theirs t : table_ok t ->
  exists r ends opened closed_ t', do_pipe2 me can_bound out flags have (e, mine, theirs) t = Some ((r, ends, opened, closed_), t') /\ table_ok t' /\ closed_ ++ held t' ≡ₚ opened ++ held t /\
    if pipe_refused out flags can_bound have e then r < 0 /\ ends = None /\ opened = [] /\ t' = t
    else match ends with
    | Some (rfd, wfd) => r = 0 /\ piped t t' rfd wfd mine theirs flags /\ (has flags O_CLOEXEC = true -> snd <$> at_ (g_fd t') rfd = Some 1 /\ snd <$> at_ (g_fd t') wfd = Some 1)
    | None => r = - EMFILE /\ (all_used t /\ t' = t \/
        exists rfd, okm_desc_of t rfd = None /\ (forall j, 0 <= j < OKM_MAX_FD -> j <> rfd -> okm_desc_of t j <> None) /\ closed_ = [R_channel theirs] /\
          named t' rfd OKM_CHANNEL [R_channel mine] (Z.lor O_RDONLY (Z.land flags O_NONBLOCK)) /\ all_used t')
    end.
Proof.
  intros Ht. unfold do_pipe2, pipe_refused.
  assert (Hrefuse : forall r, r < 0 -> exists r' ends opened closed_ t', (mret (r, None, [], []) : M fd_table _) t = Some ((r', ends, opened, closed_), t') /\ table_ok t' /\ closed_ ++ held t' ≡ₚ opened ++ held t /\ r' < 0 /\ ends = (None : option (Z * Z)) /\ opened = [] /\ t' = t).
  { intros r Hr. exists r, None, [], [], t. by split_and!. }
  destruct (negb out); [by apply Hrefuse|]. destruct (has flags (Z.lnot _)); [by apply Hrefuse|]. destruct (has flags O_NONBLOCK && negb can_bound); [by apply Hrefuse|]. destruct (negb have); [by apply Hrefuse|].
  case_bool_decide as He; cbn [negb orb]; [|apply Hrefuse; pose proof (errno_pos e He); lia]. clear Hrefuse.
  destruct (bind_end_at me t mine (Z.lor O_RDONLY (Z.land flags O_NONBLOCK)) Ht) as (t1 & E1 & T1 & H1). unfold mbind, M_bind. rewrite E1. set (rfd := okm_fd_alloc t 0) in *.
  destruct H1 as [[Hneg ->]|(Hpos & H1)].
  { replace (rfd <? 0) with true by lia. destruct (alloc_none t Ht Hneg) as [Hr Hu]. do 5 eexists. split; [reflexivity|]. split; [done|]. split; [done|]. split; [done|]. by left. }
  replace (rfd <? 0) with false by lia. destruct (bind_end_at me t1 theirs (Z.lor O_WRONLY (Z.land flags O_NONBLOCK)) T1) as (t2 & E2 & T2 & H2). rewrite E2. set (wfd := okm_fd_alloc t1 0) in *.
  destruct H2 as [[Hneg ->]|(Hpos2 & H2)].
  { replace (wfd <? 0) with true by lia. destruct (alloc_none t1 T1 Hneg) as [Hr Hu]. do 5 eexists. split; [reflexivity|]. split; [done|]. pose proof H1 as [(_ & F1 & _) _ _ O1 Hh]. change (owned _) with [R_channel mine] in Hh. split; [rewrite Hh; perm|]. split; [done|]. right. exists rfd.
    split_and!; [done| |done|by eapply opened_named|done]. intros j Hj Hjr. destruct (O1 j Hjr) as [<- _]. by apply Hu. }
  replace (wfd <? 0) with false by lia. destruct (two_opened t t1 t2 rfd wfd mine theirs flags H1 H2) as [P Hh]. unfold when. destruct (has flags O_CLOEXEC) eqn:Ec.
  - destruct (mark_both me t2 rfd wfd mine theirs flags t T2 P) as (t3 & E3 & T3 & Hh3 & P3 & M). unfold mbind, M_bind in E3. rewrite E3. do 5 eexists. split; [reflexivity|]. split; [done|]. split; [by rewrite Hh3|]. by split_and!.
  - do 5 eexists. split; [reflexivity|]. split; [done|]. split; [done|]. by split_and!.
Qed.

(** Descriptors bound to the null device, one after another. *)
Fixpoint open_many (n : nat) (t : fd_table) : option fd_table :=
  match n with
  | O => Some t
  | S n' => '(_, t') ← open_fd 1 OKM_NULL 0 0 0 0 t; open_many n' t'
  end.

Lemma open_many_ok n : forall t t', table_ok t -> open_many n t = Some t' -> table_ok t'.
Proof.
  induction n as [|n IH]; intros t t' Ht; cbn; [by intros [= <-]|]. destruct (open_fd_ok 1 t OKM_NULL 0 0 0 0 Ht) as (fd & t1 & -> & T1 & _). cbn. by apply IH.
Qed.

(** With one descriptor left. *)
Lemma pipe2_exact_witness : exists t t' closed_, open_many 1023 started = Some t /\ do_pipe2 1 true true 0 true (kal_ok, 40, 41) t = Some ((- EMFILE, None, [R_channel 40; R_channel 41], closed_), t') /\ all_used t'.
Proof.
  assert (E : (open_many 1023 started ≫= fun t => (fun x => (x.1, okm_fd_alloc t 0)) <$> do_pipe2 1 true true 0 true (kal_ok, 40, 41) t) = Some (- EMFILE, None, [R_channel 40; R_channel 41], [R_channel 41], 1023)) by (vm_compute; reflexivity).
  destruct (open_many 1023 started) as [t|] eqn:Et; [|discriminate E]. cbn [mbind option_bind] in E.
  destruct (pipe2_exact 1 true true 0 true kal_ok 40 41 t (open_many_ok _ _ _ started_ok Et)) as (r & ends & opened & closed_ & t' & Ep & Ht' & _ & H). rewrite Ep in E. cbn in E. injection E as -> -> -> -> Ea.
  exists t, t', [R_channel 41]. split; [reflexivity|]. split; [exact Ep|]. destruct H as [_ [[Hu _]|(rfd & _ & _ & _ & _ & Hu)]]; [|exact Hu].
  exfalso. destruct (alloc_lowest t (open_many_ok _ _ _ started_ok Et) ltac:(lia)) as (_ & Hn & _). rewrite Ea in Hn. refine (Hu 1023 _ Hn). unfold OKM_MAX_FD. lia.
Defined.

(** ** Locks *)

(** Where a range begins, as POSIX has it. *)
Definition lock_base (fl : flock) (here : Z) : Z := l_start fl + if l_whence fl =? SEEK_CUR then here else 0.

(** Of the commands that set a lock, measured from the beginning or from the position
    [here], where the range begins in the file and its length is not negative: the file is
    asked for exactly that range, shared where reading was asked for, waiting where that
    was, and its error is the answer; flock asks for the whole file. A range of a negative
    length, which to POSIX is the bytes before its beginning, is asked for as one of nearly
    2^64 bytes after it. *)
Theorem locks_exact me can_bound t fd d i cmd arg fl here e : okm_desc_of t fd = Some i -> at_ (g_desc t) i = Some d -> d_kind d = OKM_FILE ->
  cmd = F_SETLK \/ cmd = F_SETLKW \/ cmd = F_OFD_SETLK \/ cmd = F_OFD_SETLKW ->
  l_whence fl = SEEK_SET \/ l_whence fl = SEEK_CUR -> 0 <= here < 2 ^ 63 -> 0 <= lock_base fl here < 2 ^ 63 -> - 2 ^ 63 <= l_len fl < 2 ^ 63 ->
  let wait := bool_decide (cmd = F_SETLKW \/ cmd = F_OFD_SETLKW) in
  let len := if l_len fl <? 0 then 2 ^ 64 + l_len fl else l_len fl in
  let answer := if bool_decide (e = kal_ok) then 0 else - okm_errno e in
  do_fcntl me can_bound fd cmd arg (Some fl) (inr here) e t =
    Some ((answer, Some (if l_type fl =? F_UNLCK then A_unlock (d_file d) (lock_base fl here) len else A_lock (d_file d) (lock_base fl here) len (l_type fl =? F_RDLCK) wait)), t) /\
  (forall nb : bool, let op x := Z.lor x (if nb then LOCK_NB else 0) in
     do_flock t fd (op LOCK_SH) e = (answer, Some (A_lock (d_file d) 0 0 true (negb nb))) /\ do_flock t fd (op LOCK_EX) e = (answer, Some (A_lock (d_file d) 0 0 false (negb nb))) /\
     do_flock t fd (op LOCK_UN) e = (answer, Some (A_unlock (d_file d) 0 0))).
Proof.
  intros Hi Hd Hk Hcmd Hwh Hh Hb Hl wait len answer. split.
  - assert (Hs : set_lock d (Some fl) wait (inr here) e = (answer, Some (if l_type fl =? F_UNLCK then A_unlock (d_file d) (lock_base fl here) len else A_lock (d_file d) (lock_base fl here) len (l_type fl =? F_RDLCK) wait))).
    { unfold set_lock. rewrite bool_decide_true by done. cbn [negb]. assert (lock_start fl (inr here) = Some (lock_base fl here)) as ->.
      { unfold lock_start, lock_base in *. destruct Hwh as [E|E]; rewrite E in *; cbn in *; f_equal; unfold wrap64; [rewrite Z.mod_small; lia|]. rewrite Zplus_mod_idemp_r, Z.mod_small; lia. }
      assert (wrap64 (l_len fl) = len) as ->; [|done]. unfold len, wrap64. destruct (Z.ltb_spec (l_len fl) 0); [|by rewrite Z.mod_small by lia]. rewrite <-(Z_mod_plus_full _ 1), Z.mod_small by lia. lia. }
    unfold do_fcntl, mbind, M_bind, gets. change (id t) with t. rewrite Hi. cbn [mbind option_bind]. rewrite Hd. cbn [mbind option_bind].
    unfold wait in *. destruct Hcmd as [->|[->|[->| ->]]]; exact (f_equal (fun x => Some (x, t)) Hs).
  - intros nb op. unfold do_flock, desc_at. rewrite Hi. cbn [mbind option_bind]. rewrite Hd, bool_decide_true by done. by destruct nb.
Qed.

(** A descriptor of a file, and a lock of ten bytes from where it is. *)
Definition a_file : fd_table := with_fd (with_desc started (<[0%nat := Desc 1 OKM_FILE O_RDWR 5 6 0 0 0 (-1) 0 0 [] (-1) 0 0 0]> (g_desc started))) (<[0%nat := (0, 0)]> (g_fd started)).

Lemma locks_exact_witness : do_fcntl 1 true 0 F_SETLKW 0 (Some (Flock F_WRLCK SEEK_CUR (-5) 10)) (inr 100) kal_ok a_file = Some ((0, Some (A_lock 6 95 10 false true)), a_file).
Proof.
  apply (locks_exact 1 true a_file 0 (Desc 1 OKM_FILE O_RDWR 5 6 0 0 0 (-1) 0 0 [] (-1) 0 0 0) 0 F_SETLKW 0 (Flock F_WRLCK SEEK_CUR (-5) 10) 100 kal_ok);
    [reflexivity|reflexivity|reflexivity|auto|auto|lia|change (lock_base _ _) with 95; lia|change (l_len _) with 10; lia].
Defined.
