(* ===== verification/Programs.v ===== *)
(** Programs by their identifiers (port/src/okm_syscall.c): what this program answers of
    itself, kill and its relatives, process groups, and execve, which is a start, a wait
    and an end. *)
From S2P Require Import Prelude Kal FdTable Names Net Nodes Children Spawn.
From stdpp Require Import base list option.
From Stdlib Require Import ZArith Lia.

#[local] Open Scope Z_scope.

Definition ESRCH : Z := 3.
Definition INT_MIN : Z := - 2 ^ 31.
Definition _NSIG : Z := 65.
Definition SIGABRT : Z := 6.
Definition SIGCHLD : Z := 17.
Definition SIGCONT : Z := 18.
Definition SIGSTOP : Z := 19.
Definition SIGTSTP : Z := 20.
Definition SIGTTIN : Z := 21.
Definition SIGTTOU : Z := 22.
Definition SIGURG : Z := 23.
Definition SIGWINCH : Z := 28.
Definition OKM_SIG_MUSL_LOW : Z := 32.
Definition OKM_SIG_MUSL_HIGH : Z := 34.

(** What is asked of the environment about programs; where a unit is entered, the one that
    was formed. *)
Inductive prog_ask := P_terminate (h : Z) | P_job_terminate (j : Z) | P_job_enter (formed : option Z) | P_opened (h : Z) | P_close (h : Z).

(** The children, what this program answers of itself, the unit it formed, and what was
    asked. *)
Record progs := Progs {
  pg_procs : procs;
  g_self_pid : Z;
  g_told_pid : Z;
  g_job : option Z;
  pg_asks : list prog_ask;
}.

Definition pg_ask (a : prog_ask) : M progs () := modify (fun s => Progs (pg_procs s) (g_self_pid s) (g_told_pid s) (g_job s) (a :: pg_asks s)).
Definition set_self (pid : Z) : M progs () := modify (fun s => Progs (pg_procs s) pid (g_told_pid s) (g_job s) (pg_asks s)).

(** What a call makes of the program: it returns, or the program ends. *)
Inductive outcome := Returned (r : Z) | Exited (code : Z) | Aborted.

(** The environment's answers about this program: whether it has the operations, a handle
    of it, and its identifier where it says; and about another: a handle, and whether it
    has ended where it says. *)
Record self_env := SelfEnv { se_have : bool; se_self : kal_error + Z; se_info : kal_error + option Z }.
Record other_env := OtherEnv { oe_have : bool; oe_open : kal_error + Z; oe_info : kal_error + option bool }.

Section programs.
Context (se : self_env) (oe : other_env).

Definition okm_self_pid : M progs Z :=
  s ← gets id;
  if negb (g_self_pid s =? 0) then mret (g_self_pid s)
  else
    pid ← (if se_have se then
        match se_self se with
        | inl _ => mret (g_told_pid s)
        | inr me =>
            pg_ask (P_opened me);;
            let pid := match se_info se with
              | inr (Some id) => if (0 <? id) && (id <=? INT_MAX) then id else g_told_pid s
              | _ => g_told_pid s
              end in
            pg_ask (P_close me);;
            mret pid
        end
      else mret (g_told_pid s));
    set_self pid;;
    mret pid.

(** 1 running, 0 ended or unknown, -1 where the environment cannot say. *)
Definition okm_other_runs (pid : Z) : M progs Z :=
  if (pid <=? 0) || negb (oe_have oe) then mret (-1)
  else match oe_open oe with
  | inl e => mret (if bool_decide (e = kal_err_not_found) then 0 else -1)
  | inr other =>
      pg_ask (P_opened other);;
      pg_ask (P_close other);;
      mret (match oe_info oe with inr (Some ended) => if ended then 0 else 1 | _ => 1 end)
  end.

Definition okm_set_self_pid (pid : Z) : M progs () := modify (fun s => Progs (pg_procs s) 0 pid (g_job s) (pg_asks s)).

(** What fork does in the copy, of its copy of all this: [carried] is the number reserved
    for it. The copy is another program, which has asked for nothing yet. *)
Definition fork_copy (carried : Z) : M progs Z :=
  put_try (fun s => (fun x => Progs x.2 (g_self_pid s) (g_told_pid s) (g_job s) []) <$> forget_children (pg_procs s));;
  okm_set_self_pid carried;;
  mret 0.

(** ** Signals *)

Definition ignored_signal (sig : Z) : bool := (sig =? SIGCHLD) || (sig =? SIGURG) || (sig =? SIGWINCH).
Definition stopping_signal (sig : Z) : bool := (sig =? SIGSTOP) || (sig =? SIGTSTP) || (sig =? SIGTTIN) || (sig =? SIGTTOU) || (sig =? SIGCONT).

Definition signal_self (sig : Z) : outcome :=
  if sig =? 0 then Returned 0
  else if (sig <? 0) || (_NSIG <=? sig) then Returned (- EINVAL)
  else if (OKM_SIG_MUSL_LOW <=? sig) && (sig <=? OKM_SIG_MUSL_HIGH) then Returned (- ENOSYS)
  else if ignored_signal sig then Returned 0
  else if stopping_signal sig then Returned (- ENOSYS)
  else if sig =? SIGABRT then Aborted
  else Exited (128 + sig).

(** [e]: the environment's answer to the termination, should it be asked. What job_index
    finds has a unit, which kill tests once more. *)
Definition end_job (j sig : Z) (e : kal_error) : M progs outcome :=
  if sig =? 0 then mret (Returned 0)
  else pg_ask (P_job_terminate j);; mret (Returned (if bool_decide (e = kal_ok) then 0 else - okm_errno e)).

Definition do_kill (pid sig : Z) (e : kal_error) : M progs outcome :=
  s ← gets id;
  if (pid <? 0) && negb (pid =? -1) && negb (pid =? INT_MIN) then
    let gi := job_index (pg_procs s) (- pid) in
    if 0 <=? gi then
      c ← try (fun s => at_ (g_child (pg_procs s)) gi);
      end_job (c_job c) sig e
    else match g_job s with
    | None => mret (Returned (- ESRCH))
    | Some j => self ← okm_self_pid; if - pid =? self then end_job j sig e else mret (Returned (- ESRCH))
    end
  else
    let i := child_index (pg_procs s) pid in
    if 0 <=? i then
      if sig =? 0 then mret (Returned 0)
      else
        c ← try (fun s => at_ (g_child (pg_procs s)) i);
        pg_ask (P_terminate (c_h c));;
        mret (Returned (if bool_decide (e = kal_ok) then 0 else - okm_errno e))
    else
      self ← okm_self_pid;
      if (pid =? self) || (pid =? 0) || (pid =? -1) then mret (signal_self sig)
      else
        runs ← okm_other_runs pid;
        mret (Returned (if runs <=? 0 then - ESRCH else if sig =? 0 then 0 else - EPERM)).

Definition do_tkill (tid sig : Z) : outcome := signal_self sig.

(** getpgid and getsid. *)
Definition do_getpgid (pid : Z) : M progs Z :=
  self ← okm_self_pid;
  s ← gets id;
  if (pid =? 0) || (pid =? self) then mret self
  else if 0 <=? child_index (pg_procs s) (sext32 pid) then mret pid
  else runs ← okm_other_runs (sext32 pid); mret (if runs =? 1 then pid else - ESRCH).

(** [enter]: the environment's answer, with the unit. *)
Definition do_setpgid (pid pgid : Z) (enter : kal_error + Z) : M progs Z :=
  let names_self n := if n =? 0 then mret true else self ← okm_self_pid; mret (n =? self) in
  ok ← names_self pid;
  if negb ok then mret (- EPERM)
  else
    ok ← names_self pgid;
    if negb ok then mret (- EPERM)
    else
      pg_ask (P_job_enter (match enter with inr unit => Some unit | inl _ => None end));;
      match enter with
      | inr unit => modify (fun s => Progs (pg_procs s) (g_self_pid s) (g_told_pid s) (Some unit) (pg_asks s));; mret 0
      | inl e => mret (if bool_decide (e = kal_err_not_supported) then 0 else - okm_errno e)
      end.
End programs.

(** ** execve *)

Definition exit_code (st : Z) : Z := if has st 0x7f then 128 + Z.land st 0x7f else Z.land (Z.shiftr st 8) 0xff.

Section execve.
Context (g : names) (pr : props) (fs_info : Z -> str -> kal_error + node_kind).
Context (fs_open : nat -> okm_at -> kal_open -> kal_error + Z) (fs_open_dir : nat -> okm_at -> kal_error + Z) (fs_stream : Z -> Z).
Context (me : Z) (can_bound : bool) (answer : Z -> ended) (usage : Z -> usage_answer).

(** Every descriptor released under the lock, and what is then this context's to close
    closed after it. *)
Definition close_all_for_exec : M fd_table () :=
  okm_close_all true me;;
  mine ← okm_unlock me;
  foldr (fun d rest => close_owned true d;; rest) (mret ()) mine.

(** The children and the descriptors; the outcome, what was asked to be started, and what
    was opened and closed for the start. *)
Definition do_execve (path : str) (argv envp : list str) (start : kal_error * Z * Z) (id : option Z)
    : M (procs * fd_table) (outcome * option spawn_ask * list spawn_call) := fun s =>
  '(r, told, ask, calls, p) ← spawn_common s.2 g pr fs_info fs_open fs_open_dir fs_stream path [] None argv envp true start id s.1;
  if negb (r =? 0) then Some ((Returned (- r), ask, calls), (p, s.2))
  else
    '(_, t) ← close_all_for_exec s.2;
    '(w, p') ← do_wait4 can_bound answer usage (default 0 told) 0 p;
    Some ((Exited (if w.1 <? 0 then 127 else exit_code (default 0 (fst <$> w.2))), ask, calls), (p', t)).
End execve.
