(* ===== verification/ProgramsTheorems.v ===== *)
(** What the calls about programs promise: execve stands in for the program it starts, and
    kill reaches what was named and nothing else. *)
From S2P Require Import Prelude Kal FdTable FdTableOk FdTheorems Names Net Nodes Children ChildrenTheorems Spawn SpawnTheorems Programs.
From stdpp Require Import base list option.
From Stdlib Require Import ZArith Lia.

#[local] Open Scope Z_scope.

(** ** execve *)

(** The status a program ends with, where it stands in for one whose wait is answered
    [a]: the status of that one, 128 and the signal where a signal ended it, and 127
    where it cannot be waited for. *)
Definition stands_in (a : ended) : Z :=
  if negb (bool_decide (w_error a = kal_ok)) then 127
  else if w_terminated a then if w_status a mod 128 =? 0 then 0 else 128 + w_status a mod 128
  else w_status a mod 256.

Lemma exit_code_status a : w_error a = kal_ok -> exit_code (status_word a) = stands_in a.
Proof.
  intros He. unfold exit_code, stands_in, status_word. rewrite bool_decide_true by done. cbn [negb]. destruct (w_terminated a).
  - replace (Z.land (w_status a) 0x7f) with (w_status a mod 128) by (symmetry; by apply (land_low _ 7)). pose proof (Z.mod_pos_bound (w_status a) 128 ltac:(lia)). set (x := w_status a mod 128) in *.
    pose proof (below_all 128 (fun n => (if has (Z.of_nat n) 0x7f then 128 + Z.land (Z.of_nat n) 0x7f else Z.land (Z.shiftr (Z.of_nat n) 8) 0xff) =? (if Z.of_nat n =? 0 then 0 else 128 + Z.of_nat n)) ltac:(vm_compute; reflexivity) (Z.to_nat x) ltac:(lia)) as Hall.
    cbn beta in Hall. rewrite Z2Nat.id in Hall by lia. by apply Z.eqb_eq.
  - replace (Z.land (w_status a) 0xff) with (w_status a mod 256) by (symmetry; by apply (land_low _ 8)). pose proof (Z.mod_pos_bound (w_status a) 256 ltac:(lia)). set (x := w_status a mod 256) in *.
    pose proof (below_all 256 (fun n => (if has (Z.shiftl (Z.of_nat n) 8) 0x7f then 128 + Z.land (Z.shiftl (Z.of_nat n) 8) 0x7f else Z.land (Z.shiftr (Z.shiftl (Z.of_nat n) 8) 8) 0xff) =? Z.of_nat n) ltac:(vm_compute; reflexivity) (Z.to_nat x) ltac:(lia)) as Hall.
    cbn beta in Hall. rewrite Z2Nat.id in Hall by lia. by apply Z.eqb_eq.
Qed.

(** The wait for a program whose number no other has. *)
Lemma waited_for_it cb answer usage pid p r p' h : child_of p pid h -> (forall h', child_of p pid h' -> h' = h) -> 0 < pid ->
  waited cb answer usage pid 0 p r p' ->
  (if r.1 <? 0 then 127 else exit_code (default 0 (fst <$> r.2))) = stands_in (answer h) /\ (w_error (answer h) = kal_ok -> h ∈ p_closed p').
Proof.
  intros (i0 & c0 & Hc0 & Hu0 & Hp0 & Hh0) Honly Hpid Hw.
  assert (Hit : forall i c, at_ (g_child p) i = Some c -> asked_for pid c -> c_h c = h) by (intros i c Hc [Hu Hp]; apply Honly; exists i, c; auto).
  destruct Hw as [Hno|Hh|Hh|i c Hc Ha He|i c cpu peak Hc Ha He _ _]; try (by rewrite has_zero in Hh).
  - destruct (Hno i0 c0 Hc0). by split.
  - done.
  - done.
  - rewrite (Hit i c Hc Ha) in *. cbn [fst snd]. pose proof (errno_pos _ He). replace (- okm_errno (w_error (answer h)) <? 0) with true by lia. unfold stands_in. by rewrite bool_decide_false by done.
  - rewrite (Hit i c Hc Ha) in *. destruct Ha as [_ Ha]. rewrite (Ha Hpid). cbn [fst snd fmap option_fmap option_map default]. replace (pid <? 0) with false by lia. split; [by apply exit_code_status|]. intros _. cbn [p_closed]. by left.
Qed.

(** Closing in turn. *)
Lemma close_each_ok l t : exists t', foldr (fun d rest => close_owned true d;; rest) (mret ()) l t = Some ((), t') /\
  g_desc t' = g_desc t /\ g_fd t' = g_fd t /\ g_settling t' = g_settling t /\ closed t' ≡ₚ flat_map owned l ++ closed t.
Proof.
  revert t. induction l as [|d l IH]; intros t; cbn [foldr flat_map]; [by exists t|]. unfold mbind, M_bind, close_owned at 1, modify. destruct (IH (with_closed t (closes true d ++ closed t))) as (t' & E & H1 & H2 & H3 & H4).
  exists t'. split; [done|]. split; [done|]. split; [done|]. split; [done|]. rewrite H4. cbn [closed with_closed]. change (closes true d) with (owned d). perm.
Qed.

Lemma close_for_exec_ok me t : table_ok t -> g_settling t = [] ->
  exists t', close_all_for_exec me t = Some ((), t') /\ (forall fd, okm_desc_of t' fd = None) /\ g_settling t' = [] /\ closed t' ≡ₚ held t.
Proof.
  intros Ht Hs. destruct (close_from_ok me (Z.to_nat OKM_MAX_FD) 0 t Ht) as (t1 & E & (Ht1 & Hh & _ & [l Hl]) & Hno & _); [lia|unfold OKM_MAX_FD; lia|].
  unfold close_all_for_exec, okm_close_all. erewrite bind_run by exact E. rewrite Hs in Hl. cbn [app] in Hl.
  destruct (take_loop_ok me (length (g_settling t1)) 0 (g_settling t1)) as (mine & rest & Et & Hp & Hr); [lia|lia|by constructor|].
  assert (rest = []) as ->.
  { destruct rest as [|e rest]; [done|]. exfalso. inversion Hr as [|? ? He _]; subst. apply He. assert (e ∈ g_settling t1) as Hin by (rewrite Hp; apply elem_of_app; right; left). rewrite Hl in Hin. by apply list_elem_of_fmap in Hin as (p & -> & _). }
  rewrite app_nil_r in Hp. erewrite bind_run by (rewrite okm_unlock_take; unfold take_settling; rewrite Et; reflexivity).
  destruct (close_each_ok mine (with_settling t1 [])) as (t' & E' & H1 & H2 & H3 & H4). exists t'. cbn [fst snd]. split; [exact E'|].
  assert (Hfree : forall fd, okm_desc_of t1 fd = None) by (intros fd; destruct (decide (0 <= fd < OKM_MAX_FD)); [apply Hno; unfold OKM_MAX_FD in *; lia|unfold okm_desc_of; by split_if; [|lia]]).
  split; [intros fd; unfold okm_desc_of; rewrite H2; apply Hfree|]. split; [done|]. rewrite H4, <-Hh. unfold held. rewrite all_free_owns_nothing by done. cbn [app closed with_settling].
  apply Permutation_app_tail. rewrite Hp. clear. induction mine as [|d l IH]; [done|]. cbn [fmap list_fmap flat_map snd]. by rewrite IH.
Qed.

(** C13. execve, which is a start, a wait and an end, over the table of descriptors and the
    table of children together, while the counter of this library's own numbers is below
    the largest int. Either it returns, with an error, and every descriptor is
    as it was; or the program was started (and bound to this one, by [bound] of the start),
    every descriptor is closed, so that each thing the table held is given back once, and
    this program ends. Its status is then that of the
    program started, where no program in the table has its number. Both ways every
    file opened for the start is closed, and the programs started are those in the table
    and those given back. *)
Theorem exec_stands_in g pr fs_info fs_open fs_open_dir fs_stream me can_bound answer usage path argv envp start id st p t :
  table_ok t -> g_settling t = [] -> Z.of_nat (length (g_std_stream t)) = 3 -> (forall n a fl, fs_open n a fl <> inl kal_ok) -> children_ok st p -> pids_left p ->
  exists out ask calls p' t',
    do_execve g pr fs_info fs_open fs_open_dir fs_stream me can_bound answer usage path argv envp start id (p, t) = Some ((out, ask, calls), (p', t')) /\
    opened_of calls ≡ₚ closed_of calls /\
    children_ok (if bool_decide (is_Some ask) && bool_decide (start.1.1 = kal_ok) then start.1.2 :: st else st) p' /\
    ((exists e, e <> 0 /\ out = Returned e /\ t' = t) \/
     (exists a code, ask = Some a /\ how_args a = argv /\ how_envs a = envp /\ how_bound a = pr_bound pr /\ start.1.1 = kal_ok /\ out = Exited code /\
        (forall fd, okm_desc_of t' fd = None) /\ g_settling t' = [] /\ closed t' ≡ₚ held t /\
        ((forall h, ~ child_of p (number_of id (g_next_pid p + 1)) h) ->
           code = stands_in (answer start.1.2) /\ (w_error (answer start.1.2) = kal_ok -> start.1.2 ∈ p_closed p')))).
Proof.
  intros Ht Hset Hstd Hopen Hch Hleft. unfold do_execve. cbn [fst snd].
  destruct (spawn_started_right t g pr fs_info fs_open fs_open_dir fs_stream path [] None argv envp true start id st p Hstd Hopen Hch Hleft) as (r & told & ask & calls & p1 & E & Hcl & Hask & _ & Hr & Htold & Hch1).
  rewrite E. cbn [mbind option_bind]. destruct (Z.eqb_spec r 0) as [->|Hne]; cbn [negb].
  - destruct (proj1 Hr eq_refl) as [pid ->]. destruct (Htold pid eq_refl) as (Hs & [a ->] & Hpos & Hid & Hof & Honly). destruct (Hask a eq_refl) as (Ha1 & Ha2 & Ha3).
    destruct (close_for_exec_ok me t Ht Hset) as (t' & Ec & Hfree & Hset' & Hheld). rewrite Ec.
    destruct (wait_ok can_bound answer usage pid 0 p1) as (w & p' & Ew & Hw). change (default 0 (Some pid)) with pid. rewrite Ew. eexists _, _, _, p', t'. split; [reflexivity|]. split; [done|]. split; [by eapply waited_ok|].
    right. exists a. eexists. split_and!; try done. rewrite <-Hid. intros Hnone. apply (waited_for_it can_bound answer usage pid p1); try done. intros h' [H|[_ ->]]%Honly; [by destruct (Hnone h')|done].
  - eexists _, _, _, p1, t. split; [reflexivity|]. split; [done|]. split; [done|]. left. exists (- r). split; [lia|done].
Qed.

(** A table with the streams 10, 11 and 12 at the first descriptors and a directory at 3. *)
Definition bind_at (fd : Z) (kind : okm_kind) (stream dir : Z) (t : fd_table) : fd_table :=
  match okm_fd_bind true 7 fd kind stream 0 dir 0 t with Some (_, t') => t' | None => t end.
Definition with_streams : fd_table := bind_at 2 OKM_STREAM 12 0 (bind_at 1 OKM_STREAM 11 0 (bind_at 0 OKM_STREAM 10 0 with_dir)).

Lemma bind_at_ok fd kind stream dir t : table_ok t -> kind <> OKM_SOCKET -> table_ok (bind_at fd kind stream dir t).
Proof. intros Ht Hk. destruct (bind_call_ok 7 t fd kind stream 0 dir 0 Ht Hk) as (r & t' & E & H & _). unfold bind_at. by rewrite E. Qed.

(** "/bin" is started as 41, and a signal 9 ends it: the program ends with 137. *)
Definition killed_by_9 (h : Z) : ended := Ended kal_ok 9 true.

Lemma exec_stands_in_witness : exists ask calls p' t',
  do_execve one_supplied all_props (fun _ _ => inr kal_node_file) opens opens_dir streams 7 true killed_by_9 (fun _ => None) [47; 98; 105; 110] [[98; 105; 110]] [] (kal_ok, 41, 0) None (procs_zero, with_streams)
    = Some ((Exited 137, ask, calls), (p', t')) /\ closed t' = [R_dir 55] /\ p_closed p' = [41].
Proof.
  destruct (exec_stands_in one_supplied all_props (fun _ _ => inr kal_node_file) opens opens_dir streams 7 true killed_by_9 (fun _ => None) [47; 98; 105; 110] [[98; 105; 110]] [] (kal_ok, 41, 0) None [] procs_zero with_streams)
    as (out & ask & calls & p' & t' & E & _); [do 3 (apply bind_at_ok; [|done]); apply with_dir_ok|reflexivity|reflexivity|discriminate|apply procs_zero_ok|reflexivity|].
  vm_compute in E. injection E as <- <- <- <- <-. eexists _, _, _, _. split; [vm_compute; reflexivity|]. split; reflexivity.
Defined.

(** ** kill *)

(** What an enquiry asks: a handle, and the handle given back. *)
Inductive enquiry : list prog_ask -> Prop :=
| asks_none : enquiry []
| asks_of h l : enquiry l -> enquiry (P_close h :: P_opened h :: l).

Lemma enquiry_app l k : enquiry l -> enquiry k -> enquiry (l ++ k).
Proof. induction 1 as [|h l Hl IH]; [done|]. intros Hk. constructor. by apply IH. Qed.

(** The children and the unit are as they were, and nothing but an enquiry was made. *)
Definition enquired (s s' : progs) : Prop :=
  pg_procs s' = pg_procs s /\ g_job s' = g_job s /\ g_told_pid s' = g_told_pid s /\ exists l, enquiry l /\ pg_asks s' = l ++ pg_asks s.

(** The unit this program holds is one it formed, and its number is positive. It is so of a
    program at first and after each call, and is not of a copy made once a unit was
    formed. *)
Record progs_ok (s : progs) : Prop := {
  po_unit : forall j, g_job s = Some j -> P_job_enter (Some j) ∈ pg_asks s;
  po_told : 0 < g_told_pid s;
  po_self : 0 <= g_self_pid s;
}.

(** The termination [a] is of what [pid] names: a child of that number, the unit a child of
    that number formed, or the unit this program, whose own number is [self], formed. *)
Inductive aimed (s : progs) (self pid : Z) : prog_ask -> Prop :=
| at_child h : child_of (pg_procs s) pid h -> aimed s self pid (P_terminate h)
| at_unit i c : pid < -1 -> at_ (g_child (pg_procs s)) i = Some c -> c_has_job c = true -> c_pid c = - pid -> aimed s self pid (P_job_terminate (c_job c))
| at_own_unit j : pid < -1 -> g_job s = Some j -> P_job_enter (Some j) ∈ pg_asks s -> self = - pid -> aimed s self pid (P_job_terminate j).

(** The number is this program's, or that of a group it is in, and not a child's. *)
Definition names_self (s : progs) (self pid : Z) : Prop := (pid = self \/ pid = 0 \/ pid = -1) /\ forall h, ~ child_of (pg_procs s) pid h.

(** Signals whose default action is to end the program. *)
Definition ends_by_default (sig : Z) : Prop :=
  0 < sig < _NSIG /\ ~ (OKM_SIG_MUSL_LOW <= sig <= OKM_SIG_MUSL_HIGH) /\ ignored_signal sig = false /\ stopping_signal sig = false.

Lemma enquired_none s s' : pg_procs s' = pg_procs s -> g_job s' = g_job s -> g_told_pid s' = g_told_pid s -> pg_asks s' = pg_asks s -> enquired s s'.
Proof. intros H1 H2 H3 H4. split_and!; [done..|]. exists []. split; [constructor|done]. Qed.

Lemma enquired_refl s : enquired s s.
Proof. by apply enquired_none. Qed.

Lemma enquired_trans s1 s2 s3 : enquired s1 s2 -> enquired s2 s3 -> enquired s1 s3.
Proof.
  intros (H1 & H2 & H5 & l & Hl & E) (H3 & H4 & H6 & k & Hk & E'). split_and!; [by rewrite H3|by rewrite H4|by rewrite H6|]. exists (k ++ l). split; [by apply enquiry_app|]. by rewrite E', E, app_assoc.
Qed.

Lemma self_pid_ok se s : progs_ok s -> exists self s', okm_self_pid se s = Some (self, s') /\ enquired s s' /\ g_self_pid s' = self /\ 0 < self.
Proof.
  intros [_ Ht Hs]. unfold okm_self_pid, mbind, M_bind, gets. change (id s) with s. destruct (Z.eqb_spec (g_self_pid s) 0) as [Hz|Hz]; cbn [negb].
  2: { exists (g_self_pid s), s. split_and!; [done|by apply enquired_none|done|lia]. }
  destruct (se_have se); [|eexists _, _; split; [reflexivity|]; split_and!; [by apply enquired_none|done|done]].
  destruct (se_self se) as [e|me]; [eexists _, _; split; [reflexivity|]; split_and!; [by apply enquired_none|done|done]|]. eexists _, _. split; [reflexivity|]. split_and!; [|done|].
  - split_and!; [done..|]. exists [P_close me; P_opened me]. split; [do 2 constructor|done].
  - destruct (se_info se) as [?|[id|]]; [done| |done]. split_if; boolean; lia.
Qed.

Lemma other_runs_ok oe pid s : exists r s', okm_other_runs oe pid s = Some (r, s') /\ enquired s s' /\ g_self_pid s' = g_self_pid s.
Proof.
  unfold okm_other_runs. split_if; [eexists _, _; split; [reflexivity|]; split; [apply enquired_refl|done]|]. destruct (oe_open oe) as [e|h]; eexists _, _; (split; [reflexivity|]); (split; [|done]); [apply enquired_refl|].
  split_and!; [done..|]. exists [P_close h; P_opened h]. split; [do 2 constructor|done].
Qed.

(** What a call that names something comes to: [acts] is what it asked to be terminated. *)
Record kill_ok (s : progs) (pid sig : Z) (e : kal_error) (out : outcome) (s' : progs) (acts : list prog_ask) : Prop := {
  kl_enquired : exists s1, enquired s s1 /\ pg_procs s' = pg_procs s1 /\ g_job s' = g_job s1 /\ pg_asks s' = acts ++ pg_asks s1;
  kl_aimed : acts = [] \/ exists a, acts = [a] /\ aimed s (g_self_pid s') pid a;
  kl_zero : sig = 0 -> acts = [] /\ (out = Returned 0 \/ out = Returned (- ESRCH));
  kl_done : sig <> 0 -> out = Returned 0 -> (acts <> [] /\ e = kal_ok) \/ (acts = [] /\ ignored_signal sig = true /\ names_self s (g_self_pid s') pid);
  kl_ends : (out = Aborted \/ exists code, out = Exited code) -> acts = [] /\ names_self s (g_self_pid s') pid /\ ends_by_default sig;
  kl_self : names_self s (g_self_pid s') pid -> acts = [] /\
    (ends_by_default sig -> out = if sig =? SIGABRT then Aborted else Exited (128 + sig)) /\
    (ignored_signal sig = true -> out = Returned 0) /\
    (stopping_signal sig = true \/ OKM_SIG_MUSL_LOW <= sig <= OKM_SIG_MUSL_HIGH -> out = Returned (- ENOSYS));
  kl_child : ends_by_default sig -> 0 < pid -> (exists h, child_of (pg_procs s) pid h) ->
    exists h, child_of (pg_procs s) pid h /\ acts = [P_terminate h] /\ out = Returned (if bool_decide (e = kal_ok) then 0 else - okm_errno e);
}.

Lemma child_index_ok p pid : let i := child_index p pid in
  (0 <= i /\ exists c, at_ (g_child p) i = Some c /\ c_used c = true /\ c_pid c = pid) \/ (i < 0 /\ forall h, ~ child_of p pid h).
Proof.
  unfold child_index. cbn zeta. destruct (scan_from _ _ _) as [i|] eqn:E; cbn [default from_option id].
  - left. apply scan_from_some in E as (Hi & (c & Hc & Hu) & _). rewrite Z.sub_0_r in Hc. boolean. split; [lia|]. by exists c.
  - right. split; [done|]. apply scan_from_none in E. intros h (i & c & Hc%at_lookup & Hu & Hp & _). pose proof (Forall_lookup_1 _ _ _ _ E Hc) as H. cbn in H. rewrite Hu, Hp, Z.eqb_refl in H. done.
Qed.

Lemma job_index_ok p pid : 0 <= job_index p pid -> exists c, at_ (g_child p) (job_index p pid) = Some c /\ c_has_job c = true /\ c_pid c = pid.
Proof.
  unfold job_index. destruct (scan_from _ _ _) as [i|] eqn:E; cbn [default from_option id]; [|lia]. intros _.
  apply scan_from_some in E as (Hi & (c & Hc & Hu) & _). rewrite Z.sub_0_r in Hc. boolean. by exists c.
Qed.

Lemma errno_not_zero (e : kal_error) : (if bool_decide (e = kal_ok) then 0 else - okm_errno e) = 0 -> e = kal_ok.
Proof. case_bool_decide as He; [done|]. pose proof (errno_pos _ He). lia. Qed.

Lemma names_self_group s self pid : names_self s self pid -> pid < -1 -> pid = self.
Proof. intros [[?|[?|?]] _] ?; lia. Qed.

(** A unit that was named is ended, or only enquired after. *)
Lemma end_job_ok s s1 pid sig e j : enquired s s1 -> 0 <= g_self_pid s1 -> aimed s (g_self_pid s1) pid (P_job_terminate j) -> pid < -1 ->
  exists out s' acts, end_job j sig e s1 = Some (out, s') /\ kill_ok s pid sig e out s' acts.
Proof.
  intros Hq Hpos Ha Hp. assert (forall P : Prop, names_self s (g_self_pid s1) pid -> P) as Hno by (intros P H%names_self_group; lia).
  unfold end_job. destruct (Z.eqb_spec sig 0) as [->|Hz].
  - eexists _, _, []. split; [reflexivity|]. constructor; try done; auto; [by exists s1|by intros [?|[? ?]]|intros H; by apply Hno|lia].
  - eexists _, _, [P_job_terminate j]. split; [reflexivity|]. constructor; try done; cbn.
    + by exists s1.
    + right. eauto.
    + intros _ [= H%errno_not_zero]. by left.
    + by intros [?|[? ?]].
    + intros H. by apply Hno.
    + lia.
Qed.

(** The default action, as a table. *)
Lemma signal_self_acts sig out : signal_self sig = out ->
  (sig = 0 -> out = Returned 0) /\ (sig <> 0 -> out = Returned 0 -> ignored_signal sig = true) /\
  ((out = Aborted \/ exists code, out = Exited code) -> ends_by_default sig) /\
  (ends_by_default sig -> out = if sig =? SIGABRT then Aborted else Exited (128 + sig)) /\
  (ignored_signal sig = true -> out = Returned 0) /\
  (stopping_signal sig = true \/ OKM_SIG_MUSL_LOW <= sig <= OKM_SIG_MUSL_HIGH -> out = Returned (- ENOSYS)).
Proof.
  intros <-. unfold signal_self, ends_by_default.
  assert (ignored_signal sig = true -> sig = 17 \/ sig = 23 \/ sig = 28) as Hi by (unfold ignored_signal, SIGCHLD, SIGURG, SIGWINCH; lia).
  assert (stopping_signal sig = true -> 18 <= sig <= 22) as Hs by (unfold stopping_signal, SIGSTOP, SIGTSTP, SIGTTIN, SIGTTOU, SIGCONT; lia).
  unfold OKM_SIG_MUSL_LOW, OKM_SIG_MUSL_HIGH, _NSIG.
  assert (forall r, (Returned r = Aborted \/ exists code, Returned r = Exited code) -> False) as Hret by (by intros r [?|[? ?]]).
  destruct (Z.eqb_spec sig 0) as [->|Hz]; [split_and!; try done; [intros Hx; by destruct (Hret 0)|lia|intros [Hx%Hs|?]; lia]|].
  destruct ((sig <? 0) || (65 <=? sig)) eqn:E1; boolean; [split_and!; try done; [intros Hx; by destruct (Hret _ Hx)|lia|intros Hx%Hi; lia|intros [Hx%Hs|?]; lia]|].
  destruct ((32 <=? sig) && (sig <=? 34)) eqn:E2; boolean; [split_and!; try done; [intros Hx; by destruct (Hret _ Hx)|lia|intros Hx%Hi; lia]|].
  destruct (ignored_signal sig) eqn:E3; [split_and!; try done; [intros Hx; by destruct (Hret _ Hx)|intros (_ & _ & ? & _); done|intros [Hx%Hs|?]; [specialize (Hi eq_refl); lia|lia]]|].
  destruct (stopping_signal sig) eqn:E4; [split_and!; try done; [intros Hx; by destruct (Hret _ Hx)|intros (_ & _ & _ & ?); done]|].
  split_and!; try done; [by destruct (sig =? SIGABRT)|intros _; split_and!; try done; lia|intros [?|?]; [done|lia]].
Qed.

Lemma do_kill_ok se oe s pid sig e : progs_ok s -> exists out s' acts, do_kill se oe pid sig e s = Some (out, s') /\ kill_ok s pid sig e out s' acts.
Proof.
  intros Hok. pose proof (po_self _ Hok) as Hself. unfold do_kill. rewrite (bind_run (gets id) _ s s s) by reflexivity. cbn zeta. destruct (_ && _ && _) eqn:Eg.
  - boolean. destruct (Z.leb_spec 0 (job_index (pg_procs s) (- pid))) as [Hg|Hg].
    + destruct (job_index_ok _ _ Hg) as (c & Hc & Hj & Hpid). erewrite bind_run by (unfold try; rewrite Hc; reflexivity).
      apply end_job_ok; [apply enquired_refl|done| |lia]. by eapply at_unit; [lia|exact Hc|..].
    + assert (Hnone : forall s1, enquired s s1 -> 0 <= g_self_pid s1 -> exists out s' acts, Some (Returned (- ESRCH), s1) = Some (out, s') /\ kill_ok s pid sig e out s' acts).
      { intros s1 Hq Hs1. eexists _, _, []. split; [reflexivity|]. constructor; auto; [by exists s1|done|by intros [?|[? ?]]|intros Hx%names_self_group; lia|lia]. }
      destruct (g_job s) as [j|] eqn:Ej; [|apply Hnone; [apply enquired_refl|done]]. destruct (self_pid_ok se s Hok) as (self & s1 & E1 & Hq & Hs & Hpos). erewrite bind_run by exact E1. destruct (Z.eqb_spec (- pid) self); [|apply Hnone; [done|lia]].
      apply end_job_ok; [done|lia| |lia]. apply at_own_unit; [lia|done|by apply (po_unit _ Hok)|lia].
  - destruct (child_index_ok (pg_procs s) pid) as [(Hi & c & Hc & Hu & Hp)|[Hi Hno]].
    + replace (0 <=? child_index (pg_procs s) pid) with true by lia. assert (Hch : child_of (pg_procs s) pid (c_h c)) by (eexists _, c; eauto). destruct (Z.eqb_spec sig 0) as [->|Hz].
      * eexists _, _, []. split; [reflexivity|]. constructor; auto; [exists s; split; [apply enquired_refl|done]|done|by intros [?|[? ?]]|intros [_ Hx]; by destruct (Hx (c_h c))|by intros [[? ?] _]].
      * erewrite bind_run by (unfold try; rewrite Hc; reflexivity). eexists _, _, [P_terminate (c_h c)]. split; [reflexivity|]. constructor; try done; cbn.
        -- exists s. split; [apply enquired_refl|done].
        -- right. eexists. split; [done|]. by constructor.
        -- intros _ [= Hx%errno_not_zero]. by left.
        -- by intros [?|[? ?]].
        -- intros [_ Hx]. by destruct (Hx (c_h c)).
        -- eauto.
    + replace (0 <=? child_index (pg_procs s) pid) with false by lia. destruct (self_pid_ok se s Hok) as (self & s1 & E1 & Hq & Hs & Hpos). erewrite bind_run by exact E1. subst self. destruct (_ || _ || _) eqn:En.
      * destruct (signal_self_acts sig _ eq_refl) as (H0 & H1 & H2 & H3). assert (names_self s (g_self_pid s1) pid) as Hn by (split; [lia|done]).
        eexists _, s1, []. split; [reflexivity|]. constructor; auto; [by exists s1|intros _ _ [h Hh]; by destruct (Hno h)].
      * destruct (other_runs_ok oe pid s1) as (r & s2 & E2 & Hq2 & Hs2). erewrite bind_run by exact E2. eexists _, s2, []. split; [reflexivity|]. constructor; auto.
        -- exists s2. split; [by eapply enquired_trans|done].
        -- intros ->. split; [done|]. destruct (r <=? 0); auto.
        -- intros Hz. destruct (r <=? 0); [done|]. by replace (sig =? 0) with false by lia.
        -- by intros [?|[? ?]].
        -- rewrite Hs2. intros [Hn _]. lia.
        -- intros _ _ [h Hh]. by destruct (Hno h).
Qed.

Lemma progs_zero_ok : progs_ok (Progs procs_zero 0 1 None []).
Proof. by constructor. Qed.

(** What asks no more than an enquiry keeps it. *)
Lemma enquired_ok s s' l : progs_ok s -> enquired s s' -> 0 <= g_self_pid s' -> forall s'', g_job s'' = g_job s' -> g_told_pid s'' = g_told_pid s' -> g_self_pid s'' = g_self_pid s' ->
  pg_asks s'' = l ++ pg_asks s' -> progs_ok s''.
Proof.
  intros [Hu Ht Hs] (_ & Hj & Htold & k & _ & Ek) Hs' s'' E1 E2 E3 E4. constructor; [|lia|lia]. intros j. rewrite E1, Hj, E4, Ek. intros Hin%Hu. apply elem_of_app. right. apply elem_of_app. by right.
Qed.

(** setpgid forms the unit it comes to hold. *)
Lemma setpgid_keeps se s pid pgid enter r s' : progs_ok s -> do_setpgid se pid pgid enter s = Some (r, s') -> progs_ok s'.
Proof.
  intros Hok. assert (forall n s1, progs_ok s1 -> exists b s2, (if n =? 0 then mret true else self ← okm_self_pid se; mret (n =? self)) s1 = Some (b, s2) /\ progs_ok s2) as Hself.
  { intros n s1 H1. destruct (n =? 0); [eexists _, _; split; [reflexivity|done]|]. destruct (self_pid_ok se s1 H1) as (self & s2 & E & Hq & Hs & Hpos). erewrite bind_run by exact E. eexists _, s2. split; [reflexivity|].
    by apply (enquired_ok s1 s2 [] H1 Hq ltac:(lia)). }
  unfold do_setpgid. destruct (Hself pid s Hok) as (b1 & s1 & E1 & H1). erewrite bind_run by exact E1. destruct b1; cbn [negb]; [|by intros [= _ <-]].
  destruct (Hself pgid s1 H1) as (b2 & s2 & E2 & H2). erewrite bind_run by exact E2. destruct b2; cbn [negb]; [|by intros [= _ <-]]. destruct H2 as [Hu Ht Hs].
  erewrite bind_run by reflexivity. destruct enter as [e|unit]; intros [= _ <-]; constructor; cbn; try done; [intros j Hj; right; by apply Hu|intros j [= ->]; by left].
Qed.

(** C26. kill in a program that has formed the unit it holds, whatever is in the table and
    whatever the environment answers: it returns or ends the program, changes no entry of
    the table of children nor the unit held, and gives back each handle it opened to
    enquire. It asks for one termination at most, of what the number names: the child of
    that number, the unit that child formed, or the unit this program formed where the
    number is its own. Signal zero asks for none and answers 0 or ESRCH. For any other, 0
    is answered only where a termination was asked and done, or where this program was
    named and the signal is one that is ignored. A number that names this program performs
    the default action: it ends with 128 and the signal, or aborts, by a signal that ends;
    answers 0 to one that is ignored, and ENOSYS to one that stops or is musl's own; and
    the program ends in no other case. A child that is named by a signal that ends is
    terminated. That a child is terminated by the others too is [kill_ends_child]; that a
    copy's unit may be another's is [copy_ends_original]. *)
Theorem kill_exact se oe s pid sig e : progs_ok s -> exists out s' acts, do_kill se oe pid sig e s = Some (out, s') /\ kill_ok s pid sig e out s' acts.
Proof. apply do_kill_ok. Qed.

Lemma kill_exact_witness : exists out s' acts,
  do_kill (SelfEnv false (inl kal_err_not_supported) (inl kal_err_not_supported)) (OtherEnv false (inl kal_err_not_supported) (inl kal_err_not_supported)) 1 15 kal_ok (Progs procs_zero 0 1 None []) = Some (out, s') /\
  out = Exited 143 /\ kill_ok (Progs procs_zero 0 1 None []) 1 15 kal_ok out s' acts.
Proof.
  destruct (kill_exact (SelfEnv false (inl kal_err_not_supported) (inl kal_err_not_supported)) (OtherEnv false (inl kal_err_not_supported) (inl kal_err_not_supported)) (Progs procs_zero 0 1 None []) 1 15 kal_ok progs_zero_ok) as (out & s' & acts & E & H).
  exists out, s', acts. split; [exact E|]. split; [|exact H]. vm_compute in E. by injection E as <- _.
Defined.

(** A child is terminated by every signal but zero: by one whose default action is to be
    ignored or to stop, by musl's own, and by a number that is no signal. *)
Lemma kill_ends_child se oe s pid h sig : 0 < pid -> child_of (pg_procs s) pid h -> sig <> 0 ->
  exists h' s', do_kill se oe pid sig kal_ok s = Some (Returned 0, s') /\ child_of (pg_procs s) pid h' /\ pg_asks s' = P_terminate h' :: pg_asks s.
Proof.
  intros Hp Hch Hz. unfold do_kill. rewrite (bind_run (gets id) _ s s s) by reflexivity. cbn zeta. replace (pid <? 0) with false by lia. cbn [andb].
  destruct (child_index_ok (pg_procs s) pid) as [(Hi & c & Hc & Hu & Hpid)|[_ Hno]]; [|by destruct (Hno h)]. replace (0 <=? _) with true by lia. replace (sig =? 0) with false by lia.
  erewrite bind_run by (unfold try; rewrite Hc; reflexivity). eexists (c_h c), _. split; [reflexivity|]. split; [|done]. eexists _, c. eauto.
Qed.

(** The unit held is reached by the program's own number, where no child formed one of
    that number. *)
Lemma kill_own_unit se oe s s1 j n sig : g_job s = Some j -> job_index (pg_procs s) n < 0 -> okm_self_pid se s = Some (n, s1) -> 1 < n < INT_MAX -> sig <> 0 ->
  exists s', do_kill se oe (- n) sig kal_ok s = Some (Returned 0, s') /\ pg_asks s' = P_job_terminate j :: pg_asks s1.
Proof.
  intros Hj Hi Hs Hn Hz. unfold do_kill. rewrite (bind_run (gets id) _ s s s) by reflexivity. cbn zeta. unfold INT_MAX in Hn. replace (_ && _) with true by (unfold INT_MIN; lia). rewrite Z.opp_involutive.
  replace (0 <=? job_index (pg_procs s) n) with false by lia. rewrite Hj. erewrite bind_run by exact Hs. rewrite Z.eqb_refl. unfold end_job. replace (sig =? 0) with false by lia. eexists. split; reflexivity.
Qed.

(** A program as it is at first, in an environment that does not say its number. *)
Definition progs_zero : progs := Progs procs_zero 0 1 None [].
Definition says_nothing : self_env := SelfEnv false (inl kal_err_not_supported) (inl kal_err_not_supported).
Definition no_others : other_env := OtherEnv false (inl kal_err_not_supported) (inl kal_err_not_supported).

(** The program forms the unit [j]; a copy of it is made, for which the number [n] was
    reserved; and the copy signals the unit of its own number. *)
Definition copy_signals (j n sig : Z) : M progs outcome :=
  do_setpgid says_nothing 0 0 (inr j);;
  fork_copy n;;
  do_kill says_nothing no_others (- n) sig kal_ok.

(** The unit kill reaches by a copy's own number is the one the original formed: a
    copy made by fork forgets the children and takes its own number and keeps the unit, so
    that kill of the copy's own group, which the copy never formed, terminates the
    original and everything it leads. *)
Theorem copy_ends_original j n : 1 < n < INT_MAX -> exists s', copy_signals j n 9 progs_zero = Some (Returned 0, s') /\ pg_asks s' = [P_job_terminate j].
Proof.
  intros Hn. unfold copy_signals. erewrite bind_run by reflexivity. erewrite bind_run by reflexivity.
  match goal with |- exists s', do_kill _ _ _ _ _ ?s = _ /\ _ => destruct (kill_own_unit says_nothing no_others s (Progs (pg_procs s) n n (g_job s) (pg_asks s)) j n 9) as (s' & E & Ea) end;
    [reflexivity|vm_compute; reflexivity|reflexivity|done|done|]. exists s'. split; [exact E|exact Ea].
Qed.

Lemma copy_ends_original_witness : exists s', copy_signals 5 1001 9 progs_zero = Some (Returned 0, s') /\ pg_asks s' = [P_job_terminate 5].
Proof. apply (copy_ends_original 5 1001). split; reflexivity. Defined.
