(* ===== verification/Mmap.v ===== *)
(** Mappings as a caller makes them (port/src/okm_syscall.c, do_mmap and the cases of
    munmap, msync and madvise): a part of a file, a range of the address space where the
    environment has regions, and memory of its allocator where it has none. *)
From S2P Require Import Prelude Kal FdTable Nodes Region MapFile.
From stdpp Require Import base list option.
From Stdlib Require Import ZArith Lia.

#[local] Open Scope Z_scope.

Definition MAP_ANON : Z := 0x20.

(** What is asked of the environment's allocator, and the bytes cleared. *)
Inductive alloc_call := A_alloc (p n : Z) | A_free (p n : Z) | A_zero (p n : Z).

(** The three together; the latest call first. *)
Record space := Space { as_regions : regions; as_maps : maps; as_calls : list alloc_call }.

Definition space_zero : space := Space regions_zero maps_zero [].

Definition of_regions {A} (e : M regions A) : M space A := fun s =>
  '(x, t) ← e (as_regions s); Some (x, Space t (as_maps s) (as_calls s)).
Definition of_maps {A} (e : M maps A) : M space A := fun s =>
  '(x, t) ← e (as_maps s); Some (x, Space (as_regions s) t (as_calls s)).
Definition as_call (c : alloc_call) : M space () := modify (fun s => Space (as_regions s) (as_maps s) (c :: as_calls s)).

(** What the environment answers a mapping with: the range it reserves, the memory it
    allocates, the file's size and where it maps it, and memory for either record, each
    should it be asked. *)
Record placement := Placement {
  pl_reserve : Z;
  pl_alloc : Z;
  pl_info : kal_error;
  pl_size : Z;
  pl_map : kal_error;
  pl_base : Z;
  pl_table : Z;
}.

Section mmap.
Context (snap : okm_snapshot) (granularity alignment : Z).
(** Whether openkal's regions and its file mappings, weak references, are there. *)
Context (have_regions have_maps : bool).

Definition okm_whole_pages (len : Z) : Z := whole_pages len OKM_PAGE.

Definition do_mmap (fds : fd_table) (addr len prot flags fd off : Z) (pl : placement) : M space Z :=
  if (0 <=? fd) && negb (has flags MAP_ANON) then
    of_maps (okm_map_file snap alignment have_maps fds len prot flags fd off (pl_info pl) (pl_size pl) (pl_map pl) (pl_base pl) (pl_table pl))
  else if negb (addr =? 0) || (0 <=? fd) || negb (off =? 0) then mret (- ENOSYS)
  else if negb (has flags MAP_ANON) || negb (has flags MAP_PRIVATE) then mret (- ENOSYS)
  else if len =? 0 then mret (- EINVAL)
  else
    r ← of_regions (okm_region_map snap have_regions granularity len (pl_reserve pl) (pl_table pl));
    if negb (r =? - ENOSYS) then mret r
    else if 2 ^ 64 - 1 - (OKM_PAGE - 1) <? len then mret (- ENOMEM)
    else
      let n := okm_whole_pages len in
      as_call (A_alloc (pl_alloc pl) n);;
      if pl_alloc pl =? 0 then mret (- ENOMEM)
      else as_call (A_zero (pl_alloc pl) n);; mret (pl_alloc pl).

Definition do_munmap (a len : Z) : M space Z :=
  r ← of_maps (okm_map_unmap a);
  match r with
  | Some z => mret z
  | None =>
      r ← of_regions (okm_region_unmap snap have_regions granularity a len);
      match r with
      | Some z => mret z
      | None =>
          (if okm_from_snapshot snap a then mret () else as_call (A_free a (okm_whole_pages len)));;
          mret 0
      end
  end.

(** [e] is kal_map_sync's answer. *)
Definition do_msync (a : Z) (e : kal_error) : M space Z :=
  r ← of_maps (okm_map_sync a e);
  mret (default 0 r).

(** [e1], [e2]: as okm_region_advise's. *)
Definition do_madvise (a len advice : Z) (e1 e2 : kal_error) : M space Z :=
  r ← of_regions (okm_region_advise snap have_regions granularity a len advice e1 e2);
  mret (default 0 r).
End mmap.
