(* ===== verification/MmapTheorems.v ===== *)
(** What mmap and munmap promise together: an address space in which what a caller holds
    is what the environment has given, whichever of the three ways it was mapped. *)
From S2P Require Import Prelude Kal FdTable FdTableOk Nodes Region RegionOk RegionTheorems MapFile MapFileTheorems Mmap.
From stdpp Require Import base list option relations.
From Stdlib Require Import ZArith Lia.

#[local] Open Scope Z_scope.

(** ** The address space a caller sees *)

(** The three ways, a file's with where the environment mapped it and how much; and a
    mapping by the arguments it was made with. *)
Inductive way := By_file (base want : Z) | By_region | By_alloc.
Record mapping := Mapping { mp_at : Z; mp_len : Z; mp_way : way }.

Section space.
Context (snap : okm_snapshot) (granularity alignment : Z) (have_regions have_maps : bool).
Hypothesis Hgran : 0 <= granularity < 2 ^ 64.
Abbreviation g := (grain granularity).

(** The addresses the environment gave for a mapping: of a file, those up to its end and
    no more. *)
Definition starts (m : mapping) : Z := match mp_way m with By_file base _ => base | _ => mp_at m end.
Definition extent_of (m : mapping) : Z := match mp_way m with By_file _ want => want | By_region => whole_pages (mp_len m) g | By_alloc => okm_whole_pages (mp_len m) end.
Definition stops (m : mapping) : Z := starts m + extent_of m.
Definition separate (m m' : mapping) : Prop := stops m <= starts m' \/ stops m' <= starts m.
(** Each is apart from all others. *)
Definition disjoint (held : list mapping) : Prop := forall m rest, held ≡ₚ m :: rest -> Forall (separate m) rest.

(** What the environment was asked for it, and a file's record. *)
Definition range_of (m : mapping) : list range := match mp_way m with By_region => [Range (mp_at m) (whole_pages (mp_len m) g)] | _ => [] end.
Definition view_of (m : mapping) : list (Z * Z) := match mp_way m with By_file base want => [(base, want)] | _ => [] end.
Definition record_of (m : mapping) : list region := match mp_way m with By_file base want => [MkRegion (mp_at m) (mp_len m) base want] | _ => [] end.
Definition block_of (m : mapping) : list (Z * Z) := match mp_way m with By_alloc => [(mp_at m, okm_whole_pages (mp_len m))] | _ => [] end.

(** What is allocated after the calls, of which a free must name what is. *)
Fixpoint allocated (cs : list alloc_call) : option (list (Z * Z)) :=
  match cs with
  | [] => Some []
  | c :: cs' =>
      l ← allocated cs';
      match c with
      | A_alloc p n => Some (if p =? 0 then l else (p, n) :: l)
      | A_free p n => remove_one (p, n) l
      | A_zero _ _ => Some l
      end
  end.

(** A mapping in the address space, not of the snapshot's memory; a range begins a page,
    and neither the address nor what was asked for wraps. *)
Record usable (m : mapping) : Prop := {
  us_starts : 0 < starts m;
  us_stops : stops m < 2 ^ 64;
  us_ends : starts m <= mp_at m /\ mp_at m + mp_len m < 2 ^ 64;
  us_taken : match mp_way m with By_file _ _ => True | _ => mp_len m <= extent_of m end;
  us_fresh : okm_from_snapshot snap (mp_at m) = false;
  us_region : mp_way m = By_region -> have_regions = true /\ mp_at m mod g = 0;
  us_alloc : mp_way m = By_alloc -> have_regions = false;
}.

(** The address the caller has is in what the environment gave. *)
Definition inside (m : mapping) : Prop := 0 < mp_len m /\ starts m <= mp_at m < stops m.

(** The mappings held are what the tables record and what the environment has given. *)
Record holds (held : list mapping) (s : space) : Prop := {
  ho_usable : Forall (fun m => usable m /\ inside m) held;
  ho_disjoint : disjoint held;
  ho_regions : regions_ok (as_regions s);
  ho_ranges : g_ranges (as_regions s) ≡ₚ flat_map range_of held;
  ho_reserved : exists l, replay [] (calls (as_regions s)) = Some l /\ l ≡ₚ g_ranges (as_regions s);
  ho_maps : maps_ok (as_maps s);
  ho_records : g_regions (as_maps s) ≡ₚ flat_map record_of held;
  ho_blocks : exists l, allocated (as_calls s) = Some l /\ l ≡ₚ flat_map block_of held;
}.

(** [m'], a file's, was asked for past the part of the file that is mapped, and over the
    address of [m]. *)
Definition obscures (m' m : mapping) : Prop := mp_way m' <> By_region /\ mp_way m' <> By_alloc /\ stops m' <= mp_at m < mp_at m' + mp_len m'.

Lemma separate_sym m m' : separate m m' -> separate m' m.
Proof. unfold separate. tauto. Qed.

Lemma disjoint_cons m held : disjoint held -> Forall (separate m) held -> disjoint (m :: held).
Proof.
  intros Hd Hm x rest Hp. assert (x ∈ m :: held) as Hx by (rewrite Hp; by left). apply elem_of_cons in Hx as [->|Hx].
  - apply Permutation_cons_inv in Hp. by rewrite <-Hp.
  - apply list_elem_of_split in Hx as (h1 & h2 & ->). assert (h1 ++ x :: h2 ≡ₚ x :: (h1 ++ h2)) as E by (symmetry; apply Permutation_middle).
    rewrite E in Hp, Hm. rewrite Permutation_swap in Hp. apply Permutation_cons_inv in Hp. rewrite <-Hp. apply Forall_cons in Hm as [Hm _]. constructor; [by apply separate_sym|]. by apply Hd.
Qed.

Lemma disjoint_perm h h' : h ≡ₚ h' -> disjoint h -> disjoint h'.
Proof. intros E Hd m rest Hp. apply Hd. by rewrite E. Qed.

Lemma disjoint_tail m held : disjoint (m :: held) -> disjoint held.
Proof.
  intros Hd x rest Hp. assert (Forall (separate x) (m :: rest)) as H; [|by apply Forall_cons in H as [_ H]]. apply Hd. rewrite Hp. apply Permutation_swap.
Qed.

#[local] Instance holds_perm : Proper ((≡ₚ) ==> (=) ==> iff) holds.
Proof.
  assert (forall h h' s, h ≡ₚ h' -> holds h s -> holds h' s) as H; [|intros h h' E s ? <-; split; apply H; [done|by symmetry]].
  intros h h' s E [H1 H2 H3 H4 H5 H6 H7 H8].
  assert (forall B (f : mapping -> list B), flat_map f h ≡ₚ flat_map f h') as Ef by (intros; by apply Permutation_flat_map).
  constructor; try done; [by rewrite <-E|by eapply disjoint_perm|by rewrite <-Ef|by rewrite <-Ef|]. destruct H8 as (l & El & Hl). exists l. by rewrite <-Ef.
Qed.

(** The tables, where [m] is held. *)
Lemma held_split m held s : holds (m :: held) s -> usable m /\ inside m /\ Forall (separate m) held /\ Forall (fun m => usable m /\ inside m) held /\ disjoint held.
Proof. intros [Hu Hd _ _ _ _ _ _]. apply Forall_cons in Hu as [[Hm Hi] Hu]. split; [done|]. split; [done|]. split; [by apply Hd|]. split; [done|by eapply disjoint_tail]. Qed.

Lemma elem_of_flat {A B} (f : A -> list B) l y : y ∈ flat_map f l <-> exists x, x ∈ l /\ y ∈ f x.
Proof. rewrite list_elem_of_In, in_flat_map. by setoid_rewrite <-list_elem_of_In. Qed.

(** A record that claims the address of a mapping held is the mapping's own or obscures it. *)
Lemma claimed_by m held s r : holds (m :: held) s -> r ∈ g_regions (as_maps s) -> in_user (mp_at m) r = true ->
  r ∈ record_of m \/ m_user r < mp_at m /\ exists m', m' ∈ held /\ obscures m' m.
Proof.
  intros H Hr Hin. destruct (held_split _ _ _ H) as (Hm & Hi & Hsep & Hu & _). rewrite (ho_records _ _ H) in Hr. cbn [flat_map] in Hr. apply elem_of_app in Hr as [Hr|Hr]; [by left|]. right.
  apply elem_of_flat in Hr as (m' & Hm' & Hr). rewrite Forall_forall in Hsep, Hu. specialize (Hsep _ Hm'). destruct (Hu _ Hm') as [Hu' Hi']. destruct Hu' as [Ha Hs He _ _ _ _]. unfold record_of in Hr. destruct (mp_way m') as [b w| |] eqn:Ew; try by apply elem_of_nil in Hr.
  apply list_elem_of_singleton in Hr as ->. unfold in_user in Hin. cbn [m_user m_user_len] in *. unfold separate, inside, obscures in *. rewrite wrap64_small in Hin by lia. boolean. split; [lia|]. exists m'. split; [done|]. rewrite Ew. split; [done|]. split; [done|]. lia.
Qed.

(** munmap of a mapping held, by the files' record: refused where the address is obscured,
    else the mapping's own or none. *)
Lemma unmap_claims m held s : holds (m :: held) s -> exists z t', okm_map_unmap (mp_at m) (as_maps s) = Some (z, t') /\
  (z = Some (- EINVAL) /\ t' = as_maps s /\ (exists m', m' ∈ held /\ obscures m' m) \/
   z = match mp_way m with By_file _ _ => Some 0 | _ => None end /\ maps_ok t' /\ g_regions t' ≡ₚ flat_map record_of held /\ (record_of m = [] -> t' = as_maps s)).
Proof.
  intros H. destruct (held_split _ _ _ H) as (Hm & Hi & _). pose proof (ho_records _ _ H) as Hc. cbn [flat_map] in Hc.
  destruct (map_unmap_ok (mp_at m) (as_maps s) (ho_maps _ _ H)) as (z & t' & -> & Ht' & [(-> & -> & Hno)|(r & Hr & Hin & Hcase)]); (eexists _, _; split; [reflexivity|]).
  - right. rewrite Forall_forall in Hno. unfold record_of at 1 in Hc. destruct (mp_way m) as [b w| |] eqn:Ew; [exfalso|by split_and!..].
    specialize (Hno (MkRegion (mp_at m) (mp_len m) b w) ltac:(rewrite Hc; by left)). destruct Hm as [Ha Hs He _ _ _ _]. unfold inside in Hi. unfold in_user in Hno. cbn in Hno. rewrite wrap64_small in Hno by lia. boolean; lia.
  - destruct (claimed_by m held s r H Hr Hin) as [Hown|[Hlt Hob]].
    + right. unfold record_of in Hown, Hc at 1. unfold record_of at 2. destruct (mp_way m) as [b w| |] eqn:Ew; try by apply elem_of_nil in Hown. apply list_elem_of_singleton in Hown as ->.
      cbn [m_user] in Hcase. destruct Hcase as [[Hne _]|(_ & -> & Hp)]; [done|]. split_and!; try done. rewrite Hp in Hc. cbn [app] in Hc. by apply Permutation_cons_inv in Hc.
    + left. destruct Hcase as [(_ & -> & ->)|[E _]]; [done|lia].
Qed.

(** What munmap of [m] answers. *)
Definition unmapped (m : mapping) (held : list mapping) (s : space) : Prop :=
  exists z s', do_munmap snap granularity have_regions (mp_at m) (mp_len m) s = Some (z, s') /\
    (z = - EINVAL /\ s' = s /\ (exists m', m' ∈ held /\ obscures m' m) \/ z = 0 /\ holds held s').

Lemma munmap_file m held s b w : holds (m :: held) s -> mp_way m = By_file b w -> unmapped m held s.
Proof.
  intros H Hw. destruct (held_split _ _ _ H) as (Hm & _ & Hsep & Hu & Hd). pose proof H as [_ _ H3 H4 H5 H6 H7 H8]. unfold unmapped, do_munmap, of_maps, mbind, M_bind.
  destruct (unmap_claims m held s H) as (z & t' & -> & [(-> & -> & Hob)|(-> & Ht' & Hr & _)]); rewrite ?Hw; cbn [mbind option_bind mret M_ret]; (eexists _, _; split; [reflexivity|]); [left; by destruct s|right].
  split; [done|]. cbn [flat_map] in H4, H8. unfold range_of at 1 in H4. unfold block_of at 1 in H8. rewrite Hw in H4, H8. by constructor.
Qed.

Lemma munmap_region m held s : holds (m :: held) s -> mp_way m = By_region -> unmapped m held s.
Proof using Hgran.
  intros H Hw. destruct (held_split _ _ _ H) as (Hm & Hi & Hsep & Hu & Hd). pose proof H as [_ _ H3 H4 H5 H6 H7 H8]. unfold unmapped, do_munmap, of_maps, of_regions, mbind, M_bind.
  destruct (unmap_claims m held s H) as (z & t0 & -> & [(-> & -> & Hob)|(-> & _ & _ & E0)]); [cbn; eexists _, _; split; [reflexivity|]; left; by destruct s|]. rewrite Hw. rewrite E0 by (unfold record_of; by rewrite Hw). cbn [mbind option_bind as_maps as_regions as_calls].
  cbn [flat_map] in H4, H7, H8. unfold range_of at 1 in H4. unfold record_of at 1 in H7. unfold block_of at 1 in H8. rewrite Hw in H4, H7, H8. cbn [app] in H4, H7, H8.
  destruct (us_region _ Hm Hw) as [-> Hmod]. set (r := Range (mp_at m) (whole_pages (mp_len m) g)) in *.
  assert (exists i, at_ (g_ranges (as_regions s)) i = Some r) as [i Hr].
  { assert (r ∈ g_ranges (as_regions s)) as Hx by (rewrite H4; by left). apply list_elem_of_lookup in Hx as [i Hr]. exists (Z.of_nat i). unfold at_. split_if; [|lia]. by rewrite Nat2Z.id. }
  destruct (unmap_whole snap granularity (mp_len m) (as_regions s) i r Hgran H3 Hr) as (t' & E & Erem & Ecalls); [done|done|apply Hm|]. cbn [r_base r] in E. rewrite E.
  eexists _, _. split; [reflexivity|]. right. split; [done|]. destruct (remove_ok _ _ _ H3 Hr) as (t2 & E2 & Hok & Hp & _ & _). rewrite Erem in E2. injection E2 as <-.
  destruct (unmap_ok snap granularity Hgran true (mp_at m) (mp_len m) (as_regions s) H3) as (? & ? & E' & Hok' & _). rewrite E in E'. injection E' as <- <-.
  constructor; try done; cbn [as_regions as_maps as_calls].
  - cbn [with_ranges g_ranges] in Hp. rewrite Hp in H4. by apply Permutation_cons_inv in H4.
  - destruct H5 as (l & El & Hl). rewrite Ecalls. cbn [replay]. rewrite El. cbn [mbind option_bind r_base r_size r]. apply remove_one_perm. cbn [with_ranges g_ranges] in Hp. by rewrite Hl, Hp.
Qed.

Lemma munmap_alloc m held s : holds (m :: held) s -> mp_way m = By_alloc -> unmapped m held s.
Proof using.
  intros H Hw. destruct (held_split _ _ _ H) as (Hm & _ & Hsep & Hu & Hd). pose proof H as [_ _ H3 H4 H5 H6 H7 H8]. unfold unmapped, do_munmap, of_maps, of_regions, mbind, M_bind.
  destruct (unmap_claims m held s H) as (z & t0 & -> & [(-> & -> & Hob)|(-> & _ & _ & E0)]); [cbn; eexists _, _; split; [reflexivity|]; left; by destruct s|]. rewrite Hw. rewrite E0 by (unfold record_of; by rewrite Hw).
  cbn [mbind option_bind as_maps as_regions as_calls]. unfold okm_region_unmap. rewrite (us_alloc _ Hm Hw). cbn [negb mret M_ret]. rewrite (us_fresh _ Hm).
  eexists _, _. split; [reflexivity|]. right. split; [done|]. cbn [flat_map] in H4, H7, H8. unfold range_of at 1 in H4. unfold record_of at 1 in H7. unfold block_of at 1 in H8. rewrite Hw in H4, H7, H8. cbn [app] in H4, H7, H8.
  constructor; try done. cbn [as_calls allocated]. destruct H8 as (l & El & Hl). rewrite El. cbn [mbind option_bind]. by apply remove_one_perm.
Qed.

Lemma munmap_ok m rest s : holds (m :: rest) s -> unmapped m rest s.
Proof using Hgran. intros Hh. destruct (mp_way m) eqn:Ew; [by eapply munmap_file|by apply munmap_region|by apply munmap_alloc]. Qed.

(** ** Mapping *)

(** The mapping a call makes, where it makes one. *)
Definition mapping_of (len flags fd off : Z) (pl : placement) : mapping :=
  if (0 <=? fd) && negb (has flags MAP_ANON) then
    Mapping (wrap64 (pl_base pl + (off - Z.land off (Z.lnot (alignment - 1))))) len (By_file (pl_base pl) (clipped alignment len off (pl_size pl)))
  else if have_regions then Mapping (pl_reserve pl) len By_region
  else Mapping (pl_alloc pl) len By_alloc.

(** What the environment promises: it refuses, or places what it gives in the address
    space, apart from what it gave for what is held; and that the length the caller asks
    for does not wrap. *)
Definition well_placed (held : list mapping) (pl : placement) (m : mapping) : Prop :=
  match mp_way m with By_file _ _ => pl_map pl <> kal_ok | _ => mp_at m = 0 end \/ usable m /\ Forall (separate m) held.

Lemma holds_add m held s s' : holds held s -> usable m -> inside m -> Forall (separate m) held ->
  regions_ok (as_regions s') -> g_ranges (as_regions s') ≡ₚ range_of m ++ g_ranges (as_regions s) -> (exists l, replay [] (calls (as_regions s')) = Some l /\ l ≡ₚ g_ranges (as_regions s')) ->
  maps_ok (as_maps s') -> g_regions (as_maps s') ≡ₚ record_of m ++ g_regions (as_maps s) ->
  (exists l l', allocated (as_calls s) = Some l /\ allocated (as_calls s') = Some l' /\ l' ≡ₚ block_of m ++ l) -> holds (m :: held) s'.
Proof using Hgran.
  intros [H1 H2 H3 H4 H5 H6 H7 (l0 & E0 & H8)] Hm Hi Hs R1 R2 R3 M1 M2 (l & l' & E & E' & A). rewrite E0 in E. injection E as <-.
  constructor; try done; cbn [flat_map]; [by constructor|by apply disjoint_cons|by rewrite R2, H4|by rewrite M2, H7|]. exists l'. split; [done|]. by rewrite A, H8.
Qed.

(** A range the environment places is one it grants. *)
Lemma placed_granted held s len p : holds held s -> 0 < len -> usable (Mapping p len By_region) -> Forall (separate (Mapping p len By_region)) held -> granted granularity (g_ranges (as_regions s)) len p.
Proof using Hgran.
  intros H Hl Hu Hs. right. pose proof (grain_page _ Hgran) as Hpage. pose proof (page_bounds _ Hpage) as Hb. destruct Hu as [Ha Hst _ Ht _ _ _]. unfold stops, starts, extent_of in *. cbn [mp_at mp_len mp_way] in *. split.
  - unfold proper, ends. cbn [r_base r_size]. split_and!; [done| |lia]. destruct Hpage as (k & Hk & Eg). unfold whole_pages in *. rewrite Eg in *. rewrite land_high in * by lia.
    assert (Hm : (wrap64 (len + 2 ^ k - 1) - wrap64 (len + 2 ^ k - 1) mod 2 ^ k) mod 2 ^ k = 0) by (rewrite Zminus_mod_idemp_r, Z.sub_diag; done). set (x := wrap64 (len + 2 ^ k - 1) - _) in *.
    apply Z.mod_divide in Hm as [q Hq]; [|lia]. assert (1 <= q) by nia. nia.
  - rewrite (ho_ranges _ _ H). apply Forall_forall. intros r Hr. apply elem_of_flat in Hr as (m' & Hm' & Hx).
    rewrite Forall_forall in Hs. specialize (Hs _ Hm'). unfold range_of in Hx. unfold separate, stops, starts, extent_of in Hs. cbn [mp_at mp_len mp_way] in Hs. destruct (mp_way m'); try by apply elem_of_nil in Hx. apply list_elem_of_singleton in Hx as ->. unfold apart, ends. cbn [r_base r_size]. lia.
Qed.

Lemma land_le a c : 0 <= a -> Z.land a c <= a.
Proof using.
  intros Ha. assert (a - Z.land a c = Z.ldiff a (Z.land a c)) as E.
  { apply Z.sub_nocarry_ldiff. apply Z.bits_inj'. intros n Hn. rewrite Z.ldiff_spec, Z.land_spec, Z.bits_0. by destruct (Z.testbit a n), (Z.testbit c n). }
  pose proof (proj2 (Z.ldiff_nonneg a (Z.land a c)) (or_introl Ha)). lia.
Qed.

(** A file's address is in the part mapped of it: the offset is before its end. *)
Lemma file_inside len off size base : let m := Mapping (wrap64 (base + (off - Z.land off (Z.lnot (alignment - 1))))) len (By_file base (clipped alignment len off size)) in
  0 < len < 2 ^ 64 -> 0 <= off < size -> size < 2 ^ 64 -> usable m -> inside m.
Proof using.
  intros m Hlen Hoff Hsize [Ha Hs He _ _ _ _]. split; [apply Hlen|]. unfold m, stops, starts, extent_of in *. cbn [mp_at mp_len mp_way] in *. unfold clipped in *. cbv zeta in *.
  assert (Hle : 0 <= Z.land off (Z.lnot (alignment - 1)) <= off) by (split; [apply Z.land_nonneg; lia|apply land_le; lia]).
  set (start := Z.land off (Z.lnot (alignment - 1))) in *. set (lead := off - start) in *. assert (0 <= lead) by (unfold lead; lia).
  assert (Hb : base < 2 ^ 64) by (revert Hs; unfold wrap64; case_match; match goal with |- base + ?x mod ?y < _ -> _ => pose proof (Z.mod_pos_bound x y) end; lia).
  assert (E : wrap64 (base + lead) = base + lead).
  { unfold wrap64 in *. destruct (Z.lt_ge_cases (base + lead) (2 ^ 64)) as [Hlt|Hge]; [apply Z.mod_small; lia|].
    exfalso. replace (base + lead) with (base + lead - 2 ^ 64 + 1 * 2 ^ 64) in He by lia. rewrite Z.mod_add, Z.mod_small in He by (unfold lead in *; lia). unfold lead in *. lia. }
  rewrite E in *. rewrite (wrap64_small (lead + len)) in * by lia. split_if; [rewrite (wrap64_small (size - start)) in * by lia; unfold lead; lia|lia].
Qed.

(** A mapping not of a file takes what was asked for. *)
Lemma other_inside m : 0 < mp_len m -> usable m -> record_of m = [] -> inside m.
Proof using. intros Hl [_ _ _ Ht _ _ _] Hr. split; [done|]. unfold stops, starts, record_of in *. destruct (mp_way m); [done|lia..]. Qed.

Lemma mmap_ok fds addr len prot flags fd off pl held s : holds held s -> few (as_maps s) -> 0 <= len < 2 ^ 64 -> pl_size pl < 2 ^ 64 -> well_placed held pl (mapping_of len flags fd off pl) ->
  exists z s', do_mmap snap granularity alignment have_regions have_maps fds addr len prot flags fd off pl s = Some (z, s') /\
    ((z < 0 /\ holds held s') \/ (z = mp_at (mapping_of len flags fd off pl) /\ holds (mapping_of len flags fd off pl :: held) s')).
Proof using Hgran.
  intros H Hfew Hlen Hsize Hp. pose proof H as [_ _ H3 H4 (lr & Er & Hlr) H6 H7 (la & Ea & Hla)]. unfold do_mmap, mapping_of, well_placed in *. destruct ((0 <=? fd) && negb (has flags MAP_ANON)) eqn:Ef.
  { cbn [mp_way] in Hp. unfold of_maps. destruct (map_file_ok snap alignment have_maps fds len prot flags fd off (pl_info pl) (pl_size pl) (pl_map pl) (pl_base pl) (pl_table pl) (as_maps s) H6 Hfew)
      as (z & t' & -> & Ht' & [[Hz Hr]|(He & -> & Hoff & Hnz & Hr)]); cbn [mbind option_bind]; eexists _, _; (split; [reflexivity|]).
    - left. split; [done|]. constructor; try apply H; try done; eauto. cbn [as_maps]. by rewrite Hr.
    - destruct Hp as [Hp|[Hu Hs]]; [done|]. right. split; [done|]. apply (holds_add _ held s); try done; eauto; [apply file_inside; [lia|done..]|]. cbn [as_maps]. rewrite Hr. unfold record_of. cbn. by rewrite Permutation_app_comm. }
  assert (Hno : forall z, z < 0 -> exists z' s', (mret z : M space Z) s = Some (z', s') /\ ((z' < 0 /\ holds held s') \/
     (z' = mp_at (if have_regions then Mapping (pl_reserve pl) len By_region else Mapping (pl_alloc pl) len By_alloc) /\ holds ((if have_regions then Mapping (pl_reserve pl) len By_region else Mapping (pl_alloc pl) len By_alloc) :: held) s'))).
  { intros z Hz. exists z, s. split; [done|]. by left. }
  do 2 (split_if; [by apply Hno|]). destruct (Z.eqb_spec len 0); [by apply Hno|]. unfold of_regions, mbind, M_bind. destruct have_regions eqn:Ehave.
  - assert (Hg : granted granularity (g_ranges (as_regions s)) len (pl_reserve pl)).
    { destruct Hp as [Hp|[Hu Hs]]; [by left|]. eapply placed_granted; [done|lia|done..]. }
    destruct (map_ok snap granularity Hgran [] true len (pl_reserve pl) (pl_table pl) (as_regions s) lr H3 Hlen Hg Er) as (z & t' & -> & Ht' & [(Hz & Hr & (l' & El' & Hl') & Hne)|(_ & -> & Hpos & _ & _ & Er' & l1 & l2 & E1 & E2)]).
    + cbn [mbind option_bind]. specialize (Hne eq_refl). replace (z =? - ENOSYS) with false by lia. cbn [negb]. eexists _, _. split; [reflexivity|]. left. split; [done|]. constructor; try apply H; try done; eauto; cbn [as_regions].
      * by rewrite Hr.
      * exists l'. split; [done|]. by rewrite Hl', Hr.
    + cbn [mbind option_bind]. replace (pl_reserve pl =? - ENOSYS) with false by (unfold ENOSYS; lia). cbn [negb]. eexists _, _. split; [reflexivity|]. right. split; [done|]. destruct Hp as [Hp|[Hu Hs]]; [cbn in Hp; lia|].
      apply (holds_add _ held s); try done; eauto; cbn [as_regions as_calls]; [by apply other_inside; [cbn; lia|..]|..].
      * rewrite E2, E1. cbn. by rewrite Permutation_middle.
      * eexists. split; [exact Er'|]. rewrite Hlr, E2, E1. by rewrite Permutation_middle.
  - unfold okm_region_map. cbn [negb mret M_ret mbind option_bind]. replace (- ENOSYS =? - ENOSYS) with true by done. cbn [negb]. destruct s as [sr sm sc]. cbn [as_regions as_maps as_calls] in *.
    split_if; [by apply Hno|]. unfold as_call, modify. cbn [as_regions as_maps as_calls]. destruct (Z.eqb_spec (pl_alloc pl) 0) as [Hz|Hz]; eexists _, _; (split; [reflexivity|]).
    + left. split; [done|]. constructor; try apply H; try done; eauto. cbn [as_calls allocated]. rewrite Ea. cbn [mbind option_bind]. rewrite Hz. cbn. eauto.
    + right. split; [done|]. destruct Hp as [Hp|[Hu Hs]]; [done|]. apply (holds_add _ held (Space sr sm sc)); try done; eauto; [by apply other_inside; [cbn; lia|..]|]. cbn [as_calls allocated]. rewrite Ea. cbn [mbind option_bind].
      replace (pl_alloc pl =? 0) with false by lia. eexists _, _. split; [done|]. split; [done|]. done.
Qed.

(** The views of the records are those of the mappings. *)
Lemma views held : extent <$> flat_map record_of held = flat_map view_of held.
Proof using. induction held as [|m held IH]; [done|]. cbn [flat_map]. rewrite fmap_app, IH. unfold record_of, view_of. by destruct (mp_way m). Qed.

(** ** Any sequence of calls *)

(** Mapping, unmapping what is held, which is held still where that is refused, msync and madvise of any address; few enough file
    mappings to fit an address space. *)
Inductive space_step : list mapping * space -> list mapping * space -> Prop :=
| S_mmap held s fds addr len prot flags fd off pl z s' : few (as_maps s) -> 0 <= len < 2 ^ 64 -> pl_size pl < 2 ^ 64 -> well_placed held pl (mapping_of len flags fd off pl) ->
    do_mmap snap granularity alignment have_regions have_maps fds addr len prot flags fd off pl s = Some (z, s') ->
    space_step (held, s) (if z <? 0 then held else mapping_of len flags fd off pl :: held, s')
| S_munmap held s m rest z s' : held ≡ₚ m :: rest -> do_munmap snap granularity have_regions (mp_at m) (mp_len m) s = Some (z, s') -> space_step (held, s) (if z =? 0 then rest else held, s')
| S_msync held s a e z s' : do_msync a e s = Some (z, s') -> space_step (held, s) (held, s')
| S_madvise held s a len advice e1 e2 z s' : do_madvise snap granularity have_regions a len advice e1 e2 s = Some (z, s') -> space_step (held, s) (held, s').

Lemma msync_ok held s a e : holds held s -> exists z s', do_msync a e s = Some (z, s') /\ holds held s'.
Proof using.
  intros H. unfold do_msync, of_maps, mbind, M_bind. destruct (map_sync_ok a e (as_maps s) (ho_maps _ _ H)) as (z & t' & -> & Ht' & Hr). cbn [mbind option_bind mret M_ret].
  eexists _, _. split; [reflexivity|]. constructor; try apply H; try done. cbn [as_maps]. rewrite Hr. apply H.
Qed.

Lemma madvise_ok held s a len advice e1 e2 : holds held s -> exists z s', do_madvise snap granularity have_regions a len advice e1 e2 s = Some (z, s') /\ holds held s'.
Proof using Hgran.
  intros H. unfold do_madvise, of_regions, mbind, M_bind. destruct (advise_ok snap granularity Hgran have_regions a len advice e1 e2 (as_regions s) (ho_regions _ _ H)) as (z & t' & -> & Ht' & Hr & Hc). cbn [mbind option_bind mret M_ret].
  eexists _, _. split; [reflexivity|]. constructor; try apply H; try done; cbn [as_regions]; [rewrite Hr; apply H|]. rewrite Hr. destruct (ho_reserved _ _ H) as (l & El & Hl). exists l. split; [|done]. rewrite <-El.
  destruct Hc as [[_ ->]|(i & r & _ & _ & _ & _ & [(_ & _ & ->)|(_ & Hp)])]; [done..|]. destruct (part_of r a len _) as [[lo hi] []]; [|by destruct Hp as [_ ->]]. destruct Hp as [_ ->].
  apply replay_quiet. unfold advice_calls. repeat case_match; by repeat constructor.
Qed.

Lemma holds_zero : holds [] space_zero.
Proof using.
  constructor; [constructor| |apply regions_zero_ok|done|by exists []|apply maps_zero_ok|done|by exists []]. intros m rest E. by apply Permutation_nil_l in E.
Qed.

Lemma step_holds x y : space_step x y -> holds x.1 x.2 -> holds y.1 y.2.
Proof using Hgran.
  intros Hs H. destruct Hs as [held s fds addr len prot flags fd off pl z s' Hfew Hlen Hsize Hp E|held s m rest z s' Hp E|held s a e z s' E|held s a len advice e1 e2 z s' E]; cbn [fst snd] in *.
  - destruct (mmap_ok fds addr len prot flags fd off pl held s H Hfew Hlen Hsize Hp) as (z' & s2 & E' & Hc). rewrite E in E'. injection E' as <- <-. destruct Hc as [[Hz Hh]|[Hz Hh]]; [by replace (z <? 0) with true by lia|].
    pose proof (ho_usable _ _ Hh) as [[Hu Hi] _]%Forall_cons. pose proof (us_starts _ Hu). unfold inside in Hi. by replace (z <? 0) with false by lia.
  - pose proof H as Hm. rewrite Hp in Hm. destruct (munmap_ok m rest s Hm) as (z' & s2 & E' & Hc). rewrite E in E'. injection E' as <- <-. destruct Hc as [(-> & -> & _)|[-> Hh]]; [done|]. by rewrite Z.eqb_refl.
  - destruct (msync_ok held s a e H) as (? & ? & E' & ?). rewrite E in E'. by injection E' as <- <-.
  - destruct (madvise_ok held s a len advice e1 e2 H) as (? & ? & E' & ?). rewrite E in E'. by injection E' as <- <-.
Qed.

Lemma steps_hold held s : rtc space_step ([], space_zero) (held, s) -> holds held s.
Proof using Hgran.
  intros Hs. change (holds (held, s).1 (held, s).2). generalize dependent (held, s). apply (rtc_ind_r (fun x => holds x.1 x.2)); [apply holds_zero|]. intros x y _ Hxy Hx. by eapply step_holds.
Qed.
End space.

(** C14. An address space: after any sequence of mmap, munmap of what is held, msync and
    madvise, in an environment that places what it gives for each mapping apart from what it
    gave for those held, what the environment has reserved, mapped and allocated is exactly
    what the caller holds, each once, a file's part mapped to the end of the file and no
    further. mmap then answers an error and changes none of it, or answers the address of a
    mapping that is held from then on. munmap of a mapping held, by the address and length
    of its mmap, answers 0 and gives back what that mapping took and nothing else, by the
    way it was taken; or answers EINVAL and changes nothing, and that only where another
    mapping held, of a file, was asked for past the part of its file that is mapped and over
    this address. No length asked for wraps around the address space, and there are fewer
    than 2^57 mappings of files. *)
Theorem mmap_refines snap granularity alignment have_regions have_maps held s : 0 <= granularity < 2 ^ 64 ->
  rtc (space_step snap granularity alignment have_regions have_maps) ([], space_zero) (held, s) ->
  ((exists l, replay [] (calls (as_regions s)) = Some l /\ l ≡ₚ flat_map (range_of granularity) held) /\
   (exists l, mapped (asked (as_maps s)) = Some l /\ l ≡ₚ flat_map view_of held) /\
   (exists l, allocated (as_calls s) = Some l /\ l ≡ₚ flat_map block_of held)) /\
  (forall fds addr len prot flags fd off pl, let m := mapping_of alignment have_regions len flags fd off pl in
     few (as_maps s) -> 0 <= len < 2 ^ 64 -> pl_size pl < 2 ^ 64 -> well_placed snap granularity have_regions held pl m ->
     exists z s', do_mmap snap granularity alignment have_regions have_maps fds addr len prot flags fd off pl s = Some (z, s') /\
       (z < 0 /\ holds snap granularity have_regions held s' \/ z = mp_at m /\ holds snap granularity have_regions (m :: held) s')) /\
  (forall m rest, held ≡ₚ m :: rest -> exists z s', do_munmap snap granularity have_regions (mp_at m) (mp_len m) s = Some (z, s') /\
     (z = - EINVAL /\ s' = s /\ (exists m', m' ∈ rest /\ obscures granularity m' m) \/ z = 0 /\ holds snap granularity have_regions rest s')).
Proof.
  intros Hg Hs%steps_hold; [|done]. split; [|split].
  - destruct Hs as [_ _ _ H4 (l & E & Hl) [_ (lm & Em & Hm)] H7 H8]. split; [exists l; split; [done|by rewrite Hl, H4]|]. split; [|done]. exists lm. split; [done|]. by rewrite Hm, H7, views.
  - intros. by apply mmap_ok.
  - intros m rest Hp. apply munmap_ok; [done|]. by apply (holds_perm snap granularity have_regions held (m :: rest) Hp s s eq_refl).
Qed.

(** Six thousand bytes, in an environment with regions, which reserves 0x30000. *)
Definition at_30000 : placement := Placement 0x30000 0 kal_ok 0 kal_ok 0 0x9000.
Definition anonymous : Z := MAP_ANON + MAP_PRIVATE.
Definition six_thousand : mapping := Mapping 0x30000 6000 By_region.
Definition one_mapped : space :=
  Space (Regions 0x9000 [Range 0x30000 0x2000] 256 [C_alloc 0x9000 4096; C_reserve 0x30000 0x2000 4096]) maps_zero [].

Lemma one_mapped_reached : rtc (space_step no_snapshot 4096 65536 true true) ([], space_zero) ([six_thousand], one_mapped).
Proof.
  apply rtc_once. apply (S_mmap no_snapshot 4096 65536 true true [] space_zero one_file 0 6000 3 anonymous (-1) 0 at_30000 0x30000 one_mapped).
  - done.
  - done.
  - done.
  - right. split; [|constructor]. constructor; cbn; try done; vm_compute; done.
  - vm_compute. reflexivity.
Qed.

Lemma mmap_refines_witness : exists z s', do_munmap no_snapshot 4096 true 0x30000 6000 one_mapped = Some (z, s') /\
  (z = - EINVAL /\ s' = one_mapped /\ (exists m', m' ∈ [] /\ obscures 4096 m' six_thousand) \/ z = 0 /\ holds no_snapshot 4096 true [] s').
Proof.
  destruct (mmap_refines no_snapshot 4096 65536 true true [six_thousand] one_mapped) as (_ & _ & H); [done|apply one_mapped_reached|]. apply (H six_thousand []). done.
Defined.

(** Sixteen pages of a file of ten bytes, mapped at 0x50000; then six thousand bytes, which
    the environment reserves at 0x51000, after what is mapped of the file. *)
Definition file_at_50000 : placement := Placement 0 0 kal_ok 10 kal_ok 0x50000 0x9000.
Definition at_51000 : placement := Placement 0x51000 0 kal_ok 0 kal_ok 0 0x8000.
Definition past_end : mapping := Mapping 0x50000 0x10000 (By_file 0x50000 10).
Definition after_it : mapping := Mapping 0x51000 6000 By_region.
Definition one_view : space := Space regions_zero (Maps 0x9000 [MkRegion 0x50000 0x10000 0x50000 10] 64 [K_alloc 0x9000 2048; K_map 77 0 10 false false (Some 0x50000)]) [].
Definition both_mapped : space :=
  Space (Regions 0x8000 [Range 0x51000 0x2000] 256 [C_alloc 0x8000 4096; C_reserve 0x51000 0x2000 4096]) (as_maps one_view) [].

(** The exception is reached: the environment places the second mapping rightly, both are
    held, and munmap of the second answers EINVAL and releases nothing. *)
Theorem munmap_obscured : rtc (space_step no_snapshot 4096 65536 true true) ([], space_zero) ([after_it; past_end], both_mapped) /\
  do_munmap no_snapshot 4096 true 0x51000 6000 both_mapped = Some (- EINVAL, both_mapped) /\ obscures 4096 past_end after_it.
Proof.
  split; [|split; [vm_compute; reflexivity|split; [done|]; split; [done|]; vm_compute; split; [discriminate|done]]].
  eapply (rtc_l _ _ ([past_end], one_view)); [|apply rtc_once].
  - apply (S_mmap no_snapshot 4096 65536 true true [] space_zero one_file 0 0x10000 1 MAP_PRIVATE 0 0 file_at_50000 0x50000 one_view); [done..| |vm_compute; reflexivity].
    right. split; [|constructor]. constructor; cbn; try done; vm_compute; done.
  - apply (S_mmap no_snapshot 4096 65536 true true [past_end] one_view one_file 0 6000 3 anonymous (-1) 0 at_51000 0x51000 both_mapped); [done..| |vm_compute; reflexivity].
    right. split; [constructor; cbn; try done; vm_compute; done|]. constructor; [|constructor]. right. vm_compute. discriminate.
Qed.

(** But munmap of an address that no mapping takes, a second munmap of one that is
    gone among them, answers 0 and hands the address to the environment's allocator to be
    freed: where the environment has regions nothing was ever allocated there. *)
Theorem munmap_frees_unknown snap granularity alignment have_maps held s a len : 0 <= granularity < 2 ^ 64 ->
  rtc (space_step snap granularity alignment true have_maps) ([], space_zero) (held, s) ->
  Forall (fun m => (a < mp_at m \/ mp_at m + mp_len m <= a) /\ (a < mp_at m \/ stops granularity m <= a)) held -> okm_from_snapshot snap a = false ->
  exists s', do_munmap snap granularity true a len s = Some (0, s') /\ as_calls s' = A_free a (okm_whole_pages len) :: as_calls s /\
    allocated (as_calls s) = Some [] /\ allocated (as_calls s') = None.
Proof.
  intros Hg Hs%steps_hold Hout Hsn; [|done]. pose proof Hs as [H1 _ H3 H4 _ H6 H7 H8]. rewrite Forall_forall in Hout, H1. unfold do_munmap, of_maps, of_regions, mbind, M_bind.
  destruct (map_unmap_ok a (as_maps s) H6) as (z & t' & -> & _ & [(-> & -> & _)|(r & Hr & Hin & _)]).
  2: { exfalso. rewrite H7 in Hr. apply elem_of_flat in Hr as (m & Hm & Hx). destruct (Hout _ Hm) as [Ho _]. destruct (H1 _ Hm) as [[Ha Hst He _ _ _ _] [Hl Hi]]. unfold record_of in Hx.
    destruct (mp_way m); try by apply elem_of_nil in Hx. apply list_elem_of_singleton in Hx as ->. unfold in_user in Hin. cbn [m_user m_user_len] in Hin. rewrite wrap64_small in Hin by lia. boolean; lia. }
  cbn [mbind option_bind as_regions as_maps as_calls]. destruct (unmap_ok snap granularity Hg true a len (as_regions s) H3) as (z & t' & -> & _ & [(-> & -> & _)|(i & r & _ & Hr & Hc & _)]).
  2: { exfalso. assert (r ∈ flat_map (range_of granularity) held) as Hx by (rewrite <-H4; apply list_elem_of_lookup; exists (Z.to_nat i); by apply at_lookup). apply elem_of_flat in Hx as (m & Hm & Hx).
    destruct (Hout _ Hm) as [_ Ho]. unfold range_of in Hx. unfold stops, starts, extent_of in *. destruct (mp_way m); try by apply elem_of_nil in Hx. apply list_elem_of_singleton in Hx as ->. unfold covers, ends in Hc. cbn in Hc. lia. }
  cbn [mbind option_bind as_regions as_maps as_calls mret M_ret]. rewrite Hsn. eexists. split; [reflexivity|]. split; [done|]. destruct H8 as (l & El & Hl).
  assert (flat_map block_of held = []) as E0.
  { apply elem_of_nil_inv. intros x Hx. apply elem_of_flat in Hx as (m & Hm & Hx). unfold block_of in Hx. destruct (mp_way m) eqn:Ew; try by apply elem_of_nil in Hx. by pose proof (us_alloc _ _ _ _ (proj1 (H1 _ Hm)) Ew). }
  rewrite E0 in Hl. apply Permutation_nil_r in Hl. subst l. split; [done|]. cbn [as_calls allocated]. by rewrite El.
Qed.

Lemma munmap_frees_unknown_witness : exists s', do_munmap no_snapshot 4096 true 0x50000 6000 one_mapped = Some (0, s') /\ as_calls s' = [A_free 0x50000 0x2000] /\ allocated (as_calls s') = None.
Proof.
  destruct (munmap_frees_unknown no_snapshot 4096 65536 true [six_thousand] one_mapped 0x50000 6000) as (s' & E & Ec & _ & En); [done|apply one_mapped_reached| |done|].
  - constructor; [|constructor]. split; right; vm_compute; discriminate.
  - exists s'. split; [exact E|]. split; [exact Ec|exact En].
Defined.
