(* ===== verification/Paths.v ===== *)
(** The calls that act on a name and hold no descriptor (port/src/okm_syscall.c,
    do_scratch_call): times, lengths, directories, removal, renames, access, the room of a
    volume; and statx. *)
From S2P Require Import Prelude Kal FdTable Names Nodes.
From stdpp Require Import base list option.
From Stdlib Require Import ZArith Lia.

#[local] Open Scope Z_scope.

Definition UTIME_NOW : Z := 0x3fffffff.
Definition UTIME_OMIT : Z := 0x3ffffffe.
Definition RENAME_NOREPLACE : Z := 1.
Definition AT_REMOVEDIR : Z := 0x200.
Definition X_OK : Z := 1.
Definition W_OK : Z := 2.
Definition R_OK : Z := 4.

(** What the environment is asked to do. *)
Inductive fs_ask :=
| F_mkdir (a : okm_at)
| F_remove (a : okm_at)
| F_rename (from to : okm_at)
| F_rename_no_replace (from to : okm_at)
| F_set_modified (f when_ : Z)
| F_set_modified_at (a : okm_at) (when_ : Z)
| F_truncate (f n : Z)
| F_open (a : okm_at) (how : kal_open)
| F_close (f : Z)
| F_open_dir (base : Z) (name : str)
| F_close_dir (d : Z).

Record timespec := Timespec { tv_sec : Z; tv_nsec : Z }.

(** A time as nanoseconds, in an unsigned word. *)
Definition ns_of_timespec (ts : timespec) : Z := wrap64 (wrap64 (tv_sec ts) * 1000000000 + wrap64 (tv_nsec ts)).

Definition answer_of (e : kal_error) : Z := if bool_decide (e = kal_ok) then 0 else - okm_errno e.

Record statfs := Statfs { f_bsize : Z; f_blocks : Z; f_bfree : Z; f_bavail : Z; f_namelen : Z; f_frsize : Z }.

Definition read_write : kal_open := KalOpen true true false false false false.
Definition read_only : kal_open := KalOpen true false false false false false.

Section paths.
(** What the environment says of a name, itself or what it refers to, and answers to what
    it is asked; what an open comes to. *)
Context (fs_info : Z -> str -> bool -> kal_error + node_info).
Context (fs_do : fs_ask -> kal_error).
Context (fs_open : okm_at -> kal_open -> kal_error + Z) (fs_open_dir : Z -> str -> kal_error + Z) (fs_capacity : Z -> kal_error + Z * Z).
Context (t : fd_table) (g : names).

(** The answer, and what was asked, the first first. *)
Definition act (a : fs_ask) : Z * list fs_ask := (answer_of (fs_do a), [a]).

(** The name resolved and given to [k]. *)
Definition on_name (dirfd : Z) (path : str) (k : okm_at -> Z * list fs_ask) : Z * list fs_ask :=
  match okm_resolve t g dirfd path false with inl r => (r, []) | inr a => k a end.

Definition do_mkdirat (dirfd : Z) (path : str) : Z * list fs_ask := on_name dirfd path (fun a => act (F_mkdir a)).

(** The flags are not read. *)
Definition do_unlinkat (dirfd : Z) (path : str) (flags : Z) : Z * list fs_ask := on_name dirfd path (fun a => act (F_remove a)).
Definition do_unlink (path : str) : Z * list fs_ask := on_name AT_FDCWD path (fun a => act (F_remove a)).
Definition do_rmdir (path : str) : Z * list fs_ask := on_name AT_FDCWD path (fun a => act (F_remove a)).

(** renameat2, and renameat with flags of zero. *)
Definition do_renameat (olddir : Z) (old : str) (newdir : Z) (new : str) (flags : Z) : Z * list fs_ask :=
  if has flags (Z.lnot RENAME_NOREPLACE) then (- EINVAL, [])
  else
    on_name olddir old (fun from =>
    on_name newdir new (fun to =>
      if has flags RENAME_NOREPLACE then
        let a := F_rename_no_replace from to in
        (if bool_decide (fs_do a = kal_err_not_supported) then - EINVAL else answer_of (fs_do a), [a])
      else act (F_rename from to))).

Definition do_rename (old new : str) : Z * list fs_ask :=
  on_name AT_FDCWD old (fun from => on_name AT_FDCWD new (fun to => act (F_rename from to))).

Definition do_truncate (path : str) (n : Z) : Z * list fs_ask :=
  on_name AT_FDCWD path (fun a =>
    match fs_open a read_write with
    | inl e => (- okm_errno e, [F_open a read_write])
    | inr f => (answer_of (fs_do (F_truncate f (wrap64 n))), [F_open a read_write; F_truncate f (wrap64 n); F_close f])
    end).

(** By the name where that is an operation, else through an open of it. *)
Definition set_modified (a : okm_at) (when_ : Z) (want : kal_open) : Z * list fs_ask :=
  let by_name := F_set_modified_at a when_ in
  if negb (bool_decide (fs_do by_name = kal_err_not_supported)) then (answer_of (fs_do by_name), [by_name])
  else match fs_open a want with
  | inl e => (- okm_errno e, [by_name; F_open a want])
  | inr f => (answer_of (fs_do (F_set_modified f when_)), [by_name; F_open a want; F_set_modified f when_; F_close f])
  end.

(** [now] is kal_time_wall's answer; no name is a descriptor. *)
Definition do_utimensat (dirfd : Z) (path : option str) (times : option (timespec * timespec)) (now : Z) : Z * list fs_ask :=
  if match times with Some x => tv_nsec x.2 =? UTIME_OMIT | None => false end then (0, [])
  else
    let when_ := match times with
      | None => now
      | Some x => if tv_nsec x.2 =? UTIME_NOW then now else ns_of_timespec x.2
      end in
    match path with
    | None =>
        match desc_at t dirfd with
        | Some d => if bool_decide (d_kind d = OKM_FILE) then act (F_set_modified (d_file d) when_) else (- EBADF, [])
        | None => (- EBADF, [])
        end
    | Some path =>
        on_name dirfd path (fun a =>
          let kind := fs_info (at_base a) (at_rel a) false in
          match kind with
          | inl e =>
              if bool_decide (e = kal_err_not_supported) then set_modified a when_ read_write else (- okm_errno e, [])
          | inr i =>
              if bool_decide (ni_kind i = kal_node_absent) then (- ENOENT, [])
              else set_modified a when_ (if bool_decide (ni_kind i = kal_node_directory) then read_only else read_write)
          end)
    end.

Definition do_faccessat (dirfd : Z) (path : str) (mode : Z) : Z :=
  if okm_null_name t g dirfd path then if has mode X_OK then - EACCES else 0
  else match okm_resolve t g dirfd path false with
  | inl r => r
  | inr a =>
      match fs_info (at_base a) (at_rel a) false with
      | inl e => - okm_errno e
      | inr i =>
          if bool_decide (ni_kind i = kal_node_absent) then - ENOENT
          else if has mode W_OK && negb (ni_writable i) then - EACCES
          else if has mode X_OK && negb (bool_decide (ni_kind i = kal_node_directory)) && match ni_executable i with Some x => negb x | None => false end then - EACCES
          else 0
      end
  end.

Definition do_access (path : str) (mode : Z) : Z := do_faccessat AT_FDCWD path mode.

(** [place]: whether the caller gave one. The directory opened is the supplied one the
    name lies beneath. *)
Definition do_statfs (path : str) (place : bool) : (Z + statfs) * list fs_ask :=
  if negb place then (inl (- EFAULT), [])
  else match okm_resolve t g AT_FDCWD path false with
  | inl r => (inl r, [])
  | inr a =>
      match fs_open_dir (at_base a) [dot] with
      | inl e => (inl (- okm_errno e), [F_open_dir (at_base a) [dot]])
      | inr d =>
          (match fs_capacity d with
           | inl e => inl (- okm_errno e)
           | inr (total, avail) => inr (Statfs OKM_PAGE (total / OKM_PAGE) (avail / OKM_PAGE) (avail / OKM_PAGE) 255 OKM_PAGE)
           end, [F_open_dir (at_base a) [dot]; F_close_dir d])
      end
  end.

(** ** statx *)

(** The fields that are not zero; the four times are one. *)
Record statx := Statx {
  stx_mask : Z; stx_blksize : Z; stx_nlink : Z; stx_uid : Z; stx_gid : Z; stx_mode : Z; stx_ino : Z; stx_size : Z; stx_blocks : Z;
  stx_mtime_sec : Z; stx_mtime_nsec : Z;
}.

Definition fill_statx (st : kstat) : statx :=
  Statx 0x7ff 4096 (wrap32 (st_nlink st)) (wrap32 (st_uid st)) (wrap32 (st_gid st)) (Z.land (st_mode st) 0xffff) (wrap64 (st_ino st)) (wrap64 (st_size st)) (wrap64 (st_blocks st))
    (st_mtime_sec st) (wrap32 (st_mtime_nsec st)).

Context (fs_file_info : Z -> kal_error + node_info) (interactive : Z -> bool).

(** The flag of an empty name is looked for in the mask. *)
Definition do_statx (dirfd : Z) (path : str) (flags mask : Z) : Z + statx :=
  match (if has mask AT_EMPTY_PATH && (len path =? 0) then do_fstat fs_info fs_file_info interactive t dirfd
         else do_fstatat fs_info fs_file_info interactive t g dirfd path flags) with
  | inl r => inl r
  | inr st => inr (fill_statx st)
  end.
End paths.
