(* ===== verification/PathsTheorems.v ===== *)
(** What the calls on names promise: each makes one change or none, access answers by the
    mode stat reports, and a time that is set is the time reported. *)
From S2P Require Import Prelude Kal FdTable FdTheorems Names NamesOk Nodes NodesTheorems Paths.
From stdpp Require Import base list option.
From Stdlib Require Import ZArith Lia.

#[local] Open Scope Z_scope.

(** ** One change or none *)

Inductive path_call :=
| C_mkdirat (dirfd : Z) (path : str)
| C_unlinkat (dirfd : Z) (path : str) (flags : Z)
| C_unlink (path : str)
| C_rmdir (path : str)
| C_renameat (olddir : Z) (old : str) (newdir : Z) (new : str) (flags : Z)
| C_rename (old new : str)
| C_truncate (path : str) (n : Z)
| C_utimensat (dirfd : Z) (path : option str) (times : option (timespec * timespec)) (now : Z).

(** Whether an ask changes a node: an open neither creates nor shortens one here. *)
Definition alters (a : fs_ask) : bool :=
  match a with
  | F_open _ how => KAL_OPEN_CREATE how || KAL_OPEN_TRUNCATE how
  | F_close _ | F_open_dir _ _ | F_close_dir _ => false
  | _ => true
  end.

Section paths.
Context (fs_info : Z -> str -> bool -> kal_error + node_info) (fs_do : fs_ask -> kal_error) (fs_open : okm_at -> kal_open -> kal_error + Z).
Context (t : fd_table) (g : names).

Definition run_path (c : path_call) : Z * list fs_ask :=
  match c with
  | C_mkdirat d p => do_mkdirat fs_do t g d p
  | C_unlinkat d p fl => do_unlinkat fs_do t g d p fl
  | C_unlink p => do_unlink fs_do t g p
  | C_rmdir p => do_rmdir fs_do t g p
  | C_renameat od o nd n fl => do_renameat fs_do t g od o nd n fl
  | C_rename o n => do_rename fs_do t g o n
  | C_truncate p n => do_truncate fs_do fs_open t g p n
  | C_utimensat d p ts now => do_utimensat fs_info fs_do fs_open t g d p ts now
  end.

(** The changes made: those the environment did. *)
Definition changes (l : list fs_ask) : list fs_ask := filter (fun a => alters a = true /\ fs_do a = kal_ok) l.

(** What the environment opened in a call, and what was closed. *)
Definition opened_in (l : list fs_ask) : list Z := flat_map (fun a => match a with F_open a how => match fs_open a how with inr f => [f] | inl _ => [] end | _ => [] end) l.
Definition closed_in (l : list fs_ask) : list Z := flat_map (fun a => match a with F_close f => [f] | _ => [] end) l.

(** The kind of node that a removal is for: unlink's is no directory, rmdir's is one, and
    unlinkat's is by its flag; any other flag has no meaning. *)
Definition for_directory (c : path_call) : option bool :=
  match c with
  | C_unlink _ => Some false
  | C_rmdir _ => Some true
  | C_unlinkat _ _ fl => if fl =? 0 then Some false else if fl =? AT_REMOVEDIR then Some true else None
  | _ => None
  end.
Definition kind_fits (c : path_call) (a : okm_at) : bool :=
  match for_directory c, fs_info (at_base a) (at_rel a) true with
  | Some d, inr i => eqb d (bool_decide (ni_kind i = kal_node_directory))
  | _, _ => false
  end.

(** The time that is to be set. *)
Definition asked_time (ts : option (timespec * timespec)) (now : Z) : Z :=
  match ts with None => now | Some x => if tv_nsec x.2 =? UTIME_NOW then now else ns_of_timespec x.2 end.

(** The mode a file is opened in for its time: a directory is not opened for writing. *)
Definition for_time (a : okm_at) : kal_open :=
  match fs_info (at_base a) (at_rel a) false with inr i => if bool_decide (ni_kind i = kal_node_directory) then read_only else read_write | inl _ => read_write end.

(** The nodes that a call may change: those its names resolve to, or its file. *)
Definition at_name (dirfd : Z) (path : str) (a : okm_at) : Prop := okm_resolve t g dirfd path false = inr a.
Inductive change_of : path_call -> fs_ask -> Prop :=
| of_mkdirat d p a : at_name d p a -> change_of (C_mkdirat d p) (F_mkdir a)
| of_unlinkat d p fl a : at_name d p a -> kind_fits (C_unlinkat d p fl) a = true -> change_of (C_unlinkat d p fl) (F_remove a)
| of_unlink p a : at_name AT_FDCWD p a -> kind_fits (C_unlink p) a = true -> change_of (C_unlink p) (F_remove a)
| of_rmdir p a : at_name AT_FDCWD p a -> kind_fits (C_rmdir p) a = true -> change_of (C_rmdir p) (F_remove a)
| of_renameat od o nd n from to : at_name od o from -> at_name nd n to -> change_of (C_renameat od o nd n 0) (F_rename from to)
| of_noreplace od o nd n from to : at_name od o from -> at_name nd n to -> change_of (C_renameat od o nd n RENAME_NOREPLACE) (F_rename_no_replace from to)
| of_rename o n from to : at_name AT_FDCWD o from -> at_name AT_FDCWD n to -> change_of (C_rename o n) (F_rename from to)
| of_truncate p n a f : at_name AT_FDCWD p a -> fs_open a read_write = inr f -> change_of (C_truncate p n) (F_truncate f (wrap64 n))
| of_utimes_at d p ts now a : at_name d p a -> change_of (C_utimensat d (Some p) ts now) (F_set_modified_at a (asked_time ts now))
| of_utimes_open d p ts now a f : at_name d p a -> fs_do (F_set_modified_at a (asked_time ts now)) = kal_err_not_supported -> fs_open a (for_time a) = inr f ->
    change_of (C_utimensat d (Some p) ts now) (F_set_modified f (asked_time ts now))
| of_utimes_fd d ts now x : desc_at t d = Some x -> d_kind x = OKM_FILE -> change_of (C_utimensat d None ts now) (F_set_modified (d_file x) (asked_time ts now)).

(** A removal of what the name is, where that is not known to be of the kind the call is
    for, or its flag has no meaning. *)
Inductive removal_regardless : path_call -> fs_ask -> Prop :=
| rr_unlinkat d p fl a : at_name d p a -> kind_fits (C_unlinkat d p fl) a = false -> removal_regardless (C_unlinkat d p fl) (F_remove a)
| rr_unlink p a : at_name AT_FDCWD p a -> kind_fits (C_unlink p) a = false -> removal_regardless (C_unlink p) (F_remove a)
| rr_rmdir p a : at_name AT_FDCWD p a -> kind_fits (C_rmdir p) a = false -> removal_regardless (C_rmdir p) (F_remove a).

Definition done_of (c : path_call) (a : fs_ask) : Prop := change_of c a \/ removal_regardless c a.

(** The call asks that the time be left as it is. *)
Definition leaves_time (c : path_call) : Prop := match c with C_utimensat _ _ (Some x) _ => tv_nsec x.2 = UTIME_OMIT | _ => False end.

(** One change and 0, or an error and none. *)
Definition whole (c : path_call) (x : Z * list fs_ask) : Prop :=
  closed_in x.2 = opened_in x.2 /\
  (x.1 < 0 /\ changes x.2 = [] \/ x.1 = 0 /\ ((leaves_time c /\ x.2 = []) \/ exists a, changes x.2 = [a] /\ done_of c a)).

(** An error is not the value for none. *)
Hypothesis Hopen : forall a how, fs_open a how <> inl kal_ok.
Hypothesis Hinfo : forall b r nf, fs_info b r nf <> inl kal_ok.

Lemma whole_error c r : r < 0 -> whole c (r, []).
Proof using. intros Hr. split; [done|]. by left. Qed.

Lemma act_whole c a : alters a = true -> (forall a' how, a <> F_open a' how) -> (forall f, a <> F_close f) -> done_of c a -> whole c (act fs_do a).
Proof using.
  intros Ha Ho Hcl Hc. unfold act, whole, changes. cbn [fst snd]. split; [destruct a; try done; by edestruct Ho|]. rewrite filter_cons, filter_nil. unfold answer_of. destruct (decide (fs_do a = kal_ok)) as [He|He].
  - rewrite decide_True, bool_decide_true by done. right. split; [done|]. right. by exists a.
  - rewrite decide_False, bool_decide_false by naive_solver. left. split; [|done]. pose proof (errno_pos _ He). lia.
Qed.

Lemma on_name_whole c dirfd path k : (forall a, at_name dirfd path a -> whole c (k a)) -> whole c (on_name t g dirfd path k).
Proof using. intros H. unfold on_name. destruct (okm_resolve t g dirfd path false) as [r|a] eqn:E; [apply whole_error; by eapply resolve_error|by apply H]. Qed.

Lemma rename_flags fl : has fl (Z.lnot RENAME_NOREPLACE) = false -> fl = 0 \/ fl = RENAME_NOREPLACE.
Proof.
  unfold has, RENAME_NOREPLACE. rewrite negb_false_iff, Z.eqb_eq. intros H. change 1 with (2 ^ 1 - 1) in H. rewrite land_high in H by lia. pose proof (Z.mod_pos_bound fl (2 ^ 1) ltac:(lia)). change (2 ^ 1) with 2 in *. lia.
Qed.

(** A file opened for a change, and closed. *)
Lemma through_file c a how f x pre : fs_open a how = inr f -> KAL_OPEN_CREATE how || KAL_OPEN_TRUNCATE how = false -> opened_in pre = [] -> closed_in pre = [] -> changes pre = [] ->
  alters x = true -> (forall a' how', x <> F_open a' how') -> (forall f', x <> F_close f') -> done_of c x ->
  whole c (answer_of (fs_do x), pre ++ [F_open a how; x; F_close f]).
Proof using.
  intros Ef Hh Po Pc Pch Hx Hxo Hxc Hc. unfold whole, opened_in, closed_in, changes in *. split; cbn [fst snd].
  - rewrite !flat_map_app, Po, Pc. cbn. rewrite Ef. destruct x; try done; first [by edestruct Hxo|by edestruct Hxc].
  - rewrite list.filter_app, Pch. cbn [app]. rewrite filter_cons_False by (cbn [alters]; rewrite Hh; naive_solver). rewrite (filter_cons _ x). destruct (decide (fs_do x = kal_ok)) as [He|He]; unfold answer_of.
    + rewrite decide_True, bool_decide_true by done. rewrite filter_cons_False, filter_nil by naive_solver. right. split; [done|]. right. by exists x.
    + rewrite decide_False, bool_decide_false by naive_solver. rewrite filter_cons_False, filter_nil by naive_solver. left. split; [|done]. pose proof (errno_pos _ He). lia.
Qed.

Lemma set_modified_whole d p ts now a want : at_name d p a -> want = for_time a -> whole (C_utimensat d (Some p) ts now) (set_modified fs_do fs_open a (asked_time ts now) want).
Proof using Hopen.
  intros Ha Hwant. assert (Hw : KAL_OPEN_CREATE want || KAL_OPEN_TRUNCATE want = false) by (rewrite Hwant; unfold for_time; destruct (fs_info _ _ _); [done|by case_bool_decide]).
  set (w := asked_time ts now). unfold set_modified. destruct (bool_decide_reflect (fs_do (F_set_modified_at a w) = kal_err_not_supported)) as [Hn|Hn]; cbn [negb].
  - assert (Hpre : changes [F_set_modified_at a w] = []) by (unfold changes; rewrite filter_cons_False by (rewrite Hn; naive_solver); done).
    destruct (fs_open a want) as [e|f] eqn:Ef.
    + split; [cbn; by rewrite Ef|]. left. split; [apply errno_negative; intros ->; by apply (Hopen a want)|]. cbn [snd]. unfold changes in *. change [F_set_modified_at a w; F_open a want] with ([F_set_modified_at a w] ++ [F_open a want]). rewrite list.filter_app, Hpre. cbn [app].
      by rewrite filter_cons_False by (cbn [alters]; rewrite Hw; naive_solver).
    + apply (through_file _ a want f (F_set_modified f w) [F_set_modified_at a w]); try done. left. subst want. by eapply of_utimes_open.
  - apply (act_whole _ (F_set_modified_at a w)); try done. left. by constructor.
Qed.

(** A removal is the one asked for, or one regardless. *)
Lemma removal_whole c a : (kind_fits c a = true -> change_of c (F_remove a)) -> (kind_fits c a = false -> removal_regardless c (F_remove a)) -> whole c (act fs_do (F_remove a)).
Proof using. intros H1 H2. apply act_whole; try done. destruct (kind_fits c a); [left|right]; auto. Qed.

Lemma run_path_whole c : whole c (run_path c).
Proof using Hopen Hinfo.
  destruct c as [d p|d p fl|p|p|od o nd n fl|o n|p n|d p ts now]; cbn [run_path].
  - apply on_name_whole. intros a Ha. apply act_whole; try done. left. by constructor.
  - apply on_name_whole. intros a Ha. apply removal_whole; by constructor.
  - apply on_name_whole. intros a Ha. apply removal_whole; by constructor.
  - apply on_name_whole. intros a Ha. apply removal_whole; by constructor.
  - unfold do_renameat. destruct (has fl _) eqn:Ef; [by apply whole_error|]. apply on_name_whole. intros from Hf. apply on_name_whole. intros to Ht.
    destruct (rename_flags fl Ef) as [->| ->]; cbn [has]; [apply act_whole; try done; left; by constructor|]. change (has RENAME_NOREPLACE RENAME_NOREPLACE) with true. cbv zeta iota.
    destruct (bool_decide_reflect (fs_do (F_rename_no_replace from to) = kal_err_not_supported)) as [Hn|Hn]; [|apply act_whole; try done; left; by constructor].
    split; [done|]. left. split; [done|]. cbn [snd]. unfold changes. rewrite filter_cons_False by (rewrite Hn; naive_solver). done.
  - apply on_name_whole. intros from Hf. apply on_name_whole. intros to Ht. apply act_whole; try done. left. by constructor.
  - apply on_name_whole. intros a Ha. destruct (fs_open a read_write) as [e|f] eqn:Ef.
    + split; [cbn; by rewrite Ef|]. left. split; [apply errno_negative; intros ->; by apply (Hopen a read_write)|]. done.
    + apply (through_file _ a read_write f (F_truncate f (wrap64 n)) []); try done. left. by econstructor.
  - unfold do_utimensat. split_if.
    { split; [done|]. right. split; [done|]. left. split; [|done]. destruct ts as [x|]; [cbn; lia|done]. }
    change (match ts with None => now | Some x => _ end) with (asked_time ts now). destruct p as [p|].
    + apply on_name_whole. intros a Ha. destruct (fs_info (at_base a) (at_rel a) false) as [e|i] eqn:Ei.
      * destruct (bool_decide_reflect (e = kal_err_not_supported)); [apply set_modified_whole; [done|unfold for_time; by rewrite Ei]|]. apply whole_error, errno_negative. intros ->. by apply Hinfo in Ei.
      * case_bool_decide; [by apply whole_error|]. apply set_modified_whole; [done|]. unfold for_time. by rewrite Ei.
    + destruct (desc_at t d) as [x|] eqn:Ed; [|by apply whole_error]. case_bool_decide; [|by apply whole_error]. apply act_whole; try done. left. by constructor.
Qed.
End paths.

(** C15. mkdir, unlink, rmdir, rename, truncate and utimensat, in all their forms, whatever
    the names, the flags and the environment's answers: a call that answers 0 has made
    exactly one change, which is the one it was asked for of the node its name resolves
    to, or was asked to leave the time as it is and asked nothing; a call that answers an
    error has made none. The length is the one given; the time is the second of the two
    given, or the present one where that is asked for or none is given, set by the name or,
    only where that is no operation, through an open of it. A rename that is not to replace
    asks only for one that does not, and one with any other flag asks nothing. What is
    opened on the way is closed. The exception is stated with it: a removal does not look at
    the kind of the node nor at the flag of unlinkat, so that what it removes may be of the
    other kind than the call is for ([removal_regardless]). *)
Theorem paths_all_or_nothing fs_info fs_do fs_open t g c : (forall a how, fs_open a how <> inl kal_ok) -> (forall b r nf, fs_info b r nf <> inl kal_ok) ->
  let x := run_path fs_info fs_do fs_open t g c in
  closed_in x.2 = opened_in fs_open x.2 /\
  (x.1 < 0 /\ changes fs_do x.2 = [] \/
   x.1 = 0 /\ ((leaves_time c /\ x.2 = []) \/ exists a, changes fs_do x.2 = [a] /\ (change_of fs_info fs_do fs_open t g c a \/ removal_regardless fs_info t g c a))).
Proof. intros Ho Hi. by apply run_path_whole. Qed.

(** truncate of "/a" to ten bytes, the file opened being 6. *)
Lemma paths_all_or_nothing_witness : let x := run_path (fun _ _ _ => inr plain_file) (fun _ => kal_ok) (fun _ _ => inr 6) started at_root (C_truncate [47; 97] 10) in
  x.1 = 0 /\ changes (fun _ => kal_ok) x.2 = [F_truncate 6 10] /\ closed_in x.2 = [6].
Proof.
  destruct (paths_all_or_nothing (fun _ _ _ => inr plain_file) (fun _ => kal_ok) (fun _ _ => inr 6) started at_root (C_truncate [47; 97] 10)) as [Hc H]; [discriminate|discriminate|].
  split; [reflexivity|]. split; [reflexivity|]. rewrite Hc. reflexivity.
Defined.

(** rmdir of a name that is a plain file, and unlinkat of it with the flag for a directory
    or with one that has no meaning, remove the file and answer 0. *)
Example removal_of_either_kind : let fs_info := fun _ _ _ => inr plain_file in let fs_do := fun _ => kal_ok in let fs_open := fun _ _ => inr 6 in
  Forall (fun c => run_path fs_info fs_do fs_open started at_root c = (0, [F_remove (At 4 [97])]) /\ removal_regardless fs_info started at_root c (F_remove (At 4 [97])))
    [C_rmdir [47; 97]; C_unlinkat AT_FDCWD [47; 97] AT_REMOVEDIR; C_unlinkat AT_FDCWD [47; 97] 4].
Proof. cbv zeta. repeat constructor. Qed.

(** ** access and stat *)

(** Whether the environment says of the node that it may be executed or not; the null
    device may not. *)
Definition execution_known (fs_info : Z -> str -> bool -> kal_error + node_info) (t : fd_table) (g : names) (dirfd : Z) (path : str) : bool :=
  okm_null_name t g dirfd path ||
  match okm_resolve t g dirfd path false with
  | inr a => match fs_info (at_base a) (at_rel a) false with inr i => bool_decide (is_Some (ni_executable i)) | inl _ => false end
  | inl _ => false
  end.

(** The bits of a mode in which a way of access is: any of the three classes. *)
Definition bits_for (way : Z) : Z := Z.lor (Z.lor (Z.shiftl way 6) (Z.shiftl way 3)) way.

Lemma file_mode_write i : has (st_mode (fill_kstat i)) (bits_for W_OK) = ni_writable i.
Proof. unfold fill_kstat. cbn [st_mode]. destruct (ni_kind i), (ni_writable i), (default false (ni_executable i)); reflexivity. Qed.
Lemma file_mode_execute i : has (st_mode (fill_kstat i)) (bits_for X_OK) = bool_decide (ni_kind i = kal_node_directory) || default false (ni_executable i).
Proof. unfold fill_kstat. cbn [st_mode]. destruct (ni_kind i), (ni_writable i), (default false (ni_executable i)); reflexivity. Qed.

(** access answers by what stat reports of the same name: where stat answers an error
    access answers that error, and otherwise it refuses exactly where writing is asked for
    and the mode has no write bit, or execution is asked for, the mode has no execute bit
    and the environment says of the node whether it may be executed. The mode always has
    the read bits, and reading is never refused. *)
Theorem access_as_stat fs_info fs_file_info interactive t g dirfd path mode :
  match do_fstatat fs_info fs_file_info interactive t g dirfd path 0 with
  | inl r => do_faccessat fs_info t g dirfd path mode = r
  | inr st => has (st_mode st) (bits_for R_OK) = true /\
      do_faccessat fs_info t g dirfd path mode =
        if has mode W_OK && negb (has (st_mode st) (bits_for W_OK)) ||
           has mode X_OK && negb (has (st_mode st) (bits_for X_OK)) && execution_known fs_info t g dirfd path
        then - EACCES else 0
  end.
Proof.
  unfold do_fstatat, do_faccessat, execution_known. change (has 0 AT_EMPTY_PATH) with false. cbn [andb]. destruct (okm_null_name t g dirfd path).
  - split; [reflexivity|]. change (has (st_mode null_kstat) (bits_for W_OK)) with true. change (has (st_mode null_kstat) (bits_for X_OK)) with false. cbn [negb orb]. by rewrite andb_false_r, !andb_true_r.
  - destruct (okm_resolve t g dirfd path false) as [r|a]; [done|]. change (has 0 AT_SYMLINK_NOFOLLOW) with false. destruct (fs_info (at_base a) (at_rel a) false) as [e|i]; [done|]. case_bool_decide as Hk; [done|].
    rewrite file_mode_write, file_mode_execute. split; [unfold fill_kstat; cbn [st_mode]; destruct (ni_kind i), (ni_writable i), (default false (ni_executable i)); reflexivity|].
    destruct (has mode W_OK), (ni_writable i), (has mode X_OK), (bool_decide (ni_kind i = kal_node_directory)), (ni_executable i) as [[]|]; reflexivity.
Qed.

(** ** Times *)

(** The node after its time was set. *)
Definition with_modified (i : node_info) (w : Z) : node_info := Info (ni_kind i) (ni_size i) (ni_writable i) (ni_executable i) w (ni_identity i).

Definition time_of (a : fs_ask) : option Z := match a with F_set_modified _ w | F_set_modified_at _ w => Some w | _ => None end.

(** The times a call sets: every ask has one of them or none. *)
Lemma utimens_sets fs_info fs_do fs_open t g dirfd path times now w : (forall x, times = Some x -> tv_nsec x.2 <> UTIME_OMIT) ->
  w = match times with None => now | Some x => if tv_nsec x.2 =? UTIME_NOW then now else ns_of_timespec x.2 end ->
  Forall (fun a => forall w', time_of a = Some w' -> w' = w) (do_utimensat fs_info fs_do fs_open t g dirfd path times now).2.
Proof.
  intros Hom Hw. unfold do_utimensat. replace (match times with Some x => tv_nsec x.2 =? UTIME_OMIT | None => false end) with false by (destruct times as [x|]; [specialize (Hom x eq_refl); lia|done]). rewrite <-Hw.
  assert (Hset : forall a want, Forall (fun a => forall w', time_of a = Some w' -> w' = w) (set_modified fs_do fs_open a w want).2).
  { intros a want. unfold set_modified. case_bool_decide; cbn [negb]; [destruct (fs_open a want)|]; repeat constructor; naive_solver. }
  destruct path as [path|].
  - unfold on_name. destruct (okm_resolve _ _ _ _ _) as [r|a]; [constructor|]. destruct (fs_info _ _ _) as [e|i]; case_bool_decide; auto using Forall_nil; constructor.
  - destruct (desc_at t dirfd) as [d|]; [|constructor]. case_bool_decide; repeat constructor. naive_solver.
Qed.

(** The time utimensat sets is the time stat then reports: every time the environment
    is asked to set, of a name or of an open file, is one that stat reports as the seconds
    and nanoseconds given, where those are a time from the epoch on that fits a word. But
    a time before the epoch, which is given as negative seconds, is set as one that stat
    reports as more than nine thousand million seconds after it. *)
Theorem utimens_roundtrip fs_info fs_do fs_open t g dirfd path atime ts now a w i : 0 <= tv_nsec ts < 1000000000 ->
  a ∈ (do_utimensat fs_info fs_do fs_open t g dirfd path (Some (atime, ts)) now).2 -> time_of a = Some w ->
  let st := fill_kstat (with_modified i w) in
  (0 <= tv_sec ts -> tv_sec ts * 1000000000 + tv_nsec ts < 2 ^ 64 -> st_mtime_sec st = tv_sec ts /\ st_mtime_nsec st = tv_nsec ts) /\
  (-9223372036 <= tv_sec ts < 0 -> 9000000000 < st_mtime_sec st).
Proof.
  intros Hn Ha Hw st. pose proof (utimens_sets fs_info fs_do fs_open t g dirfd path (Some (atime, ts)) now _ ltac:(intros ? [= <-]; cbn; unfold UTIME_OMIT; lia) eq_refl) as Hall.
  rewrite list.Forall_forall in Hall. specialize (Hall a Ha w Hw). cbn [snd] in Hall. replace (tv_nsec ts =? UTIME_NOW) with false in Hall by (unfold UTIME_NOW; lia). subst w. unfold st, with_modified, fill_kstat, ns_of_timespec. cbn [st_mtime_sec st_mtime_nsec ni_modified_ns]. rewrite (wrap64_small (tv_nsec ts)) by lia. split.
  - intros Hs Hf. rewrite (wrap64_small (tv_sec ts)) by lia. rewrite wrap64_small by lia. rewrite Z.div_add_l, Z.div_small by lia. split; [lia|]. rewrite Z.add_comm, Z.mod_add, Z.mod_small by lia. done.
  - intros Hs. assert (E : wrap64 (wrap64 (tv_sec ts) * 1000000000 + tv_nsec ts) = 2 ^ 64 + tv_sec ts * 1000000000 + tv_nsec ts).
    { unfold wrap64. rewrite <-(Z.add_mod_idemp_l (_ * _)), Z.mul_mod_idemp_l, Z.add_mod_idemp_l by lia. rewrite <-(Z.mod_add _ 1) by lia. rewrite Z.mod_small by lia. lia. }
    rewrite E. apply Z.lt_le_trans with 9000000001; [lia|]. apply Z.div_le_lower_bound; lia.
Qed.

Lemma utimens_roundtrip_witness : let asks := (do_utimensat (fun _ _ _ => inr plain_file) (fun _ => kal_ok) (fun _ _ => inr 6) started at_root AT_FDCWD (Some [47; 97]) (Some (Timespec 0 0, Timespec 1700000000 5)) 0).2 in
  exists a w, a ∈ asks /\ time_of a = Some w /\ st_mtime_sec (fill_kstat (with_modified plain_file w)) = 1700000000.
Proof.
  exists (F_set_modified_at (At 4 [97]) 1700000000000000005), 1700000000000000005. split; [vm_compute; left|]. split; [reflexivity|].
  apply (utimens_roundtrip (fun _ _ _ => inr plain_file) (fun _ => kal_ok) (fun _ _ => inr 6) started at_root AT_FDCWD (Some [47; 97]) (Timespec 0 0) (Timespec 1700000000 5) 0 (F_set_modified_at (At 4 [97]) 1700000000000000005));
    [done|vm_compute; left|reflexivity|done|done].
Defined.

(** ** statx *)

(** Of an empty name without the flag that allows one, statx answers ENOENT; but where the
    caller asks for the field whose bit has that flag's value, it answers of the
    descriptor. *)
Example statx_flag_in_mask :
  do_statx (fun _ _ _ => inr plain_file) with_dir at_root (fun _ => inr plain_file) (fun _ => false) 3 [] 0 0x7ff = inl (- ENOENT) /\
  exists st, do_statx (fun _ _ _ => inr plain_file) with_dir at_root (fun _ => inr plain_file) (fun _ => false) 3 [] 0 0x17ff = inr st.
Proof. split; [vm_compute; reflexivity|]. eexists. vm_compute. reflexivity. Qed.
