(* ===== verification/Clocks.v ===== *)
(** Clocks and sleeping (port/src/okm_syscall.c, the cases of clock_gettime, clock_getres,
    gettimeofday, nanosleep and clock_nanosleep; port/src/okm_clock.c). *)
From S2P Require Import Prelude Kal Paths.
From stdpp Require Import base list option.
From Stdlib Require Import ZArith Lia.

#[local] Open Scope Z_scope.

Definition CLOCK_REALTIME : Z := 0.
Definition CLOCK_MONOTONIC : Z := 1.
Definition CLOCK_PROCESS_CPUTIME_ID : Z := 2.
Definition CLOCK_THREAD_CPUTIME_ID : Z := 3.
Definition CLOCK_MONOTONIC_RAW : Z := 4.
Definition CLOCK_REALTIME_COARSE : Z := 5.
Definition CLOCK_MONOTONIC_COARSE : Z := 6.
Definition CLOCK_BOOTTIME : Z := 7.
Definition TIMER_ABSTIME : Z := 1.

Definition to_timespec (ns : Z) : timespec := Timespec (sext64 (ns / 1000000000)) (ns mod 1000000000).

(** What the environment answers: its two clocks and the granularity of one; and of this
    program's processor time whether it has the operations, a handle of it, and the time
    where it says. *)
Record clock_env := ClockEnv {
  ce_wall : Z;
  ce_monotonic : Z;
  ce_granularity : Z;
  ce_have : bool;
  ce_self : kal_error + Z;
  ce_info : kal_error + option Z;
}.

Section clocks.
Context (ce : clock_env).

Definition okm_self_cpu_ns : Z :=
  if negb (ce_have ce) then -1
  else match ce_self ce with
  | inl _ => -1
  | inr _ => match ce_info ce with inr (Some ns) => sext64 ns | _ => -1 end
  end.

Definition sys_clock_gettime (clk : Z) : Z + timespec :=
  if (clk =? CLOCK_REALTIME) || (clk =? CLOCK_REALTIME_COARSE) then inr (to_timespec (ce_wall ce))
  else if clk =? CLOCK_PROCESS_CPUTIME_ID then
    let ns := okm_self_cpu_ns in
    if ns <? 0 then inl (- EINVAL) else inr (to_timespec ns)
  else if clk =? CLOCK_THREAD_CPUTIME_ID then inl (- EINVAL)
  else inr (to_timespec (ce_monotonic ce)).

Definition sys_clock_getres (place : bool) : Z * option timespec := (0, if place then Some (to_timespec (ce_granularity ce)) else None).

(** The seconds and microseconds, where there is a place for them. *)
Definition sys_gettimeofday (place : bool) : Z * option (Z * Z) :=
  (0, if place then Some (sext64 (ce_wall ce / 1000000000), ce_wall ce mod 1000000000 / 1000) else None).

(** The answer, what is slept, and what is said to remain. *)
Definition sys_nanosleep (t : option timespec) (place : bool) : Z * option Z * option timespec :=
  match t with
  | None => (- EFAULT, None, None)
  | Some t => (0, Some (ns_of_timespec t), if place then Some (Timespec 0 0) else None)
  end.

Definition sys_clock_nanosleep (clk flags : Z) (t : option timespec) : Z * option Z :=
  match t with
  | None => (- EFAULT, None)
  | Some t =>
      let ns := ns_of_timespec t in
      (0, Some (if has flags TIMER_ABSTIME then
                  let now := if clk =? CLOCK_REALTIME then ce_wall ce else ce_monotonic ce in
                  if now <? ns then ns - now else 0
                else ns))
  end.

(** ** clock_gettime of okm_clock.c *)

(** musl's __syscall_ret: an error's number is put in errno and -1 is answered. *)
Definition clock_gettime (clk : Z) : (Z * option Z) + timespec :=
  if (clk =? CLOCK_MONOTONIC) || (clk =? CLOCK_MONOTONIC_RAW) || (clk =? CLOCK_MONOTONIC_COARSE) || (clk =? CLOCK_BOOTTIME) then inr (to_timespec (ce_monotonic ce))
  else if (clk =? CLOCK_REALTIME) || (clk =? CLOCK_REALTIME_COARSE) then inr (to_timespec (ce_wall ce))
  else match sys_clock_gettime clk with
  | inl r => inl (-1, Some (- r))
  | inr ts => inr ts
  end.
End clocks.

(** ** What they promise *)

Definition is_time (ts : timespec) : Prop := 0 <= tv_sec ts /\ 0 <= tv_nsec ts < 1000000000.
(** A time as nanoseconds, as the caller means it. *)
Definition ns_meant (ts : timespec) : Z := tv_sec ts * 1000000000 + tv_nsec ts.
(** An environment whose clocks count from some point on, in words. *)
Definition clocks_run (ce : clock_env) : Prop := 0 <= ce_wall ce < 2 ^ 64 /\ 0 <= ce_monotonic ce < 2 ^ 64.

Lemma sext64_small z : - 2 ^ 63 <= z < 2 ^ 63 -> sext64 z = z.
Proof. intros H. unfold sext64. rewrite Z.mod_small by lia. lia. Qed.

Lemma to_timespec_meant ns : 0 <= ns < 2 ^ 64 -> is_time (to_timespec ns) /\ ns_meant (to_timespec ns) = ns.
Proof.
  intros Hn. pose proof (Z.div_pos ns 1000000000 ltac:(lia) ltac:(lia)). pose proof (Z.div_lt_upper_bound ns 1000000000 (2 ^ 36) ltac:(lia) ltac:(lia)). pose proof (Z.mod_pos_bound ns 1000000000 ltac:(lia)).
  unfold is_time, ns_meant, to_timespec. cbn [tv_sec tv_nsec]. rewrite sext64_small by lia. pose proof (Z.div_mod ns 1000000000 ltac:(lia)). lia.
Qed.

Lemma ns_of_meant ts : is_time ts -> ns_meant ts < 2 ^ 64 -> ns_of_timespec ts = ns_meant ts.
Proof. intros [Hs Hn] Hm. unfold ns_of_timespec, ns_meant in *. rewrite (wrap64_small (tv_sec ts)), (wrap64_small (tv_nsec ts)), wrap64_small by lia. done. Qed.

Lemma ns_of_negative ts : -9223372036 <= tv_sec ts < 0 -> 0 <= tv_nsec ts < 1000000000 -> ns_of_timespec ts = 2 ^ 64 + ns_meant ts.
Proof.
  intros Hs Hn. unfold ns_of_timespec, ns_meant, wrap64. rewrite <-(Z.add_mod_idemp_l (_ * _)), Z.mul_mod_idemp_l, Z.add_mod_idemp_l, Z.add_mod_idemp_r by lia. rewrite <-(Z.mod_add _ 1) by lia. rewrite Z.mod_small by lia. lia.
Qed.

(** clock_gettime, which asks the environment directly for the clocks it has, answers
    for every clock what the system call of that name answers. *)
Theorem clock_paths_agree ce clk : clock_gettime ce clk = match sys_clock_gettime ce clk with inl r => inl (-1, Some (- r)) | inr ts => inr ts end.
Proof.
  unfold clock_gettime, sys_clock_gettime at 2, CLOCK_MONOTONIC, CLOCK_MONOTONIC_RAW, CLOCK_MONOTONIC_COARSE, CLOCK_BOOTTIME, CLOCK_REALTIME, CLOCK_REALTIME_COARSE, CLOCK_PROCESS_CPUTIME_ID, CLOCK_THREAD_CPUTIME_ID.
  destruct (_ || _) eqn:E1; [replace ((clk =? 0) || (clk =? 5)) with false by lia; replace (clk =? 2) with false by lia; by replace (clk =? 3) with false by lia|].
  destruct ((clk =? 0) || (clk =? 5)) eqn:E2; [done|]. unfold sys_clock_gettime, CLOCK_REALTIME, CLOCK_REALTIME_COARSE. rewrite E2. done.
Qed.

(** Clocks and sleeping are of one time: where clock_gettime reports a time it is one,
    seconds and nanoseconds below a thousand million; a sleep until the time a clock
    reports and a while more, on that clock, sleeps that while, and until a time that has
    passed, not at all; and a sleep for a time sleeps that time. The clock of the
    program's processor time and the coarse one excepted: of the coarse one the
    difference of the two clocks is slept as well. And a sleep for a negative time, which
    is not refused, sleeps for centuries. *)
Theorem sleep_exact ce clk ts target d flags : clocks_run ce -> sys_clock_gettime ce clk = inr ts -> is_time target -> ns_meant target = ns_meant ts + d -> ns_meant target < 2 ^ 64 ->
  (clk <> CLOCK_PROCESS_CPUTIME_ID -> is_time ts) /\
  (has flags TIMER_ABSTIME = true -> clk <> CLOCK_PROCESS_CPUTIME_ID -> clk <> CLOCK_REALTIME_COARSE -> sys_clock_nanosleep ce clk flags (Some target) = (0, Some (Z.max 0 d))) /\
  (has flags TIMER_ABSTIME = true -> clk = CLOCK_REALTIME_COARSE -> sys_clock_nanosleep ce clk flags (Some target) = (0, Some (Z.max 0 (d + ce_wall ce - ce_monotonic ce)))) /\
  (has flags TIMER_ABSTIME = false -> sys_clock_nanosleep ce clk flags (Some target) = (0, Some (ns_meant target))) /\
  (forall place, sys_nanosleep (Some target) place = (0, Some (ns_meant target), if place then Some (Timespec 0 0) else None)) /\
  (forall neg place, -9223372036 <= tv_sec neg < 0 -> 0 <= tv_nsec neg < 1000000000 -> exists ns, sys_nanosleep (Some neg) place = (0, Some ns, if place then Some (Timespec 0 0) else None) /\ 9000000000 * 1000000000 < ns).
Proof.
  intros [Hw Hm] Hts Ht Hd Hlt. pose proof (ns_of_meant target Ht Hlt) as Ens. pose proof (to_timespec_meant _ Hw) as [Tw Ew]. pose proof (to_timespec_meant _ Hm) as [Tm Em].
  assert (Hof : clk <> CLOCK_PROCESS_CPUTIME_ID -> ts = to_timespec (if (clk =? CLOCK_REALTIME) || (clk =? CLOCK_REALTIME_COARSE) then ce_wall ce else ce_monotonic ce)).
  { intros Hne. unfold sys_clock_gettime in Hts. destruct (_ || _); [congruence|]. replace (clk =? CLOCK_PROCESS_CPUTIME_ID) with false in Hts by lia. destruct (clk =? _); congruence. }
  unfold sys_clock_nanosleep, sys_nanosleep. rewrite Ens. split_and!.
  - intros Hne. rewrite (Hof Hne). by destruct (_ || _).
  - intros -> Hne Hc. specialize (Hof Hne). replace (clk =? CLOCK_REALTIME_COARSE) with false in Hof by lia. rewrite orb_false_r in Hof. rewrite Hd, Hof. destruct (clk =? CLOCK_REALTIME); rewrite ?Ew, ?Em; do 2 f_equal; split_if; lia.
  - intros -> ->. rewrite Hd, (Hof ltac:(done)). cbn. rewrite Ew. do 2 f_equal. split_if; lia.
  - by intros ->.
  - done.
  - intros neg place Hs Hn. eexists. split; [reflexivity|]. rewrite ns_of_negative by done. unfold ns_meant. lia.
Qed.

(** Ten seconds from now on the monotonic clock, which stands at seven. *)
Definition at_seven : clock_env := ClockEnv 1700000000000000000 7000000000 1 false (inl kal_err_not_supported) (inl kal_err_not_supported).

Lemma sleep_exact_witness : sys_clock_nanosleep at_seven CLOCK_MONOTONIC TIMER_ABSTIME (Some (Timespec 17 0)) = (0, Some 10000000000).
Proof.
  destruct (sleep_exact at_seven CLOCK_MONOTONIC (Timespec 7 0) (Timespec 17 0) 10000000000 TIMER_ABSTIME) as (_ & H & _); [split; done|reflexivity|split; done|reflexivity|reflexivity|].
  apply H; [reflexivity|discriminate|discriminate].
Defined.
