(* ===== verification/Requests.v ===== *)
(** What a program asks about itself (port/src/okm_syscall.c): the disposition of a signal
    and the mask, a claim on the processors, how many there are, its limits, and random
    bytes. *)
From S2P Require Import Prelude Kal FdTable Net Children Programs.
From stdpp Require Import base list option.
From Stdlib Require Import ZArith Lia.

#[local] Open Scope Z_scope.

Definition SIGPIPE : Z := 13.
Definition SIG_DFL : Z := 0.
Definition SIG_IGN : Z := 1.
Definition sizeof_sigset : Z := 128.
(** The handler, the flags and the restorer. *)
Definition sizeof_act : Z := 24.
Definition sizeof_long : Z := 8.
Definition RLIMIT_NOFILE : Z := 7.
Definition PRIO_PROCESS : Z := 0.

(** ** Signals *)

(** The bytes of a word, the lowest first. *)
Definition word_bytes (w : Z) : list Z := (fun i => Z.land (Z.shiftr w (8 * i)) 0xff) <$> [0; 1; 2; 3; 4; 5; 6; 7].

(** The answer, and the bytes written where the caller gave a place for the old mask. *)
Definition rt_sigprocmask (place : bool) (room : Z) : Z * option (list Z) :=
  if sizeof_sigset <? room then (- EINVAL, None)
  else (0, if place then Some (replicate (Z.to_nat room) 0) else None).

Definition ignored_here (signo : Z) : bool := signo =? SIGPIPE.

(** [act] is the handler of a new action, where there is one. *)
Definition rt_sigaction (signo : Z) (act : option Z) (place : bool) (mask : Z) : Z * option (list Z) :=
  if place && (sizeof_sigset <? mask) then (- EINVAL, None)
  else
    let old := replicate (Z.to_nat (sizeof_act + mask)) 0 in
    let old := if ignored_here signo then word_bytes SIG_IGN ++ drop 8 old else old in
    (match act with
     | None => 0
     | Some h =>
         if h =? SIG_DFL then if ignored_here signo then - ENOSYS else 0
         else if h =? SIG_IGN then if ignored_here signo then 0 else - ENOSYS
         else - ENOSYS
     end, if place then Some old else None).

(** ** Processors *)

Inductive task_claim := KAL_TASK_PRIORITY_DEFAULT | KAL_TASK_PRIORITY_LOW | KAL_TASK_PRIORITY_BACKGROUND.

(** The answer, and what is asked of the environment; [have] whether it has the operation
    and [e] its answer. [created] is the number of the context, zero for the first, and
    [context] openkal's word for it. *)
Definition claim_on (have : bool) (e : kal_error) (c : task_claim) : Z * option task_claim :=
  if negb have then (- ENOSYS, None) else (if bool_decide (e = kal_ok) then 0 else - okm_errno e, Some c).

Definition sched_setscheduler (created context : Z) (have : bool) (e : kal_error) (tid policy : Z) : Z * option task_claim :=
  let self := if negb (created =? 0) then created else if negb (sext32 context =? 0) then sext32 context else 1 in
  if negb (tid =? 0) && negb (sext32 tid =? self) then (- EPERM, None)
  else
    let policy := Z.land policy (Z.lnot 0x40000000) in
    if policy =? 0 then claim_on have e KAL_TASK_PRIORITY_DEFAULT
    else if policy =? 3 then claim_on have e KAL_TASK_PRIORITY_LOW
    else if policy =? 5 then claim_on have e KAL_TASK_PRIORITY_BACKGROUND
    else if (policy =? 1) || (policy =? 2) then (- EPERM, None)
    else (- EINVAL, None).

(** [self]: what okm_self_pid answers. *)
Definition setpriority (self : Z) (have : bool) (e : kal_error) (which who nice : Z) : Z * option task_claim :=
  if negb (which =? PRIO_PROCESS) || (negb (who =? 0) && negb (sext32 who =? self)) then (- EPERM, None)
  else if nice <? 0 then (- EACCES, None)
  else claim_on have e (if nice =? 0 then KAL_TASK_PRIORITY_DEFAULT else if 19 <=? nice then KAL_TASK_PRIORITY_BACKGROUND else KAL_TASK_PRIORITY_LOW).

(** The lowest [bits] bits of the bytes, one after the other. *)
Fixpoint set_bits (out : list Z) (i : Z) (bits : nat) : option (list Z) :=
  match bits with
  | O => Some out
  | S bits' =>
      x ← at_ out (i / 8);
      out' ← set_at out (i / 8) (Z.lor x (Z.shiftl 1 (i mod 8)));
      set_bits out' (i + 1) bits'
  end.

(** [n]: the environment's answer, zero where it cannot say. *)
Definition sched_getaffinity (cap : Z) (place : bool) (n : Z) : option (Z * option (list Z)) :=
  if negb place || (cap <? sizeof_long) then Some (- EINVAL, None)
  else if n =? 0 then Some (- ENOSYS, None)
  else
    let bits := if cap * 8 <? n then cap * 8 else n in
    out ← set_bits (replicate (Z.to_nat cap) 0) 0 (Z.to_nat bits);
    let words := (bits + 8 * sizeof_long - 1) / (8 * sizeof_long) in
    Some (words * sizeof_long, Some out).

(** ** Limits, and random bytes *)

(** [new]: whether a limit is to be set; the answer, and the current and the largest. *)
Definition prlimit64 (resource_ : Z) (new place : bool) : Z * option (Z * Z) :=
  if new then (- EPERM, None)
  else if negb place then (0, None)
  else if negb (resource_ =? RLIMIT_NOFILE) then (- ENOSYS, None)
  else (0, Some (OKM_MAX_FD, OKM_MAX_FD)).

Definition getrandom (have : bool) (e : kal_error) (len : Z) : Z :=
  if negb have then - ENOSYS else if negb (bool_decide (e = kal_ok)) then - okm_errno e else len.

(** ** What they promise *)

(** The handler in a record of a disposition. *)
Definition handler_in (old : list Z) : Z := foldr (fun b acc => b + 256 * acc) 0 (take 8 old).

(** The disposition of a signal is one: what sigaction reports of it is what it accepts
    to be set to, and nothing else is accepted; the record it writes is of exactly the
    size the caller's declared mask makes it, and so is the mask that sigprocmask writes,
    which is empty. Yet the one signal it reports as ignored, SIGPIPE, ends the program
    when the program raises it. *)
Theorem sigaction_agrees signo mask : 0 <= mask <= sizeof_sigset ->
  exists old, rt_sigaction signo None true mask = (0, Some old) /\ Z.of_nat (length old) = sizeof_act + mask /\
    (forall h, (rt_sigaction signo (Some h) true mask).1 = if h =? handler_in old then 0 else - ENOSYS) /\
    rt_sigprocmask true mask = (0, Some (replicate (Z.to_nat mask) 0)) /\
    (handler_in old = SIG_IGN <-> signo = SIGPIPE) /\ signal_self SIGPIPE = Exited 141.
Proof.
  intros Hm. unfold sizeof_sigset in Hm. unfold rt_sigaction, rt_sigprocmask. replace (sizeof_sigset <? mask) with false by (unfold sizeof_sigset; lia). cbn [andb].
  assert (Hz : forall n, (8 <= n)%nat -> replicate n 0 = replicate 8 0 ++ replicate (n - 8) 0) by (intros n Hn; rewrite <-replicate_add; f_equal; lia).
  eexists. split; [reflexivity|]. rewrite Hz by (unfold sizeof_act; lia). unfold ignored_here. destruct (Z.eqb_spec signo SIGPIPE) as [->|Hs].
  - split; [rewrite length_app, length_drop, length_app, !length_replicate; unfold sizeof_act; cbn; lia|]. split; [|split; [done|split; done]]. intros h. change (handler_in _) with SIG_IGN. cbn [fst]. unfold SIG_DFL, SIG_IGN. destruct (h =? 0) eqn:E0, (h =? 1) eqn:E1; try done; lia.
  - split; [rewrite length_app, !length_replicate; unfold sizeof_act; lia|]. split; [|split; [done|split; [|done]]]; [|split; [by change (handler_in _) with 0|done]]. intros h. change (handler_in _) with SIG_DFL. cbn [fst]. unfold SIG_DFL, SIG_IGN. destruct (h =? 0) eqn:E0, (h =? 1) eqn:E1; try done; lia.
Qed.

Lemma sigaction_agrees_witness : exists old, rt_sigaction SIGPIPE None true 8 = (0, Some old) /\ Z.of_nat (length old) = 32 /\ (rt_sigaction SIGPIPE (Some SIG_IGN) true 8).1 = 0.
Proof. destruct (sigaction_agrees SIGPIPE 8) as (old & E & Hl & H & _ & [_ Hh] & _); [split; discriminate|]. exists old. split; [exact E|]. split; [exact Hl|]. rewrite H, (Hh eq_refl). reflexivity. Defined.

(** The bit [j] of the bytes. *)
Definition bit_at (l : list Z) (j : Z) : bool := match at_ l (j / 8) with Some x => Z.testbit x (j mod 8) | None => false end.

Lemma set_bits_ok bits : forall out i, 0 <= i -> i + Z.of_nat bits <= 8 * Z.of_nat (length out) ->
  exists out', set_bits out i bits = Some out' /\ length out' = length out /\
    forall j, 0 <= j < 8 * Z.of_nat (length out) -> bit_at out' j = bit_at out j || (i <=? j) && (j <? i + Z.of_nat bits).
Proof.
  induction bits as [|bits IH]; intros out i Hi Hb; cbn [set_bits].
  - exists out. split; [done|]. split; [done|]. intros j Hj. replace ((i <=? j) && (j <? i + Z.of_nat 0)) with false by lia. by rewrite orb_false_r.
  - pose proof (Z.div_mod i 8 ltac:(lia)) as Hd. pose proof (Z.mod_pos_bound i 8 ltac:(lia)) as Hm. assert (Hr : 0 <= i / 8 < Z.of_nat (length out)) by lia.
    destruct (at_some out (i / 8) Hr) as [x Hx]. rewrite Hx. cbn [mbind option_bind]. rewrite set_at_some by done. cbn [mbind option_bind].
    destruct (IH (<[Z.to_nat (i / 8) := Z.lor x (Z.shiftl 1 (i mod 8))]> out) (i + 1)) as (out' & E & Hl & Hbits); [lia|rewrite length_insert; lia|]. exists out'. rewrite length_insert in Hl, Hbits. split; [done|]. split; [done|].
    intros j Hj. rewrite Hbits by done. assert (Hone : bit_at (<[Z.to_nat (i / 8) := Z.lor x (Z.shiftl 1 (i mod 8))]> out) j = bit_at out j || (j =? i)).
    { unfold bit_at. rewrite at_insert by done. pose proof (Z.div_mod j 8 ltac:(lia)) as Hdj. pose proof (Z.mod_pos_bound j 8 ltac:(lia)) as Hmj. destruct (Z.eqb_spec (j / 8) (i / 8)) as [Eq|Hne].
      - rewrite Eq, Hx, Z.lor_spec, Z.shiftl_1_l, Z.pow2_bits_eqb by lia. f_equal. lia.
      - replace (j =? i) with false by (symmetry; apply Z.eqb_neq; congruence). by rewrite orb_false_r. }
    rewrite Hone, <-orb_assoc. f_equal. lia.
Qed.

(** sched_getaffinity, where the environment says how many processors there are: it
    stays within the caller's bytes and sets exactly the lowest bits of them, as many as
    there are processors and no more than there is room for; it answers whole words that
    hold those bits, within the caller's bytes where those are whole words. Where they are
    not, and there are more processors than bits, it answers more bytes than it was
    given. *)
Theorem affinity_exact cap n : sizeof_long <= cap -> 0 < n ->
  exists r out, sched_getaffinity cap true n = Some (r, Some out) /\ Z.of_nat (length out) = cap /\
    (forall j, 0 <= j < 8 * cap -> bit_at out j = (j <? n)) /\
    r mod sizeof_long = 0 /\ Z.min n (8 * cap) <= 8 * r /\ (cap mod sizeof_long = 0 -> r <= cap) /\ (cap mod sizeof_long <> 0 -> 8 * cap <= n -> cap < r).
Proof.
  unfold sizeof_long. intros Hc Hn. unfold sched_getaffinity, sizeof_long. replace (negb true || (cap <? 8)) with false by lia. replace (n =? 0) with false by lia. cbv zeta.
  set (bits := if cap * 8 <? n then cap * 8 else n). assert (Hb : bits = Z.min n (8 * cap)) by (unfold bits; split_if; lia).
  destruct (set_bits_ok (Z.to_nat bits) (replicate (Z.to_nat cap) 0) 0) as (out & E & Hl & Hbits); [done|rewrite length_replicate; lia|]. rewrite E. cbn [mbind option_bind]. rewrite length_replicate in Hl, Hbits.
  eexists _, out. split; [reflexivity|]. split; [lia|]. split.
  - intros j Hj. rewrite Hbits by lia. replace (bit_at (replicate (Z.to_nat cap) 0) j) with false.
    + cbn [orb]. rewrite Z2Nat.id by lia. lia.
    + unfold bit_at. destruct (at_ _ _) as [x|] eqn:Ex; [|done]. apply at_lookup, lookup_replicate in Ex as [-> _]. by rewrite Z.bits_0.
  - pose proof (Z.div_mod (bits + 8 * 8 - 1) (8 * 8) ltac:(lia)) as Hd. pose proof (Z.mod_pos_bound (bits + 8 * 8 - 1) (8 * 8) ltac:(lia)) as Hm. set (w := (bits + 8 * 8 - 1) / (8 * 8)) in *.
    pose proof (Z.div_mod cap 8 ltac:(lia)) as Hd8. pose proof (Z.mod_pos_bound cap 8 ltac:(lia)) as Hm8. split_and!; [by apply Z.mod_mul|lia|intros; lia|intros; lia].
Qed.

Lemma affinity_exact_witness : exists r out, sched_getaffinity 9 true 100 = Some (r, Some out) /\ Z.of_nat (length out) = 9 /\ 9 < r.
Proof. destruct (affinity_exact 9 100) as (r & out & E & Hl & _ & _ & _ & _ & H); [discriminate|reflexivity|]. exists r, out. split; [exact E|]. split; [exact Hl|]. apply H; discriminate. Defined.
