(* ===== verification/Vectors.v ===== *)
(** Transfers over several buffers (port/src/okm_syscall.c, the cases of readv, writev,
    sendmsg and recvmsg): one transfer after another, until one is short. *)
From S2P Require Import Prelude Kal FdTable FdTableOk Net NetOk NetTheorems Poll Transfer StreamTheorems.
From stdpp Require Import base list option.
From Stdlib Require Import ZArith Lia.

#[local] Open Scope Z_scope.

Section vectors.
Context {W : Type} `{KalIo W} (can_bound : bool) (g_term_alter : Z).

(** [v] is the rooms of the buffers; what each received, as far as one was reached. *)
Definition do_readv (fd : Z) (v : list Z) : M (sys W) (Z * list (list Z)) := scatter (fun len _ => do_read can_bound g_term_alter fd len) v 0.

Definition do_writev (fd : Z) (v : list (list Z)) : M (sys W) Z := gather (fun buf _ => do_write can_bound fd buf) v 0.
End vectors.

(** ** Messages *)

(** A part of a message: where it is in the caller's memory and how long. *)
Record iovec := Iovec { iov_base : Z; iov_len : Z }.

(** A message's header: whom it is for, its parts, and the length of its control data. *)
Record msghdr := Msghdr { msg_name : option (list Z); msg_namelen : Z; msg_iov : list iovec; msg_controllen : Z }.

(** How many parts are not empty, and the index of the last of them. *)
Fixpoint occupied (v : list iovec) (i used idx : Z) : Z * Z :=
  match v with
  | [] => (used, idx)
  | part :: v' => if iov_len part =? 0 then occupied v' (i + 1) used idx else occupied v' (i + 1) (used + 1) i
  end.

(** What is put in the caller's memory: at which address, and the bytes. *)
Definition stores := list (Z * list Z).

Section messages.
Context (addr_size : Z) (have_dgram can_bound can_recv : bool).
(** The bytes of the caller's memory. *)
Context (mem : Z -> Z).

Definition bytes_of (part : iovec) : list Z := (fun i => mem (iov_base part + Z.of_nat i)) <$> seq 0 (Z.to_nat (iov_len part)).

Definition sock_type_of (fd : Z) : M net Z :=
  r ← okm_sock_getopt fd SOL_SOCKET SO_TYPE (Some sizeof_int);
  mret (match r with inr (V_int t, _) => t | inr _ => 0 | inl e => if e <? 0 then -1 else 0 end).

(** The part that a datagram is sent from or received into, of [used] that are not empty. *)
Definition only_part (v : list iovec) (used idx : Z) : M net iovec :=
  if used =? 0 then mret (Iovec 0 0) else try (fun _ => at_ v idx).

(** The parts of a stream, one after another; [r] answers the transfer made after so many
    bytes. *)
Fixpoint send_parts (fd flags : Z) (e : kal_error) (dg : Z) (r : Z -> io Z) (v : list iovec) (total : Z) : M net Z :=
  match v with
  | [] => mret total
  | part :: v' =>
      if iov_len part =? 0 then send_parts fd flags e dg r v' total
      else
        x ← okm_sock_send addr_size have_dgram can_bound fd (bytes_of part) flags None 0 e dg (r total);
        if x <? 0 then mret (if total =? 0 then x else total)
        else if x <? iov_len part then mret (total + x)
        else send_parts fd flags e dg r v' (total + x)
  end.

(** [e], [dg]: as okm_sock_send's. *)
Definition do_sendmsg (fd : Z) (m : option msghdr) (flags : Z) (e : kal_error) (dg : Z) (r : Z -> io Z) : M net Z :=
  match m with
  | None => mret (- EFAULT)
  | Some m =>
      if negb (msg_controllen m =? 0) then mret (- ENOSYS)
      else
        t ← sock_type_of fd;
        if t <? 0 then mret (- ENOTSOCK)
        else if t =? SOCK_DGRAM then
          let '(used, idx) := occupied (msg_iov m) 0 0 0 in
          if 1 <? used then mret (- ENOSYS)
          else
            part ← only_part (msg_iov m) used idx;
            okm_sock_send addr_size have_dgram can_bound fd (bytes_of part) flags (msg_name m) (msg_namelen m) e dg (r 0)
        else send_parts fd flags e dg r (msg_iov m) 0
  end.

Fixpoint recv_parts (fd flags : Z) (e : kal_error) (dg : Z) (from : io (list Z * endpoint)) (r : Z -> io (list Z)) (v : list iovec) (total : Z) : M net (Z * stores) :=
  match v with
  | [] => mret (total, [])
  | part :: v' =>
      if iov_len part =? 0 then recv_parts fd flags e dg from r v' total
      else
        x ← okm_sock_recv have_dgram can_bound can_recv fd (iov_len part) flags (None, None) e dg from (r total);
        if x.1.1 <? 0 then mret (if total =? 0 then x.1.1 else total, [])
        else if x.1.1 <? iov_len part then mret (total + x.1.1, [(iov_base part, x.1.2)])
        else y ← recv_parts fd flags e dg from r v' (total + x.1.1); mret (y.1, (iov_base part, x.1.2) :: y.2)
  end.

(** The count, what is put where, the address, and msg_flags where it is written. *)
Definition do_recvmsg (fd : Z) (m : option msghdr) (flags : Z) (e : kal_error) (dg : Z) (from : io (list Z * endpoint)) (r : Z -> io (list Z)) : M net (Z * stores * sa_out * option Z) :=
  match m with
  | None => mret (- EFAULT, [], (None, None), None)
  | Some m =>
      let out := (msg_name m, Some (msg_namelen m)) in
      if negb (msg_controllen m =? 0) then mret (- ENOSYS, [], out, None)
      else
        t ← sock_type_of fd;
        if t <? 0 then mret (- ENOTSOCK, [], out, Some 0)
        else if t =? SOCK_DGRAM then
          let '(used, idx) := occupied (msg_iov m) 0 0 0 in
          if 1 <? used then mret (- ENOSYS, [], out, Some 0)
          else
            part ← only_part (msg_iov m) used idx;
            x ← okm_sock_recv have_dgram can_bound can_recv fd (iov_len part) flags out e dg from (r 0);
            mret (x.1.1, [(iov_base part, x.1.2)], x.2, Some 0)
        else
          let out := match msg_name m with Some _ => (msg_name m, Some 0) | None => out end in
          x ← recv_parts fd flags e dg from r (msg_iov m) 0;
          mret (x.1, x.2, out, Some 0)
  end.
End messages.
