(* ===== verification/VectorsTheorems.v ===== *)
(** What transfers over several buffers promise: the bytes of a stream in their order, each
    buffer filled before the next; and of messages, one or none. *)
From S2P Require Import Prelude Kal FdTable FdTableOk FdTheorems Net NetOk NetTheorems Poll Transfer StreamTheorems Vectors.
From stdpp Require Import base list option.
From Stdlib Require Import ZArith Lia.

#[local] Open Scope Z_scope.

(** ** Reading *)


Section readv.
Context {W : Type} `{KalIo W} (can_bound can_accept can_recv : bool).
Hypothesis read_short : forall s len b w l w', 0 <= len -> io_read s len b (w : W) = (inr l, w') -> Z.of_nat (length l) <= len.



End readv.


(** A header of one byte and the rest, of the three bytes "ABC". *)
#[local] Existing Instance tape.


(** ** Messages *)

Definition len_of {A} (l : list A) : Z := Z.of_nat (length l).

(** The parts that are not empty, in their order. *)
Definition parts_of (v : list iovec) : list iovec := filter (fun p => iov_len p <> 0) v.

(** The part a datagram is in, where at most one is not empty. *)
Definition datagram_part (v : list iovec) : iovec := default (Iovec 0 0) (list.head (parts_of v)).

Lemma parts_cons part v : parts_of (part :: v) = if iov_len part =? 0 then parts_of v else part :: parts_of v.
Proof. unfold parts_of. rewrite filter_cons. destruct (Z.eqb_spec (iov_len part) 0); case_decide; done. Qed.

(** The index found is that of the last part that is not empty. *)
Lemma occupied_ok v : forall pre used idx, let z := occupied v (len_of pre) used idx in z.1 = used + len_of (parts_of v) /\
  match list.last (parts_of v) with Some p => at_ (pre ++ v) z.2 = Some p | None => z.2 = idx end.
Proof.
  unfold len_of. induction v as [|part v IH]; intros pre used idx; cbn [occupied]; [cbn; lia|]. rewrite parts_cons.
  replace (Z.of_nat (length pre) + 1) with (Z.of_nat (length (pre ++ [part]))) by (rewrite length_app; cbn; lia). replace (pre ++ part :: v) with ((pre ++ [part]) ++ v) by (by rewrite <-app_assoc).
  destruct (iov_len part =? 0); [apply (IH (pre ++ [part]) used idx)|].
  destruct (IH (pre ++ [part]) (used + 1) (Z.of_nat (length pre))) as [H1 H2]. cbn [length]. split; [rewrite H1; lia|]. rewrite last_cons. destruct (list.last (parts_of v)); [done|].
  rewrite H2. unfold at_. split_if; [|lia]. by rewrite Nat2Z.id, <-app_assoc, lookup_app_r, Nat.sub_diag by lia.
Qed.

(** One is found, or none is there. *)
Lemma only_part_ok v n : let z := occupied v 0 0 0 in z.1 <= 1 -> only_part v z.1 z.2 n = Some (datagram_part v, n).
Proof.
  intros z Hle. destruct (occupied_ok v [] 0 0) as [H1 H2]. change (len_of []) with 0 in H1, H2. fold z in H1, H2. unfold len_of in *. cbn [app] in H2. unfold only_part, datagram_part.
  destruct (parts_of v) as [|p [|q ps]]; cbn [length list.last list.head] in *; [by rewrite H1|rewrite H1; unfold try; by rewrite H2|lia].
Qed.

(** The socket [k] of [fd], with its description. *)
Definition socket_at (n : net) (fd i : Z) (d : okm_desc) (k : Z) (s : okm_sock) : Prop := sock_of n fd = inr (i, d, k) /\ at_ (n_sock n) k = Some s.

(** The state with more asked of the environment, the latest first. *)
Definition asking (n : net) (cs : list net_call) : net := Net (n_fds n) (n_sock n) (cs ++ n_calls n).

Lemma asking_app n a b : asking (asking n a) b = asking n (b ++ a).
Proof. unfold asking. cbn. by rewrite app_assoc. Qed.
Lemma asking_nil n : asking n [] = n.
Proof. by destruct n. Qed.

Section messages.
Context (have_net have_dgram : bool) (addr_size : Z) (can_bound can_recv : bool) (mem : Z -> Z).

Definition bad_flags (flags : Z) : bool := negb (without flags (Z.lor MSG_NOSIGNAL MSG_DONTWAIT) =? 0).

(** The handle of a datagram socket, which its first use opens, with what is asked and the
    socket after it; or an error. *)
Definition dgram_handle (s : okm_sock) (flags : Z) (e : kal_error) (dg : Z) : Z + Z :=
  if bad_flags flags || negb have_dgram then inl (- ENOSYS)
  else if bool_decide (k_state s = OKM_SOCK_NEW) then if bool_decide (e = kal_ok) then inr dg else inl (- okm_errno e)
  else inr (k_dg s).

(** Whom a datagram is for: the address given, or the socket's peer. *)
Definition dgram_to (s : okm_sock) (name : option (list Z)) (namelen : Z) : Z + endpoint :=
  match name with
  | Some a => to_endpoint addr_size (Some a) namelen
  | None => match k_peer s with Some p => inr p | None => inl (- EDESTADDRREQ) end
  end.

(** The datagrams that were sent, and those asked for, the latest first. *)
Definition sent (n : net) : list (Z * list Z * endpoint) := flat_map (fun c => match c with Q_send h buf to => [(h, buf, to)] | _ => [] end) (n_calls n).
Definition awaited (n : net) : list (Z * Z * Z) := flat_map (fun c => match c with Q_recv h len ns => [(h, len, ns)] | _ => [] end) (n_calls n).

(** The answer and the state after a datagram of [buf] is sent. *)
Definition sends_datagram (n : net) (s : okm_sock) (buf : list Z) (flags : Z) (name : option (list Z)) (namelen : Z) (e : kal_error) (dg : Z) (r : io Z) (x : Z) (n' : net) : Prop :=
  match dgram_to s name namelen, dgram_handle s flags e dg with
  | inr to, inr h => x = io_result r /\ sent n' = (h, buf, to) :: sent n
  | to, h => x = (if bad_flags flags || negb have_dgram then - ENOSYS else match to with inl er => er | inr _ => match h with inl er => er | inr _ => 0 end end) /\ x < 0 /\ sent n' = sent n
  end.

(** What is received of a datagram: the one that is held, or the environment's. *)
Definition receives_datagram (n : net) (d : okm_desc) (k : Z) (s : okm_sock) (part : iovec) (flags : Z) (e : kal_error) (dg : Z) (from : io (list Z * endpoint))
    (out : sa_out) (x : Z) (st : stores) (out' : sa_out) (n' : net) : Prop :=
  let ns := bound_of d s flags true in
  match dgram_handle s flags e dg with
  | inl r => x = r /\ st = [(iov_base part, [])] /\ out' = out /\ awaited n' = awaited n
  | inr h =>
      match k_msg s with
      | Some (msg, fr) =>
          let got := take (Z.to_nat (iov_len part)) msg in
          x = len_of got /\ st = [(iov_base part, got)] /\ out' = (from_endpoint fr out).2 /\ awaited n' = awaited n /\ exists s', at_ (n_sock n') k = Some s' /\ k_msg s' = None
      | None =>
          if negb (ns =? 0) && negb can_recv then x = - ENOSYS /\ st = [(iov_base part, [])] /\ out' = out /\ awaited n' = awaited n
          else awaited n' = (h, iov_len part, ns) :: awaited n /\
            match from with inr (msg, fr) => x = len_of msg /\ st = [(iov_base part, msg)] /\ out' = (from_endpoint fr out).2 | inl er => x = - okm_errno er /\ st = [(iov_base part, [])] /\ out' = out end
      end
  end.

(** Why a stream's socket carries nothing. *)
Definition stream_refusal (s : okm_sock) (d : okm_desc) (flags : Z) (receiving : bool) : option Z :=
  if bad_flags flags then Some (- ENOSYS)
  else if negb (bool_decide (k_state s = OKM_SOCK_CONN)) then Some (- ENOTCONN)
  else if negb (bound_of d s flags receiving =? 0) && negb can_bound then Some (- ENOSYS)
  else None.

(** The environment takes no more than it is given, and gives no more than it is asked. *)
Fixpoint takes_within (r : Z -> io Z) (t : Z) (ps : list iovec) : Prop :=
  match ps with [] => True | p :: ps' => (forall c, r t = inr c -> 0 <= c <= iov_len p) /\ takes_within r (t + iov_len p) ps' end.
Fixpoint gives_within (r : Z -> io (list Z)) (t : Z) (ps : list iovec) : Prop :=
  match ps with [] => True | p :: ps' => (forall l, r t = inr l -> len_of l <= iov_len p) /\ gives_within r (t + iov_len p) ps' end.

(** The parts [init] were taken whole; were filled whole. *)
Fixpoint taken_whole (r : Z -> io Z) (t : Z) (init : list iovec) : Prop :=
  match init with [] => True | p :: init' => r t = inr (iov_len p) /\ taken_whole r (t + iov_len p) init' end.
Fixpoint filled_whole (r : Z -> io (list Z)) (t : Z) (init : list iovec) (st : stores) : Prop :=
  match init, st with
  | [], [] => True
  | p :: init', (b, l) :: st' => b = iov_base p /\ r t = inr l /\ len_of l = iov_len p /\ filled_whole r (t + iov_len p) init' st'
  | _, _ => False
  end.

Definition total_of (ps : list iovec) : Z := foldr (fun p t => iov_len p + t) 0 ps.

(** What is written of the parts [ps] after [t] bytes: one after another, each whole before
    the next, until one is short. *)
Definition sends_stream (n : net) (d : okm_desc) (ns : Z) (r : Z -> io Z) (t : Z) (ps : list iovec) (x : Z) (n' : net) : Prop :=
  ps = [] /\ x = t /\ n' = n \/
  exists init p rest, ps = init ++ p :: rest /\ taken_whole r t init /\ n' = asking n (rev ((fun p => Q_write (d_stream d) (bytes_of mem p) ns) <$> (init ++ [p]))) /\
    let t' := t + total_of init in
    match r t' with
    | inr c => x = t' + c /\ (c < iov_len p \/ rest = [])
    | inl er => x = (if t' =? 0 then - okm_errno er else t')
    end.

Definition receives_stream (n : net) (d : okm_desc) (ns : Z) (r : Z -> io (list Z)) (t : Z) (ps : list iovec) (x : Z) (st : stores) (n' : net) : Prop :=
  ps = [] /\ x = t /\ st = [] /\ n' = n \/
  exists init p rest full, ps = init ++ p :: rest /\ filled_whole r t init full /\ n' = asking n (rev ((fun p => Q_read (d_stream d) (iov_len p) ns) <$> (init ++ [p]))) /\
    let t' := t + total_of init in
    match r t' with
    | inr l => x = t' + len_of l /\ st = full ++ [(iov_base p, l)] /\ (len_of l < iov_len p \/ rest = [])
    | inl er => x = (if t' =? 0 then - okm_errno er else t') /\ st = full
    end.

Lemma bytes_len p : 0 <= iov_len p -> len_of (bytes_of mem p) = iov_len p.
Proof using. intros H. unfold len_of, bytes_of. rewrite length_fmap, length_seq. lia. Qed.

Lemma socket_asking n cs fd i d k s : socket_at n fd i d k s -> socket_at (asking n cs) fd i d k s.
Proof using. intros [H1 H2]. by split. Qed.

(** *** Streams *)

Lemma send_stream_eq n fd i d k s buf flags e dg r : socket_at n fd i d k s -> k_type s <> SOCK_DGRAM -> 0 < len_of buf ->
  okm_sock_send addr_size have_dgram can_bound fd buf flags None 0 e dg r n =
    Some (match stream_refusal s d flags false with Some x => (x, n) | None => (io_result r, asking n [Q_write (d_stream d) buf (bound_of d s flags false)]) end).
Proof using.
  clear mem. intros [Es Hs] Ht Hb. unfold okm_sock_send, stream_refusal, bad_flags. rewrite (bind_run (gets id) _ n n n) by reflexivity. change (id n) with n. rewrite Es. erewrite bind_run by (unfold get_sock, try; rewrite Hs; reflexivity).
  destruct (negb _); [done|]. replace (k_type s =? SOCK_DGRAM) with false by lia. destruct (negb (bool_decide _)); [done|]. cbn [bool_decide]. rewrite bool_decide_false by naive_solver. cbv zeta.
  destruct (Z.eqb_spec (bound_of d s flags false) 0) as [->|Hns]; cbn [negb andb]; [done|]. unfold okm_timed_write. destruct can_bound; cbn [negb]; [|done]. unfold len_of in Hb. replace (_ =? 0) with false by lia.
  unfold mbind, M_bind, n_ask, modify, mret, M_ret. destruct r as [er|c]; [|done]. cbn [io_result]. case_bool_decide as He; [subst er|]; done.
Qed.

Lemma recv_stream_eq n fd i d k s len flags e dg from r : socket_at n fd i d k s -> k_type s <> SOCK_DGRAM -> 0 < len -> d_ahead d = 0 -> d_ahead_eof d = 0 ->
  okm_sock_recv have_dgram can_bound can_recv fd len flags (None, None) e dg from r n =
    Some (match stream_refusal s d flags true with
          | Some x => ((x, [], (None, None)), n)
          | None => (match r with inl er => (- okm_errno er, [], (None, None)) | inr l => (len_of l, l, (None, None)) end, asking n [Q_read (d_stream d) len (bound_of d s flags true)])
          end).
Proof using.
  intros [Es Hs] Ht Hl Ha He. unfold okm_sock_recv, stream_refusal, bad_flags. rewrite (bind_run (gets id) _ n n n) by reflexivity. change (id n) with n. rewrite Es. erewrite bind_run by (unfold get_sock, try; rewrite Hs; reflexivity).
  destruct (negb _); [done|]. replace (k_type s =? SOCK_DGRAM) with false by lia. destruct (negb (bool_decide _)); [done|]. cbv zeta.
  erewrite (bind_run _ _ n (0, []) n).
  2: { unfold in_fds, okm_take_ahead, mbind, M_bind. unfold sock_of in Es. destruct (okm_desc_of (n_fds n) fd) as [i'|] eqn:Eo; [|done]. cbn in Es. destruct (at_ (g_desc (n_fds n)) i') as [d'|] eqn:Ed; [|done]. cbn in Es. destruct (slot_of d'); [|done]. injection Es as -> -> ->.
    rewrite (get_desc_eq _ _ _ Ed). rewrite Ha, He. cbn. by destruct n. }
  cbn [fst snd]. change (0 =? OKM_AHEAD_EOF) with false. change (negb (0 =? 0)) with false. cbv iota.
  destruct (Z.eqb_spec (bound_of d s flags true) 0) as [->|Hns]; cbn [negb andb]; [by destruct r|]. unfold okm_timed_read. destruct can_bound; cbn [negb]; [|done]. replace (len =? 0) with false by lia.
  unfold mbind, M_bind, n_ask, modify, mret, M_ret. destruct r as [er|c]; [|done]. case_bool_decide as Hr; [subst er|]; done.
Qed.

Section parts.
Context (fd i : Z) (d : okm_desc) (k : Z) (s : okm_sock) (flags : Z) (e : kal_error) (dg : Z).
Hypothesis Htype : k_type s <> SOCK_DGRAM.

Lemma send_parts_ok r v : (forall t, r t <> inl kal_ok) -> Forall (fun p => 0 <= iov_len p) v -> stream_refusal s d flags false = None ->
  forall t n, socket_at n fd i d k s -> 0 <= t -> takes_within r t (parts_of v) ->
  exists x n', send_parts addr_size have_dgram can_bound mem fd flags e dg r v t n = Some (x, n') /\ sends_stream n d (bound_of d s flags false) r t (parts_of v) x n'.
Proof using Htype.
  intros Hok Hv Href. induction Hv as [|p v Hp _ IH]; intros t n Hs Ht Hw; cbn [send_parts]; [exists t, n; split; [done|by left]|].
  rewrite parts_cons in *. destruct (Z.eqb_spec (iov_len p) 0) as [Hz|Hz]; [by apply IH|]. cbn [takes_within] in Hw. destruct Hw as [Hc Hw].
  unfold mbind, M_bind. rewrite (send_stream_eq n fd i d k s) by (done || rewrite bytes_len; lia). rewrite Href. set (n1 := asking n [_]).
  assert (Hstop : forall x, match r t with inr c => x = t + c /\ (c < iov_len p \/ parts_of v = []) | inl er => x = (if t =? 0 then - okm_errno er else t) end ->
    sends_stream n d (bound_of d s flags false) r t (p :: parts_of v) x n1).
  { intros x Hx. right. exists [], p, (parts_of v). cbn. by rewrite Z.add_0_r. }
  destruct (r t) as [er|c] eqn:Er; cbn [io_result].
  - pose proof (errno_pos er ltac:(intros ->; by apply (Hok t))). replace (- okm_errno er <? 0) with true by lia. eexists _, _. split; [reflexivity|]. by apply Hstop.
  - specialize (Hc c eq_refl). replace (c <? 0) with false by lia. destruct (Z.ltb_spec c (iov_len p)) as [Hsh|Hfull]; [eexists _, _; split; [reflexivity|]; apply Hstop; split; [done|by left]|].
    assert (c = iov_len p) as -> by lia. destruct (IH (t + iov_len p) n1) as (x & n' & E & Hcase); [by apply socket_asking|lia|done|]. exists x, n'. split; [done|].
    destruct Hcase as [(Ep & -> & ->)|(init & q & rest & Eps & Hin & -> & Hr)]; [rewrite Ep in *; apply Hstop; split; [done|by right]|].
    right. exists (p :: init), q, rest. rewrite Eps. split; [done|]. split; [by split|]. split; [|cbn [total_of foldr]; fold (total_of init); by rewrite Z.add_assoc].
    unfold n1. rewrite asking_app. done.
Qed.

Lemma send_parts_refused r v x : Forall (fun p => 0 <= iov_len p) v -> stream_refusal s d flags false = Some x -> forall n, socket_at n fd i d k s ->
  send_parts addr_size have_dgram can_bound mem fd flags e dg r v 0 n = Some (match parts_of v with [] => 0 | _ => x end, n).
Proof using Htype.
  intros Hv Href n Hs. assert (x < 0) as Hx by (revert Href; unfold stream_refusal; repeat case_match; intros; simplify_eq; done). induction Hv as [|p v Hp _ IH]; [done|]. cbn [send_parts]. rewrite parts_cons.
  destruct (Z.eqb_spec (iov_len p) 0) as [Hz|Hz]; [done|]. unfold mbind, M_bind. rewrite (send_stream_eq n fd i d k s) by (done || rewrite bytes_len; lia). rewrite Href. by replace (x <? 0) with true by lia.
Qed.

Hypothesis Hahead : d_ahead d = 0 /\ d_ahead_eof d = 0.

Lemma recv_parts_ok from r v : (forall t, r t <> inl kal_ok) -> Forall (fun p => 0 <= iov_len p) v -> stream_refusal s d flags true = None ->
  forall t n, socket_at n fd i d k s -> 0 <= t -> gives_within r t (parts_of v) ->
  exists x st n', recv_parts have_dgram can_bound can_recv fd flags e dg from r v t n = Some ((x, st), n') /\ receives_stream n d (bound_of d s flags true) r t (parts_of v) x st n'.
Proof using Htype Hahead.
  intros Hok Hv Href. destruct Hahead as [Ha He]. induction Hv as [|p v Hp _ IH]; intros t n Hs Ht Hw; cbn [recv_parts]; [exists t, [], n; split; [done|by left]|].
  rewrite parts_cons in *. destruct (Z.eqb_spec (iov_len p) 0) as [Hz|Hz]; [by apply IH|]. cbn [gives_within] in Hw. destruct Hw as [Hc Hw].
  unfold mbind, M_bind. rewrite (recv_stream_eq n fd i d k s) by (done || lia). rewrite Href. set (n1 := asking n [_]).
  assert (Hstop : forall x st, match r t with inr l => x = t + len_of l /\ st = [(iov_base p, l)] /\ (len_of l < iov_len p \/ parts_of v = []) | inl er => x = (if t =? 0 then - okm_errno er else t) /\ st = [] end ->
    receives_stream n d (bound_of d s flags true) r t (p :: parts_of v) x st n1).
  { intros x st Hx. right. exists [], p, (parts_of v), []. cbn. by rewrite Z.add_0_r. }
  destruct (r t) as [er|l] eqn:Er; cbn [fst snd].
  - pose proof (errno_pos er ltac:(intros ->; by apply (Hok t))). replace (- okm_errno er <? 0) with true by lia. eexists _, _, _. split; [reflexivity|]. by apply Hstop.
  - specialize (Hc l eq_refl). assert (0 <= len_of l) by (unfold len_of; lia). replace (len_of l <? 0) with false by lia. destruct (Z.ltb_spec (len_of l) (iov_len p)) as [Hsh|Hfull]; [eexists _, _, _; split; [reflexivity|]; apply Hstop; split; [done|]; split; [done|by left]|].
    assert (len_of l = iov_len p) as El by lia. rewrite El. destruct (IH (t + iov_len p) n1) as (x & st & n' & E & Hcase); [by apply socket_asking|lia|done|]. rewrite E. eexists _, _, _. split; [reflexivity|]. cbn [fst snd].
    destruct Hcase as [(Ep & -> & -> & ->)|(init & q & rest & full & Eps & Hin & -> & Hr)]; [rewrite Ep in *; apply Hstop; split_and!; [lia|done|by right]|].
    right. exists (p :: init), q, rest, ((iov_base p, l) :: full). rewrite Eps. split; [done|]. split; [by split|]. split; [unfold n1; by rewrite asking_app|].
    cbn [total_of foldr]. fold (total_of init). rewrite Z.add_assoc. cbv zeta in *. destruct (r (t + iov_len p + total_of init)) as [er|l']; [destruct Hr as [-> ->]; done|]. destruct Hr as (-> & -> & ?). done.
Qed.

Lemma recv_parts_refused from r v x : Forall (fun p => 0 <= iov_len p) v -> stream_refusal s d flags true = Some x -> forall n, socket_at n fd i d k s ->
  recv_parts have_dgram can_bound can_recv fd flags e dg from r v 0 n = Some ((match parts_of v with [] => 0 | _ => x end, []), n).
Proof using Htype Hahead.
  intros Hv Href n Hs. destruct Hahead as [Ha He]. assert (x < 0) as Hx by (revert Href; unfold stream_refusal; repeat case_match; intros; simplify_eq; done). induction Hv as [|p v Hp _ IH]; [done|]. cbn [recv_parts]. rewrite parts_cons.
  destruct (Z.eqb_spec (iov_len p) 0) as [Hz|Hz]; [done|]. unfold mbind, M_bind. rewrite (recv_stream_eq n fd i d k s) by (done || lia). rewrite Href. cbn [fst snd]. by replace (x <? 0) with true by lia.
Qed.
End parts.

(** *** Datagrams *)

Lemma to_endpoint_error a l x : to_endpoint addr_size a l = inl x -> x < 0.
Proof using. unfold to_endpoint. repeat case_match; intros; simplify_eq; done. Qed.

Lemma dgram_to_error s name namelen x : dgram_to s name namelen = inl x -> x < 0.
Proof using. unfold dgram_to. destruct name; [apply to_endpoint_error|]. destruct (k_peer s); by intros [= <-]. Qed.

(** The first use opens the socket, and asks for nothing else; an error leaves it. *)
Lemma dgram_opened n k s flags e dg : at_ (n_sock n) k = Some s -> bad_flags flags = false -> have_dgram = true ->
  match dgram_handle s flags e dg with
  | inl x => exists n', ensure_dgram k s e dg n = Some (x, n') /\ x < 0 /\ sent n' = sent n /\ awaited n' = awaited n
  | inr h => exists n' s', ensure_dgram k s e dg n = Some (0, n') /\ sent n' = sent n /\ awaited n' = awaited n /\ at_ (n_sock n') k = Some s' /\ k_dg s' = h /\ k_msg s' = k_msg s /\ (forall d b, bound_of d s' flags b = bound_of d s flags b)
  end.
Proof using.
  intros Hs Hf Hd. unfold dgram_handle, ensure_dgram, mbind, M_bind, n_ask, modify. rewrite Hf, Hd. cbn [negb orb]. case_bool_decide; [|by exists n, s]. case_bool_decide as He; cbn [negb].
  - unfold put_sock, put_try. cbn [n_sock n_fds n_calls]. rewrite (set_at_some _ _ _ (at_range _ _ _ Hs)). cbn. eexists _, (set_dg s dg). split; [reflexivity|]. split; [done|]. split; [done|]. split; [|done].
    pose proof (at_range _ _ _ Hs). unfold at_. split_if; [|lia]. apply list_lookup_insert_eq. lia.
  - eexists. split; [reflexivity|]. pose proof (errno_pos _ He). split; [lia|]. done.
Qed.

Lemma send_datagram n fd i d k s buf flags name namelen e dg r x n' : socket_at n fd i d k s -> k_type s = SOCK_DGRAM ->
  okm_sock_send addr_size have_dgram can_bound fd buf flags name namelen e dg r n = Some (x, n') -> sends_datagram n s buf flags name namelen e dg r x n'.
Proof using.
  intros [Es Hs] Ht. unfold okm_sock_send, sends_datagram. rewrite (bind_run (gets id) _ n n n) by reflexivity. change (id n) with n. rewrite Es. erewrite bind_run by (unfold get_sock, try; rewrite Hs; reflexivity). rewrite Ht.
  change (SOCK_DGRAM =? SOCK_DGRAM) with true. fold (bad_flags flags). cbv zeta iota. fold (dgram_to s name namelen). pose proof (dgram_opened n k s flags e dg Hs) as Ho.
  destruct (bad_flags flags) eqn:Ef; [intros [= <- <-]; unfold dgram_handle; rewrite Ef; cbn [orb]; destruct (dgram_to _ _ _); done|].
  destruct have_dgram eqn:Ehd; cbn [negb orb]; [|intros [= <- <-]; unfold dgram_handle; rewrite Ehd, orb_true_r; destruct (dgram_to _ _ _); done].
  destruct (dgram_to s name namelen) as [x1|to] eqn:Eto; [intros [= <- <-]; split; [done|]; split; [by eapply dgram_to_error|done]|].
  specialize (Ho eq_refl eq_refl). unfold mbind, M_bind. destruct (dgram_handle s flags e dg) as [x1|h].
  - destruct Ho as (n1 & -> & Hx & Hsent & _). replace (x1 =? 0) with false by lia. cbn [negb]. intros [= <- <-]. done.
  - destruct Ho as (n1 & s1 & -> & Hsent & _ & Hs1 & Hh & _ & _). change (negb (0 =? 0)) with false. cbv beta iota. rewrite (get_sock_eq _ _ _ Hs1). intros [= <- <-]. split; [done|].
    unfold sent in *. cbn [n_calls flat_map app]. by rewrite Hh, Hsent.
Qed.

Lemma recv_datagram n fd i d k s part flags out e dg from r x n' : socket_at n fd i d k s -> k_type s = SOCK_DGRAM ->
  okm_sock_recv have_dgram can_bound can_recv fd (iov_len part) flags out e dg from r n = Some (x, n') -> receives_datagram n d k s part flags e dg from out x.1.1 [(iov_base part, x.1.2)] x.2 n'.
Proof using.
  intros [Es Hs] Ht. unfold okm_sock_recv, receives_datagram. rewrite (bind_run (gets id) _ n n n) by reflexivity. change (id n) with n. rewrite Es. erewrite bind_run by (unfold get_sock, try; rewrite Hs; reflexivity). rewrite Ht.
  change (SOCK_DGRAM =? SOCK_DGRAM) with true. fold (bad_flags flags). cbv zeta iota. pose proof (dgram_opened n k s flags e dg Hs) as Ho.
  destruct (bad_flags flags) eqn:Ef; [intros [= <- <-]; unfold dgram_handle; rewrite Ef; done|].
  destruct have_dgram eqn:Ehd; cbn [negb]; [|intros [= <- <-]; unfold dgram_handle; rewrite Ehd, orb_true_r; done].
  specialize (Ho eq_refl eq_refl). unfold mbind, M_bind. destruct (dgram_handle s flags e dg) as [x1|h].
  - destruct Ho as (n1 & -> & Hx & _ & Haw). replace (x1 =? 0) with false by lia. cbn [negb]. intros [= <- <-]. done.
  - destruct Ho as (n1 & s1 & -> & _ & Haw & Hs1 & Hh & Hm & Hbd). change (negb (0 =? 0)) with false. cbv beta iota. rewrite (get_sock_eq _ _ _ Hs1). rewrite Hm. destruct (k_msg s) as [[msg fr]|].
    + unfold put_sock, put_try. rewrite (set_at_some _ _ _ (at_range _ _ _ Hs1)). cbn. intros [= <- <-]. split; [done|]. split; [done|]. split; [done|]. split; [done|].
      exists (set_msg s1 None (k_buf s1)). split; [|done]. pose proof (at_range _ _ _ Hs1). unfold at_. split_if; [|lia]. apply list_lookup_insert_eq. lia.
    + rewrite Hbd. destruct (negb (bound_of d s flags true =? 0) && negb can_recv) eqn:En; [intros [= <- <-]; done|].
      unfold n_ask, modify, mret, M_ret. cbn. unfold awaited in *. destruct from as [er|[msg fr]]; intros [= <- <-]; cbn [n_calls flat_map app fst snd]; rewrite Hh, Haw; [|done]. split; [done|]. split; [|done]. destruct (negb _); [|done]. cbn [andb]. case_bool_decide; by subst.
Qed.

(** *** The calls *)

Lemma type_of_ok fd n : net_ok have_net have_dgram n -> exists t, sock_type_of fd n = Some (t, n) /\ forall i d k s, socket_at n fd i d k s -> t = k_type s.
Proof using.
  intros Hn. unfold sock_type_of, okm_sock_getopt, mbind, M_bind, gets. change (id n) with n. destruct (sock_of n fd) as [x|[[i d] k]] eqn:Es.
  - eexists. split; [reflexivity|]. intros i d k s [E _]. congruence.
  - destruct (sock_of_ok _ _ _ _ _ _ _ _ _ Hn Es) as (_ & _ & _ & _ & s & Hs & _). rewrite (get_sock_eq _ _ _ Hs). cbn. eexists. split; [reflexivity|]. intros i' d' k' s' [E1 E2]. rewrite Es in E1. injection E1 as <- <- <-. congruence.
Qed.

Lemma send_parts_keeps fd flags e dg r v : forall total n, net_ok have_net have_dgram n -> keeps have_net have_dgram n (send_parts addr_size have_dgram can_bound mem fd flags e dg r v total).
Proof using.
  induction v as [|p v IH]; intros total n Hn; cbn [send_parts]; [by apply keeps_ret|]. split_if; [by apply IH|]. apply keeps_bind; [by apply send_keeps|]. intros x n' Hn'. split_if; [by apply keeps_ret|]. split_if; [by apply keeps_ret|]. by apply IH.
Qed.

Lemma recv_parts_keeps fd flags e dg from r v : forall total n, net_ok have_net have_dgram n -> keeps have_net have_dgram n (recv_parts have_dgram can_bound can_recv fd flags e dg from r v total).
Proof using.
  induction v as [|p v IH]; intros total n Hn; cbn [recv_parts]; [by apply keeps_ret|].
  split_if; [by apply IH|]. apply keeps_bind; [by apply recv_keeps|]. intros x n' Hn'. split_if; [by apply keeps_ret|]. split_if; [by apply keeps_ret|]. apply keeps_bind; [by apply IH|intros; by apply keeps_ret].
Qed.

Lemma occupied_count v : (occupied v 0 0 0).1 = len_of (parts_of v).
Proof using. by destruct (occupied_ok v [] 0 0) as [H _]. Qed.

(** What sendmsg does for the socket [s]. *)
Definition sendmsg_ok (n : net) (d : okm_desc) (s : okm_sock) (m : msghdr) (flags : Z) (e : kal_error) (dg : Z) (r : Z -> io Z) (x : Z) (n' : net) : Prop :=
  let ps := parts_of (msg_iov m) in
  (k_type s = SOCK_DGRAM ->
     if 1 <? len_of ps then x = - ENOSYS /\ n' = n else sends_datagram n s (bytes_of mem (datagram_part (msg_iov m))) flags (msg_name m) (msg_namelen m) e dg (r 0) x n') /\
  (k_type s = SOCK_STREAM -> (forall t, r t <> inl kal_ok) -> takes_within r 0 ps ->
     match stream_refusal s d flags false with
     | Some er => x = match ps with [] => 0 | _ => er end /\ n' = n
     | None => sends_stream n d (bound_of d s flags false) r 0 ps x n'
     end).

Definition recvmsg_ok (n : net) (d : okm_desc) (k : Z) (s : okm_sock) (m : msghdr) (flags : Z) (e : kal_error) (dg : Z) (from : io (list Z * endpoint)) (r : Z -> io (list Z)) (x : Z) (st : stores) (out' : sa_out) (n' : net) : Prop :=
  let ps := parts_of (msg_iov m) in
  let out := (msg_name m, Some (msg_namelen m)) in
  (k_type s = SOCK_DGRAM ->
     if 1 <? len_of ps then x = - ENOSYS /\ st = [] /\ out' = out /\ n' = n else receives_datagram n d k s (datagram_part (msg_iov m)) flags e dg from out x st out' n') /\
  (k_type s = SOCK_STREAM -> d_ahead d = 0 -> d_ahead_eof d = 0 -> (forall t, r t <> inl kal_ok) -> gives_within r 0 ps -> out' = (msg_name m, if bool_decide (msg_name m = None) then Some (msg_namelen m) else Some 0) /\
     match stream_refusal s d flags true with
     | Some er => x = match ps with [] => 0 | _ => er end /\ st = [] /\ n' = n
     | None => receives_stream n d (bound_of d s flags true) r 0 ps x st n'
     end).

Lemma not_dgram t : t = SOCK_STREAM -> t <> SOCK_DGRAM.
Proof using. by intros ->. Qed.

Lemma sendmsg_exact fd m flags e dg r n : net_ok have_net have_dgram n -> Forall (fun p => 0 <= iov_len p) (msg_iov m) ->
  exists x n', do_sendmsg addr_size have_dgram can_bound mem fd (Some m) flags e dg r n = Some (x, n') /\ net_ok have_net have_dgram n' /\
    forall i d k s, socket_at n fd i d k s -> msg_controllen m = 0 -> sendmsg_ok n d s m flags e dg r x n'.
Proof using.
  intros Hn Hv. unfold do_sendmsg. destruct (Z.eqb_spec (msg_controllen m) 0) as [Hc|Hc]; cbn [negb]; [|by eexists _, n].
  destruct (type_of_ok fd n Hn) as (t & Et & Hty). erewrite bind_run by exact Et. unfold sendmsg_ok.
  destruct (Z.ltb_spec t 0) as [Hneg|Hpos].
  { eexists _, n. split; [reflexivity|]. split; [done|]. intros i d k s Hs _. rewrite <-(Hty _ _ _ _ Hs). unfold SOCK_DGRAM, SOCK_STREAM. split; lia. }
  destruct (Z.eqb_spec t SOCK_DGRAM) as [->|Hne].
  - pose proof (occupied_count (msg_iov m)) as Hu. pose proof (only_part_ok (msg_iov m) n) as Hp. cbv zeta in Hp. destruct (occupied (msg_iov m) 0 0 0) as [used idx]. cbn [fst snd] in *. cbv zeta. rewrite <-Hu.
    destruct (Z.ltb_spec 1 used) as [Hmany|Hone].
    + eexists _, n. split; [reflexivity|]. split; [done|]. intros i d k s Hs _. by rewrite <-(Hty _ _ _ _ Hs).
    + erewrite bind_run by (by apply Hp). destruct (send_keeps have_net have_dgram addr_size can_bound fd (bytes_of mem (datagram_part (msg_iov m))) flags (msg_name m) (msg_namelen m) e dg (r 0) n Hn) as (x & n' & E & Hn'). exists x, n'. split; [done|]. split; [done|].
      intros i d k s Hs _. split; [|by rewrite <-(Hty _ _ _ _ Hs)]. intros Ht. by eapply send_datagram.
  - destruct (send_parts_keeps fd flags e dg r (msg_iov m) 0 n Hn) as (x & n' & E & Hn'). exists x, n'. split; [done|]. split; [done|]. intros i d k s Hs _. pose proof (Hty _ _ _ _ Hs) as Ht. split; [congruence|]. intros Hnd%not_dgram Hok Hw.
    destruct (stream_refusal s d flags false) as [er|] eqn:Er.
    + rewrite (send_parts_refused fd i d k s flags e dg Hnd r (msg_iov m) er Hv Er n Hs) in E. by injection E as <- <-.
    + destruct (send_parts_ok fd i d k s flags e dg Hnd r (msg_iov m) Hok Hv Er 0 n Hs ltac:(lia) Hw) as (x' & n2 & E' & H). rewrite E in E'. injection E' as <- <-. done.
Qed.

Lemma recvmsg_exact fd m flags e dg from r n : net_ok have_net have_dgram n -> Forall (fun p => 0 <= iov_len p) (msg_iov m) ->
  exists x st out fl n', do_recvmsg have_dgram can_bound can_recv fd (Some m) flags e dg from r n = Some ((x, st, out, fl), n') /\ net_ok have_net have_dgram n' /\
    forall i d k s, socket_at n fd i d k s -> msg_controllen m = 0 -> recvmsg_ok n d k s m flags e dg from r x st out n'.
Proof using.
  intros Hn Hv. unfold do_recvmsg. cbv zeta. destruct (Z.eqb_spec (msg_controllen m) 0) as [Hc|Hc]; cbn [negb]; [|by eexists _, _, _, _, n].
  destruct (type_of_ok fd n Hn) as (t & Et & Hty). erewrite bind_run by exact Et. unfold recvmsg_ok.
  destruct (Z.ltb_spec t 0) as [Hneg|Hpos].
  { eexists _, _, _, _, n. split; [reflexivity|]. split; [done|]. intros i d k s Hs _. rewrite <-(Hty _ _ _ _ Hs). unfold SOCK_DGRAM, SOCK_STREAM. split; lia. }
  destruct (Z.eqb_spec t SOCK_DGRAM) as [->|Hne].
  - pose proof (occupied_count (msg_iov m)) as Hu. pose proof (only_part_ok (msg_iov m) n) as Hp. cbv zeta in Hp. destruct (occupied (msg_iov m) 0 0 0) as [used idx]. cbn [fst snd] in *. cbv zeta. rewrite <-Hu.
    destruct (Z.ltb_spec 1 used) as [Hmany|Hone].
    + eexists _, _, _, _, n. split; [reflexivity|]. split; [done|]. intros i d k s Hs _. by rewrite <-(Hty _ _ _ _ Hs).
    + erewrite bind_run by (by apply Hp). set (part := datagram_part (msg_iov m)). set (out := (msg_name m, Some (msg_namelen m))). destruct (recv_keeps have_net have_dgram can_bound can_recv fd (iov_len part) flags out e dg from (r 0) n Hn) as (x & n' & E & Hn').
      erewrite bind_run by exact E. eexists _, _, _, _, n'. split; [reflexivity|]. split; [done|].
      intros i d k s Hs _. split; [|by rewrite <-(Hty _ _ _ _ Hs)]. intros Ht. by eapply recv_datagram.
  - destruct (recv_parts_keeps fd flags e dg from r (msg_iov m) 0 n Hn) as ([x st] & n' & E & Hn'). erewrite bind_run by exact E. eexists _, _, _, _, n'. split; [reflexivity|]. split; [done|]. cbn [fst snd]. intros i d k s Hs _. pose proof (Hty _ _ _ _ Hs) as Ht. split; [congruence|].
    intros Hnd%not_dgram Ha He Hok Hw. split; [by destruct (msg_name m)|]. destruct (stream_refusal s d flags true) as [er|] eqn:Er.
    + rewrite (recv_parts_refused fd i d k s flags e dg Hnd (conj Ha He) from r (msg_iov m) er Hv Er n Hs) in E. by injection E as <- <- <-.
    + destruct (recv_parts_ok fd i d k s flags e dg Hnd (conj Ha He) from r (msg_iov m) Hok Hv Er 0 n Hs ltac:(lia) Hw) as (x' & st' & n2 & E' & H). rewrite E in E'. injection E' as <- <- <-. done.
Qed.
End messages.

(** C28. sendmsg and recvmsg over the sockets: whatever the header, the flags and the
    environment's answers, they return and leave the table of sockets whole. Of a datagram
    socket, sendmsg sends one message, of exactly the bytes at its only part that has any,
    through the socket's handle and to the address given or the peer, and answers what the
    environment answered, or answers an error and sends none; recvmsg puts at that part's
    address the first bytes of the message that is held, or else of the one the environment
    gives for that part's length, and tells whom it is from. Where more than one part has bytes, both answer ENOSYS and
    do nothing. Of a stream socket, sendmsg asks for the parts to be written one after
    another, each with its own bytes, each taken whole before the next and none after one
    that was not; recvmsg of one whose descriptor holds nothing that a poll took asks for
    them to be read so, and puts at each part's address what was given for it. The answer is
    the count, or the error where nothing was transferred. *)
Theorem messages_whole have_net have_dgram addr_size can_bound can_recv mem fd m flags e dg n : net_ok have_net have_dgram n -> Forall (fun p => 0 <= iov_len p) (msg_iov m) ->
  (forall r, exists x n', do_sendmsg addr_size have_dgram can_bound mem fd (Some m) flags e dg r n = Some (x, n') /\ net_ok have_net have_dgram n' /\
    forall i d k s, socket_at n fd i d k s -> msg_controllen m = 0 -> sendmsg_ok have_dgram addr_size can_bound mem n d s m flags e dg r x n') /\
  (forall from r, exists x st out fl n', do_recvmsg have_dgram can_bound can_recv fd (Some m) flags e dg from r n = Some ((x, st, out, fl), n') /\ net_ok have_net have_dgram n' /\
    forall i d k s, socket_at n fd i d k s -> msg_controllen m = 0 -> recvmsg_ok have_dgram can_bound can_recv n d k s m flags e dg from r x st out n').
Proof. intros Hn Hv. split; intros; [by apply sendmsg_exact|by apply recvmsg_exact]. Qed.

(** A datagram socket, and a message of two parts of which one is empty and the other the
    five bytes "hello" at 0x2000. *)
Definition with_dgram : net := match okm_sock_open true true true 1 AF_INET SOCK_DGRAM 0 (net_zero started) with Some (_, n) => n | None => net_zero started end.
Definition hello (a : Z) : Z := default 0 (at_ [104; 101; 108; 108; 111] (a - 0x2000)).
Definition hello_parts : list iovec := [Iovec 0x1000 0; Iovec 0x2000 5].

(** Port 80 of 127.0.0.1. *)
Definition loopback : list Z := [2; 0; 0; 80; 127; 0; 0; 1; 0; 0; 0; 0; 0; 0; 0; 0].

Lemma with_dgram_ok : net_ok true true with_dgram.
Proof. destruct (open_keeps true true 1 true AF_INET SOCK_DGRAM 0 (net_zero started) net_started_ok) as (x & n & E & H). unfold with_dgram. by rewrite E. Qed.

Lemma messages_whole_witness : exists x n', do_sendmsg 24 true true hello 0 (Some (Msghdr (Some loopback) 16 hello_parts 0)) 0 kal_ok 60 (fun _ => inr 5) with_dgram = Some (x, n') /\ net_ok true true n' /\
  x = 5 /\ exists to, sent n' = [(60, [104; 101; 108; 108; 111], to)].
Proof.
  destruct (messages_whole true true 24 true true hello 0 (Msghdr (Some loopback) 16 hello_parts 0) 0 kal_ok 60 with_dgram with_dgram_ok) as [H _]; [by repeat constructor|].
  destruct (H (fun _ => inr 5)) as (x & n' & E & Hn & Hs). exists x, n'. split; [exact E|]. split; [exact Hn|].
  destruct (at_ (n_sock with_dgram) 0) as [s|] eqn:Es; [|vm_compute in Es; discriminate]. destruct (sock_of with_dgram 0) as [z|[[i d] k]] eqn:Ek; [vm_compute in Ek; discriminate|].
  assert (k = 0) as -> by (vm_compute in Ek; congruence). destruct (Hs i d 0 s (conj Ek Es) eq_refl) as [Hd _]. assert (k_type s = SOCK_DGRAM) as Ht by (vm_compute in Es; injection Es as <-; reflexivity).
  specialize (Hd Ht). vm_compute in Es. injection Es as <-. destruct Hd as [-> Hsent]. split; [reflexivity|]. eexists. exact Hsent.
Defined.

(** Where the first buffer is filled and nothing more has come, readv does not answer what
    it has: it asks for the second buffer without a bound, and waits. *)
Example readv_reads_on : exists x y', do_readv true 0 0 [1; 10] (Sys (y_net at_start) ([65], [])) = Some (x, y') /\ n_calls (y_net y') = [Q_read 3 10 0; Q_read 3 1 0].
Proof. eexists _, _. split; [vm_compute; reflexivity|]. reflexivity. Qed.
