(* ===== verification/Start.v ===== *)
(** The start of a program (port/src/okm_start.c): the page, the bytes of AT_RANDOM, the
    arguments and the named values taken from openkal, getenv, and the order in which the
    library is brought up, directly or through a snapshot. The storage kal_alloc gives is
    modelled block by block, so that what is written outside of one, read before it was
    written or freed twice has no answer. *)
From S2P Require Import Prelude Kal.
From stdpp Require Import gmap list option.
From Stdlib Require Import ZArith Lia.

#[local] Open Scope Z_scope.

(** ** The page and the random bytes *)

(** [while (p && p < grain) p <<= 1], at most fifty-two times from 4096. *)
Fixpoint page_up (fuel : nat) (p grain : Z) : option Z :=
  match fuel with
  | O => None
  | S k => if negb (p =? 0) && (p <? grain) then page_up k (wrap64 (Z.shiftl p 1)) grain else Some p
  end.

Definition take_page_size (granularity : Z) : option Z :=
  if granularity <? 4096 then Some 4096
  else if negb (Z.land granularity (granularity - 1) =? 0) then
    (fun p => if negb (p =? 0) then p else 4096) <$> page_up 53 4096 granularity
  else Some granularity.

Definition xorshift (x : Z) : Z :=
  let x := Z.lxor x (wrap64 (Z.shiftl x 13)) in
  let x := Z.lxor x (Z.shiftr x 7) in
  Z.lxor x (wrap64 (Z.shiftl x 17)).

Fixpoint random_bytes (n : nat) (x : Z) : list Z :=
  match n with
  | O => []
  | S k => let x' := xorshift x in Z.shiftr x' 24 mod 256 :: random_bytes k x'
  end.

(** [here] is the address of g_random. *)
Definition random_seed (wall monotonic here : Z) : Z :=
  let x := Z.lxor (Z.lxor wall (wrap64 (monotonic * 6364136223846793005))) here in
  if x =? 0 then 88172645463325252 else x.

Definition fill_random (wall monotonic here : Z) : list Z := random_bytes 16 (random_seed wall monotonic here).

(** ** The storage, the arguments and the named values *)

(** A pointer to a character: of the empty literal, or into a block. *)
Inductive char_ptr := Literal | Inside (p off : Z).

(** [blocks] by their addresses, a byte not yet written being [None]; [granted] counts
    what was asked of kal_alloc; [g_asked] is sealing_getenv's table: name, length, value. *)
Record libc_start := LibcStart {
  g_argv_store : list Z;
  g_argc : Z;
  g_envp_store : list Z;
  environ : option (list Z);
  progname : char_ptr;
  progname_full : char_ptr;
  blocks : gmap Z (list (option Z));
  granted : Z;
  g_asked : list (Z * Z * Z);
}.

Definition with_blocks (s : libc_start) m n : libc_start := LibcStart (g_argv_store s) (g_argc s) (g_envp_store s) (environ s) (progname s) (progname_full s) m n (g_asked s).
Definition with_args (s : libc_start) l n : libc_start := LibcStart l n (g_envp_store s) (environ s) (progname s) (progname_full s) (blocks s) (granted s) (g_asked s).
Definition with_progname (s : libc_start) p q : libc_start := LibcStart (g_argv_store s) (g_argc s) (g_envp_store s) (environ s) p q (blocks s) (granted s) (g_asked s).
Definition with_envp (s : libc_start) l e : libc_start := LibcStart (g_argv_store s) (g_argc s) l e (progname s) (progname_full s) (blocks s) (granted s) (g_asked s).
Definition with_asked (s : libc_start) l : libc_start := LibcStart (g_argv_store s) (g_argc s) (g_envp_store s) (environ s) (progname s) (progname_full s) (blocks s) (granted s) l.

(** The objects of the file before anything runs. *)
Definition start_zero : libc_start := LibcStart (replicate 256 0) 0 (replicate 512 0) None Literal Literal ∅ 0 [].

(** openkal's answers: whether the n-th allocation is granted; a text's own length, or a
    negative error, with the bytes put into a buffer of the capacity given. *)
Record kal_answers := KalAnswers {
  grants : Z -> bool;
  kal_env_arg_count : Z;
  kal_env_arg : Z -> Z -> Z * list Z;
  kal_env_var_count : Z;
  kal_env_var_at : Z -> Z -> Z * list Z;
  kal_env_var : list Z -> Z -> Z * list Z;
}.

(** The string in a block's bytes: up to the terminator, none of it indeterminate. *)
Fixpoint cstring (b : list (option Z)) : option (list Z) :=
  match b with
  | Some c :: b' => if c =? 0 then Some [] else cons c <$> cstring b'
  | _ => None
  end.

Definition string_at (s : libc_start) (q : char_ptr) : option (list Z) :=
  match q with
  | Literal => Some []
  | Inside p off => b ← blocks s !! p; cstring (drop (Z.to_nat off) b)
  end.

Section operations.
Context (K : kal_answers).

(** Addresses are numbered as they are given; zero is the null pointer. *)
Definition kal_alloc (n : Z) : M libc_start Z := fun s =>
  let p := granted s + 1 in
  if grants K (granted s) then Some (p, with_blocks s (<[p := replicate (Z.to_nat n) None]> (blocks s)) p)
  else Some (0, with_blocks s (blocks s) p).

(** Frees a block that is there, of its own size. *)
Definition kal_free (p n : Z) : M libc_start () :=
  put_try (fun s => b ← blocks s !! p; if Z.of_nat (length b) =? n then Some (with_blocks s (delete p (blocks s)) (granted s)) else None).

Definition splice (b : list (option Z)) (off : Z) (bs : list Z) : option (list (option Z)) :=
  if (0 <=? off) && (off + Z.of_nat (length bs) <=? Z.of_nat (length b))
  then Some (take (Z.to_nat off) b ++ (Some <$> bs) ++ drop (Z.to_nat off + length bs) b) else None.

Definition write_at (p off : Z) (bs : list Z) : M libc_start () :=
  put_try (fun s => b ← blocks s !! p; b' ← splice b off bs; Some (with_blocks s (<[p := b']> (blocks s)) (granted s))).

Definition argv_put (i p : Z) : M libc_start () := put_try (fun s => l ← set_at (g_argv_store s) i p; Some (with_args s l (g_argc s))).
Definition envp_put (i p : Z) : M libc_start () := put_try (fun s => l ← set_at (g_envp_store s) i p; Some (with_envp s l (environ s))).

Fixpoint args_loop (fuel : nat) (i : Z) : M libc_start () :=
  match fuel with
  | O => fun _ => None
  | S k =>
      argc ← gets g_argc;
      if (i <? kal_env_arg_count K) && (argc <? 255) then
        let len := (kal_env_arg K i 0).1 in
        if len <? 0 then mret ()
        else
          p ← kal_alloc (len + 1);
          if p =? 0 then mret ()
          else
            let '(again, bs) := kal_env_arg K i len in
            write_at p 0 bs;;
            if negb (again =? len) then kal_free p (len + 1)
            else
              write_at p len [0];;
              argv_put argc p;;
              modify (fun s => with_args s (g_argv_store s) (argc + 1));;
              args_loop k (i + 1)
      else mret ()
  end.

(** The place after the last slash, [q] being where [s] starts. *)
Fixpoint after_slash (s : list Z) (q from : Z) : Z :=
  match s with
  | [] => from
  | c :: s' => after_slash s' (q + 1) (if c =? 47 then q + 1 else from)
  end.

Definition take_progname : M libc_start () :=
  argc ← gets g_argc;
  full ← (if negb (argc =? 0) then p ← try (fun s => at_ (g_argv_store s) 0); mret (Inside p 0) else mret Literal);
  text ← try (fun s => string_at s full);
  modify (fun s => with_progname s (match full with Literal => Literal | Inside p off => Inside p (off + after_slash text 0 0) end) full).

Definition okm_take_args : M libc_start () :=
  modify (fun s => with_args s (g_argv_store s) 0);;
  args_loop 256 0;;
  argc ← gets g_argc;
  argv_put argc 0;;
  take_progname.

Fixpoint vars_loop (fuel : nat) (i envc : Z) : M libc_start Z :=
  match fuel with
  | O => fun _ => None
  | S k =>
      if (i <? kal_env_var_count K) && (envc <? 511) then
        let nlen := (kal_env_var_at K i 0).1 in
        if nlen <? 0 then mret envc
        else
          name ← kal_alloc (nlen + 1);
          if name =? 0 then mret envc
          else
            let '(again, nbs) := kal_env_var_at K i nlen in
            write_at name 0 nbs;;
            if negb (again =? nlen) then mret envc
            else
              write_at name nlen [0];;
              let vlen := (kal_env_var K nbs 0).1 in
              let have := if vlen <? 0 then 0 else vlen in
              p ← kal_alloc (nlen + have + 2);
              if p =? 0 then mret envc
              else
                write_at p 0 nbs;;
                write_at p nlen [61];;
                when (negb (have =? 0)) (write_at p (nlen + 1) (kal_env_var K nbs have).2);;
                write_at p (nlen + 1 + have) [0];;
                kal_free name (nlen + 1);;
                envp_put envc p;;
                vars_loop k (i + 1) (envc + 1)
      else mret envc
  end.

Definition okm_init_env : M libc_start () :=
  okm_take_args;;
  envc ← vars_loop 512 0 0;
  envp_put envc 0;;
  modify (fun s => with_envp s (g_envp_store s) (Some (g_envp_store s))).

(** ** getenv *)

(** __strchrnul(name, '='): how much of the name precedes an equals sign. *)
Fixpoint before_equals (name : list Z) : nat :=
  match name with
  | c :: name' => if c =? 61 then O else S (before_equals name')
  | [] => O
  end.

(** [!strncmp(name, *e, l) && l[*e] == '='], on the bytes of the block [e] points at. *)
Fixpoint entry_matches (name : list Z) (b : list (option Z)) : option bool :=
  match name, b with
  | [], Some c :: _ => Some (c =? 61)
  | n :: name', Some c :: b' => if n =? c then entry_matches name' b' else Some false
  | _, _ => None
  end.

Fixpoint search_entries (name : list Z) (es : list Z) : M libc_start char_ptr :=
  match es with
  | [] => fun _ => None
  | e :: es' =>
      if e =? 0 then mret (Inside 0 0)
      else
        hit ← try (fun s => b ← blocks s !! e; entry_matches name b);
        if hit : bool then mret (Inside e (Z.of_nat (length name) + 1)) else search_entries name es'
  end.

Definition block_bytes (s : libc_start) (p n : Z) : option (list Z) :=
  b ← blocks s !! p; mapM (M := option) (fun c => c) (take (Z.to_nat n) b).

(** The table's entry for a name, [i] where it starts. *)
Fixpoint asked_for_name (name : list Z) (l : list (Z * Z * Z)) : M libc_start (option Z) :=
  match l with
  | [] => mret None
  | (p, len, v) :: l' =>
      if len =? Z.of_nat (length name) then
        held ← try (fun s => block_bytes s p len);
        if bool_decide (held = name) then mret (Some v) else asked_for_name name l'
      else asked_for_name name l'
  end.

Definition sealing_getenv (name : list Z) : M libc_start Z :=
  asked ← gets g_asked;
  hit ← asked_for_name name asked;
  match hit with
  | Some v => mret v
  | None =>
      let n := (kal_env_var K name 0).1 in
      value ← (if 0 <=? n then
                 v ← kal_alloc (n + 1);
                 if v =? 0 then mret 0
                 else
                   let '(again, bs) := kal_env_var K name n in
                   write_at v 0 bs;;
                   when (negb (again =? n)) (write_at v 0 [0]);;
                   write_at v n [0];;
                   mret v
               else mret 0);
      kept ← (if Z.of_nat (length asked) <? 64 then kal_alloc (Z.of_nat (length name) + 1) else mret 0);
      when (negb (kept =? 0))
        (write_at kept 0 name;; write_at kept (Z.of_nat (length name)) [0];;
         modify (fun s => with_asked s (asked ++ [(kept, Z.of_nat (length name), value)])));;
      mret value
  end.

(** The null pointer is [Inside 0 0]. *)
Definition getenv (sealing : bool) (name : list Z) : M libc_start char_ptr :=
  let l := before_equals name in
  let proper := negb (Nat.eqb l 0) && Nat.eqb l (length name) in
  if sealing then (if proper then v ← sealing_getenv name; mret (Inside v 0) else mret (Inside 0 0))
  else
    e ← gets environ;
    match e with
    | Some es => if proper then search_entries name es else mret (Inside 0 0)
    | None => mret (Inside 0 0)
    end.
End operations.

(** ** Bringing the library up *)

(** What is called of the rest of the library, and what the start supplies that is asked
    for beside the arguments and the named values. *)
Inductive start_call :=
| SetThreadPointer (td : Z)
| TableMemory
| TableStreams
| Banner
| Profile
| MallocInit
| MallocStart
| Rebind (from : Z)
| StackGuard (random : list Z)
| AsksClocks
| AsksVars.

(** [libc_td] is the first context's record and [libc_tid] its number. *)
Record libc := Libc {
  g_libc_up : bool;
  libc_page_size : Z;
  g_auxv : list Z;
  g_random : list Z;
  libc_tls_size : Z;
  libc_td : Z;
  libc_tid : Z;
  libc_boot : libc_start;
  libc_calls : list start_call;
}.

(** The addresses and sizes the linker and the compiler chose, and what the environment
    answers: its clocks, the granularity, the calling context. *)
Record start_place := StartPlace {
  at_random : Z;
  builtin_tls : Z;
  pthread_size : Z;
  pthread_align : Z;
  wall : Z;
  monotonic : Z;
  granularity : Z;
  context_id : Z;
}.

(** Where __copy_tls puts the record in [mem]. *)
Definition copy_tls (align mem : Z) : Z :=
  let mem := wrap64 (mem + 16) in wrap64 (mem + Z.land (wrap64 (- mem)) (align - 1)).

Section bring_up.
Context (K : kal_answers) (P : start_place).

Definition notes (c : start_call) : M libc () :=
  modify (fun l => Libc (g_libc_up l) (libc_page_size l) (g_auxv l) (g_random l) (libc_tls_size l) (libc_td l) (libc_tid l) (libc_boot l) (libc_calls l ++ [c])).

Definition bring_page_size : M libc () :=
  p ← try (fun _ => take_page_size (granularity P));
  modify (fun l => Libc (g_libc_up l) p (g_auxv l) (g_random l) (libc_tls_size l) (libc_td l) (libc_tid l) (libc_boot l) (libc_calls l)).

Definition bring_random : M libc () :=
  notes AsksClocks;;
  modify (fun l => Libc (g_libc_up l) (libc_page_size l) (g_auxv l) (fill_random (wall P) (monotonic P) (at_random P)) (libc_tls_size l) (libc_td l) (libc_tid l) (libc_boot l) (libc_calls l)).

(** AT_PAGESZ is 6, AT_RANDOM 25; the array has seven words. *)
Definition bring_auxv : M libc () :=
  modify (fun l => Libc (g_libc_up l) (libc_page_size l) [6; libc_page_size l; 25; at_random P; 0; 0; 0] (g_random l) (libc_tls_size l) (libc_td l) (libc_tid l) (libc_boot l) (libc_calls l)).

Definition in_boot (e : M libc_start ()) : M libc () := fun l =>
  '(_, b) ← e (libc_boot l);
  Some ((), Libc (g_libc_up l) (libc_page_size l) (g_auxv l) (g_random l) (libc_tls_size l) (libc_td l) (libc_tid l) b (libc_calls l)).

Definition bring_env : M libc () := notes AsksVars;; in_boot (okm_init_env K).

(** [(int)OKM_CONTEXT_ID()], and one where that is zero. *)
Definition context_tid : Z := let t := sext32 (wrap32 (context_id P)) in if t =? 0 then 1 else t.

Definition with_thread (td tid : Z) : M libc () :=
  modify (fun l => Libc (g_libc_up l) (libc_page_size l) (g_auxv l) (g_random l) (libc_tls_size l) td tid (libc_boot l) (libc_calls l)).

Definition init_tls : M libc () :=
  let align := if pthread_align P <? 16 then 16 else pthread_align P in
  modify (fun l => Libc (g_libc_up l) (libc_page_size l) (g_auxv l) (g_random l) (16 + pthread_size P + align) (libc_td l) (libc_tid l) (libc_boot l) (libc_calls l));;
  let td := copy_tls (pthread_align P) (builtin_tls P) in
  notes (SetThreadPointer td);;
  with_thread td context_tid.

Definition init_ssp : M libc () := r ← gets g_random; notes (StackGuard r).

Definition okm_libc_memory : M libc () :=
  bring_page_size;; bring_auxv;; init_tls;; notes TableMemory;; notes MallocInit.

Definition okm_libc_init (sealing : bool) : M libc () :=
  up ← gets g_libc_up;
  if up : bool then mret ()
  else
    modify (fun l => Libc true (libc_page_size l) (g_auxv l) (g_random l) (libc_tls_size l) (libc_td l) (libc_tid l) (libc_boot l) (libc_calls l));;
    if sealing then okm_libc_memory
    else
      bring_page_size;; bring_random;; bring_auxv;; bring_env;; init_tls;; init_ssp;;
      notes TableMemory;; notes TableStreams;; notes Banner;; notes Profile;; notes MallocInit.

(** [phase] and [context] are the snapshot's. *)
Definition snapshot_start (phase context : Z) : M libc () :=
  if phase =? 1 then
    b ← gets libc_boot;
    when (match environ b with Some _ => true | None => false end) (notes AsksVars)
  else if negb (phase =? 2) then mret ()
  else
    notes (Rebind context);;
    td ← gets libc_td;
    with_thread td context_tid;;
    bring_random;; bring_env;; init_ssp;; notes TableStreams;; notes Banner;; notes Profile;; notes MallocStart.

(** __libc_start_main up to main, whose arguments it answers. *)
Definition libc_start_main (sealing : bool) : M libc (Z * list Z * option (list Z)) :=
  okm_libc_init sealing;;
  in_boot (okm_take_args K);;
  b ← gets libc_boot;
  mret (g_argc b, g_argv_store b, environ b).
End bring_up.
