(* ===== verification/StartOk.v ===== *)
(** What the loops of the start do to the storage and the vectors: every text that was
    taken is in a block of its own, in order, and nothing else remains allocated but the
    name at which the taking of named values stopped. *)
From S2P Require Import Prelude Kal Start.
From stdpp Require Import gmap list option.
From Stdlib Require Import ZArith Lia.

#[local] Open Scope Z_scope.

(** ** The page *)

Lemma page_up_spec fuel k grain : 0 <= k < 64 -> k + Z.of_nat fuel = 65 -> 2 ^ k < 2 * grain ->
  exists p, page_up fuel (2 ^ k) grain = Some p /\
    ((exists j, p = 2 ^ j /\ k <= j < 64 /\ grain <= p < 2 * grain) \/ (p = 0 /\ 2 ^ 63 < grain)).
Proof.
  revert k. induction fuel as [|fuel IH]; intros k Hk Hf Hg; [lia|]. cbn [page_up].
  pose proof (Z.pow_pos_nonneg 2 k). replace (2 ^ k =? 0) with false by lia. cbn [negb andb].
  destruct (Z.ltb_spec (2 ^ k) grain) as [Hlt|Hge]; [|exists (2 ^ k); split; [done|]; left; exists k; lia].
  rewrite Z.shiftl_mul_pow2, Z.mul_comm, <-Z.pow_add_r by lia. destruct (decide (k = 63)) as [->|Hne].
  - destruct fuel; [lia|]. exists 0. split; [done|]. by right.
  - unfold wrap64. rewrite Z.mod_small by (split; [lia|apply Z.pow_lt_mono_r; lia]). rewrite (Z.add_comm 1 k).
    destruct (IH (k + 1)) as (p & -> & Hp); [lia..| |]; [rewrite Z.pow_add_r; lia|].
    exists p. split; [done|]. destruct Hp as [(j & -> & ? & ?)|?]; [left; exists j; lia|by right].
Qed.

(** ** The storage *)

Definition cblock (t : list Z) : list (option Z) := (Some <$> t) ++ [Some 0].

Definition fresh_heap (s : libc_start) : Prop := map_Forall (fun p _ => 0 < p <= granted s) (blocks s).

(** [s'] holds what [s] held and the blocks [ps], new and distinct, with the bytes [cs]. *)
Record grew (s s' : libc_start) (ps : list Z) (cs : list (list (option Z))) : Prop := {
  grew_blocks : blocks s' = list_to_map (zip ps cs) ∪ blocks s;
  grew_pairs : length ps = length cs;
  grew_new : Forall (fun p => granted s < p <= granted s') ps;
  grew_distinct : NoDup ps;
  grew_count : granted s <= granted s';
}.

Lemma fresh_next s p : fresh_heap s -> granted s < p -> blocks s !! p = None.
Proof. intros H Hp. destruct (blocks s !! p) eqn:E; [|done]. apply H in E. lia. Qed.

Lemma grew_refl s s' : blocks s' = blocks s -> granted s <= granted s' -> grew s s' [] [].
Proof. intros Hb H. split; [by rewrite Hb; cbn; rewrite (left_id_L ∅ (∪))|done|constructor|constructor|done]. Qed.

Lemma grew_cons s s1 s' p c ps cs : fresh_heap s -> granted s < p <= granted s1 -> blocks s1 = <[p := c]> (blocks s) ->
  grew s1 s' ps cs -> grew s s' (p :: ps) (c :: cs).
Proof.
  intros Hf Hp Hb [Hb' Hl Hn Hd Hc].
  assert (p ∉ ps) by (intros Hin; rewrite list.Forall_forall in Hn; specialize (Hn p Hin); lia). split.
  - cbn [zip zip_with list_to_map foldr fst snd]. rewrite Hb', Hb, <-insert_union_r, insert_union_l; [done|].
    apply not_elem_of_list_to_map_1. by rewrite fst_zip by lia.
  - cbn. lia.
  - constructor; [lia|]. eapply list.Forall_impl; [exact Hn|]. cbn. lia.
  - by constructor.
  - lia.
Qed.

Lemma fresh_grew s s1 p c : fresh_heap s -> granted s < p <= granted s1 -> 0 <= granted s -> blocks s1 = <[p := c]> (blocks s) -> fresh_heap s1.
Proof.
  intros Hf Hp H0 Hb q b. rewrite Hb. destruct (decide (p = q)) as [->|]; [lia|]. rewrite lookup_insert_ne by done.
  intros Hq%Hf. lia.
Qed.

Lemma fresh_same s s' : fresh_heap s -> blocks s' = blocks s -> granted s <= granted s' -> fresh_heap s'.
Proof. intros Hf Hb Hg p b. rewrite Hb. intros Hp%Hf. lia. Qed.

Lemma grew_lookup s s' ps cs j p c : grew s s' ps cs -> ps !! j = Some p -> cs !! j = Some c -> blocks s' !! p = Some c.
Proof.
  intros [-> Hl _ Hd _] Hp Hc. apply lookup_union_Some_l, elem_of_list_to_map; [by rewrite fst_zip by lia|].
  apply list_elem_of_lookup. exists j. apply lookup_zip_with_Some. eauto.
Qed.

Lemma grew_keeps s s' ps cs p c : fresh_heap s -> grew s s' ps cs -> blocks s !! p = Some c -> blocks s' !! p = Some c.
Proof.
  intros Hf [-> Hl Hn _ _] Hp. rewrite lookup_union_r; [done|]. apply not_elem_of_list_to_map_1. rewrite fst_zip by lia.
  intros Hin. rewrite list.Forall_forall in Hn. specialize (Hn p Hin). apply Hf in Hp. lia.
Qed.

Lemma grew_app s s1 s' ps cs ps' cs' : fresh_heap s -> grew s s1 ps cs -> grew s1 s' ps' cs' -> grew s s' (ps ++ ps') (cs ++ cs').
Proof.
  intros Hf [Hb Hl Hn Hd Hc] [Hb' Hl' Hn' Hd' Hc'].
  assert (forall p, p ∈ ps -> p ∈ ps' -> False) as Hdis.
  { rewrite list.Forall_forall in Hn, Hn'. intros p H%Hn H'%Hn'. lia. }
  split.
  - rewrite zip_with_app by done. rewrite list_to_map_app, Hb', Hb, (assoc_L (∪)). f_equal. apply map_union_comm.
    apply map_disjoint_spec. intros p c c' H1%elem_of_list_to_map_2 H2%elem_of_list_to_map_2.
    apply elem_of_zip_l in H1, H2. eauto.
  - rewrite !length_app. lia.
  - apply Forall_app. split; eapply list.Forall_impl; try eassumption; cbn; lia.
  - apply list.NoDup_app. split_and!; [done| |done]. eauto.
  - lia.
Qed.

(** ** The operations on it *)

Lemma runs_alloc K n s (Q : Z -> libc_start -> Prop) :
  (grants K (granted s) = true -> Q (granted s + 1) (with_blocks s (<[granted s + 1 := replicate (Z.to_nat n) None]> (blocks s)) (granted s + 1))) ->
  (grants K (granted s) = false -> Q 0 (with_blocks s (blocks s) (granted s + 1))) -> runs (kal_alloc K n) s Q.
Proof. intros H1 H2. unfold runs, kal_alloc. destruct (grants K (granted s)); eauto. Qed.

Lemma runs_write p off bs b b' s (Q : () -> libc_start -> Prop) : blocks s !! p = Some b -> splice b off bs = Some b' ->
  Q () (with_blocks s (<[p := b']> (blocks s)) (granted s)) -> runs (write_at p off bs) s Q.
Proof. intros Hb Hs. apply runs_put_try. by rewrite Hb; cbn; rewrite Hs. Qed.

Lemma runs_free p n b s (Q : () -> libc_start -> Prop) : blocks s !! p = Some b -> Z.of_nat (length b) = n ->
  Q () (with_blocks s (delete p (blocks s)) (granted s)) -> runs (kal_free p n) s Q.
Proof. intros Hb Hn. apply runs_put_try. rewrite Hb. cbn. by replace (_ =? n) with true by lia. Qed.

(** A block filled from its start: [k] bytes remain unwritten. *)
Definition filled (t : list Z) (k : nat) : list (option Z) := (Some <$> t) ++ replicate k None.

Lemma splice_filled t k off bs : off = Z.of_nat (length t) -> (length bs <= k)%nat -> splice (filled t k) off bs = Some (filled (t ++ bs) (k - length bs)).
Proof.
  intros -> Hk. unfold splice, filled. rewrite length_app, length_fmap, length_replicate. replace (0 <=? _) with true by lia.
  replace (_ <=? _) with true by lia. cbn [andb]. f_equal. rewrite Nat2Z.id, take_app_le, take_ge by (rewrite length_fmap; lia).
  rewrite fmap_app, <-(assoc_L (++)). do 2 f_equal. rewrite drop_app_ge by (rewrite length_fmap; lia). rewrite length_fmap, drop_replicate. f_equal. lia.
Qed.

Lemma filled_0 t : filled t 0 = Some <$> t.
Proof. apply (right_id_L [] (++)). Qed.

Lemma cblock_filled t : filled (t ++ [0]) 0 = cblock t.
Proof. by rewrite filled_0, fmap_app. Qed.

Lemma splice_last t k : splice (filled t (S k)) (Z.of_nat (length t + k)) [0] = Some (filled t k ++ [Some 0]).
Proof.
  assert (filled t (S k) = filled t k ++ [None]) as ->.
  { unfold filled. by rewrite <-(assoc_L (++)), <-replicate_S_end. }
  assert (length (filled t k) = length t + k)%nat as Hl by (unfold filled; by rewrite length_app, length_fmap, length_replicate).
  unfold splice. rewrite length_app, Hl. cbn [length]. replace (0 <=? _) with true by lia. replace (_ <=? _) with true by lia.
  cbn [andb]. rewrite Nat2Z.id. f_equal. rewrite take_app_length' by done. f_equal.
  by rewrite drop_ge by (rewrite length_app, Hl; cbn; lia).
Qed.

(** ** What openkal documents of a text it copies *)

(** As many bytes are put as the text has and the buffer takes, none on an error. *)
Definition polite (ask : Z -> Z * list Z) : Prop :=
  forall cap, 0 <= cap -> Z.of_nat (length (ask cap).2) = Z.min (Z.max 0 (ask cap).1) cap.

Definition careful (K : kal_answers) : Prop :=
  (forall i, polite (kal_env_arg K i)) /\ (forall i, polite (kal_env_var_at K i)) /\ (forall n, polite (kal_env_var K n)).

(** Why a loop stops before the last text: an error, an answer that changed, no storage. *)
Definition refused (K : kal_answers) (ask : Z -> Z * list Z) : Prop :=
  (ask 0).1 < 0 \/ (ask (ask 0).1).1 <> (ask 0).1 \/ exists n, grants K n = false.

(** [t] is what openkal answers, twice the same. *)
Definition answered (ask : Z -> Z * list Z) (t : list Z) : Prop := ask (Z.of_nat (length t)) = (Z.of_nat (length t), t).

Lemma polite_answered ask len t : polite ask -> 0 <= len -> ask len = (len, t) -> Z.of_nat (length t) = len /\ answered ask t.
Proof. intros Hp Hl E. assert (Z.of_nat (length t) = len) as Ht by (specialize (Hp len Hl); rewrite E in Hp; cbn in Hp; lia). unfold answered. by rewrite Ht. Qed.

Lemma polite_fits ask len : polite ask -> 0 <= len -> Z.of_nat (length (ask len).2) <= len.
Proof. intros Hp Hl. rewrite (Hp len Hl). lia. Qed.

(** ** The arguments *)

(** What the loop leaves from argument [i] on: the vector continued by [ps], whose blocks
    hold the texts [ts] as openkal gave them; it stopped at the end or where it must. *)
Record args_taken (K : kal_answers) (s s' : libc_start) (i : Z) (ps : list Z) (ts : list (list Z)) : Prop := {
  at_vector : g_argv_store s' = list_inserts (Z.to_nat i) ps (g_argv_store s);
  at_count : g_argc s' = i + Z.of_nat (length ps);
  at_bound : g_argc s' <= 255;
  at_grew : grew s s' ps (cblock <$> ts);
  at_texts : forall j t, ts !! j = Some t -> i + Z.of_nat j < kal_env_arg_count K /\ answered (kal_env_arg K (i + Z.of_nat j)) t;
  at_end : g_argc s' = Z.max i (Z.min (kal_env_arg_count K) 255) \/ g_argc s' < kal_env_arg_count K /\ refused K (kal_env_arg K (g_argc s'));
  at_envp : g_envp_store s' = g_envp_store s;
}.

Lemma args_stop K s s' i : g_argv_store s' = g_argv_store s -> g_argc s' = i -> i <= 255 -> blocks s' = blocks s -> granted s <= granted s' ->
  g_envp_store s' = g_envp_store s -> g_argc s' = Z.max i (Z.min (kal_env_arg_count K) 255) \/ i < kal_env_arg_count K /\ refused K (kal_env_arg K i) -> args_taken K s s' i [] [].
Proof. intros Hv <- Hb Hm Hg He Hend. split; try done; [cbn; lia|by apply grew_refl]. Qed.

Lemma args_cons K s s1 s' i p t ps ts : fresh_heap s -> 0 <= i < 255 -> i < kal_env_arg_count K ->
  answered (kal_env_arg K i) t -> granted s < p <= granted s1 -> blocks s1 = <[p := cblock t]> (blocks s) ->
  g_argv_store s1 = <[Z.to_nat i := p]> (g_argv_store s) -> g_envp_store s1 = g_envp_store s ->
  args_taken K s1 s' (i + 1) ps ts -> args_taken K s s' i (p :: ps) (t :: ts).
Proof.
  intros Hf Hi Hc Ht Hp Hb Hv He [Hv' Hc' Hb' Hg' Ht' Hend' He']. split.
  - rewrite Hv', Hv. cbn [list_inserts]. rewrite list_insert_inserts_lt by lia. f_equal. lia.
  - cbn [length]. lia.
  - done.
  - rewrite fmap_cons. by apply (grew_cons s s1).
  - intros [|j] u; cbn; [intros [= <-]; by rewrite Z.add_0_r|]. intros Hj%Ht'. by replace (i + Z.of_nat (S j)) with (i + 1 + Z.of_nat j) by lia.
  - destruct Hend' as [Hend'|]; [left; lia|by right].
  - by rewrite He'.
Qed.

Lemma args_loop_ok K fuel i s : careful K -> fresh_heap s -> 0 <= granted s -> 0 <= i <= 255 -> 256 <= i + Z.of_nat fuel -> g_argc s = i ->
  length (g_argv_store s) = 256%nat -> runs (args_loop K fuel i) s (fun _ s' => exists ps ts, args_taken K s s' i ps ts).
Proof.
  intros (Hpol & _). revert i s. induction fuel as [|fuel IH]; intros i s Hf H0 Hi Hfuel Hargc Hlen; [lia|]. cbn [args_loop].
  apply runs_bind, runs_gets. rewrite Hargc. destruct ((i <? _) && (i <? 255)) eqn:Etest; boolean.
  2: { apply runs_ret. exists [], []. apply args_stop; try done; [lia|]. left. lia. }
  assert (i < kal_env_arg_count K /\ i < 255) as [Hic Hi255] by lia. set (ask := kal_env_arg K i). set (len := (ask 0).1). destruct (Z.ltb_spec len 0) as [Hneg|Hpos].
  { apply runs_ret. exists [], []. apply args_stop; try done; [lia|]. right. split; [done|]. by left. }
  apply runs_bind, runs_alloc; intros Hgr.
  2: { cbn. apply runs_ret. exists [], []. apply args_stop; try done; [lia|cbn; lia|]. right. split; [done|]. right. right. eauto. }
  replace (granted s + 1 =? 0) with false by lia. set (p := granted s + 1). destruct (ask len) as [again bs] eqn:E.
  pose proof (polite_fits ask len (Hpol i) Hpos) as Hbs. rewrite E in Hbs. cbn in Hbs. apply runs_bind.
  apply (runs_write p 0 bs (filled [] (Z.to_nat (len + 1))) (filled bs (Z.to_nat (len + 1) - length bs)));
    [apply lookup_insert_eq|apply splice_filled; [done|lia]|].
  destruct (again =? len) eqn:Ea; boolean; cbn [negb].
  - subst again. destruct (polite_answered ask len bs (Hpol i) Hpos E) as [Hl Hans]. apply runs_bind.
    eapply (runs_write p len [0]); [apply lookup_insert_eq|apply splice_filled; [done|cbn; lia]|].
    replace (_ - length [0])%nat with 0%nat by (cbn; lia). rewrite cblock_filled. apply runs_bind.
    eapply runs_put_try; [cbn [g_argv_store with_blocks]; by rewrite set_at_some by lia|]. apply runs_bind, runs_modify.
    eapply runs_mono; [apply IH; cbn; try done; try lia; [|by rewrite length_insert]|].
    { eapply (fresh_grew s _ p); [done|cbn; lia|done|]. cbn. rewrite !insert_insert_eq. reflexivity. }
    cbn. intros _ s' (ps & ts & Ht). exists (p :: ps), (bs :: ts). eapply args_cons; [..|exact Ht]; cbn; try done; try lia.
    by rewrite !insert_insert_eq.
  - eapply runs_free; [apply lookup_insert_eq| |].
    + unfold filled. rewrite length_app, length_fmap, length_replicate. lia.
    + exists [], []. apply args_stop; try done; cbn; [lia| |lia|].
      * rewrite !insert_insert_eq. rewrite delete_insert_id; [done|]. apply fresh_next; [done|lia].
      * right. split; [done|]. right. left. change ((ask len).1 <> len). by rewrite E.
Qed.

(** ** The named values *)

(** The block of a named value: its name, an equals sign and what openkal put of its value
    into the room for it. *)
Definition var_room (K : kal_answers) (name : list Z) : Z := if (kal_env_var K name 0).1 <? 0 then 0 else (kal_env_var K name 0).1.
Definition var_value (K : kal_answers) (name : list Z) : list Z := if var_room K name =? 0 then [] else (kal_env_var K name (var_room K name)).2.
Definition var_cell (K : kal_answers) (name : list Z) : list (option Z) :=
  filled (name ++ [61] ++ var_value K name) (Z.to_nat (var_room K name) - length (var_value K name)) ++ [Some 0].

Lemma var_value_fits K name : careful K -> Z.of_nat (length (var_value K name)) <= var_room K name.
Proof.
  intros (_ & _ & Hp). assert (0 <= var_room K name) by (unfold var_room; split_if; lia).
  unfold var_value. split_if; [cbn; lia|]. by apply polite_fits.
Qed.

(** As [args_taken], from the named value [i] on; [lost] is the name whose storage is not
    given back where the loop must stop. *)
Record vars_taken (K : kal_answers) (s s' : libc_start) (i r : Z) (ps lost : list Z) (cs lcs : list (list (option Z))) : Prop := {
  vt_vector : g_envp_store s' = list_inserts (Z.to_nat i) ps (g_envp_store s);
  vt_count : r = i + Z.of_nat (length ps);
  vt_bound : r <= 511;
  vt_grew : grew s s' (ps ++ lost) (cs ++ lcs);
  vt_pairs : length ps = length cs;
  vt_texts : forall j c, cs !! j = Some c -> i + Z.of_nat j < kal_env_var_count K /\ exists name, answered (kal_env_var_at K (i + Z.of_nat j)) name /\ c = var_cell K name;
  vt_end : r = Z.max i (Z.min (kal_env_var_count K) 511) /\ lost = [] \/ (r < kal_env_var_count K /\ refused K (kal_env_var_at K r)) /\ (length lost <= 1)%nat;
  vt_args : g_argv_store s' = g_argv_store s /\ g_argc s' = g_argc s /\ progname s' = progname s /\ progname_full s' = progname_full s;
}.

Lemma vars_stop K s m n i lost lcs : i <= 511 -> grew s (with_blocks s m n) lost lcs ->
  i = Z.max i (Z.min (kal_env_var_count K) 511) /\ lost = [] \/ (i < kal_env_var_count K /\ refused K (kal_env_var_at K i)) /\ (length lost <= 1)%nat ->
  vars_taken K s (with_blocks s m n) i i [] lost [] lcs.
Proof. intros Hb Hg Hend. split; try done. cbn; lia. Qed.

(** The only block gained is the one asked for. *)
Lemma grew_one s m n p c : fresh_heap s -> granted s < p <= n -> m = <[p := c]> (blocks s) -> grew s (with_blocks s m n) [p] [c].
Proof. intros Hf Hp ->. eapply (grew_cons s (with_blocks s (<[p := c]> (blocks s)) n)); [done..|]. by apply grew_refl. Qed.

Lemma vars_cons K s s1 s' i r p name ps lost cs lcs : fresh_heap s -> 0 <= i < 511 -> i < kal_env_var_count K ->
  answered (kal_env_var_at K i) name -> granted s < p <= granted s1 -> blocks s1 = <[p := var_cell K name]> (blocks s) ->
  g_envp_store s1 = <[Z.to_nat i := p]> (g_envp_store s) ->
  g_argv_store s1 = g_argv_store s /\ g_argc s1 = g_argc s /\ progname s1 = progname s /\ progname_full s1 = progname_full s ->
  vars_taken K s1 s' (i + 1) r ps lost cs lcs -> vars_taken K s s' i r (p :: ps) lost (var_cell K name :: cs) lcs.
Proof.
  intros Hf Hi Hc Hn Hp Hb Hv Ha [Hv' Hc' Hb' Hg' Hl' Ht' Hend' Ha']. split.
  - rewrite Hv', Hv. cbn [list_inserts]. rewrite list_insert_inserts_lt by lia. f_equal. lia.
  - cbn [length]. lia.
  - done.
  - cbn [app]. by apply (grew_cons s s1).
  - cbn [length]. lia.
  - intros [|j] u; cbn; [intros [= <-]; rewrite Z.add_0_r; eauto|].
    intros Hj%Ht'. by replace (i + Z.of_nat (S j)) with (i + 1 + Z.of_nat j) by lia.
  - destruct Hend' as [[? ?]|]; [left; split; [lia|done]|by right].
  - intuition congruence.
Qed.

(** The writes that make a named value's block, and the release of its name. *)
Lemma vars_entry {A} K name p q m s (k : M libc_start A) (Q : A -> libc_start -> Prop) : careful K ->
  let have := var_room K name in let nlen := Z.of_nat (length name) in
  p <> q -> blocks s = <[q := replicate (Z.to_nat (nlen + have + 2)) None]> (<[p := cblock name]> m) -> m !! p = None ->
  runs k (with_blocks s (<[q := var_cell K name]> m) (granted s)) Q ->
  runs (write_at q 0 name;; write_at q nlen [61];; when (negb (have =? 0)) (write_at q (nlen + 1) (kal_env_var K name have).2);;
        write_at q (nlen + 1 + have) [0];; kal_free p (nlen + 1);; k) s Q.
Proof.
  intros HK have nlen Hpq Hb Hm HQ. assert (0 <= have) by (unfold have, var_room; split_if; lia).
  pose proof (var_value_fits K name HK) as Hfit. fold have in Hfit.
  apply runs_bind. eapply (runs_write q 0 name (filled [] _)); [rewrite Hb; apply lookup_insert_eq|apply splice_filled; [done|lia]|]. rewrite app_nil_l.
  apply runs_bind. eapply (runs_write q nlen [61]); [apply lookup_insert_eq|apply splice_filled; [done|cbn; lia]|]. apply runs_bind.
  assert (forall s1, blocks s1 = <[q := filled (name ++ [61] ++ var_value K name) (S (Z.to_nat have - length (var_value K name)))]> (<[p := cblock name]> m) ->
    with_blocks s1 (blocks s1) (granted s1) = with_blocks s (blocks s1) (granted s) ->
    runs (write_at q (nlen + 1 + have) [0];; kal_free p (nlen + 1);; k) s1 Q) as Hrest.
  { intros s1 Hb1 Hs1. apply runs_bind. eapply (runs_write q (nlen + 1 + have) [0]).
    - rewrite Hb1. apply lookup_insert_eq.
    - replace (nlen + 1 + have) with (Z.of_nat (length (name ++ [61] ++ var_value K name) + (Z.to_nat have - length (var_value K name)))) by (rewrite !length_app; cbn; lia).
      apply splice_last.
    - apply runs_bind. eapply runs_free; [cbn; rewrite lookup_insert_ne, Hb1, lookup_insert_ne by done; apply lookup_insert_eq|unfold cblock; rewrite length_app, length_fmap; cbn; lia|].
      cbn. rewrite Hb1, insert_insert_eq, delete_insert_ne, delete_insert_id by done.
      destruct s1, s. unfold with_blocks in *. cbn in *. injection Hs1 as -> -> -> -> -> -> -> ->. exact HQ. }
  unfold when. destruct (have =? 0) eqn:E0; boolean; cbn [negb].
  - assert (var_value K name = []) as Hv by (unfold var_value; fold have; by rewrite E0).
    apply runs_ret, Hrest; [|done]. cbn. rewrite Hb, !insert_insert_eq, Hv. do 2 f_equal. cbn. lia.
  - assert (var_value K name = (kal_env_var K name have).2) as Hv by (unfold var_value; fold have; by replace (have =? 0) with false by lia).
    rewrite <-Hv. eapply (runs_write q (nlen + 1)); [apply lookup_insert_eq|apply splice_filled; [rewrite length_app; cbn; lia|cbn; lia]|].
    apply Hrest; [|done]. cbn. rewrite Hb, !insert_insert_eq, <-(assoc_L (++)). do 2 f_equal. cbn. lia.
Qed.

Lemma with_blocks_twice s m n m' n' : with_blocks (with_blocks s m n) m' n' = with_blocks s m' n'.
Proof. done. Qed.

Lemma vars_loop_ok K fuel i s : careful K -> fresh_heap s -> 0 <= granted s -> 0 <= i <= 511 -> 512 <= i + Z.of_nat fuel ->
  length (g_envp_store s) = 512%nat -> runs (vars_loop K fuel i i) s (fun r s' => exists ps lost cs lcs, vars_taken K s s' i r ps lost cs lcs).
Proof.
  intros HK. pose proof HK as (_ & Hpol & _). revert i s. induction fuel as [|fuel IH]; intros i s Hf H0 Hi Hfuel Hlen; [lia|]. cbn [vars_loop].
  assert (s = with_blocks s (blocks s) (granted s)) as Hs by (by destruct s).
  destruct ((i <? _) && (i <? 511)) eqn:Etest; boolean.
  2: { apply runs_ret. exists [], [], [], []. rewrite Hs at 2. apply vars_stop; [lia|by apply grew_refl|]. left. split; [lia|done]. }
  set (ask := kal_env_var_at K i). set (nlen := (ask 0).1). destruct (Z.ltb_spec nlen 0) as [Hneg|Hpos].
  { apply runs_ret. exists [], [], [], []. rewrite Hs at 2. apply vars_stop; [lia|by apply grew_refl|]. right. split; [split; [done|by left]|cbn; lia]. }
  apply runs_bind, runs_alloc; intros Hgr.
  2: { cbn. apply runs_ret. exists [], [], [], []. apply vars_stop; [lia|apply grew_refl; cbn; [done|lia]|]. right. split; [split; [done|by right; right; eauto]|cbn; lia]. }
  replace (granted s + 1 =? 0) with false by lia. set (p := granted s + 1). destruct (ask nlen) as [again bs] eqn:E.
  pose proof (polite_fits ask nlen (Hpol i) Hpos) as Hbs. rewrite E in Hbs. cbn in Hbs. apply runs_bind.
  apply (runs_write p 0 bs (filled [] (Z.to_nat (nlen + 1))) (filled bs (Z.to_nat (nlen + 1) - length bs)));
    [apply lookup_insert_eq|apply splice_filled; [done|lia]|]. cbn [blocks granted with_blocks]. rewrite with_blocks_twice, insert_insert_eq.
  destruct (again =? nlen) eqn:Ea; boolean; cbn [negb].
  2: { apply runs_ret. exists [], [p], [], [filled bs (Z.to_nat (nlen + 1) - length bs)]. apply vars_stop; [lia|apply grew_one; [done|lia|done]|].
       right. split; [|done]. split; [done|]. right. left. change ((ask nlen).1 <> nlen). by rewrite E. }
  subst again. destruct (polite_answered ask nlen bs (Hpol i) Hpos E) as [Hl Hans]. apply runs_bind.
  eapply (runs_write p nlen [0]); [apply lookup_insert_eq|apply splice_filled; [done|cbn; lia]|].
  replace (_ - length [0])%nat with 0%nat by (cbn; lia). rewrite cblock_filled. cbn [blocks granted with_blocks]. rewrite with_blocks_twice, insert_insert_eq.
  fold (var_room K bs). apply runs_bind, runs_alloc; cbn [blocks granted with_blocks]; rewrite with_blocks_twice; intros Hgr2.
  2: { cbn. apply runs_ret. exists [], [p], [], [cblock bs]. apply vars_stop; [lia|apply grew_one; [done|lia|done]|]. right. split; [split; [done|by right; right; eauto]|done]. }
  replace (p + 1 =? 0) with false by lia. rewrite <-Hl.
  apply (vars_entry K bs p (p + 1) (blocks s)); [done|lia|done|apply fresh_next; [done|lia]|]. cbn [blocks granted with_blocks].
  apply runs_bind. eapply runs_put_try; [cbn [g_envp_store with_blocks]; by rewrite set_at_some by lia|]. cbn.
  eapply runs_mono; [apply IH; cbn; try done; try lia; [|by rewrite length_insert]|].
  { eapply (fresh_grew s _ (p + 1)); [done|cbn; lia|done|reflexivity]. }
  cbn. intros r s' (ps & lost & cs & lcs & Ht). exists (p + 1 :: ps), lost, (var_cell K bs :: cs), lcs. eapply vars_cons; [..|exact Ht]; cbn; try done; lia.
Qed.

(** ** The strings in the blocks *)

(** What a C string says of the bytes [t]: those before the first zero. *)
Fixpoint cut (t : list Z) : list Z := match t with c :: t' => if c =? 0 then [] else c :: cut t' | [] => [] end.

Lemma cstring_bytes t b : cstring ((Some <$> t) ++ Some 0 :: b) = Some (cut t).
Proof. induction t as [|c t IH]; [done|]. cbn. destruct (c =? 0); [done|]. by rewrite IH. Qed.

Lemma cut_whole t : Forall (fun c => c <> 0) t -> cut t = t.
Proof. induction 1 as [|c t Hc _ IH]; [done|]. cbn. replace (c =? 0) with false by lia. by rewrite IH. Qed.

(** The place after the last slash. *)
Lemma after_slash_spec t q from : 0 <= from <= q ->
  let k := after_slash t q from in
  from <= k <= q + Z.of_nat (length t) /\ (k = from /\ 47 ∉ t \/ q < k /\ t !! Z.to_nat (k - q - 1) = Some 47 /\ 47 ∉ drop (Z.to_nat (k - q)) t).
Proof.
  revert q from. induction t as [|c t IH]; intros q from Hq; cbn [after_slash length]; [split; [lia|left; split; [done|apply not_elem_of_nil]]|].
  destruct (IH (q + 1) (if c =? 47 then q + 1 else from)) as [Hb Hk]; [split_if; lia|]. cbn zeta. set (k := after_slash _ _ _) in *.
  split; [destruct (c =? 47); lia|]. destruct Hk as [[Hk Hno]|(Hk & Hat & Hno)].
  - destruct (Z.eqb_spec c 47) as [->|Hc].
    + right. rewrite Hk. replace (q + 1 - q - 1) with 0 by lia. replace (q + 1 - q) with 1 by lia. split_and!; [lia|done|done].
    + left. split; [done|]. rewrite elem_of_cons. naive_solver.
  - right. split; [lia|]. replace (Z.to_nat (k - q - 1)) with (S (Z.to_nat (k - (q + 1) - 1))) by lia.
    replace (Z.to_nat (k - q)) with (S (Z.to_nat (k - (q + 1)))) by lia. by split.
Qed.

(** ** The vectors *)

(** After okm_take_args: the vector ends in a null pointer, the texts are where it points,
    and the name of the program is what follows the last slash of the first. *)
Record args_ready (K : kal_answers) (s s' : libc_start) (ps : list Z) (ts : list (list Z)) : Prop := {
  ar_vector : g_argv_store s' = <[length ps := 0]> (list_inserts 0 ps (g_argv_store s));
  ar_count : g_argc s' = Z.of_nat (length ps);
  ar_bound : g_argc s' <= 255;
  ar_grew : grew s s' ps (cblock <$> ts);
  ar_texts : forall j t, ts !! j = Some t -> Z.of_nat j < kal_env_arg_count K /\ answered (kal_env_arg K (Z.of_nat j)) t;
  ar_end : g_argc s' = Z.max 0 (Z.min (kal_env_arg_count K) 255) \/ g_argc s' < kal_env_arg_count K /\ refused K (kal_env_arg K (g_argc s'));
  ar_envp : g_envp_store s' = g_envp_store s;
  ar_progname : match ps, ts with
    | p :: _, t :: _ => progname_full s' = Inside p 0 /\ progname s' = Inside p (after_slash (cut t) 0 0)
    | _, _ => progname_full s' = Literal /\ progname s' = Literal
    end;
}.

Lemma take_args_ok K s : careful K -> fresh_heap s -> 0 <= granted s -> length (g_argv_store s) = 256%nat ->
  runs (okm_take_args K) s (fun _ s' => exists ps ts, args_ready K s s' ps ts).
Proof.
  intros HK Hf H0 Hlen. unfold okm_take_args. apply runs_bind, runs_modify, runs_bind. eapply runs_mono; [apply args_loop_ok; cbn; done|].
  cbn. intros _ s1 (ps & ts & [Hv Hc Hb Hg Ht Hend He]). cbn in Hv, He. rewrite Z.add_0_l in Hc. apply runs_bind, runs_gets, runs_bind.
  assert (grew s s1 ps (cblock <$> ts)) as Hgrew by (destruct Hg as [? ? ? ? ?]; split; done).
  eapply runs_put_try; [rewrite set_at_some by (rewrite Hv, length_inserts, Hlen; lia); reflexivity|]. cbn. rewrite Hc, Nat2Z.id.
  unfold take_progname. apply runs_bind, runs_gets, runs_bind. cbn [g_argc with_args].
  pose proof (grew_pairs _ _ _ _ Hgrew) as Hpairs. rewrite length_fmap in Hpairs.
  destruct ps as [|p ps], ts as [|t ts]; try done; cbn [length] in *.
  - cbn. apply runs_ret, runs_bind. eapply runs_try; [done|]. apply runs_modify. exists [], []. split; cbn; try done; first [by rewrite Hv|by destruct Hgrew|by rewrite <-Hc].
  - replace (Z.of_nat (S _) =? 0) with false by lia. cbn [negb]. apply runs_bind. eapply runs_try.
    { unfold at_. cbn. rewrite Hv. rewrite list_lookup_insert_ne by lia. by rewrite list_lookup_inserts by (cbn; rewrite ?Hlen; lia). }
    cbn [Nat.sub lookup]. apply runs_ret, runs_bind. eapply runs_try.
    { cbn. rewrite (grew_lookup _ _ _ _ 0 p (cblock t) Hgrew) by done. cbn. apply cstring_bytes. }
    apply runs_modify. exists (p :: ps), (t :: ts). split; cbn; try done; first [by rewrite Hv|by destruct Hgrew|by rewrite <-Hc].
Qed.

(** After __okm_init_env, the same of the named values; the vector is what the program
    reads as its environment. *)
Record env_ready (K : kal_answers) (s er_mid s' : libc_start) (ps qs lost : list Z) (ts : list (list Z)) (cs lcs : list (list (option Z))) : Prop := {
  er_args : args_ready K s er_mid ps ts;
  er_vars : vars_taken K er_mid (with_envp s' (list_inserts 0 qs (g_envp_store s)) (environ er_mid)) 0 (Z.of_nat (length qs)) qs lost cs lcs;
  er_vector : g_envp_store s' = <[length qs := 0]> (list_inserts 0 qs (g_envp_store s));
  er_environ : environ s' = Some (g_envp_store s');
}.

Lemma init_env_ok K s : careful K -> fresh_heap s -> 0 <= granted s -> length (g_argv_store s) = 256%nat -> length (g_envp_store s) = 512%nat ->
  runs (okm_init_env K) s (fun _ s' => exists s1 ps qs lost ts cs lcs, env_ready K s s1 s' ps qs lost ts cs lcs).
Proof.
  intros HK Hf H0 Hla Hle. unfold okm_init_env. apply runs_bind. eapply runs_mono; [by apply take_args_ok|]. intros _ s1 (ps & ts & Ha). cbn beta.
  pose proof (ar_grew _ _ _ _ _ Ha) as Hg. pose proof (ar_envp _ _ _ _ _ Ha) as He. apply runs_bind.
  eapply runs_mono; [apply vars_loop_ok; [done| |destruct Hg; lia|lia|lia|by rewrite He]|].
  { intros p c Hp. destruct Hg as [Hb Hl Hn Hd Hc]. rewrite Hb in Hp. apply lookup_union_Some_raw in Hp as [Hp|[_ Hp%Hf]]; [|lia].
    apply elem_of_list_to_map_2, elem_of_zip_l in Hp. rewrite list.Forall_forall in Hn. specialize (Hn p Hp). lia. }
  intros r s2 (qs & lost & cs & lcs & Hv). cbn beta. pose proof Hv as [Hvec Hcount Hbound _ _ _ _ _]. rewrite Z.add_0_l in Hcount. subst r. rewrite He in Hvec.
  apply runs_bind. eapply runs_put_try; [rewrite set_at_some by (rewrite Hvec, length_inserts, Hle; lia); reflexivity|]. apply runs_modify.
  exists s1, ps, qs, lost, ts, cs, lcs. rewrite Nat2Z.id. split; [done| |by cbn; rewrite Hvec|done].
  destruct Hv as [? ? ? [? ? ? ? ?] ? ? ? ?]. split; cbn; try done; by rewrite He.
Qed.
