(* ===== verification/StartTheorems.v ===== *)
(** What the start of a program promises: nothing outside a block is written and nothing is
    lost whatever openkal answers but one name where it must stop; the arguments and the
    named values read as the environment has them; a program started from a snapshot is
    brought up to the same state as one started directly. *)
From S2P Require Import Prelude Kal Region Start StartOk.
From stdpp Require Import gmap list option.
From Stdlib Require Import ZArith Lia.

#[local] Open Scope Z_scope.

(** The storage is as kal_alloc left it and the vectors have their sizes. *)
Record start_whole (s : libc_start) : Prop := {
  so_heap : fresh_heap s;
  so_count : 0 <= granted s;
  so_argv : length (g_argv_store s) = 256%nat;
  so_envp : length (g_envp_store s) = 512%nat;
}.

Lemma start_zero_ok : start_whole start_zero.
Proof. split; [apply map_Forall_empty|done..]. Qed.

(** A vector of pointers: [ps], none of them null, and then a null pointer. *)
Definition vector_is (l ps : list Z) : Prop := take (length ps) l = ps /\ l !! length ps = Some 0 /\ 0 ∉ ps.

Lemma vector_of (l ps : list Z) : (length ps < length l)%nat -> 0 ∉ ps -> vector_is (<[length ps := 0]> (list_inserts 0 ps l)) ps.
Proof.
  intros Hl Hps. split_and!; [|apply list_lookup_insert_eq; by rewrite length_inserts|done].
  apply list_eq. intros j. destruct (decide (j < length ps)%nat) as [Hj|Hj].
  - rewrite lookup_take_lt, list_lookup_insert_ne by lia. rewrite list_lookup_inserts by lia. by rewrite Nat.sub_0_r.
  - rewrite lookup_take_ge, lookup_ge_None_2 by lia. done.
Qed.

Lemma grew_nonnull s s' ps cs : 0 <= granted s -> grew s s' ps cs -> 0 ∉ ps.
Proof. intros H0 [_ _ Hn _ _] Hin. rewrite list.Forall_forall in Hn. specialize (Hn 0 Hin). lia. Qed.

Lemma grew_dom s s' ps cs p : grew s s' ps cs -> p ∈ dom (blocks s') <-> p ∈ ps \/ p ∈ dom (blocks s).
Proof.
  intros [-> Hl _ _ _]. rewrite dom_union_L, elem_of_union, dom_list_to_map_L, elem_of_list_to_set, fst_zip by lia. done.
Qed.

Section ready.
Context (K : kal_answers) (s s1 s' : libc_start) (ps qs lost : list Z) (ts : list (list Z)) (cs lcs : list (list (option Z))).
Context (Hs : start_whole s) (Hr : env_ready K s s1 s' ps qs lost ts cs lcs).

Lemma ready_grew : grew s s' (ps ++ qs ++ lost) ((cblock <$> ts) ++ cs ++ lcs).
Proof using Hs Hr.
  destruct Hr as [[_ _ _ Hg1 _ _ _ _] [_ _ _ Hg2 _ _ _ _] _ _]. apply (grew_app s s1); [apply Hs|done|].
  destruct Hg2 as [? ? ? ? ?]. by split.
Qed.

Lemma ready_argv : vector_is (g_argv_store s') ps /\ g_argc s' = Z.of_nat (length ps) /\ g_argc s' <= 255.
Proof using Hs Hr.
  destruct Hr as [[Hv Hc Hb Hg _ _ _ _] [_ _ _ _ _ _ _ (Hav & Hac & _)] _ _]. cbn in Hav, Hac. rewrite Hav, Hac, Hv. split; [|done].
  apply vector_of; [rewrite (so_argv s Hs); lia|]. apply (grew_nonnull s s1 ps (cblock <$> ts)); [apply Hs|done].
Qed.

Lemma ready_envp : environ s' = Some (g_envp_store s') /\ vector_is (g_envp_store s') qs /\ (length qs <= 511)%nat.
Proof using Hs Hr.
  destruct Hr as [_ [_ _ Hb Hg _ _ _ _] Hv He]. split; [done|]. split; [|lia]. rewrite Hv. apply vector_of; [rewrite (so_envp s Hs); lia|].
  pose proof (grew_nonnull s s' _ _ (so_count s Hs) ready_grew) as Hn. rewrite !elem_of_app in Hn. tauto.
Qed.

Lemma ready_arg j p t : ps !! j = Some p -> ts !! j = Some t -> string_at s' (Inside p 0) = Some (cut t).
Proof using Hs Hr.
  intros Hp Ht. cbn. pose proof ready_grew as Hg. pose proof (ar_grew _ _ _ _ _ (er_args _ _ _ _ _ _ _ _ _ _ Hr)) as Hg1.
  rewrite (grew_lookup s s' _ _ j p (cblock t) Hg); [apply cstring_bytes| |].
  - by apply lookup_app_l_Some.
  - apply lookup_app_l_Some. by rewrite list_lookup_fmap, Ht.
Qed.

Lemma ready_var j q c : qs !! j = Some q -> cs !! j = Some c -> blocks s' !! q = Some c.
Proof using Hs Hr.
  intros Hq Hc. destruct (er_vars _ _ _ _ _ _ _ _ _ _ Hr) as [_ _ _ Hg2 _ _ _ _].
  apply (grew_lookup _ _ _ _ j q c Hg2); by apply lookup_app_l_Some.
Qed.
End ready.

(** C20. Whatever openkal answers of the arguments and the named values, and whichever of its
    allocations it refuses, taking them returns: no byte outside a block is written and no
    block is freed that is not there. The vectors hold distinct blocks and end in a null
    pointer, within their 256 and 512 places; each argument is a terminated string. What was
    allocated is exactly what the vectors hold, and at most one name besides, which is lost
    where the taking stops at an answer that changed or at storage refused. *)
Theorem start_accounted K s : careful K -> start_whole s ->
  runs (okm_init_env K) s (fun _ s' => exists ps qs lost,
    vector_is (g_argv_store s') ps /\ g_argc s' = Z.of_nat (length ps) /\ g_argc s' <= 255 /\
    environ s' = Some (g_envp_store s') /\ vector_is (g_envp_store s') qs /\ (length qs <= 511)%nat /\
    Forall (fun p => is_Some (string_at s' (Inside p 0))) ps /\
    NoDup (ps ++ qs ++ lost) /\ (forall p, p ∈ dom (blocks s') <-> p ∈ ps ++ qs ++ lost \/ p ∈ dom (blocks s)) /\
    (lost = [] \/ length lost = 1%nat /\ refused K (kal_env_var_at K (Z.of_nat (length qs))))).
Proof.
  intros HK Hs. eapply runs_mono; [apply init_env_ok; by try apply Hs|].
  intros _ s' (s1 & ps & qs & lost & ts & cs & lcs & Hr). exists ps, qs, lost. pose proof (ready_grew K _ _ _ _ _ _ _ _ _ Hs Hr) as Hg.
  destruct (ready_argv K _ _ _ _ _ _ _ _ _ Hs Hr) as (? & ? & ?). destruct (ready_envp K _ _ _ _ _ _ _ _ _ Hs Hr) as (? & ? & ?). split_and!; try done.
  - apply Forall_lookup. intros j p Hp. pose proof (grew_pairs _ _ _ _ (ar_grew _ _ _ _ _ (er_args _ _ _ _ _ _ _ _ _ _ Hr))) as Hl. rewrite length_fmap in Hl.
    destruct (lookup_lt_is_Some_2 ts j) as [t Ht]; [apply lookup_lt_Some in Hp; lia|]. by rewrite (ready_arg K _ _ _ _ _ _ _ _ _ Hs Hr j p t).
  - apply Hg.
  - intros p. by apply (grew_dom s s' _ _ p Hg).
  - destruct (vt_end _ _ _ _ _ _ _ _ _ (er_vars _ _ _ _ _ _ _ _ _ _ Hr)) as [[_ ->]|[[_ Href] Hl]]; [by left|].
    destruct lost as [|q [|]]; [by left|right; by split|cbn in Hl; lia].
Qed.

(** ** What the environment has *)

Definition says (ask : Z -> Z * list Z) (t : list Z) : Prop := forall cap, 0 <= cap -> ask cap = (Z.of_nat (length t), take (Z.to_nat cap) t).

(** The value of a name: the first of that name. *)
Fixpoint value_of (vars : list (list Z * list Z)) (name : list Z) : option (list Z) :=
  match vars with
  | [] => None
  | (n, v) :: vars' => if bool_decide (n = name) then Some v else value_of vars' name
  end.

(** Bytes of C strings, and names that are not empty and have no equals sign. *)
Definition text (t : list Z) : Prop := Forall (fun c => c <> 0) t.
Definition var_name (n : list Z) : Prop := n <> [] /\ Forall (fun c => c <> 61) n.

(** openkal answers the arguments [args] and the named values [vars], always the same, and
    grants what is asked of it. *)
Record documented (K : kal_answers) (args : list (list Z)) (vars : list (list Z * list Z)) : Prop := {
  d_grants : forall n, grants K n = true;
  d_args : kal_env_arg_count K = Z.of_nat (length args);
  d_arg : forall i t, args !! i = Some t -> says (kal_env_arg K (Z.of_nat i)) t;
  d_vars : kal_env_var_count K = Z.of_nat (length vars);
  d_var_at : forall i n v, vars !! i = Some (n, v) -> says (kal_env_var_at K (Z.of_nat i)) n;
  d_var : forall n v, value_of vars n = Some v -> says (kal_env_var K n) v;
  d_text : Forall text args /\ Forall (fun '(n, v) => var_name n /\ text v) vars;
}.

(** The program reads that environment: the first 255 arguments in order, its own name, and
    by getenv the value of each of the first 511 names and of no other. *)
Record supplied (K : kal_answers) (args : list (list Z)) (vars : list (list Z * list Z)) (s : libc_start) : Prop := {
  su_argc : g_argc s = Z.of_nat (length (take 255 args));
  su_argv : forall i t, take 255 args !! i = Some t -> exists p, g_argv_store s !! i = Some p /\ p <> 0 /\ string_at s (Inside p 0) = Some t;
  su_null : g_argv_store s !! length (take 255 args) = Some 0;
  su_progname : (exists dir name, args !! 0%nat = Some (dir ++ name) /\ string_at s (progname s) = Some name /\ 47 ∉ name /\ (dir = [] \/ exists d, dir = d ++ [47]))
    \/ args = [] /\ string_at s (progname s) = Some [];
  su_getenv : forall name, var_name name -> exists q, getenv K false name s = Some (q, s) /\
    (if bool_decide (name ∈ (take 511 vars).*1) then string_at s q = value_of vars name else q = Inside 0 0);
}.

Lemma says_answered ask t u : says ask t -> answered ask u -> u = t.
Proof.
  intros Hs Hu. unfold answered in Hu. rewrite Hs in Hu by lia. injection Hu as Hl E. rewrite Nat2Z.id in E. rewrite <-E. apply take_ge. lia.
Qed.

Lemma says_refused K ask t : says ask t -> (forall n, grants K n = true) -> ~ refused K ask.
Proof. intros Hs Hg [H|[H|[n H]]]; [rewrite Hs in H by lia; cbn in H; lia| |congruence]. rewrite (Hs 0) in H by lia. cbn in H. rewrite Hs in H by lia. done. Qed.

(** What was taken, element by element and without a refusal, is the first [cap] of what there is. *)
Lemma taken_all {A B} (l : list A) (k : list B) (f : A -> B) cap : length k = Nat.min cap (length l) ->
  (forall j x, k !! j = Some x -> exists y, l !! j = Some y /\ x = f y) -> k = f <$> take cap l.
Proof.
  intros Hl H. apply list_eq. intros j. destruct (k !! j) as [x|] eqn:E.
  - destruct (H j x E) as (y & Hy & ->). apply lookup_lt_Some in E. by rewrite list_lookup_fmap, lookup_take_lt, Hy by lia.
  - apply lookup_ge_None in E. symmetry. apply lookup_ge_None. rewrite length_fmap, length_take. lia.
Qed.

Lemma entry_matches_spec name n rest : Forall (fun c => c <> 61) name -> Forall (fun c => c <> 61) n ->
  entry_matches name ((Some <$> n ++ [61]) ++ rest) = Some (bool_decide (name = n)).
Proof.
  intros Hname. revert n. induction Hname as [|a name Ha _ IH]; intros n Hn.
  - destruct Hn as [|c n Hc _]; [done|]. cbn. rewrite bool_decide_false by done. f_equal. lia.
  - destruct Hn as [|c n Hc Hn]; cbn; [by replace (a =? 61) with false by lia|]. destruct (Z.eqb_spec a c) as [->|Hne].
    + rewrite IH by done. f_equal. apply bool_decide_ext. naive_solver.
    + rewrite bool_decide_false by congruence. done.
Qed.

Lemma value_of_elem vars name : name ∈ vars.*1 -> is_Some (value_of vars name).
Proof.
  induction vars as [|[n v] vars IH]; cbn; [by intros ?%not_elem_of_nil|]. case_bool_decide; [done|].
  rewrite elem_of_cons. intros [->|?]; [done|auto].
Qed.

Lemma before_equals_whole name : Forall (fun c => c <> 61) name -> before_equals name = length name.
Proof. induction 1 as [|c name Hc _ IH]; [done|]. cbn. replace (c =? 61) with false by lia. by rewrite IH. Qed.

Section documented.
Context (K : kal_answers) (args : list (list Z)) (vars : list (list Z * list Z)) (Hd : documented K args vars).

(** The block of a named value the environment has. *)
Lemma var_cell_says n v : value_of vars n = Some v -> var_cell K n = cblock (n ++ [61] ++ v).
Proof using Hd.
  intros Hv. pose proof (d_var _ _ _ Hd n v Hv) as Hs. assert (var_room K n = Z.of_nat (length v)) as Hr.
  { unfold var_room. rewrite !(Hs 0) by lia. cbn [fst]. by replace (_ <? 0) with false by lia. }
  assert (var_value K n = v) as Hval.
  { unfold var_value. rewrite Hr. split_if; [by destruct v|]. rewrite Hs by lia. cbn. rewrite Nat2Z.id. by apply take_ge. }
  unfold var_cell. rewrite Hval, Hr, Nat2Z.id, Nat.sub_diag. by rewrite filled_0.
Qed.

(** The search of the vector's entries, whose blocks are those of the names [ns]. *)
Lemma search_entries_ok s name ns ps rest : var_name name -> Forall var_name ns -> (forall n, n ∈ ns -> is_Some (value_of vars n)) ->
  Forall2 (fun p n => p <> 0 /\ blocks s !! p = Some (var_cell K n)) ps ns ->
  exists q, search_entries name (ps ++ 0 :: rest) s = Some (q, s) /\
    (if bool_decide (name ∈ ns) then exists p, q = Inside p (Z.of_nat (length name) + 1) /\ blocks s !! p = Some (var_cell K name) else q = Inside 0 0).
Proof using Hd.
  intros [_ Hname] Hns Hval. induction 1 as [|p n ps ns [Hp Hb] Hps IH]; cbn [app search_entries].
  { exists (Inside 0 0). by rewrite bool_decide_false by apply not_elem_of_nil. }
  replace (p =? 0) with false by lia. inversion Hns as [|? ? [_ Hn] Hns']; subst. destruct (Hval n) as [v Hv]; [by left|].
  assert (entry_matches name (var_cell K n) = Some (bool_decide (name = n))) as Hm.
  { rewrite (var_cell_says n v Hv). unfold cblock. rewrite (assoc_L (++)), fmap_app, <-(assoc_L (++)). by apply entry_matches_spec. }
  erewrite bind_run; [|unfold try; rewrite Hb; cbn; by rewrite Hm]. case_bool_decide as Heq.
  - subst n. exists (Inside p (Z.of_nat (length name) + 1)). split; [done|]. rewrite bool_decide_true by left. eauto.
  - destruct IH as (q & Hq & Hqs); [done| |]. { intros m Hm'. apply Hval. by right. }
    exists q. split; [done|]. rewrite (bool_decide_ext (name ∈ n :: ns) (name ∈ ns)) by (rewrite elem_of_cons; naive_solver). done.
Qed.

Section supplied.
Context (s s1 s' : libc_start) (ps qs lost : list Z) (ts : list (list Z)) (cs lcs : list (list (option Z))).
Context (Hs : start_whole s) (Hr : env_ready K s s1 s' ps qs lost ts cs lcs).

Lemma ready_texts : ts = take 255 args.
Proof using Hd Hr.
  destruct Hr as [[_ Hc Hb Hg Ht Hend _ _] _ _ _]. pose proof (grew_pairs _ _ _ _ Hg) as Hl. rewrite length_fmap in Hl.
  rewrite (d_args _ _ _ Hd) in Hend. rewrite <-(list_fmap_id (take 255 args)). apply taken_all.
  - destruct Hend as [Hend|[Hlt Href]]; [lia|]. exfalso. rewrite Hc in Hlt, Href. destruct (lookup_lt_is_Some_2 args (length ps)) as [t Ha]; [lia|].
    by apply (says_refused K _ t (d_arg _ _ _ Hd _ t Ha)) in Href; [|apply Hd].
  - intros j t Hj. destruct (Ht j t Hj) as [Hlt Hans]. rewrite (d_args _ _ _ Hd) in Hlt. destruct (lookup_lt_is_Some_2 args j) as [u Hu]; [lia|].
    exists u. split; [done|]. by apply (says_answered _ u t (d_arg _ _ _ Hd _ u Hu)).
Qed.

Lemma ready_cells : cs = (fun e => var_cell K e.1) <$> take 511 vars.
Proof using Hd Hr.
  destruct Hr as [_ [_ Hc Hb Hg Hl Ht Hend _] _ _]. rewrite (d_vars _ _ _ Hd) in Hend. apply taken_all.
  - destruct Hend as [[Hend _]|[[Hlt Href] _]]; [lia|]. exfalso. destruct (lookup_lt_is_Some_2 vars (length qs)) as [[n v] Ha]; [lia|].
    by apply (says_refused K _ n (d_var_at _ _ _ Hd _ n v Ha)) in Href; [|apply Hd].
  - intros j c Hj. destruct (Ht j c Hj) as [Hlt (n & Hans & ->)]. rewrite (d_vars _ _ _ Hd) in Hlt. destruct (lookup_lt_is_Some_2 vars j) as [[m v] Hu]; [lia|].
    exists (m, v). split; [done|]. by rewrite (says_answered _ m n (d_var_at _ _ _ Hd _ m v Hu)).
Qed.

Lemma ready_arg_text j p t : ps !! j = Some p -> take 255 args !! j = Some t -> string_at s' (Inside p 0) = Some t.
Proof using Hd Hr Hs.
  rewrite <-ready_texts. intros Hp Ht. rewrite (ready_arg K _ _ _ _ _ _ _ _ _ Hs Hr j p t Hp Ht), cut_whole; [done|].
  rewrite ready_texts in Ht. apply lookup_take_Some in Ht as [Ht _]. destruct (d_text _ _ _ Hd) as [Hall _]. by apply (Forall_lookup_1 _ _ _ _ Hall Ht).
Qed.

Lemma ready_progname : (exists dir name, args !! 0%nat = Some (dir ++ name) /\ string_at s' (progname s') = Some name /\ 47 ∉ name /\ (dir = [] \/ exists d, dir = d ++ [47]))
  \/ args = [] /\ string_at s' (progname s') = Some [].
Proof using Hd Hr Hs.
  pose proof ready_texts as Hts. pose proof (ar_progname _ _ _ _ _ (er_args _ _ _ _ _ _ _ _ _ _ Hr)) as Hp.
  destruct (vt_args _ _ _ _ _ _ _ _ _ (er_vars _ _ _ _ _ _ _ _ _ _ Hr)) as (_ & _ & Hpn & _). cbn in Hpn. rewrite Hpn.
  pose proof (grew_pairs _ _ _ _ (ar_grew _ _ _ _ _ (er_args _ _ _ _ _ _ _ _ _ _ Hr))) as Hl. rewrite length_fmap in Hl.
  destruct ts as [|t ts'], ps as [|p ps']; try done.
  - right. destruct Hp as [_ ->]. by destruct args.
  - left. destruct Hp as [_ ->]. assert (args !! 0%nat = Some t) as Ha by (destruct args; [done|]; by injection Hts as ->).
    assert (cut t = t) as Hcut. { apply cut_whole. destruct (d_text _ _ _ Hd) as [Hall _]. by apply (Forall_lookup_1 _ _ _ _ Hall Ha). }
    pose proof (ready_grew K _ _ _ _ _ _ _ _ _ Hs Hr) as Hg. rewrite Hcut. destruct (after_slash_spec t 0 0) as [Hk Hcase]; [lia|]. cbn zeta in Hk, Hcase. set (k := after_slash t 0 0) in *.
    exists (take (Z.to_nat k) t), (drop (Z.to_nat k) t). rewrite take_drop. split; [done|]. split.
    { cbn. rewrite (grew_lookup s s' _ _ 0 p (cblock t) Hg) by done. cbn. unfold cblock. rewrite drop_app_le, <-fmap_drop by (rewrite length_fmap; lia).
      rewrite cstring_bytes. f_equal. rewrite <-Hcut at 2. rewrite cut_whole, cut_whole; [done|..]; destruct (d_text _ _ _ Hd) as [Hall _]; pose proof (Forall_lookup_1 _ _ _ _ Hall Ha) as Ht; [done|by apply Forall_drop]. }
    destruct Hcase as [[-> Hno]|(Hlt & Hat & Hno)]; [split; [done|by left]|]. rewrite !Z.sub_0_r in *. split; [done|]. right.
    exists (take (Z.to_nat (k - 1)) t). replace (Z.to_nat k) with (S (Z.to_nat (k - 1))) by lia. by apply take_S_r.
Qed.

Lemma ready_getenv name : var_name name -> exists q, getenv K false name s' = Some (q, s') /\
  (if bool_decide (name ∈ (take 511 vars).*1) then string_at s' q = value_of vars name else q = Inside 0 0).
Proof using Hd Hr Hs.
  intros Hn. destruct (ready_envp K _ _ _ _ _ _ _ _ _ Hs Hr) as (He & (Hv & Hnull & Hnz) & _). unfold getenv. rewrite before_equals_whole by apply Hn.
  rewrite Nat.eqb_refl. replace (Nat.eqb _ 0) with false by (destruct Hn as [Hn _]; by destruct name). cbn [negb andb].
  erewrite bind_run by reflexivity. rewrite He. pose proof (vt_pairs _ _ _ _ _ _ _ _ _ (er_vars _ _ _ _ _ _ _ _ _ _ Hr)) as Hl.
  destruct (search_entries_ok s' name (take 511 vars).*1 qs (drop (S (length qs)) (g_envp_store s'))) as (q & Hq & Hres); [done|..].
  - apply Forall_fmap, Forall_take. destruct (d_text _ _ _ Hd) as [_ Hall]. eapply list.Forall_impl; [exact Hall|]. by intros [n v] [? _].
  - intros n Hin. apply value_of_elem. rewrite <-(take_drop 511 vars), fmap_app. by apply elem_of_app; left.
  - apply Forall2_same_length_lookup. split; [rewrite Hl, ready_cells; by rewrite !length_fmap|]. intros j q n Hq Hj.
    split; [intros ->; apply Hnz; by apply list_elem_of_lookup_2 in Hq|]. apply (ready_var K _ _ _ _ _ _ _ _ _ Hs Hr j q _ Hq).
    rewrite ready_cells. apply list_lookup_fmap_Some in Hj as (e & -> & Hej). by rewrite list_lookup_fmap, Hej.
  - exists q. assert (g_envp_store s' = qs ++ 0 :: drop (S (length qs)) (g_envp_store s')) as Heq.
    { rewrite <-(take_drop_middle _ _ _ Hnull) at 1. by rewrite Hv. }
    split; [rewrite Heq; by rewrite Hq|]. case_bool_decide as Hin; [|done]. destruct Hres as (p & -> & Hp). destruct (value_of_elem vars name) as [v Hval].
    { rewrite <-(take_drop 511 vars), fmap_app. by apply elem_of_app; left. }
    rewrite Hval. cbn. rewrite Hp. cbn. rewrite (var_cell_says name v Hval). unfold cblock. rewrite (assoc_L (++)), fmap_app, <-(assoc_L (++)).
    rewrite drop_app_length' by (rewrite length_fmap, length_app; cbn; lia). rewrite cstring_bytes, cut_whole; [done|].
    destruct (d_text _ _ _ Hd) as [_ Hall]. clear -Hall Hval. induction Hall as [|[m u] vars' [_ Hu] _ IH]; [done|]. cbn in Hval. case_bool_decide; [by injection Hval as <-|auto].
Qed.

Lemma ready_supplied : supplied K args vars s'.
Proof using Hd Hr Hs.
  destruct (ready_argv K _ _ _ _ _ _ _ _ _ Hs Hr) as ((Hv & Hnull & Hnz) & Hc & _).
  pose proof (grew_pairs _ _ _ _ (ar_grew _ _ _ _ _ (er_args _ _ _ _ _ _ _ _ _ _ Hr))) as Hl. rewrite length_fmap, ready_texts in Hl. split.
  - by rewrite Hc, Hl.
  - intros i t Ht. destruct (lookup_lt_is_Some_2 ps i) as [p Hp]; [rewrite Hl; by apply lookup_lt_Some in Ht|]. exists p. split_and!.
    + rewrite <-Hv in Hp. apply lookup_take_Some in Hp. tauto.
    + intros ->. apply Hnz. by apply list_elem_of_lookup_2 in Hp.
    + by apply (ready_arg_text i).
  - by rewrite <-Hl.
  - apply ready_progname.
  - apply ready_getenv.
Qed.
End supplied.
End documented.

(** Taking the arguments and the named values supplies them. *)
Lemma init_env_supplies K args vars s : careful K -> documented K args vars -> start_whole s -> runs (okm_init_env K) s (fun _ s' => supplied K args vars s').
Proof.
  intros HK Hd Hs. eapply runs_mono; [apply init_env_ok; by try apply Hs|].
  intros _ s' (s1 & ps & qs & lost & ts & cs & lcs & Hr). by apply (ready_supplied K args vars Hd s s1 s' ps qs lost ts cs lcs).
Qed.

(** An environment made of lists: what openkal documents, for any of them. *)
Definition said (t : list Z) (cap : Z) : Z * list Z := (Z.of_nat (length t), take (Z.to_nat cap) t).
Definition unsaid (cap : Z) : Z * list Z := (-1, []).
Definition environment (grants : Z -> bool) (args : list (list Z)) (vars : list (list Z * list Z)) : kal_answers :=
  KalAnswers grants (Z.of_nat (length args)) (fun i => from_option said unsaid (at_ args i))
    (Z.of_nat (length vars)) (fun i => from_option (fun e => said e.1) unsaid (at_ vars i)) (fun n => from_option said unsaid (value_of vars n)).

Lemma said_polite t : polite (said t).
Proof. intros cap Hcap. cbn. rewrite length_take. lia. Qed.

Lemma unsaid_polite : polite unsaid.
Proof. intros cap Hcap. cbn. lia. Qed.

Lemma at_of_nat {A} (l : list A) i : at_ l (Z.of_nat i) = l !! i.
Proof. unfold at_. replace (0 <=? _) with true by lia. by rewrite Nat2Z.id. Qed.

Lemma environment_careful grants args vars : careful (environment grants args vars).
Proof. split_and!; intros i; cbn; destruct (_ : option _); cbn; auto using said_polite, unsaid_polite. Qed.

Lemma environment_documented args vars : Forall text args -> Forall (fun '(n, v) => var_name n /\ text v) vars ->
  documented (environment (fun _ => true) args vars) args vars.
Proof.
  intros Ha Hv. split; try done; cbn.
  - intros i t Ht cap Hcap. by rewrite at_of_nat, Ht.
  - intros i n v Hn cap Hcap. by rewrite at_of_nat, Hn.
  - intros n v Hn cap Hcap. by rewrite Hn.
Qed.

(** [/b/c x], and [A=BC]. *)
Definition small_args : list (list Z) := [[47; 98; 47; 99]; [120]].
Definition small_vars : list (list Z * list Z) := [([65], [66; 67])].
Definition small : kal_answers := environment (fun _ => true) small_args small_vars.

Lemma small_documented : documented small small_args small_vars.
Proof. apply environment_documented; repeat constructor; done. Qed.

Lemma start_accounted_witness : runs (okm_init_env (environment (fun n => negb (n =? 3)) small_args small_vars)) start_zero (fun _ s' => exists ps qs lost,
    vector_is (g_argv_store s') ps /\ g_argc s' = Z.of_nat (length ps) /\ g_argc s' <= 255 /\
    environ s' = Some (g_envp_store s') /\ vector_is (g_envp_store s') qs /\ (length qs <= 511)%nat /\
    Forall (fun p => is_Some (string_at s' (Inside p 0))) ps /\
    NoDup (ps ++ qs ++ lost) /\ (forall p, p ∈ dom (blocks s') <-> p ∈ ps ++ qs ++ lost \/ p ∈ dom (blocks start_zero)) /\
    (lost = [] \/ length lost = 1%nat /\ refused (environment (fun n => negb (n =? 3)) small_args small_vars)
      (kal_env_var_at (environment (fun n => negb (n =? 3)) small_args small_vars) (Z.of_nat (length qs))))).
Proof. apply start_accounted; [apply environment_careful|apply start_zero_ok]. Defined.

(** Where the storage of the value is refused the name's is kept: block 3 is in neither
    vector. *)
Example name_lost : exists s', okm_init_env (environment (fun n => negb (n =? 3)) small_args small_vars) start_zero = Some ((), s') /\
  take 3 (g_argv_store s') = [1; 2; 0] /\ g_envp_store s' = replicate 512 0 /\ blocks s' !! 3 = Some (cblock [65]).
Proof. eexists. split; [vm_compute; reflexivity|]. by vm_compute. Qed.

(** C17. A program reads the environment it was started with: argc and argv are its first
    255 arguments in order, each copied whole, and a null pointer; the program's name is
    what follows the last slash of the first; and getenv of any name answers the value the
    environment has of it, for each of the first 511 names, and of no other name. *)
Theorem environment_read K args vars s : careful K -> documented K args vars -> start_whole s ->
  runs (okm_init_env K) s (fun _ s' => supplied K args vars s').
Proof. apply init_env_supplies. Qed.

Lemma environment_read_witness : runs (okm_init_env small) start_zero (fun _ s' => supplied small small_args small_vars s').
Proof. apply environment_read; [apply environment_careful|apply small_documented|apply start_zero_ok]. Defined.

(** ** The page *)

Lemma page_some g : 0 <= g < 2 ^ 64 -> exists p k, take_page_size g = Some p /\ p = 2 ^ k /\ 12 <= k < 64 /\
  (g <= 2 ^ 63 -> g <= p /\ (p = 4096 \/ p < 2 * g)).
Proof.
  intros Hg. unfold take_page_size. destruct (Z.ltb_spec g 4096) as [Hlt|Hge]; [exists 4096, 12; split_and!; [done|done|lia|lia|lia]|].
  destruct (Z.land g (g - 1) =? 0) eqn:E; boolean; cbn [negb].
  - apply land_pred_pow2 in E as E2; [|lia]. exists g, (Z.log2 g). split_and!; [done|done| | |lia].
    + apply Z.log2_le_pow2; lia.
    + apply Z.log2_lt_pow2; lia.
  - destruct (page_up_spec 53 12 g) as (p & Hp & Hcase); [lia..|]. change (2 ^ 12) with 4096 in Hp. rewrite Hp. cbn. destruct Hcase as [(j & -> & Hj & Hb)|[-> Hb]].
    + pose proof (Z.pow_pos_nonneg 2 j). replace (2 ^ j =? 0) with false by lia. exists (2 ^ j), j. split_and!; [done|done|lia|lia|lia].
    + exists 4096, 12. split_and!; [done|done|lia|lia|lia].
Qed.

(** The loop of okm_region.c and this one take a page the same way. *)
Lemma page_up_double n m p g r : page_up n p g = Some r -> double_until (n + m) p g = r.
Proof.
  revert p. induction n as [|n IH]; intros p; cbn [page_up Nat.add]; [done|]. cbn [double_until]. rewrite Z.shiftl_mul_pow2 by lia. change (2 ^ 1) with 2.
  destruct (Z.eqb_spec p 0), (Z.ltb_spec p g), (Z.leb_spec g p); cbn [negb andb orb]; try lia; try (by intros [= <-]). apply IH.
Qed.

Lemma page_size_grain g : 0 <= g < 2 ^ 64 -> take_page_size g = Some (grain g).
Proof.
  intros Hg. destruct (page_some g Hg) as (p & k & Hp & _). rewrite Hp. f_equal. unfold take_page_size in Hp. unfold grain, has.
  destruct (g <? 4096); [congruence|]. destruct (negb _); [|congruence]. destruct (page_up 53 4096 g) as [r|] eqn:E; [|done]. cbn in Hp.
  rewrite (page_up_double 53 11 4096 g r E : double_until 64 4096 g = r). destruct (r =? 0); cbn in Hp; congruence.
Qed.

(** The page the library reports is a power of two of at least 4096 bytes; whatever
    granularity openkal answers up to half the address space, it is the least such that the
    granularity fits in; and it is the page okm_region.c rounds memory to. *)
Theorem page_size_exact g : 0 <= g < 2 ^ 64 -> exists p k, take_page_size g = Some p /\ p = grain g /\ p = 2 ^ k /\ 12 <= k < 64 /\
  (g <= 2 ^ 63 -> g <= p /\ forall j, 12 <= j -> g <= 2 ^ j -> p <= 2 ^ j).
Proof.
  intros Hg. destruct (page_some g Hg) as (p & k & Hp & -> & Hk & H). exists (2 ^ k), k. split; [done|]. split; [rewrite (page_size_grain g Hg) in Hp; congruence|].
  do 2 (split; [done|]). intros [Hle Hleast]%H. split; [done|].
  intros j Hj Hgj. apply Z.pow_le_mono_r; [lia|]. destruct Hleast as [Hleast|Hleast].
  - change 4096 with (2 ^ 12) in Hleast. apply Z.pow_inj_r in Hleast; lia.
  - assert (2 ^ k < 2 ^ (j + 1)) as Hlt by (rewrite Z.pow_add_r; lia). apply Z.pow_lt_mono_r_iff in Hlt; lia.
Qed.

Lemma page_size_exact_witness : exists p k, take_page_size 5000 = Some p /\ p = grain 5000 /\ p = 2 ^ k /\ 12 <= k < 64 /\
  (5000 <= 2 ^ 63 -> 5000 <= p /\ forall j, 12 <= j -> 5000 <= 2 ^ j -> p <= 2 ^ j).
Proof. apply page_size_exact. lia. Defined.

(** ** Bringing the library up *)

(** The record is aligned, and in memory of the size __init_tls reckons. *)
Lemma copy_tls_fits k mem : 0 <= k <= 32 -> 0 <= mem -> mem + 16 + 2 ^ k < 2 ^ 64 ->
  copy_tls (2 ^ k) mem mod 2 ^ k = 0 /\ mem + 16 <= copy_tls (2 ^ k) mem < mem + 16 + 2 ^ k.
Proof.
  intros Hk Hm Hb. pose proof (Z.pow_pos_nonneg 2 k). unfold copy_tls. rewrite (wrap64_small (mem + 16)) by lia. rewrite land_low by lia. set (a := mem + 16).
  assert (wrap64 (- a) mod 2 ^ k = (- a) mod 2 ^ k) as ->.
  { apply Z.mod_mod_divide. exists (2 ^ (64 - k)). rewrite <-Z.pow_add_r by lia. f_equal. lia. }
  pose proof (Z.mod_pos_bound (- a) (2 ^ k)). rewrite wrap64_small by lia. split; [|lia].
  pose proof (Z.div_mod (- a) (2 ^ k)). replace (a + (- a) mod 2 ^ k) with ((- (- a / 2 ^ k)) * 2 ^ k) by lia. apply Z.mod_mul. lia.
Qed.

(** The library is up, in the place [P] and with that environment: what the auxiliary vector
    says, the random bytes of these clocks, the first context's record where there is room
    for it and numbered as the context is, the arguments and the named values. *)
Record brought_up (K : kal_answers) (P : start_place) (args : list (list Z)) (vars : list (list Z * list Z)) (l : libc) : Prop := {
  bu_up : g_libc_up l = true;
  bu_page : take_page_size (granularity P) = Some (libc_page_size l);
  bu_auxv : g_auxv l = [6; libc_page_size l; 25; at_random P; 0; 0; 0];
  bu_random : g_random l = fill_random (wall P) (monotonic P) (at_random P);
  bu_guard : exists before after, libc_calls l = before ++ StackGuard (g_random l) :: after;
  bu_thread : libc_td l = copy_tls (pthread_align P) (builtin_tls P) /\ libc_tid l = context_tid P /\ libc_tid l <> 0;
  bu_supplied : supplied K args vars (libc_boot l);
}.

(** The parts of the library that are initialised, and what asks for what the start supplies. *)
Definition initialises (c : start_call) : bool := match c with TableMemory | TableStreams | Banner | Profile | MallocInit | StackGuard _ | SetThreadPointer _ => true | _ => false end.
Definition start_supplies (c : start_call) : bool := match c with AsksClocks | AsksVars | TableStreams | Banner | StackGuard _ | Profile => true | _ => false end.

(** The same addresses and machine, at the start that uses the snapshot. *)
Definition at_start (P : start_place) (w m c : Z) : start_place := StartPlace (at_random P) (builtin_tls P) (pthread_size P) (pthread_align P) w m (granularity P) c.

(** What the program's initialisers leave: their own storage in place of [libc_boot]. *)
Definition with_boot (l : libc) (b : libc_start) : libc :=
  Libc (g_libc_up l) (libc_page_size l) (g_auxv l) (g_random l) (libc_tls_size l) (libc_td l) (libc_tid l) b (libc_calls l).

Lemma context_tid_nonzero P : context_tid P <> 0.
Proof. unfold context_tid. split_if; lia. Qed.

Lemma runs_boot e l (Q : () -> libc -> Prop) : runs e (libc_boot l) (fun _ b => Q () (with_boot l b)) -> runs (in_boot e) l Q.
Proof. intros (x & b & He & HQ). exists (), (with_boot l b). split; [|done]. unfold in_boot. by rewrite He. Qed.

(** Steps that only set fields or note a call. *)
Ltac bring :=
  unfold init_ssp, bring_random, bring_auxv, bring_env, bring_page_size, init_tls, with_thread, notes;
  repeat (lazymatch goal with
  | |- runs (_ ≫= _) _ _ => apply runs_bind
  | |- runs (modify _) _ _ => apply runs_modify
  | |- runs (gets _) _ _ => apply runs_gets
  | |- runs (try _) _ _ => eapply runs_try; [eassumption|]
  end; cbn [g_libc_up libc_page_size g_auxv g_random libc_tls_size libc_td libc_tid libc_boot libc_calls with_boot app]).

Section bring_up_ok.
Context (K : kal_answers) (P : start_place) (args : list (list Z)) (vars : list (list Z * list Z)).
Context (HK : careful K) (Hd : documented K args vars) (Hg : 0 <= granularity P < 2 ^ 64).

Lemma libc_init_direct l : g_libc_up l = false -> start_whole (libc_boot l) -> libc_calls l = [] ->
  runs (okm_libc_init K P false) l (fun _ l' => brought_up K P args vars l' /\
    libc_calls l' = [AsksClocks; AsksVars; SetThreadPointer (libc_td l'); StackGuard (g_random l'); TableMemory; TableStreams; Banner; Profile; MallocInit]).
Proof using HK Hd Hg.
  intros Hup Hs Hc. destruct (page_some _ Hg) as (p & _ & Hp & _). unfold okm_libc_init. apply runs_bind, runs_gets. rewrite Hup. bring.
  apply runs_boot. eapply runs_mono; [by apply init_env_supplies|]. intros [] b Hb. bring. rewrite Hc. split; [|done]. split; cbn; try done.
  - exists [AsksClocks; AsksVars; SetThreadPointer (copy_tls (pthread_align P) (builtin_tls P))], [TableMemory; TableStreams; Banner; Profile; MallocInit]. done.
  - split_and!; [done|done|apply context_tid_nonzero].
Qed.

Lemma libc_init_sealed l : g_libc_up l = false -> libc_calls l = [] ->
  runs (okm_libc_init K P true) l (fun _ l1 => libc_boot l1 = libc_boot l /\ g_libc_up l1 = true /\ take_page_size (granularity P) = Some (libc_page_size l1) /\
    g_auxv l1 = [6; libc_page_size l1; 25; at_random P; 0; 0; 0] /\ libc_td l1 = copy_tls (pthread_align P) (builtin_tls P) /\
    libc_calls l1 = [SetThreadPointer (libc_td l1); TableMemory; MallocInit]).
Proof using Hg.
  intros Hup Hc. destruct (page_some _ Hg) as (p & _ & Hp & _). unfold okm_libc_init, okm_libc_memory. apply runs_bind, runs_gets. rewrite Hup. bring. by rewrite Hc.
Qed.

(** A second bringing-up does nothing. *)
Lemma libc_init_once sealing l : g_libc_up l = true -> okm_libc_init K P sealing l = Some ((), l).
Proof. intros Hup. unfold okm_libc_init. rewrite (bind_run _ _ l (g_libc_up l) l) by done. by rewrite Hup. Qed.
End bring_up_ok.

(** C22. A program started from a snapshot is brought up as one started directly. Directly,
    the library comes up with the environment's arguments and named values, the page, the
    random bytes and the first context's number. For a snapshot the first phase asks for
    nothing the start supplies and leaves the program's storage alone; whatever storage the
    initialisers then make, and whenever and on whatever context it is started, the second
    phase leaves the same as a direct start there and then; and between them each part of
    the library is initialised as often as directly, once. *)
Theorem snapshot_as_direct K P args vars l b w m c context : careful K -> documented K args vars -> 0 <= granularity P < 2 ^ 64 ->
  g_libc_up l = false -> libc_calls l = [] -> start_whole (libc_boot l) -> start_whole b ->
  exists direct sealed started,
    okm_libc_init K (at_start P w m c) false l = Some ((), direct) /\
    okm_libc_init K P true l = Some ((), sealed) /\
    snapshot_start K (at_start P w m c) 2 context (with_boot sealed b) = Some ((), started) /\
    brought_up K (at_start P w m c) args vars direct /\ brought_up K (at_start P w m c) args vars started /\
    libc_boot sealed = libc_boot l /\ Forall (fun x => start_supplies x = false) (libc_calls sealed) /\
    List.filter initialises (libc_calls started) ≡ₚ List.filter initialises (libc_calls direct) /\
    okm_libc_init K (at_start P w m c) false started = Some ((), started).
Proof.
  intros HK Hd Hg Hup Hc Hs Hb. set (P' := at_start P w m c).
  destruct (libc_init_direct K P' args vars HK Hd Hg l Hup Hs Hc) as ([] & direct & Hdir & Hbu & Hdc).
  destruct (libc_init_sealed K P Hg l Hup Hc) as ([] & sealed & Hseal & Hboot & Hup1 & Hpage & Haux & Htd & Hsc).
  assert (runs (snapshot_start K P' 2 context) (with_boot sealed b) (fun _ l2 => brought_up K P' args vars l2 /\
    libc_calls l2 = libc_calls sealed ++ [Rebind context; AsksClocks; AsksVars; StackGuard (g_random l2); TableStreams; Banner; Profile; MallocStart])) as ([] & started & Hst & Hbs & Hstc).
  { unfold snapshot_start. cbn [Z.eqb Pos.eqb negb]. bring. apply runs_boot. eapply runs_mono; [by apply init_env_supplies|]. intros [] b' Hb'. bring.
    rewrite <-!(assoc_L (++)). split; [|done]. split; cbn; try done.
    - eexists (libc_calls sealed ++ [_; _; _]), _. by rewrite <-(assoc_L (++)).
    - split_and!; [done|done|apply context_tid_nonzero]. }
  exists direct, sealed, started. split_and!; try done.
  - rewrite Hsc. repeat constructor.
  - rewrite Hstc, Hsc, Hdc. cbn. pose proof (bu_thread _ _ _ _ _ Hbu) as (-> & _). rewrite Htd. cbn.
    rewrite (bu_random _ _ _ _ _ Hbu), (bu_random _ _ _ _ _ Hbs). change (copy_tls (pthread_align P') (builtin_tls P')) with (copy_tls (pthread_align P) (builtin_tls P)).
    constructor. solve_Permutation.
  - apply libc_init_once. apply Hbs.
Qed.

Definition place_zero : start_place := StartPlace 0x5000 0x6000 256 16 7 9 4096 1.
Definition libc_zero : libc := Libc false 0 [] [] 0 0 0 start_zero [].

Lemma snapshot_as_direct_witness : exists direct sealed started,
    okm_libc_init small (at_start place_zero 11 12 3) false libc_zero = Some ((), direct) /\
    okm_libc_init small place_zero true libc_zero = Some ((), sealed) /\
    snapshot_start small (at_start place_zero 11 12 3) 2 1 (with_boot sealed start_zero) = Some ((), started) /\
    brought_up small (at_start place_zero 11 12 3) small_args small_vars direct /\ brought_up small (at_start place_zero 11 12 3) small_args small_vars started /\
    libc_boot sealed = libc_boot libc_zero /\ Forall (fun x => start_supplies x = false) (libc_calls sealed) /\
    List.filter initialises (libc_calls started) ≡ₚ List.filter initialises (libc_calls direct) /\
    okm_libc_init small (at_start place_zero 11 12 3) false started = Some ((), started).
Proof. apply snapshot_as_direct; [apply environment_careful|apply small_documented|cbn; lia|done|done|apply start_zero_ok..]. Defined.

(** ** getenv while a snapshot's initialisers run *)

(** The table holds names, and the storage of the values they have. *)
Definition asked_ok (vars : list (list Z * list Z)) (s : libc_start) : Prop := Forall (fun '(p, len, v) => exists name,
  len = Z.of_nat (length name) /\ blocks s !! p = Some (cblock name) /\ forall value, value_of vars name = Some value -> blocks s !! v = Some (cblock value)) (g_asked s).

Lemma block_bytes_cblock s p name : blocks s !! p = Some (cblock name) -> block_bytes s p (Z.of_nat (length name)) = Some name.
Proof.
  intros Hp. unfold block_bytes. rewrite Hp. cbn. unfold cblock. rewrite Nat2Z.id, take_app_length' by (by rewrite length_fmap).
  clear. induction name as [|c name IH]; [done|]. cbn. by rewrite IH.
Qed.

Lemma asked_for_name_ok vars s name : asked_ok vars s ->
  exists r, asked_for_name name (g_asked s) s = Some (r, s) /\ forall v value, r = Some v -> value_of vars name = Some value -> blocks s !! v = Some (cblock value).
Proof.
  unfold asked_ok. induction 1 as [|[[p len] v] l (n & -> & Hp & Hv) _ IH]; cbn [asked_for_name]; [by exists None|].
  destruct (Z.eqb_spec (Z.of_nat (length n)) (Z.of_nat (length name))) as [Hl|]; [|done].
  erewrite bind_run; [|unfold try; by rewrite (block_bytes_cblock s p n Hp)]. case_bool_decide as E; [|done]. subst n. exists (Some v).
  split; [done|]. intros ? value [= <-]. apply Hv.
Qed.

(** The first of a table that has the name is what is found. *)
Lemma asked_for_name_last s name l p v : asked_for_name name l s = Some (None, s) -> blocks s !! p = Some (cblock name) ->
  asked_for_name name (l ++ [(p, Z.of_nat (length name), v)]) s = Some (Some v, s).
Proof.
  intros Hl Hp. induction l as [|[[q len] u] l IH]; cbn [asked_for_name app] in *.
  - rewrite Z.eqb_refl. erewrite bind_run; [|unfold try; by rewrite (block_bytes_cblock s p name Hp)]. by rewrite bool_decide_true.
  - destruct (len =? _); [|auto]. unfold mbind, M_bind in *. destruct (try _ s) as [[held s1]|] eqn:E; [|done].
    assert (s1 = s) as -> by (unfold try in E; destruct (block_bytes s q len); [by injection E|done]). case_bool_decide; [done|auto].
Qed.

Lemma asked_for_name_keeps s s' name l r : (forall p c, blocks s !! p = Some c -> blocks s' !! p = Some c) ->
  asked_for_name name l s = Some (r, s) -> asked_for_name name l s' = Some (r, s').
Proof.
  intros Hk. induction l as [|[[q len] u] l IH]; cbn [asked_for_name]; [intros E; by injection E as <-|].
  destruct (len =? _); [|auto]. unfold mbind, M_bind, try, block_bytes. destruct (blocks s !! q) as [c|] eqn:E; [|done]. rewrite (Hk q c E). cbn.
  destruct (mapM _ _); [|done]. cbn. case_bool_decide; [intros Hr; by injection Hr as <-|auto].
Qed.

(** A block written whole: the text and its terminator. *)
Lemma runs_dup {A} p t s m (k : M libc_start A) (Q : A -> libc_start -> Prop) : blocks s = <[p := replicate (Z.to_nat (Z.of_nat (length t) + 1)) None]> m ->
  runs k (with_blocks s (<[p := cblock t]> m) (granted s)) Q -> runs (write_at p 0 t;; write_at p (Z.of_nat (length t)) [0];; k) s Q.
Proof.
  intros Hb Hk. apply runs_bind. eapply (runs_write p 0 t (filled [] _)); [rewrite Hb; apply lookup_insert_eq|apply splice_filled; [done|lia]|]. rewrite app_nil_l.
  apply runs_bind. eapply (runs_write p _ [0]); [apply lookup_insert_eq|apply splice_filled; [done|cbn; lia]|].
  replace (_ - length [0])%nat with 0%nat by (cbn; lia). rewrite cblock_filled. cbn. rewrite Hb, !insert_insert_eq. exact Hk.
Qed.

(** While a snapshot's initialisers run, getenv of a name answers the value the
    environment has of it, and the table stays as it must; a second asking answers the same
    storage and changes nothing, for as long as the table has room. *)
Theorem sealed_value_kept K args vars s name value : careful K -> documented K args vars -> start_whole s -> asked_ok vars s ->
  (length (g_asked s) < 64)%nat -> value_of vars name = Some value ->
  runs (sealing_getenv K name) s (fun p s' => p <> 0 /\ string_at s' (Inside p 0) = Some (cut value) /\ asked_ok vars s' /\ start_whole s' /\
    sealing_getenv K name s' = Some (p, s')).
Proof.
  intros HK Hd Hs Hok Hroom Hval. destruct (asked_for_name_ok vars s name Hok) as (r & Hr & Hhit). unfold sealing_getenv at 1. apply runs_bind, runs_gets.
  apply runs_bind. exists r, s. split; [done|]. destruct r as [v|].
  { apply runs_ret. specialize (Hhit v value eq_refl Hval). split_and!; try done.
    - intros ->. apply (so_heap s Hs) in Hhit. lia.
    - cbn. rewrite Hhit. apply cstring_bytes.
    - unfold sealing_getenv. erewrite bind_run by reflexivity. by erewrite bind_run by done. }
  pose proof (d_var _ _ _ Hd name value Hval) as Hsays. rewrite (Hsays 0) by lia. cbn [fst]. replace (0 <=? _) with true by lia. rewrite Hsays by lia.
  pose proof (so_count s Hs) as H0. rewrite Nat2Z.id, take_ge, Z.eqb_refl by done. cbn [negb when]. apply runs_bind, runs_bind, runs_alloc; [|by rewrite (d_grants _ _ _ Hd)].
  intros _. replace (granted s + 1 =? 0) with false by lia. set (v := granted s + 1).
  eapply runs_bind, (runs_write v 0 value (filled [] _)); [apply lookup_insert_eq|apply splice_filled; [done|lia]|]. rewrite app_nil_l.
  apply runs_bind, runs_ret, runs_bind. eapply (runs_write v _ [0]); [apply lookup_insert_eq|apply splice_filled; [done|cbn; lia]|].
  replace (_ - length [0])%nat with 0%nat by (cbn; lia). rewrite cblock_filled. cbn [blocks granted with_blocks]. rewrite !with_blocks_twice, !insert_insert_eq.
  apply runs_ret, runs_bind. replace (_ <? 64) with true by lia. apply runs_alloc; cbn [blocks granted with_blocks]; [intros _|by rewrite (d_grants _ _ _ Hd)].
  rewrite with_blocks_twice. set (q := v + 1). replace (q =? 0) with false by lia. cbn [negb when].
  apply runs_bind, (runs_dup q name _ (<[v := cblock value]> (blocks s))); [done|]. apply runs_modify, runs_ret. cbn [blocks granted with_blocks with_asked].
  set (s' := with_asked _ _). assert (blocks s' = <[q := cblock name]> (<[v := cblock value]> (blocks s))) as Hb by done.
  assert (forall p c, blocks s !! p = Some c -> blocks s' !! p = Some c) as Hkeep.
  { intros p c Hp. pose proof (so_heap s Hs p c Hp) as Hpn. cbn in Hpn. rewrite Hb, !lookup_insert_ne by lia. done. }
  assert (blocks s' !! v = Some (cblock value)) as Hv by (rewrite Hb, lookup_insert_ne by lia; apply lookup_insert_eq).
  assert (blocks s' !! q = Some (cblock name)) as Hq by (rewrite Hb; apply lookup_insert_eq).
  assert (asked_ok vars s') as Hok'.
  { unfold asked_ok. cbn [g_asked with_asked s']. apply Forall_app. split.
    - eapply list.Forall_impl; [exact Hok|]. intros [[p len] u] (n & Hl & Hp & Hu). exists n. split_and!; auto.
    - constructor; [|constructor]. exists name. split_and!; [done|done|]. intros ? E. rewrite Hval in E. by injection E as <-. }
  split_and!; [lia|cbn [string_at]; rewrite Hv; apply cstring_bytes|done| |].
  - split; [|cbn; lia|apply Hs|apply Hs]. intros p c. rewrite Hb. destruct (decide (p = q)) as [->|]; [cbn; lia|]. destruct (decide (p = v)) as [->|]; [cbn; lia|].
    rewrite !lookup_insert_ne by done. intros Hp%(so_heap s Hs). cbn. lia.
  - unfold sealing_getenv. erewrite bind_run by reflexivity. rewrite (bind_run _ _ s' (Some v) s'); [done|]. cbn [g_asked with_asked s']. apply asked_for_name_last; [|done].
    by apply (asked_for_name_keeps s).
Qed.

Lemma sealed_value_kept_witness : runs (sealing_getenv small [65]) start_zero (fun p s' => p <> 0 /\ string_at s' (Inside p 0) = Some (cut [66; 67]) /\
  asked_ok small_vars s' /\ start_whole s' /\ sealing_getenv small [65] s' = Some (p, s')).
Proof. apply (sealed_value_kept small small_args small_vars); [apply environment_careful|apply small_documented|apply start_zero_ok|constructor|cbn; lia|done]. Defined.
