(* ===== verification/Image.v ===== *)
(** An image's own symbols (port/src/image/okm_image.c, port/src/okm_phdr.c): where the
    image is, a symbol by the hash table the linker made, the symbol an address is in, the
    program headers; and a file read whole. What the linker and the loader put in memory is
    the record [image]; a read of what they did not put there has no answer. *)
From S2P Require Import Prelude Kal.
From stdpp Require Import base list option.
From Stdlib Require Import ZArith Lia.

#[local] Open Scope Z_scope.

Definition PT_LOAD : Z := 1.
Definition DT_HASH : Z := 4.
Definition DT_STRTAB : Z := 5.
Definition DT_SYMTAB : Z := 6.
Definition SHN_UNDEF : Z := 0.
Definition STB_LOCAL : Z := 0.

Record elf_sym := ElfSym { st_name : Z; st_info : Z; st_shndx : Z; st_value : Z; st_size : Z }.

(** [ehdr] and [dynamic] are weak: an address of zero, or none. The memory is read by the
    address of a table and an index into it. *)
Record image := Image {
  ehdr : Z;
  phdrs : list (Z * Z);
  dynamic : option (list (Z * Z));
  sym_at : Z -> Z -> option elf_sym;
  str_at : Z -> Z -> option (list Z);
  word_at : Z -> Z -> option Z;
}.

Section image.
Context (I : image).

(** The first PT_LOAD header's distance, of the headers' types and addresses. *)
Fixpoint first_load (l : list (Z * Z)) : option Z :=
  match l with
  | [] => None
  | (t, vaddr) :: l' => if t =? PT_LOAD then Some vaddr else first_load l'
  end.

Definition self_base : Z :=
  if ehdr I =? 0 then 0
  else match first_load (phdrs I) with
       | Some vaddr => wrap64 (ehdr I - vaddr)
       | None => ehdr I
       end.

(** The three tables as the loop over _DYNAMIC leaves them, the entries before DT_NULL
    given: the last of each kind. *)
Fixpoint dyn_scan (base : Z) (l : list (Z * Z)) (t : Z * Z * Z) : Z * Z * Z :=
  match l with
  | [] => t
  | (tag, ptr) :: l' =>
      let '(symtab, strtab, hash) := t in
      dyn_scan base l'
        (if tag =? DT_SYMTAB then (wrap64 (base + ptr), strtab, hash)
         else if tag =? DT_STRTAB then (symtab, wrap64 (base + ptr), hash)
         else if tag =? DT_HASH then (symtab, strtab, wrap64 (base + ptr))
         else t)
  end.

(** One byte into the hash, in an unsigned long of 64 bits. *)
Definition hash_step (h c : Z) : Z :=
  let h := wrap64 (Z.shiftl h 4 + c) in
  let g := Z.land h 0xf0000000 in
  let h := if negb (g =? 0) then Z.lxor h (Z.shiftr g 24) else h in
  Z.land h (wrap64 (Z.lnot g)).

Definition elf_hash (name : list Z) : Z := foldl hash_step 0 name.

Definition skips (s : elf_sym) : bool := (st_shndx s =? SHN_UNDEF) || (Z.shiftr (st_info s) 4 =? STB_LOCAL).

(** The walk of a chain from [i]; [chain] is where the chains start among the words. *)
Fixpoint chain_walk (fuel : nat) (symtab strtab hash chain base : Z) (name : list Z) (i : Z) : option Z :=
  match fuel with
  | O => None
  | S k =>
      if i =? 0 then Some 0
      else
        s ← sym_at I symtab i;
        if skips s then next ← word_at I hash (chain + i); chain_walk k symtab strtab hash chain base name next
        else
          n ← str_at I strtab (st_name s);
          if bool_decide (n = name) then Some (wrap64 (base + st_value s))
          else next ← word_at I hash (chain + i); chain_walk k symtab strtab hash chain base name next
  end.

(** [fuel] bounds the walk; zero is the null pointer. *)
Definition self_symbol (fuel : nat) (name : list Z) : option Z :=
  match dynamic I with
  | None => Some 0
  | Some dyn =>
      let base := self_base in
      let '(symtab, strtab, hash) := dyn_scan base dyn (0, 0, 0) in
      if (symtab =? 0) || (strtab =? 0) || (hash =? 0) then Some 0
      else
        nbucket ← word_at I hash 0;
        if nbucket =? 0 then None
        else
          i ← word_at I hash (2 + elf_hash name mod nbucket);
          chain_walk fuel symtab strtab hash (2 + nbucket) base name i
  end.

(** *** dladdr, of an address in no placed image *)

(** The loop over the symbols from [i], [n] of them left: the best so far and its place. *)
Fixpoint addr_walk (n : nat) (symtab base a i : Z) (best : option elf_sym) : option (option elf_sym) :=
  match n with
  | O => Some best
  | S k =>
      s ← sym_at I symtab i;
      let at_ := wrap64 (base + st_value s) in
      let better := negb ((st_shndx s =? SHN_UNDEF) || (st_value s =? 0)) && (at_ <=? a) &&
        match best with None => true | Some b => wrap64 (base + st_value b) <? at_ end &&
        ((st_size s =? 0) || (a <? wrap64 (at_ + st_size s))) in
      addr_walk k symtab base a (i + 1) (if better then Some s else best)
  end.

Record dl_info := DlInfo { dli_fname : list Z; dli_fbase : Z; dli_sname : option (list Z); dli_saddr : Z }.

(** [kal_env_image] answers for a capacity: a length, or a negative error, and the bytes put
    into the buffer. The terminator is written at the length, into an array of 1024. *)
Definition dladdr_self (kal_env_image : Z -> Z * list Z) (a : Z) : option (option dl_info) :=
  match dynamic I with
  | None => Some None
  | Some dyn =>
      let base := self_base in
      let '(symtab, strtab, hash) := dyn_scan base dyn (0, 0, 0) in
      if (symtab =? 0) || (strtab =? 0) || (hash =? 0) then Some None
      else
        n ← word_at I hash 1;
        best ← addr_walk (Z.to_nat (n - 1)) symtab base a 1 None;
        sname ← match best with
                | Some s => Some <$> str_at I strtab (st_name s)
                | None => Some None
                end;
        let '(len, bytes) := kal_env_image 1023 in
        if 1024 <=? len then None
        else Some (Some (DlInfo (if 0 <? len then take (Z.to_nat len) bytes else []) base sname
          (match best with Some s => wrap64 (base + st_value s) | None => 0 end)))
  end.

(** *** The headers a callback is told *)

Record phdr_info := PhdrInfo { dlpi_addr : Z; dlpi_name : list Z; dlpi_phdrs : list (Z * Z); dlpi_adds : Z; dlpi_subs : Z }.

(** okm_phdr.c's: [base] starts as the header's own address. *)
Definition phdr_base : Z := match first_load (phdrs I) with Some vaddr => wrap64 (ehdr I - vaddr) | None => ehdr I end.

Definition iterate_static {S} (callback : phdr_info -> M S Z) : M S Z :=
  if ehdr I =? 0 then mret 0 else callback (PhdrInfo phdr_base [] (phdrs I) 1 0).

(** okld_iterate: every image placed, until the callback answers other than zero. *)
Fixpoint each_placed {S} (callback : phdr_info -> M S Z) (l : list phdr_info) (result : Z) : M S Z :=
  match l with
  | [] => mret result
  | i :: l' =>
      r ← callback (PhdrInfo (dlpi_addr i) (dlpi_name i) (dlpi_phdrs i) 1 0);
      if negb (r =? 0) then mret r else each_placed callback l' r
  end.

Definition iterate_image {S} (placed : list phdr_info) (callback : phdr_info -> M S Z) : M S Z :=
  r ← (if negb (ehdr I =? 0) then callback (PhdrInfo self_base [] (phdrs I) 1 0) else mret 0);
  if negb (r =? 0) then mret r else each_placed callback placed 0.
End image.

(** ** A file read whole *)

(** The loop with [buf] read into [cap] bytes and [rest] left in the file; [grows] is whether
    realloc gives so many bytes. [None] is a null pointer. *)
Fixpoint read_loop (fuel : nat) (grows : Z -> bool) (rest buf : list Z) (cap : Z) : option (option (list Z)) :=
  match fuel with
  | O => None
  | S k =>
      let got := take (Z.to_nat (cap - Z.of_nat (length buf))) rest in
      let buf := buf ++ got in
      if Z.of_nat (length buf) <? cap then Some (Some buf)
      else if grows (wrap64 (cap * 2)) then read_loop k grows (drop (length got) rest) buf (wrap64 (cap * 2))
      else Some None
  end.

(** [file] is what fopen finds; the first sixty-four kilobytes are malloc's to give too. *)
Definition read_whole (fuel : nat) (grows : Z -> bool) (file : option (list Z)) : option (option (list Z)) :=
  match file with
  | None => Some None
  | Some content => if grows (2 ^ 16) then read_loop fuel grows content [] (2 ^ 16) else Some None
  end.
