(* ===== verification/Placed.v ===== *)
(** Images placed at run time (port/src/image/okm_image.c): dlopen, dlsym, dlclose and
    dlerror over the loader's library, whose operations are arguments. Each call is what it
    does between the lock and its release; what it does after, initialising or finalising
    and unloading, is in its answer and a step of its own. *)
From S2P Require Import Prelude Kal.
From stdpp Require Import base list option.
From Stdlib Require Import ZArith Lia.

#[local] Open Scope Z_scope.

Definition RTLD_DEFAULT : Z := 0.
Definition RTLD_GLOBAL : Z := 256.

(** A record of g_placed at the address [pl_at]; [pl_m] is the loader's module. *)
Record placed := MkPlaced { pl_at : Z; pl_m : Z; pl_refs : Z; pl_global : bool }.

(** [dl_loaded] are the modules the loader holds. *)
Record dl := Dl {
  g_placed : list placed;
  g_dl_error : list Z;
  g_dl_error_set : bool;
  g_dl_dir : list Z;
  dl_loaded : list Z;
}.

Definition dl_zero : dl := Dl [] [] false [] [].

(** The loader's library, and the image's own symbols (Image.v) and the table of kal_ names. *)
Record loader := Loader {
  okld_name : Z -> list Z;
  okld_symbol : Z -> list Z -> Z;
  kal_resolve : list Z -> Z;
  self_symbol_of : list Z -> Z;
}.

(** snprintf into an array of [n] bytes: what is kept before the terminator. *)
Definition clip (n : nat) (t : list Z) : list Z := take (n - 1) t.

Definition dl_fail (text : list Z) : M dl () := modify (fun d => Dl (g_placed d) (clip 512 text) true (g_dl_dir d) (dl_loaded d)).

Definition dlerror : M dl (option (list Z)) :=
  set ← gets g_dl_error_set;
  if negb set then mret None
  else
    modify (fun d => Dl (g_placed d) (g_dl_error d) false (g_dl_dir d) (dl_loaded d));;
    text ← gets g_dl_error;
    mret (Some text).

Definition with_placed (l : list placed) : M dl () := modify (fun d => Dl l (g_dl_error d) (g_dl_error_set d) (g_dl_dir d) (dl_loaded d)).

(** The path up to its last slash, the dot where it has none. *)
Fixpoint slash_place (t : list Z) (i : nat) (at_ : option nat) : option nat :=
  match t with
  | [] => at_
  | c :: t' => slash_place t' (S i) (if c =? 47 then Some i else at_)
  end.

Definition dir_of (path : list Z) : list Z :=
  let d := clip 1024 path in
  match slash_place d 0 None with
  | Some i => take i d
  | None => [46]
  end.

(** "cannot read ", ": ", "symbol not found: " and "dlclose: not an open image". *)
Definition cannot_read : list Z := [99; 97; 110; 110; 111; 116; 32; 114; 101; 97; 100; 32].
Definition colon_space : list Z := [58; 32].
Definition not_found : list Z := [115; 121; 109; 98; 111; 108; 32; 110; 111; 116; 32; 102; 111; 117; 110; 100; 58; 32].
Definition not_open : list Z := [100; 108; 99; 108; 111; 115; 101; 58; 32; 110; 111; 116; 32; 97; 110; 32; 111; 112; 101; 110; 32; 105; 109; 97; 103; 101].

Definition INT_MAX : Z := 2 ^ 31 - 1.

Section operations.
Context (L : loader).

(** The first record of the list the test holds of, with its place. *)
Fixpoint find_placed (f : placed -> bool) (l : list placed) (i : nat) : option (nat * placed) :=
  match l with
  | [] => None
  | p :: l' => if f p then Some (i, p) else find_placed f l' (S i)
  end.

(** [file]: whether the bytes were read; [load]: the loader's refusal, or its module;
    [storage]: malloc's answer for the record. Answers the handle, and the module that is
    to be initialised after the lock is released. *)
Definition dlopen (path : option (list Z)) (flags : Z) (file : bool) (load : list Z + Z) (storage : Z) : M dl (Z * option Z) :=
  match path with
  | None => mret (RTLD_DEFAULT, None)
  | Some path =>
      l ← gets g_placed;
      match find_placed (fun p => bool_decide (okld_name L (pl_m p) = path)) l 0 with
      | Some (i, p) =>
          if pl_refs p =? INT_MAX then stuck
          else
            with_placed (<[i := MkPlaced (pl_at p) (pl_m p) (pl_refs p + 1) (pl_global p || has flags RTLD_GLOBAL)]> l);;
            mret (pl_at p, None)
      | None =>
          if negb file then dl_fail (cannot_read ++ path);; mret (0, None)
          else
            modify (fun d => Dl (g_placed d) (g_dl_error d) (g_dl_error_set d) (dir_of path) (dl_loaded d));;
            match load with
            | inl why => dl_fail (path ++ colon_space);; modify (fun d => Dl (g_placed d) (clip 512 (g_dl_error d ++ why)) true (g_dl_dir d) (dl_loaded d));; mret (0, None)
            | inr m =>
                modify (fun d => Dl (g_placed d) (g_dl_error d) (g_dl_error_set d) (g_dl_dir d) (m :: dl_loaded d));;
                if storage =? 0 then stuck
                else with_placed (MkPlaced storage m 1 (has flags RTLD_GLOBAL) :: l);; mret (storage, Some m)
            end
      end
  end.

(** The prefix "kal_". *)
Definition is_kal (name : list Z) : bool := bool_decide (take 4 name = [107; 97; 108; 95]).

Fixpoint global_symbol (name : list Z) (l : list placed) : Z :=
  match l with
  | [] => 0
  | p :: l' =>
      let s := if pl_global p then okld_symbol L (pl_m p) name else 0 in
      if negb (s =? 0) then s else global_symbol name l'
  end.

Definition host_resolve (name : list Z) (l : list placed) : Z :=
  let s := if is_kal name then kal_resolve L name else 0 in
  if negb (s =? 0) then s
  else
    let s := self_symbol_of L name in
    if negb (s =? 0) then s else global_symbol name l.

Definition dlsym (handle : Z) (name : list Z) : M dl Z :=
  l ← gets g_placed;
  let s := if handle =? RTLD_DEFAULT then host_resolve name l
           else match find_placed (fun p => pl_at p =? handle) l 0 with
                | Some (_, p) => okld_symbol L (pl_m p) name
                | None => 0
                end in
  when (s =? 0) (dl_fail (not_found ++ name));;
  mret s.

(** Answers also the record that is to be finalised, unloaded and freed. *)
Definition dlclose (handle : Z) : M dl (Z * option placed) :=
  l ← gets g_placed;
  match find_placed (fun p => pl_at p =? handle) l 0 with
  | None => dl_fail not_open;; mret (-1, None)
  | Some (i, p) =>
      if 0 <? pl_refs p - 1 then
        with_placed (<[i := MkPlaced (pl_at p) (pl_m p) (pl_refs p - 1) (pl_global p)]> l);; mret (0, None)
      else with_placed (take i l ++ drop (S i) l);; mret (0, Some p)
  end.

(** okld_unload: of a module the loader holds. *)
Definition unload (m : Z) : M dl () :=
  put_try (fun d => l ← remove_one m (dl_loaded d); Some (Dl (g_placed d) (g_dl_error d) (g_dl_error_set d) (g_dl_dir d) l)).
End operations.

(** ** An image another needs, and the table of kal_ names *)

(** [read] is read_whole of a name; [kal_env_image] as dladdr's. The name is put together in
    an array of 1536; the terminator is written where openkal's answer says. *)
Definition host_find_needed (read : list Z -> option (list Z)) (kal_env_image : Z -> Z * list Z) (dir name : list Z) : option (option (list Z)) :=
  match read (clip 1536 (dir ++ 47 :: name)) with
  | Some b => Some (Some b)
  | None =>
      let '(n, bytes) := kal_env_image 1535 in
      if 0 <? n then
        if 1536 <=? n then None
        else
          let path := take (Z.to_nat n) bytes in
          match slash_place path 0 None with
          | Some i => Some (read (take (S i) path ++ clip (1536 - S i) name))
          | None => Some None
          end
      else Some None
  end.

(** okm_kal_table.c: the first entry of the name, null where there is none. *)
Fixpoint okm_kal_resolve (table : list (list Z * Z)) (name : list Z) : Z :=
  match table with
  | [] => 0
  | (n, fn) :: table' => if bool_decide (n = name) then fn else okm_kal_resolve table' name
  end.

(** ** Contexts that open and close *)

(** [w_closing] are the records taken out of the list and not yet unloaded; [w_held] has a
    handle once for each dlopen that answered it, less the closes of it that succeeded. *)
Record dl_world := DlWorld { w_dl : dl; w_closing : list placed; w_held : list Z }.

Inductive dl_step (L : loader) : dl_world -> dl_world -> Prop :=
| D_open w path flags file load storage h m d :
    (forall m, load = inr m -> m ∉ dl_loaded (w_dl w) /\ okld_name L m = path) ->
    storage <> 0 -> storage ∉ pl_at <$> (g_placed (w_dl w) ++ w_closing w) ->
    dlopen L (Some path) flags file load storage (w_dl w) = Some ((h, m), d) ->
    dl_step L w (DlWorld d (w_closing w) (if h =? 0 then w_held w else h :: w_held w))
| D_sym w handle name s d :
    dlsym L handle name (w_dl w) = Some (s, d) -> dl_step L w (DlWorld d (w_closing w) (w_held w))
| D_close w handle r p d :
    dlclose handle (w_dl w) = Some ((r, p), d) ->
    dl_step L w (DlWorld d (from_option (fun p => [p]) [] p ++ w_closing w) (if r =? 0 then default [] (remove_one handle (w_held w)) else w_held w))
| D_unload w p before after d :
    w_closing w = before ++ p :: after -> unload (pl_m p) (w_dl w) = Some ((), d) ->
    dl_step L w (DlWorld d (before ++ after) (w_held w)).

Inductive dl_reachable (L : loader) : dl_world -> Prop :=
| dl_start : dl_reachable L (DlWorld dl_zero [] [])
| dl_next w w' : dl_reachable L w -> dl_step L w w' -> dl_reachable L w'.
