(* ===== verification/PlacedTheorems.v ===== *)
(** What dlopen and dlclose promise: each module the loader holds is in one record, a record
    stays for as long as one opening of it was not closed, and the module is unloaded once. *)
From S2P Require Import Prelude Kal Placed.
From stdpp Require Import base list option.
From Stdlib Require Import ZArith Lia.

#[local] Open Scope Z_scope.

Lemma find_placed_some f l i j p : find_placed f l i = Some (j, p) -> exists k, j = (i + k)%nat /\ l !! k = Some p /\ f p = true.
Proof.
  revert i. induction l as [|q l IH]; intros i; cbn [find_placed]; [done|]. destruct (f q) eqn:E.
  - intros [= <- <-]. exists O. by rewrite Nat.add_0_r.
  - intros (k & -> & Hk & Hf)%IH. exists (S k). split_and!; [lia|done|done].
Qed.

Lemma find_placed_none f l i p : find_placed f l i = None -> p ∈ l -> f p = false.
Proof.
  revert i. induction l as [|q l IH]; intros i; cbn [find_placed]; [by intros _ ?%not_elem_of_nil|]. destruct (f q) eqn:E; [done|].
  intros H [->|Hp]%elem_of_cons; eauto.
Qed.

Lemma occurs_in {A} `{EqDecision A} (x : A) l : x ∈ l <-> 0 < occurs x l.
Proof. unfold occurs. rewrite list_elem_of_In, (count_occ_In (fun a b => decide (a = b))). lia. Qed.

Lemma remove_one_occurs {A} `{EqDecision A} (x : A) l k y : remove_one x l = Some k -> occurs y l = (if decide (x = y) then 1 else 0) + occurs y k.
Proof.
  revert k. induction l as [|z l IH]; intros k; cbn [remove_one]; [done|]. rewrite occurs_cons. destruct (decide (x = z)) as [<-|Hne]; [by intros [= <-]|].
  destruct (remove_one x l) as [k'|]; [|done]. intros [= <-]. rewrite occurs_cons, (IH k' eq_refl). lia.
Qed.

(** The records of a world, and that it is as it must be. *)
Definition records (w : dl_world) : list placed := g_placed (w_dl w) ++ w_closing w.

Record dl_ok (L : loader) (w : dl_world) : Prop := {
  do_loaded : dl_loaded (w_dl w) ≡ₚ pl_m <$> records w;
  do_modules : NoDup (dl_loaded (w_dl w));
  do_addresses : NoDup (pl_at <$> records w);
  do_nonnull : 0 ∉ pl_at <$> records w;
  do_names : NoDup ((fun p => okld_name L (pl_m p)) <$> g_placed (w_dl w));
  do_refs : forall p, p ∈ g_placed (w_dl w) -> 1 <= pl_refs p /\ pl_refs p = occurs (pl_at p) (w_held w);
  do_held : forall h, h ∈ w_held w -> h ∈ pl_at <$> g_placed (w_dl w);
}.

(** Only the count and the visibility of a record change, and how often its handle is held. *)
Lemma recount_ok L w l' err set dir held i p q : dl_ok L w -> g_placed (w_dl w) !! i = Some p -> pl_at q = pl_at p -> pl_m q = pl_m p ->
  l' = <[i := q]> (g_placed (w_dl w)) -> 1 <= pl_refs q -> pl_refs q = occurs (pl_at p) held ->
  (forall h, h <> pl_at p -> occurs h held = occurs h (w_held w)) ->
  dl_ok L (DlWorld (Dl l' err set dir (dl_loaded (w_dl w))) (w_closing w) held).
Proof.
  intros [Hl Hm Ha Hn Hnm Hr Hh] Hi Eat Em -> H1 Hq Hocc.
  assert (pl_at <$> <[i := q]> (g_placed (w_dl w)) = pl_at <$> g_placed (w_dl w)) as Eats.
  { rewrite list_fmap_insert, list_insert_id; [done|]. by rewrite list_lookup_fmap, Hi, Eat. }
  assert (pl_m <$> <[i := q]> (g_placed (w_dl w)) = pl_m <$> g_placed (w_dl w)) as Ems.
  { rewrite list_fmap_insert, list_insert_id; [done|]. by rewrite list_lookup_fmap, Hi, Em. }
  unfold records in *. rewrite !fmap_app in *. split; unfold records; cbn [w_dl w_closing w_held g_placed dl_loaded]; rewrite ?fmap_app, ?Eats, ?Ems; try done.
  - rewrite list_fmap_insert, list_insert_id; [done|]. by rewrite list_lookup_fmap, Hi, Em.
  - intros r Hin. apply list_elem_of_lookup in Hin as [j Hj]. destruct (decide (i = j)) as [<-|Hne].
    + rewrite list_lookup_insert_eq in Hj by (by apply lookup_lt_Some in Hi). injection Hj as <-. by rewrite Eat.
    + rewrite list_lookup_insert_ne in Hj by done. destruct (Hr r) as [? ->]; [by apply list_elem_of_lookup_2 in Hj|].
      rewrite Hocc; [by rewrite <-(proj2 (Hr r (list_elem_of_lookup_2 _ _ _ Hj)))|]. intros E. apply Hne.
      apply list.NoDup_app in Ha as (Ha & _ & _). apply (NoDup_lookup _ i j (pl_at p) Ha); rewrite list_lookup_fmap; [by rewrite Hi|by rewrite Hj; cbn; rewrite E].
  - intros h Hin. destruct (decide (h = pl_at p)) as [->|Hne].
    + by eapply list_elem_of_fmap_2, list_elem_of_lookup_2.
    + apply Hh. apply occurs_in. rewrite <-Hocc by done. by apply occurs_in.
Qed.

(** Only what dlerror answers, or the directory, changes. *)
Lemma reported_ok L w err set dir : dl_ok L w -> dl_ok L (DlWorld (Dl (g_placed (w_dl w)) err set dir (dl_loaded (w_dl w))) (w_closing w) (w_held w)).
Proof. by intros []. Qed.

Lemma placed_ok L w err set dir m storage g : dl_ok L w -> m ∉ dl_loaded (w_dl w) -> storage <> 0 -> storage ∉ pl_at <$> records w ->
  Forall (fun p => okld_name L (pl_m p) <> okld_name L m) (g_placed (w_dl w)) ->
  dl_ok L (DlWorld (Dl (MkPlaced storage m 1 g :: g_placed (w_dl w)) err set dir (m :: dl_loaded (w_dl w))) (w_closing w) (storage :: w_held w)).
Proof.
  intros [Hl Hm Ha Hn Hnm Hr Hh] Hfresh Hs Hnew Hname.
  assert (storage ∉ w_held w) as Hnh. { intros Hin%Hh. apply Hnew. unfold records. rewrite fmap_app. by apply elem_of_app; left. }
  split; unfold records in *; cbn [w_dl w_closing w_held g_placed dl_loaded app]; rewrite ?fmap_cons; cbn [pl_at pl_m].
  - by rewrite Hl.
  - by constructor.
  - by constructor.
  - rewrite elem_of_cons. naive_solver.
  - constructor; [|done]. intros (p & E & Hp)%list_elem_of_fmap. rewrite list.Forall_forall in Hname. by apply (Hname p Hp).
  - intros p [->|Hp]%elem_of_cons; cbn [pl_refs pl_at].
    + rewrite occurs_cons, decide_True by done. rewrite occurs_in in Hnh. assert (0 <= occurs storage (w_held w)) by (unfold occurs; lia). lia.
    + destruct (Hr p Hp) as [H1 E]. rewrite occurs_cons, decide_False; [lia|]. intros ->. apply Hnew. rewrite fmap_app. apply elem_of_app. left. by apply list_elem_of_fmap_2.
  - intros h [->|Hin]%elem_of_cons; [by left|right; auto].
Qed.

(** The last opening of a record is closed: it is out of the list and waits. *)
Lemma removed_ok L w err set dir i p held : dl_ok L w -> g_placed (w_dl w) !! i = Some p -> occurs (pl_at p) held = 0 ->
  (forall h, h <> pl_at p -> occurs h held = occurs h (w_held w)) ->
  dl_ok L (DlWorld (Dl (take i (g_placed (w_dl w)) ++ drop (S i) (g_placed (w_dl w))) err set dir (dl_loaded (w_dl w))) (p :: w_closing w) held).
Proof.
  intros [Hl Hm Ha Hn Hnm Hr Hh] Hi H0 Hocc. unfold records in *. set (l := g_placed (w_dl w)) in *. set (k := take i l ++ drop (S i) l).
  assert (l ≡ₚ p :: k) as Hp by (rewrite <-(take_drop_middle l i p Hi) at 1; by rewrite <-Permutation_middle).
  assert (k ++ p :: w_closing w ≡ₚ l ++ w_closing w) as Hperm by (rewrite Hp; by rewrite <-Permutation_middle).
  split; unfold records; cbn [w_dl w_closing w_held g_placed dl_loaded]; fold k; try done.
  - by rewrite Hl, Hperm.
  - by rewrite Hperm.
  - by rewrite Hperm.
  - rewrite Hp in Hnm. by apply list.NoDup_cons in Hnm as [_ ?].
  - intros q Hq. destruct (Hr q) as [? E]; [rewrite Hp; by right|]. split; [done|]. rewrite E. symmetry. apply Hocc. intros Eat.
    rewrite Hp in Ha. rewrite fmap_app in Ha. apply list.NoDup_app in Ha as (Ha & _ & _). cbn in Ha. apply list.NoDup_cons in Ha as [Ha _]. apply Ha. rewrite <-Eat. by apply list_elem_of_fmap_2.
  - intros h Hin. assert (h <> pl_at p) as Hne by (intros ->; apply occurs_in in Hin; lia). apply occurs_in in Hin. rewrite Hocc in Hin by done.
    apply occurs_in, Hh in Hin. rewrite Hp in Hin. apply elem_of_cons in Hin as [?|?]; done.
Qed.

Lemma dlopen_ok L w path flags file load storage h m d : dl_ok L w ->
  (forall m, load = inr m -> m ∉ dl_loaded (w_dl w) /\ okld_name L m = path) -> storage <> 0 -> storage ∉ pl_at <$> records w ->
  dlopen L (Some path) flags file load storage (w_dl w) = Some ((h, m), d) ->
  dl_ok L (DlWorld d (w_closing w) (if h =? 0 then w_held w else h :: w_held w)).
Proof.
  intros Hok Hload Hs Hnew. unfold dlopen. rewrite (bind_run _ _ _ (g_placed (w_dl w)) (w_dl w)) by done.
  destruct (find_placed _ _ _) as [[i p]|] eqn:E.
  - apply find_placed_some in E as (k & -> & Hk & Hname). cbn [Nat.add]. unfold stuck. split_if; [done|]. intros [= <- <- <-].
    assert (pl_at p <> 0) as Hne.
    { intros E0. apply (do_nonnull _ _ Hok). unfold records. rewrite fmap_app, <-E0. apply elem_of_app. left. by eapply list_elem_of_fmap_2, list_elem_of_lookup_2. }
    replace (pl_at p =? 0) with false by lia. destruct (do_refs _ _ Hok p) as [H1 Hr]; [by eapply list_elem_of_lookup_2|].
    eapply (recount_ok L w _ _ _ _ _ k p (MkPlaced _ _ _ _)); [done|done|reflexivity|reflexivity|reflexivity|cbn; lia|cbn; rewrite occurs_cons, decide_True by done; lia|].
    intros h' Hh'. rewrite occurs_cons, decide_False by done. lia.
  - destruct file; cbn [negb]; [|intros [= <- <- <-]; by apply reported_ok]. destruct load as [why|m'].
    { intros [= <- <- <-]. by apply reported_ok. }
    replace (storage =? 0) with false by lia. intros [= <- <- <-]. replace (storage =? 0) with false by lia. destruct (Hload m' eq_refl) as [Hfresh Hn].
    apply placed_ok; try done. apply list.Forall_forall. intros p Hp. apply (find_placed_none _ _ _ p) in E; [|done]. apply bool_decide_eq_false in E. by rewrite Hn.
Qed.

(** The handle that is closed is held, and the record found is the one it names. *)
Lemma dlclose_found L w handle j p : dl_ok L w -> find_placed (fun p => pl_at p =? handle) (g_placed (w_dl w)) 0 = Some (j, p) ->
  g_placed (w_dl w) !! j = Some p /\ handle = pl_at p /\ exists k, remove_one handle (w_held w) = Some k /\ occurs handle k = pl_refs p - 1 /\
    forall h, h <> handle -> occurs h k = occurs h (w_held w).
Proof.
  intros Hok (k & -> & Hk & Hat)%find_placed_some. boolean. subst handle. split; [done|]. split; [done|].
  destruct (do_refs _ _ Hok p) as [H1 Hr]; [by eapply list_elem_of_lookup_2|].
  assert (pl_at p ∈ w_held w) as (l1 & l2 & El)%list_elem_of_split by (apply occurs_in; lia).
  destruct (remove_one_perm (pl_at p) (w_held w) (l1 ++ l2)) as (k' & Ek & _); [by rewrite El, Permutation_middle|]. exists k'. split; [done|].
  split; [|intros h Hh]; rewrite ?Hr, (remove_one_occurs _ _ _ _ Ek); [rewrite decide_True by done|rewrite decide_False by done]; lia.
Qed.

Lemma dlclose_ok L w handle r p d : dl_ok L w -> dlclose handle (w_dl w) = Some ((r, p), d) ->
  dl_ok L (DlWorld d (from_option (fun p => [p]) [] p ++ w_closing w) (if r =? 0 then default [] (remove_one handle (w_held w)) else w_held w)).
Proof.
  intros Hok. unfold dlclose. rewrite (bind_run _ _ _ (g_placed (w_dl w)) (w_dl w)) by done. destruct (find_placed _ _ _) as [[i q]|] eqn:E.
  - destruct (dlclose_found L w handle i q Hok E) as (Hi & -> & k & Hrem & Hk & Hother). destruct (Z.ltb_spec 0 (pl_refs q - 1)) as [Hlt|Hge]; intros [= <- <- <-]; cbn [Z.eqb]; rewrite Hrem; cbn.
    + eapply (recount_ok L w _ _ _ _ _ i q (MkPlaced _ _ _ _)); [done|done|reflexivity|reflexivity|reflexivity|cbn; lia|done|done].
    + destruct (do_refs _ _ Hok q) as [H1 Hr]; [by eapply list_elem_of_lookup_2|]. apply removed_ok; [done|done|lia|done].
  - intros [= <- <- <-]. by apply reported_ok.
Qed.

Lemma unload_runs L w p before after : dl_ok L w -> w_closing w = before ++ p :: after -> exists d, unload (pl_m p) (w_dl w) = Some ((), d) /\
  dl_ok L (DlWorld d (before ++ after) (w_held w)).
Proof.
  intros [Hl Hm Ha Hn Hnm Hr Hh] Hc. unfold records in *. rewrite Hc in *.
  assert (g_placed (w_dl w) ++ before ++ p :: after ≡ₚ p :: (g_placed (w_dl w) ++ before ++ after)) as Hp.
  { rewrite <-Permutation_middle. by rewrite (Permutation_middle (g_placed (w_dl w))). }
  rewrite Hp in Hl, Ha, Hn. destruct (remove_one_perm (pl_m p) (dl_loaded (w_dl w)) (pl_m <$> g_placed (w_dl w) ++ before ++ after)) as (k & Hk & Hkp); [by rewrite Hl|].
  unfold unload, put_try. rewrite Hk. cbn. eexists. split; [reflexivity|]. cbn in Ha, Hn. apply list.NoDup_cons in Ha as [_ Ha]. rewrite elem_of_cons in Hn.
  split; unfold records; cbn; try done; [|naive_solver]. assert (dl_loaded (w_dl w) ≡ₚ pl_m p :: k) as E by (by rewrite Hkp, Hl). rewrite E in Hm. by apply list.NoDup_cons in Hm as [_ ?].
Qed.

Lemma dl_reachable_ok L w : dl_reachable L w -> dl_ok L w.
Proof.
  induction 1 as [|w w' _ IH Hstep]; [split; cbn; [done|constructor|constructor|apply not_elem_of_nil|constructor|by intros ? ?%not_elem_of_nil..]|].
  destruct Hstep as [w path flags file load storage h m d Hload Hs Hnew Hrun|w handle name s d Hrun|w handle r p d Hrun|w p before after d Hc Hrun].
  - by apply (dlopen_ok L w path flags file load storage h m d).
  - unfold dlsym in Hrun. rewrite (bind_run _ _ _ (g_placed (w_dl w)) (w_dl w)) in Hrun by done. unfold mbind, M_bind, when in Hrun.
    destruct (_ =? 0); injection Hrun as <- <-; [by apply reported_ok|by destruct w, IH].
  - by apply (dlclose_ok L w handle r p d).
  - destruct (unload_runs L w p before after IH Hc) as (d' & Hd & Hok). rewrite Hrun in Hd. by injection Hd as <-.
Qed.

(** C18. Whatever contexts open, look up and close, in whatever order, and whenever what was
    closed is unloaded: the modules the loader holds are exactly those of the records that
    are open or wait to be unloaded, each in one record, so that each is unloaded exactly
    once and can be; no path is placed twice; a record's count is the number of openings of
    its handle that were not closed, at least one; and closing a handle answers zero exactly
    where it is open, and gives the record up exactly at the last of its openings. *)
Theorem images_accounted L w : dl_reachable L w ->
  dl_loaded (w_dl w) ≡ₚ pl_m <$> records w /\ NoDup (dl_loaded (w_dl w)) /\
  NoDup ((fun p => okld_name L (pl_m p)) <$> g_placed (w_dl w)) /\
  (forall p, p ∈ g_placed (w_dl w) -> 1 <= pl_refs p /\ pl_refs p = occurs (pl_at p) (w_held w)) /\
  (forall p, p ∈ w_closing w -> pl_at p ∉ w_held w /\ exists d, unload (pl_m p) (w_dl w) = Some ((), d)) /\
  (forall handle, exists r p d, dlclose handle (w_dl w) = Some ((r, p), d) /\ (r = 0 <-> handle ∈ w_held w) /\ (is_Some p <-> occurs handle (w_held w) = 1)).
Proof.
  intros Hok%dl_reachable_ok. split_and!; try apply Hok.
  - intros p Hp. split.
    + intros Hin%(do_held _ _ Hok). pose proof (do_addresses _ _ Hok) as Ha. unfold records in Ha. rewrite fmap_app in Ha. apply list.NoDup_app in Ha as (_ & Ha & _).
      apply (Ha _ Hin). by apply list_elem_of_fmap_2.
    + apply list_elem_of_split in Hp as (b & a & Hc). destruct (unload_runs L w p b a Hok Hc) as (d & Hd & _). eauto.
  - intros handle. unfold dlclose. rewrite (bind_run _ _ _ (g_placed (w_dl w)) (w_dl w)) by done. destruct (find_placed _ _ _) as [[i q]|] eqn:E.
    + destruct (dlclose_found L w handle i q Hok E) as (Hi & -> & _). destruct (do_refs _ _ Hok q) as [H1 Hr]; [by eapply list_elem_of_lookup_2|].
      destruct (Z.ltb_spec 0 (pl_refs q - 1)) as [Hlt|Hge]; (eexists _, _, _; split; [reflexivity|]; rewrite occurs_in, <-Hr; split; [split; [lia|done]|]).
      * split; [by intros [? ?]|lia].
      * split; [lia|done].
    + eexists _, _, _. split; [reflexivity|]. assert (handle ∉ w_held w) as Hno.
      { intros (p & -> & Hp)%(do_held _ _ Hok)%list_elem_of_fmap. apply (find_placed_none _ _ _ p) in E; [lia|done]. }
      split; [split; [done|tauto]|]. rewrite occurs_in in Hno. split; [by intros [? ?]|lia].
Qed.

(** The image [5] opened twice, its record at 64. *)
Definition small_loader : loader := Loader (fun m => [m]) (fun m _ => m) (fun _ => 0) (fun _ => 0).
Definition opened_twice : dl_world := DlWorld (Dl [MkPlaced 64 5 2 true] [] false [46] [5]) [] [64; 64].

Lemma opened_twice_reachable : dl_reachable small_loader opened_twice.
Proof.
  eapply dl_next; [eapply dl_next; [apply dl_start|]|].
  - eapply (D_open small_loader _ [5] RTLD_GLOBAL true (inr 5) 64); [|done| |vm_compute; reflexivity].
    + intros m [= <-]. split; [apply not_elem_of_nil|done].
    + apply not_elem_of_nil.
  - refine (D_open small_loader _ [5] 0 true (inl []) 96 64 None (w_dl opened_twice) _ _ _ _); [done|done| |vm_compute; reflexivity].
    vm_compute. intros H. inversion H as [|? ? ? H']; subst; inversion H'.
Qed.

Lemma images_accounted_witness : exists r p d, dlclose 64 (w_dl opened_twice) = Some ((r, p), d) /\ (r = 0 <-> 64 ∈ w_held opened_twice) /\
  (is_Some p <-> occurs 64 (w_held opened_twice) = 1).
Proof. destruct (images_accounted small_loader opened_twice opened_twice_reachable) as (_ & _ & _ & _ & _ & H). apply (H 64). Defined.

(** The program itself, opened by a null path, answers the handle that is also the failure's
    answer, and closing that handle fails. *)
Example program_handle_null L flags file load storage d :
  dlopen L None flags file load storage d = Some ((0, None), d) /\
  (0 ∉ pl_at <$> Placed.g_placed d -> exists d', dlclose 0 d = Some ((-1, None), d')).
Proof.
  split; [done|]. intros Hno. unfold dlclose. rewrite (bind_run _ _ _ (g_placed d) d) by done. destruct (find_placed _ _ _) as [[i q]|] eqn:E; [|by eexists].
  apply find_placed_some in E as (k & _ & Hk & Hat). boolean. exfalso. apply Hno. rewrite <-Hat. by eapply list_elem_of_fmap_2, list_elem_of_lookup_2.
Qed.

(** Where malloc refuses the record's storage, a null pointer is written through. *)
Example record_unchecked : dlopen small_loader (Some [5]) 0 true (inr 5) 0 dl_zero = None.
Proof. done. Qed.

(** ** What a lookup answers *)

(** The search of the images that were placed with RTLD_GLOBAL: the most recent that has it. *)
Lemma global_symbol_spec L name l : let s := global_symbol L name l in
  (s = 0 /\ forall p, p ∈ l -> pl_global p = true -> okld_symbol L (pl_m p) name = 0) \/
  exists k p, l !! k = Some p /\ pl_global p = true /\ okld_symbol L (pl_m p) name = s /\ s <> 0 /\
    forall j q, (j < k)%nat -> l !! j = Some q -> pl_global q = true -> okld_symbol L (pl_m q) name = 0.
Proof.
  cbn zeta. induction l as [|p l IH]; cbn [global_symbol]; [left; split; [done|]; by intros ? ?%not_elem_of_nil|].
  destruct (pl_global p) eqn:Eg; [destruct (Z.eqb_spec (okld_symbol L (pl_m p) name) 0) as [E|E]|]; cbn [negb Z.eqb].
  2: { right. exists O, p. split_and!; try done. intros; lia. }
  all: destruct IH as [[-> Hno]|(k & q & Hk & Hg & Hs & Hn & Hb)];
    [left; split; [done|]; intros q [->|Hq]%elem_of_cons; auto; congruence|
     right; exists (S k), q; split_and!; try done; intros [|j] r Hj Hr Hgr; [injection Hr as ->; congruence|apply (Hb j); [lia|done..]]].
Qed.

(** ** Images that are needed *)

Lemma slash_place_spec t : forall i at', slash_place t i at' =
  match slash_place t 0 None with Some j => Some (i + j)%nat | None => at' end.
Proof.
  induction t as [|c t IH]; intros i at'; cbn [slash_place]; [done|]. rewrite (IH (S i)), (IH 1%nat). destruct (slash_place t 0 None) as [j|]; [f_equal; lia|]. destruct (c =? 47); [f_equal; lia|done].
Qed.

Lemma slash_place_last d b : Forall (fun c => c <> 47) b -> slash_place (d ++ 47 :: b) 0 None = Some (length d).
Proof.
  intros Hb. assert (Hn : slash_place b 0 None = None).
  { induction Hb as [|c b Hc _ IH]; cbn [slash_place]; [done|]. rewrite slash_place_spec, IH. by rewrite (proj2 (Z.eqb_neq c 47)). }
  induction d as [|c d IH]; cbn [app slash_place length]; [by rewrite slash_place_spec, Hn|]. by rewrite slash_place_spec, IH.
Qed.

(** An image that another needs is read from that image's directory, and where it is not
    there from the program's own, if the names fit; but a program's name that does not fit
    is written past, where openkal's answer is the name's own length. *)
Theorem needed_beside read dir name prog base : (length dir + length name < 1535)%nat -> Forall (fun c => c <> 47) base -> (length prog + length name < 1535)%nat ->
  host_find_needed read (fun cap => (Z.of_nat (length (prog ++ 47 :: base)), take (Z.to_nat cap) (prog ++ 47 :: base))) dir name =
    match read (dir ++ 47 :: name) with
    | Some b => Some (Some b)
    | None => if 1536 <=? Z.of_nat (length (prog ++ 47 :: base)) then None else Some (read (prog ++ 47 :: name))
    end.
Proof.
  intros Hd Hb Hp. unfold host_find_needed, clip. rewrite take_ge by (rewrite length_app; cbn; lia). destruct (read (dir ++ 47 :: name)); [done|].
  rewrite (proj2 (Z.ltb_lt 0 _)) by (rewrite length_app; cbn; lia). destruct (Z.leb_spec 1536 (Z.of_nat (length (prog ++ 47 :: base)))) as [H|H]; [done|].
  rewrite take_take, Nat2Z.id, Nat.min_l by lia. rewrite take_ge by lia. rewrite slash_place_last by done. do 2 f_equal.
  rewrite take_app_ge by lia. replace (S (length prog) - length prog)%nat with 1%nat by lia. cbn [take]. rewrite <-app_assoc. cbn [app]. do 2 f_equal. apply take_ge. lia.
Qed.

Lemma needed_beside_witness : host_find_needed (fun p => if bool_decide (p = [98; 47; 120]) then Some [1] else None) (fun cap => (Z.of_nat (length ([98] ++ 47 :: [112])), take (Z.to_nat cap) ([98] ++ 47 :: [112]))) [97] [120] = Some (Some [1]).
Proof. rewrite (needed_beside _ [97] [120] [98] [112]); [reflexivity|cbn; lia|by repeat constructor|cbn; lia]. Defined.
