(* ===== verification/ImageTheorems.v ===== *)
(** What the lookups in an image's own tables promise, against the hash the linker orders a
    table by and the plain search of the symbols. *)
From S2P Require Import Prelude Kal Image.
From stdpp Require Import base list option.
From Stdlib Require Import ZArith Lia.

#[local] Open Scope Z_scope.

(** ** The hash *)

(** The function of the object format, on words of 32 bits. *)
Definition sysv_step (h c : Z) : Z :=
  let h := wrap32 (Z.shiftl h 4 + c) in
  let g := Z.land h 0xf0000000 in
  Z.land (Z.lxor h (Z.shiftr g 24)) (Z.lnot g).

Definition sysv_hash (name : list Z) : Z := foldl sysv_step 0 name.

(** The four bits that are folded back. *)
Lemma fold_mask n : 0 <= n -> Z.testbit 0xf0000000 n = ((28 <=? n) && (n <? 32)).
Proof.
  intros Hn. change 0xf0000000 with (Z.shiftl (Z.ones 4) 28). rewrite Z.shiftl_spec by done. destruct (Z.leb_spec 28 n) as [H1|H1]; cbn [andb].
  - rewrite Z.testbit_ones by lia. replace (0 <=? n - 28) with true by lia. cbn [andb]. destruct (Z.ltb_spec n 32); lia.
  - apply Z.testbit_neg_r. lia.
Qed.

(** Bit [n] of a step, below the thirty-third, from those of the sum. *)
Definition step_bit (x n : Z) : bool := (xorb (Z.testbit x n) ((28 <=? n + 24) && (n + 24 <? 32) && Z.testbit x (n + 24))) && negb ((28 <=? n) && (n <? 32)).

Lemma hash_step_bit h c n : 0 <= n < 32 -> Z.testbit (hash_step h c) n = step_bit (wrap64 (Z.shiftl h 4 + c)) n.
Proof.
  intros Hn. unfold hash_step, step_bit. set (x := wrap64 _). set (g := Z.land x _).
  assert (Z.testbit (if negb (g =? 0) then Z.lxor x (Z.shiftr g 24) else x) n = xorb (Z.testbit x n) (Z.testbit g (n + 24))) as E.
  { destruct (Z.eqb_spec g 0) as [->|_]; cbn [negb]; [by rewrite Z.bits_0, xorb_false_r|]. by rewrite Z.lxor_spec, Z.shiftr_spec by lia. }
  rewrite Z.land_spec, E. unfold wrap64 at 1. rewrite Z.mod_pow2_bits_low, Z.lnot_spec by lia. unfold g. rewrite !Z.land_spec, !fold_mask by lia.
  destruct (Z.leb_spec 28 n), (Z.ltb_spec (n + 24) 32); try lia; destruct (n <? 32), (28 <=? n + 24), (Z.testbit x n), (Z.testbit x (n + 24)); done.
Qed.

Lemma sysv_step_bit h c n : 0 <= n < 32 -> Z.testbit (sysv_step h c) n = step_bit (wrap32 (Z.shiftl h 4 + c)) n.
Proof.
  intros Hn. unfold sysv_step, step_bit. set (x := wrap32 _). rewrite Z.land_spec, Z.lnot_spec, Z.lxor_spec, Z.shiftr_spec, !Z.land_spec, !fold_mask by lia.
  destruct (Z.leb_spec 28 n), (Z.ltb_spec (n + 24) 32); try lia; destruct (n <? 32), (28 <=? n + 24), (Z.testbit x n), (Z.testbit x (n + 24)); done.
Qed.

Lemma sysv_step_range h c : 0 <= sysv_step h c < 2 ^ 32.
Proof.
  unfold sysv_step. set (x := wrap32 _). assert (0 <= x < 2 ^ 32) as Hx by (apply Z.mod_pos_bound; lia).
  assert (0 <= Z.shiftr (Z.land x 0xf0000000) 24) as Hs by (apply Z.shiftr_nonneg, Z.land_nonneg; lia).
  assert (0 <= Z.lxor x (Z.shiftr (Z.land x 0xf0000000) 24)) as Hl by (apply Z.lxor_nonneg; lia).
  assert (0 <= Z.land (Z.lxor x (Z.shiftr (Z.land x 0xf0000000) 24)) (Z.lnot (Z.land x 0xf0000000))) as H0 by (apply Z.land_nonneg; by left).
  split; [done|]. apply bits_bound; [lia|done|]. intros n Hn.
  rewrite Z.land_spec, Z.lxor_spec, Z.shiftr_spec, !Z.land_spec by lia. rewrite (testbit_above 32 x n), (testbit_above 32 x (n + 24)) by lia. done.
Qed.

(** One step of the two, on words that agree in their low halves. *)
Lemma hash_step_low h k c : h mod 2 ^ 32 = k -> hash_step h c mod 2 ^ 32 = sysv_step k c.
Proof.
  intros <-. apply Z.bits_inj'. intros n Hn. destruct (Z.ltb_spec n 32) as [Hlt|Hge].
  - rewrite Z.mod_pow2_bits_low, hash_step_bit, sysv_step_bit by lia.
    assert (forall m, 0 <= m < 32 -> Z.testbit (wrap64 (Z.shiftl h 4 + c)) m = Z.testbit (wrap32 (Z.shiftl (h mod 2 ^ 32) 4 + c)) m) as E.
    { intros m Hm. unfold wrap64, wrap32. rewrite Z.mod_pow2_bits_low by lia. rewrite !Z.shiftl_mul_pow2 by lia.
      rewrite <-(Z.mod_pow2_bits_low (h * 2 ^ 4 + c) 32) by lia.
      by rewrite <-(Z.add_mod_idemp_l (h * _)), <-(Z.mul_mod_idemp_l h), Z.add_mod_idemp_l by lia. }
    unfold step_bit. rewrite (E n) by lia. destruct (Z.ltb_spec (n + 24) 32) as [H24|H24]; [by rewrite (E (n + 24)) by lia|].
    rewrite !andb_false_r. done.
  - rewrite Z.mod_pow2_bits_high by lia. symmetry. apply (testbit_above 32); [apply sysv_step_range|lia].
Qed.

Lemma hash_low name : elf_hash name mod 2 ^ 32 = sysv_hash name.
Proof.
  unfold elf_hash, sysv_hash. assert (0 mod 2 ^ 32 = 0) as H by done. revert H. generalize 0 at 1 3 as h. generalize 0 as k. induction name as [|c name IH]; intros k h H; [done|].
  cbn [foldl]. apply IH. by apply hash_step_low.
Qed.

(** Bytes whose sum carries out of the thirty-two bits: the word of 64 keeps the carry. *)
Example hash_carries : elf_hash [255; 15; 15; 15; 15; 15; 18] = 0x100000002 /\ sysv_hash [255; 15; 15; 15; 15; 15; 18] = 2.
Proof. by vm_compute. Qed.

(** ** A symbol by its name *)

(** The chain that starts at the index [i] is [l], of symbols below [n]. *)
Fixpoint chain_is (word : Z -> option Z) (n i : Z) (l : list Z) : Prop :=
  match l with
  | [] => i = 0
  | j :: l' => i = j /\ 0 < j < n /\ exists next, word j = Some next /\ chain_is word n next l'
  end.

(** The tables a linker makes: [syms] with their names, each defined symbol in the chain of
    its name's hash, and no chain that returns to itself. *)
Record tables_ok (I : image) (dyn : list (Z * Z)) (symtab strtab hash nbucket : Z) (syms : list (elf_sym * list Z)) : Prop := {
  tk_dynamic : dynamic I = Some dyn;
  tk_tables : dyn_scan (self_base I) dyn (0, 0, 0) = (symtab, strtab, hash);
  tk_present : symtab <> 0 /\ strtab <> 0 /\ hash <> 0;
  tk_buckets : word_at I hash 0 = Some nbucket /\ 0 < nbucket;
  tk_count : word_at I hash 1 = Some (Z.of_nat (length syms));
  tk_sym : forall i s n, syms !! i = Some (s, n) -> sym_at I symtab (Z.of_nat i) = Some s /\ str_at I strtab (st_name s) = Some n;
  tk_chains : forall b, 0 <= b < nbucket -> exists i l, word_at I hash (2 + b) = Some i /\ NoDup l /\
    chain_is (fun j => word_at I hash (2 + nbucket + j)) (Z.of_nat (length syms)) i l /\
    forall k s n, (0 < k)%nat -> syms !! k = Some (s, n) -> skips s = false -> sysv_hash n mod nbucket = b -> Z.of_nat k ∈ l;
}.

Section lookups.
Context (I : image) (dyn : list (Z * Z)) (symtab strtab hash nbucket : Z) (syms : list (elf_sym * list Z)).
Context (Hok : tables_ok I dyn symtab strtab hash nbucket syms).

(** [name] is that of a symbol at one of the indices, and [r] its address. *)
Definition names_symbol (name : list Z) (r : Z) (P : Z -> Prop) : Prop :=
  exists k s, syms !! k = Some (s, name) /\ P (Z.of_nat k) /\ skips s = false /\ r = wrap64 (self_base I + st_value s).

Lemma chain_below n word i l : chain_is word n i l -> Forall (fun j => 0 < j < n) l.
Proof. revert i. induction l as [|j l IH]; intros i; cbn; [constructor|]. intros (-> & Hj & next & _ & Hc). constructor; eauto. Qed.

(** Indices that are distinct and in range are at most as many as there are. *)
Lemma walk_length n l : NoDup l -> Forall (fun j => 0 < j < Z.of_nat n) l -> (length l <= n)%nat.
Proof.
  intros Hd Hr. assert (NoDup (Z.to_nat <$> l)) as Hn.
  { clear -Hd Hr. induction Hd as [|j l Hj Hd IH]; [constructor|]. inversion Hr as [|? ? Hj' Hr']; subst. cbn. constructor; [|auto].
    intros (k & E & Hk)%list_elem_of_fmap. rewrite list.Forall_forall in Hr'. specialize (Hr' k Hk). cbn in Hr'. replace k with j in Hk by lia. done. }
  assert (Z.to_nat <$> l ⊆+ seq 0 n) as Hsub%submseteq_length; [|by rewrite length_fmap, length_seq in Hsub]. apply NoDup_submseteq; [done|].
  intros x (j & -> & Hj)%list_elem_of_fmap. apply elem_of_seq. rewrite list.Forall_forall in Hr. specialize (Hr j Hj). cbn in Hr. lia.
Qed.

Lemma chain_walk_ok fuel name i l : chain_is (fun j => word_at I hash (2 + nbucket + j)) (Z.of_nat (length syms)) i l -> (length l < fuel)%nat ->
  exists r, chain_walk I fuel symtab strtab hash (2 + nbucket) (self_base I) name i = Some r /\
    (names_symbol name r (fun k => k ∈ l) \/ r = 0 /\ forall k s, Z.of_nat k ∈ l -> syms !! k = Some (s, name) -> skips s = true).
Proof using Hok.
  revert fuel i. induction l as [|j l IH]; intros fuel i Hc Hf; (destruct fuel as [|fuel]; [cbn in Hf; lia|]); cbn [chain_walk].
  - cbn in Hc. subst i. exists 0. split; [done|]. right. split; [done|]. by intros ? ? ?%not_elem_of_nil.
  - destruct Hc as (-> & Hj & next & Hnext & Hc). replace (j =? 0) with false by lia. cbn in Hf.
    destruct (lookup_lt_is_Some_2 syms (Z.to_nat j)) as [[s n] Hs]; [lia|]. destruct (tk_sym _ _ _ _ _ _ _ Hok _ _ _ Hs) as [Hsym Hstr].
    rewrite Z2Nat.id in Hsym by lia. rewrite Hsym. cbn [mbind option_bind]. destruct (IH fuel next Hc) as (r & Hr & Hres); [lia|]. rewrite Hstr, Hnext. cbn [mbind option_bind]. rewrite Hr.
    assert (names_symbol name r (fun k => k ∈ l) \/ r = 0 /\ (forall k s, Z.of_nat k ∈ l -> syms !! k = Some (s, name) -> skips s = true) ->
      (n = name -> skips s = true) -> names_symbol name r (fun k => k ∈ j :: l) \/ r = 0 /\ (forall k s, Z.of_nat k ∈ j :: l -> syms !! k = Some (s, name) -> skips s = true)) as Hext.
    { intros [(k & s' & Hk & Hin & Hsk & Hrr)|[-> Hno]] Hskip; [left; exists k, s'; split_and!; [done|by right|done|done]|]. right. split; [done|].
      intros k s' [E|Hin]%elem_of_cons Hk; [|by apply (Hno k)]. assert (k = Z.to_nat j) as -> by lia. rewrite Hs in Hk. injection Hk as -> ->. auto. }
    destruct (skips s) eqn:Esk; [exists r; split; [done|]; by apply Hext|]. case_bool_decide as En.
    + subst n. eexists. split; [reflexivity|]. left. exists (Z.to_nat j), s. split_and!; [done| |done|done]. rewrite Z2Nat.id by lia. by left.
    + exists r. split; [done|]. apply Hext; [done|congruence].
Qed.

Lemma self_symbol_found name : exists r, self_symbol I (S (length syms)) name = Some r /\
  (names_symbol name r (fun _ => True) \/ r = 0 /\ (elf_hash name < 2 ^ 32 -> forall k s, (0 < k)%nat -> syms !! k = Some (s, name) -> skips s = true)).
Proof using Hok.
  unfold self_symbol. destruct (tk_present _ _ _ _ _ _ _ Hok) as (H1 & H2 & H3). destruct (tk_buckets _ _ _ _ _ _ _ Hok) as [Hnb Hpos].
  rewrite (tk_dynamic _ _ _ _ _ _ _ Hok), (tk_tables _ _ _ _ _ _ _ Hok). replace (_ || _) with false by lia. rewrite Hnb. cbn [mbind option_bind].
  replace (nbucket =? 0) with false by lia. destruct (tk_chains _ _ _ _ _ _ _ Hok (elf_hash name mod nbucket)) as (i & l & Hi & Hd & Hc & Hall); [by apply Z.mod_pos_bound|].
  rewrite Hi. cbn [mbind option_bind]. destruct (chain_walk_ok (S (length syms)) name i l Hc) as (r & Hr & Hres).
  { pose proof (walk_length _ l Hd (chain_below _ _ _ _ Hc)). lia. }
  exists r. split; [done|]. destruct Hres as [(k & s & Hk & Hin & Hsk & Hrr)|[-> Hno]]; [left; by exists k, s|]. right. split; [done|].
  intros Hlow k s Hk Hs. destruct (skips s) eqn:E; [done|]. rewrite <-E. apply (Hno k); [|done]. apply (Hall k s name); try done.
  rewrite <-hash_low, (Z.mod_small (elf_hash name)); [done|]. split; [|done]. unfold elf_hash. destruct name as [|c name] using rev_ind; [done|]. rewrite foldl_snoc. apply Z.land_nonneg. right.
  apply Z.mod_pos_bound. lia.
Qed.
End lookups.

(** ** The symbol an address is in *)

(** The address is not before the symbol, nor past its extent where it has one. *)
Definition covers (base a : Z) (s : elf_sym) : bool :=
  negb ((st_shndx s =? SHN_UNDEF) || (st_value s =? 0)) && (wrap64 (base + st_value s) <=? a) &&
  ((st_size s =? 0) || (a <? wrap64 (wrap64 (base + st_value s) + st_size s))).

(** The best of the symbols, and of what there was before: none of those that cover the
    address starts after it. *)
Definition nearest (base a : Z) (l : list elf_sym) (best : option elf_sym) : Prop :=
  match best with
  | Some b => b ∈ l /\ covers base a b = true /\ forall s, s ∈ l -> covers base a s = true -> wrap64 (base + st_value s) <= wrap64 (base + st_value b)
  | None => forall s, s ∈ l -> covers base a s = false
  end.

Lemma nearest_snoc base a l best s : nearest base a l best ->
  nearest base a (l ++ [s]) (if covers base a s && match best with None => true | Some b => wrap64 (base + st_value b) <? wrap64 (base + st_value s) end then Some s else best).
Proof.
  intros H. destruct (covers base a s) eqn:Ec; cbn [andb].
  - destruct best as [b|]; cbn in H.
    + destruct H as (Hb & Hcb & Hmax). destruct (Z.ltb_spec (wrap64 (base + st_value b)) (wrap64 (base + st_value s))) as [Hlt|Hge].
      * cbn. split; [apply elem_of_app; right; by left|]. split; [done|]. intros t [Ht|Ht%list_elem_of_singleton]%elem_of_app Hct; [specialize (Hmax t Ht Hct); lia|subst; lia].
      * cbn. split; [apply elem_of_app; by left|]. split; [done|]. intros t [Ht|Ht%list_elem_of_singleton]%elem_of_app Hct; [auto|by subst].
    + split; [apply elem_of_app; right; by left|]. split; [done|]. intros t [Ht|Ht%list_elem_of_singleton]%elem_of_app Hct; [rewrite H in Hct; done|subst; lia].
  - destruct best as [b|]; cbn in *.
    + destruct H as (Hb & Hcb & Hmax). split; [apply elem_of_app; by left|]. split; [done|]. intros t [Ht|Ht%list_elem_of_singleton]%elem_of_app Hct; [auto|congruence].
    + intros t [Ht|Ht%list_elem_of_singleton]%elem_of_app; [auto|congruence].
Qed.

Lemma addr_walk_ok I symtab base a n i best l : nearest base a l best -> (forall k, (k < n)%nat -> is_Some (sym_at I symtab (i + Z.of_nat k))) ->
  exists best' l', addr_walk I n symtab base a i best = Some best' /\ nearest base a (l ++ l') best' /\ length l' = n /\
    forall k s, l' !! k = Some s -> sym_at I symtab (i + Z.of_nat k) = Some s.
Proof.
  revert i best l. induction n as [|n IH]; intros i best l Hb Hs; cbn [addr_walk].
  { exists best, []. rewrite app_nil_r. split_and!; done. }
  destruct (Hs O) as [s Es]; [lia|]. rewrite Z.add_0_r in Es. rewrite Es. cbn [mbind option_bind].
  replace (negb _ && _ && _ && _) with (covers base a s && match best with None => true | Some b => wrap64 (base + st_value b) <? wrap64 (base + st_value s) end).
  2: { unfold covers. rewrite <-!andb_assoc. do 2 f_equal. apply andb_comm. }
  apply (nearest_snoc base a l best s) in Hb. destruct (IH (i + 1) _ _ Hb) as (best' & l' & Hw & Hn & Hl & Hl').
  { intros k Hk. replace (i + 1 + Z.of_nat k) with (i + Z.of_nat (S k)) by lia. apply Hs. lia. }
  exists best', (s :: l'). split; [done|]. rewrite <-(assoc_L (++)) in Hn. split; [done|]. split; [cbn; lia|].
  intros [|k] t Hk; [injection Hk as <-; by rewrite Z.add_0_r|]. apply Hl' in Hk. by replace (i + Z.of_nat (S k)) with (i + 1 + Z.of_nat k) by lia.
Qed.

Section lookups_claims.
Context (I : image) (dyn : list (Z * Z)) (symtab strtab hash nbucket : Z) (syms : list (elf_sym * list Z)).

(** C19. A name is looked up in the image's own symbols as in their list: over the tables a
    linker makes, the walk ends within as many steps as there are symbols and reads nothing
    that is not there; what it answers is the address of a defined symbol of that name that
    is not local; and where the hash stays within its 32 bits it answers null only if there
    is none. The low 32 bits are always those of the hash the linker orders by. *)
Theorem symbol_found name : tables_ok I dyn symtab strtab hash nbucket syms ->
  elf_hash name mod 2 ^ 32 = sysv_hash name /\
  exists r, self_symbol I (S (length syms)) name = Some r /\
    (names_symbol I syms name r (fun _ => True) \/
     r = 0 /\ (elf_hash name < 2 ^ 32 -> forall k s, (0 < k)%nat -> syms !! k = Some (s, name) -> skips s = true)).
Proof. intros Hok. split; [apply hash_low|]. by apply (self_symbol_found I dyn symtab strtab hash nbucket). Qed.

(** dladdr of an address in no placed image names the image and the defined symbol the
    address is in: among those that start at or before it and whose extent, where they have
    one, it is within, one that starts last; none where there is none. It does so where the
    image's own name fits its buffer. *)
Theorem dladdr_nearest kal_env_image a : tables_ok I dyn symtab strtab hash nbucket syms -> syms <> [] -> (kal_env_image 1023).1 < 1024 ->
  exists info best, dladdr_self I kal_env_image a = Some (Some info) /\ dli_fbase info = self_base I /\
    nearest (self_base I) a (tail syms).*1 best /\
    dli_saddr info = from_option (fun s => wrap64 (self_base I + st_value s)) 0 best /\
    (dli_sname info = None <-> best = None) /\ (forall n s, dli_sname info = Some n -> best = Some s -> (s, n) ∈ tail syms).
Proof.
  intros Hok Hne Hfits. destruct (tk_present _ _ _ _ _ _ _ Hok) as (H1 & H2 & H3). unfold dladdr_self. rewrite (tk_dynamic _ _ _ _ _ _ _ Hok), (tk_tables _ _ _ _ _ _ _ Hok).
  replace (_ || _) with false by lia. rewrite (tk_count _ _ _ _ _ _ _ Hok). cbn [mbind option_bind].
  assert (forall k p, tail syms !! k = Some p -> sym_at I symtab (1 + Z.of_nat k) = Some p.1 /\ str_at I strtab (st_name p.1) = Some p.2) as Hat.
  { intros k [s n] Hk. destruct (tk_sym _ _ _ _ _ _ _ Hok (S k) s n) as [Hs Hn]; [by destruct syms|]. split; [|done]. cbn [fst]. rewrite <-Hs. f_equal. lia. }
  destruct (addr_walk_ok I symtab (self_base I) a (Z.to_nat (Z.of_nat (length syms) - 1)) 1 None []) as (best & l & Hw & Hn & Hl & Hl').
  { by intros s ?%not_elem_of_nil. }
  { intros k Hk. destruct (lookup_lt_is_Some_2 (tail syms) k) as [p Hp]; [destruct syms; cbn in *; lia|]. destruct (Hat k p Hp) as [-> _]. done. }
  rewrite Hw. cbn [mbind option_bind]. assert (l = (tail syms).*1) as El.
  { apply list_eq_same_length with (length l); [by rewrite length_fmap; destruct syms; cbn in *; lia|done|]. intros k x y _ Hx Hy. apply Hl' in Hx.
    apply list_lookup_fmap_Some in Hy as (p & -> & Hp). destruct (Hat k p Hp) as [E _]. congruence. }
  rewrite app_nil_l in Hn. subst l. destruct best as [b|].
  - pose proof Hn as (Hb & _). apply list_elem_of_fmap in Hb as (p & -> & Hp). pose proof Hp as (k & Hk)%list_elem_of_lookup. destruct (Hat k p Hk) as [_ Hstr]. rewrite Hstr. cbn.
    destruct (kal_env_image 1023) as [len bytes]. cbn [fst] in Hfits. rewrite (proj2 (Z.leb_gt 1024 len)) by lia. eexists _, (Some p.1). split; [reflexivity|]. cbn [dli_fbase dli_saddr dli_sname]. split; [done|]. split; [exact Hn|]. split; [done|]. split; [by split|].
    intros n s [= <-] [= <-]. by destruct p.
  - cbn. destruct (kal_env_image 1023) as [len bytes]. cbn [fst] in Hfits. rewrite (proj2 (Z.leb_gt 1024 len)) by lia. eexists _, None. split; [reflexivity|]. done.
Qed.

(** Where the answer is the name's own length, as the other operations of kal_env answer
    theirs, and the name has 1024 characters or more, dladdr writes the terminator outside
    of its array, for every address that is in no placed image. *)
Theorem image_name_overruns name a : tables_ok I dyn symtab strtab hash nbucket syms -> syms <> [] -> (1024 <= length name)%nat ->
  dladdr_self I (fun cap => (Z.of_nat (length name), take (Z.to_nat cap) name)) a = None.
Proof.
  intros Hok Hne Hl. unfold dladdr_self. destruct (tk_present _ _ _ _ _ _ _ Hok) as (H1 & H2 & H3). rewrite (tk_dynamic _ _ _ _ _ _ _ Hok), (tk_tables _ _ _ _ _ _ _ Hok).
  replace (_ || _) with false by lia. rewrite (proj2 (Z.leb_le 1024 (Z.of_nat (length name)))) by lia. destruct (word_at I hash 1); [|done]. cbn [mbind option_bind]. destruct (addr_walk _ _ _ _ _ _ _) as [best|]; [|done]. cbn [mbind option_bind].
  by destruct (match best with Some _ => _ | None => _ end).
Qed.
End lookups_claims.

(** An image of three symbols: the null one, f at 16 and g at 64, in one bucket. *)
Definition sym_f : elf_sym := ElfSym 1 0x12 7 16 8.
Definition sym_g : elf_sym := ElfSym 2 0x12 7 64 0.
Definition small_syms : list (elf_sym * list Z) := [(ElfSym 0 0 0 0 0, []); (sym_f, [102]); (sym_g, [103])].
Definition small_image : image :=
  Image 4096 [(1, 0)] (Some [(DT_HASH, 256); (DT_STRTAB, 512); (DT_SYMTAB, 768)])
    (fun _ i => fst <$> at_ small_syms i) (fun _ i => at_ [[]; [102]; [103]] i) (fun _ i => at_ [1; 3; 2; 0; 0; 1] i).

Lemma small_tables : tables_ok small_image [(DT_HASH, 256); (DT_STRTAB, 512); (DT_SYMTAB, 768)] 4864 4608 4352 1 small_syms.
Proof.
  split; try done.
  - intros [|[|[|i]]] s n [= <- <-]; by split.
  - intros b Hb. assert (b = 0) as -> by lia. exists 2, [2; 1]. split; [done|]. split.
    { constructor; [by intros ?%list_elem_of_singleton|]. constructor; [apply not_elem_of_nil|constructor]. }
    split; [cbn; split_and!; try lia; exists 1; split; [done|]; split_and!; try lia; by exists 0|].
    intros [|[|[|k]]] s n Hk; [lia|right; by left|by left|done].
Qed.

Lemma symbol_found_witness : elf_hash [103] mod 2 ^ 32 = sysv_hash [103] /\
  exists r, self_symbol small_image 4 [103] = Some r /\
    (names_symbol small_image small_syms [103] r (fun _ => True) \/
     r = 0 /\ (elf_hash [103] < 2 ^ 32 -> forall k s, (0 < k)%nat -> small_syms !! k = Some (s, [103]) -> skips s = true)).
Proof. exact (symbol_found small_image _ 4864 4608 4352 1 small_syms [103] small_tables). Defined.

Lemma dladdr_nearest_witness : exists info best, dladdr_self small_image (fun _ => (0, [])) 4130 = Some (Some info) /\ dli_fbase info = self_base small_image /\
    nearest (self_base small_image) 4130 (tail small_syms).*1 best /\
    dli_saddr info = from_option (fun s => wrap64 (self_base small_image + st_value s)) 0 best /\
    (dli_sname info = None <-> best = None) /\ (forall n s, dli_sname info = Some n -> best = Some s -> (s, n) ∈ tail small_syms).
Proof. by apply (dladdr_nearest small_image _ 4864 4608 4352 1 small_syms (fun _ => (0, [])) 4130 small_tables). Defined.

(** ** A file read whole *)

Lemma read_loop_whole fuel grows rest buf k : 16 <= k <= 62 -> 62 < k + Z.of_nat fuel -> Z.of_nat (length buf) <= 2 ^ k ->
  Z.of_nat (length (buf ++ rest)) < 2 ^ 62 ->
  exists r, read_loop fuel grows rest buf (2 ^ k) = Some r /\ (r = Some (buf ++ rest) \/ r = None /\ exists n, grows n = false).
Proof.
  revert rest buf k. induction fuel as [|fuel IH]; intros rest buf k Hk Hf Hb Hl; [lia|]. cbn [read_loop]. set (room := Z.to_nat (2 ^ k - Z.of_nat (length buf))).
  rewrite length_app in Hl. assert (length (take room rest) = Nat.min room (length rest)) as Ht by apply length_take. rewrite length_app.
  destruct (Z.ltb_spec (Z.of_nat (length buf + length (take room rest))) (2 ^ k)) as [Hlt|Hge].
  - exists (Some (buf ++ rest)). split; [|by left]. rewrite take_ge by lia. done.
  - assert (k < 62) as Hk62. { destruct (decide (k = 62)) as [->|]; lia. }
    assert (2 ^ k * 2 = 2 ^ (k + 1)) as E by (rewrite Z.pow_add_r; lia). rewrite E, wrap64_small by (split; [lia|apply Z.pow_lt_mono_r; lia]).
    destruct (grows (2 ^ (k + 1))) eqn:Eg; [|exists None; eauto]. assert (length (take room rest) = room) as Er by lia. rewrite Er.
    destruct (IH (drop room rest) (buf ++ take room rest) (k + 1)) as (r & Hr & Hres); [lia|lia| | |].
    + rewrite length_app, <-E. lia.
    + rewrite <-(assoc_L (++)), take_drop, length_app. lia.
    + exists r. split; [done|]. by rewrite <-(assoc_L (++)), take_drop in Hres.
Qed.

(** read_whole answers every byte of the file in order, or nothing, and nothing only
    where there is no file or storage was refused; forty-eight doublings of its buffer are
    enough for any file below 2^62 bytes. *)
Theorem read_whole_all grows content : Z.of_nat (length content) < 2 ^ 62 ->
  read_whole 48 grows None = Some None /\
  exists r, read_whole 48 grows (Some content) = Some r /\ (r = Some content \/ r = None /\ exists n, grows n = false).
Proof.
  intros Hl. split; [done|]. cbn [read_whole]. destruct (grows (2 ^ 16)) eqn:E; [|exists None; eauto].
  destruct (read_loop_whole 48 grows content [] 16) as (r & Hr & Hres); [lia|cbn; lia|cbn; lia|done|]. exists r. by split.
Qed.

Lemma read_whole_all_witness : read_whole 48 (fun _ => true) None = Some None /\
  exists r, read_whole 48 (fun _ => true) (Some [1; 2]) = Some r /\ (r = Some [1; 2] \/ r = None /\ exists n, (fun _ : Z => true) n = false).
Proof. apply read_whole_all. cbn. lia. Defined.

Lemma image_name_overruns_witness : dladdr_self small_image (fun cap => (Z.of_nat (length (replicate 1024 97)), take (Z.to_nat cap) (replicate 1024 97))) 4130 = None.
Proof. apply (image_name_overruns small_image _ 4864 4608 4352 1 small_syms _ 4130 small_tables); [discriminate|rewrite length_replicate; lia]. Defined.
