(* ===== verification/Emutls.v ===== *)
(** A thread's variables in an image (port/src/image/okm_image.c): the key of a variable
    made once by threads that race for it, the block a thread's own copy is in, and its
    release in the last of the rounds of destructors a thread that ends runs
    (musl/src/thread/pthread_key_create.c). *)
From S2P Require Import Prelude Kal.
From stdpp Require Import base list option.
From Stdlib Require Import ZArith Lia.

#[local] Open Scope Z_scope.

(** ** The key *)

(** What a thread in __emutls_get_address is about to do: load the word, take the lock and
    look again, or use the key the word gave, one more than it. *)
Inductive key_pc := K_load | K_lock | K_have (word : Z).

(** The word of the control, the keys made for it, and the threads. *)
Record key_world := KeyWorld { k_index : Z; k_made : list Z; k_threads : list key_pc }.

Definition key_load (index : Z) : key_pc := if negb (index =? 0) then K_have index else K_lock.

(** Between the lock and its release; [k] is the key pthread_key_create would make. *)
Definition key_locked (k index : Z) (made : list Z) : Z * list Z :=
  if index =? 0 then (k + 1, k :: made) else (index, made).

Inductive key_step : key_world -> key_world -> Prop :=
| KS_load w t : k_threads w !! t = Some K_load -> key_step w (KeyWorld (k_index w) (k_made w) (<[t := key_load (k_index w)]> (k_threads w)))
| KS_lock w t k : k_threads w !! t = Some K_lock -> 0 <= k ->
    let r := key_locked k (k_index w) (k_made w) in key_step w (KeyWorld r.1 r.2 (<[t := K_have r.1]> (k_threads w))).

Inductive key_reachable (n : nat) : key_world -> Prop :=
| kr_start : key_reachable n (KeyWorld 0 [] (replicate n K_load))
| kr_step w w' : key_reachable n w -> key_step w w' -> key_reachable n w'.

(** ** The block *)

(** sizeof(struct okm_tls_header): a pointer, a key and the rounds. *)
Definition HEADER : Z := 16.

Definition tls_align (align : Z) : Z := if align <? 8 then 8 else align.

(** [(n + align - 1) / align * align] of size_t. *)
Definition size_up (n align : Z) : Z := wrap64 (wrap64 (n + align - 1) / align * align).

Definition tls_lead (align : Z) : Z := size_up HEADER (tls_align align).
Definition tls_bytes (size align : Z) : Z := size_up (wrap64 (tls_lead align + size)) (tls_align align).

(** ** The variable of one thread *)

Definition PTHREAD_DESTRUCTOR_ITERATIONS : nat := 4.

(** [t_value] is the key's value; the header before the object it points at has the block
    and the rounds left; [t_bytes] the object's bytes; [t_freed] the blocks given back. *)
Record tls := Tls { t_value : Z; t_base : Z; t_rounds : nat; t_bytes : list Z; t_freed : list Z; t_used : bool }.

Definition tls_zero : tls := Tls 0 0 0 [] [] false.

(** The control: its size, alignment and the bytes its first value is at, if it has one. *)
Record control := Control { c_size : Z; c_align : Z; c_value : option (list Z) }.

(** memcpy and memset of [c->size] bytes: none where the first value has not so many. *)
Definition first_bytes (c : control) : option (list Z) :=
  match c_value c with
  | Some v => if Z.of_nat (length v) <? c_size c then None else Some (take (Z.to_nat (c_size c)) v)
  | None => Some (replicate (Z.to_nat (c_size c)) 0)
  end.

(** [base] is aligned_alloc's answer; abort has none. *)
Definition emutls_get_address (c : control) (base : Z) : M tls Z :=
  p ← gets t_value;
  if negb (p =? 0) then mret p
  else if base =? 0 then stuck
  else
    let p := base + tls_lead (c_align c) in
    bytes ← try (fun _ => first_bytes c);
    modify (fun t => Tls p base (PTHREAD_DESTRUCTOR_ITERATIONS - 1) bytes (t_freed t) true);;
    mret p.

Definition tls_release (object : Z) : M tls () :=
  rounds ← gets t_rounds;
  match rounds with
  | S k => modify (fun t => Tls object (t_base t) k (t_bytes t) (t_freed t) true)
  | O => modify (fun t => Tls (t_value t) (t_base t) 0 (t_bytes t) (t_base t :: t_freed t) (t_used t))
  end.

(** One round of __pthread_tsd_run_dtors, as it bears on this key. *)
Definition dtor_round : M tls () :=
  val ← gets t_value;
  modify (fun t => Tls 0 (t_base t) (t_rounds t) (t_bytes t) (t_freed t) false);;
  when (negb (val =? 0)) (tls_release val).

Fixpoint dtor_rounds (n : nat) : M tls () :=
  match n with
  | O => mret ()
  | S k => used ← gets t_used; if used : bool then dtor_round;; dtor_rounds k else mret ()
  end.

(** ** What is promised *)

Lemma key_reachable_ok n w : key_reachable n w ->
  (k_index w = 0 /\ k_made w = [] \/ exists k, 0 <= k /\ k_index w = k + 1 /\ k_made w = [k]) /\
  Forall (fun t => match t with K_have word => word = k_index w /\ word <> 0 | _ => True end) (k_threads w).
Proof.
  induction 1 as [|w w' _ [Hi Ht] Hstep]; [split; [by left|]; by apply Forall_replicate|]. destruct Hstep as [w t Hl|w t k Hl Hk]; cbn.
  - split; [done|]. apply Forall_insert; [done|]. unfold key_load. destruct (Z.eqb_spec (k_index w) 0); cbn [negb]; [done|by split].
  - unfold key_locked in *. destruct (Z.eqb_spec (k_index w) 0) as [E|E]; cbn.
    + destruct Hi as [[_ Hm]|(j & ? & ? & _)]; [|lia]. rewrite Hm. split; [right; by exists k|]. apply Forall_insert; [|split; [done|lia]].
      eapply list.Forall_impl; [exact Ht|]. intros [| |word]; [done|done|]. cbn. lia.
    + split; [done|]. by apply Forall_insert.
Qed.

(** Whatever threads reach a variable first, and however their loads and their turns
    under the lock interleave, one key is made for it at most, and every thread that has a
    key has that one. *)
Theorem emutls_one_key n w : key_reachable n w -> (length (k_made w) <= 1)%nat /\
  forall t word, k_threads w !! t = Some (K_have word) -> k_made w = [word - 1] /\ k_index w = word.
Proof.
  intros [Hi Ht]%key_reachable_ok. split; [destruct Hi as [[_ ->]|(k & _ & _ & ->)]; cbn; lia|].
  intros t word Hw. apply (Forall_lookup_1 _ _ _ _ Ht) in Hw as [-> Hne]. destruct Hi as [[? _]|(k & _ & -> & ->)]; [lia|]. split; [|done]. f_equal. lia.
Qed.

(** Two threads saw no key; the first has made it. *)
Definition key_raced : key_world := KeyWorld 8 [7] [K_have 8; K_lock].

Lemma emutls_one_key_witness : (length (k_made key_raced) <= 1)%nat /\
  forall t word, k_threads key_raced !! t = Some (K_have word) -> k_made key_raced = [word - 1] /\ k_index key_raced = word.
Proof.
  apply (emutls_one_key 2). eapply (kr_step 2 (KeyWorld 0 [] [K_lock; K_lock])); [|by apply (KS_lock (KeyWorld 0 [] [K_lock; K_lock]) 0 7)].
  eapply (kr_step 2 (KeyWorld 0 [] [K_lock; K_load])); [|by apply (KS_load (KeyWorld 0 [] [K_lock; K_load]) 1)].
  eapply (kr_step 2); [apply kr_start|]. by apply (KS_load (KeyWorld 0 [] [K_load; K_load]) 0).
Defined.

Lemma round_up a w : 0 < w -> a <= (a + w - 1) / w * w < a + w /\ ((a + w - 1) / w * w) mod w = 0.
Proof. intros Hw. pose proof (Z.div_mod (a + w - 1) w). pose proof (Z.mod_pos_bound (a + w - 1) w). split; [nia|]. apply Z.mod_mul. lia. Qed.

Lemma size_up_exact n align : 0 <= n -> 0 < align -> n + align - 1 < 2 ^ 64 -> size_up n align = (n + align - 1) / align * align.
Proof. intros Hn Ha Hf. pose proof (round_up n align Ha) as [Hr _]. unfold size_up, wrap64. rewrite (Z.mod_small (n + align - 1)) by lia. apply Z.mod_small. pose proof (Z.div_mod (n + align - 1) align). pose proof (Z.mod_pos_bound (n + align - 1) align). lia. Qed.

Lemma get_address_held c other t : t_value t <> 0 -> emutls_get_address c other t = Some (t_value t, t).
Proof. intros H. unfold emutls_get_address. rewrite (bind_run _ _ t (t_value t) t) by done. by replace (t_value t =? 0) with false by lia. Qed.

(** The block's size is one a size_t has: what __emutls_get_address computes does not wrap.
    The first value has as many bytes as the variable. *)
Record control_ok (c : control) : Prop := {
  co_align : exists k, 0 <= k /\ c_align c = 2 ^ k;
  co_size : 0 <= c_size c;
  co_fits : HEADER + c_size c + 2 * tls_align (c_align c) < 2 ^ 64;
  co_value : forall v, c_value c = Some v -> c_size c <= Z.of_nat (length v);
}.

(** C23. A thread's copy of a variable, of a size and alignment whose block a size_t can
    state, is in the block that was allocated for it: its header
    before it, inside the block and aligned, the whole object inside the block and aligned
    as it asks; the copy has the variable's first value. Its storage is given back exactly
    once, by the last of the four rounds of destructors; after each round before, every use
    of the variable still finds the same storage and bytes. *)
Theorem emutls_storage c base : control_ok c -> 0 < base -> base mod tls_align (c_align c) = 0 ->
  exists p t, emutls_get_address c base tls_zero = Some (p, t) /\
    base <= p - HEADER /\ (p - HEADER) mod 8 = 0 /\ p + c_size c <= base + tls_bytes (c_size c) (c_align c) /\ p mod c_align c = 0 /\
    t_bytes t = (match c_value c with Some v => take (Z.to_nat (c_size c)) v | None => replicate (Z.to_nat (c_size c)) 0 end) /\
    (forall n, (n < PTHREAD_DESTRUCTOR_ITERATIONS)%nat -> exists t', dtor_rounds n t = Some ((), t') /\ t_freed t' = [] /\
       t_bytes t' = t_bytes t /\ forall other, emutls_get_address c other t' = Some (p, t')) /\
    exists t', dtor_rounds PTHREAD_DESTRUCTOR_ITERATIONS t = Some ((), t') /\ t_freed t' = [base] /\ t_value t' = 0.
Proof.
  intros [(k & Hk & Ha) Hs Hfit Hval] Hb Hm. assert (0 < 2 ^ k) as Hpos by (apply Z.pow_pos_nonneg; lia). set (A := tls_align (c_align c)) in *.
  assert (0 < A /\ A mod 8 = 0 /\ A mod c_align c = 0) as (HA & HA8 & HAk).
  { unfold A, tls_align. destruct (Z.ltb_spec (c_align c) 8) as [Hlt|Hge].
    - split_and!; [done|done|]. rewrite Ha in *. assert (k < 3) by (apply (Z.pow_lt_mono_r_iff 2); [lia|lia|cbn; lia]). assert (k = 0 \/ k = 1 \/ k = 2) as [->|[->| ->]] by lia; done.
    - rewrite Ha in *. assert (3 <= k) by (apply (Z.pow_le_mono_r_iff 2); [lia|lia|cbn; lia]). split_and!; [lia| |by apply Z.mod_same; lia].
      replace (2 ^ k) with (2 ^ (k - 3) * 8); [by apply Z.mod_mul|]. change 8 with (2 ^ 3). rewrite <-Z.pow_add_r by lia. f_equal. lia. }
  destruct (round_up HEADER A HA) as [Hl1 Hl2]. destruct (round_up (tls_lead (c_align c) + c_size c) A HA) as [Ht1 _].
  assert (tls_lead (c_align c) = (HEADER + A - 1) / A * A) as Hlead by (apply size_up_exact; unfold HEADER in *; lia). rewrite <-Hlead in Hl1, Hl2.
  assert (tls_bytes (c_size c) (c_align c) = (tls_lead (c_align c) + c_size c + A - 1) / A * A) as Hbytes.
  { unfold tls_bytes. unfold HEADER in *. assert (0 <= tls_lead (c_align c) + c_size c < 2 ^ 64) by lia. unfold wrap64 at 1. rewrite Z.mod_small by lia. apply size_up_exact; fold A; lia. }
  rewrite <-Hbytes in Ht1.
  set (lead := tls_lead (c_align c)) in *. set (p := base + lead).
  assert (p mod A = 0) as HpA by (unfold p; rewrite Z.add_mod, Hm, Hl2 by lia; done).
  assert (forall d, 0 < d -> A mod d = 0 -> p mod d = 0) as Hdiv.
  { intros d Hd HAd. rewrite (Z.div_mod p A) by lia. rewrite HpA, Z.add_0_r, <-Z.mul_mod_idemp_l, HAd by lia. done. }
  unfold HEADER in *. assert (p <> 0) as Hp0 by lia. pose proof (Hdiv 8 ltac:(lia) HA8) as Hp8. pose proof (Hdiv (c_align c) ltac:(lia) HAk) as Hpk.
  assert (first_bytes c = Some (match c_value c with Some v => take (Z.to_nat (c_size c)) v | None => replicate (Z.to_nat (c_size c)) 0 end)) as Hfirst.
  { unfold first_bytes. destruct (c_value c) as [v|] eqn:Ev; [|done]. specialize (Hval v eq_refl). by replace (_ <? _) with false by lia. }
  eexists p, _. split; [unfold emutls_get_address; rewrite (bind_run _ _ tls_zero 0 tls_zero) by done; cbn [Z.eqb negb]; replace (base =? 0) with false by lia; rewrite (bind_run _ _ tls_zero _ tls_zero) by (unfold try; rewrite Hfirst; reflexivity); reflexivity|]. unfold PTHREAD_DESTRUCTOR_ITERATIONS. change (4 - 1)%nat with 3%nat. change (t_freed tls_zero) with (@nil Z). cbn [t_bytes].
  split; [lia|]. split; [by rewrite Zminus_mod, Hp8|]. split; [lia|]. split; [done|]. split; [done|].
  assert (forall n q b by_ f, q <> 0 -> dtor_round (Tls q b (S n) by_ f true) = Some ((), Tls q b n by_ f true)) as Hround.
  { intros n q b by_ f Hq. by destruct q. }
  assert (forall q b by_ f, q <> 0 -> dtor_round (Tls q b 0 by_ f true) = Some ((), Tls 0 b 0 by_ (b :: f) false)) as Hlast.
  { intros q b by_ f Hq. by destruct q. }
  assert (forall n q b by_ f r, q <> 0 -> dtor_rounds (S r) (Tls q b (S n) by_ f true) = dtor_rounds r (Tls q b n by_ f true)) as Hrounds.
  { intros n q b by_ f r Hq. cbn [dtor_rounds]. erewrite bind_run by reflexivity. cbn [t_used]. by erewrite bind_run by by apply Hround. }
  split.
  - intros n Hn. destruct n as [|[|[|[|n]]]]; [..|lia]; eexists; (split; [rewrite ?Hrounds by done; reflexivity|]); cbn [t_freed t_bytes];
      (split; [done|]; split; [done|]; intros other; by apply (get_address_held c other)).
  - eexists. split; [|split]; [rewrite !Hrounds by done; cbn [dtor_rounds]; erewrite bind_run by reflexivity; cbn [t_used]; erewrite bind_run by (by apply Hlast); reflexivity|done|done].
Qed.

Lemma emutls_storage_witness : exists p t, emutls_get_address (Control 2 32 (Some [7; 8; 9])) 4096 tls_zero = Some (p, t) /\
    4096 <= p - HEADER /\ p + 2 <= 4096 + tls_bytes 2 32 /\ p mod 32 = 0 /\ t_bytes t = [7; 8] /\
    exists t', dtor_rounds PTHREAD_DESTRUCTOR_ITERATIONS t = Some ((), t') /\ t_freed t' = [4096] /\ t_value t' = 0.
Proof.
  destruct (emutls_storage (Control 2 32 (Some [7; 8; 9])) 4096) as (p & t & E & H1 & _ & H2 & H3 & H4 & _ & H5); [|lia|reflexivity|].
  - constructor; cbn; [exists 5; split; [lia|reflexivity]|lia|reflexivity|intros v [= <-]; cbn; lia].
  - exists p, t. split; [exact E|]. split; [exact H1|]. split; [exact H2|]. split; [exact H3|]. split; [exact H4|]. exact H5.
Defined.
