(* ===== verification/MiPrim.v ===== *)
(** The primitives mimalloc takes its memory by (port/src/mimalloc/okm_mimalloc_prim.c): what
    is reserved of the environment and given back, its backing, and what is a snapshot's and
    is never given back. mimalloc itself is not in this repository: it is a client that
    frees what it holds. The environment is given back exactly what it gave. *)
From S2P Require Import Prelude Kal Region RegionOk.
From stdpp Require Import base list option.
From Stdlib Require Import ZArith Lia.

#[local] Open Scope Z_scope.

(** [mp_given] is what the environment gave and has not back, [mp_calls] what was asked of
    it, the latest first; the three cells are okm_stat.h's, which wrap. *)
Record mi_prim := MiPrim {
  mp_regions : bool;
  mp_grain : Z;
  mp_given : list (Z * Z);
  mp_calls : list env_call;
  mp_reserves : Z;
  mp_releases : Z;
  mp_reserved : Z;
}.

Definition mp_zero : mi_prim := MiPrim false 0 [] [] 0 0 0.

(** What is told to mimalloc: page, granularity, reservation and overcommitment. *)
Record mem_config := MemConfig { page_size : Z; alloc_granularity : Z; has_virtual_reserve : bool; has_overcommit : bool }.

Section prim.
(** The snapshot, whether cells are counted, and the environment's granularity, whether it
    has every operation of openkal.region and whether those overcommit. *)
Context (sn : okm_snapshot) (prof : bool) (granularity : Z) (has_regions overcommits : bool).

Definition mi_prim_mem_init : M mi_prim mem_config :=
  let g := grain granularity in
  modify (fun m => MiPrim has_regions g (mp_given m) (mp_calls m) (mp_reserves m) (mp_releases m) (mp_reserved m));;
  mret (MemConfig g g has_regions (has_regions && overcommits)).

Definition whole_grains (g n : Z) : Z := Z.land (wrap64 (n + g - 1)) (Z.lnot (g - 1)).

Definition asks (c : env_call) : M mi_prim () :=
  modify (fun m => MiPrim (mp_regions m) (mp_grain m) (mp_given m) (c :: mp_calls m) (mp_reserves m) (mp_releases m) (mp_reserved m)).
Definition gives (p n : Z) : M mi_prim () :=
  modify (fun m => MiPrim (mp_regions m) (mp_grain m) ((p, n) :: mp_given m) (mp_calls m) (mp_reserves m) (mp_releases m) (mp_reserved m)).
(** The environment takes back what it gave, whole. *)
Definition takes_back (p n : Z) : M mi_prim () :=
  put_try (fun m => l ← remove_one (p, n) (mp_given m); Some (MiPrim (mp_regions m) (mp_grain m) l (mp_calls m) (mp_reserves m) (mp_releases m) (mp_reserved m))).

Definition count_reserve (n : Z) : M mi_prim () :=
  when prof (modify (fun m => MiPrim (mp_regions m) (mp_grain m) (mp_given m) (mp_calls m) (wrap64 (mp_reserves m + 1)) (mp_releases m) (wrap64 (mp_reserved m + n)))).
Definition count_release (n : Z) : M mi_prim () :=
  when prof (modify (fun m => MiPrim (mp_regions m) (mp_grain m) (mp_given m) (mp_calls m) (mp_reserves m) (wrap64 (mp_releases m + 1)) (wrap64 (mp_reserved m - n)))).

(** [p] is what kal_region_reserve or kal_alloc answers. The answer: an error, whether the
    memory reads as zero, and the address. *)
Definition mi_prim_alloc (size try_alignment : Z) (p : Z) : M mi_prim (Z * bool * Z) :=
  g ← gets mp_grain;
  regions ← gets mp_regions;
  let size := whole_grains g size in
  if regions : bool then
    let align := if (g <? try_alignment) && (Z.land try_alignment (try_alignment - 1) =? 0) then try_alignment else g in
    asks (C_reserve p size align);;
    if p =? 0 then mret (ENOMEM, true, p)
    else gives p size;; count_reserve size;; mret (0, true, p)
  else
    asks (C_alloc p size);;
    if p =? 0 then mret (ENOMEM, false, p) else gives p size;; mret (0, false, p).

Definition mi_prim_free (addr size : Z) : M mi_prim Z :=
  if (size =? 0) || okm_from_snapshot sn addr then mret 0
  else
    g ← gets mp_grain;
    regions ← gets mp_regions;
    let size := whole_grains g size in
    (if regions : bool then asks (C_release addr size);; takes_back addr size;; count_release size
     else asks (C_free addr size);; takes_back addr size);;
    mret 0.

(** [e] is the environment's answer. *)
Definition mi_prim_commit (addr size : Z) (e : kal_error) : M mi_prim Z :=
  regions ← gets mp_regions;
  if negb regions || okm_from_snapshot sn addr then mret 0
  else asks (C_commit addr size);; mret (if bool_decide (e = kal_ok) then 0 else ENOMEM).

(** Answers also whether the memory must be committed again. *)
Definition mi_prim_decommit (addr size : Z) (e : kal_error) : M mi_prim (Z * bool) :=
  regions ← gets mp_regions;
  if negb regions || okm_from_snapshot sn addr then mret (0, false)
  else asks (C_decommit addr size);; mret (if bool_decide (e = kal_ok) then 0 else EINVAL, true).

Definition mi_prim_reset (addr size : Z) (e : kal_error) : M mi_prim Z :=
  regions ← gets mp_regions;
  if negb regions || okm_from_snapshot sn addr then mret 0
  else asks (C_discard addr size);; mret (if bool_decide (e = kal_ok) then 0 else EINVAL).

(** ** A client *)

(** [pw_held] are the blocks the allocator holds, with the sizes it asked for. *)
Record prim_world := PrimWorld { pw_prim : mi_prim; pw_held : list (Z * Z) }.

(** A size that does not wrap when it is made whole. *)
Definition sized (n : Z) : Prop := 0 < n <= 2 ^ 63.

Inductive prim_step : prim_world -> prim_world -> Prop :=
| PS_alloc w size try_alignment p r z m : sized size -> okm_from_snapshot sn p = false -> 
    mi_prim_alloc size try_alignment p (pw_prim w) = Some ((r, z, p), m) ->
    prim_step w (PrimWorld m (if r =? 0 then (p, size) :: pw_held w else pw_held w))
| PS_free w addr size asked before after r m : pw_held w = before ++ (addr, asked) :: after -> sized size ->
    whole_grains (mp_grain (pw_prim w)) size = whole_grains (mp_grain (pw_prim w)) asked ->
    mi_prim_free addr size (pw_prim w) = Some (r, m) -> prim_step w (PrimWorld m (before ++ after))
| PS_commit w addr size e r m : mi_prim_commit addr size e (pw_prim w) = Some (r, m) -> prim_step w (PrimWorld m (pw_held w))
| PS_decommit w addr size e r m : mi_prim_decommit addr size e (pw_prim w) = Some (r, m) -> prim_step w (PrimWorld m (pw_held w))
| PS_reset w addr size e r m : mi_prim_reset addr size e (pw_prim w) = Some (r, m) -> prim_step w (PrimWorld m (pw_held w)).

(** From the initialisation on; a program started from a snapshot holds what its
    initialisers took, [old], all of it in the snapshot's arena. *)
Inductive prim_reachable : prim_world -> Prop :=
| pr_start old c m : mi_prim_mem_init mp_zero = Some (c, m) -> Forall (fun b => okm_from_snapshot sn b.1 = true) old -> prim_reachable (PrimWorld m old)
| pr_step w w' : prim_reachable w -> prim_step w w' -> prim_reachable w'.
End prim.

(** ** What the primitives promise *)

(** Where a call that gives back or alters memory is made. *)
Definition altered (c : env_call) : option Z :=
  match c with
  | C_release p _ | C_free p _ | C_commit p _ | C_decommit p _ | C_discard p _ => Some p
  | _ => None
  end.

Definition total (l : list (Z * Z)) : Z := foldr (fun b n => b.2 + n) 0 l.

Lemma total_perm l k : l ≡ₚ k -> total l = total k.
Proof. unfold total. induction 1; cbn in *; lia. Qed.

(** What the environment gave for a block of the allocator, if it is not the snapshot's. *)
Definition given_for (sn : okm_snapshot) (g : Z) (held : list (Z * Z)) : list (Z * Z) :=
  (fun b => (b.1, whole_grains g b.2)) <$> List.filter (fun b => negb (okm_from_snapshot sn b.1)) held.

Record prim_ok (sn : okm_snapshot) (prof : bool) (granularity : Z) (has_regions : bool) (w : prim_world) : Prop := {
  po_grain : mp_grain (pw_prim w) = grain granularity;
  po_regions : mp_regions (pw_prim w) = has_regions;
  po_given : mp_given (pw_prim w) ≡ₚ given_for sn (grain granularity) (pw_held w);
  po_calls : Forall (fun c => forall p, altered c = Some p -> okm_from_snapshot sn p = false) (mp_calls (pw_prim w));
  po_cell : mp_reserved (pw_prim w) = if prof && has_regions then wrap64 (total (mp_given (pw_prim w))) else 0;
}.

Section accounted.
Context (sn : okm_snapshot) (prof : bool) (granularity : Z) (has_regions overcommits : bool) (Hgran : 0 <= granularity < 2 ^ 64).

Notation ok := (prim_ok sn prof granularity has_regions).

Lemma prim_alloc_ok w size try_alignment p r z m : ok w -> okm_from_snapshot sn p = false ->
  mi_prim_alloc prof size try_alignment p (pw_prim w) = Some ((r, z, p), m) -> ok (PrimWorld m (if r =? 0 then (p, size) :: pw_held w else pw_held w)).
Proof.
  intros [Hg Hr Hgiven Hc Hcell] Hp. unfold mi_prim_alloc, count_reserve, asks, gives, when. unfold mbind, M_bind, gets. rewrite Hg, Hr.
  destruct has_regions; cbn; rewrite ?andb_false_r, ?andb_true_r in Hcell.
  - destruct (Z.eqb_spec p 0); [intros [= <- <- <-]; cbn [Z.eqb]; split; cbn -[total]; rewrite ?andb_true_r; try done; by constructor|].
    destruct prof; intros [= <- <- <-]; cbn [Z.eqb]; (split; cbn -[total]; try done; try (by cbn; rewrite Hp, Hgiven); try (by constructor)).
    rewrite Hcell. unfold wrap64, total. cbn [foldr snd]. rewrite Z.add_mod_idemp_l, Z.add_comm by lia. done.
  - destruct (Z.eqb_spec p 0); intros [= <- <- <-]; cbn [Z.eqb]; (split; cbn; rewrite ?andb_false_r; try done; try (by rewrite Hp, Hgiven); try (by constructor)).
Qed.

(** The block is among what the environment gave, unless it is the snapshot's. *)
Lemma held_given w addr asked before after : ok w -> pw_held w = before ++ (addr, asked) :: after -> okm_from_snapshot sn addr = false ->
  exists l, remove_one (addr, whole_grains (grain granularity) asked) (mp_given (pw_prim w)) = Some l /\ l ≡ₚ given_for sn (grain granularity) (before ++ after) /\
    mp_given (pw_prim w) ≡ₚ (addr, whole_grains (grain granularity) asked) :: l.
Proof.
  intros Hok Hh Hs. destruct (remove_one_perm (addr, whole_grains (grain granularity) asked) (mp_given (pw_prim w)) (given_for sn (grain granularity) (before ++ after))) as (l & Hl & Hp).
  { rewrite (po_given _ _ _ _ w Hok), Hh. unfold given_for. rewrite !List.filter_app, !fmap_app. cbn [List.filter fst]. rewrite Hs. cbn. by rewrite Permutation_middle. }
  exists l. split_and!; [done|done|]. rewrite Hp, (po_given _ _ _ _ w Hok), Hh. unfold given_for. rewrite !List.filter_app, !fmap_app. cbn [List.filter fst]. rewrite Hs. cbn. by rewrite Permutation_middle.
Qed.

Lemma prim_free_ok w addr size asked before after : ok w -> pw_held w = before ++ (addr, asked) :: after -> sized size ->
  whole_grains (grain granularity) size = whole_grains (grain granularity) asked ->
  exists m, mi_prim_free sn prof addr size (pw_prim w) = Some (0, m) /\ ok (PrimWorld m (before ++ after)).
Proof.
  intros Hok Hh Hs Hw. unfold mi_prim_free. replace (size =? 0) with false by (unfold sized in Hs; lia). destruct (okm_from_snapshot sn addr) eqn:Esn; cbn [orb].
  - eexists. split; [reflexivity|]. destruct Hok as [Hg Hr Hgiven Hc Hcell]. split; cbn; try done. rewrite Hgiven, Hh. unfold given_for.
    rewrite !List.filter_app, !fmap_app. cbn [List.filter fst]. by rewrite Esn.
  - destruct (held_given w addr asked before after Hok Hh Esn) as (l & Hl & Hp & Hall). destruct Hok as [Hg Hr Hgiven Hc Hcell]. rewrite <-Hw in Hl, Hall.
    unfold asks, takes_back, count_release, when, put_try. unfold mbind, M_bind, gets, modify, mret, M_ret. rewrite Hg, Hr.
    destruct has_regions; cbn; rewrite Hl; cbn; [destruct prof|]; (eexists; split; [reflexivity|]; split; cbn; try done);
      try (constructor; [by intros ? [= <-]|done]); rewrite ?andb_false_r in *; try done.
    cbn [andb] in Hcell. rewrite Hcell, (total_perm _ _ Hall). unfold wrap64, total. cbn [foldr snd]. rewrite Zminus_mod_idemp_l. f_equal. lia.
Qed.

Lemma advised_ok w c : ok w -> (forall p, altered c = Some p -> okm_from_snapshot sn p = false) ->
  ok (PrimWorld (MiPrim (mp_regions (pw_prim w)) (mp_grain (pw_prim w)) (mp_given (pw_prim w)) (c :: mp_calls (pw_prim w)) (mp_reserves (pw_prim w)) (mp_releases (pw_prim w)) (mp_reserved (pw_prim w))) (pw_held w)).
Proof. intros [Hg Hr Hgiven Hc Hcell] H. split; cbn; try done. by constructor. Qed.

Lemma prim_reachable_ok w : prim_reachable sn prof granularity has_regions overcommits w -> ok w.
Proof.
  induction 1 as [old c m Hinit Hold|w w' _ IH Hstep].
  - injection Hinit as <- <-. split; cbn; try done; [|by destruct (prof && has_regions)].
    unfold given_for. replace (List.filter _ old) with (@nil (Z * Z)); [done|]. induction Hold as [|b old Hb _ IH]; [done|]. cbn. by rewrite Hb.
  - destruct Hstep as [w size a p r z m Hs Hp Hrun|w addr size asked before after r m Hh Hs Hw Hrun|w addr size e r m Hrun|w addr size e r m Hrun|w addr size e r m Hrun].
    + by apply (prim_alloc_ok w size a p r z m).
    + rewrite (po_grain _ _ _ _ w IH) in Hw. destruct (prim_free_ok w addr size asked before after IH Hh Hs Hw) as (m' & Hm & Hok). rewrite Hrun in Hm. by injection Hm as _ ->.
    + unfold mi_prim_commit, asks, mbind, M_bind, gets, modify, mret, M_ret in Hrun. destruct (negb _ || _) eqn:E; injection Hrun as <- <-; [by destruct w|]. boolean. apply advised_ok; [done|]. by intros ? [= <-].
    + unfold mi_prim_decommit, asks, mbind, M_bind, gets, modify, mret, M_ret in Hrun. destruct (negb _ || _) eqn:E; injection Hrun as <- <-; [by destruct w|]. boolean. apply advised_ok; [done|]. by intros ? [= <-].
    + unfold mi_prim_reset, asks, mbind, M_bind, gets, modify, mret, M_ret in Hrun. destruct (negb _ || _) eqn:E; injection Hrun as <- <-; [by destruct w|]. boolean. apply advised_ok; [done|]. by intros ? [= <-].
Qed.

(** C21. Whatever the allocator reserves, frees, commits and lets go, with or without
    openkal.region and in a program started from a snapshot or not: what the environment
    has given and not got back is exactly what the allocator holds, each block of the whole
    pages it asked for and as many, the snapshot's apart; a block that is held can always be
    given back, and the release is of the very size that was given; nothing in the
    snapshot's arena is ever released, committed or discarded; and the cell that counts the
    bytes reserved is their sum. *)
Theorem mi_prim_accounted w : prim_reachable sn prof granularity has_regions overcommits w ->
  mp_given (pw_prim w) ≡ₚ given_for sn (grain granularity) (pw_held w) /\
  (forall n, sized n -> n <= whole_grains (grain granularity) n < n + grain granularity /\ whole_grains (grain granularity) n mod grain granularity = 0) /\
  (forall addr size asked, (addr, asked) ∈ pw_held w -> sized size -> whole_grains (grain granularity) size = whole_grains (grain granularity) asked ->
     exists m, mi_prim_free sn prof addr size (pw_prim w) = Some (0, m)) /\
  Forall (fun c => forall p, altered c = Some p -> okm_from_snapshot sn p = false) (mp_calls (pw_prim w)) /\
  (prof = true -> has_regions = true -> mp_reserved (pw_prim w) = wrap64 (total (mp_given (pw_prim w)))).
Proof.
  intros Hok%prim_reachable_ok. pose proof (grain_page granularity Hgran) as Hpage. split; [apply Hok|]. split.
  - intros n Hn. destruct Hpage as (k & Hk & Eg). unfold sized in Hn. assert (grain granularity <= 2 ^ 63) as Hg63 by (rewrite Eg; apply Z.pow_le_mono_r; lia).
    destruct (whole_pages_ok (grain granularity) ltac:(by exists k) n) as [Hm Hb]; [lia|lia|]. by split.
  - split; [|split; [apply Hok|]].
    + intros addr size asked (b & a & Hh)%list_elem_of_split Hs Hw. destruct (prim_free_ok w addr size asked b a Hok Hh Hs Hw) as (m & Hm & _). eauto.
    + intros Hp Hr. rewrite (po_cell _ _ _ _ w Hok), Hp, Hr. done.
Qed.
End accounted.

(** Started from a snapshot whose arena is 2^20 bytes at 2^30, one block of which it holds,
    the allocator has reserved 5000 bytes at 2^40. *)
Definition small_snapshot : okm_snapshot := Snapshot (2 ^ 30) (2 ^ 20) 2 1.
Definition held_both : prim_world :=
  PrimWorld (MiPrim true 4096 [(2 ^ 40, 8192)] [C_reserve (2 ^ 40) 8192 4096] 1 0 8192) [(2 ^ 40, 5000); (2 ^ 30, 4096)].

Lemma held_both_reachable : prim_reachable small_snapshot true 4096 true true held_both.
Proof.
  eapply (pr_step _ _ _ _ _ (PrimWorld (MiPrim true 4096 [] [] 0 0 0) [(2 ^ 30, 4096)])).
  - eapply pr_start; [reflexivity|]. by repeat constructor.
  - refine (PS_alloc _ _ (PrimWorld (MiPrim true 4096 [] [] 0 0 0) [(2 ^ 30, 4096)]) 5000 0 (2 ^ 40) 0 true (pw_prim held_both) _ _ _); [unfold sized; lia|done|done].
Qed.

Lemma mi_prim_accounted_witness : exists m, mi_prim_free small_snapshot true (2 ^ 40) 8192 (pw_prim held_both) = Some (0, m).
Proof.
  destruct (mi_prim_accounted small_snapshot true 4096 true true ltac:(lia) held_both held_both_reachable) as (_ & _ & H & _).
  apply (H (2 ^ 40) 8192 5000); [by left|unfold sized; lia|done].
Defined.
