(* ===== verification/Replacements.v ===== *)
(** musl's sources this port replaces outright, over the calls modelled before: the value a
    call returns through and mmap (port/src/okm_mman.c), getcwd (okm_getcwd.c), fcntl
    (okm_fcntl.c), and the name realpath answers where the environment answers it
    (okm_realpath.c). *)
From S2P Require Import Prelude Kal FdTable Names Region Mmap Calls.
From stdpp Require Import base list option.
From Stdlib Require Import ZArith Lia.

#[local] Open Scope Z_scope.

(** ** The value a call returns through *)

(** [r] is the call's answer as an unsigned word; the value returned and what errno is set to. *)
Definition syscall_ret (r : Z) : Z * option Z :=
  if wrap64 (-4096) <? r then (-1, Some (sext32 (wrap32 (- sext64 r)))) else (sext64 r, None).

(** The answer of a call, made the word it is returned in. *)
Definition returned (r : Z) : Z * option Z := syscall_ret (wrap64 r).

Definition PTRDIFF_MAX : Z := 2 ^ 63 - 1.
Definition MAP_FIXED : Z := 0x10.
Definition UNIT : Z := 4096.
Definition OFF_MASK : Z := Z.lor (wrap64 (Z.shiftl (- 0x2000) 63)) (UNIT - 1).

(** [call] is the system call with the arguments it is given. *)
Definition mmap {S} (start len prot flags fd off : Z) (call : M S Z) : M S (Z * option Z) :=
  if negb (Z.land (wrap64 off) OFF_MASK =? 0) then mret (-1, Some EINVAL)
  else if PTRDIFF_MAX <=? len then mret (-1, Some ENOMEM)
  else
    ret ← call;
    mret (returned (if (ret =? - EPERM) && (start =? 0) && has flags MAP_ANON && negb (has flags MAP_FIXED) then - ENOMEM else ret)).

(** ** The working directory *)

Definition ERANGE : Z := 34.

(** The call: an error, or the bytes written with the terminator. *)
Definition sys_getcwd (g : names) (size : Z) : Z + str :=
  let n := len (g_cwd g) + 1 in
  if size <? n then inl (- ERANGE) else inr (g_cwd g ++ [0]).

(** [buf]: whether a buffer was given; [storage]: whether strdup has memory. An error sets
    errno, no storage leaves strdup's own. *)
Definition getcwd (g : names) (buf : bool) (size : Z) (storage : bool) : Z + option str :=
  if buf && (size =? 0) then inl EINVAL
  else
    match sys_getcwd g (if buf then size else OKM_MAX_PATH) with
    | inl e => inl (- e)
    | inr bytes => if len bytes =? 0 then inl ENOENT else inr (if buf || storage then Some bytes else None)
    end.

(** ** fcntl *)

Section fcntl.
Context (me : Z) (can_bound : bool).

(** The commands of the dispatcher this function gives a meaning of its own, and the rest. *)
Inductive fcntl_request := R_plain (cmd : fcntl_cmd) | R_GETOWN.

Definition O_LARGEFILE : Z := 0x8000.

Definition sys_fcntl (fd : Z) (cmd : fcntl_cmd) (arg : Z) (fl : option flock) (here : kal_error + Z) (e : kal_error) : M fd_table Z :=
  r ← do_fcntl me can_bound fd cmd arg fl here e; mret r.1.

Definition fcntl (fd : Z) (req : fcntl_request) (arg : Z) (fl : option flock) (here : kal_error + Z) (e : kal_error) : M fd_table (Z * option Z) :=
  match req with
  | R_GETOWN =>
      ret ← sys_fcntl fd F_OTHER 0 None here e;
      if ret =? - EINVAL then r ← sys_fcntl fd F_OTHER arg None here e; mret (r, None)
      else mret (returned ret)
  | R_plain F_DUPFD_CLOEXEC =>
      ret ← sys_fcntl fd F_DUPFD_CLOEXEC arg None here e;
      if negb (ret =? - EINVAL) then
        when (0 <=? ret) (sys_fcntl ret F_SETFD FD_CLOEXEC None here e;; mret ());;
        mret (returned ret)
      else
        ret ← sys_fcntl fd F_DUPFD_CLOEXEC 0 None here e;
        if negb (ret =? - EINVAL) then
          when (0 <=? ret) (do_close me ret;; mret ());;
          mret (returned (- EINVAL))
        else
          ret ← sys_fcntl fd F_DUPFD arg None here e;
          when (0 <=? ret) (sys_fcntl ret F_SETFD FD_CLOEXEC None here e;; mret ());;
          mret (returned ret)
  | R_plain cmd =>
      let arg := if bool_decide (cmd = F_SETFL) then Z.lor arg O_LARGEFILE else arg in
      ret ← sys_fcntl fd cmd arg fl here e;
      mret (returned ret)
  end.
End fcntl.

(** ** realpath *)

Fixpoint upto_separator (p : str) : str * str :=
  match p with
  | c :: p' => if separator c then ([], p) else let '(s, r) := upto_separator p' in (c :: s, r)
  | [] => ([], [])
  end.

Fixpoint after_separators (p : str) : str :=
  match p with
  | c :: p' => if separator c then after_separators p' else p
  | [] => []
  end.

Fixpoint plain_loop (fuel : nat) (p : str) : option bool :=
  match fuel with
  | O => None
  | S k =>
      let '(s, r) := upto_separator p in
      if is_dot s || is_dotdot s then Some false
      else match r with
           | [] => Some true
           | _ => match after_separators r with [] => Some false | q => plain_loop k q end
           end
  end.

Definition plain_path (name : str) : option bool := match name with [] => Some false | _ => plain_loop (length name) name end.

(** A name whose root is a volume has its separators made forward, from its third byte. *)
Definition respell (out : str) : str :=
  if (3 <=? len out) && (char_at out 1 =? colon) && separator (char_at out 2) then take 2 out ++ (to_slash <$> drop 2 out) else out.

(** [resolved]: kal_fs_resolved_name, if the environment has it: an error, or the name's own
    length and the bytes put. The answer, and what is in the caller's buffer before the
    terminator where the answer is above zero. *)
Definition okm_realpath (t : fd_table) (g : names) (name : option str) (cap : Z) (resolved : option (Z -> str -> Z -> kal_error + Z * str)) : option (Z * str) :=
  match name with
  | None => Some (0, [])
  | Some name =>
      plain ← plain_path name;
      if negb plain then Some (0, [])
      else if okm_null_name t g AT_FDCWD name then
        if cap <? len null_device + 1 then Some (- ENAMETOOLONG, []) else Some (len null_device, null_device)
      else
        match resolved with
        | None => Some (0, [])
        | Some resolved =>
            match okm_resolve t g AT_FDCWD name false with
            | inl _ => Some (0, [])
            | inr a =>
                match resolved (at_base a) (at_rel a) cap with
                | inl e => if bool_decide (e = kal_err_not_supported) then Some (0, []) else Some (- okm_errno e, [])
                | inr (n, bytes) => if cap <=? n then Some (- ENAMETOOLONG, []) else Some (n, respell bytes)
                end
            end
        end
  end.
