(* ===== verification/ReplacementsTheorems.v ===== *)
(** What the replaced sources promise a program. *)
From S2P Require Import Prelude Kal FdTable FdTableOk FdTheorems Names NamesOk NamesTheorems Region Mmap Calls Replacements.
From stdpp Require Import base list option.
From Stdlib Require Import ZArith Lia.

#[local] Open Scope Z_scope.

(** ** The value a call returns through *)

Lemma returned_error e : 1 <= e < 4096 -> returned (- e) = (-1, Some e).
Proof.
  intros He. unfold returned, syscall_ret. assert (wrap64 (- e) = 2 ^ 64 - e) as ->.
  { unfold wrap64. rewrite <-(Z_mod_plus_full _ 1), Z.mod_small; lia. }
  change (wrap64 (-4096)) with (2 ^ 64 - 4096). replace (_ <? _) with true by lia. do 2 f_equal.
  unfold sext64. replace (2 ^ 64 - e + 2 ^ 63) with (2 ^ 63 - e + 1 * 2 ^ 64) by lia. rewrite Z_mod_plus_full, Z.mod_small by lia.
  replace (- (2 ^ 63 - e - 2 ^ 63)) with e by lia. unfold wrap32. rewrite (Z.mod_small e) by lia. unfold sext32. rewrite Z.mod_small; lia.
Qed.

Lemma returned_value r : - 2 ^ 63 <= r < 2 ^ 63 -> ~ (-4096 < r < 0) -> returned r = (r, None).
Proof.
  intros Hr Hn. unfold returned, syscall_ret. change (wrap64 (-4096)) with (2 ^ 64 - 4096).
  assert (wrap64 r = if r <? 0 then r + 2 ^ 64 else r) as ->.
  { unfold wrap64. destruct (Z.ltb_spec r 0); [rewrite <-(Z_mod_plus_full _ 1)|]; rewrite Z.mod_small; lia. }
  replace (_ <? _) with false by (destruct (Z.ltb_spec r 0); lia). f_equal. unfold sext64. destruct (Z.ltb_spec r 0).
  - replace (r + 2 ^ 64 + 2 ^ 63) with (r + 2 ^ 63 + 1 * 2 ^ 64) by lia. rewrite Z_mod_plus_full, Z.mod_small; lia.
  - rewrite Z.mod_small; lia.
Qed.

(** Every answer of a call reaches the program as POSIX has it: each error of openkal as
    minus one with its number in errno, and every other answer, addresses in the upper half
    included, unchanged and errno left alone. mmap refuses an offset inside a page and a
    length beyond any object before it asks, and tells a refusal to place anonymous memory
    nowhere in particular as no memory. *)
Theorem answers_returned {S} (call : M S Z) s r s' start len prot flags fd off : call s = Some (r, s') -> - 2 ^ 63 <= r < 2 ^ 63 ->
  (forall e, e <> kal_ok -> returned (- okm_errno e) = (-1, Some (okm_errno e))) /\
  (~ (-4096 < r < 0) -> returned r = (r, None)) /\
  (off mod 4096 <> 0 -> mmap start len prot flags fd off call s = Some ((-1, Some EINVAL), s)) /\
  (off mod 4096 = 0 -> 2 ^ 63 - 1 <= len -> mmap start len prot flags fd off call s = Some ((-1, Some ENOMEM), s)) /\
  (off mod 4096 = 0 -> len < 2 ^ 63 - 1 -> mmap start len prot flags fd off call s =
     Some (if (r =? - EPERM) && (start =? 0) && has flags MAP_ANON && negb (has flags MAP_FIXED) then (-1, Some ENOMEM) else returned r, s')).
Proof.
  intros Hc Hr. assert (Z.land (wrap64 off) OFF_MASK = off mod 4096) as Hoff.
  { change OFF_MASK with (2 ^ 12 - 1). rewrite land_low by lia. unfold wrap64. apply Z.mod_mod_divide. by exists (2 ^ 52). }
  split; [|split; [|split; [|split]]].
  - intros e He. apply returned_error. pose proof (errno_pos e He). pose proof (okm_errno_range e). lia.
  - by apply returned_value.
  - intros Ho. unfold mmap. rewrite Hoff. by replace (_ =? 0) with false by lia.
  - intros Ho Hl. unfold mmap. rewrite Hoff, Ho. cbn [Z.eqb negb]. unfold PTRDIFF_MAX. by replace (_ <=? len) with true by lia.
  - intros Ho Hl. unfold mmap. rewrite Hoff, Ho. cbn [Z.eqb negb]. unfold PTRDIFF_MAX. replace (_ <=? len) with false by lia.
    rewrite (bind_run _ _ _ _ _ Hc). by destruct (_ && _ && _ && _); [rewrite returned_error by (vm_compute; split; [discriminate|reflexivity])|].
Qed.

Lemma answers_returned_witness : mmap 0 4096 3 (Z.lor MAP_ANON 2) (-1) 0 (mret (- EPERM) : M () Z) () = Some ((-1, Some ENOMEM), ()).
Proof. destruct (answers_returned (mret (- EPERM) : M () Z) () (- EPERM) () 0 4096 3 (Z.lor MAP_ANON 2) (-1) 0) as (_ & _ & _ & _ & H); [done|done|]. by apply H. Defined.

(** ** The working directory *)

(** getcwd gives the whole name with its terminator, or reports that it does not fit. *)
Lemma getcwd_whole g size : 0 < size -> getcwd g true size true = if size <? len (g_cwd g) + 1 then inl ERANGE else inr (Some (g_cwd g ++ [0])).
Proof.
  intros Hs. unfold getcwd, sys_getcwd. replace (size =? 0) with false by lia. cbn [andb]. destruct (size <? len (g_cwd g) + 1); [done|].
  rewrite len_app. pose proof (len_nonneg (g_cwd g)). replace (_ =? 0) with false by (change (len [0]) with 1; lia). done.
Qed.

(** ** fcntl *)

Lemma setfd_again me can_bound t n d here e : okm_desc_of t n = Some d -> at_ (g_fd t) n = Some (d, 1) -> is_Some (at_ (g_desc t) d) ->
  (sys_fcntl me can_bound n F_SETFD FD_CLOEXEC None here e;; mret ()) t = Some ((), t).
Proof.
  intros Hof Hat [p Hp]. unfold sys_fcntl, do_fcntl, mbind, M_bind, gets. change (id t) with t. rewrite Hof. cbn [mbind option_bind]. rewrite Hp. cbn [mbind option_bind].
  pose proof Hof as (Hr & Hd & _)%okm_desc_of_some. unfold okm_fd_cloexec. replace (_ || _) with false by lia. unfold mbind, M_bind. rewrite (get_fd_eq _ _ _ Hat). cbn [fst].
  replace (d <? 0) with false by lia. unfold put_fd, put_try, set_at. pose proof (at_range _ _ _ Hat). replace (_ && _) with true by lia. cbn. change (has FD_CLOEXEC FD_CLOEXEC) with true. cbn.
  apply at_lookup in Hat. rewrite list_insert_id by done. by destruct t.
Qed.

(** fcntl's F_DUPFD_CLOEXEC answers the lowest descriptor that is free and not below the
    one given, of the same description and marked to be closed on exec, and every other
    descriptor is as it was; where there is none, EMFILE and nothing changes. The attempts
    it makes should that command be unknown are never made. F_GETOWN, which the dispatcher
    does not know, answers minus EINVAL as a value and leaves errno alone. *)
Theorem fcntl_duplicates me can_bound t fd d arg here e : table_ok t -> okm_desc_of t fd = Some d ->
  let n := okm_fd_alloc t arg in
  (n < 0 -> fcntl me can_bound fd (R_plain F_DUPFD_CLOEXEC) arg None here e t = Some ((-1, Some EMFILE), t)) /\
  (0 <= n -> Z.max 0 arg <= n /\ (forall j, Z.max 0 arg <= j < n -> okm_desc_of t j <> None) /\
     exists t', fcntl me can_bound fd (R_plain F_DUPFD_CLOEXEC) arg None here e t = Some ((n, None), t') /\ table_ok t' /\
       okm_desc_of t' n = Some d /\ at_ (g_fd t') n = Some (d, 1) /\ others_kept n t t') /\
  fcntl me can_bound fd R_GETOWN arg None here e t = Some ((- EINVAL, None), t).
Proof.
  intros Ht Hof n. destruct (named_live t Ht fd d Hof) as (p & Hp & _). destruct (fd_alloc_lowest t arg Ht) as [Hsome Hnone]. fold n in Hsome, Hnone.
  assert (forall cmd a, sys_fcntl me can_bound fd cmd a None here e t = (r ← do_fcntl me can_bound fd cmd a None here e; mret r.1) t) as Hsys by done.
  assert (forall a, do_fcntl me can_bound fd F_DUPFD_CLOEXEC a None here e t = (r ← (let nfd := okm_fd_alloc t a in if nfd <? 0 then mret nfd else okm_fd_dup true me fd nfd 1); mret (r, None)) t) as Hdup.
  { intros a. unfold do_fcntl. rewrite (bind_run _ _ t t t) by done. rewrite Hof. cbn [mbind option_bind]. by rewrite Hp. }
  split; [|split].
  - intros Hn. destruct (Hnone Hn) as [En _]. unfold fcntl.
    rewrite (bind_run _ _ t n t); [|rewrite Hsys, (bind_run _ _ t (n, None) t); [done|]; rewrite Hdup; fold n; cbn zeta; by replace (n <? 0) with true by lia].
    rewrite En. cbn. rewrite returned_error; [done|]. vm_compute. split; [discriminate|reflexivity].
  - intros Hn. destruct (Hsome Hn) as (Hr & Hfree & Hlow). split; [lia|]. split; [done|].
    destruct (fd_dup_contract me t fd n 1 Ht) as (r & t' & Edup & Ht' & _ & _ & Hres). destruct (Hres d Hof) as (_ & _ & _ & Hnew). replace (n <? 0) with false in Hnew by lia.
    destruct Hnew as (-> & Hof' & _ & Hat & Hothers); [lia|intros ->; congruence|]. exists t'. split; [|done]. unfold fcntl.
    rewrite (bind_run _ _ t n t'); [|rewrite Hsys, (bind_run _ _ t (n, None) t'); [done|]; rewrite Hdup; fold n; cbn zeta; replace (n <? 0) with false by lia; by rewrite (bind_run _ _ t n t')].
    replace (n =? - EINVAL) with false by (change (- EINVAL) with (-22); lia). cbn [negb]. replace (0 <=? n) with true by lia. cbn [when].
    rewrite (bind_run _ _ t' () t'); [|apply (setfd_again me can_bound t' n d); [done|done|destruct (named_live t' Ht' n d Hof') as (q & -> & _); done]]. rewrite returned_value; [done| |lia].
    assert (OKM_MAX_FD < 2 ^ 63) by done. lia.
  - unfold fcntl. assert (forall a, sys_fcntl me can_bound fd F_OTHER a None here e t = Some (- EINVAL, t)) as Hoth.
    { intros a. rewrite Hsys, (bind_run _ _ t (- EINVAL, None) t); [done|]. unfold do_fcntl. rewrite (bind_run _ _ t t t) by done. rewrite Hof. cbn [mbind option_bind]. by rewrite Hp. }
    rewrite (bind_run _ _ t (- EINVAL) t) by apply Hoth. rewrite Z.eqb_refl. by rewrite (bind_run _ _ t (- EINVAL) t) by apply Hoth.
Qed.

Lemma with_dir_of : okm_desc_of with_dir 3 = Some 0.
Proof. by vm_compute. Qed.

Lemma fcntl_duplicates_witness : fcntl 7 true 3 R_GETOWN 0 None (inr 0) kal_ok with_dir = Some ((- EINVAL, None), with_dir).
Proof. apply (fcntl_duplicates 7 true with_dir 3 0 0 (inr 0) kal_ok with_dir_ok with_dir_of). Defined.

(** ** realpath *)

(** A component that is neither of the two that move. *)
Definition stays (s : str) : Prop := s <> [dot] /\ s <> [dot; dot].

Lemma separator_slash c : separator c = true -> to_slash c = slash.
Proof. unfold separator, to_slash. destruct (Z.eqb_spec c slash) as [->|]; [done|]. destruct (Z.eqb_spec c backslash); done. Qed.

Lemma separator_other c : separator c = false -> to_slash c = c /\ c <> slash.
Proof. unfold separator, to_slash. destruct (Z.eqb_spec c slash); [done|]. destruct (Z.eqb_spec c backslash); done. Qed.

Lemma upto_separator_split p s r : upto_separator p = (s, r) ->
  p = s ++ r /\ Forall (fun c => separator c = false) s /\ (r = [] \/ exists c r', r = c :: r' /\ separator c = true).
Proof.
  revert s r. induction p as [|c p IH]; intros s r; cbn [upto_separator]; [intros [= <- <-]; auto|].
  destruct (separator c) eqn:E; [intros [= <- <-]; split; [done|]; split; [constructor|]; right; eauto|].
  destruct (upto_separator p) as [s' r'] eqn:Ep. intros [= <- <-]. destruct (IH s' r' eq_refl) as (-> & Hs & Hr). split; [done|]. split; [by constructor|done].
Qed.

Lemma after_separators_split p : exists ss, p = ss ++ after_separators p /\ Forall (fun c => separator c = true) ss.
Proof.
  induction p as [|c p (ss & E & Hs)]; [by exists []|]. cbn [after_separators]. destruct (separator c) eqn:Ec; [|by exists []].
  exists (c :: ss). split; [cbn; by f_equal|by constructor].
Qed.

Lemma no_separators s : Forall (fun c => separator c = false) s -> to_slash <$> s = s /\ slash ∉ s.
Proof.
  induction 1 as [|c s Hc _ [E Hn]]; [split; [done|apply not_elem_of_nil]|]. destruct (separator_other c Hc) as [Ec Hne]. split; [cbn; by rewrite Ec, E|].
  rewrite elem_of_cons. naive_solver.
Qed.

Lemma components_separators ss p : Forall (fun c => separator c = true) ss -> components (to_slash <$> ss ++ p) = components (to_slash <$> p).
Proof. induction 1 as [|c ss Hc _ IH]; [done|]. cbn [app fmap list_fmap]. rewrite (separator_slash c Hc), components_slash. exact IH. Qed.

(** The name does not end in a separator. *)
Definition ends_in_name (p : str) : Prop := exists p' c, p = p' ++ [c] /\ separator c = false.

Lemma ends_suffix a b : b <> [] -> ends_in_name (a ++ b) <-> ends_in_name b.
Proof.
  intros Hb. destruct b as [|x b' _] using rev_ind; [done|]. split; intros (p & c & E & Hc).
  - rewrite (assoc_L (++)) in E. apply app_inj_tail in E as [_ <-]. by exists b', x.
  - exists (a ++ b'), x. rewrite (assoc_L (++)). apply app_inj_tail in E as [_ ->]. done.
Qed.

Lemma ends_separators a ss : ss <> [] -> Forall (fun c => separator c = true) ss -> ~ ends_in_name (a ++ ss).
Proof.
  intros Hne Hs. rewrite ends_suffix by done. intros (p & c & -> & Hc). apply Forall_app in Hs as [_ Hs]. inversion Hs. congruence.
Qed.

Lemma plain_loop_ok fuel p : p <> [] -> (length p <= fuel)%nat -> exists b, plain_loop fuel p = Some b /\
  (b = true <-> Forall stays (components (to_slash <$> p)) /\ ends_in_name p).
Proof.
  revert p. induction fuel as [|fuel IH]; intros p Hne Hf; [destruct p; [done|cbn in Hf; lia]|]. cbn [plain_loop].
  destruct (upto_separator p) as [s r] eqn:E. apply upto_separator_split in E as (-> & Hs & Hr). destruct (no_separators s Hs) as [Es Hns].
  assert (is_dot s || is_dotdot s = false <-> stays s) as Hdots.
  { unfold is_dot, is_dotdot, stays. rewrite orb_false_iff, !bool_decide_eq_false. done. }
  assert (Hcomp : s <> [] -> components (to_slash <$> s ++ r) = s :: components (to_slash <$> r)).
  { intros Hs0. rewrite fmap_app, Es. apply components_step; [done|done|]. destruct Hr as [->|(c & r' & -> & Hc)]; [by left|]. right. cbn. rewrite (separator_slash c Hc). eauto. }
  destruct (is_dot s || is_dotdot s) eqn:Ed.
  { exists false. split; [done|]. split; [done|]. intros [Hall _]. rewrite Hcomp in Hall; [|by intros ->]. inversion Hall as [|? ? Hst _]. apply Hdots in Hst. done. }
  destruct Hr as [->|(c & r' & -> & Hc)].
  - rewrite app_nil_r in *. exists true. split; [done|]. split; [|done]. intros _. rewrite Hcomp by done. split; [constructor; [by apply Hdots|constructor]|].
    destruct s as [|x s' _] using rev_ind; [done|]. apply Forall_app in Hs as [_ Hx]. inversion Hx. by exists s', x.
  - destruct (after_separators_split (c :: r')) as (ss & Er & Hss). set (q := after_separators (c :: r')) in *. assert (ss <> []) as Hssne.
    { intros ->. cbn in Er. unfold q in Er. cbn in Er. rewrite Hc in Er. destruct (after_separators_split r') as (ss' & E' & _). rewrite E' in Er at 1. apply (f_equal length) in Er. cbn in Er. rewrite length_app in Er. lia. }
    destruct q as [|x q'] eqn:Eq; fold q in Eq.
    + exists false. split; [done|]. split; [done|]. intros [_ Hend]. rewrite Er, app_nil_r in Hend. by apply ends_separators in Hend.
    + destruct (IH (x :: q')) as (b & Hb & Hiff); [done| |].
      { rewrite length_app, Er, length_app in Hf. destruct ss; [done|]. cbn in Hf |- *. lia. }
      exists b. split; [done|]. rewrite Hiff. rewrite Er. rewrite (assoc_L (++) s ss), ends_suffix by done. rewrite <-(assoc_L (++)), <-Er.
      assert (components (to_slash <$> c :: r') = components (to_slash <$> x :: q')) as Ec by (rewrite Er; by apply components_separators).
      destruct (decide (s = [])) as [->|Hsne]; [by rewrite app_nil_l, Ec|]. rewrite Hcomp, Ec by done. rewrite list.Forall_cons. tauto.
Qed.

(** A name without those components loses none when it is resolved lexically. *)
Lemma stays_lexical p : Forall stays (components p) -> lexical p = components p.
Proof.
  intros H. unfold lexical. rewrite enter_id; [by rewrite app_nil_r, rev_involutive|].
  pose proof (components_solid p) as Hs. induction H as [|s cs [H1 H2] _ IH]; [constructor|]. inversion Hs as [|? ? [Hne Hsl] Hs']; subst. constructor; [done|auto].
Qed.

Definition realpath_answer (t : fd_table) (g : names) (name : str) (cap : Z) (resolved : Z -> str -> Z -> kal_error + Z * str) (r : Z) (out : str) : Prop :=
  okm_null_name t g AT_FDCWD name = true /\ out = null_device \/
  exists a bytes, okm_resolve t g AT_FDCWD name false = inr a /\ resolved (at_base a) (at_rel a) cap = inr (r, bytes) /\ out = respell bytes.

(** C30. The environment's own answer is used for realpath only where it is musl's: of a name
    that is not empty, has no dot and no dot-dot component between separators of either
    kind and does not end in one, so that resolving it by its text alone drops none of its
    components. What is then answered is the null device's name or what the environment
    says of the directory and name the resolver finds, its separators made forward after a
    volume; it and its terminator fit the buffer. Every error is one of errno's, and in
    every other case musl's own walk is left to answer. *)
Theorem realpath_plain t g name cap resolved : 0 < cap -> (forall b rel n bytes, resolved b rel cap = inr (n, bytes) -> 0 <= n /\ len bytes = Z.min n cap) ->
  exists r out, okm_realpath t g (Some name) cap (Some resolved) = Some (r, out) /\ -4096 < r /\
    (0 < r -> len out = r /\ r < cap /\ name <> [] /\ ends_in_name name /\ lexical (to_slash <$> name) = components (to_slash <$> name) /\
       realpath_answer t g name cap resolved r out) /\
    (name = [] \/ ~ ends_in_name name \/ ~ Forall stays (components (to_slash <$> name)) -> r = 0).
Proof.
  intros Hcap Hpol. unfold okm_realpath, plain_path. destruct name as [|c name'].
  { exists 0, []. cbn. split; [done|]. split; [lia|]. split; [lia|done]. }
  set (name := c :: name'). destruct (plain_loop_ok (length name) name) as (b & Hb & Hiff); [done|done|]. rewrite Hb. cbn [mbind option_bind].
  destruct b; cbn [negb]; [|exists 0, []; split; [done|]; split; [lia|]; split; [lia|done]].
  destruct Hiff as [Hiff _]. destruct (Hiff eq_refl) as [Hst Hend]. pose proof (stays_lexical _ Hst) as Hlex.
  assert (~ (name = [] \/ ~ ends_in_name name \/ ~ Forall stays (components (to_slash <$> name)))) as Hno by (intros [?|[?|?]]; done).
  destruct (okm_null_name t g AT_FDCWD name) eqn:En.
  { destruct (Z.ltb_spec cap (len null_device + 1)) as [Hlt|Hge].
    - exists (- ENAMETOOLONG), []. unfold ENAMETOOLONG. split; [done|]. split; [lia|]. split; [lia|done].
    - exists (len null_device), null_device. split; [done|]. split; [unfold len; lia|]. split; [|done]. intros _. split_and!; try done; [lia|by left]. }
  destruct (okm_resolve t g AT_FDCWD name false) as [e|a] eqn:Er; [exists 0, []; split; [done|]; split; [lia|]; split; [lia|done]|].
  destruct (resolved (at_base a) (at_rel a) cap) as [e|[n bytes]] eqn:Ea.
  - case_bool_decide; [exists 0, []; split; [done|]; split; [lia|]; split; [lia|done]|]. exists (- okm_errno e), []. pose proof (okm_errno_range e). split; [done|]. split; [lia|]. split; [lia|done].
  - destruct (Hpol _ _ _ _ Ea) as [Hn Hl]. destruct (Z.leb_spec cap n).
    + exists (- ENAMETOOLONG), []. unfold ENAMETOOLONG. split; [done|]. split; [lia|]. split; [lia|done].
    + exists n, (respell bytes). split; [done|]. split; [lia|]. split; [|done]. intros Hpos. split_and!; try done; [|right; by exists a, bytes].
      unfold respell. split_if; [|lia]. rewrite len_app, len_fmap. rewrite <-len_app, take_drop. lia.
Qed.

(** An environment that answers /a of every name. *)
Definition answers_a (b : Z) (rel : str) (cap : Z) : kal_error + Z * str := inr (2, take (Z.to_nat cap) [47; 97]).

Lemma realpath_plain_witness : exists r out, okm_realpath nameless two_supplied (Some [47; 97]) 64 (Some answers_a) = Some (r, out) /\ -4096 < r /\
    (0 < r -> len out = r /\ r < 64 /\ [47; 97] <> [] /\ ends_in_name [47; 97] /\ lexical (to_slash <$> [47; 97]) = components (to_slash <$> [47; 97]) /\
       realpath_answer nameless two_supplied [47; 97] 64 answers_a r out) /\
    ([47; 97] = [] \/ ~ ends_in_name [47; 97] \/ ~ Forall stays (components (to_slash <$> [47; 97])) -> r = 0).
Proof. apply realpath_plain; [lia|]. intros b rel n bytes E. injection E as <- <-. split; [lia|done]. Defined.
