(* ===== verification/Report.v ===== *)
(** What the library says of itself and of what it does not have (port/src/okm_syscall.c):
    the trace of the system calls that have no operation, the line that names the version,
    and uname; with musl's getdomainname (musl/src/misc/getdomainname.c), which reads it. A
    text is the list of its characters, a local array is as long as the source declares it,
    and what is written beyond it has no answer. *)
From S2P Require Import Prelude Kal Start.
From stdpp Require Import base list option.
From Stdlib Require Import ZArith Lia.

#[local] Open Scope Z_scope.

(** ** The trace *)

(** "enosys". *)
Definition wanted : list Z := [101; 110; 111; 115; 121; 115].

(** What kal_env_var answered for OPENKAL_MUSL_TRACE with a buffer of sixteen: the value's
    own length, or a negative error, and the bytes it put into the buffer. *)
Definition env_answer : Type := Z * list Z.

(** [v[i] != wanted[i]] over the [n] characters; one that was not put there has no value. *)
Fixpoint same (v w : list Z) : option Z :=
  match w with
  | [] => Some 1
  | c :: w' => match v with
               | [] => None
               | b :: v' => if negb (b =? c) then Some 0 else same v' w'
               end
  end.

Definition ask_wanted (a : env_answer) : option Z := if a.1 =? 6 then same a.2 wanted else Some 0.

(** trace_wanted, of g_want: its answer, which is also g_want afterwards. *)
Definition trace_wanted (a : env_answer) (want : Z) : option Z := if 0 <=? want then Some want else ask_wanted a.

(** Characters into an array of [cap], after those already there. *)
Definition put (cap : Z) (o : list Z) (bs : list Z) : option (list Z) :=
  if Z.of_nat (length o) + Z.of_nat (length bs) <=? cap then Some (o ++ bs) else None.

(** "openkal-musl: no operation for system call ". *)
Definition absent_head : list Z :=
  [111; 112; 101; 110; 107; 97; 108; 45; 109; 117; 115; 108; 58; 32; 110; 111; 32; 111; 112; 101; 114; 97; 116; 105; 111; 110; 32;
   102; 111; 114; 32; 115; 121; 115; 116; 101; 109; 32; 99; 97; 108; 108; 32].

(** The digits, the last one first, into an array with room for [room]. *)
Fixpoint digits_of (room : nat) (v : Z) : option (list Z) :=
  match room with
  | O => None
  | S k => let c := 48 + v mod 10 in if v / 10 =? 0 then Some [c] else cons c <$> digits_of k (v / 10)
  end.

(** The line of a number; [-n] of the least number is not defined. *)
Definition absent_line (n : Z) : option (list Z) :=
  if n =? - 2 ^ 63 then None
  else
    line ← put 80 [] absent_head;
    line ← (if n <? 0 then put 80 line [45] else Some line);
    digits ← digits_of 24 (if n <? 0 then - n else n);
    line ← put 80 line (rev digits);
    put 80 line [10].

(** g_want, the bits of the numbers reported, and the lines written to the error stream. *)
Record trace := Trace { g_want : Z; seen : list Z; lines : list (list Z) }.

Definition trace_zero : trace := Trace (-1) (replicate 1024 0) [].

(** Where a context is in trace_absent: before the load of g_want, before asking openkal,
    before the store, before the fetch-or on the bits, before the write, or returned. *)
Inductive absent_pc := Load (n : Z) | Ask (n : Z) | Store (n w : Z) | Mark (n : Z) | Write (n : Z) | Return.

#[export] Instance absent_pc_eq_dec : EqDecision absent_pc.
Proof. solve_decision. Defined.

(** What follows trace_wanted's answer. *)
Definition after_wanted (n w : Z) : absent_pc :=
  if w =? 0 then Return else if (0 <=? n) && (n <? 8192) then Mark n else Write n.

Definition trace_absent (a : env_answer) (pc : absent_pc) (s : trace) : option (absent_pc * trace) :=
  match pc with
  | Load n => Some (if 0 <=? g_want s then after_wanted n (g_want s) else Ask n, s)
  | Ask n => w ← ask_wanted a; Some (Store n w, s)
  | Store n w => Some (after_wanted n w, Trace w (seen s) (lines s))
  | Mark n =>
      let bit := Z.shiftl 1 (Z.land n 7) mod 256 in
      old ← at_ (seen s) (Z.shiftr n 3);
      bits ← set_at (seen s) (Z.shiftr n 3) (Z.lor old bit);
      Some (if negb (Z.land old bit =? 0) then Return else Write n, Trace (g_want s) bits (lines s))
  | Write n => line ← absent_line n; Some (Return, Trace (g_want s) (seen s) (lines s ++ [line]))
  | Return => None
  end.

(** ** The version *)

(** "openkal-musl ". *)
Definition banner_head : list Z := [111; 112; 101; 110; 107; 97; 108; 45; 109; 117; 115; 108; 32].

Fixpoint banner_version (v : list Z) (line : list Z) : option (list Z) :=
  match v with
  | [] => Some line
  | c :: v' => if Z.of_nat (length line) <? 96 - 2 then line ← put 96 line [c]; banner_version v' line else Some line
  end.

(** [version] is the text of okm_version, up to its terminator. *)
Definition okm_trace_banner (a : env_answer) (version : list Z) (s : trace) : option trace :=
  w ← trace_wanted a (g_want s);
  if w =? 0 then Some (Trace w (seen s) (lines s))
  else
    line ← put 96 [] banner_head;
    line ← banner_version version line;
    line ← put 96 line [10];
    Some (Trace w (seen s) (lines s ++ [line])).

(** ** uname *)

(** The six arrays of sixty-five characters; a character that was not written is [None]. *)
Record utsname := Utsname {
  sysname : list (option Z); nodename : list (option Z); release : list (option Z);
  version : list (option Z); machine : list (option Z); domainname : list (option Z);
}.

(** [for (; v[i] && i < 64; i++) fields[f][i] = v[i]; fields[f][i] = 0]. *)
Fixpoint put_field (v : list Z) (i : Z) (field : list (option Z)) : option (list (option Z)) :=
  match v with
  | [] => set_at field i (Some 0)
  | c :: v' => if i <? 64 then field ← set_at field i (Some c); put_field v' (i + 1) field else set_at field i (Some 0)
  end.

(** "openkal" and "unknown". *)
Definition openkal : list Z := [111; 112; 101; 110; 107; 97; 108].
Definition unknown : list Z := [117; 110; 107; 110; 111; 119; 110].

Definition uname (okm_version : list Z) (u : utsname) : option utsname :=
  s ← put_field openkal 0 (sysname u);
  n ← put_field openkal 0 (nodename u);
  r ← put_field okm_version 0 (release u);
  v ← put_field openkal 0 (version u);
  m ← put_field unknown 0 (machine u);
  Some (Utsname s n r v m (domainname u)).

(** The text given, or EINVAL; [temp] is what the storage of the local held. *)
Definition getdomainname (okm_version : list Z) (temp : utsname) (len : Z) : option (Z + list Z) :=
  u ← uname okm_version temp;
  if len =? 0 then Some (inl EINVAL)
  else d ← cstring (domainname u); Some (if len <=? Z.of_nat (length d) then inl EINVAL else inr d).
