(* ===== verification/ReportTheorems.v ===== *)
(** What Report's operations promise: each number reported once and in full, however the
    contexts interleave; the lines within their arrays; uname's fields, and the one it does
    not write. *)
From S2P Require Import Prelude Kal Start Report.
From stdpp Require Import base list option.
From Stdlib Require Import ZArith Lia.

#[local] Open Scope Z_scope.

(** ** The line of a number *)

(** The number a text of digits denotes. *)
Definition read_decimal (l : list Z) : Z := foldl (fun a c => 10 * a + (c - 48)) 0 l.

Lemma read_snoc l c : read_decimal (l ++ [c]) = 10 * read_decimal l + (c - 48).
Proof. unfold read_decimal. by rewrite foldl_app. Qed.

Lemma digits_read k v ds : digits_of k v = Some ds -> read_decimal (rev ds) = v /\ Forall (fun c => 48 <= c < 58) ds /\ (length ds <= k)%nat.
Proof.
  revert v ds. induction k as [|k IH]; intros v ds; [done|]. cbn [digits_of]. cbv zeta. pose proof (Z.mod_pos_bound v 10). pose proof (Z.div_mod v 10). destruct (Z.eqb_spec (v / 10) 0) as [E|E].
  - intros [= <-]. split; [|split; [repeat constructor; lia|cbn; lia]]. cbn [rev]. rewrite app_nil_l. unfold read_decimal. cbn [foldl]. lia.
  - destruct (digits_of k (v / 10)) as [ds'|] eqn:Ed; [|done]. intros [= <-]. destruct (IH _ _ Ed) as (Hr & Hf & Hl). cbn [rev]. rewrite read_snoc, Hr.
    split; [lia|]. split; [constructor; [lia|done]|cbn; lia].
Qed.

Lemma digits_fit k v : (0 < k)%nat -> 0 <= v < 10 ^ Z.of_nat k -> exists ds, digits_of k v = Some ds.
Proof.
  intros Hk. revert v. induction k as [|k IH]; intros v Hv; [lia|]. cbn [digits_of]. cbv zeta. pose proof (Z.mod_pos_bound v 10). pose proof (Z.div_mod v 10). destruct (Z.eqb_spec (v / 10) 0) as [E|E]; [eauto|].
  rewrite Nat2Z.inj_succ, Z.pow_succ_r in Hv by lia. destruct k as [|k]; [change (10 * 10 ^ Z.of_nat 0) with 10 in Hv; lia|].
  destruct (IH ltac:(lia) (v / 10)) as [ds ->]; [lia|]. cbn. eauto.
Qed.

(** Fewer digits than the array has room for. *)
Lemma digits_more k j v ds : (k <= j)%nat -> digits_of k v = Some ds -> digits_of j v = Some ds.
Proof.
  revert j v ds. induction k as [|k IH]; intros j v ds Hj; [done|]. destruct j as [|j]; [lia|]. cbn [digits_of]. cbv zeta. destruct (v / 10 =? 0); [done|].
  destruct (digits_of k (v / 10)) as [ds'|] eqn:E; [|done]. by rewrite (IH j _ _ ltac:(lia) E).
Qed.

(** The text of a number: its sign and its digits. *)
Definition text_of (n : Z) (t : list Z) : Prop :=
  exists ds, t = (if n <? 0 then [45] else []) ++ ds /\ read_decimal ds = Z.abs n /\ Forall (fun c => 48 <= c < 58) ds /\ (length ds <= 19)%nat.

Lemma absent_line_text n : - 2 ^ 63 < n < 2 ^ 63 -> exists t, absent_line n = Some (absent_head ++ t ++ [10]) /\ text_of n t.
Proof.
  intros Hn. unfold absent_line. rewrite (proj2 (Z.eqb_neq n (- 2 ^ 63))) by lia. destruct (digits_fit 19 (Z.abs n)) as [ds Hd]; [lia|change (10 ^ Z.of_nat 19) with 10000000000000000000; lia|].
  destruct (digits_read _ _ _ Hd) as (Hr & Hf & Hl). apply (digits_more 19 24) in Hd; [|lia]. replace (if n <? 0 then - n else n) with (Z.abs n) by (destruct (Z.ltb_spec n 0); lia). rewrite Hd.
  exists ((if n <? 0 then [45] else []) ++ rev ds). split; [|exists (rev ds); split; [done|split; [done|split; [by apply Forall_rev|by rewrite length_rev]]]].
  destruct (n <? 0); unfold put; repeat (rewrite (proj2 (Z.leb_le _ _)); [cbn [mbind option_bind]|rewrite ?length_app, ?length_rev; cbn; lia]); rewrite ?app_nil_l, <-?app_assoc; done.
Qed.

(** The text says the number. *)
Lemma text_inj n m t : text_of n t -> text_of m t -> n = m.
Proof.
  intros (ds & -> & Hn & Hf & _) (ds' & E & Hm & Hf' & _). destruct (Z.ltb_spec n 0), (Z.ltb_spec m 0); cbn in E.
  - injection E as <-. lia.
  - subst ds'. inversion_clear Hf'. lia.
  - subst ds. inversion_clear Hf. lia.
  - subst ds'. lia.
Qed.

Lemma absent_line_inj n m l : - 2 ^ 63 < n < 2 ^ 63 -> - 2 ^ 63 < m < 2 ^ 63 -> absent_line n = Some l -> absent_line m = Some l -> n = m.
Proof.
  intros Hn Hm En Em. destruct (absent_line_text n Hn) as (t & E & Ht), (absent_line_text m Hm) as (t' & E' & Ht'). rewrite En in E. rewrite Em in E'. injection E as ->. injection E' as E'.
  apply app_inv_tail in E' as <-. by eapply text_inj.
Qed.

(** ** The bits of the numbers reported *)

Definition marked (bits : list Z) (n : Z) : bool := match at_ bits (Z.shiftr n 3) with Some b => Z.testbit b (Z.land n 7) | None => false end.

Lemma low_three n : Z.land n 7 = n mod 8.
Proof. change 7 with (Z.ones 3). by rewrite Z.land_ones. Qed.

Lemma bit_power n : Z.shiftl 1 (Z.land n 7) mod 256 = 2 ^ Z.land n 7.
Proof.
  rewrite low_three, Z.shiftl_1_l. pose proof (Z.mod_pos_bound n 8). apply Z.mod_small. split; [lia|]. apply (Z.lt_le_trans _ (2 ^ 8)); [apply Z.pow_lt_mono_r; lia|done].
Qed.

Lemma bit_tested old k : 0 <= k -> negb (Z.land old (2 ^ k) =? 0) = Z.testbit old k.
Proof.
  intros Hk. destruct (Z.testbit old k) eqn:E.
  - apply negb_true_iff, Z.eqb_neq. intros H. apply (f_equal (fun z => Z.testbit z k)) in H. by rewrite Z.land_spec, E, Z.pow2_bits_true, Z.bits_0 in H.
  - apply negb_false_iff, Z.eqb_eq. apply Z.bits_inj'. intros i Hi. rewrite Z.land_spec, Z.pow2_bits_eqb, Z.bits_0 by done. destruct (Z.eqb_spec k i) as [<-|]; [by rewrite E|apply andb_false_r].
Qed.

Lemma mark_bits bits n old bits' : 0 <= n -> at_ bits (Z.shiftr n 3) = Some old -> set_at bits (Z.shiftr n 3) (Z.lor old (2 ^ Z.land n 7)) = Some bits' ->
  negb (Z.land old (2 ^ Z.land n 7) =? 0) = marked bits n /\ length bits' = length bits /\ forall m, 0 <= m -> marked bits' m = marked bits m || (m =? n).
Proof.
  intros Hn Ho Hs. pose proof (low_three n) as Hl. pose proof (Z.mod_pos_bound n 8). split; [rewrite bit_tested by lia; unfold marked; by rewrite Ho|].
  apply set_at_inv in Hs as [Hr ->]. split; [apply length_insert|]. intros m Hm. unfold marked. rewrite at_insert by done. destruct (Z.eqb_spec (Z.shiftr m 3) (Z.shiftr n 3)) as [E|E].
  - rewrite E, Ho, Z.lor_spec. f_equal. pose proof (low_three m) as Hlm. rewrite Z.pow2_bits_eqb by lia. rewrite !Z.shiftr_div_pow2 in E by lia. change (2 ^ 3) with 8 in E.
    pose proof (Z.div_mod m 8). pose proof (Z.div_mod n 8). destruct (Z.eqb_spec m n), (Z.eqb_spec (Z.land n 7) (Z.land m 7)); lia || done.
  - destruct (Z.eqb_spec m n) as [->|]; [done|]. by rewrite orb_false_r.
Qed.

Lemma mark_in (bits : list Z) n : 0 <= n < 8192 -> length bits = 1024%nat -> exists old, at_ bits (Z.shiftr n 3) = Some old /\ forall b, exists bits', set_at bits (Z.shiftr n 3) b = Some bits'.
Proof.
  intros Hn Hl. assert (Hr : 0 <= Z.shiftr n 3 < Z.of_nat (length bits)).
  { rewrite Hl, Z.shiftr_div_pow2 by lia. change (2 ^ 3) with 8. split; [apply Z.div_pos; lia|apply Z.div_lt_upper_bound; lia]. }
  destruct (at_some bits _ Hr) as [old Ho]. exists old. split; [done|]. intros b. rewrite set_at_some by done. eauto.
Qed.

(** ** Every number once *)

Fixpoint cnt {A} (f : A -> bool) (l : list A) : Z :=
  match l with
  | [] => 0
  | x :: l' => (if f x then 1 else 0) + cnt f l'
  end.

Lemma cnt_nonneg {A} (f : A -> bool) l : 0 <= cnt f l.
Proof. induction l as [|x l IH]; cbn; [lia|]. destruct (f x); lia. Qed.

Lemma cnt_app {A} (f : A -> bool) l l' : cnt f (l ++ l') = cnt f l + cnt f l'.
Proof. induction l as [|x l IH]; cbn; [lia|]. rewrite IH. lia. Qed.

Lemma cnt_insert {A} (f : A -> bool) l i x y : l !! i = Some x -> cnt f (<[i := y]> l) = cnt f l - (if f x then 1 else 0) + (if f y then 1 else 0).
Proof. revert i. induction l as [|z l IH]; intros [|i]; [done..|intros [= ->]; cbn; lia|]. intros H. change (<[S i := y]> (z :: l)) with (z :: <[i := y]> l). cbn [cnt]. rewrite (IH i H). lia. Qed.

Lemma cnt_none {A} (f : A -> bool) l : Forall (fun x => f x = false) l -> cnt f l = 0.
Proof. induction 1 as [|x l Hx _ IH]; cbn; [done|]. by rewrite Hx, IH. Qed.

Lemma cnt_in {A} (f : A -> bool) l x : x ∈ l -> f x = true -> 1 <= cnt f l.
Proof. induction 1 as [x l|x y l Hx IH]; cbn; intros E; [rewrite E; pose proof (cnt_nonneg f l); lia|]. specialize (IH E). destruct (f y); lia. Qed.

Lemma cnt_fmap {A B} (f : B -> bool) (g : A -> B) (h : A -> bool) l : (forall x, f (g x) = h x) -> cnt f (g <$> l) = cnt h l.
Proof. intros E. induction l as [|x l IH]; cbn; [done|]. by rewrite E, IH. Qed.

(** The contexts, each in a call of trace_absent or before or after it, and the trace. A
    context's next access is one of [trace_absent]'s. *)
Inductive trace_steps (a : env_answer) (x : list absent_pc * trace) : list absent_pc * trace -> Prop :=
| S_none : trace_steps a x x
| S_step pcs s i pc pc' s' : trace_steps a x (pcs, s) -> pcs !! i = Some pc -> trace_absent a pc s = Some (pc', s') -> trace_steps a x (<[i := pc']> pcs, s').

(** What openkal promises of kal_env_var: the value's length and its bytes, as far as the
    buffer of sixteen goes, or a negative answer. *)
Definition env_says (value : option (list Z)) (a : env_answer) : Prop :=
  match value with Some v => a = (Z.of_nat (length v), take 16 v) | None => a.1 < 0 end.

Definition asked_for (value : option (list Z)) : bool := bool_decide (value = Some wanted).

Lemma same_spec v w : length v = length w -> same v w = Some (if bool_decide (v = w) then 1 else 0).
Proof.
  revert v. induction w as [|c w IH]; intros [|b v] E; cbn in *; try done. destruct (Z.eqb_spec b c) as [->|Hne]; cbn [negb].
  - rewrite IH by lia. case_bool_decide as E1; case_bool_decide as E2; try done; [by subst|]. by injection E2.
  - by rewrite bool_decide_false by congruence.
Qed.

Lemma ask_spec value a : env_says value a -> ask_wanted a = Some (if asked_for value then 1 else 0).
Proof.
  unfold ask_wanted, asked_for, env_says. destruct value as [v|]; [intros ->|intros Ha; by rewrite (proj2 (Z.eqb_neq _ _)) by lia]. cbn [fst snd]. destruct (Z.eqb_spec (Z.of_nat (length v)) 6) as [E|E].
  - rewrite take_ge by lia. rewrite same_spec by (cbn; lia). do 2 case_bool_decide; congruence.
  - rewrite bool_decide_false; [done|]. intros [= ->]. by cbn in E.
Qed.

(** A context about to write the line of [n]; one that is not there yet. *)
Definition writes (n : Z) (pc : absent_pc) : bool := match pc with Write m => m =? n | _ => false end.
Definition before (n : Z) (pc : absent_pc) : bool := match pc with Load m | Ask m | Store m _ | Mark m => m =? n | _ => false end.
Definition small (n : Z) : bool := (0 <=? n) && (n <? 8192).

Section once.
Context (value : option (list Z)) (a : env_answer) (ns : list Z).
Hypothesis Ha : env_says value a.
Hypothesis Hns : Forall (fun n => - 2 ^ 63 < n < 2 ^ 63) ns.

Definition W : Z := if asked_for value then 1 else 0.

Definition pc_ok (pc : absent_pc) : Prop :=
  match pc with
  | Load n | Ask n => n ∈ ns
  | Store n w => n ∈ ns /\ w = W
  | Mark n => n ∈ ns /\ W = 1 /\ small n = true
  | Write n => n ∈ ns /\ W = 1
  | Return => True
  end.

(** [log] are the numbers whose lines were written. *)
Record trace_inv (pcs : list absent_pc) (s : trace) (log : list Z) : Prop := TraceInv {
  i_want : g_want s = -1 \/ g_want s = W;
  i_pcs : Forall pc_ok pcs;
  i_bits : length (seen s) = 1024%nat;
  i_lines : Forall2 (fun n l => absent_line n = Some l) log (lines s);
  i_log : Forall (fun n => n ∈ ns /\ W = 1) log;
  i_once : forall n, small n = true -> cnt (Z.eqb n) log + cnt (writes n) pcs = if marked (seen s) n then 1 else 0;
  i_due : forall n, small n = true -> W = 1 -> n ∈ ns -> marked (seen s) n = true \/ 1 <= cnt (before n) pcs;
  i_all : forall n, small n = false -> W = 1 -> cnt (Z.eqb n) log + cnt (writes n) pcs + cnt (before n) pcs = cnt (Z.eqb n) ns;
}.

Definition b2z (b : bool) : Z := if b then 1 else 0.

(** A move of a context that neither marks nor writes. *)
Definition moves (pc pc' : absent_pc) : Prop :=
  (forall n, small n = true -> writes n pc = writes n pc' /\ (W = 1 -> before n pc = before n pc')) /\
  forall n, small n = false -> W = 1 -> b2z (writes n pc) + b2z (before n pc) = b2z (writes n pc') + b2z (before n pc').

Lemma inv_moves pcs s log i pc pc' w : trace_inv pcs s log -> pcs !! i = Some pc -> moves pc pc' -> pc_ok pc' -> (w = -1 \/ w = W) ->
  trace_inv (<[i := pc']> pcs) (Trace w (seen s) (lines s)) log.
Proof using Type.
  intros [I1 I2 I3 I4 I5 I6 I7 I8] Hi [Hs Hb] Hok Hw. split; cbn [g_want seen lines]; auto.
  - by apply Forall_insert.
  - intros n Hn. rewrite (cnt_insert _ _ _ _ _ Hi). destruct (Hs n Hn) as [-> _]. rewrite <-I6 by done. lia.
  - intros n Hn H1 Hin. destruct (I7 n Hn H1 Hin); [by left|right]. rewrite (cnt_insert _ _ _ _ _ Hi). destruct (Hs n Hn) as [_ ->]; [lia|done].
  - intros n Hn H1. rewrite !(cnt_insert _ _ _ _ _ Hi), <-I8 by done. specialize (Hb n Hn H1). unfold b2z in Hb. lia.
Qed.

Lemma inv_moved pcs s log i pc pc' : trace_inv pcs s log -> pcs !! i = Some pc -> moves pc pc' -> pc_ok pc' -> trace_inv (<[i := pc']> pcs) s log.
Proof using Type. intros I Hi Hm Hok. pose proof (inv_moves pcs s log i pc pc' (g_want s) I Hi Hm Hok (i_want _ _ _ I)) as H. by destruct s. Qed.

Lemma after_moves n pc : (forall m, writes m pc = false) -> (forall m, before m pc = (n =? m)) -> moves pc (after_wanted n W).
Proof using Type.
  intros Hw Hb. unfold after_wanted. destruct (Z.eqb_spec W 0) as [E|E].
  - split; intros m Hm; [rewrite Hw; split; [done|lia]|lia].
  - fold (small n). destruct (small n) eqn:Es; split; intros m Hm; rewrite ?Hw, ?Hb; cbn; try done; destruct (Z.eqb_spec n m) as [->|]; try done; congruence.
Qed.

Lemma after_ok n : n ∈ ns -> pc_ok (after_wanted n W).
Proof using Type. intros Hn. unfold after_wanted, W. fold (small n). destruct (asked_for value) eqn:E; cbn [Z.eqb]; [|done]. destruct (small n) eqn:Es; cbn; unfold W; by rewrite E. Qed.

Lemma W_range : 0 <= W <= 1.
Proof using Type. unfold W. destruct (asked_for value); lia. Qed.

Lemma in_bounds n : n ∈ ns -> - 2 ^ 63 < n < 2 ^ 63.
Proof using Hns. intros Hn. by apply (proj1 (list.Forall_forall _ _) Hns). Qed.

(** The fetch-or: the one that finds the bit clear is the one that writes. *)
Lemma inv_mark pcs s log i n pc' s' : trace_inv pcs s log -> pcs !! i = Some (Mark n) -> trace_absent a (Mark n) s = Some (pc', s') -> trace_inv (<[i := pc']> pcs) s' log.
Proof using Type.
  intros [I1 I2 I3 I4 I5 I6 I7 I8] Hi. cbn [trace_absent]. cbv zeta. rewrite bit_power. destruct (list.Forall_lookup_1 _ _ _ _ I2 Hi) as (Hin & H1 & Hs). assert (Hs0 := Hs). unfold small in Hs0.
  destruct (at_ (seen s) _) as [old|] eqn:Ho; [|done]. cbn [mbind option_bind]. destruct (set_at (seen s) _ _) as [bits|] eqn:Eb; [|done]. cbn [mbind option_bind]. intros [= <- <-].
  destruct (mark_bits _ n _ _ ltac:(lia) Ho Eb) as (-> & Hl & Hm). split; cbn [g_want seen lines]; auto; [apply Forall_insert; [done|]; by destruct (marked (seen s) n)|congruence|..].
  - intros m Hms. rewrite (cnt_insert _ _ _ _ _ Hi), Hm by (unfold small in Hms; lia). pose proof (I6 m Hms) as E. destruct (Z.eqb_spec m n) as [->|Hne].
    + destruct (marked (seen s) n); cbn [orb writes] in *; rewrite ?Z.eqb_refl; lia.
    + rewrite orb_false_r. destruct (marked (seen s) n); cbn [writes]; rewrite ?(proj2 (Z.eqb_neq n m)) by done; lia.
  - intros m Hms _ Hmin. rewrite Hm by (unfold small in Hms; lia). destruct (Z.eqb_spec m n) as [->|Hne]; [left; apply orb_true_r|]. rewrite orb_false_r. destruct (I7 m Hms H1 Hmin) as [|Hc]; [by left|right].
    rewrite (cnt_insert _ _ _ _ _ Hi). cbn [before]. rewrite (proj2 (Z.eqb_neq n m)) by done. destruct (marked (seen s) n); cbn [before]; lia.
  - intros m Hms _. rewrite !(cnt_insert _ _ _ _ _ Hi), <-I8 by done. assert (n <> m) by congruence. cbn [before writes]. rewrite (proj2 (Z.eqb_neq n m)) by done. destruct (marked (seen s) n); cbn [before writes]; rewrite ?(proj2 (Z.eqb_neq n m)) by done; lia.
Qed.

Lemma inv_write pcs s log i n pc' s' : trace_inv pcs s log -> pcs !! i = Some (Write n) -> trace_absent a (Write n) s = Some (pc', s') -> trace_inv (<[i := pc']> pcs) s' (log ++ [n]).
Proof using Type.
  intros [I1 I2 I3 I4 I5 I6 I7 I8] Hi. cbn [trace_absent]. destruct (absent_line n) as [l|] eqn:El; [|done]. cbn [mbind option_bind]. intros [= <- <-]. destruct (list.Forall_lookup_1 _ _ _ _ I2 Hi) as (Hin & H1).
  assert (Hc : forall m, cnt (Z.eqb m) (log ++ [n]) + cnt (writes m) (<[i := Return]> pcs) = cnt (Z.eqb m) log + cnt (writes m) pcs).
  { intros m. rewrite cnt_app, (cnt_insert _ _ _ _ _ Hi). cbn [cnt writes]. rewrite (Z.eqb_sym n m). lia. }
  assert (Hb : forall m, cnt (before m) (<[i := Return]> pcs) = cnt (before m) pcs) by (intros m; rewrite (cnt_insert _ _ _ _ _ Hi); cbn; lia).
  split; cbn [g_want seen lines]; auto.
  - by apply Forall_insert.
  - apply Forall2_app; [done|]. by repeat constructor.
  - apply Forall_app. split; [done|]. by repeat constructor.
  - intros m Hm. rewrite Hc. by apply I6.
  - intros m Hm _ Hmin. rewrite Hb. by apply I7.
  - intros m Hm _. rewrite Hc, Hb. by apply I8.
Qed.

Lemma inv_step pcs s log i pc pc' s' : trace_inv pcs s log -> pcs !! i = Some pc -> trace_absent a pc s = Some (pc', s') -> exists log', trace_inv (<[i := pc']> pcs) s' log'.
Proof using Ha.
  intros I Hi E. pose proof (list.Forall_lookup_1 _ _ _ _ (i_pcs _ _ _ I) Hi) as Hok. pose proof W_range as HW. destruct pc as [n|n|n w|n|n|]; [exists log..|by eexists; eapply inv_write|done]; cbn [trace_absent] in E.
  - injection E as <- <-. eapply inv_moved; [done|done| |]; destruct (i_want _ _ _ I) as [-> | ->]; try done; rewrite (proj2 (Z.leb_le 0 W)) by lia; auto using after_moves, after_ok.
  - rewrite (ask_spec _ _ Ha) in E. injection E as <- <-. by eapply inv_moved.
  - injection E as <- <-. destruct Hok as [Hin ->]. eapply inv_moves; eauto using after_moves, after_ok.
  - eapply inv_mark; eauto.
Qed.

(** No context leaves an array. *)
Lemma inv_runs pcs s log i pc : trace_inv pcs s log -> pcs !! i = Some pc -> pc <> Return -> exists x, trace_absent a pc s = Some x.
Proof using Ha Hns.
  intros I Hi Hr. pose proof (list.Forall_lookup_1 _ _ _ _ (i_pcs _ _ _ I) Hi) as Hok. destruct pc as [n|n|n w|n|n|]; cbn [trace_absent]; [eauto| |eauto| | |done].
  - rewrite (ask_spec _ _ Ha). cbn. eauto.
  - destruct Hok as (_ & _ & Hs). unfold small in Hs. destruct (mark_in (seen s) n ltac:(lia) (i_bits _ _ _ I)) as (old & -> & Hb). cbv zeta. cbn [mbind option_bind]. destruct (Hb (Z.lor old (Z.shiftl 1 (Z.land n 7) mod 256))) as [b ->]. cbn. eauto.
  - destruct (absent_line_text n (in_bounds n (proj1 Hok))) as (t & -> & _). cbn. eauto.
Qed.

Lemma inv_first : trace_inv (Load <$> ns) trace_zero [].
Proof using Type.
  assert (Hz : forall n, marked (seen trace_zero) n = false).
  { intros n. unfold marked, at_. destruct (0 <=? _); [|done]. cbn [seen trace_zero]. destruct (replicate 1024 0 !! Z.to_nat (Z.shiftr n 3)) as [b|] eqn:E; [|done]. apply lookup_replicate in E as [-> _]. apply Z.bits_0. }
  assert (Hw : forall n, cnt (writes n) (Load <$> ns) = 0) by (intros n; apply cnt_none; by apply Forall_fmap, list.Forall_forall).
  assert (Hb : forall n, cnt (before n) (Load <$> ns) = cnt (Z.eqb n) ns) by (intros n; apply cnt_fmap; intros m; apply Z.eqb_sym).
  split; try done; [by left|apply Forall_fmap; by apply list.Forall_forall|..].
  - intros n _. by rewrite Hz, Hw.
  - intros n _ _ Hin. right. rewrite Hb. eapply cnt_in; [done|apply Z.eqb_refl].
  - intros n _ _. rewrite Hw, Hb. done.
Qed.

Lemma inv_reached pcs s : trace_steps a (Load <$> ns, trace_zero) (pcs, s) -> exists log, trace_inv pcs s log.
Proof using Ha.
  intros H. remember (pcs, s) as y eqn:Ey. revert pcs s Ey. induction H as [|pcs0 s0 i pc pc' s1 _ IH Hi E]; intros pcs s [= <- <-]; [eexists; apply inv_first|].
  destruct (IH _ _ eq_refl) as [log I]. by eapply inv_step.
Qed.
End once.

(** How many of the lines written are the line of [n]. *)
Definition said (n : Z) (s : trace) : Z := cnt (fun l => bool_decide (absent_line n = Some l)) (lines s).

Lemma said_log value ns pcs s log n : Forall (fun n => - 2 ^ 63 < n < 2 ^ 63) ns -> trace_inv value ns pcs s log -> - 2 ^ 63 < n < 2 ^ 63 -> said n s = cnt (Z.eqb n) log.
Proof.
  intros Hns I Hn. unfold said. pose proof (i_log _ _ _ _ _ I) as Hl. pose proof (i_lines _ _ _ _ _ I) as H2. clear I. induction H2 as [|m l log ls Hm _ IH]; [done|]. inversion_clear Hl as [|?? [Hin _] Hl']. cbn [cnt]. rewrite IH by done. f_equal.
  destruct (Z.eqb_spec n m) as [->|Hne]; [by rewrite bool_decide_true|]. rewrite bool_decide_false; [done|]. intros E. apply Hne. eapply absent_line_inj; eauto using in_bounds.
Qed.

(** A context's accesses in one call are five at most. *)
Definition rank (pc : absent_pc) : nat := match pc with Load _ => 5 | Ask _ => 4 | Store _ _ => 3 | Mark _ => 2 | Write _ => 1 | Return => 0 end.

Lemma rank_falls a pc s pc' s' : trace_absent a pc s = Some (pc', s') -> (rank pc' < rank pc)%nat.
Proof.
  assert (Hr : forall n w, (rank (after_wanted n w) < 3)%nat) by (intros n w; unfold after_wanted; destruct (w =? 0); [cbn; lia|]; destruct ((0 <=? n) && (n <? 8192)); cbn; lia).
  destruct pc as [n|n|n w|n|n|]; cbn [trace_absent rank].
  - intros [= <- _]. destruct (0 <=? g_want s); [specialize (Hr n (g_want s)); lia|cbn; lia].
  - destruct (ask_wanted a); [|done]. intros [= <- _]. cbn. lia.
  - intros [= <- _]. specialize (Hr n w). lia.
  - cbv zeta. destruct (at_ _ _); [|done]. cbn [mbind option_bind]. destruct (set_at _ _ _); [|done]. intros [= <- _]. destruct (negb _); cbn; lia.
  - destruct (absent_line n); [|done]. intros [= <- _]. cbn. lia.
  - done.
Qed.

(** However the accesses of any number of contexts that reach a system call without an
    operation interleave: every context returns after five of them at most and leaves no
    array; nothing is written unless the variable's value is the word asked for; a number
    below 8192 is reported at most once, and when all have returned exactly once if any
    asked for it, another number as often as it was asked for; and every line written says,
    in decimal, a number that was asked for. *)
Theorem absent_once value a ns pcs s : env_says value a -> Forall (fun n => - 2 ^ 63 < n < 2 ^ 63) ns -> trace_steps a (Load <$> ns, trace_zero) (pcs, s) ->
  (forall i pc, pcs !! i = Some pc -> pc <> Return -> exists pc' s', trace_absent a pc s = Some (pc', s') /\ (rank pc' < rank pc <= 5)%nat) /\
  (asked_for value = false -> lines s = []) /\
  (forall n, 0 <= n < 8192 -> said n s <= 1) /\
  Forall (fun l => exists n t, n ∈ ns /\ l = absent_head ++ t ++ [10] /\ text_of n t) (lines s) /\
  (Forall (fun pc => pc = Return) pcs -> asked_for value = true -> forall n, - 2 ^ 63 < n < 2 ^ 63 ->
     said n s = if small n then if bool_decide (n ∈ ns) then 1 else 0 else cnt (Z.eqb n) ns).
Proof.
  intros Ha Hns Hs. destruct (inv_reached value a ns Ha pcs s Hs) as [log I]. split; [|split; [|split; [|split]]].
  - intros i pc Hi Hr. destruct (inv_runs value a ns Ha Hns _ _ _ _ _ I Hi Hr) as [[pc' s'] E]. exists pc', s'. split; [done|]. split; [by eapply rank_falls|]. destruct pc; cbn; lia.
  - intros E. pose proof (i_log _ _ _ _ _ I) as Hl. pose proof (i_lines _ _ _ _ _ I) as H2. destruct H2 as [|m l log ls]; [done|]. inversion_clear Hl as [|?? [_ HW] _]. unfold W in HW. by rewrite E in HW.
  - intros n Hn. rewrite (said_log value ns pcs s log) by (done || lia). pose proof (i_once _ _ _ _ _ I n ltac:(unfold small; lia)). pose proof (cnt_nonneg (writes n) pcs). destruct (marked (seen s) n); lia.
  - pose proof (i_log _ _ _ _ _ I) as Hl. pose proof (i_lines _ _ _ _ _ I) as H2. clear -Hl H2 Hns. induction H2 as [|m l log ls Hm _ IH]; [done|]. inversion_clear Hl as [|?? [Hin _] Hl']. constructor; [|by apply IH].
    destruct (absent_line_text m (in_bounds ns Hns m Hin)) as (t & E & Ht). exists m, t. rewrite Hm in E. injection E as ->. done.
  - intros Hall E n Hn. rewrite (said_log value ns pcs s log) by done. assert (HW : W value = 1) by (unfold W; by rewrite E).
    assert (Hw : cnt (writes n) pcs = 0) by (apply cnt_none; eapply list.Forall_impl; [exact Hall|]; by intros ? ->). assert (Hb : cnt (before n) pcs = 0) by (apply cnt_none; eapply list.Forall_impl; [exact Hall|]; by intros ? ->).
    destruct (small n) eqn:Es; [|pose proof (i_all _ _ _ _ _ I n Es HW); lia]. pose proof (i_once _ _ _ _ _ I n Es) as Ho. case_bool_decide as Hin.
    + destruct (i_due _ _ _ _ _ I n Es HW Hin) as [Hm|Hm]; [rewrite Hm in Ho|]; lia.
    + apply cnt_none, list.Forall_forall. intros m Hm. apply Z.eqb_neq. intros ->. apply Hin. by apply (proj1 (list.Forall_forall _ _) (i_log _ _ _ _ _ I) m Hm).
Qed.

(** The contexts in the order given, each its next access. *)
Fixpoint trace_run (a : env_answer) (order : list nat) (pcs : list absent_pc) (s : trace) : option (list absent_pc * trace) :=
  match order with
  | [] => Some (pcs, s)
  | i :: order' => pc ← pcs !! i; x ← trace_absent a pc s; trace_run a order' (<[i := x.1]> pcs) x.2
  end.

Lemma trace_run_steps a x order pcs s y : trace_steps a x (pcs, s) -> trace_run a order pcs s = Some y -> trace_steps a x y.
Proof.
  revert pcs s. induction order as [|i order IH]; intros pcs s Hx; cbn [trace_run]; [by intros [= <-]|]. destruct (pcs !! i) as [pc|] eqn:Hi; [|done]. cbn [mbind option_bind].
  destruct (trace_absent a pc s) as [[pc' s']|] eqn:E; [|done]. cbn [mbind option_bind fst snd]. apply IH. by eapply S_step.
Qed.

(** Two contexts that reach the same number at once: the line is written once. *)
Definition enosys_set : env_answer := (6, wanted).
Definition both_done : trace := Trace 1 (<[33%nat := 4]> (replicate 1024 0)) [absent_head ++ [50; 54; 54; 10]].

Lemma absent_once_witness : said 266 both_done = 1.
Proof.
  destruct (absent_once (Some wanted) enosys_set [266; 266] [Return; Return] both_done) as (_ & _ & _ & _ & H);
    [done|by repeat constructor|apply (trace_run_steps _ _ [0; 1; 0; 1; 0; 1; 1; 0; 1]%nat (Load <$> [266; 266]) trace_zero); [apply S_none|vm_compute; reflexivity]|].
  exact (H ltac:(by repeat constructor) eq_refl 266 ltac:(lia)).
Defined.

(** ** The version, and uname *)

Lemma put_spec cap o bs : Z.of_nat (length o) + Z.of_nat (length bs) <= cap -> put cap o bs = Some (o ++ bs).
Proof. intros H. unfold put. by rewrite (proj2 (Z.leb_le _ _)). Qed.

Lemma banner_version_spec v line : (length line <= 94)%nat -> banner_version v line = Some (line ++ take (94 - length line) v).
Proof.
  revert line. induction v as [|c v IH]; intros line Hl; cbn [banner_version]; [by rewrite take_nil, app_nil_r|]. destruct (Z.ltb_spec (Z.of_nat (length line)) (96 - 2)) as [H|H].
  - rewrite put_spec by (cbn; lia). cbn [mbind option_bind]. rewrite IH by (rewrite length_app; cbn; lia). rewrite length_app. cbn [length]. replace (94 - length line)%nat with (S (94 - (length line + 1))) by lia. cbn [take]. by rewrite <-app_assoc.
  - replace (94 - length line)%nat with O by lia. by rewrite take_0, app_nil_r.
Qed.

(** The version is named on the error stream exactly where the trace is asked for, in a line
    of its own that is never longer than its array, whatever the version's length; and what
    was asked is not asked again. *)
Theorem banner_fits value a version : env_says value a ->
  okm_trace_banner a version trace_zero =
    Some (if asked_for value then Trace 1 (seen trace_zero) [banner_head ++ take 81 version ++ [10]] else Trace 0 (seen trace_zero) []).
Proof.
  intros Ha. unfold okm_trace_banner, trace_wanted. cbn [g_want trace_zero Z.leb Z.compare]. rewrite (ask_spec _ _ Ha). cbn [mbind option_bind]. destruct (asked_for value); [|done]. cbn [Z.eqb].
  rewrite put_spec by done. cbn [mbind option_bind app]. rewrite banner_version_spec by (cbn; lia). cbn [mbind option_bind]. rewrite put_spec; [by rewrite <-app_assoc|]. rewrite length_app. pose proof (length_take version 81) as Hle. change (length banner_head) with 13%nat. change (94 - 13)%nat with 81%nat. cbn [length]. lia.
Qed.

Lemma put_field_spec v i field : (i <= 64)%nat -> length field = 65%nat ->
  put_field v (Z.of_nat i) field = Some (take i field ++ (Some <$> take (64 - i) v) ++ Some 0 :: drop (S (i + length (take (64 - i) v))) field).
Proof.
  revert i field. induction v as [|c v IH]; intros i field Hi Hl; cbn [put_field].
  - rewrite set_at_some by lia. rewrite Nat2Z.id, take_nil. cbn [fmap list_fmap length app]. rewrite Nat.add_0_r. by rewrite insert_take_drop by lia.
  - destruct (Z.ltb_spec (Z.of_nat i) 64) as [H|H].
    + rewrite set_at_some by lia. cbn [mbind option_bind]. rewrite Nat2Z.id. replace (Z.of_nat i + 1) with (Z.of_nat (S i)) by lia. rewrite IH by (rewrite ?length_insert; lia).
      replace (64 - i)%nat with (S (64 - S i)) by lia. cbn [take fmap list_fmap length]. f_equal. rewrite (take_S_r _ i (Some c)) by (apply list_lookup_insert_eq; lia). rewrite take_insert_ge by lia. rewrite <-app_assoc. cbn [app]. do 4 f_equal.
      rewrite drop_insert_lt by lia. f_equal. lia.
    + replace (64 - i)%nat with O by lia. rewrite set_at_some by lia. rewrite Nat2Z.id, take_0. cbn [fmap list_fmap length app]. rewrite Nat.add_0_r. by rewrite insert_take_drop by lia.
Qed.

Lemma cstring_put v rest : Forall (fun c => c <> 0) v -> cstring ((Some <$> v) ++ Some 0 :: rest) = Some v.
Proof. induction 1 as [|c v Hc _ IH]; [done|]. cbn [fmap list_fmap app cstring]. rewrite (proj2 (Z.eqb_neq c 0)) by done. by rewrite IH. Qed.

(** What a field reads as after it was put. *)
Lemma field_reads v field : Forall (fun c => c <> 0) v -> length field = 65%nat -> exists f, put_field v 0 field = Some f /\ length f = 65%nat /\ cstring f = Some (take 64 v).
Proof.
  intros Hv Hl. eexists. split; [exact (put_field_spec v 0 field ltac:(lia) Hl)|]. rewrite take_0, Nat.sub_0_r. cbn [app]. split.
  - rewrite length_app, length_fmap. cbn [length]. rewrite length_drop, Hl. rewrite length_take. lia.
  - apply cstring_put. by apply Forall_take.
Qed.

Definition whole (u : utsname) : Prop := Forall (fun f => length f = 65%nat) [sysname u; nodename u; release u; Report.version u; machine u; domainname u].

(** uname of a structure writes within its arrays, whatever the version's length: five
    fields read back as texts, the release as the version's first sixty-four characters; and
    the sixth, domainname, is left as it was. *)
Theorem uname_fields okm_version u : whole u -> Forall (fun c => c <> 0) okm_version ->
  exists u', uname okm_version u = Some u' /\ whole u' /\ cstring (sysname u') = Some openkal /\ cstring (nodename u') = Some openkal /\
    cstring (release u') = Some (take 64 okm_version) /\ cstring (Report.version u') = Some openkal /\ cstring (machine u') = Some unknown /\ domainname u' = domainname u.
Proof.
  intros Hw Hv. unfold whole in Hw. rewrite !list.Forall_cons in Hw. destruct Hw as (H1 & H2 & H3 & H4 & H5 & H6 & _). unfold uname.
  assert (Ho : Forall (fun c => c <> 0) openkal) by (by repeat constructor). assert (Hu : Forall (fun c => c <> 0) unknown) by (by repeat constructor).
  destruct (field_reads openkal _ Ho H1) as (f1 & -> & L1 & C1). destruct (field_reads openkal _ Ho H2) as (f2 & -> & L2 & C2). destruct (field_reads okm_version _ Hv H3) as (f3 & -> & L3 & C3).
  destruct (field_reads openkal _ Ho H4) as (f4 & -> & L4 & C4). destruct (field_reads unknown _ Hu H5) as (f5 & -> & L5 & C5). cbn [mbind option_bind]. eexists. split; [done|]. cbn [sysname nodename release Report.version machine domainname].
  split; [by repeat constructor|]. done.
Qed.

Lemma uname_fields_witness : exists u', uname [49; 46; 48] (Utsname (replicate 65 None) (replicate 65 None) (replicate 65 None) (replicate 65 None) (replicate 65 None) (replicate 65 None)) = Some u' /\ cstring (release u') = Some [49; 46; 48].
Proof.
  destruct (uname_fields [49; 46; 48] (Utsname (replicate 65 None) (replicate 65 None) (replicate 65 None) (replicate 65 None) (replicate 65 None) (replicate 65 None))) as (u' & E & _ & _ & _ & Hr & _);
    [by repeat constructor|by repeat constructor|]. exists u'. split; [exact E|exact Hr].
Defined.

(** getdomainname gives its caller what the stack held: any text there is answered as the
    domain's name, and of storage that was never written the answer is not defined. *)
Theorem domain_unset okm_version d len : Forall (fun c => c <> 0) okm_version -> Forall (fun c => c <> 0) d -> (length d < 65)%nat -> Z.of_nat (length d) < len ->
  (exists temp, whole temp /\ getdomainname okm_version temp len = Some (inr d)) /\
  (exists temp, whole temp /\ getdomainname okm_version temp len = None).
Proof.
  intros Hv Hd Hl Hlen. set (blank := replicate 65 (@None Z)). assert (Hb : length blank = 65%nat) by done. split.
  - destruct (field_reads d blank Hd Hb) as (f & _ & Lf & Cf). rewrite take_ge in Cf by lia. exists (Utsname blank blank blank blank blank f). split; [by repeat constructor|].
    destruct (uname_fields okm_version (Utsname blank blank blank blank blank f)) as (u' & E & _ & _ & _ & _ & _ & _ & Ed); [by repeat constructor|done|]. unfold getdomainname. rewrite E. cbn [mbind option_bind]. rewrite Ed. cbn [domainname].
    rewrite (proj2 (Z.eqb_neq len 0)) by lia. rewrite Cf. cbn [mbind option_bind]. by rewrite (proj2 (Z.leb_gt _ _)).
  - exists (Utsname blank blank blank blank blank blank). split; [by repeat constructor|].
    destruct (uname_fields okm_version (Utsname blank blank blank blank blank blank)) as (u' & E & _ & _ & _ & _ & _ & _ & Ed); [by repeat constructor|done|]. unfold getdomainname. rewrite E. cbn [mbind option_bind]. rewrite Ed. cbn [domainname].
    by rewrite (proj2 (Z.eqb_neq len 0)) by lia.
Qed.

Lemma domain_unset_witness : exists temp, whole temp /\ getdomainname [49] temp 65 = Some (inr [120; 121]).
Proof. exact (proj1 (domain_unset [49] [120; 121] 65 ltac:(by repeat constructor) ltac:(by repeat constructor) ltac:(cbn; lia) ltac:(cbn; lia))). Defined.
