(* ===== verification/Dispatch.v ===== *)
(** The dispatcher (port/src/okm_syscall.c): which arm of __okm_syscall's switch, and of
    do_scratch_call's, a system call's number chooses on each architecture, and the values an
    arm passes on, as the casts make them from six words. An arm that is a call is the call
    with its arguments; an arm of more statements is named and is modelled where its
    component is. *)
From S2P Require Import Prelude Kal Names Nodes Report.
From stdpp Require Import base list option.
From Stdlib Require Import ZArith Lia.

#[local] Open Scope Z_scope.

(** ** The numbers (musl/arch/*/bits/syscall.h.in) *)

(** The system calls the switches name. *)
Inductive sysno :=
| SYS_write | SYS_read | SYS_writev | SYS_readv | SYS_pread64 | SYS_pwrite64 | SYS_preadv | SYS_pwritev
| SYS_openat | SYS_open | SYS_close | SYS_pipe | SYS_pipe2 | SYS_copy_file_range | SYS_lseek | SYS_utimensat
| SYS_truncate | SYS_ftruncate | SYS_fsync | SYS_fdatasync | SYS_statx | SYS_fstat | SYS_newfstatat
| SYS_stat | SYS_lstat | SYS_getdents64 | SYS_mkdirat | SYS_mkdir | SYS_unlinkat | SYS_unlink | SYS_rmdir
| SYS_renameat | SYS_renameat2 | SYS_rename | SYS_faccessat | SYS_faccessat2 | SYS_access | SYS_fchmod
| SYS_chmod | SYS_fchmodat | SYS_getcwd | SYS_chdir | SYS_fchdir | SYS_readlinkat | SYS_readlink
| SYS_symlinkat | SYS_symlink | SYS_dup2 | SYS_dup3 | SYS_dup | SYS_fcntl | SYS_flock | SYS_ioctl | SYS_mmap
| SYS_munmap | SYS_msync | SYS_mprotect | SYS_madvise | SYS_mremap | SYS_brk | SYS_clock_gettime
| SYS_clock_getres | SYS_gettimeofday | SYS_nanosleep | SYS_clock_nanosleep | SYS_futex | SYS_getrandom
| SYS_sched_yield | SYS_sched_setscheduler | SYS_setpriority | SYS_gettid | SYS_getpid | SYS_getppid
| SYS_set_tid_address | SYS_exit | SYS_exit_group | SYS_wait4 | SYS_getrusage | SYS_execve | SYS_kill
| SYS_tkill | SYS_tgkill | SYS_fork | SYS_clone | SYS_socket | SYS_bind | SYS_listen | SYS_accept
| SYS_accept4 | SYS_connect | SYS_getsockname | SYS_getpeername | SYS_shutdown | SYS_setsockopt
| SYS_getsockopt | SYS_sendto | SYS_recvfrom | SYS_sendmsg | SYS_recvmsg | SYS_poll | SYS_ppoll | SYS_select
| SYS_pselect6 | SYS_getuid | SYS_geteuid | SYS_getgid | SYS_getegid | SYS_getpgid | SYS_getsid | SYS_getpgrp
| SYS_setpgid | SYS_setsid | SYS_sched_getaffinity | SYS_statfs | SYS_fstatfs | SYS_prlimit64
| SYS_membarrier | SYS_uname | SYS_rt_sigprocmask | SYS_rt_sigaction | SYS_sigaltstack | SYS_rt_sigreturn.

Inductive arch := X86_64 | Aarch64 | Riscv64.

(** In the order x86_64, aarch64, riscv64; -1 where the architecture has no such call. *)
Definition numbers (s : sysno) : Z * Z * Z :=
  match s with
  | SYS_write => (1, 64, 64) | SYS_read => (0, 63, 63) | SYS_writev => (20, 66, 66)
  | SYS_readv => (19, 65, 65) | SYS_pread64 => (17, 67, 67) | SYS_pwrite64 => (18, 68, 68)
  | SYS_preadv => (295, 69, 69) | SYS_pwritev => (296, 70, 70) | SYS_openat => (257, 56, 56)
  | SYS_open => (2, -1, -1) | SYS_close => (3, 57, 57) | SYS_pipe => (22, -1, -1)
  | SYS_pipe2 => (293, 59, 59) | SYS_copy_file_range => (326, 285, 285) | SYS_lseek => (8, 62, 62)
  | SYS_utimensat => (280, 88, 88) | SYS_truncate => (76, 45, 45) | SYS_ftruncate => (77, 46, 46)
  | SYS_fsync => (74, 82, 82) | SYS_fdatasync => (75, 83, 83) | SYS_statx => (332, 291, 291)
  | SYS_fstat => (5, 80, 80) | SYS_newfstatat => (262, 79, 79) | SYS_stat => (4, -1, -1)
  | SYS_lstat => (6, -1, -1) | SYS_getdents64 => (217, 61, 61) | SYS_mkdirat => (258, 34, 34)
  | SYS_mkdir => (83, -1, -1) | SYS_unlinkat => (263, 35, 35) | SYS_unlink => (87, -1, -1)
  | SYS_rmdir => (84, -1, -1) | SYS_renameat => (264, 38, -1) | SYS_renameat2 => (316, 276, 276)
  | SYS_rename => (82, -1, -1) | SYS_faccessat => (269, 48, 48) | SYS_faccessat2 => (439, 439, 439)
  | SYS_access => (21, -1, -1) | SYS_fchmod => (91, 52, 52) | SYS_chmod => (90, -1, -1)
  | SYS_fchmodat => (268, 53, 53) | SYS_getcwd => (79, 17, 17) | SYS_chdir => (80, 49, 49)
  | SYS_fchdir => (81, 50, 50) | SYS_readlinkat => (267, 78, 78) | SYS_readlink => (89, -1, -1)
  | SYS_symlinkat => (266, 36, 36) | SYS_symlink => (88, -1, -1) | SYS_dup2 => (33, -1, -1)
  | SYS_dup3 => (292, 24, 24) | SYS_dup => (32, 23, 23) | SYS_fcntl => (72, 25, 25)
  | SYS_flock => (73, 32, 32) | SYS_ioctl => (16, 29, 29) | SYS_mmap => (9, 222, 222)
  | SYS_munmap => (11, 215, 215) | SYS_msync => (26, 227, 227) | SYS_mprotect => (10, 226, 226)
  | SYS_madvise => (28, 233, 233) | SYS_mremap => (25, 216, 216) | SYS_brk => (12, 214, 214)
  | SYS_clock_gettime => (228, 113, 113) | SYS_clock_getres => (229, 114, 114)
  | SYS_gettimeofday => (96, 169, 169) | SYS_nanosleep => (35, 101, 101)
  | SYS_clock_nanosleep => (230, 115, 115) | SYS_futex => (202, 98, 98) | SYS_getrandom => (318, 278, 278)
  | SYS_sched_yield => (24, 124, 124) | SYS_sched_setscheduler => (144, 119, 119)
  | SYS_setpriority => (141, 140, 140) | SYS_gettid => (186, 178, 178) | SYS_getpid => (39, 172, 172)
  | SYS_getppid => (110, 173, 173) | SYS_set_tid_address => (218, 96, 96) | SYS_exit => (60, 93, 93)
  | SYS_exit_group => (231, 94, 94) | SYS_wait4 => (61, 260, 260) | SYS_getrusage => (98, 165, 165)
  | SYS_execve => (59, 221, 221) | SYS_kill => (62, 129, 129) | SYS_tkill => (200, 130, 130)
  | SYS_tgkill => (234, 131, 131) | SYS_fork => (57, -1, -1) | SYS_clone => (56, 220, 220)
  | SYS_socket => (41, 198, 198) | SYS_bind => (49, 200, 200) | SYS_listen => (50, 201, 201)
  | SYS_accept => (43, 202, 202) | SYS_accept4 => (288, 242, 242) | SYS_connect => (42, 203, 203)
  | SYS_getsockname => (51, 204, 204) | SYS_getpeername => (52, 205, 205) | SYS_shutdown => (48, 210, 210)
  | SYS_setsockopt => (54, 208, 208) | SYS_getsockopt => (55, 209, 209) | SYS_sendto => (44, 206, 206)
  | SYS_recvfrom => (45, 207, 207) | SYS_sendmsg => (46, 211, 211) | SYS_recvmsg => (47, 212, 212)
  | SYS_poll => (7, -1, -1) | SYS_ppoll => (271, 73, 73) | SYS_select => (23, -1, -1)
  | SYS_pselect6 => (270, 72, 72) | SYS_getuid => (102, 174, 174) | SYS_geteuid => (107, 175, 175)
  | SYS_getgid => (104, 176, 176) | SYS_getegid => (108, 177, 177) | SYS_getpgid => (121, 155, 155)
  | SYS_getsid => (124, 156, 156) | SYS_getpgrp => (111, -1, -1) | SYS_setpgid => (109, 154, 154)
  | SYS_setsid => (112, 157, 157) | SYS_sched_getaffinity => (204, 123, 123) | SYS_statfs => (137, 43, 43)
  | SYS_fstatfs => (138, 44, 44) | SYS_prlimit64 => (302, 261, 261) | SYS_membarrier => (324, 283, 283)
  | SYS_uname => (63, 160, 160) | SYS_rt_sigprocmask => (14, 135, 135) | SYS_rt_sigaction => (13, 134, 134)
  | SYS_sigaltstack => (131, 132, 132) | SYS_rt_sigreturn => (15, 139, 139)
  end.

Definition number (m : arch) (s : sysno) : option Z :=
  let '(x, a, r) := numbers s in
  let n := match m with X86_64 => x | Aarch64 => a | Riscv64 => r end in
  if n =? -1 then None else Some n.

(** ** What an arm passes on *)

(** int, unsigned (and mode_t), size_t, a pointer, a signed word (off_t, int64_t) and
    unsigned long. *)
Inductive cty := c_int | c_unsigned | c_size | c_ptr | c_long | c_ulong.

Definition cast (ty : cty) (a : Z) : Z :=
  match ty with
  | c_int => sext32 a
  | c_unsigned => wrap32 a
  | c_size | c_ptr | c_ulong => wrap64 a
  | c_long => sext64 a
  end.

(** A value, or the address of a local iovec that holds an address and a length. *)
Inductive carg := Arg (ty : cty) (v : Z) | Iov (base len : Z).

(** What the arms call: functions of this port and of openkal, and OKM_CONTEXT_ID. *)
Inductive handler :=
| H_do_write | H_do_read | H_do_transfer_at | H_do_openat | H_do_fstat | H_do_fstatat | H_do_getdents
| H_do_chmod | H_okm_chdir | H_do_readlink | H_do_symlink | H_do_mmap | H_okm_futex | H_okm_task_yield
| H_context_id | H_okm_self_pid | H_okm_task_exit | H_kal_exit | H_do_wait4 | H_do_getrusage | H_signal_self
| H_okm_fork | H_okm_sock_open | H_okm_sock_bind | H_okm_sock_listen | H_okm_sock_accept | H_okm_sock_connect
| H_okm_sock_name | H_okm_sock_shutdown | H_okm_sock_setopt | H_okm_sock_getopt | H_okm_sock_send
| H_okm_sock_recv | H_okm_poll.

(** The types of their parameters, as they are declared. *)
Definition prototype (h : handler) : list cty :=
  match h with
  | H_do_write => [c_int; c_ptr; c_size] | H_do_read => [c_int; c_ptr; c_size]
  | H_do_transfer_at => [c_int; c_ptr; c_int; c_long; c_int] | H_do_openat => [c_int; c_ptr; c_int; c_int]
  | H_do_fstat => [c_int; c_ptr] | H_do_fstatat => [c_int; c_ptr; c_ptr; c_int]
  | H_do_getdents => [c_int; c_ptr; c_size] | H_do_chmod => [c_int; c_ptr; c_unsigned]
  | H_okm_chdir => [c_int; c_ptr] | H_do_readlink => [c_int; c_ptr; c_ptr; c_size]
  | H_do_symlink => [c_ptr; c_int; c_ptr] | H_do_mmap => [c_ptr; c_size; c_int; c_int; c_int; c_long]
  | H_okm_futex => [c_ptr; c_int; c_int; c_ptr] | H_okm_task_yield => [] | H_context_id => []
  | H_okm_self_pid => [] | H_okm_task_exit => [c_int] | H_kal_exit => [c_int]
  | H_do_wait4 => [c_int; c_ptr; c_int; c_ptr] | H_do_getrusage => [c_int; c_ptr] | H_signal_self => [c_int]
  | H_okm_fork => [] | H_okm_sock_open => [c_int; c_int; c_int]
  | H_okm_sock_bind => [c_int; c_ptr; c_unsigned] | H_okm_sock_listen => [c_int; c_int]
  | H_okm_sock_accept => [c_int; c_ptr; c_ptr; c_int] | H_okm_sock_connect => [c_int; c_ptr; c_unsigned]
  | H_okm_sock_name => [c_int; c_ptr; c_ptr; c_int] | H_okm_sock_shutdown => [c_int; c_int]
  | H_okm_sock_setopt => [c_int; c_int; c_int; c_ptr; c_unsigned]
  | H_okm_sock_getopt => [c_int; c_int; c_int; c_ptr; c_ptr]
  | H_okm_sock_send => [c_int; c_ptr; c_ulong; c_int; c_ptr; c_unsigned]
  | H_okm_sock_recv => [c_int; c_ptr; c_ulong; c_int; c_ptr; c_ptr] | H_okm_poll => [c_ptr; c_ulong; c_int]
  end.

(** The answer of a call; the answer [v] after a call; the arm's own statements; a constant;
    or the default arm, which reports the number and answers ENOSYS. *)
Inductive outcome :=
| Call (h : handler) (args : list carg)
| Does (h : handler) (args : list carg) (v : Z)
| Inline (s : sysno)
| Answer (v : Z)
| Absent (pc : absent_pc).

(** ** The two switches *)

Definition scratch_labels : list sysno := [   SYS_copy_file_range; SYS_utimensat; SYS_truncate; SYS_mkdirat; SYS_mkdir; SYS_unlinkat; SYS_unlink;
   SYS_rmdir; SYS_renameat; SYS_renameat2; SYS_rename; SYS_faccessat; SYS_faccessat2; SYS_access; SYS_statfs;
   SYS_fstatfs].

Definition syscall_labels : list sysno :=
  [SYS_write; SYS_read; SYS_writev; SYS_readv; SYS_pread64; SYS_pwrite64; SYS_preadv; SYS_pwritev;
   SYS_openat; SYS_open; SYS_close; SYS_pipe; SYS_pipe2; SYS_copy_file_range; SYS_lseek; SYS_utimensat;
   SYS_truncate; SYS_ftruncate; SYS_fsync; SYS_fdatasync; SYS_statx; SYS_fstat; SYS_newfstatat; SYS_stat;
   SYS_lstat; SYS_getdents64; SYS_mkdirat; SYS_mkdir; SYS_unlinkat; SYS_unlink; SYS_rmdir; SYS_renameat;
   SYS_renameat2; SYS_rename; SYS_faccessat; SYS_faccessat2; SYS_access; SYS_fchmod; SYS_chmod; SYS_fchmodat;
   SYS_getcwd; SYS_chdir; SYS_fchdir; SYS_readlinkat; SYS_readlink; SYS_symlinkat; SYS_symlink; SYS_dup2;
   SYS_dup3; SYS_dup; SYS_fcntl; SYS_flock; SYS_ioctl; SYS_mmap; SYS_munmap; SYS_msync; SYS_mprotect;
   SYS_madvise; SYS_mremap; SYS_brk; SYS_clock_gettime; SYS_clock_getres; SYS_gettimeofday; SYS_nanosleep;
   SYS_clock_nanosleep; SYS_futex; SYS_getrandom; SYS_sched_yield; SYS_sched_setscheduler; SYS_setpriority;
   SYS_gettid; SYS_getpid; SYS_getppid; SYS_set_tid_address; SYS_exit; SYS_exit_group; SYS_wait4;
   SYS_getrusage; SYS_execve; SYS_kill; SYS_tkill; SYS_tgkill; SYS_fork; SYS_clone; SYS_socket; SYS_bind;
   SYS_listen; SYS_accept; SYS_accept4; SYS_connect; SYS_getsockname; SYS_getpeername; SYS_shutdown;
   SYS_setsockopt; SYS_getsockopt; SYS_sendto; SYS_recvfrom; SYS_sendmsg; SYS_recvmsg; SYS_poll; SYS_ppoll;
   SYS_select; SYS_pselect6; SYS_getuid; SYS_geteuid; SYS_getgid; SYS_getegid; SYS_getpgid; SYS_getsid;
   SYS_getpgrp; SYS_setpgid; SYS_setsid; SYS_sched_getaffinity; SYS_statfs; SYS_fstatfs; SYS_prlimit64;
   SYS_membarrier; SYS_uname; SYS_rt_sigprocmask; SYS_rt_sigaction; SYS_sigaltstack; SYS_rt_sigreturn].

(** A label is in the switch where the architecture has the number; SYS_fstatfs is one only
    where there is no SYS_statfs. *)
Definition label (m : arch) (s : sysno) : option Z :=
  match s with
  | SYS_fstatfs => match number m SYS_statfs with Some _ => None | None => number m s end
  | _ => number m s
  end.

Definition switch (m : arch) (labels : list sysno) (n : Z) : option sysno := snd <$> list_find (fun s => label m s = Some n) labels.

Definition do_scratch_call (m : arch) (n : Z) : outcome :=
  match switch m scratch_labels n with Some s => Inline s | None => Answer (- ENOSYS) end.

Definition arm (m : arch) (s : sysno) (n a1 a2 a3 a4 a5 a6 : Z) : outcome :=
  match s with
  | SYS_write => Call H_do_write [Arg c_int (cast c_int a1); Arg c_ptr (cast c_ptr a2); Arg c_size (cast c_size a3)]
  | SYS_read => Call H_do_read [Arg c_int (cast c_int a1); Arg c_ptr (cast c_ptr a2); Arg c_size (cast c_size a3)]
  | SYS_pread64 => Call H_do_transfer_at [Arg c_int (cast c_int a1); Iov (cast c_ptr a2) (cast c_size a3); Arg c_int 1; Arg c_long (cast c_long a4); Arg c_int 0]
  | SYS_pwrite64 => Call H_do_transfer_at [Arg c_int (cast c_int a1); Iov (cast c_ptr a2) (cast c_size a3); Arg c_int 1; Arg c_long (cast c_long a4); Arg c_int 1]
  | SYS_preadv => Call H_do_transfer_at [Arg c_int (cast c_int a1); Arg c_ptr (cast c_ptr a2); Arg c_int (cast c_int a3); Arg c_long (cast c_long a4); Arg c_int 0]
  | SYS_pwritev => Call H_do_transfer_at [Arg c_int (cast c_int a1); Arg c_ptr (cast c_ptr a2); Arg c_int (cast c_int a3); Arg c_long (cast c_long a4); Arg c_int 1]
  | SYS_openat => Call H_do_openat [Arg c_int (cast c_int a1); Arg c_ptr (cast c_ptr a2); Arg c_int (cast c_int a3); Arg c_int (cast c_int a4)]
  | SYS_open => Call H_do_openat [Arg c_int AT_FDCWD; Arg c_ptr (cast c_ptr a1); Arg c_int (cast c_int a2); Arg c_int (cast c_int a3)]
  | SYS_fstat => Call H_do_fstat [Arg c_int (cast c_int a1); Arg c_ptr (cast c_ptr a2)]
  | SYS_newfstatat => Call H_do_fstatat [Arg c_int (cast c_int a1); Arg c_ptr (cast c_ptr a2); Arg c_ptr (cast c_ptr a3); Arg c_int (cast c_int a4)]
  | SYS_stat => Call H_do_fstatat [Arg c_int AT_FDCWD; Arg c_ptr (cast c_ptr a1); Arg c_ptr (cast c_ptr a2); Arg c_int 0]
  | SYS_lstat => Call H_do_fstatat [Arg c_int AT_FDCWD; Arg c_ptr (cast c_ptr a1); Arg c_ptr (cast c_ptr a2); Arg c_int AT_SYMLINK_NOFOLLOW]
  | SYS_getdents64 => Call H_do_getdents [Arg c_int (cast c_int a1); Arg c_ptr (cast c_ptr a2); Arg c_size (cast c_size a3)]
  | SYS_fchmod => Answer (- ENOSYS)
  | SYS_chmod => Call H_do_chmod [Arg c_int AT_FDCWD; Arg c_ptr (cast c_ptr a1); Arg c_unsigned (cast c_unsigned a2)]
  | SYS_fchmodat => Call H_do_chmod [Arg c_int (cast c_int a1); Arg c_ptr (cast c_ptr a2); Arg c_unsigned (cast c_unsigned a3)]
  | SYS_chdir => Call H_okm_chdir [Arg c_int AT_FDCWD; Arg c_ptr (cast c_ptr a1)]
  | SYS_fchdir => Call H_okm_chdir [Arg c_int (cast c_int a1); Arg c_ptr 0]
  | SYS_readlinkat => Call H_do_readlink [Arg c_int (cast c_int a1); Arg c_ptr (cast c_ptr a2); Arg c_ptr (cast c_ptr a3); Arg c_size (cast c_size a4)]
  | SYS_readlink => Call H_do_readlink [Arg c_int AT_FDCWD; Arg c_ptr (cast c_ptr a1); Arg c_ptr (cast c_ptr a2); Arg c_size (cast c_size a3)]
  | SYS_symlinkat => Call H_do_symlink [Arg c_ptr (cast c_ptr a1); Arg c_int (cast c_int a2); Arg c_ptr (cast c_ptr a3)]
  | SYS_symlink => Call H_do_symlink [Arg c_ptr (cast c_ptr a1); Arg c_int AT_FDCWD; Arg c_ptr (cast c_ptr a2)]
  | SYS_mmap => Call H_do_mmap [Arg c_ptr (cast c_ptr a1); Arg c_size (cast c_size a2); Arg c_int (cast c_int a3); Arg c_int (cast c_int a4); Arg c_int (cast c_int a5); Arg c_long (cast c_long a6)]
  | SYS_mprotect => Answer (- ENOSYS)
  | SYS_mremap => Answer (- ENOSYS)
  | SYS_brk => Answer (- ENOSYS)
  | SYS_futex => Call H_okm_futex [Arg c_ptr (cast c_ptr a1); Arg c_int (cast c_int a2); Arg c_int (cast c_int a3); Arg c_ptr (cast c_ptr a4)]
  | SYS_sched_yield => Does H_okm_task_yield [] 0
  | SYS_gettid => Call H_context_id []
  | SYS_getpid => Call H_okm_self_pid []
  | SYS_getppid => Answer 0
  | SYS_set_tid_address => Call H_context_id []
  | SYS_exit => Call H_okm_task_exit [Arg c_int (cast c_int a1)]
  | SYS_exit_group => Does H_kal_exit [Arg c_int (cast c_int a1)] 0
  | SYS_wait4 => Call H_do_wait4 [Arg c_int (cast c_int a1); Arg c_ptr (cast c_ptr a2); Arg c_int (cast c_int a3); Arg c_ptr (cast c_ptr a4)]
  | SYS_getrusage => Call H_do_getrusage [Arg c_int (cast c_int a1); Arg c_ptr (cast c_ptr a2)]
  | SYS_tkill => Call H_signal_self [Arg c_int (cast c_int a2)]
  | SYS_tgkill => Call H_signal_self [Arg c_int (cast c_int a3)]
  | SYS_fork => Call H_okm_fork []
  | SYS_clone => if negb (Z.land (cast c_ulong a1) (wrap64 (Z.lnot 0xff)) =? 0) || negb (cast c_ptr a2 =? 0) then Answer (- ENOSYS) else Call H_okm_fork []
  | SYS_socket => Call H_okm_sock_open [Arg c_int (cast c_int a1); Arg c_int (cast c_int a2); Arg c_int (cast c_int a3)]
  | SYS_bind => Call H_okm_sock_bind [Arg c_int (cast c_int a1); Arg c_ptr (cast c_ptr a2); Arg c_unsigned (cast c_unsigned a3)]
  | SYS_listen => Call H_okm_sock_listen [Arg c_int (cast c_int a1); Arg c_int (cast c_int a2)]
  | SYS_accept => Call H_okm_sock_accept [Arg c_int (cast c_int a1); Arg c_ptr (cast c_ptr a2); Arg c_ptr (cast c_ptr a3); Arg c_int 0]
  | SYS_accept4 => Call H_okm_sock_accept [Arg c_int (cast c_int a1); Arg c_ptr (cast c_ptr a2); Arg c_ptr (cast c_ptr a3); Arg c_int (cast c_int a4)]
  | SYS_connect => Call H_okm_sock_connect [Arg c_int (cast c_int a1); Arg c_ptr (cast c_ptr a2); Arg c_unsigned (cast c_unsigned a3)]
  | SYS_getsockname => Call H_okm_sock_name [Arg c_int (cast c_int a1); Arg c_ptr (cast c_ptr a2); Arg c_ptr (cast c_ptr a3); Arg c_int 0]
  | SYS_getpeername => Call H_okm_sock_name [Arg c_int (cast c_int a1); Arg c_ptr (cast c_ptr a2); Arg c_ptr (cast c_ptr a3); Arg c_int 1]
  | SYS_shutdown => Call H_okm_sock_shutdown [Arg c_int (cast c_int a1); Arg c_int (cast c_int a2)]
  | SYS_setsockopt => Call H_okm_sock_setopt [Arg c_int (cast c_int a1); Arg c_int (cast c_int a2); Arg c_int (cast c_int a3); Arg c_ptr (cast c_ptr a4); Arg c_unsigned (cast c_unsigned a5)]
  | SYS_getsockopt => Call H_okm_sock_getopt [Arg c_int (cast c_int a1); Arg c_int (cast c_int a2); Arg c_int (cast c_int a3); Arg c_ptr (cast c_ptr a4); Arg c_ptr (cast c_ptr a5)]
  | SYS_sendto => Call H_okm_sock_send [Arg c_int (cast c_int a1); Arg c_ptr (cast c_ptr a2); Arg c_size (cast c_size a3); Arg c_int (cast c_int a4); Arg c_ptr (cast c_ptr a5); Arg c_unsigned (cast c_unsigned a6)]
  | SYS_recvfrom => Call H_okm_sock_recv [Arg c_int (cast c_int a1); Arg c_ptr (cast c_ptr a2); Arg c_size (cast c_size a3); Arg c_int (cast c_int a4); Arg c_ptr (cast c_ptr a5); Arg c_ptr (cast c_ptr a6)]
  | SYS_poll => Call H_okm_poll [Arg c_ptr (cast c_ptr a1); Arg c_ulong (cast c_ulong a2); Arg c_int (cast c_int a3)]
  | SYS_getuid => Answer 1000
  | SYS_geteuid => Answer 1000
  | SYS_getgid => Answer 1000
  | SYS_getegid => Answer 1000
  | SYS_getpgrp => Call H_okm_self_pid []
  | SYS_setsid => Answer (- EPERM)
  | SYS_membarrier => Answer (- ENOSYS)
  | SYS_sigaltstack => Answer (- ENOSYS)
  | SYS_rt_sigreturn => Answer (- ENOSYS)
  | SYS_copy_file_range | SYS_utimensat | SYS_truncate | SYS_mkdirat | SYS_mkdir | SYS_unlinkat | SYS_unlink | SYS_rmdir | SYS_renameat | SYS_renameat2 | SYS_rename | SYS_faccessat | SYS_faccessat2 | SYS_access | SYS_statfs | SYS_fstatfs => do_scratch_call m n
  | _ => Inline s
  end.

Definition okm_syscall (m : arch) (n a1 a2 a3 a4 a5 a6 : Z) : outcome :=
  match switch m syscall_labels n with
  | Some s => arm m s n a1 a2 a3 a4 a5 a6
  | None => Absent (Load n)
  end.

(** ** What the dispatcher promises *)

(** The values a type has. *)
Definition in_type (ty : cty) (v : Z) : Prop :=
  match ty with
  | c_int => - 2 ^ 31 <= v < 2 ^ 31
  | c_unsigned => 0 <= v < 2 ^ 32
  | c_size | c_ptr | c_ulong => 0 <= v < 2 ^ 64
  | c_long => - 2 ^ 63 <= v < 2 ^ 63
  end.

Definition pointer (ty : cty) : bool := match ty with c_ptr => true | _ => false end.

(** An argument a parameter of type [ty] receives as it was passed. *)
Definition passes (ty : cty) (a : carg) : Prop :=
  match a with
  | Arg ty' v => pointer ty' = pointer ty /\ in_type ty v
  | Iov base len => ty = c_ptr /\ in_type c_ptr base /\ in_type c_size len
  end.

Lemma cast_range ty a : in_type ty (cast ty a).
Proof.
  destruct ty; cbn [in_type cast]; unfold sext32, sext64, wrap32, wrap64;
    match goal with |- context [?x mod ?y] => pose proof (Z.mod_pos_bound x y) end; lia.
Qed.

(** musl converts an argument to a word ([__scc]) and an arm converts it back: a value of the
    arm's type arrives as it was. *)
Lemma scc_arrives ty v : in_type ty v -> cast ty (sext64 v) = v.
Proof.
  intros H. assert (E : exists k, sext64 v = v + k * 2 ^ 64).
  { unfold sext64. exists (- ((v + 2 ^ 63) / 2 ^ 64)). pose proof (Z.div_mod (v + 2 ^ 63) (2 ^ 64)). lia. }
  destruct E as [k E]. destruct ty; cbn [in_type cast] in *; unfold sext32, wrap32, wrap64; try (rewrite E, Z.mod_add by lia; apply Z.mod_small; lia).
  - rewrite E. replace (v + k * 2 ^ 64 + 2 ^ 31) with (v + 2 ^ 31 + k * 2 ^ 32 * 2 ^ 32) by lia. rewrite Z.mod_add by lia. rewrite Z.mod_small; lia.
  - rewrite E. replace (k * 2 ^ 64) with (k * 2 ^ 32 * 2 ^ 32) by lia. rewrite Z.mod_add by lia. apply Z.mod_small. lia.
  - rewrite E. unfold sext64. replace (v + k * 2 ^ 64 + 2 ^ 63) with (v + 2 ^ 63 + k * 2 ^ 64) by lia. rewrite Z.mod_add by lia. rewrite Z.mod_small; lia.
Qed.

(** No two labels of a switch are one number. *)
Lemma label_chosen m s n : label m s = Some n -> switch m syscall_labels n = Some s.
Proof. intros E. destruct m, s; vm_compute in E; first [discriminate E|injection E as <-; vm_compute; reflexivity]. Qed.

Lemma label_absent m n : switch m syscall_labels n = None -> forall s, label m s <> Some n.
Proof. intros Hn s E. rewrite (label_chosen m s n E) in Hn. done. Qed.

(** What the outer switch hands over, the inner one has. *)
Lemma scratch_chosen m s n : s ∈ scratch_labels -> label m s = Some n -> do_scratch_call m n = Inline s.
Proof.
  unfold scratch_labels. rewrite !elem_of_cons. intros H. repeat (destruct H as [->|H]; [destruct m; intros E; vm_compute in E; first [discriminate E|injection E as <-; vm_compute; reflexivity]|]). by apply elem_of_nil in H.
Qed.

(** What is refused in an arm of its own, without a report. *)
Definition refused : list sysno := [SYS_fchmod; SYS_mprotect; SYS_mremap; SYS_brk; SYS_membarrier; SYS_sigaltstack; SYS_rt_sigreturn].

(** A clone that is not a fork: a flag beside the signal, or a stack. *)
Definition shares (a1 a2 : Z) : bool := negb (Z.land (cast c_ulong a1) (wrap64 (Z.lnot 0xff)) =? 0) || negb (cast c_ptr a2 =? 0).

Definition typed (o : outcome) : Prop :=
  match o with
  | Call h args | Does h args _ => Forall2 passes (prototype h) args
  | _ => True
  end.

(** One argument: a cast has its type's values, a constant is compared. *)
Ltac typed_arg := first [split; [reflexivity|first [apply cast_range|apply (cast_range c_size)|cbn; unfold AT_FDCWD, AT_SYMLINK_NOFOLLOW; lia]]|split; [reflexivity|split; [apply (cast_range c_ptr)|apply (cast_range c_size)]]].

Lemma arm_typed m s n a1 a2 a3 a4 a5 a6 : typed (arm m s n a1 a2 a3 a4 a5 a6).
Proof.
  assert (Hs : typed (do_scratch_call m n)) by (unfold do_scratch_call; by destruct (switch m scratch_labels n)).
  assert (Hf : typed (if shares a1 a2 then Answer (- ENOSYS) else Call H_okm_fork [])) by (destruct (shares a1 a2); [done|apply Forall2_nil; done]).
  destruct s; cbn [arm]; first [exact Hs|exact Hf|exact I|cbn [typed prototype]; repeat (apply list.Forall2_cons; split; [typed_arg|]); by apply Forall2_nil].
Qed.

(** An arm is refused without a report exactly where it says so. *)
Lemma arm_refused m s n a1 a2 a3 a4 a5 a6 : label m s = Some n ->
  arm m s n a1 a2 a3 a4 a5 a6 = Answer (- ENOSYS) <-> s ∈ refused \/ s = SYS_clone /\ shares a1 a2 = true.
Proof.
  intros Hl. assert (Hsc : s ∈ scratch_labels -> do_scratch_call m n = Inline s) by (intros; by apply scratch_chosen).
  assert (Hc : (if shares a1 a2 then Answer (- ENOSYS) else Call H_okm_fork []) = Answer (- ENOSYS) <-> shares a1 a2 = true) by (destruct (shares a1 a2); split; congruence).
  unfold refused. rewrite !elem_of_cons, elem_of_nil. split.
  - destruct s; cbn [arm]; try (rewrite Hsc by (unfold scratch_labels; repeat constructor)); try discriminate; auto 10. intros H. right. split; [done|by apply Hc].
  - intros H. destruct H as [H|[-> H]]; [|by apply Hc]. by repeat (destruct H as [->|H]; [done|]).
Qed.

Lemma arm_inline m s n a1 a2 a3 a4 a5 a6 s' : label m s = Some n -> arm m s n a1 a2 a3 a4 a5 a6 = Inline s' -> s' = s.
Proof.
  intros Hl. assert (Hsc : s ∈ scratch_labels -> do_scratch_call m n = Inline s) by (intros; by apply scratch_chosen).
  destruct s; cbn [arm]; try (rewrite Hsc by (unfold scratch_labels; repeat constructor)); try discriminate; try congruence. destruct (_ || _); discriminate.
Qed.

Lemma arm_present m s n a1 a2 a3 a4 a5 a6 pc : arm m s n a1 a2 a3 a4 a5 a6 <> Absent pc.
Proof. destruct s; cbn [arm]; try discriminate; try (destruct (_ || _); discriminate); unfold do_scratch_call; destruct (switch m scratch_labels n); discriminate. Qed.

(** On each architecture, for every number and every six words: what the dispatcher
    calls receives, in each parameter, a value of the parameter's type, so that no conversion
    beyond the arm's own casts changes it; a number that is a label's chooses that label's
    arm and no other's, and where the arm hands it to the second switch, that switch has it;
    ENOSYS is answered without a report exactly by the arms that refuse and by a clone that
    is not a fork; and a number that is no label's is reported and answered ENOSYS. *)
Theorem dispatch_typed m n a1 a2 a3 a4 a5 a6 :
  typed (okm_syscall m n a1 a2 a3 a4 a5 a6) /\
  (forall s, label m s = Some n ->
     okm_syscall m n a1 a2 a3 a4 a5 a6 = arm m s n a1 a2 a3 a4 a5 a6 /\
     (forall s', okm_syscall m n a1 a2 a3 a4 a5 a6 = Inline s' -> s' = s) /\ (s ∈ scratch_labels -> okm_syscall m n a1 a2 a3 a4 a5 a6 = Inline s) /\
     (okm_syscall m n a1 a2 a3 a4 a5 a6 = Answer (- ENOSYS) <-> s ∈ refused \/ s = SYS_clone /\ shares a1 a2 = true)) /\
  ((forall s, label m s <> Some n) <-> okm_syscall m n a1 a2 a3 a4 a5 a6 = Absent (Load n)).
Proof.
  split; [|split; [|split]].
  - unfold okm_syscall. destruct (switch m syscall_labels n); [apply arm_typed|done].
  - intros s Hl. unfold okm_syscall. rewrite (label_chosen m s n Hl). split; [done|]. split; [intros s'; by apply arm_inline|]. split; [|by apply arm_refused].
    intros Hs. rewrite <-(scratch_chosen m s n Hs Hl). revert Hs. unfold scratch_labels. rewrite !elem_of_cons, elem_of_nil. intros H. by repeat (destruct H as [->|H]; [done|]).
  - intros Hn. unfold okm_syscall. destruct (switch m syscall_labels n) as [s|] eqn:E; [|done]. exfalso. unfold switch in E. destruct (list_find _ _) as [[i s']|] eqn:Ef; [|done]. apply list_find_Some in Ef as (_ & Hl & _). by apply (Hn s').
  - unfold okm_syscall. destruct (switch m syscall_labels n) as [s|] eqn:E; [intros H; by apply arm_present in H|]. intros _. by apply label_absent.
Qed.

(** On no architecture is fstatfs a label: the condition that names it yields statfs alone,
    and the number reaches the default arm. *)
Theorem fstatfs_absent m n a1 a2 a3 a4 a5 a6 : number m SYS_fstatfs = Some n -> okm_syscall m n a1 a2 a3 a4 a5 a6 = Absent (Load n).
Proof. intros E. destruct m; vm_compute in E; injection E as <-; reflexivity. Qed.

Lemma fstatfs_absent_witness : okm_syscall X86_64 138 3 0 0 0 0 0 = Absent (Load 138).
Proof. exact (fstatfs_absent X86_64 138 3 0 0 0 0 0 eq_refl). Defined.

(** Six arguments of five types, as musl's sendto passes them: each arrives as it was. *)
Theorem sendto_arrives m n fd buf len flags addr alen : label m SYS_sendto = Some n ->
  in_type c_int fd -> in_type c_ptr buf -> in_type c_size len -> in_type c_int flags -> in_type c_ptr addr -> in_type c_unsigned alen ->
  okm_syscall m n (sext64 fd) (sext64 buf) (sext64 len) (sext64 flags) (sext64 addr) (sext64 alen) =
    Call H_okm_sock_send [Arg c_int fd; Arg c_ptr buf; Arg c_size len; Arg c_int flags; Arg c_ptr addr; Arg c_unsigned alen].
Proof. intros Hl H1 H2 H3 H4 H5 H6. unfold okm_syscall. rewrite (label_chosen m _ n Hl). cbn [arm]. by rewrite !scc_arrives. Qed.

Lemma sendto_arrives_witness : okm_syscall Aarch64 206 3 4096 (sext64 (2 ^ 64 - 1)) 0 0 0 = Call H_okm_sock_send [Arg c_int 3; Arg c_ptr 4096; Arg c_size (2 ^ 64 - 1); Arg c_int 0; Arg c_ptr 0; Arg c_unsigned 0].
Proof. exact (sendto_arrives Aarch64 206 3 4096 (2 ^ 64 - 1) 0 0 0 eq_refl ltac:(cbn; lia) ltac:(cbn; lia) ltac:(cbn; lia) ltac:(cbn; lia) ltac:(cbn; lia) ltac:(cbn; lia)). Defined.
