(* ===== verification/MiEnv.v ===== *)
(** What mimalloc asks of the environment beside memory
    (port/src/mimalloc/okm_mimalloc_prim.c): its options by name, the clock, the figures of
    the process, random bytes, the key by which a thread's heap is given back, and what it
    is told when it is started. mimalloc's own functions are arguments; a text is the list of
    its characters. *)
From S2P Require Import Prelude Kal Region MiPrim.
From stdpp Require Import base list option.
From Stdlib Require Import ZArith Lia.

#[local] Open Scope Z_scope.

(** ** Options by name *)

(** "MIMALLOC_". *)
Definition own_prefix : list Z := [77; 73; 77; 65; 76; 76; 79; 67; 95].

(** The array that was last looked through, and whether it held any of mimalloc's own. *)
Record mi_env := MiEnv { g_scanned : Z; g_has_own : bool }.

Definition ENV_MAX : nat := Z.to_nat 10000.

Section getenv.
(** _mi_strnicmp of two texts and a length; _mi_strlcpy of a text and a room: whether it was
    whole, and what was put. *)
Context (strnicmp : list Z -> list Z -> Z -> Z) (strlcpy : list Z -> Z -> bool * list Z).

Fixpoint scan_own (env : list (list Z)) : bool :=
  match env with
  | [] => false
  | s :: env' => if strnicmp s own_prefix 9 =? 0 then true else scan_own env'
  end.

(** The value of the first entry of the name; [s[len]] is the terminator at the text's end. *)
Fixpoint find_value (name : list Z) (env : list (list Z)) : option (list Z) :=
  match env with
  | [] => None
  | s :: env' =>
      if (strnicmp name s (Z.of_nat (length name)) =? 0) && (default 0 (s !! length name) =? 61)
      then Some (drop (S (length name)) s) else find_value name env'
  end.

(** [environ] is the array's address and its texts. The answer, and what was put. *)
Definition mi_prim_getenv (name : option (list Z)) (environ : option (Z * list (list Z))) (room : Z) : M mi_env (Z * option (list Z)) :=
  match name with
  | None => mret (-1, None)
  | Some name =>
      if Z.of_nat (length name) =? 0 then mret (-1, None)
      else match environ with
      | None => mret (-1, None)
      | Some (p, env) =>
          scanned ← gets g_scanned;
          when (negb (p =? scanned)) (modify (fun _ => MiEnv p (scan_own (take ENV_MAX env))));;
          has_own ← gets g_has_own;
          if negb has_own then mret (0, None)
          else match find_value name (take ENV_MAX env) with
          | None => mret (0, None)
          | Some v => let '(whole, put) := strlcpy v room in mret (if whole then 1 else -1, Some put)
          end
      end
  end.
End getenv.

(** ** The clock, the process and random bytes *)

Definition sealing (sn : okm_snapshot) : bool := sn_phase sn =? 1.

Definition mi_prim_clock_now (sn : okm_snapshot) (monotonic : Z) : Z := if sealing sn then 0 else monotonic / 1000000.

Record mi_process := MiProcess { utime : Z; current_rss : Z; peak_rss : Z }.

(** [have]: the three operations are there; [self]: the handle; [info]: the processor time and
    the memory and its peak, where they are said. What is filled in, and the handles opened
    and closed. *)
Definition mi_prim_process_info (sn : okm_snapshot) (have : bool) (self : kal_error + Z) (info : kal_error + option Z * option (Z * Z)) (p : mi_process) : mi_process * list Z * list Z :=
  if sealing sn || negb have then (p, [], [])
  else match self with
  | inl _ => (p, [], [])
  | inr me =>
      (match info with
       | inl _ => p
       | inr (cpu, mem) =>
           let p := match cpu with Some ns => MiProcess (ns / 1000000) (current_rss p) (peak_rss p) | None => p end in
           match mem with Some (now, peak) => MiProcess (utime p) now peak | None => p end
       end, [me], [me])
  end.

(** Whether the bytes are random; [fill] is kal_random_fill's answer, where it is there. *)
Definition mi_prim_random_buf (sn : okm_snapshot) (fill : option kal_error) : bool :=
  if sealing sn then false else match fill with None => false | Some e => bool_decide (e = kal_ok) end.

(** What is written to the error stream. *)
Definition mi_prim_out_stderr (sn : okm_snapshot) (msg : list Z) : option (list Z) := if sealing sn then None else Some msg.

(** ** The key of a thread's heap *)

(** [k_done] is g_done_key, none where it is invalid; [k_live] the keys created and not
    deleted; [k_values] a thread's value of a key. *)
Record done_key := DoneKey { k_done : option Z; k_live : list Z; k_values : list (Z * Z * Z) }.

(** [k]: what pthread_key_create answers. *)
Definition thread_init_auto_done (k : option Z) : M done_key () :=
  match k with
  | Some k => modify (fun s => DoneKey (Some k) (k :: k_live s) (k_values s))
  | None => mret ()
  end.

Definition thread_done_auto_done : M done_key () :=
  k ← gets k_done;
  modify (fun s => DoneKey None (k_live s) (k_values s));;
  match k with
  | Some k => put_try (fun s => l ← remove_one k (k_live s); Some (DoneKey (k_done s) l (k_values s)))
  | None => mret ()
  end.

Definition thread_associate (thread theap : Z) : M done_key () :=
  k ← gets k_done;
  match k with
  | Some k => modify (fun s => DoneKey (k_done s) (k_live s) ((thread, k, theap) :: k_values s))
  | None => mret ()
  end.

(** thread_ends: the heap that is given back. *)
Definition thread_ends (value : Z) : list Z := if negb (value =? 0) then [value] else [].

(** ** The start *)

Inductive resources := KAL_RESOURCES_BALANCED | KAL_RESOURCES_PERFORMANCE | KAL_RESOURCES_ECONOMY.

(** What is told to mimalloc. *)
Inductive mi_tell :=
| Set_default_purge_delay (ms : Z)
| Set_arena_reserve (kib : Z)
| Auto_process_init
| Random_reinit_default
| Random_reinit_meta.

(** [pref]: kal_env_resources' answer, where it is there. *)
Definition okm_malloc_preference (pref : option resources) : list mi_tell :=
  match pref with
  | Some KAL_RESOURCES_PERFORMANCE => [Set_default_purge_delay 1000]
  | Some KAL_RESOURCES_ECONOMY => [Set_default_purge_delay 0]
  | _ => []
  end.

Definition okm_malloc_init (sn : okm_snapshot) (pref : option resources) : list mi_tell :=
  (if negb (sealing sn) then okm_malloc_preference pref else []) ++ (if sealing sn then [Set_arena_reserve (4 * 1024)] else []) ++ [Auto_process_init].

(** [theap]: there is a default heap; [meta]: its process has one for its own data. *)
Definition okm_malloc_start (pref : option resources) (theap meta : bool) : list mi_tell :=
  Set_arena_reserve (1024 * 1024) :: okm_malloc_preference pref ++ (if theap then Random_reinit_default :: if meta then [Random_reinit_meta] else [] else []).

(** ** What is promised *)

(** A letter as its small one. *)
Definition lower (c : Z) : Z := if (65 <=? c) && (c <=? 90) then c + 32 else c.

(** What mimalloc's two functions do: the comparison of the first [n] characters ignores
    case, the copy is whole where there is room for the text and its terminator. *)
Class MiText (strnicmp : list Z -> list Z -> Z -> Z) (strlcpy : list Z -> Z -> bool * list Z) := {
  strnicmp_zero : forall a b n, 0 <= n -> strnicmp a b n = 0 <-> lower <$> take (Z.to_nat n) a = lower <$> take (Z.to_nat n) b;
  strlcpy_whole : forall s n, (strlcpy s n).1 = (Z.of_nat (length s) <? n);
  strlcpy_text : forall s n, Z.of_nat (length s) < n -> (strlcpy s n).2 = s;
}.

(** An entry's value, where its name is this one but for case. *)
Definition value_of (name s : list Z) : option (list Z) :=
  if bool_decide (lower <$> take (length name) s = lower <$> name) && bool_decide (s !! length name = Some 61) then Some (drop (S (length name)) s) else None.

(** The value of the first entry of the name, in the whole of the set. *)
Definition lookup_env (name : list Z) (env : list (list Z)) : option (list Z) := head (omap (value_of name) env).

Definition own_entry (s : list Z) : bool := bool_decide (lower <$> take 9 s = lower <$> own_prefix).

(** What is kept of the last look is true of the set as it is now. *)
Definition cache_ok (st : mi_env) (p : Z) (env : list (list Z)) : Prop := g_scanned st = p -> g_has_own st = existsb own_entry (take ENV_MAX env).

Section promises.
Context {strnicmp strlcpy} `{MT : MiText strnicmp strlcpy}.

Lemma scan_own_spec env : scan_own strnicmp env = existsb own_entry env.
Proof using MT.
  induction env as [|s env IH]; [done|]. cbn [scan_own existsb]. unfold own_entry at 1. pose proof (strnicmp_zero s own_prefix 9 ltac:(lia)) as H. change (Z.to_nat 9) with 9%nat in H. rewrite (take_ge own_prefix) in H by (cbn; lia).
  destruct (Z.eqb_spec (strnicmp s own_prefix 9) 0) as [E|E]; [by rewrite bool_decide_true by tauto|]. rewrite bool_decide_false by tauto. by rewrite IH.
Qed.

Lemma find_value_spec name env : find_value strnicmp name env = lookup_env name env.
Proof using MT.
  unfold lookup_env. induction env as [|s env IH]; [done|]. cbn [find_value omap list_omap]. unfold value_of at 1. pose proof (strnicmp_zero name s (Z.of_nat (length name)) ltac:(lia)) as H. rewrite Nat2Z.id, (take_ge name) in H by lia.
  destruct (Z.eqb_spec (strnicmp name s (Z.of_nat (length name))) 0) as [E|E]; [rewrite (bool_decide_true (lower <$> take _ s = _)) by (symmetry; tauto)|rewrite (bool_decide_false (lower <$> take _ s = _)) by (intros ?; apply E, H; congruence); done].
  cbn [andb]. destruct (s !! length name) as [c|] eqn:Ec; [change (default 0 (Some c)) with c|by rewrite (bool_decide_false (None = _))].
  destruct (Z.eqb_spec c 61) as [->|Hc]; [by rewrite bool_decide_true|]. rewrite bool_decide_false by congruence. done.
Qed.

(** An entry of a name of mimalloc's own is one of its own. *)
Lemma own_value name s v : lower <$> take 9 name = lower <$> own_prefix -> value_of name s = Some v -> own_entry s = true.
Proof.
  intros Hn. unfold value_of. destruct (bool_decide _) eqn:E; [|done]. apply bool_decide_eq_true in E. intros _. apply bool_decide_eq_true. rewrite <-Hn, !fmap_take, <-E, fmap_take, take_take.
  assert ((9 <= length name)%nat). { apply (f_equal length) in Hn. rewrite !length_fmap, length_take in Hn. change (length own_prefix) with 9%nat in Hn. lia. }
  by rewrite Nat.min_l by lia.
Qed.

Lemma no_own_none name env : lower <$> take 9 name = lower <$> own_prefix -> existsb own_entry env = false -> lookup_env name env = None.
Proof.
  intros Hn. unfold lookup_env. induction env as [|s env IH]; [done|]. cbn [existsb omap list_omap]. intros [Hs He]%orb_false_iff. destruct (value_of name s) as [v|] eqn:E; [|by apply IH].
  apply (own_value name s v Hn) in E. congruence.
Qed.

(** An option of mimalloc's own is answered as the set has it: 0 where no entry among the
    first ten thousand has its name, ignoring case, 1 and the first one's value where that
    fits, -1 where it does not; and what is kept of the look stays true. *)
Theorem getenv_exact name st p env room : lower <$> take 9 name = lower <$> own_prefix -> cache_ok st p env ->
  exists r out st', mi_prim_getenv strnicmp strlcpy (Some name) (Some (p, env)) room st = Some ((r, out), st') /\ cache_ok st' p env /\
    match lookup_env name (take ENV_MAX env) with
    | None => r = 0 /\ out = None
    | Some v => if Z.of_nat (length v) <? room then r = 1 /\ out = Some v else r = -1
    end.
Proof using MT.
  intros Hn Hc. unfold mi_prim_getenv. replace (Z.of_nat (length name) =? 0) with false. 2: { symmetry. apply Z.eqb_neq. intros E. destruct name; [discriminate Hn|cbn in E; lia]. }
  assert (exists st1, when (negb (p =? g_scanned st)) (modify (fun _ => MiEnv p (scan_own strnicmp (take ENV_MAX env)))) st = Some ((), st1) /\ g_has_own st1 = existsb own_entry (take ENV_MAX env)) as (st1 & E1 & Hown).
  { destruct (Z.eqb_spec p (g_scanned st)) as [E|E]; cbn [negb when]; [exists st; split; [done|by apply Hc]|]. eexists. split; [reflexivity|apply scan_own_spec]. }
  rewrite (bind_run _ _ st (g_scanned st) st) by done. rewrite (bind_run _ _ st _ st1 E1). rewrite (bind_run _ _ st1 (g_has_own st1) st1) by done.
  assert (Hc1 : cache_ok st1 p env) by (intros _; exact Hown). rewrite Hown. destruct (existsb own_entry (take ENV_MAX env)) eqn:Eo; cbn [negb].
  - rewrite find_value_spec. destruct (lookup_env name (take ENV_MAX env)) as [v|]; [|by exists 0, None, st1].
    pose proof (strlcpy_whole v room) as Hw. pose proof (strlcpy_text v room) as Ht. destruct (strlcpy v room) as [w put]. cbn in Hw, Ht. do 3 eexists. split; [reflexivity|]. split; [done|]. subst w.
    destruct (Z.ltb_spec (Z.of_nat (length v)) room); [by rewrite Ht|done].
  - rewrite (no_own_none name (take ENV_MAX env) Hn Eo). by exists 0, None, st1.
Qed.

(** But an entry that setenv adds to an array which realloc leaves where it was is not
    found, once the array was looked through without one. *)
Theorem getenv_stale name v p env room : lower <$> take 9 name = lower <$> own_prefix -> existsb own_entry (take ENV_MAX env) = false -> (length env < ENV_MAX)%nat ->
  lookup_env name (take ENV_MAX (env ++ [name ++ 61 :: v])) = Some v /\
  mi_prim_getenv strnicmp strlcpy (Some name) (Some (p, env ++ [name ++ 61 :: v])) room (MiEnv p false) = Some ((0, None), MiEnv p false).
Proof using.
  intros Hn He Hl. split.
  - rewrite take_ge in He by lia. rewrite take_ge by (rewrite length_app; cbn [length]; lia). unfold lookup_env. rewrite omap_app. assert (H := no_own_none name env Hn He). unfold lookup_env in H.
    destruct (omap (value_of name) env); [|done]. cbn [app omap list_omap]. unfold value_of. rewrite take_app_length, bool_decide_true by done. rewrite lookup_app_r, Nat.sub_diag by lia. cbn [lookup list_lookup andb]. rewrite bool_decide_true by done.
    cbn [list.head]. f_equal. rewrite drop_app_ge by lia. by replace (S (length name) - length name)%nat with 1%nat by lia.
  - unfold mi_prim_getenv. replace (Z.of_nat (length name) =? 0) with false; [|symmetry; apply Z.eqb_neq; intros E; destruct name; [discriminate Hn|cbn in E; lia]].
    unfold mbind, M_bind, gets, when, modify. cbn [g_scanned]. by rewrite Z.eqb_refl.
Qed.
End promises.

(** An instance of mimalloc's two functions. *)
Definition cmp_text (a b : list Z) (n : Z) : Z := if bool_decide (lower <$> take (Z.to_nat n) a = lower <$> take (Z.to_nat n) b) then 0 else 1.
Definition copy_text (s : list Z) (n : Z) : bool * list Z := (Z.of_nat (length s) <? n, take (Z.to_nat (n - 1)) s).

#[export] Instance mi_text : MiText cmp_text copy_text.
Proof.
  split; [|done|].
  - intros a b n _. unfold cmp_text. case_bool_decide; split; done.
  - intros s n H. cbn. apply take_ge. lia.
Qed.

(** "mimalloc_x" asked for, "MIMALLOC_X=1" in the set. *)
Definition option_x : list Z := [109; 105; 109; 97; 108; 108; 111; 99; 95; 120].
Definition set_x : list (list Z) := [[65; 61; 66]; own_prefix ++ [88; 61; 49]].

Lemma getenv_exact_witness : exists st', mi_prim_getenv cmp_text copy_text (Some option_x) (Some (64, set_x)) 8 (MiEnv 0 false) = Some ((1, Some [49]), st').
Proof.
  destruct (getenv_exact (strnicmp := cmp_text) (strlcpy := copy_text) option_x (MiEnv 0 false) 64 set_x 8) as (r & out & st' & E & _ & H); [reflexivity|intros E; discriminate E|].
  change (lookup_env option_x (take ENV_MAX set_x)) with (Some [49]) in H. destruct H as [-> ->]. exists st'. exact E.
Defined.

Lemma getenv_stale_witness : mi_prim_getenv cmp_text copy_text (Some option_x) (Some (64, [[65; 61; 66]] ++ [option_x ++ 61 :: [49]])) 8 (MiEnv 64 false) = Some ((0, None), MiEnv 64 false).
Proof. refine (proj2 (getenv_stale (strnicmp := cmp_text) (strlcpy := copy_text) option_x [49] 64 [[65; 61; 66]] 8 eq_refl eq_refl _)). unfold ENV_MAX. cbn [length]. lia. Defined.

(** While a runner runs the initialisers for a snapshot, nothing is asked of the environment
    but memory: the clock reads zero, the process's figures are left and no handle is opened,
    no byte is random, nothing is written, and the preference is not looked at. *)
Theorem sealed_asks_nothing sn monotonic have self info p fill msg pref pref' : sealing sn = true ->
  mi_prim_clock_now sn monotonic = 0 /\ mi_prim_process_info sn have self info p = (p, [], []) /\ mi_prim_random_buf sn fill = false /\ mi_prim_out_stderr sn msg = None /\
  okm_malloc_init sn pref = okm_malloc_init sn pref' /\ Set_arena_reserve 4096 ∈ okm_malloc_init sn pref.
Proof.
  intros Hs. unfold mi_prim_clock_now, mi_prim_process_info, mi_prim_random_buf, mi_prim_out_stderr, okm_malloc_init. rewrite Hs. cbn. split_and!; try done. by left.
Qed.

Lemma sealed_asks_nothing_witness : okm_malloc_init (Snapshot 0 0 1 0) (Some KAL_RESOURCES_ECONOMY) = okm_malloc_init (Snapshot 0 0 1 0) None.
Proof. exact (proj1 (proj2 (proj2 (proj2 (proj2 (sealed_asks_nothing (Snapshot 0 0 1 0) 0 true (inr 1) (inl kal_err_io) (MiProcess 0 0 0) None [] (Some KAL_RESOURCES_ECONOMY) None eq_refl)))))). Defined.

(** A handle of the process that is opened is closed, and figures that are not said are left. *)
Theorem figures_closed sn have self info p : let r := mi_prim_process_info sn have self info p in
  r.1.2 = r.2 /\ (forall e, info = inl e -> r.1.1 = p) /\ (forall mem, info = inr (None, mem) -> utime r.1.1 = utime p) /\ (forall cpu, info = inr (cpu, None) -> current_rss r.1.1 = current_rss p /\ peak_rss r.1.1 = peak_rss p).
Proof.
  cbv zeta. unfold mi_prim_process_info. destruct (sealing sn || negb have); [split_and!; intros; subst; done|]. destruct self as [e|me]; [split_and!; intros; subst; done|].
  split_and!; [done|by intros e ->|intros mem ->; by destruct mem as [[? ?]|]|intros cpu ->; by destruct cpu].
Qed.

Lemma remove_one_in (x : Z) l : x ∈ l -> exists k, remove_one x l = Some k /\ l ≡ₚ x :: k.
Proof.
  intros (l1 & l2 & ->)%list_elem_of_split. destruct (remove_one_perm x (l1 ++ x :: l2) (l1 ++ l2)) as (k & E & Hk); [by rewrite Permutation_middle|]. exists k. split; [done|]. by rewrite Hk, Permutation_middle.
Qed.

(** The key, over any threads' starts and ends of the allocator. *)
Inductive key_steps : done_key -> Prop :=
| Key_none : key_steps (DoneKey None [] [])
| Key_init s k s' : key_steps s -> (forall x, k = Some x -> x ∉ k_live s) -> thread_init_auto_done k s = Some ((), s') -> key_steps s'
| Key_done s s' : key_steps s -> thread_done_auto_done s = Some ((), s') -> key_steps s'
| Key_associate s thread theap s' : key_steps s -> thread_associate thread theap s = Some ((), s') -> key_steps s'.

(** The key that is used is one that was created and not deleted, so that deleting it is
    always of a key that is there, and after it no thread's heap is given to it. *)
Theorem done_key_live s : key_steps s -> (forall k, k_done s = Some k -> k ∈ k_live s) /\ NoDup (k_live s) /\
  exists s', thread_done_auto_done s = Some ((), s') /\ k_done s' = None /\ forall thread theap, thread_associate thread theap s' = Some ((), s').
Proof.
  intros H. assert (Hk : (forall k, k_done s = Some k -> k ∈ k_live s) /\ NoDup (k_live s)).
  { induction H as [|s k s' _ [IH IHn] Hf E|s s' _ [IH IHn] E|s t h s' _ [IH IHn] E].
    - split; [done|constructor].
    - destruct k as [k|]; injection E as <-; [|done]. cbn. split; [intros k' [= <-]; by left|]. constructor; [by apply Hf|done].
    - revert E. unfold thread_done_auto_done, mbind, M_bind, gets, modify, put_try. cbn. destruct (k_done s) as [k|] eqn:Ek; [|intros [= <-]; done]. cbn. destruct (remove_one_in k (k_live s) (IH k eq_refl)) as (l & -> & Hl). intros [= <-]. cbn. split; [done|].
      rewrite Hl in IHn. by apply list.NoDup_cons in IHn as [_ ?].
    - revert E. unfold thread_associate, mbind, M_bind, gets, modify. destruct (k_done s) as [k|] eqn:Ek; intros [= <-]; cbn; rewrite ?Ek; done. }
  destruct Hk as [Hk Hn]. split; [done|]. split; [done|]. unfold thread_done_auto_done, mbind, M_bind, gets, modify, put_try. destruct (k_done s) as [k|] eqn:Ek; [|eexists; split; [reflexivity|done]]. cbn.
  destruct (remove_one_in k (k_live s) (Hk k eq_refl)) as (l & -> & _). cbn. eexists. split; [reflexivity|done].
Qed.

Lemma done_key_live_witness : exists s', thread_done_auto_done (DoneKey (Some 3) [3] []) = Some ((), s') /\ k_done s' = None.
Proof.
  destruct (done_key_live (DoneKey (Some 3) [3] [])) as (_ & _ & s' & E & Hn & _); [|exists s'; split; [exact E|exact Hn]].
  apply (Key_init (DoneKey None [] []) (Some 3)); [apply Key_none|intros x _; apply not_elem_of_nil|reflexivity].
Defined.
