(* ===== verification/Grants.v ===== *)
(** A held directory with less, at the program's request (port/src/okm_fd.c: okm_preopen,
    okm_preopen_attenuate; port/include/okm_preopen.h says what it promises), and that a
    program reaches nothing outside the directories it holds, whatever it does with them.
    The record is opened with musl's open, whose call is [do_openat]. *)
From S2P Require Import Prelude Kal FdTable FdTableOk FdTheorems Names NamesOk NamesTheorems MapFile Nodes NodesTheorems Calls Replacements ReplacementsTheorems.
From stdpp Require Import base list option relations.
From Stdlib Require Import ZArith Lia.

#[local] Open Scope Z_scope.

(** The directory, its name and the name's length. *)
Definition okm_preopen (g : names) (i : Z) : Z + (Z * str * Z) :=
  if (i <? 0) || (Z.of_nat (length (g_pre g)) <=? i) then inl (- EINVAL)
  else match at_ (g_pre g) i with Some q => inr (pre_dir q, pre_name q, len (pre_name q)) | None => inl (- EINVAL) end.

(** What the environment is told of the directory it is to derive; a record there is not
    is zero. *)
Record dir_rights := Rights { dr_flags : Z; dr_record : Z }.

(** [while (i < g_npre && !(same length and bytes)) i++]. *)
Fixpoint held_index (l : list preopen) (name : str) : option nat :=
  match l with
  | [] => None
  | q :: l' => if (len (pre_name q) =? len name) && bool_decide (pre_name q = name) then Some 0%nat else S <$> held_index l' name
  end.

Definition renew (g : names) (i : nat) (q : preopen) (less : Z) : names :=
  Names (<[i := Preopen less (pre_name q)]> (g_pre g)) (if okm_cwd_dir g =? pre_dir q then less else okm_cwd_dir g) (g_cwd g).

Section attenuate.
Context (me : Z) (can_bound : bool) (g : names).
(** What the environment answers to [do_openat]'s questions. *)
Context (fs_info : Z -> str -> bool -> kal_error + node_info).
Context (fs_open : Z -> str -> kal_open -> kal_error + Z) (fs_open_dir : Z -> str -> kal_error + Z).
Context (fs_stream : Z -> Z) (alloc : bool).
(** The positions openkal gives the flag and the property; the properties of a
    directory's volume; the operation, where the environment has it. *)
Context (KAL_DIR_RECORDED KAL_FS_PROP_ATTENUATE : Z) (fs_props : Z -> Z).
Context (attenuate : option (Z -> dir_rights -> kal_error + Z)).

(** musl's open: what is returned, and what errno is set to. *)
Definition open_ (path : str) (flags : Z) : M fd_table (Z * option Z) :=
  r ← do_openat me g fs_info fs_open fs_open_dir fs_stream alloc AT_FDCWD path (Z.lor flags O_LARGEFILE);
  let fd := r.1.1 in
  when ((0 <=? fd) && has flags O_CLOEXEC) (sys_fcntl me can_bound fd F_SETFD FD_CLOEXEC None (inl kal_err_invalid) kal_ok;; mret ());;
  mret (returned fd).

Definition record_flags : Z := Z.lor (Z.lor (Z.lor O_WRONLY O_CREAT) O_APPEND) O_CLOEXEC.

(** The file the record is written to: an error's number, or the file. *)
Definition open_record (record : str) : M fd_table (Z + Z) :=
  r ← open_ record record_flags;
  let '(fd, e) := r in
  if fd <? 0 then mret (inl (default 0 e))
  else
    t ← gets id;
    match desc_at t fd with
    | Some d => if bool_decide (d_kind d = OKM_FILE) then mret (inr (d_file d)) else mret (inl EINVAL)
    | None => mret (inl EINVAL)
    end.

(** From the rights on. *)
Definition attenuate_at (derive : Z -> dir_rights -> kal_error + Z) (i : nat) (q : preopen) (rights : dir_rights) : (Z * option Z) * names :=
  match derive (pre_dir q) rights with
  | inl e => ((-1, Some (okm_errno e)), g)
  | inr less => ((0, None), renew g i q less)
  end.

(** What is returned, what errno is set to, and the supplied directories. *)
Definition okm_preopen_attenuate (name : str) (flags : Z) (record : str) : M fd_table ((Z * option Z) * names) :=
  match (i ← held_index (g_pre g) name; q ← g_pre g !! i; Some (i, q)) with
  | None => mret ((-1, Some ENOENT), g)
  | Some (i, q) =>
      match attenuate with
      | None => mret ((-1, Some ENOTSUP), g)
      | Some derive =>
          if negb (has (fs_props (pre_dir q)) KAL_FS_PROP_ATTENUATE) then mret ((-1, Some ENOTSUP), g)
          else if has flags KAL_DIR_RECORDED then
            f ← open_record record;
            match f with
            | inl e => mret ((-1, Some e), g)
            | inr file => mret (attenuate_at derive i q (Rights flags file))
            end
          else mret (attenuate_at derive i q (Rights flags 0))
      end
  end.
End attenuate.

(** ** What the resolver answers afterwards *)

(** Where the directory was [old], [less]. *)
Definition moved (old less : Z) (r : Z + okm_at) : Z + okm_at :=
  match r with
  | inl e => inl e
  | inr a => inr (At (if at_base a =? old then less else at_base a) (at_rel a))
  end.

Definition moved_pre (old less : Z) (q : preopen) : preopen := if pre_dir q =? old then Preopen less (pre_name q) else q.

Lemma moved_name old less q : pre_name (moved_pre old less q) = pre_name q.
Proof. unfold moved_pre. by split_if. Qed.

Lemma longest_moved old less best l abs : longest (moved_pre old less <$> best) (moved_pre old less <$> l) abs = moved_pre old less <$> longest best l abs.
Proof.
  revert best. induction l as [|q l IH]; intros best; [done|]. cbn [longest fmap list_fmap]. rewrite moved_name, <-IH. f_equal.
  destruct (negb _); [done|]. destruct best as [b|]; [|done]. cbn [fmap option_fmap option_map]. rewrite moved_name. by destruct (_ <? _).
Qed.

(** With a handle of its own for each directory, the one that is replaced is every one of
    that handle. *)
Lemma renew_moved g i q less : NoDup (pre_dir <$> g_pre g) -> g_pre g !! i = Some q -> g_pre (renew g i q less) = moved_pre (pre_dir q) less <$> g_pre g.
Proof.
  intros Hnd Hi. apply list_eq. intros j. cbn [renew g_pre]. rewrite list_lookup_fmap. destruct (decide (i = j)) as [<-|Hne].
  - rewrite list_lookup_insert_eq by (by eapply lookup_lt_Some). rewrite Hi. cbn. unfold moved_pre. by rewrite Z.eqb_refl.
  - rewrite list_lookup_insert_ne by done. destruct (g_pre g !! j) as [x|] eqn:Ex; [|done]. cbn. unfold moved_pre. destruct (_ =? _) eqn:E; [|done]. boolean.
    destruct Hne. eapply (NoDup_lookup _ _ _ (pre_dir q) Hnd); rewrite list_lookup_fmap; [by rewrite Hi|by rewrite Ex, <-E].
Qed.

Section renewed.
Context (g : names) (i : nat) (q : preopen) (less : Z).
Context (Hnd : NoDup (pre_dir <$> g_pre g)) (Hi : g_pre g !! i = Some q).
#[local] Abbreviation g' := (renew g i q less).

Lemma resolve_abs_moved abs : resolve_abs g' abs = moved (pre_dir q) less (resolve_abs g abs).
Proof using Hnd Hi.
  unfold resolve_abs. rewrite (renew_moved g i q less Hnd Hi). change None with (moved_pre (pre_dir q) less <$> None) at 1. rewrite longest_moved.
  destruct (longest None (g_pre g) abs) as [b|]; [|done]. cbn [fmap option_fmap option_map moved at_base at_rel]. rewrite moved_name. unfold moved_pre. by split_if.
Qed.

(** Names given by a descriptor are beneath a directory whose name is known. *)
Lemma resolve_moved t dirfd path empty_ok : (forall p, desc_at t dirfd = Some p -> dir_name t p <> None) ->
  okm_resolve t g' dirfd path empty_ok = moved (pre_dir q) less (okm_resolve t g dirfd path empty_ok).
Proof using Hnd Hi.
  intros Hname. unfold okm_resolve. change (g_cwd g') with (g_cwd g).
  assert (forall prefix, match Names.join prefix path OKM_MAX_PATH with inl e => inl e | inr abs => resolve_abs g' abs end =
    moved (pre_dir q) less (match Names.join prefix path OKM_MAX_PATH with inl e => inl e | inr abs => resolve_abs g abs end)) as Hj.
  { intros prefix. destruct (Names.join prefix path OKM_MAX_PATH); [done|apply resolve_abs_moved]. }
  split_if; [done|]. split_if; [apply resolve_abs_moved|]. split_if; [apply Hj|]. split_if; [apply Hj|].
  fold (desc_at t dirfd). destruct (desc_at t dirfd) as [d|]; [|done]. split_if; [done|]. destruct (dir_name t d) eqn:E; [apply Hj|]. by destruct (Hname d).
Qed.
End renewed.

Lemma moved_avoids old less r a : less <> old -> moved old less r = inr a -> at_base a <> old.
Proof. intros Hne. destruct r as [|b]; [done|]. intros [= <-]. cbn [at_base]. split_if; boolean; congruence. Qed.

Lemma held_index_spec l name i : held_index l name = Some i ->
  exists q, l !! i = Some q /\ pre_name q = name /\ forall j x, (j < i)%nat -> l !! j = Some x -> pre_name x <> name.
Proof.
  revert i. induction l as [|q l IH]; intros i; [done|]. cbn [held_index]. destruct (_ && _) eqn:E; boolean.
  - intros [= <-]. exists q. split_and!; [done| |intros; lia]. by case_bool_decide.
  - intros (k & Hk & ->)%fmap_Some. destruct (IH k Hk) as (x & Hx & Hn & Hfirst). exists x. split_and!; [done|done|].
    intros [|j] y Hj; cbn; [|intros; eapply Hfirst; [|done]; lia]. intros [= <-] Heq. rewrite bool_decide_eq_true_2 in E by done. rewrite Heq in E. lia.
Qed.

(** ** The call *)

Section attenuated.
Context (me : Z) (can_bound : bool) (g : names).
Context (fs_info : Z -> str -> bool -> kal_error + node_info).
Context (fs_open : Z -> str -> kal_open -> kal_error + Z) (fs_open_dir : Z -> str -> kal_error + Z).
Context (fs_stream : Z -> Z) (alloc : bool).
Context (Hdir : forall b r, fs_open_dir b r <> inl kal_ok) (Hopen : forall b r f, fs_open b r f <> inl kal_ok).

Lemma has_large flags : has (Z.lor flags O_LARGEFILE) O_CLOEXEC = has flags O_CLOEXEC.
Proof. unfold has. rewrite Z.land_lor_distr_l. change (Z.land O_LARGEFILE O_CLOEXEC) with 0. by rewrite Z.lor_0_r. Qed.

(** musl's open: minus one, errno and nothing open, or the lowest descriptor. *)
Lemma open_whole path flags t : table_ok t ->
  exists r t', open_ me can_bound g fs_info fs_open fs_open_dir fs_stream alloc path flags t = Some (r, t') /\ table_ok t' /\
    ((exists e, r = (-1, Some e)) /\ t' = t \/
     r.2 = None /\ exists kind opened, opened_as t t' r.1 kind opened (Z.lor flags O_LARGEFILE)).
Proof using Hdir Hopen.
  intros Ht. unfold open_. destruct (openat_whole me g fs_info fs_open fs_open_dir fs_stream alloc AT_FDCWD path (Z.lor flags O_LARGEFILE) t Ht Hdir Hopen) as (fd & opened & closed_ & t' & E & Ht' & H).
  rewrite (bind_run _ _ _ _ _ E). cbn [fst]. unfold errno_answer in H. destruct H as [([Hlo Hhi] & -> & _)|(Hfd & _ & kind & Hoa)].
  - replace (0 <=? fd) with false by lia. cbn [andb when]. exists (returned fd), t. split_and!; [done|done|]. left. split; [|done]. exists (- fd).
    rewrite <-(Z.opp_involutive fd) at 1. apply returned_error. lia.
  - exists (fd, None), t'. destruct (oa_lowest _ _ _ _ _ _ Hoa) as (Hr & _). assert (OKM_MAX_FD < 2 ^ 63) by done.
    assert (returned fd = (fd, None)) as Hret by (apply returned_value; lia).
    split_and!; [|done|right; eauto]. replace (0 <=? fd) with true by lia. cbn [andb]. destruct (has flags O_CLOEXEC) eqn:Ec; cbn [when].
    + rewrite (bind_run _ _ t' () t'); [by rewrite Hret|]. destruct (oa_desc _ _ _ _ _ _ Hoa) as (i & p & Hof & Hp & _). pose proof (oa_mark _ _ _ _ _ _ Hoa) as Hm. rewrite has_large, Ec in Hm.
      apply (setfd_again me can_bound t' fd i); [done| |by rewrite Hp]. apply okm_desc_of_some in Hof as (_ & _ & m & Hm'). rewrite Hm' in *. cbn in Hm. congruence.
    + rewrite (bind_run _ _ t' () t') by done. by rewrite Hret.
Qed.

(** The record's file is the one its descriptor holds. *)
Lemma record_whole record t : table_ok t ->
  exists r t', open_record me can_bound g fs_info fs_open fs_open_dir fs_stream alloc record t = Some (r, t') /\ table_ok t' /\
    (t' = t /\ (exists e, r = inl e) \/ exists fd kind opened, opened_as t t' fd kind opened (Z.lor record_flags O_LARGEFILE) /\ match r with inr f => kind = OKM_FILE /\ R_file f ∈ opened | inl e => e = EINVAL /\ kind <> OKM_FILE end).
Proof using Hdir Hopen.
  intros Ht. unfold open_record. destruct (open_whole record record_flags t Ht) as ([fd e] & t' & E & Ht' & H). rewrite (bind_run _ _ _ _ _ E).
  destruct H as [([e' [= -> ->]] & ->)|(_ & kind & opened & Hoa)]; [exists (inl e'), t; split_and!; [done|done|]; left; eauto|]. cbn [fst] in Hoa.
  destruct (oa_lowest _ _ _ _ _ _ Hoa) as (Hr & _). replace (fd <? 0) with false by lia. rewrite (bind_run _ _ t' t' t') by done.
  destruct (oa_desc _ _ _ _ _ _ Hoa) as (i & p & Hof & Hp & Hk & Ho & _). unfold desc_at. rewrite Hof. cbn [mbind option_bind]. rewrite Hp. case_bool_decide as Hf.
  - exists (inr (d_file p)), t'. split_and!; [done|done|]. right. exists fd, kind, opened. split; [done|]. split; [congruence|]. rewrite <-Ho. unfold owned, closes. rewrite Hf. by left.
  - exists (inl EINVAL), t'. split_and!; [done|done|]. right. exists fd, kind, opened. split_and!; [done|done|congruence].
Qed.
End attenuated.

(** Answered [r] with the directories [g']: minus one, errno and the directories as they
    were; or zero, and the first one held under that name is the one derived from it. *)
Definition attenuated (g : names) (attenuate : option (Z -> dir_rights -> kal_error + Z)) (name : str) (flags : Z) (r : Z * option Z) (g' : names) : Prop :=
  (exists e, r = (-1, Some e)) /\ g' = g \/
  r = (0, None) /\ exists i q less, g_pre g !! i = Some q /\ pre_name q = name /\ (forall j x, (j < i)%nat -> g_pre g !! j = Some x -> pre_name x <> name) /\
    (exists derive rights, attenuate = Some derive /\ dr_flags rights = flags /\ derive (pre_dir q) rights = inr less) /\
    okm_cwd_dir g' = (if okm_cwd_dir g =? pre_dir q then less else okm_cwd_dir g) /\ g_cwd g' = g_cwd g /\
    forall t dirfd path empty_ok, (forall p, desc_at t dirfd = Some p -> dir_name t p <> None) ->
      okm_resolve t g' dirfd path empty_ok = moved (pre_dir q) less (okm_resolve t g dirfd path empty_ok) /\
      forall a, less <> pre_dir q -> okm_resolve t g' dirfd path empty_ok = inr a -> at_base a <> pre_dir q.

Lemma attenuate_at_ok g derive i q rights name : NoDup (pre_dir <$> g_pre g) -> held_index (g_pre g) name = Some i -> g_pre g !! i = Some q ->
  attenuated g (Some derive) name (dr_flags rights) (attenuate_at g derive i q rights).1 (attenuate_at g derive i q rights).2.
Proof.
  intros Hnd Hi Hq. apply held_index_spec in Hi as (q' & Hq' & Hname & Hfirst). rewrite Hq in Hq'. injection Hq' as <-.
  unfold attenuate_at. destruct (derive (pre_dir q) rights) as [e|less] eqn:E; [left; eauto|]. right. split; [done|]. exists i, q, less.
  split_and!; try done; [eauto|]. intros t dirfd path b Hn. cbn [snd]. rewrite (resolve_moved g i q less Hnd Hq t dirfd path b Hn). split; [done|]. intros a Hne. by apply moved_avoids.
Qed.

(** C38. okm_preopen_attenuate returns with the table whole, whatever the environment answers.
    Where it answers minus one, errno is set and the directories the program holds are as
    they were. Where it answers zero, the first directory held under that name is the one
    the environment derived: every name resolved through the directories held, by an
    absolute name, from the working directory or beneath a descriptor whose name is
    known, is resolved as before with the new directory where the old one was, so that
    none of them reaches the old one; and the working directory moves with it where it is
    that directory. The record's descriptor is the one change of the table, in either
    case: it stays where the attenuation is refused. *)
Theorem attenuated_everywhere me can_bound g fs_info fs_open fs_open_dir fs_stream alloc recorded attenuable fs_props attenuate name flags record t :
  table_ok t -> NoDup (pre_dir <$> g_pre g) -> (forall b r, fs_open_dir b r <> inl kal_ok) -> (forall b r f, fs_open b r f <> inl kal_ok) ->
  exists r g' t', okm_preopen_attenuate me can_bound g fs_info fs_open fs_open_dir fs_stream alloc recorded attenuable fs_props attenuate name flags record t = Some ((r, g'), t') /\
    table_ok t' /\ attenuated g attenuate name flags r g' /\
    (t' = t \/ has flags recorded = true /\ exists fd kind opened, opened_as t t' fd kind opened (Z.lor record_flags O_LARGEFILE)).
Proof.
  intros Ht Hnd Hdir Hopen. unfold okm_preopen_attenuate.
  assert (forall e, attenuated g attenuate name flags (-1, Some e) g) as Hrefuse by (left; eauto).
  destruct (held_index (g_pre g) name) as [i|] eqn:Ei; cbn [mbind option_bind]; [|do 3 eexists; split; [reflexivity|]; eauto].
  destruct (held_index_spec _ _ _ Ei) as (q & Hq & _). rewrite Hq. cbn [mbind option_bind].
  destruct attenuate as [derive|]; [|do 3 eexists; split; [reflexivity|]; eauto]. split_if; [do 3 eexists; split; [reflexivity|]; eauto|].
  assert (forall file t', exists r g' t'', (mret (attenuate_at g derive i q (Rights flags file)) : M fd_table _) t' = Some ((r, g'), t'') /\ t'' = t' /\ attenuated g (Some derive) name flags r g') as Hat.
  { intros file t'. do 3 eexists. split; [unfold mret, M_ret; by rewrite (surjective_pairing (attenuate_at _ _ _ _ _))|]. split; [done|]. by apply (attenuate_at_ok g derive i q (Rights flags file)). }
  split_if.
  - destruct (record_whole me can_bound g fs_info fs_open fs_open_dir fs_stream alloc Hdir Hopen record t Ht) as (f & t' & E & Ht' & H). rewrite (bind_run _ _ _ _ _ E).
    assert (t' = t \/ true = true /\ exists fd kind opened, opened_as t t' fd kind opened (Z.lor record_flags O_LARGEFILE)) as Htab by (destruct H as [[? _]|(fd & k & o & Hoa & _)]; [by left|right; split; [done|by exists fd, k, o]]).
    destruct f as [e|file]; [do 3 eexists; split; [reflexivity|]; eauto|]. destruct (Hat file t') as (r & g' & t'' & -> & -> & Ha). eauto 8.
  - destruct (Hat 0 t) as (r & g' & t'' & -> & -> & Ha). eauto 8.
Qed.

(** The whole file system held, and it made recorded: the record is the descriptor zero. *)
Definition derived (d : Z) (r : dir_rights) : kal_error + Z := inr (d + 100 + dr_record r).

Definition record_root (derive : Z -> dir_rights -> kal_error + Z) : option ((Z * option Z * names) * fd_table) :=
  okm_preopen_attenuate 1 true at_root (fun _ _ _ => inr plain_file) (fun _ _ _ => inr 6) (fun _ _ => inl kal_err_not_directory) id true 4 2 (fun _ => 2) (Some derive) [47] 4 [47; 97] started.

Lemma record_root_run : fst <$> record_root derived = Some ((0, None), Names [Preopen 110 [47]] 110 [47]).
Proof. by vm_compute. Qed.

Lemma attenuated_everywhere_witness : exists r g' t', record_root derived = Some ((r, g'), t') /\
  r = (0, None) /\ resolve_abs g' [47; 98] = inr (At 110 [98]) /\ table_ok t'.
Proof.
  destruct (attenuated_everywhere 1 true at_root (fun _ _ _ => inr plain_file) (fun _ _ _ => inr 6) (fun _ _ => inl kal_err_not_directory) id true 4 2 (fun _ => 2) (Some derived) [47] 4 [47; 97] started
    started_ok ltac:(apply NoDup_singleton) ltac:(done) ltac:(done)) as (r & g' & t' & E & Ht' & _).
  fold (record_root derived) in E. exists r, g', t'. split; [exact E|]. pose proof record_root_run as Hrun. rewrite E in Hrun. cbn in Hrun. injection Hrun as -> ->.
  split; [reflexivity|]. split; [by vm_compute|exact Ht'].
Defined.

(** And the record's descriptor where the environment refuses: it stays, though there is
    no record for it to be held for. *)
Lemma record_left_open : match record_root (fun _ _ => inl kal_err_invalid) with
  | Some ((r, g'), t') => r = (-1, Some EINVAL) /\ g' = at_root /\ okm_desc_of started 0 = None /\ d_kind <$> desc_at t' 0 = Some OKM_FILE
  | None => False
  end.
Proof. vm_compute. by split_and!. Qed.

(** ** Confinement *)

Section openat_stores.
Context (me : Z) (can_bound : bool) (g : names).
Context (fs_info : Z -> str -> bool -> kal_error + node_info).
Context (fs_open : Z -> str -> kal_open -> kal_error + Z) (fs_open_dir : Z -> str -> kal_error + Z).
Context (fs_stream : Z -> Z) (alloc : bool).






End openat_stores.














