(* ===== verification/Formats.v ===== *)
(** What the Windows target does of its own: the lists of constructors and destructors
    (port/src/okm_format.c: run_list, _init, _fini), and the suffix of a program's name
    (port/src/okm_spawn.c: startable_name under OKM_TARGET_WINDOWS). *)
From S2P Require Import Prelude Kal Names NamesOk NetAddr Nodes Spawn.
From stdpp Require Import base list option sets.
From Stdlib Require Import ZArith Lia.

#[local] Open Scope Z_scope.

(** ** The lists of the object format *)

(** [while (list[n + 1]) ++n]: no answer where a read leaves the list. *)
Fixpoint count_hooks (fuel : nat) (l : list Z) (n : Z) : option Z :=
  match fuel with
  | O => None
  | S k => match at_ l (n + 1) with
           | None => None
           | Some h => if h =? 0 then Some n else count_hooks k l (n + 1)
           end
  end.

(** [for (i = n; i >= 1; --i) list[i]()] and [for (i = 1; i <= n; ++i) list[i]()]: the
    functions called, in order. *)
Fixpoint call_down (n : nat) (l : list Z) : option (list Z) :=
  match n with
  | O => Some []
  | S k => h ← at_ l (Z.of_nat n); r ← call_down k l; Some (h :: r)
  end.

Fixpoint call_up (fuel : nat) (i n : Z) (l : list Z) : option (list Z) :=
  match fuel with
  | O => Some []
  | S k => if n <? i then Some [] else h ← at_ l i; r ← call_up k (i + 1) n l; Some (h :: r)
  end.

(** [hooks] is a null pointer, or the list; what is past it is not the program's. *)
Definition run_list (hooks : option (list Z)) (reverse : bool) : option (list Z) :=
  match hooks with
  | None => Some []
  | Some l =>
      n ← count_hooks (length l) l 0;
      if reverse then call_down (Z.to_nat n) l else call_up (S (Z.to_nat n)) 1 n l
  end.

Definition init_hooks (ctors : option (list Z)) := run_list ctors true.
Definition fini_hooks (dtors : option (list Z)) := run_list dtors false.

(** A list as the linker makes it: a sentinel, the entries and a null, and what follows. *)
Section linked.
Context (sentinel : Z) (hooks rest : list Z) (Hnz : Forall (fun h => h <> 0) hooks).
#[local] Abbreviation l := (sentinel :: hooks ++ 0 :: rest).

Lemma hook_at i : 1 <= i <= Z.of_nat (length hooks) -> at_ l i = hooks !! Z.to_nat (i - 1).
Proof using.
  intros Hi. unfold at_. replace (0 <=? i) with true by lia. replace (Z.to_nat i) with (S (Z.to_nat (i - 1))) by lia. cbn. apply lookup_app_l. lia.
Qed.

Lemma count_hooks_ok k n : (Z.to_nat (Z.of_nat (length hooks) - n) < k)%nat -> 0 <= n <= Z.of_nat (length hooks) -> count_hooks k l n = Some (Z.of_nat (length hooks)).
Proof using Hnz.
  revert n. induction k as [|k IH]; intros n Hk Hn; [lia|]. cbn [count_hooks]. destruct (Z.eq_dec n (Z.of_nat (length hooks))) as [->|Hne].
  - assert (at_ l (Z.of_nat (length hooks) + 1) = Some 0) as ->; [|done]. unfold at_. replace (0 <=? _) with true by lia. replace (Z.to_nat _) with (S (length hooks)) by lia.
    cbn. by apply list_lookup_middle.
  - rewrite hook_at by lia. destruct (lookup_lt_is_Some_2 hooks (Z.to_nat (n + 1 - 1)) ltac:(lia)) as [h Hh]. rewrite Hh.
    replace (h =? 0) with false by (rewrite list.Forall_forall in Hnz; specialize (Hnz h (list_elem_of_lookup_2 _ _ _ Hh)); lia). apply IH; lia.
Qed.

Lemma call_down_ok k : (k <= length hooks)%nat -> call_down k l = Some (reverse (take k hooks)).
Proof using.
  induction k as [|k IH]; intros Hk; [done|]. cbn [call_down]. rewrite hook_at by lia. replace (Z.to_nat (Z.of_nat (S k) - 1)) with k by lia.
  destruct (lookup_lt_is_Some_2 hooks k ltac:(lia)) as [h Hh]. rewrite Hh. cbn [mbind option_bind]. rewrite IH by lia. cbn. by rewrite (take_S_r _ _ _ Hh), reverse_snoc.
Qed.

Lemma call_up_ok k i : 1 <= i -> (Z.to_nat (Z.of_nat (length hooks) + 1 - i) < k)%nat -> call_up k i (Z.of_nat (length hooks)) l = Some (drop (Z.to_nat (i - 1)) hooks).
Proof using.
  revert i. induction k as [|k IH]; intros i Hi Hk; [lia|]. cbn [call_up]. destruct (Z.of_nat (length hooks) <? i) eqn:E; boolean.
  - by rewrite drop_ge by lia.
  - rewrite hook_at by lia. destruct (lookup_lt_is_Some_2 hooks (Z.to_nat (i - 1)) ltac:(lia)) as [h Hh]. rewrite Hh. cbn [mbind option_bind]. rewrite IH by lia. cbn.
    rewrite (drop_S _ _ _ Hh). do 3 f_equal. lia.
Qed.
End linked.

(** The constructors of a list the linker made are run once each, in the reverse of the
    order they were placed, and the destructors in that order; no read leaves the list,
    neither the sentinel nor what follows the null is called, and a program without a list
    runs nothing. *)
Theorem hooks_in_order sentinel hooks rest : Forall (fun h => h <> 0) hooks ->
  init_hooks (Some (sentinel :: hooks ++ 0 :: rest)) = Some (reverse hooks) /\ fini_hooks (Some (sentinel :: hooks ++ 0 :: rest)) = Some hooks /\
  init_hooks None = Some [] /\ fini_hooks None = Some [].
Proof.
  intros Hnz. unfold init_hooks, fini_hooks, run_list. rewrite !count_hooks_ok; [|done|cbn; rewrite length_app; cbn; lia|lia]. cbn [mbind option_bind]. rewrite Nat2Z.id.
  split_and!; [by rewrite call_down_ok, firstn_all by done|by rewrite call_up_ok by lia|done|done].
Qed.

Lemma hooks_in_order_witness : init_hooks (Some [-1; 10; 20; 0; 99]) = Some [20; 10].
Proof. exact (proj1 (hooks_in_order (-1) [10; 20] [99] ltac:(repeat constructor; lia))). Defined.

(** ** The name of a program *)

(** [for (i = n; i > 0; i--)]: the name from its end, until a separator or a dot. *)
Fixpoint has_suffix (rev_rel : str) : bool :=
  match rev_rel with
  | c :: r => if c =? slash then false else if c =? dot then true else has_suffix r
  | [] => false
  end.

(** ".exe" *)
Definition exe : str := [46; 101; 120; 101].

(** The answer, and the name [at] then has. *)
Definition startable_name (fs_info : Z -> str -> kal_error + node_kind) (a : okm_at) : Z * okm_at :=
  let e := startable fs_info (at_base a) (at_rel a) in
  if e =? ENOENT then
    if negb (has_suffix (rev (at_rel a))) && (len (at_rel a) + 4 <? OKM_MAX_PATH) then
      let a' := At (at_base a) (at_rel a ++ exe) in
      if startable fs_info (at_base a') (at_rel a') =? 0 then (0, a') else (e, a)
    else (e, a)
  else (e, a).

(** The last component has no dot. *)
Definition bare (rel : str) : Prop := dot ∉ (component (rev rel)).1.

Lemma has_suffix_bare rel : has_suffix (rev rel) = false <-> bare rel.
Proof.
  unfold bare. generalize (rev rel) as r. induction r as [|c r IH]; [split; [set_unfold; tauto|done]|]. cbn [has_suffix component].
  destruct (Z.eqb_spec c slash); [split; [set_unfold; tauto|done]|]. destruct (component r) as [s t]. cbn [fst] in *. destruct (Z.eqb_spec c dot) as [->|Hd]; [split; [done|set_unfold; tauto]|].
  rewrite IH. set_unfold. naive_solver.
Qed.

(** The enquiry and the start agree about the name: zero is answered of a name that can be
    started, which is the one given, or where that one is absent and its last component
    has no dot, it with the suffix; a name that bears no suffix is preferred. Every other
    answer is that of the name given, which is put back. The name fits its array. *)
Theorem startable_name_exact fs_info a e a' : startable_name fs_info a = (e, a') -> len (at_rel a) < OKM_MAX_PATH ->
  len (at_rel a') < OKM_MAX_PATH /\ at_base a' = at_base a /\
  (e = 0 -> startable fs_info (at_base a') (at_rel a') = 0) /\
  (a' = a /\ e = startable fs_info (at_base a) (at_rel a) \/
   e = 0 /\ startable fs_info (at_base a) (at_rel a) = ENOENT /\ bare (at_rel a) /\ at_rel a' = at_rel a ++ exe) /\
  (startable fs_info (at_base a) (at_rel a) = 0 -> a' = a).
Proof.
  unfold startable_name. intros E Hlen. destruct (startable fs_info (at_base a) (at_rel a) =? ENOENT) eqn:Ee; boolean; [|injection E as <- <-; eauto 8].
  assert (ENOENT <> 0) by done.
  destruct (_ && _) eqn:Es; [|injection E as <- <-; split_and!; eauto]. apply andb_true_iff in Es as [Hs%negb_true_iff Hfit]. boolean. cbn [at_base at_rel] in E.
  destruct (startable fs_info (at_base a) (at_rel a ++ exe) =? 0) eqn:E0; boolean; injection E as <- <-; [|split_and!; eauto].
  cbn [at_base at_rel]. rewrite len_app. change (len exe) with 4. split_and!; eauto; [|congruence]. right. split_and!; try done. by apply has_suffix_bare.
Qed.

(** Only the name with the suffix is there. *)
Definition only_exe (_ : Z) (rel : str) : kal_error + node_kind := inr (if bool_decide (rel = [99; 99; 46; 101; 120; 101]) then kal_node_file else kal_node_absent).

Lemma startable_name_exact_witness : exists a', startable_name only_exe (At 4 [99; 99]) = (0, a') /\ startable only_exe (at_base a') (at_rel a') = 0 /\ at_rel a' = [99; 99; 46; 101; 120; 101].
Proof.
  eexists. split; [reflexivity|]. split; [|reflexivity].
  exact (proj1 (proj2 (proj2 (startable_name_exact only_exe (At 4 [99; 99]) 0 _ eq_refl ltac:(by vm_compute)))) eq_refl).
Defined.
